(* ===== verification/_CoqProject ===== *)
-Q . S2P
Prelude.v
Machine.v
Proc.v
Runq.v
Sched.v
Schedmach.v
Spinlock.v
Sync.v
Ring.v
Pipe.v
Mem.v
Kalloc.v
Vm.v
Vmspec.v
Uvm.v
Ucopy.v
Addrspace.v
Bytes.v
Bio.v
Log.v
Recovery.v
Fs.v
Fsrules.v
Fsfile.v
Fswrite.v
Fsdir.v
Fsspec.v
Fspath.v
Grep.v
Umalloc.v
Shparse.v
Shspec.v
Virtio.v
Virtiospec.v
Virtioinit.v
Format.v
Kprintf.v
Uprintf.v
Ulib.v
Console.v
Consolespec.v
Consolemach.v
Procmem.v
Files.v
Fsrefs.v
Proclife.v
Procspec.v
Procfork.v
Procwait.v
Procfile.v
Syscall.v
Trapspec.v
Procboot.v
Procmach.v
Sysspec.v
