(* ===== verification/Prelude.v ===== *)
(** * A verification development for the xv6 kernel of this repository

    The program is xv6 for RISC-V with a direct-switch priority scheduler,
    semaphores and reader-writer locks, and its user programs.  This development
    is a shallow embedding: pure C functions are functions, code that changes
    state is a computation of the monad [M] below, whose outcome is a result, a
    panic, going to sleep or running out of fuel.  [wp] is total correctness: the
    computation returns and the postcondition holds.

    ** How the parts interact

    A trap enters [usertrap], which calls [syscall] and a handler.  Handlers change
    the process table, address spaces, open files and pipes; address spaces are page
    tables over pages of the page allocator; open files and directories hold inodes
    of the file system, which works on the log, which works on the buffer cache,
    which the disk driver fills.  Whoever has to wait sleeps and calls [schedule],
    which takes the next process from the priority run queue.

    ** Files and sources (paths under src/)

    - [Machine]: kernel/param.h, memlayout.h, riscv.h: limits, layout, page-table
      entries and address arithmetic.
    - [Proc], [Runq]: kernel/proc.h and the run queue of kernel/proc.c, on its
      linked representation; [Repr] relates it to lists of processes.
    - [Sched], [Schedmach]: sleep, wakeup, yield, schedule, kill and the scheduling
      part of exit and fork (kernel/proc.c), the timer part of kernel/trap.c, and
      the step relation [kstep] over them; its flag [win] admits interrupts in the
      windows where [sleep] and [exit] hold no lock.
    - [Spinlock], [Sync]: kernel/spinlock.c, sleeplock.c, semaphore.c, rwlock.c,
      for any number of harts or threads in any interleaving.
    - [Ring], [Pipe]: kernel/pipe.c, over an interface for user memory.
    - [Mem], [Kalloc]: kernel/string.c on byte memory, kernel/kalloc.c with the free
      list in the free pages ([FL]).
    - [Vm], [Vmspec], [Uvm], [Ucopy], [Addrspace]: kernel/vm.c; the operations, page
      tables as finite maps ([PT]), address spaces ([AS]), what a process sees of
      its memory ([ubyte]), and the theorems.
    - [Bytes], [Bio], [Log], [Recovery]: kernel/bio.c and kernel/log.c; a crash is a
      prefix of the writes to the disk.
    - [Fs], [Fsrules], [Fsfile], [Fswrite], [Fsdir], [Fsspec], [Fspath]:
      kernel/fs.c, from blocks to paths.
    - [Virtio], [Virtiospec], [Virtioinit]: kernel/virtio_disk.c against a device
      that follows the virtio specification.
    - [Console], [Consolespec], [Consolemach]: kernel/console.c and kernel/uart.c.
    - [Format], [Kprintf], [Uprintf], [Ulib]: kernel/printf.c, user/printf.c,
      user/ulib.c.
    - [Grep], [Umalloc], [Shparse], [Shspec]: user/grep.c, user/umalloc.c and the
      parser of user/sh.c.
    - [Procmem], [Files], [Proclife], [Syscall]: the state [sys] of memory, process
      table, open files, pipes and inode layer, and the operations on it: the
      address spaces of processes, kernel/file.c, the descriptor calls of
      kernel/sysfile.c, creation to reaping of processes in kernel/proc.c,
      kernel/syscall.c, the process calls of kernel/sysproc.c, and
      kernel/trap.c.  The inode layer is the interface [InodeOps] with the laws
      [InodeLaws]; [Fsrefs] discharges it with [Fs] and [Log].
    - [Procspec], [Procfork], [Procwait], [Procfile], [Trapspec], [Procboot]: the
      invariant [SYS] (who owns every page and every reference) and that each
      operation, each trap and the boot keep it.
    - [Procmach], [Sysspec]: the step relation [sstep] of user code, traps,
      interrupts and switches, and the theorems on it.  A system call is three
      steps: [usertrap] up to [intr_on], the call, the rest of [usertrap].

    ** What the theorems show

    - Processes: from the boot on, every state [sstep] reaches satisfies [SYS], no
      page is lost and no step panics ([system_safe]); a step leaves the memory,
      registers, files and directory of the processes that are not on the CPU alone
      ([step_isolates]); a trap panics exactly in the cases of [trap_panics]
      ([usertrap_outcome]); [fork], [exit], [wait], [pipe] and [growproc] by cases,
      failures included.
    - Scheduling: the run queue holds exactly the runnable processes as long as no
      interrupt hits the windows of [sleep] and [exit], and what goes wrong when one
      does; strict priority, aging, termination of [schedule].
    - Locks: mutual exclusion and exact counts, also when sleepers miss wakeups.
    - Memory: copying, freeing and user copies page by page, with no page lost on
      error paths.
    - Storage: the cache is an array of blocks, groups of file system calls are
      atomic across crashes, files read back what was written, directories find what
      was linked; the driver with its device is an atomic disk.
    - Streams: pipes and console are byte streams from the memory of the writers to
      the memory of the readers in every interleaving, also when sleepers miss
      wakeups, and input is lost only where a theorem says so.
    - Waiting: since [sleep] can lose a wakeup to an interrupt in its window
      ([sleep_window_loses_wakeup]), the machines of [Sync], [Pipe], [Virtiospec] and
      [Consolemach] let any sleepers miss a wakeup ([wakes], [lossy]); that a thread
      sleeps only as long as it has to is stated for runs in which none is missed.
    - User programs: the allocator, the matcher, the parser and the printing
      functions against specifications that do not mention their loops.
    - The theorems whose names say so ([begin_op_overcommits], [pgpte_panics],
      [malloc_int_overflow], ...) prove defects of the code for a class of inputs,
      or, for the windows of the scheduler, in a run from the boot.

    ** Bounds and fuel

    Loops that are not structural are [iterM n]: [n] is computed from the loop's own
    bound (one more than the bytes to copy, the entries of a table, the length of a
    line or list, NPROC for walks of the run queue, 3 levels for [freewalk]).  Since
    [wp] fails on [NoFuel], each specification also proves that the bound is enough.
    [malloc] and [free] of [Umalloc] and the reading loop of [Grep] take fuel as an
    argument, and their theorems give the amount that suffices.

    ** Assumptions and what is not modelled

    - [system_safe] and [step_isolates] are about one CPU (README: CPUS=1).
      Interrupts are taken at [intr_on], after a system call, on the way back to user
      space and in the idle loop; the body of a system call is one step up to its end
      or to the [swtch] with which it sleeps or exits.  Interrupts inside the body are
      covered by [Schedmach] only, and the windows of [sleep] and [exit] (see
      [sleep_window_loses_wakeup], [exit_window_revives_zombie]) are excluded.
    - They cover fork, exit, wait, pipe, kill, dup, getpid, sbrk, uptime, close and
      pgpte, as long as [init] neither exits, faults nor is killed and pgpte gets an
      address below [MAXVA]; the remaining handlers are a parameter.
    - [Fsrefs] is for inodes that are not unlinked while they are in use.
    - The bodies of read, write, stat and the calls on paths (open, link, unlink,
      mkdir, mknod, chdir) and exec.c are not modelled; the parts they call are.
    - The file system, cache and log run one call at a time; memory is sequentially
      consistent; a block write is atomic; the lock operations inside modelled
      functions have no effect of their own on one CPU.
    - Outside: assembly and machine mode (start.c, main.c, *.S), plic.c, headers with
      prototypes only, mkfs, the test programs and the small user programs, and the
      execution part of the shell: register accesses, assembly, host I/O or plain
      sequences of system calls. *)

From stdpp Require Export gmap list strings sets.
From Stdlib Require Export ZArith Lia.

#[global] Open Scope Z_scope.

(** ** Machine integers

    C integers are elements of [Z]; each operation that can leave its width
    wraps explicitly. *)

Definition u8 (x : Z) : Z := x mod 2 ^ 8.
Definition u16 (x : Z) : Z := x mod 2 ^ 16.
Definition u32 (x : Z) : Z := x mod 2 ^ 32.
Definition u64 (x : Z) : Z := x mod 2 ^ 64.

(** Two's complement reading of the low 32 (16, 8) bits. *)
Definition s32 (x : Z) : Z := (x + 2 ^ 31) mod 2 ^ 32 - 2 ^ 31.
Definition s16 (x : Z) : Z := (x + 2 ^ 15) mod 2 ^ 16 - 2 ^ 15.
Definition s8 (x : Z) : Z := (x + 2 ^ 7) mod 2 ^ 8 - 2 ^ 7.

Lemma s32_range x : - 2 ^ 31 ≤ s32 x < 2 ^ 31.
Proof. unfold s32. pose proof (Z.mod_pos_bound (x + 2 ^ 31) (2 ^ 32)). lia. Qed.

Lemma s32_id x : - 2 ^ 31 ≤ x < 2 ^ 31 → s32 x = x.
Proof. intros Hx. unfold s32. rewrite Z.mod_small; lia. Qed.

Lemma u32_s32 x : u32 (s32 x) = u32 x.
Proof. unfold u32, s32. rewrite <-Zminus_mod_idemp_l, Z.mod_mod, Zminus_mod_idemp_l by lia. f_equal. lia. Qed.

Lemma s32_u32 x : s32 (u32 x) = s32 x.
Proof. unfold u32, s32. by rewrite Zplus_mod_idemp_l. Qed.

(** ** Outcomes and the kernel monad

    A piece of kernel code takes a state and either returns, calls [panic]
    (which prints the message and spins for ever), goes to sleep on a channel
    (the state is the one in which the thread waits, its spinlock released), or
    exhausts the fuel of a loop whose recursion is not structural. *)

Inductive outcome (S A : Type) : Type :=
| Ok (a : A) (s : S)
| Panic (msg : string)
| Blocked (s : S)
| NoFuel.

Arguments Ok {S A} a s.
Arguments Panic {S A} msg.
Arguments Blocked {S A} s.
Arguments NoFuel {S A}.

Definition M (S A : Type) : Type := S → outcome S A.

#[export] Instance M_ret (S : Type) : MRet (M S) := λ A a s, Ok a s.

#[export] Instance M_bind (S : Type) : MBind (M S) := λ A B f m s,
  match m s with
  | Ok a s' => f a s'
  | Panic msg => Panic msg
  | Blocked s' => Blocked s'
  | NoFuel => NoFuel
  end.

Definition getS {S : Type} : M S S := λ s, Ok s s.
Definition putS {S : Type} (s' : S) : M S unit := λ _, Ok tt s'.
Definition modify {S : Type} (f : S → S) : M S unit := λ s, Ok tt (f s).
Definition gets {S A : Type} (f : S → A) : M S A := λ s, Ok (f s) s.
Definition panic {S A : Type} (msg : string) : M S A := λ _, Panic msg.
Definition block {S A : Type} : M S A := λ s, Blocked s.

(** Run code of a sub-component on its part of a larger state. *)
Definition zoom {S T A : Type} (get : S → T) (put : T → S → S) (m : M T A) : M S A :=
  λ s, match m (get s) with
       | Ok a t => Ok a (put t s)
       | Panic msg => Panic msg
       | Blocked t => Blocked (put t s)
       | NoFuel => NoFuel
       end.

(** [iterM n body a] repeats [body] from the loop variables [a] until it
    returns [inr], at most [n] times. *)
Fixpoint iterM {S A B : Type} (n : nat) (body : A → M S (A + B)) (a : A) : M S B :=
  match n with
  | O => λ _, NoFuel
  | Datatypes.S n' => r ← body a; match r with inl a' => iterM n' body a' | inr b => mret b end
  end.

(** [forM l body] runs [body] on the elements of [l] in order. *)
Fixpoint forM {S A : Type} (l : list A) (body : A → M S unit) : M S unit :=
  match l with
  | [] => mret tt
  | x :: l' => body x;; forM l' body
  end.

(** ** Weakest preconditions, total correctness *)

Definition wp {S A : Type} (m : M S A) (Q : A → S → Prop) (s : S) : Prop :=
  match m s with Ok a s' => Q a s' | _ => False end.

Section wp_rules.
Context {S : Type}.
Implicit Types s : S.

Lemma wp_ret {A} (a : A) (Q : A → S → Prop) s : Q a s → wp (mret a) Q s.
Proof. done. Qed.

Lemma wp_bind {A B} (m : M S A) (f : A → M S B) Q s :
  wp m (λ a, wp (f a) Q) s → wp (m ≫= f) Q s.
Proof. unfold wp, mbind, M_bind. by destruct (m s). Qed.

Lemma wp_bind_inv {A B} (m : M S A) (f : A → M S B) Q s :
  wp (m ≫= f) Q s → wp m (λ a, wp (f a) Q) s.
Proof. unfold wp, mbind, M_bind. by destruct (m s). Qed.

Lemma wp_mono {A} (m : M S A) (P Q : A → S → Prop) s :
  (∀ a s', P a s' → Q a s') → wp m P s → wp m Q s.
Proof. unfold wp. destruct (m s); naive_solver. Qed.

Lemma wp_and {A} (m : M S A) (P Q : A → S → Prop) s :
  wp m P s → wp m Q s → wp m (λ a s', P a s' ∧ Q a s') s.
Proof. unfold wp. by destruct (m s). Qed.

Lemma wp_get (Q : S → S → Prop) s : Q s s → wp getS Q s.
Proof. done. Qed.
Lemma wp_gets {A} (f : S → A) Q s : Q (f s) s → wp (gets f) Q s.
Proof. done. Qed.
Lemma wp_put (s' : S) (Q : unit → S → Prop) s : Q tt s' → wp (putS s') Q s.
Proof. done. Qed.
Lemma wp_modify (f : S → S) (Q : unit → S → Prop) s : Q tt (f s) → wp (modify f) Q s.
Proof. done. Qed.

Lemma wp_ok {A} (m : M S A) Q s : wp m Q s ↔ ∃ a s', m s = Ok a s' ∧ Q a s'.
Proof.
  unfold wp. destruct (m s) as [a s'| | |]; split; try done.
  - intros. by exists a, s'.
  - by intros (? & ? & [= -> ->] & ?).
  - by intros (? & ? & ? & ?).
  - by intros (? & ? & ? & ?).
  - by intros (? & ? & ? & ?).
Qed.

(** A computation that panics. *)
Lemma bind_panic {A B} (m : M S A) (k : A → M S B) msg s : m s = Panic msg → (m ≫= k) s = Panic msg.
Proof. intros E. unfold mbind, M_bind. by rewrite E. Qed.

Lemma wp_panic {A B} (m : M S A) (k : A → M S B) msg s : wp m (λ a s', k a s' = Panic msg) s → (m ≫= k) s = Panic msg.
Proof. unfold wp, mbind, M_bind. by destruct (m s). Qed.

Lemma wp_run {A} (m : M S A) Q s a s' : wp m Q s → m s = Ok a s' → Q a s'.
Proof. unfold wp. intros H Heq. by rewrite Heq in H. Qed.

(** The loop rule: an invariant and a measure that decreases. *)
Lemma wp_iter {A B} (I : A → S → Prop) (μ : A → S → nat)
    (body : A → M S (A + B)) (Q : B → S → Prop) n a s :
  (∀ a s, I a s →
     wp (body a) (λ r s', match r with
                          | inl a' => I a' s' ∧ (μ a' s' < μ a s)%nat
                          | inr b => Q b s'
                          end) s) →
  I a s → (μ a s < n)%nat → wp (iterM n body a) Q s.
Proof.
  intros Hbody. revert a s. induction n as [|n IH]; intros a s HI Hlt; [lia|].
  simpl. apply wp_bind. eapply wp_mono; [|by apply Hbody].
  intros [a'|b] s'; simpl; [|done]. intros [HI' Hμ]. apply IH; [done|lia].
Qed.

(** One turn of a loop. *)
Lemma wp_iter_S {A B} (body : A → M S (A + B)) (Q : B → S → Prop) n a s :
  wp (body a) (λ r s', match r with inl a' => wp (iterM n body a') Q s' | inr b => Q b s' end) s → wp (iterM (Datatypes.S n) body a) Q s.
Proof. intros H. cbn [iterM]. apply wp_bind. eapply wp_mono; [|exact H]. by intros [a'|b] s'. Qed.

(** The loop rule with the bound on the remaining steps inside the invariant. *)
Lemma wp_iter_bound {A B} (I : nat → A → S → Prop) (body : A → M S (A + B)) (Q : B → S → Prop) n m a s :
  (∀ m a s, I m a s →
     wp (body a) (λ r s', match r with
                          | inl a' => ∃ m', (m' < m)%nat ∧ I m' a' s'
                          | inr b => Q b s'
                          end) s) →
  I m a s → (m < n)%nat → wp (iterM n body a) Q s.
Proof.
  intros Hbody. revert m a s. induction n as [|n IH]; intros m a s HI Hlt; [lia|].
  simpl. apply wp_bind. eapply wp_mono; [|by eapply Hbody].
  intros [a'|b] s'; simpl; [|done]. intros (m' & Hm & HI'). eapply IH; [done|lia].
Qed.

(** The rule for a [for] loop over a list: the invariant is indexed by what
    has been done. *)
Lemma wp_for {A} (I : list A → S → Prop) (l : list A) (body : A → M S unit) Q s :
  (∀ done x todo s, l = done ++ x :: todo → I done s →
     wp (body x) (λ _ s', I (done ++ [x]) s') s) →
  I [] s → (∀ s, I l s → Q tt s) → wp (forM l body) Q s.
Proof.
  intros Hbody Hinit Hpost.
  assert (∀ todo done s, l = done ++ todo → I done s → wp (forM todo body) Q s) as H.
  { clear s Hinit. induction todo as [|x todo IH]; intros done s Hl HI; simpl.
    - apply Hpost. by rewrite Hl, app_nil_r.
    - apply wp_bind. eapply wp_mono; [|by eapply Hbody].
      simpl. intros _ s' HI'. eapply IH; [|done]. by rewrite <-app_assoc. }
  by apply (H l []).
Qed.

(** A [for] loop from 0 to [n]: the invariant is indexed by the counter. *)
Lemma wp_forZ (I : Z → S → Prop) n (body : Z → M S unit) Q s :
  0 ≤ n → (∀ k s, 0 ≤ k < n → I k s → wp (body k) (λ _ s', I (k + 1) s') s) →
  I 0 s → (∀ s, I n s → Q tt s) → wp (forM (seqZ 0 n) body) Q s.
Proof.
  intros Hn Hbody H0 HQ. apply (wp_for (λ done, I (Z.of_nat (length done)))); [|done|].
  - intros done x todo s' Hl HI. assert (seqZ 0 n !! length done = Some x) as [-> Hx]%lookup_seqZ.
    { rewrite Hl. by apply list_lookup_middle. }
    rewrite Z.add_0_l. eapply wp_mono; [|apply Hbody; [lia|done]]. intros [] s'' HI'.
    rewrite length_app. simpl. by replace (Z.of_nat (length done + 1)) with (Z.of_nat (length done) + 1) by lia.
  - intros s'. rewrite length_seqZ, Z2Nat.id by lia. apply HQ.
Qed.
End wp_rules.

Lemma wp_zoom {S T A} (get : S → T) (put : T → S → S) (m : M T A) Q s :
  wp m (λ a t, Q a (put t s)) (get s) → wp (zoom get put m) Q s.
Proof. unfold wp, zoom. by destruct (m (get s)). Qed.

(** ** Automation *)

Create HintDb xv6.
Create Rewrite HintDb xv6.

(** One step of symbolic execution of monadic code. *)
Ltac wp_step :=
  lazymatch goal with
  | |- wp (mbind _ _) _ _ => apply wp_bind
  | |- wp (mret _) _ _ => apply wp_ret
  | |- wp getS _ _ => apply wp_get
  | |- wp (gets _) _ _ => apply wp_gets
  | |- wp (putS _) _ _ => apply wp_put
  | |- wp (modify _) _ _ => apply wp_modify
  end; cbn beta.

Ltac wp_steps := repeat wp_step.

(** Decidable facts about closed terms, by evaluation. *)
Ltac by_compute := apply (bool_decide_unpack _); vm_compute; exact I.

(** Arithmetic with [/] and [mod] by constants. *)
Ltac zdm := Z.div_mod_to_equations; lia.

(** ** Lists *)

Section lists.
Context {A : Type}.
Implicit Types (l : list A) (qs : list (list A)).

(** Replacing one list of a list of lists. *)
Lemma concat_insert_split qs i l :
  qs !! i = Some l →
  ∃ rest, concat qs ≡ₚ l ++ rest ∧ ∀ l', concat (<[i:=l']> qs) ≡ₚ l' ++ rest.
Proof.
  intros Hi. exists (concat (take i qs) ++ concat (drop (S i) qs)). split.
  - rewrite <-(take_drop_middle qs i l) at 1 by done.
    rewrite concat_app. simpl. rewrite !(assoc_L (++)). f_equiv. apply Permutation_app_comm.
  - intros l'. rewrite insert_take_drop by (by eapply lookup_lt_Some).
    rewrite concat_app. simpl. rewrite !(assoc_L (++)). f_equiv. apply Permutation_app_comm.
Qed.

Lemma elem_of_concat_lookup qs i l x : qs !! i = Some l → x ∈ l → x ∈ concat qs.
Proof.
  intros Hi Hx. destruct (concat_insert_split qs i l Hi) as (rest & HP & _).
  rewrite HP. set_solver.
Qed.

Lemma elem_of_concat_inv qs x : x ∈ concat qs → ∃ i l, qs !! i = Some l ∧ x ∈ l.
Proof.
  induction qs as [|l qs IH]; simpl; [by intros ?%not_elem_of_nil|].
  rewrite elem_of_app. intros [Hx|Hx]; [by exists 0%nat, l|].
  destruct (IH Hx) as (i & l' & ? & ?). by exists (S i), l'.
Qed.

(** In a duplicate-free concatenation an element is in one list only. *)
Lemma NoDup_concat_unique qs i j l l' x :
  NoDup (concat qs) → qs !! i = Some l → qs !! j = Some l' → x ∈ l → x ∈ l' → i = j.
Proof.
  intros Hnd Hi Hj Hx Hx'. destruct (decide (i = j)) as [|Hne]; [done|exfalso].
  destruct (concat_insert_split qs i l Hi) as (rest & HP & HP').
  rewrite HP in Hnd. apply NoDup_app in Hnd as (_ & Hnd & _). apply (Hnd x Hx).
  specialize (HP' []). simpl in HP'. rewrite <-HP'.
  apply (elem_of_concat_lookup _ j l'); [|done]. by rewrite list_lookup_insert_ne.
Qed.

Lemma NoDup_concat_lookup qs i l : NoDup (concat qs) → qs !! i = Some l → NoDup l.
Proof.
  intros Hnd Hi. destruct (concat_insert_split qs i l Hi) as (rest & HP & _).
  rewrite HP in Hnd. by apply NoDup_app in Hnd as (? & _ & _).
Qed.

Lemma NoDup_length_bound (l : list nat) n :
  NoDup l → Forall (λ x, (x < n)%nat) l → (length l ≤ n)%nat.
Proof.
  intros Hnd Hall. rewrite <-(length_seq n 0). apply NoDup_incl_length.
  - by apply NoDup_ListNoDup.
  - intros x Hx%list_elem_of_In. rewrite Forall_forall in Hall.
    apply in_seq. specialize (Hall x Hx). lia.
Qed.
End lists.

Lemma lookup_total_Some {A} `{!Inhabited A} (l : list A) i x : l !! i = Some x → l !!! i = x.
Proof. intros H. by rewrite list_lookup_total_alt, H. Qed.

Lemma list_alter_as_insert {A} (f : A → A) (l : list A) i x :
  l !! i = Some x → alter f i l = <[i:=f x]> l.
Proof.
  intros H. apply list_eq. intros j. rewrite list_lookup_alter.
  destruct (decide (i = j)) as [->|].
  - rewrite list_lookup_insert_eq by (by eapply lookup_lt_Some). by rewrite H.
  - by rewrite list_lookup_insert_ne.
Qed.

Lemma list_filter_ext {A} (P1 P2 : A → Prop) `{!∀ x, Decision (P1 x), !∀ x, Decision (P2 x)} (l : list A) :
  (∀ x, x ∈ l → P1 x ↔ P2 x) → filter P1 l = filter P2 l.
Proof.
  induction l as [|x l IH]; intros Heq; [done|].
  rewrite !filter_cons. rewrite IH by (intros; apply Heq; set_solver).
  specialize (Heq x ltac:(set_solver)). repeat case_decide; tauto.
Qed.

Lemma list_alter_compose {A} (f g : A → A) (l : list A) i : alter (f ∘ g) i l = alter f i (alter g i l).
Proof.
  apply list_eq. intros j. rewrite !list_lookup_alter. case_decide; [subst|done]. rewrite decide_True by done. by destruct (l !! j).
Qed.

Lemma head_Some_elem_of {A} (l : list A) x : head l = Some x → x ∈ l.
Proof. destruct l; simpl; [done|]. intros [= ->]. by left. Qed.

Lemma filter_nil_not_elem_of {A} (P : A → Prop) `{!∀ x, Decision (P x)} (l : list A) x : filter P l = [] → P x → (x ∉ l).
Proof. intros E HP Hx. assert (x ∈ filter P l) as Hf by (by apply list_elem_of_filter). rewrite E in Hf. by apply elem_of_nil in Hf. Qed.

Lemma list_alter_ext_at {A} (f g : A → A) (l : list A) i x : l !! i = Some x → f x = g x → alter f i l = alter g i l.
Proof.
  intros Hi E. apply list_eq. intros j. rewrite !list_lookup_alter. case_decide as Hj; [|done]. subst j. rewrite Hi. simpl. by rewrite E.
Qed.

Lemma list_alter_id_at {A} (f : A → A) (l : list A) i x : l !! i = Some x → f x = x → alter f i l = l.
Proof.
  intros Hi E. apply list_eq. intros j. rewrite list_lookup_alter. case_decide as Hj; [|done]. subst j. rewrite Hi. simpl. by rewrite E.
Qed.

(** ** Wakeups

    The threads [l] after a [wakeup] that turns a thread [x] into [wake x].
    [sleep] of kernel/proc.c releases the last lock before it calls [schedule];
    an interrupt in that window can make a sleeper miss a wakeup, or take it out
    of the run queue for good.  With [lossy] any of the threads may be missed. *)

Definition wakes {T : Type} (lossy : bool) (wake : T → T) (l l' : list T) : Prop :=
  Forall2 (λ x y, y = wake x ∨ lossy = true ∧ y = x) l l'.

Section wakes.
Context {T : Type} {lossy : bool} {wake : T → T}.
Implicit Types l : list T.

Lemma wakes_all l : wakes lossy wake l (wake <$> l).
Proof. apply Forall2_fmap_r, Forall_Forall2_diag, Forall_true. by left. Qed.

Lemma wakes_lookup l l' i y :
  wakes lossy wake l l' → l' !! i = Some y → ∃ x, l !! i = Some x ∧ (y = wake x ∨ lossy = true ∧ y = x).
Proof. intros Hw Hy. destruct (Forall2_lookup_r _ _ _ _ _ Hw Hy) as (x & ? & ?). eauto. Qed.

(** A thread that is awake. *)
Lemma wakes_awake l l' i x : wakes lossy wake l l' → wake x = x → l !! i = Some x → l' !! i = Some x.
Proof. intros Hw E Hx. destruct (Forall2_lookup_l _ _ _ _ _ Hw Hx) as (y & Hy & [->|[_ ->]]); by rewrite ?E in Hy. Qed.

Lemma wakes_length l l' : wakes lossy wake l l' → length l' = length l.
Proof. intros Hw. symmetry. by eapply Forall2_length. Qed.

(** What a wakeup does not change. *)
Lemma wakes_fmap {A} (f : T → A) l l' : (∀ x, f (wake x) = f x) → wakes lossy wake l l' → f <$> l' = f <$> l.
Proof. intros Hf Hw. induction Hw as [|x y l l' [->|[_ ->]] _ IH]; cbn; rewrite ?Hf, ?IH; done. Qed.

Lemma wakes_id l l' : (∀ x, wake x = x) → wakes lossy wake l l' → l' = l.
Proof. intros Hf Hw. rewrite <-(list_fmap_id l), <-(list_fmap_id l'). by apply wakes_fmap. Qed.
End wakes.
