(* ===== verification/Machine.v ===== *)
(** * Machine constants and address arithmetic

    The limits of kernel/param.h, the memory layout of kernel/memlayout.h and
    the page-table macros of kernel/riscv.h, with the arithmetic facts the
    other components use: rounding to pages, PTE packing, and the split of an
    Sv39 virtual address in three 9-bit indices. *)

From S2P Require Import Prelude.

(** ** kernel/param.h *)

Definition NPROC : nat := 64.
Definition NOFILE : nat := 16.
Definition NFILE : nat := 100.
Definition NINODE : nat := 50.
Definition NDEV : Z := 10.
Definition ROOTDEV : Z := 1.
Definition MAXARG : Z := 32.
Definition MAXOPBLOCKS : Z := 10.
Definition LOGSIZE : Z := MAXOPBLOCKS * 3.
Definition NBUF : nat := 30.
Definition FSSIZE : Z := 2000.
Definition MAXPATH : Z := 128.
Definition USERSTACK : Z := 1.

Definition NPRIO : nat := 32.
Definition PRIO_MIN : Z := 0.
Definition PRIO_MAX : Z := Z.of_nat NPRIO - 1.
Definition PRIO_DEFAULT : Z := 20.
Definition AGING_TICKS : Z := 20.

(** ** kernel/riscv.h: pages and page-table entries *)

Definition PGSIZE : Z := 4096.
Definition PGSHIFT : Z := 12.

Definition PGROUNDUP (sz : Z) : Z := Z.land (u64 (sz + PGSIZE - 1)) (u64 (Z.lnot (PGSIZE - 1))).
Definition PGROUNDDOWN (a : Z) : Z := Z.land a (u64 (Z.lnot (PGSIZE - 1))).

Definition PTE_V : Z := Z.shiftl 1 0.
Definition PTE_R : Z := Z.shiftl 1 1.
Definition PTE_W : Z := Z.shiftl 1 2.
Definition PTE_X : Z := Z.shiftl 1 3.
Definition PTE_U : Z := Z.shiftl 1 4.

Definition PTE_LEAF (pte : Z) : Z :=
  Z.lor (Z.lor (Z.land pte PTE_R) (Z.land pte PTE_W)) (Z.land pte PTE_X).

Definition PA2PTE (pa : Z) : Z := u64 (Z.shiftl (Z.shiftr pa 12) 10).
Definition PTE2PA (pte : Z) : Z := u64 (Z.shiftl (Z.shiftr pte 10) 12).
Definition PTE_FLAGS (pte : Z) : Z := Z.land pte 0x3FF.

Definition PXMASK : Z := 0x1FF.
Definition PXSHIFT (level : Z) : Z := PGSHIFT + 9 * level.
Definition PX (level va : Z) : Z := Z.land (Z.shiftr va (PXSHIFT level)) PXMASK.

Definition MAXVA : Z := Z.shiftl 1 (9 + 9 + 9 + 12 - 1).

Definition SATP_SV39 : Z := Z.shiftl 8 60.
Definition MAKE_SATP (pagetable : Z) : Z := Z.lor SATP_SV39 (Z.shiftr pagetable 12).

(** ** kernel/memlayout.h *)

Definition UART0 : Z := 0x10000000.
Definition UART0_IRQ : Z := 10.
Definition VIRTIO0 : Z := 0x10001000.
Definition VIRTIO0_IRQ : Z := 1.
Definition PLIC : Z := 0x0c000000.
Definition KERNBASE : Z := 0x80000000.
Definition PHYSTOP : Z := KERNBASE + 128 * 1024 * 1024.
Definition TRAMPOLINE : Z := MAXVA - PGSIZE.
Definition KSTACK (p : Z) : Z := TRAMPOLINE - p * 2 * PGSIZE - 3 * PGSIZE.
Definition TRAPFRAME : Z := TRAMPOLINE - PGSIZE.
Definition USYSCALL : Z := TRAPFRAME - PGSIZE.

(** ** Rounding to pages *)

Lemma land_page_mask x : 0 ≤ x < 2 ^ 64 → Z.land x (u64 (Z.lnot (PGSIZE - 1))) = x - x mod PGSIZE.
Proof.
  intros Hx. change (u64 (Z.lnot (PGSIZE - 1))) with (Z.shiftl (Z.ones 52) 12).
  replace (x - x mod PGSIZE) with (Z.shiftl (Z.shiftr x 12) 12).
  - apply Z.bits_inj'. intros n Hn. rewrite Z.land_spec, !Z.shiftl_spec by lia.
    destruct (Z.lt_ge_cases n 12) as [Hlt|Hge].
    + rewrite !(Z.testbit_neg_r _ (n - 12)) by lia. by rewrite andb_false_r.
    + rewrite Z.shiftr_spec by lia. replace (n - 12 + 12) with n by lia.
      destruct (Z.lt_ge_cases n 64) as [H64|H64].
      * rewrite Z.ones_spec_low by lia. by rewrite andb_true_r.
      * rewrite (Z.bits_above_log2 x n); [done|lia|].
        destruct (decide (x = 0)) as [->|]; [simpl; lia|].
        apply Z.log2_lt_pow2; [lia|].
        apply Z.lt_le_trans with (2 ^ 64); [lia|]. apply Z.pow_le_mono_r; lia.
  - rewrite Z.shiftl_mul_pow2, Z.shiftr_div_pow2 by lia. unfold PGSIZE. change (2 ^ 12) with 4096. zdm.
Qed.

Lemma PGROUNDDOWN_eq a : 0 ≤ a < 2 ^ 64 → PGROUNDDOWN a = a - a mod PGSIZE.
Proof. apply land_page_mask. Qed.

Lemma PGROUNDUP_eq sz :
  0 ≤ sz ≤ 2 ^ 64 - PGSIZE → PGROUNDUP sz = (sz + PGSIZE - 1) / PGSIZE * PGSIZE.
Proof.
  unfold PGROUNDUP. intros Hsz.
  assert (u64 (sz + PGSIZE - 1) = sz + PGSIZE - 1) as ->.
  { unfold u64. apply Z.mod_small. unfold PGSIZE in *. lia. }
  rewrite land_page_mask by (unfold PGSIZE in *; lia). unfold PGSIZE. zdm.
Qed.

Lemma PGROUNDUP_props sz :
  0 ≤ sz ≤ 2 ^ 64 - PGSIZE →
  PGROUNDUP sz mod PGSIZE = 0 ∧ sz ≤ PGROUNDUP sz < sz + PGSIZE.
Proof. intros. rewrite PGROUNDUP_eq by done. unfold PGSIZE in *. zdm. Qed.

Lemma PGROUNDDOWN_props a :
  0 ≤ a < 2 ^ 64 → PGROUNDDOWN a mod PGSIZE = 0 ∧ PGROUNDDOWN a ≤ a < PGROUNDDOWN a + PGSIZE.
Proof. intros. rewrite PGROUNDDOWN_eq by done. unfold PGSIZE. zdm. Qed.

Lemma PGROUNDUP_aligned a : 0 ≤ a ≤ 2 ^ 64 - PGSIZE → a mod PGSIZE = 0 → PGROUNDUP a = a.
Proof. intros. rewrite PGROUNDUP_eq by done. unfold PGSIZE in *. zdm. Qed.

Lemma page_disjoint a b :
  a mod PGSIZE = 0 → b mod PGSIZE = 0 → a ≠ b → a + PGSIZE ≤ b ∨ b + PGSIZE ≤ a.
Proof. unfold PGSIZE. intros. zdm. Qed.

(** ** Virtual-address indices *)

Lemma PX_eq level va : 0 ≤ level → PX level va = (va / 2 ^ (12 + 9 * level)) mod 512.
Proof.
  intros. unfold PX, PXMASK, PXSHIFT, PGSHIFT. change 0x1FF with (Z.ones 9).
  rewrite Z.land_ones, Z.shiftr_div_pow2 by lia. done.
Qed.

Lemma PX_range level va : 0 ≤ level → 0 ≤ PX level va < 512.
Proof. intros. rewrite PX_eq by done. apply Z.mod_pos_bound. lia. Qed.

(** The three indices determine the page of an address below [MAXVA]. *)
Lemma PX_split va :
  0 ≤ va < MAXVA →
  va = PX 2 va * 2 ^ 30 + PX 1 va * 2 ^ 21 + PX 0 va * 2 ^ 12 + va mod PGSIZE.
Proof.
  intros Hva. rewrite !PX_eq by lia. unfold MAXVA, PGSIZE in *.
  change (Z.shiftl 1 (9 + 9 + 9 + 12 - 1)) with 274877906944 in Hva.
  change (2 ^ (12 + 9 * 2)) with 1073741824. change (2 ^ (12 + 9 * 1)) with 2097152.
  change (2 ^ (12 + 9 * 0)) with 4096. change (2 ^ 30) with 1073741824.
  change (2 ^ 21) with 2097152. change (2 ^ 12) with 4096. zdm.
Qed.

Lemma PX_inj va vb :
  0 ≤ va < MAXVA → 0 ≤ vb < MAXVA → va mod PGSIZE = 0 → vb mod PGSIZE = 0 →
  PX 2 va = PX 2 vb → PX 1 va = PX 1 vb → PX 0 va = PX 0 vb → va = vb.
Proof.
  intros Ha Hb Hma Hmb E2 E1 E0. rewrite (PX_split va), (PX_split vb) by done. lia.
Qed.

(** ** PTE packing *)

Definition pte_ok_pa (pa : Z) : Prop := 0 ≤ pa < 2 ^ 56 ∧ pa mod PGSIZE = 0.

Lemma PA2PTE_eq pa : pte_ok_pa pa → PA2PTE pa = pa / 4.
Proof.
  unfold pte_ok_pa, PGSIZE. intros [Hpa Hal].
  unfold PA2PTE, u64. rewrite Z.shiftl_mul_pow2, Z.shiftr_div_pow2 by lia.
  change (2 ^ 12) with 4096. change (2 ^ 10) with 1024.
  change (2 ^ 56) with 72057594037927936 in Hpa. change (2 ^ 64) with 18446744073709551616. zdm.
Qed.

Lemma lor_low_bits x f n :
  0 ≤ n → 0 ≤ f < 2 ^ n → Z.lor (x * 2 ^ n) f = x * 2 ^ n + f.
Proof.
  intros Hn Hf.
  assert (Z.land (x * 2 ^ n) f = 0) as Hland.
  { apply Z.bits_inj'. intros i Hi. rewrite Z.land_spec, Z.bits_0.
    destruct (Z.lt_ge_cases i n).
    - rewrite Z.mul_pow2_bits_low by lia. done.
    - assert (Z.testbit f i = false) as ->; [|by rewrite andb_false_r].
      destruct (decide (f = 0)) as [->|]; [by rewrite Z.bits_0|].
      apply Z.bits_above_log2; [lia|]. apply Z.log2_lt_pow2; [lia|].
      apply Z.lt_le_trans with (2 ^ n); [lia|]. apply Z.pow_le_mono_r; lia. }
  rewrite Z.add_nocarry_lxor by done. symmetry. by apply Z.lxor_lor.
Qed.

(** A PTE built from a page address and permission bits, as a sum. *)
Lemma mkpte_eq pa f : pte_ok_pa pa → 0 ≤ f < 1024 → Z.lor (PA2PTE pa) f = pa / 4 + f.
Proof.
  intros Hpa Hf. rewrite PA2PTE_eq by done. destruct Hpa as [Hpa Hal]. unfold PGSIZE in Hal.
  replace (pa / 4) with (pa / 4096 * 2 ^ 10) by (change (2 ^ 10) with 1024; zdm).
  apply lor_low_bits; lia.
Qed.

Lemma PTE2PA_mkpte pa f : pte_ok_pa pa → 0 ≤ f < 1024 → PTE2PA (Z.lor (PA2PTE pa) f) = pa.
Proof.
  intros Hpa Hf. rewrite mkpte_eq by done. destruct Hpa as [Hpa Hal]. unfold PGSIZE in Hal.
  unfold PTE2PA, u64. rewrite Z.shiftl_mul_pow2, Z.shiftr_div_pow2 by lia.
  change (2 ^ 12) with 4096. change (2 ^ 10) with 1024.
  change (2 ^ 56) with 72057594037927936 in Hpa. change (2 ^ 64) with 18446744073709551616. zdm.
Qed.

Lemma PTE_FLAGS_mkpte pa f : pte_ok_pa pa → 0 ≤ f < 1024 → PTE_FLAGS (Z.lor (PA2PTE pa) f) = f.
Proof.
  intros Hpa Hf. rewrite mkpte_eq by done. destruct Hpa as [Hpa Hal]. unfold PGSIZE in Hal.
  unfold PTE_FLAGS. change 0x3FF with (Z.ones 10). rewrite Z.land_ones by lia.
  change (2 ^ 10) with 1024. zdm.
Qed.
