(* ===== verification/Proc.v ===== *)
(** * Process table data

    The data of kernel/proc.h: [struct proc], [struct cpu], the priority queues
    and the part of the kernel state that the run queue and the scheduler of
    kernel/proc.c work on.  A [struct proc *] is [None] for the null pointer or
    the index of a slot of [proc[NPROC]]. *)

From S2P Require Import Prelude Machine.

Inductive procstate := UNUSED | USED | SLEEPING | RUNNABLE | RUNNING | ZOMBIE.

#[export] Instance procstate_eq_dec : EqDecision procstate.
Proof. solve_decision. Defined.

(** Sleep channels.  The code sleeps on the address of some object; the
    constructors name those objects, so distinct objects are distinct channels. *)
Inductive channel :=
| ChNull
| ChProc (p : nat)
| ChTicks
| ChSem (id : Z)
| ChRw (id : Z)
| ChSleeplock (id : Z)
| ChLog
| ChPipeRead (pi : Z)
| ChPipeWrite (pi : Z)
| ChCons
| ChUart
| ChDiskBuf (b : Z)
| ChDiskFree.

#[export] Instance channel_eq_dec : EqDecision channel.
Proof. solve_decision. Defined.

Record context := Context { ctx_ra : Z; ctx_sp : Z; ctx_s : list Z }.

Record proc := Proc {
  state : procstate;
  chan : channel;
  killed_flag : Z;
  xstate : Z;
  pid : Z;
  parent : option nat;
  kstack : Z;
  sz : Z;
  pagetable : Z;
  trapframe : Z;
  ctx : context;
  ofile : list (option nat);
  cwd : option nat;
  name : list Z;
  base_prio : Z;
  prio : Z;
  wait_ticks : Z;
  rq_next : option nat
}.

Definition proc0 : proc :=
  Proc UNUSED ChNull 0 0 0 None 0 0 0 0 (Context 0 0 (replicate 12 0))
       (replicate NOFILE None) None (replicate 16 0) 0 0 0 None.

#[export] Instance proc_inhabited : Inhabited proc := populate proc0.

(** Field updates. *)
Definition set_state (v : procstate) (p : proc) : proc :=
  Proc v (chan p) (killed_flag p) (xstate p) (pid p) (parent p) (kstack p) (sz p) (pagetable p)
       (trapframe p) (ctx p) (ofile p) (cwd p) (name p) (base_prio p) (prio p) (wait_ticks p) (rq_next p).
Definition set_chan (v : channel) (p : proc) : proc :=
  Proc (state p) v (killed_flag p) (xstate p) (pid p) (parent p) (kstack p) (sz p) (pagetable p)
       (trapframe p) (ctx p) (ofile p) (cwd p) (name p) (base_prio p) (prio p) (wait_ticks p) (rq_next p).
Definition set_killed (v : Z) (p : proc) : proc :=
  Proc (state p) (chan p) v (xstate p) (pid p) (parent p) (kstack p) (sz p) (pagetable p)
       (trapframe p) (ctx p) (ofile p) (cwd p) (name p) (base_prio p) (prio p) (wait_ticks p) (rq_next p).
Definition set_xstate (v : Z) (p : proc) : proc :=
  Proc (state p) (chan p) (killed_flag p) v (pid p) (parent p) (kstack p) (sz p) (pagetable p)
       (trapframe p) (ctx p) (ofile p) (cwd p) (name p) (base_prio p) (prio p) (wait_ticks p) (rq_next p).
Definition set_pid (v : Z) (p : proc) : proc :=
  Proc (state p) (chan p) (killed_flag p) (xstate p) v (parent p) (kstack p) (sz p) (pagetable p)
       (trapframe p) (ctx p) (ofile p) (cwd p) (name p) (base_prio p) (prio p) (wait_ticks p) (rq_next p).
Definition set_parent (v : option nat) (p : proc) : proc :=
  Proc (state p) (chan p) (killed_flag p) (xstate p) (pid p) v (kstack p) (sz p) (pagetable p)
       (trapframe p) (ctx p) (ofile p) (cwd p) (name p) (base_prio p) (prio p) (wait_ticks p) (rq_next p).
Definition set_kstack (v : Z) (p : proc) : proc :=
  Proc (state p) (chan p) (killed_flag p) (xstate p) (pid p) (parent p) v (sz p) (pagetable p)
       (trapframe p) (ctx p) (ofile p) (cwd p) (name p) (base_prio p) (prio p) (wait_ticks p) (rq_next p).
Definition set_sz (v : Z) (p : proc) : proc :=
  Proc (state p) (chan p) (killed_flag p) (xstate p) (pid p) (parent p) (kstack p) v (pagetable p)
       (trapframe p) (ctx p) (ofile p) (cwd p) (name p) (base_prio p) (prio p) (wait_ticks p) (rq_next p).
Definition set_pagetable (v : Z) (p : proc) : proc :=
  Proc (state p) (chan p) (killed_flag p) (xstate p) (pid p) (parent p) (kstack p) (sz p) v
       (trapframe p) (ctx p) (ofile p) (cwd p) (name p) (base_prio p) (prio p) (wait_ticks p) (rq_next p).
Definition set_trapframe (v : Z) (p : proc) : proc :=
  Proc (state p) (chan p) (killed_flag p) (xstate p) (pid p) (parent p) (kstack p) (sz p) (pagetable p)
       v (ctx p) (ofile p) (cwd p) (name p) (base_prio p) (prio p) (wait_ticks p) (rq_next p).
Definition set_ctx (v : context) (p : proc) : proc :=
  Proc (state p) (chan p) (killed_flag p) (xstate p) (pid p) (parent p) (kstack p) (sz p) (pagetable p)
       (trapframe p) v (ofile p) (cwd p) (name p) (base_prio p) (prio p) (wait_ticks p) (rq_next p).
Definition set_ofile (v : list (option nat)) (p : proc) : proc :=
  Proc (state p) (chan p) (killed_flag p) (xstate p) (pid p) (parent p) (kstack p) (sz p) (pagetable p)
       (trapframe p) (ctx p) v (cwd p) (name p) (base_prio p) (prio p) (wait_ticks p) (rq_next p).
Definition set_cwd (v : option nat) (p : proc) : proc :=
  Proc (state p) (chan p) (killed_flag p) (xstate p) (pid p) (parent p) (kstack p) (sz p) (pagetable p)
       (trapframe p) (ctx p) (ofile p) v (name p) (base_prio p) (prio p) (wait_ticks p) (rq_next p).
Definition set_name (v : list Z) (p : proc) : proc :=
  Proc (state p) (chan p) (killed_flag p) (xstate p) (pid p) (parent p) (kstack p) (sz p) (pagetable p)
       (trapframe p) (ctx p) (ofile p) (cwd p) v (base_prio p) (prio p) (wait_ticks p) (rq_next p).
Definition set_base_prio (v : Z) (p : proc) : proc :=
  Proc (state p) (chan p) (killed_flag p) (xstate p) (pid p) (parent p) (kstack p) (sz p) (pagetable p)
       (trapframe p) (ctx p) (ofile p) (cwd p) (name p) v (prio p) (wait_ticks p) (rq_next p).
Definition set_prio (v : Z) (p : proc) : proc :=
  Proc (state p) (chan p) (killed_flag p) (xstate p) (pid p) (parent p) (kstack p) (sz p) (pagetable p)
       (trapframe p) (ctx p) (ofile p) (cwd p) (name p) (base_prio p) v (wait_ticks p) (rq_next p).
Definition set_wait_ticks (v : Z) (p : proc) : proc :=
  Proc (state p) (chan p) (killed_flag p) (xstate p) (pid p) (parent p) (kstack p) (sz p) (pagetable p)
       (trapframe p) (ctx p) (ofile p) (cwd p) (name p) (base_prio p) (prio p) v (rq_next p).
Definition set_rq_next (v : option nat) (p : proc) : proc :=
  Proc (state p) (chan p) (killed_flag p) (xstate p) (pid p) (parent p) (kstack p) (sz p) (pagetable p)
       (trapframe p) (ctx p) (ofile p) (cwd p) (name p) (base_prio p) (prio p) (wait_ticks p) v.

(** ** Per-CPU state

    The README restricts this scheduler to one hart, so there is one
    [struct cpu].  [sie] is the SIE bit of [sstatus] (interrupts enabled). *)
Record cpu := Cpu {
  c_proc : option nat;
  noff : Z;
  intena : bool;
  idleproc : option nat;
  preempt_pending : bool;
  sie : bool
}.

Record prio_queue := PrioQueue { head : option nat; tail : option nat }.

#[export] Instance prio_queue_inhabited : Inhabited prio_queue := populate (PrioQueue None None).

(** Globals of kernel/proc.c and kernel/trap.c. *)
Record globals := Globals { initproc : option nat; nextpid : Z; ticks : Z }.

(** The scheduler's state: [proc[NPROC]], [runq], this CPU and the globals. *)
Record kst := Kst {
  procs : list proc;
  q : list prio_queue;
  highest_nonempty : Z;
  mycpu : cpu;
  glob : globals
}.

Definition set_procs (v : list proc) (s : kst) : kst :=
  Kst v (q s) (highest_nonempty s) (mycpu s) (glob s).
Definition set_q (v : list prio_queue) (s : kst) : kst :=
  Kst (procs s) v (highest_nonempty s) (mycpu s) (glob s).
Definition set_highest (v : Z) (s : kst) : kst :=
  Kst (procs s) (q s) v (mycpu s) (glob s).
Definition set_cpu (v : cpu) (s : kst) : kst :=
  Kst (procs s) (q s) (highest_nonempty s) v (glob s).
Definition set_glob (v : globals) (s : kst) : kst :=
  Kst (procs s) (q s) (highest_nonempty s) (mycpu s) v.

Definition set_nextpid (v : Z) (g : globals) : globals := Globals (initproc g) v (ticks g).
Definition set_ticks (v : Z) (g : globals) : globals := Globals (initproc g) (nextpid g) v.
Definition set_initproc (v : option nat) (g : globals) : globals := Globals v (nextpid g) (ticks g).

Definition set_preempt_pending (v : bool) (c : cpu) : cpu :=
  Cpu (c_proc c) (noff c) (intena c) (idleproc c) v (sie c).
Definition set_sie (v : bool) (c : cpu) : cpu :=
  Cpu (c_proc c) (noff c) (intena c) (idleproc c) (preempt_pending c) v.
Definition set_idleproc (v : option nat) (c : cpu) : cpu :=
  Cpu (c_proc c) (noff c) (intena c) v (preempt_pending c) (sie c).
Definition set_c_proc (v : option nat) (c : cpu) : cpu :=
  Cpu v (noff c) (intena c) (idleproc c) (preempt_pending c) (sie c).

(** [p->field] and [p->field = v] for a slot [p]. *)
Definition getp (s : kst) (p : nat) : proc := procs s !!! p.
Definition updp (p : nat) (f : proc → proc) (s : kst) : kst :=
  set_procs (alter f p (procs s)) s.

(** ** Laws of the updates *)

Lemma getp_updp s p f i :
  (p < length (procs s))%nat →
  getp (updp p f s) i = if decide (i = p) then f (getp s i) else getp s i.
Proof.
  intros Hp. unfold getp, updp; simpl. case_decide as Hi.
  - subst. by rewrite list_lookup_total_alter_eq.
  - rewrite list_lookup_total_alter_ne by done. done.
Qed.

Lemma getp_updp_eq s p f : (p < length (procs s))%nat → getp (updp p f s) p = f (getp s p).
Proof. intros. rewrite getp_updp by done. by rewrite decide_True. Qed.

Lemma getp_updp_ne s p f i : i ≠ p → getp (updp p f s) i = getp s i.
Proof. intros Hi. unfold getp, updp; simpl. by rewrite list_lookup_total_alter_ne. Qed.

Lemma length_updp s p f : length (procs (updp p f s)) = length (procs s).
Proof. apply length_alter. Qed.

#[export] Hint Rewrite length_updp : xv6.
