(* ===== verification/Runq.v ===== *)
(** * The priority run queue of kernel/proc.c

    [runq] is an array of [NPRIO] singly linked queues threaded through
    [p->rq_next], with head and tail pointers and a cached index of the first
    non-empty queue.  The operations are translated as they stand; [Repr]
    relates such a state to a list of [NPRIO] lists of processes, and each
    operation is shown to implement its abstract counterpart. *)

From S2P Require Import Prelude Machine Proc.

(** ** Operations *)

(** [prio_init]: all queues empty. *)
Definition prio_init (s : kst) : kst :=
  set_highest (-1) (set_q (replicate NPRIO (PrioQueue None None)) s).

(** [rq_push_tail(prio, p)]. *)
Definition rq_push_tail (pr : Z) (p : nat) (s : kst) : kst :=
  let s1 := updp p (set_rq_next None) s in
  let Q := q s1 !!! Z.to_nat pr in
  let s2 :=
    match tail Q with
    | Some t =>
        let s' := updp t (set_rq_next (Some p)) s1 in
        set_q (<[Z.to_nat pr := PrioQueue (head Q) (Some p)]> (q s')) s'
    | None => set_q (<[Z.to_nat pr := PrioQueue (Some p) (Some p)]> (q s1)) s1
    end in
  if (highest_nonempty s2 <? 0) || (pr <? highest_nonempty s2) then set_highest pr s2 else s2.

(** The [for] loop of [rq_remove] that looks for the first queue with a head. *)
Fixpoint scan_heads (i : Z) (qs : list prio_queue) : Z :=
  match qs with
  | [] => -1
  | Q :: qs' => match head Q with Some _ => i | None => scan_heads (i + 1) qs' end
  end.

(** The unlinking step of [rq_remove], when [cur == p]. *)
Definition rq_unlink (pr : Z) (prev : option nat) (cur : nat) (s : kst) : kst :=
  let nxt := rq_next (getp s cur) in
  let s1 :=
    match prev with
    | Some pv => updp pv (set_rq_next nxt) s
    | None => set_q (alter (λ Q, PrioQueue nxt (tail Q)) (Z.to_nat pr) (q s)) s
    end in
  let s2 :=
    if decide (tail (q s1 !!! Z.to_nat pr) = Some cur)
    then set_q (alter (λ Q, PrioQueue (head Q) prev) (Z.to_nat pr) (q s1)) s1
    else s1 in
  updp cur (set_rq_next None) s2.

(** [rq_remove(prio, p)]. *)
Definition rq_remove (pr : Z) (p : nat) : M kst unit :=
  Q ← gets (λ s, q s !!! Z.to_nat pr);
  iterM (S NPROC)
    (λ '(prev, cur),
       match cur with
       | None => mret (inr tt)
       | Some c =>
           if decide (c = p) then modify (rq_unlink pr prev c);; mret (inr tt)
           else nxt ← gets (λ s, rq_next (getp s c)); mret (inl (Some c, nxt))
       end) (None, head Q);;
  s ← getS;
  match head (q s !!! Z.to_nat pr) with
  | Some _ => mret tt
  | None =>
      if highest_nonempty s =? pr then putS (set_highest (scan_heads 0 (q s)) s) else mret tt
  end.

(** [prio_enqueue(p)]; [myproc()] is [c_proc]. *)
Definition prio_enqueue (p : nat) (s : kst) : kst :=
  let s1 := updp p (set_wait_ticks 0) s in
  let s2 := rq_push_tail (prio (getp s1 p)) p s1 in
  match c_proc (mycpu s2) with
  | Some cur =>
      if decide (state (getp s2 cur) = RUNNING ∧ prio (getp s2 p) < prio (getp s2 cur))
      then set_cpu (set_preempt_pending true (mycpu s2)) s2
      else s2
  | None => s2
  end.

(** [prio_dequeue(p)]. *)
Definition prio_dequeue (p : nat) : M kst unit :=
  pr ← gets (λ s, prio (getp s p)); rq_remove pr p.

(** [prio_pick_next()]. *)
Definition prio_pick_next : M kst (option nat) :=
  h ← gets highest_nonempty;
  if h <? 0 then mret None
  else
    p ← gets (λ s, head (q s !!! Z.to_nat h));
    match p with
    | Some p' => rq_remove h p';; mret (Some p')
    | None => mret None
    end.

(** [prio_highest_nonempty()] and [prio_should_preempt(cur_prio)]. *)
Definition prio_highest_nonempty (s : kst) : Z := highest_nonempty s.

Definition prio_should_preempt (cur_prio : Z) (s : kst) : bool :=
  let h := prio_highest_nonempty s in
  if h <? 0 then false else h <=? cur_prio.

(** The body of the inner [while] of [prio_on_tick], for level [pr]. *)
Definition tick_body (pr : Z) (cur : option nat) : M kst (option nat + unit) :=
  match cur with
  | None => mret (inr tt)
  | Some c =>
      modify (updp c (λ p, set_wait_ticks (s32 (wait_ticks p + 1)) p));;
      p ← gets (λ s, getp s c);
      if (AGING_TICKS <=? wait_ticks p) && (PRIO_MIN <? prio p) then
        next ← gets (λ s, rq_next (getp s c));
        rq_remove pr c;;
        modify (updp c (λ p, set_prio (prio p - 1) p));;
        modify (updp c (set_wait_ticks 0));;
        s ← getS;
        putS (rq_push_tail (prio (getp s c)) c s);;
        mret (inl next)
      else
        next ← gets (λ s, rq_next (getp s c)); mret (inl next)
  end.

Definition tick_level (pr : Z) : M kst unit :=
  cur ← gets (λ s, head (q s !!! Z.to_nat pr));
  iterM (S NPROC) (tick_body pr) cur.

(** [prio_on_tick()]. *)
Definition prio_on_tick : M kst unit :=
  forM (seqZ 0 (Z.of_nat NPRIO)) tick_level.

(** ** Representation

    [lseg nx h l e]: following [nx] from [h] visits [l] and arrives at [e]. *)

Fixpoint lseg (nx : nat → option nat) (h : option nat) (l : list nat) (e : option nat) : Prop :=
  match l with
  | [] => h = e
  | x :: l' => h = Some x ∧ lseg nx (nx x) l' e
  end.

Definition nx (s : kst) (p : nat) : option nat := rq_next (getp s p).

Definition queue_ok (s : kst) (Q : prio_queue) (l : list nat) : Prop :=
  lseg (nx s) (head Q) l None ∧ tail Q = last l.

Fixpoint first_from (i : Z) (qs : list (list nat)) : Z :=
  match qs with
  | [] => -1
  | [] :: qs' => first_from (i + 1) qs'
  | _ => i
  end.

(** Index of the first non-empty queue, -1 when there is none. *)
Definition first_nonempty (qs : list (list nat)) : Z := first_from 0 qs.

(** The links represent [qs], whatever the cached index says. *)
Record Links (s : kst) (qs : list (list nat)) : Prop := {
  links_procs : length (procs s) = NPROC;
  links_q : length (q s) = NPRIO;
  links_len : length qs = NPRIO;
  links_queues : ∀ i Q l, q s !! i = Some Q → qs !! i = Some l → queue_ok s Q l;
  links_nodup : NoDup (concat qs);
  links_range : Forall (λ p, (p < NPROC)%nat) (concat qs)
}.

Record Repr (s : kst) (qs : list (list nat)) : Prop := {
  repr_links : Links s qs;
  repr_highest : highest_nonempty s = first_nonempty qs
}.

(** Everything of the process table but the links. *)
Definition fields (s : kst) : list proc := set_rq_next None <$> procs s.

Definition field (s : kst) (p : nat) : proc := set_rq_next None (getp s p).

(** The operation touched the links and the queues only. *)
Definition same_but_links (s s' : kst) : Prop :=
  fields s' = fields s ∧ mycpu s' = mycpu s ∧ glob s' = glob s.

(** *** List segments *)

Lemma lseg_ext nx1 nx2 h l e :
  (∀ x, x ∈ l → nx1 x = nx2 x) → lseg nx1 h l e → lseg nx2 h l e.
Proof.
  revert h. induction l as [|x l IH]; intros h Hx; simpl; [done|].
  intros [-> Hl]. split; [done|]. rewrite <-Hx by set_solver.
  apply IH; [set_solver|done].
Qed.

Lemma lseg_app nx h l1 l2 e :
  lseg nx h (l1 ++ l2) e ↔ ∃ m, lseg nx h l1 m ∧ lseg nx m l2 e.
Proof.
  revert h. induction l1 as [|x l1 IH]; intros h; simpl.
  - naive_solver.
  - rewrite IH. naive_solver.
Qed.

Lemma lseg_snoc nx h l x e : lseg nx h (l ++ [x]) e ↔ lseg nx h l (Some x) ∧ nx x = e.
Proof. rewrite lseg_app. simpl. naive_solver. Qed.

Lemma lseg_head nx h l : lseg nx h l None → h = list.head l.
Proof. destruct l; simpl; naive_solver. Qed.

(** *** The first non-empty queue *)

Lemma first_from_spec i qs :
  (first_from i qs = -1 ∧ Forall (λ l, l = []) qs) ∨
  ∃ k l, first_from i qs = i + Z.of_nat k ∧ qs !! k = Some l ∧ l ≠ [] ∧
         ∀ j, (j < k)%nat → qs !! j = Some [].
Proof.
  revert i. induction qs as [|[|x l] qs IH]; intros i; simpl.
  - by left.
  - destruct (IH (i + 1)) as [[-> Hall]|(k & l & -> & Hk & Hne & Hlt)].
    + left. split; [done|]. by constructor.
    + right. exists (S k), l. split; [lia|]. repeat split; try done.
      intros [|j] Hj; simpl; [done|]. apply Hlt. lia.
  - right. exists 0%nat, (x :: l). split; [lia|]. repeat split; try done. lia.
Qed.

Lemma first_nonempty_none qs : first_nonempty qs = -1 ↔ Forall (λ l, l = []) qs.
Proof.
  unfold first_nonempty. destruct (first_from_spec 0 qs) as [[-> Hall]|(k & l & -> & Hk & Hne & _)].
  - done.
  - split; [lia|]. intros Hall. rewrite Forall_lookup in Hall. by apply Hall in Hk.
Qed.

Lemma first_nonempty_some qs k l :
  qs !! k = Some l → l ≠ [] → (∀ j, (j < k)%nat → qs !! j = Some []) →
  first_nonempty qs = Z.of_nat k.
Proof.
  intros Hk Hne Hlt. unfold first_nonempty.
  destruct (first_from_spec 0 qs) as [[_ Hall]|(k' & l' & -> & Hk' & Hne' & Hlt')].
  - rewrite Forall_lookup in Hall. by apply Hall in Hk.
  - assert (k' = k); [|lia].
    destruct (Nat.lt_trichotomy k k') as [?|[?|?]]; [|done|]; exfalso.
    + rewrite Hlt' in Hk by done. congruence.
    + rewrite Hlt in Hk' by done. congruence.
Qed.

Lemma first_nonempty_cases qs :
  (first_nonempty qs = -1 ∧ Forall (λ l, l = []) qs) ∨
  ∃ k l, first_nonempty qs = Z.of_nat k ∧ qs !! k = Some l ∧ l ≠ [] ∧
         ∀ j, (j < k)%nat → qs !! j = Some [].
Proof.
  destruct (first_from_spec 0 qs) as [?|(k & l & H & ?)]; [by left|].
  right. exists k, l. split; [|done]. unfold first_nonempty. lia.
Qed.

(** Adding to queue [k]. *)
Lemma first_nonempty_push qs k l l' :
  qs !! k = Some l → l' ≠ [] →
  first_nonempty (<[k:=l']> qs) =
    if (first_nonempty qs <? 0) || (Z.of_nat k <? first_nonempty qs)
    then Z.of_nat k
    else if decide (first_nonempty qs = Z.of_nat k) then Z.of_nat k else first_nonempty qs.
Proof.
  intros Hk Hne. pose proof (lookup_lt_Some _ _ _ Hk) as Hlt.
  destruct (first_nonempty_cases qs) as [[-> Hall]|(k' & l0 & -> & Hk' & Hne' & Hlt')].
  - simpl. eapply first_nonempty_some; [by apply list_lookup_insert_eq|done|].
    intros j Hj. rewrite list_lookup_insert_ne by lia.
    destruct (lookup_lt_is_Some_2 qs j) as [lj Hlj]; [lia|].
    rewrite Forall_lookup in Hall. rewrite Hlj. by apply Hall in Hlj as ->.
  - rewrite (proj2 (Z.ltb_ge _ _)) by lia. simpl.
    destruct (Z.ltb_spec (Z.of_nat k) (Z.of_nat k')).
    + eapply first_nonempty_some; [by apply list_lookup_insert_eq|done|].
      intros j Hj. rewrite list_lookup_insert_ne by lia. apply Hlt'. lia.
    + case_decide.
      * eapply first_nonempty_some; [by apply list_lookup_insert_eq|done|].
        intros j Hj. rewrite list_lookup_insert_ne by lia. apply Hlt'. lia.
      * eapply first_nonempty_some; [by rewrite list_lookup_insert_ne by lia|done|].
        intros j Hj. rewrite list_lookup_insert_ne by lia. by apply Hlt'.
Qed.

(** Emptying a queue other than the first non-empty one. *)
Lemma first_nonempty_drop qs k l :
  qs !! k = Some l → first_nonempty qs ≠ Z.of_nat k →
  first_nonempty (<[k:=[]]> qs) = first_nonempty qs.
Proof.
  intros Hk Hne. pose proof (lookup_lt_Some _ _ _ Hk) as Hlt.
  destruct (first_nonempty_cases qs) as [[-> Hall]|(k' & l0 & Hf & Hk' & Hne' & Hlt')].
  - apply first_nonempty_none. apply Forall_insert; done.
  - rewrite Hf in *. eapply first_nonempty_some; [|exact Hne'|].
    + rewrite list_lookup_insert_ne; [done|lia].
    + intros j Hj. destruct (decide (j = k)) as [->|].
      * by apply list_lookup_insert_eq.
      * rewrite list_lookup_insert_ne by done. by apply Hlt'.
Qed.

Lemma scan_heads_spec s i Qs qs :
  Forall2 (queue_ok s) Qs qs → scan_heads i Qs = first_from i qs.
Proof.
  intros H. revert i. induction H as [|Q l Qs qs [Hseg _] _ IH]; intros i; simpl; [done|].
  destruct l as [|x l]; simpl in Hseg.
  - by rewrite Hseg.
  - by destruct Hseg as [-> _].
Qed.

(** *** Updates of the links *)

Lemma nx_updp s p f i :
  (p < length (procs s))%nat →
  nx (updp p f s) i = if decide (i = p) then rq_next (f (getp s i)) else nx s i.
Proof. intros. unfold nx. rewrite getp_updp by done. by case_decide. Qed.

Lemma fields_updp_next s p v : fields (updp p (set_rq_next v) s) = fields s.
Proof.
  unfold fields, updp; simpl. apply list_eq. intros i.
  rewrite !list_lookup_fmap, list_lookup_alter. case_decide; [|done].
  subst. by destruct (procs s !! i).
Qed.

Lemma field_same s s' p : fields s' = fields s → (p < length (procs s))%nat → field s' p = field s p.
Proof.
  intros Hf Hp. unfold field, getp, fields in *.
  rewrite !list_lookup_total_alt.
  assert ((set_rq_next None <$> procs s) !! p = (set_rq_next None <$> procs s') !! p) as H by congruence.
  rewrite !list_lookup_fmap in H.
  destruct (procs s !! p) as [a|] eqn:Ea; [|apply lookup_ge_None in Ea; lia].
  destruct (procs s' !! p) as [b|]; simpl in *; congruence.
Qed.

Lemma fields_length s s' : fields s' = fields s → length (procs s') = length (procs s).
Proof. intros H%(f_equal length). unfold fields in H. by rewrite !length_fmap in H. Qed.

(** Any field but the link can be read through [field]. *)
Lemma prio_field s p : prio (getp s p) = prio (field s p). Proof. done. Qed.
Lemma wait_field s p : wait_ticks (getp s p) = wait_ticks (field s p). Proof. done. Qed.
Lemma state_field s p : state (getp s p) = state (field s p). Proof. done. Qed.

#[export] Instance same_but_links_refl : Reflexive same_but_links.
Proof. done. Qed.
#[export] Instance same_but_links_trans : Transitive same_but_links.
Proof. intros s1 s2 s3 (? & ? & ?) (? & ? & ?); split; [|split]; congruence. Qed.

Lemma Links_lookup s qs i l :
  Links s qs → qs !! i = Some l → ∃ Q, q s !! i = Some Q ∧ queue_ok s Q l.
Proof.
  intros HL Hi. destruct (lookup_lt_is_Some_2 (q s) i) as [Q HQ].
  { rewrite (links_q _ _ HL), <-(links_len _ _ HL). by eapply lookup_lt_Some. }
  exists Q. split; [done|]. by eapply links_queues.
Qed.

Lemma Links_range s qs i l p : Links s qs → qs !! i = Some l → p ∈ l → (p < NPROC)%nat.
Proof.
  intros HL Hi Hp. pose proof (links_range _ _ HL) as H. rewrite Forall_forall in H.
  by eapply H, elem_of_concat_lookup.
Qed.

(** Rebuilding [Links] after a change of queue [k] and of links of processes
    that are in no other queue. *)
Lemma Links_insert s s' qs k l l' Q' :
  Links s qs → qs !! k = Some l → length (procs s') = NPROC →
  q s' = <[k:=Q']> (q s) →
  queue_ok s' Q' l' →
  (∀ x, x ∈ concat qs → x ∉ l → nx s' x = nx s x) →
  NoDup (concat (<[k:=l']> qs)) → Forall (λ p, (p < NPROC)%nat) (concat (<[k:=l']> qs)) →
  Links s' (<[k:=l']> qs).
Proof.
  intros HL Hk Hproc Hq Hok Hnx Hnd Hr. split; [done| | | |done|done].
  - rewrite Hq, length_insert. apply HL.
  - rewrite length_insert. apply HL.
  - intros i Q l0. rewrite Hq. destruct (decide (i = k)) as [->|Hne].
    + rewrite !list_lookup_insert_eq.
      * by intros [= <-] [= <-].
      * by eapply lookup_lt_Some.
      * rewrite (links_q _ _ HL), <-(links_len _ _ HL). by eapply lookup_lt_Some.
    + rewrite !list_lookup_insert_ne by done. intros HQ Hl0.
      destruct (links_queues _ _ HL i Q l0 HQ Hl0) as [Hseg Htail]. split; [|done].
      eapply lseg_ext; [|done]. intros x Hx. symmetry. apply Hnx.
      * by eapply elem_of_concat_lookup.
      * intros Hx'. apply Hne. by eapply NoDup_concat_unique; [apply HL|..].
Qed.

(** ** [rq_push_tail] implements appending to a queue *)

(** The duplicate-freedom and range side conditions of a push. *)
Lemma push_conditions s qs k l p :
  Links s qs → qs !! k = Some l → (p < NPROC)%nat → p ∉ concat qs →
  NoDup (concat (<[k:=l ++ [p]]> qs)) ∧ Forall (λ p, (p < NPROC)%nat) (concat (<[k:=l ++ [p]]> qs)).
Proof.
  intros HL Hl Hp Hnin. destruct (concat_insert_split qs k l Hl) as (rest & HP & HP'). split.
  - rewrite HP', <-(assoc_L (++)), (Permutation_app_comm [p]), (assoc_L (++)).
    apply NoDup_app. repeat split; [rewrite <-HP; apply HL| |apply NoDup_singleton].
    intros x Hx ->%list_elem_of_singleton. by rewrite <-HP in Hx.
  - rewrite HP'. pose proof (links_range _ _ HL) as Hr. rewrite HP in Hr.
    apply Forall_app in Hr as [??]. by rewrite !Forall_app, Forall_singleton.
Qed.

(** [rq_push_tail] without the update of [highest_nonempty]. *)
Definition push_links (k p : nat) (s : kst) : kst :=
  let s1 := updp p (set_rq_next None) s in
  let Q := q s1 !!! k in
  match tail Q with
  | Some t =>
      let s' := updp t (set_rq_next (Some p)) s1 in
      set_q (<[k := PrioQueue (head Q) (Some p)]> (q s')) s'
  | None => set_q (<[k := PrioQueue (Some p) (Some p)]> (q s1)) s1
  end.

Lemma push_links_nonempty s qs k l0 y p Q :
  Links s qs → qs !! k = Some (l0 ++ [y]) → q s !! k = Some Q →
  (p < NPROC)%nat → p ∉ concat qs →
  Links (push_links k p s) (<[k := (l0 ++ [y]) ++ [p]]> qs) ∧ same_but_links s (push_links k p s).
Proof.
  intros HL Hl HQ Hp Hnin. pose proof (links_procs _ _ HL) as Hlen.
  destruct (links_queues _ _ HL _ _ _ HQ Hl) as [Hseg Htail]. rewrite last_snoc in Htail.
  assert (p ∉ l0 ++ [y]) as Hpl by (intros ?; eapply Hnin, elem_of_concat_lookup; eauto).
  assert (y < NPROC)%nat as Hy by (eapply (Links_range _ _ _ _ y HL Hl); set_solver).
  pose proof (NoDup_concat_lookup _ _ _ (links_nodup _ _ HL) Hl) as Hndl.
  apply NoDup_app in Hndl as (_ & Hyl0 & _).
  destruct (push_conditions s qs k _ p HL Hl Hp Hnin) as [Hnd' Hr'].
  unfold push_links. cbn zeta. simpl q. rewrite (lookup_total_Some _ _ _ HQ), Htail.
  set (s' := set_q _ _).
  assert (∀ x, nx s' x = if decide (x = y) then Some p else if decide (x = p) then None else nx s x) as Hnx.
  { intros x. change (nx s' x) with (nx (updp y (set_rq_next (Some p)) (updp p (set_rq_next None) s)) x).
    rewrite nx_updp by (rewrite length_updp; lia). rewrite nx_updp by lia. simpl. by repeat case_decide. }
  split; [|split; [|done]].
  - eapply (Links_insert s _ qs k); [done|done|simpl; by rewrite !length_alter|done| | |done|done].
    + split; [|by rewrite last_snoc]. simpl. apply lseg_snoc in Hseg as [Hseg _].
      rewrite !lseg_snoc, !Hnx.
      rewrite (decide_True (P:=y=y)), (decide_False (P:=p=y)), (decide_True (P:=p=p)) by set_solver.
      split; [split; [|done]|done]. eapply lseg_ext; [|exact Hseg].
      intros x Hx. rewrite Hnx, !decide_False; [done|set_solver|]. intros ->. by apply (Hyl0 y); set_solver.
    + intros x Hx Hxl. rewrite Hnx, !decide_False; [done|set_solver|set_solver].
  - change (fields (updp y (set_rq_next (Some p)) (updp p (set_rq_next None) s)) = fields s).
    by rewrite !fields_updp_next.
Qed.

Lemma push_links_empty s qs k p Q :
  Links s qs → qs !! k = Some [] → q s !! k = Some Q →
  (p < NPROC)%nat → p ∉ concat qs →
  Links (push_links k p s) (<[k := [] ++ [p]]> qs) ∧ same_but_links s (push_links k p s).
Proof.
  intros HL Hl HQ Hp Hnin. pose proof (links_procs _ _ HL) as Hlen.
  destruct (links_queues _ _ HL _ _ _ HQ Hl) as [Hseg Htail]. simpl in Htail.
  destruct (push_conditions s qs k _ p HL Hl Hp Hnin) as [Hnd' Hr'].
  unfold push_links. cbn zeta. simpl q. rewrite (lookup_total_Some _ _ _ HQ), Htail.
  set (s' := set_q _ _).
  assert (∀ x, nx s' x = if decide (x = p) then None else nx s x) as Hnx.
  { intros x. change (nx s' x) with (nx (updp p (set_rq_next None) s) x). by rewrite nx_updp by lia. }
  split; [|split; [|done]].
  - eapply (Links_insert s _ qs k); [done|done|simpl; by rewrite !length_alter|done| | |done|done].
    + split; [|done]. simpl. by rewrite Hnx, decide_True.
    + intros x Hx _. rewrite Hnx, decide_False; [done|set_solver].
  - apply fields_updp_next.
Qed.

Lemma push_links_ok s qs k l p :
  Links s qs → qs !! k = Some l → (p < NPROC)%nat → p ∉ concat qs →
  Links (push_links k p s) (<[k := l ++ [p]]> qs) ∧ same_but_links s (push_links k p s).
Proof.
  intros HL Hl Hp Hnin. destruct (Links_lookup _ _ _ _ HL Hl) as (Q & HQ & _).
  destruct l as [|y l0 _] using rev_ind;
    [by eapply push_links_empty|by eapply push_links_nonempty].
Qed.

Lemma Links_set_highest s qs v : Links s qs → Links (set_highest v s) qs.
Proof. by intros []. Qed.

Lemma push_links_highest k p s : highest_nonempty (push_links k p s) = highest_nonempty s.
Proof. unfold push_links. cbn zeta. by destruct (tail _). Qed.

Lemma rq_push_tail_eq pr p s :
  rq_push_tail pr p s =
    if (highest_nonempty s <? 0) || (pr <? highest_nonempty s)
    then set_highest pr (push_links (Z.to_nat pr) p s) else push_links (Z.to_nat pr) p s.
Proof.
  unfold rq_push_tail. fold (push_links (Z.to_nat pr) p s). cbn zeta.
  by rewrite push_links_highest.
Qed.

Lemma rq_push_tail_repr pr p s qs l :
  Repr s qs → 0 ≤ pr → qs !! Z.to_nat pr = Some l → (p < NPROC)%nat → p ∉ concat qs →
  Repr (rq_push_tail pr p s) (<[Z.to_nat pr := l ++ [p]]> qs) ∧
  same_but_links s (rq_push_tail pr p s).
Proof.
  intros [HL Hh] Hpr Hl Hp Hnin.
  destruct (push_links_ok s qs _ l p HL Hl Hp Hnin) as [HL' Hsame].
  rewrite rq_push_tail_eq, Hh.
  pose proof (first_nonempty_push qs _ l (l ++ [p]) Hl) as Hf. assert (l ++ [p] ≠ []) as Hne by (by destruct l). specialize (Hf Hne).
  rewrite Z2Nat.id in Hf by done.
  destruct (_ || _); (split; [split|]); try done.
  - by apply Links_set_highest.
  - rewrite push_links_highest, Hh, Hf. case_decide; congruence.
Qed.

(** ** [rq_remove] implements removal from a queue *)

Lemma nx_set_q v s x : nx (set_q v s) x = nx s x.
Proof. done. Qed.

(** The links after [rq_unlink], in one formula. *)
Lemma nx_unlink pr prev c s x :
  (c < length (procs s))%nat → from_option (λ pv, (pv < length (procs s))%nat ∧ pv ≠ c) True prev →
  nx (rq_unlink pr prev c s) x =
    if decide (x = c) then None else if decide (Some x = prev) then nx s c else nx s x.
Proof.
  intros Hc Hpv. unfold rq_unlink. cbn zeta.
  rewrite nx_updp; [|by destruct prev; case_decide; simpl; rewrite ?length_alter].
  case_decide; [done|].
  assert (∀ (b : bool) v s1, nx (if b then set_q v s1 else s1) x = nx s1 x) as Hif by (by intros []).
  case_decide as Ht; rewrite ?nx_set_q; (destruct prev as [pv|]; simpl in Hpv;
    [rewrite nx_updp by tauto; repeat case_decide; naive_solver|by rewrite ?nx_set_q, decide_False by done]).
Qed.

Lemma unlink_q pr prev c s Q :
  q s !! Z.to_nat pr = Some Q →
  q (rq_unlink pr prev c s) =
    <[Z.to_nat pr := PrioQueue (match prev with Some _ => head Q | None => nx s c end)
                               (if decide (tail Q = Some c) then prev else tail Q)]> (q s).
Proof.
  intros HQ. pose proof (lookup_lt_Some _ _ _ HQ).
  unfold rq_unlink. cbn zeta. destruct prev as [pv|]; simpl.
  - rewrite (lookup_total_Some _ _ Q) by done. case_decide; simpl.
    + by erewrite list_alter_as_insert.
    + symmetry. apply list_insert_id. by destruct Q.
  - erewrite list_alter_as_insert by done.
    rewrite (lookup_total_Some _ (Z.to_nat pr) (PrioQueue (nx s c) (tail Q)))
      by (by apply list_lookup_insert_eq). simpl.
    case_decide; simpl; [|done].
    erewrite list_alter_as_insert by (by apply list_lookup_insert_eq).
    by rewrite list_insert_insert_eq.
Qed.

Lemma unlink_same pr prev c s : same_but_links s (rq_unlink pr prev c s).
Proof.
  unfold rq_unlink. cbn zeta. destruct prev as [pv|]; case_decide; split; try done;
    (etrans; [apply fields_updp_next|]); try done; apply fields_updp_next.
Qed.

(** Unlinking [c] from [l1 ++ c :: l2], with the predecessor found by the walk. *)
Lemma rq_unlink_links pr s qs l1 c l2 :
  Links s qs → qs !! Z.to_nat pr = Some (l1 ++ c :: l2) →
  Links (rq_unlink pr (last l1) c s) (<[Z.to_nat pr := (l1 ++ l2)]> qs).
Proof.
  intros HL Hl. set (k := Z.to_nat pr) in *.
  destruct (Links_lookup _ _ _ _ HL Hl) as (Q & HQ & Hseg & Htail).
  pose proof (links_procs _ _ HL) as Hlen.
  pose proof (NoDup_concat_lookup _ _ _ (links_nodup _ _ HL) Hl) as Hnd.
  assert (c < NPROC)%nat as Hc by (eapply (Links_range _ _ _ _ c HL Hl); set_solver).
  destruct (concat_insert_split qs k _ Hl) as (rest & HP & HP').
  assert (from_option (λ pv, (pv < length (procs s))%nat ∧ pv ≠ c) True (last l1)) as Hpv.
  { destruct (last l1) as [pv|] eqn:E; [simpl|done]. apply last_Some in E as [l1' ->]. split.
    - rewrite Hlen. eapply (Links_range _ _ _ _ pv HL Hl). set_solver.
    - intros ->. apply NoDup_app in Hnd as (_ & Hnd & _). apply (Hnd c); set_solver. }
  pose proof (λ x, nx_unlink pr (last l1) c s x ltac:(lia) Hpv) as Hnx.
  assert ((c ∉ l1) ∧ (c ∉ l2)) as [Hc1 Hc2].
  { apply NoDup_app in Hnd as (_ & H1 & H2). apply NoDup_cons in H2 as [H2 _]. split; [|done].
    intros ?. apply (H1 c); set_solver. }
  eapply (Links_insert s _ qs k _ (l1 ++ l2)); [done|exact Hl| |by apply unlink_q| | | |].
  - rewrite <-Hlen. apply fields_length. apply unlink_same.
  - split; simpl.
    + apply lseg_app in Hseg as (m & Hs1 & Hm & Hs2). subst m.
      assert (lseg (nx (rq_unlink pr (last l1) c s)) (nx s c) l2 None) as Hs2'.
      { eapply lseg_ext; [|exact Hs2]. intros x Hx. rewrite Hnx, !decide_False; [done| |set_solver].
        intros E. symmetry in E. apply last_Some in E as [l1' ->].
        apply NoDup_app in Hnd as (_ & H1 & _). apply (H1 x); set_solver. }
      destruct l1 as [|pv l1 _] using rev_ind; [done|]. rewrite last_snoc in *.
      apply lseg_snoc in Hs1 as [Hs1 _]. rewrite <-(assoc_L (++)). apply lseg_app. exists (Some pv).
      simpl. rewrite Hnx, (decide_False (P:=pv=c)), decide_True by set_solver.
      split; [|done]. eapply lseg_ext; [|exact Hs1]. intros x Hx.
      rewrite Hnx, !decide_False; [done| |set_solver].
      intros [= ->]. rewrite <-(assoc_L (++)) in Hnd. apply NoDup_app in Hnd as (_ & H1 & _).
      apply (H1 pv); set_solver.
    + rewrite Htail. destruct l2 as [|y l2 _] using rev_ind.
      * rewrite last_snoc, decide_True by done. by rewrite app_nil_r.
      * rewrite app_comm_cons, !(assoc_L (++)), !last_snoc, decide_False; [done|set_solver].
  - intros x Hx Hxl. rewrite Hnx, !decide_False; [done| |set_solver].
    intros E. symmetry in E. apply last_Some in E as [l1' ->]. set_solver.
  - rewrite HP'. pose proof (links_nodup _ _ HL) as Hn. rewrite HP in Hn.
    rewrite <-(Permutation_middle l1 l2 c) in Hn. simpl in Hn. by apply NoDup_cons in Hn as [_ ?].
  - rewrite HP'. pose proof (links_range _ _ HL) as Hr. rewrite HP in Hr.
    rewrite <-(Permutation_middle l1 l2 c) in Hr. simpl in Hr. by inversion Hr.
Qed.

(** The search loop: nothing changes until [p] is met. *)
Definition remove_body (pr : Z) (p : nat) : option nat * option nat → M kst (option nat * option nat + unit) :=
  λ '(prev, cur),
    match cur with
    | None => mret (inr tt)
    | Some c =>
        if decide (c = p) then modify (rq_unlink pr prev c);; mret (inr tt)
        else nxt ← gets (λ s, rq_next (getp s c)); mret (inl (Some c, nxt))
    end.

Lemma remove_loop pr p s n done todo cur Q :
  lseg (nx s) cur todo None → (length todo < n)%nat →
  (p ∉ todo → Q s) →
  (∀ t1 t2, todo = t1 ++ p :: t2 → p ∉ t1 → Q (rq_unlink pr (last (done ++ t1)) p s)) →
  wp (iterM n (remove_body pr p) (last done, cur)) (λ _ s', Q s') s.
Proof.
  revert n done cur. induction todo as [|c todo IH]; intros [|n] done cur Hseg Hn Hq1 Hq2;
    simpl in *; try lia.
  - subst. apply wp_bind. wp_step. wp_step. apply Hq1. set_solver.
  - destruct Hseg as [-> Hseg]. apply wp_bind. simpl. case_decide as Hc.
    + subst. wp_steps. specialize (Hq2 [] todo). rewrite app_nil_r in Hq2. apply Hq2; set_solver.
    + wp_steps. rewrite <-(last_snoc c done). apply IH; [done|lia| |].
      * intros ?. apply Hq1. set_solver.
      * intros t1 t2 -> Hp. rewrite <-(assoc_L (++)). by apply (Hq2 (c :: t1) t2); set_solver.
Qed.

(** Removing [p]: what the abstract queue becomes. *)
Definition drop_proc (p : nat) (l : list nat) : list nat := filter (λ x, x ≠ p) l.

Lemma drop_proc_notin p l : p ∉ l → drop_proc p l = l.
Proof.
  intros Hp. unfold drop_proc. induction l as [|x l IH]; [done|].
  rewrite filter_cons_True by set_solver. by rewrite IH by set_solver.
Qed.

Lemma drop_proc_middle p l1 l2 : NoDup (l1 ++ p :: l2) → drop_proc p (l1 ++ p :: l2) = l1 ++ l2.
Proof.
  intros (_ & H1 & H2)%NoDup_app. apply NoDup_cons in H2 as [H2 _].
  unfold drop_proc. rewrite filter_app, filter_cons_False by (intros H; by apply H).
  f_equal; apply drop_proc_notin; [|done]. intros ?. by apply (H1 p); set_solver.
Qed.

Lemma rescan s qs :
  Links s qs → scan_heads 0 (q s) = first_nonempty qs.
Proof.
  intros HL. unfold first_nonempty. apply (scan_heads_spec s). apply Forall2_same_length_lookup_2.
  - by rewrite (links_q _ _ HL), (links_len _ _ HL).
  - intros. by eapply HL.
Qed.

(** The tail of [rq_remove], that recomputes the cached index. *)
Lemma refresh_highest pr s qs l l' :
  Links s (<[Z.to_nat pr := l']> qs) → 0 ≤ pr → qs !! Z.to_nat pr = Some l →
  highest_nonempty s = first_nonempty qs → (l' ≠ [] → l ≠ []) →
  wp (s ← getS;
      match head (q s !!! Z.to_nat pr) with
      | Some _ => mret tt
      | None =>
          if highest_nonempty s =? pr then putS (set_highest (scan_heads 0 (q s)) s) else mret tt
      end) (λ _ s', Repr s' (<[Z.to_nat pr := l']> qs) ∧ same_but_links s s') s.
Proof.
  intros HL Hpr Hl Hh Hne. pose proof (lookup_lt_Some _ _ _ Hl) as Hlt.
  assert (<[Z.to_nat pr:=l']> qs !! Z.to_nat pr = Some l') as Hl' by (by apply list_lookup_insert_eq).
  destruct (Links_lookup _ _ _ _ HL Hl') as (Q & HQ & Hseg & _).
  wp_steps. rewrite (lookup_total_Some _ _ _ HQ), (lseg_head _ _ _ Hseg).
  destruct l' as [|x l']; simpl.
  - destruct (Z.eqb_spec (highest_nonempty s) pr) as [E|E]; wp_step.
    + split; [split|done]; [by apply Links_set_highest|simpl; by apply rescan].
    + split; [split|done]; [done|]. rewrite Hh. symmetry. eapply first_nonempty_drop; [done|lia].
  - wp_step. split; [split|done]; [done|]. rewrite Hh.
    erewrite first_nonempty_push by done. rewrite Z2Nat.id by done.
    destruct (first_nonempty_cases qs) as [[_ Hall]|(k & l0 & -> & Hk & Hne0 & Hlt0)].
    { rewrite Forall_lookup in Hall. apply Hall in Hl. by destruct (Hne ltac:(done)). }
    assert (Z.of_nat k ≤ pr).
    { destruct (decide (Z.of_nat k ≤ pr)); [done|exfalso].
      rewrite Hlt0 in Hl by lia. injection Hl as <-. by apply Hne. }
    rewrite (proj2 (Z.ltb_ge _ _)), (proj2 (Z.ltb_ge _ _)) by lia. simpl.
    case_decide; congruence.
Qed.

Lemma unlink_highest pr prev c s : highest_nonempty (rq_unlink pr prev c s) = highest_nonempty s.
Proof. unfold rq_unlink. cbn zeta. destruct prev; by case_decide. Qed.

Lemma rq_remove_repr pr p s qs l :
  Repr s qs → 0 ≤ pr → qs !! Z.to_nat pr = Some l →
  wp (rq_remove pr p)
     (λ _ s', Repr s' (<[Z.to_nat pr := drop_proc p l]> qs) ∧ same_but_links s s') s.
Proof.
  intros [HL Hh] Hpr Hl.
  destruct (Links_lookup _ _ _ _ HL Hl) as (Q & HQ & Hseg & _).
  pose proof (NoDup_concat_lookup _ _ _ (links_nodup _ _ HL) Hl) as Hnd.
  unfold rq_remove. wp_steps. rewrite (lookup_total_Some _ _ _ HQ).
  fold (remove_body pr p).
  change (None, head Q) with (last (@nil nat), head Q).
  apply remove_loop with (todo := l); [done| | |].
  - enough (length l ≤ NPROC)%nat by lia. apply NoDup_length_bound; [done|].
    apply Forall_forall. intros x Hx. by eapply Links_range.
  - intros Hp. rewrite drop_proc_notin by done.
    eapply refresh_highest; try done. by rewrite list_insert_id.
  - intros l1 l2 -> Hp1. rewrite drop_proc_middle by done. simpl.
    eapply wp_mono; [|eapply refresh_highest; [by apply rq_unlink_links|done|done| |]].
    + intros _ s' [HR Hs]. split; [done|]. etrans; [apply unlink_same|exact Hs].
    + by rewrite unlink_highest.
    + intros _. by destruct l1.
Qed.

(** ** Picking and enqueueing *)

Lemma drop_proc_head p l : NoDup (p :: l) → drop_proc p (p :: l) = l.
Proof. intros H. by apply (drop_proc_middle p [] l). Qed.

Lemma prio_pick_next_repr s qs :
  Repr s qs →
  wp prio_pick_next
     (λ r s', match r with
              | None => Forall (λ l, l = []) qs ∧ s' = s
              | Some p => ∃ k l, qs !! k = Some (p :: l) ∧ (∀ j, (j < k)%nat → qs !! j = Some []) ∧
                                 Repr s' (<[k := l]> qs) ∧ same_but_links s s'
              end) s.
Proof.
  intros HR. pose proof HR as [HL Hh]. unfold prio_pick_next. wp_steps. rewrite Hh.
  destruct (first_nonempty_cases qs) as [[-> Hall]|(k & [|p l] & -> & Hk & Hne & Hlt)]; [done|done|].
  rewrite (proj2 (Z.ltb_ge _ _)) by lia. wp_steps. rewrite Nat2Z.id.
  destruct (Links_lookup _ _ _ _ HL Hk) as (Q & HQ & Hseg & _).
  rewrite (lookup_total_Some _ _ _ HQ), (lseg_head _ _ _ Hseg). simpl. wp_step.
  eapply wp_mono; [|eapply (rq_remove_repr _ p); [done|lia|by rewrite Nat2Z.id]].
  intros _ s' [HR' Hs]. wp_step. exists k, l.
  rewrite Nat2Z.id, drop_proc_head in HR'; [done|]. by eapply NoDup_concat_lookup; [apply HL|].
Qed.

(** Changing fields that are not links keeps the representation. *)
Lemma Repr_updp s qs p f :
  Repr s qs → (p < NPROC)%nat → (∀ x, rq_next (f x) = rq_next x) → Repr (updp p f s) qs.
Proof.
  intros [[Hp Hq Hl Hok Hnd Hr] Hh] Hlt Hf. split; [split|]; try done.
  - by rewrite length_updp.
  - intros i Q l HQ Hi. destruct (Hok i Q l HQ Hi) as [Hseg Ht]. split; [|done].
    eapply lseg_ext; [|exact Hseg]. intros x _. rewrite nx_updp by lia. case_decide; [|done].
    by rewrite Hf.
Qed.

Lemma Repr_set_cpu s qs c : Repr s qs → Repr (set_cpu c s) qs.
Proof. by intros [[] ?]. Qed.

Lemma field_updp s p f i :
  (p < length (procs s))%nat → (∀ x, set_rq_next None (f x) = f (set_rq_next None x)) →
  field (updp p f s) i = if decide (i = p) then f (field s i) else field s i.
Proof. intros Hp Hf. unfold field. rewrite getp_updp by done. case_decide; by rewrite ?Hf. Qed.

Lemma same_field s s' p :
  same_but_links s s' → (p < length (procs s))%nat → field s' p = field s p.
Proof. intros [Hf _]. by apply field_same. Qed.

Definition prio_ok (p : proc) : Prop := 0 ≤ prio p < Z.of_nat NPRIO.

Lemma prio_lookup s qs p : Repr s qs → prio_ok (getp s p) → is_Some (qs !! Z.to_nat (prio (getp s p))).
Proof.
  intros [HL _] H. apply lookup_lt_is_Some. rewrite (links_len _ _ HL). unfold prio_ok in H. lia.
Qed.

Lemma rq_push_tail_c_proc pr p s : mycpu (rq_push_tail pr p s) = mycpu s.
Proof. rewrite rq_push_tail_eq. unfold push_links. cbn zeta. by destruct (tail _), (_ || _). Qed.

(** Does the newly runnable [p] outrank the process on the CPU? *)
Definition outranks (s : kst) (p : nat) : bool :=
  match c_proc (mycpu s) with
  | Some cur => bool_decide (state (getp s cur) = RUNNING ∧ prio (getp s p) < prio (getp s cur))
  | None => false
  end.

Definition cur_ok (s : kst) : Prop := from_option (λ c, (c < NPROC)%nat) True (c_proc (mycpu s)).

Lemma enqueue_links p s qs l :
  Repr s qs → (p < NPROC)%nat → p ∉ concat qs → prio_ok (getp s p) →
  qs !! Z.to_nat (prio (getp s p)) = Some l →
  let s2 := rq_push_tail (prio (getp (updp p (set_wait_ticks 0) s) p)) p (updp p (set_wait_ticks 0) s) in
  Repr s2 (<[Z.to_nat (prio (getp s p)) := (l ++ [p])]> qs) ∧
  (∀ i, (i < NPROC)%nat → field s2 i = if decide (i = p) then set_wait_ticks 0 (field s i) else field s i) ∧
  mycpu s2 = mycpu s ∧ glob s2 = glob s.
Proof.
  intros HR Hp Hnin Hprio Hl. pose proof (links_procs _ _ (repr_links _ _ HR)) as Hlen.
  assert (Repr (updp p (set_wait_ticks 0) s) qs) as HR1 by (by apply Repr_updp).
  assert (prio (getp (updp p (set_wait_ticks 0) s) p) = prio (getp s p)) as ->
    by (rewrite getp_updp_eq by lia; done).
  destruct (rq_push_tail_repr (prio (getp s p)) p _ qs l HR1) as [HR2 Hs]; [unfold prio_ok in *; lia|done..|].
  split; [done|]. split; [|apply Hs]. intros i Hi.
  rewrite (same_field _ _ _ Hs) by (rewrite length_updp; lia). by rewrite field_updp by (done || lia).
Qed.

Lemma prio_enqueue_repr p s qs l :
  Repr s qs → cur_ok s → (p < NPROC)%nat → p ∉ concat qs → prio_ok (getp s p) →
  qs !! Z.to_nat (prio (getp s p)) = Some l →
  let s' := prio_enqueue p s in
  Repr s' (<[Z.to_nat (prio (getp s p)) := (l ++ [p])]> qs) ∧
  (∀ i, (i < NPROC)%nat → field s' i = if decide (i = p) then set_wait_ticks 0 (field s i) else field s i) ∧
  mycpu s' = set_preempt_pending (outranks s p || preempt_pending (mycpu s)) (mycpu s) ∧
  glob s' = glob s.
Proof.
  intros HR Hcur Hp Hnin Hprio Hl s'. subst s'. unfold prio_enqueue. cbn zeta.
  destruct (enqueue_links p s qs l HR Hp Hnin Hprio Hl) as (HR2 & Hf & Hc & Hg).
  set (s2 := rq_push_tail _ _ _) in *.
  assert (mycpu s = set_preempt_pending (preempt_pending (mycpu s)) (mycpu s)) as Hid by (by destruct (mycpu s)).
  unfold outranks. unfold cur_ok in Hcur. rewrite Hc.
  destruct (c_proc (mycpu s)) as [cur|]; simpl in Hcur; [|simpl; by rewrite Hc].
  assert ((state (getp s2 cur) = RUNNING ∧ prio (getp s2 p) < prio (getp s2 cur)) ↔
          (state (getp s cur) = RUNNING ∧ prio (getp s p) < prio (getp s cur))) as Heq.
  { rewrite !(state_field s2), !(prio_field s2), !Hf by done.
    rewrite (decide_True (P:=p=p)) by done. case_decide; done. }
  rewrite (bool_decide_ext _ _ (iff_sym Heq)).
  case_decide as Hd; [rewrite bool_decide_eq_true_2 by done|rewrite bool_decide_eq_false_2 by done]; simpl.
  - split; [by apply Repr_set_cpu|]. split; [done|]. done.
  - by rewrite Hc.
Qed.

(** ** Aging

    What one clock tick does to the fields of a queued process, and which
    processes it promotes. *)

Definition promoted (p : proc) : bool := (AGING_TICKS <=? s32 (wait_ticks p + 1)) && (PRIO_MIN <? prio p).

Definition aged (p : proc) : proc :=
  if promoted p then set_wait_ticks 0 (set_prio (prio p - 1) p)
  else set_wait_ticks (s32 (wait_ticks p + 1)) p.

(** Every queued process is in the queue of its priority. *)
Definition prio_sorted (s : kst) (qs : list (list nat)) : Prop :=
  ∀ k l p, qs !! k = Some l → p ∈ l → prio (getp s p) = Z.of_nat k.

Definition stay (s : kst) (l : list nat) : list nat := filter (λ p, promoted (getp s p) = false) l.
Definition climb (s : kst) (l : list nat) : list nat := filter (λ p, promoted (getp s p) = true) l.

(** The queues after a tick: level [k] keeps the processes that stay, followed
    by those that come up from level [k+1], in order. *)
Definition tick_queues (s : kst) (qs : list (list nat)) : list (list nat) :=
  imap (λ k l, stay s l ++ climb s (default [] (qs !! S k))) qs.

Lemma promoted_field s p : promoted (getp s p) = promoted (field s p).
Proof. done. Qed.

Lemma field_aged s p : set_rq_next None (aged (getp s p)) = aged (field s p).
Proof. unfold aged. rewrite promoted_field. by destruct (promoted (field s p)). Qed.

Lemma stay_ext s s' l : (∀ x, x ∈ l → field s' x = field s x) → stay s' l = stay s l.
Proof.
  intros H. unfold stay. apply list_filter_ext. intros x Hx.
  by rewrite !promoted_field, (H x Hx).
Qed.

Lemma climb_ext s s' l : (∀ x, x ∈ l → field s' x = field s x) → climb s' l = climb s l.
Proof.
  intros H. unfold climb. apply list_filter_ext. intros x Hx.
  by rewrite !promoted_field, (H x Hx).
Qed.

(** [bump k base l qs] sets level [k-1] to [base ++ l] (nothing at level 0). *)
Definition bump (k : nat) (base l : list nat) (qs : list (list nat)) : list (list nat) :=
  match k with O => qs | S k' => <[k' := (base ++ l)]> qs end.

Definition bump_base (k : nat) (base : list nat) (qs : list (list nat)) : Prop :=
  match k with O => True | S k' => qs !! k' = Some base end.

Lemma Links_remove_notin s qs k l1 x l2 :
  Links s qs → qs !! k = Some (l1 ++ x :: l2) → x ∉ concat (<[k := (l1 ++ l2)]> qs).
Proof.
  intros HL Hk. destruct (concat_insert_split qs k _ Hk) as (rest & HP & HP').
  rewrite HP'. pose proof (links_nodup _ _ HL) as Hn. rewrite HP in Hn.
  rewrite <-(Permutation_middle l1 l2 x) in Hn. simpl in Hn. by apply NoDup_cons in Hn as [? _].
Qed.

(** The promotion branch of the tick: [x] moves from level [k+1] to [k]. *)
Lemma tick_promote s qs k l1 x l2 base :
  Repr s qs → qs !! S k = Some (l1 ++ x :: l2) → qs !! k = Some base →
  prio (getp s x) = Z.of_nat (S k) →
  wp (rq_remove (Z.of_nat (S k)) x;;
      modify (updp x (λ p, set_prio (prio p - 1) p));;
      modify (updp x (set_wait_ticks 0));;
      s ← getS; putS (rq_push_tail (prio (getp s x)) x s))
     (λ _ s', Repr s' (<[k := (base ++ [x])]> (<[S k := (l1 ++ l2)]> qs)) ∧
              (∀ i, (i < NPROC)%nat → field s' i =
                 if decide (i = x) then set_wait_ticks 0 (set_prio (Z.of_nat k) (field s i)) else field s i) ∧
              mycpu s' = mycpu s ∧ glob s' = glob s) s.
Proof.
  intros HR Hk Hb Hx. pose proof (repr_links _ _ HR) as HL.
  pose proof (Links_range _ _ _ _ x HL Hk ltac:(set_solver)) as Hxr.
  pose proof (NoDup_concat_lookup _ _ _ (links_nodup _ _ HL) Hk) as Hnd.
  wp_step. eapply wp_mono; [|eapply (rq_remove_repr _ x); [done|lia|by rewrite Nat2Z.id]].
  intros _ s1 [HR1 Hs1]. rewrite Nat2Z.id, drop_proc_middle in HR1 by done.
  pose proof (links_procs _ _ HL) as Hlen.
  pose proof (links_procs _ _ (repr_links _ _ HR1)) as Hlen1. wp_steps.
  set (s2 := updp x (λ p, set_prio (prio p - 1) p) s1).
  set (s3 := updp x (set_wait_ticks 0) s2).
  assert (Repr s3 (<[S k := (l1 ++ l2)]> qs)) as HR3 by (by repeat apply Repr_updp).
  assert (∀ i, (i < NPROC)%nat → field s3 i =
    if decide (i = x) then set_wait_ticks 0 (set_prio (Z.of_nat k) (field s i)) else field s i) as Hf.
  { intros i Hi. unfold s3, s2. rewrite !field_updp by (done || rewrite ?length_updp; lia).
    rewrite (same_field _ _ i Hs1) by lia. case_decide; [subst i|done].
    do 2 f_equal. rewrite <-prio_field. lia. }
  assert (prio (getp s3 x) = Z.of_nat k) as ->.
  { rewrite prio_field, Hf, decide_True by done. done. }
  destruct (rq_push_tail_repr (Z.of_nat k) x s3 _ base HR3) as [HR4 Hs4]; [lia| |done| |].
  - rewrite Nat2Z.id, list_lookup_insert_ne by lia. done.
  - by eapply Links_remove_notin.
  - rewrite Nat2Z.id in HR4. split; [done|]. split.
    + intros i Hi. rewrite (same_field _ _ i Hs4); [by apply Hf|].
      rewrite (links_procs _ _ (repr_links _ _ HR3)). lia.
    + destruct Hs4 as (_ & -> & ->). apply Hs1.
Qed.

Lemma bump_insert k base x l l' qs :
  bump k (base ++ [x]) l (bump k base [x] (<[k := l']> qs)) = bump k base (x :: l) (<[k := l']> qs).
Proof.
  destruct k as [|k]; simpl; [done|]. by rewrite list_insert_insert_eq, <-(assoc_L (++)).
Qed.

Lemma bump_lookup_ne k base l qs : bump k base l qs !! k = qs !! k.
Proof. destruct k; simpl; [done|]. by rewrite list_lookup_insert_ne by lia. Qed.

Lemma bump_insert_comm k base l l' qs :
  <[k := l']> (bump k base l qs) = bump k base l (<[k := l']> qs).
Proof. destruct k; simpl; [done|]. by rewrite list_insert_insert_ne by lia. Qed.

Lemma bump_base_insert k base l qs : bump_base k base qs → bump_base k base (<[k := l]> qs).
Proof. destruct k; simpl; [done|]. by rewrite list_lookup_insert_ne by lia. Qed.

Lemma bump_nil k base qs : bump_base k base qs → bump k base [] qs = qs.
Proof. destruct k; simpl; [done|]. intros. rewrite app_nil_r. by apply list_insert_id. Qed.

(** What the loop over one level leaves behind. *)
Definition level_post (k : nat) (base kept todo : list nat) (s : kst) (qs : list (list nat)) (s' : kst) : Prop :=
  Repr s' (bump k base (climb s todo) (<[k := (kept ++ stay s todo)]> qs)) ∧
  (∀ i, (i < NPROC)%nat → field s' i = if decide (i ∈ todo) then aged (field s i) else field s i) ∧
  mycpu s' = mycpu s ∧ glob s' = glob s.

(** One process of the level: the two branches of the loop body. *)
Lemma tick_step_promote s qs k base kept x todo :
  Repr s qs → qs !! k = Some (kept ++ x :: todo) → bump_base k base qs →
  prio (getp s x) = Z.of_nat k → promoted (getp s x) = true →
  wp (tick_body (Z.of_nat k) (Some x))
     (λ r s', r = inl (list.head todo) ∧ ∃ qs', qs' = bump k base [x] (<[k := (kept ++ todo)]> qs) ∧
        Repr s' qs' ∧ bump_base k (base ++ [x]) qs' ∧
        (∀ i, (i < NPROC)%nat → field s' i = if decide (i = x) then aged (field s i) else field s i) ∧
        mycpu s' = mycpu s ∧ glob s' = glob s) s.
Proof.
  intros HR Hk Hb Hx Hprom. pose proof (repr_links _ _ HR) as HL.
  pose proof (links_procs _ _ HL) as Hlen.
  pose proof (Links_range _ _ _ _ x HL Hk ltac:(set_solver)) as Hxr.
  destruct (Links_lookup _ _ _ _ HL Hk) as (Q & HQ & Hseg & _).
  pose proof Hprom as Hp. unfold promoted in Hp. apply andb_prop in Hp as [Hw Hpr].
  destruct k as [|k]; [rewrite Hx in Hpr; done|]. simpl in Hb.
  unfold tick_body. wp_steps. rewrite getp_updp_eq by lia. simpl. rewrite Hw, Hpr. simpl.
  wp_steps. set (s1 := updp x _ s).
  assert (Repr s1 qs) as HR1 by (by apply Repr_updp).
  assert (rq_next (getp s1 x) = list.head todo) as Hnext.
  { unfold s1. rewrite getp_updp_eq by lia. simpl. change (nx s x = list.head todo).
    apply lseg_app in Hseg as (m & _ & Hm). simpl in Hm. destruct Hm as [_ Hm]. by apply lseg_head in Hm. }
  assert (prio (getp s1 x) = Z.of_nat (S k)) as Hx1.
  { unfold s1. by rewrite getp_updp_eq by lia. }
  pose proof (tick_promote s1 qs k kept x todo base HR1 Hk Hb Hx1) as Hw'.
  apply wp_bind_inv in Hw'. eapply wp_mono; [|exact Hw']. intros [] s2 Hw2.
  wp_steps. unfold wp in Hw2. simpl in Hw2. destruct Hw2 as (HR2 & Hf & Hc).
  split; [by rewrite Hnext|]. eexists. split; [done|]. simpl. split; [done|]. split; [|split].
  - by rewrite list_lookup_insert_eq by (rewrite length_insert; by eapply lookup_lt_Some).
  - intros i Hi. rewrite Hf by done. unfold s1. rewrite field_updp by (done || lia).
    case_decide; [subst i|done]. unfold aged. rewrite <-promoted_field, Hprom.
    assert (prio (field s x) = Z.of_nat (S k)) as -> by (by rewrite <-prio_field).
    unfold set_wait_ticks, set_prio; simpl. f_equal. lia.
  - done.
Qed.

Lemma tick_step_stay s qs k kept x todo :
  Repr s qs → qs !! k = Some (kept ++ x :: todo) → promoted (getp s x) = false →
  wp (tick_body (Z.of_nat k) (Some x))
     (λ r s', r = inl (list.head todo) ∧ Repr s' qs ∧
        (∀ i, (i < NPROC)%nat → field s' i = if decide (i = x) then aged (field s i) else field s i) ∧
        mycpu s' = mycpu s ∧ glob s' = glob s) s.
Proof.
  intros HR Hk Hprom. pose proof (repr_links _ _ HR) as HL.
  pose proof (links_procs _ _ HL) as Hlen.
  pose proof (Links_range _ _ _ _ x HL Hk ltac:(set_solver)) as Hxr.
  destruct (Links_lookup _ _ _ _ HL Hk) as (Q & HQ & Hseg & _).
  unfold tick_body. wp_steps. rewrite getp_updp_eq by lia. simpl.
  fold (promoted (getp s x)). rewrite Hprom. wp_steps. rewrite getp_updp_eq by lia. split.
  - f_equal. change (nx s x = list.head todo).
    apply lseg_app in Hseg as (m & _ & Hm). simpl in Hm. destruct Hm as [_ Hm]. by apply lseg_head in Hm.
  - split; [by apply Repr_updp|]. split; [|done]. intros i Hi. rewrite field_updp by (done || lia).
    case_decide; [subst i|done]. unfold aged. by rewrite <-promoted_field, Hprom.
Qed.

Lemma stay_cons s x l : stay s (x :: l) = if promoted (getp s x) then stay s l else x :: stay s l.
Proof. unfold stay. rewrite filter_cons. by destruct (promoted (getp s x)). Qed.

Lemma climb_cons s x l : climb s (x :: l) = if promoted (getp s x) then x :: climb s l else climb s l.
Proof. unfold climb. rewrite filter_cons. by destruct (promoted (getp s x)). Qed.

(** Aging [x] first, then the rest, ages all. *)
Lemma field_after s s1 s2 x todo :
  x ∉ todo →
  (∀ i, (i < NPROC)%nat → field s1 i = if decide (i = x) then aged (field s i) else field s i) →
  (∀ i, (i < NPROC)%nat → field s2 i = if decide (i ∈ todo) then aged (field s1 i) else field s1 i) →
  ∀ i, (i < NPROC)%nat → field s2 i = if decide (i ∈ x :: todo) then aged (field s i) else field s i.
Proof.
  intros Hx H1 H2 i Hi. rewrite H2, H1 by done.
  destruct (decide (i = x)) as [->|Hne].
  - rewrite decide_False by done. by rewrite decide_True by set_solver.
  - destruct (decide (i ∈ todo)); [rewrite decide_True by set_solver|rewrite decide_False by set_solver]; done.
Qed.

Lemma tick_level_loop k base todo : ∀ s qs kept n,
  Repr s qs → qs !! k = Some (kept ++ todo) → bump_base k base qs →
  (∀ x, x ∈ todo → prio (getp s x) = Z.of_nat k) → (length todo < n)%nat →
  wp (iterM n (tick_body (Z.of_nat k)) (list.head todo)) (λ _, level_post k base kept todo s qs) s.
Proof.
  revert base. induction todo as [|x todo IH]; intros base s qs kept [|n] HR Hk Hb Hpr Hn;
    simpl in Hn; try lia; simpl.
  - apply wp_bind. unfold level_post. simpl. wp_steps. rewrite app_nil_r in *.
    split; [|split; [|done]].
    + rewrite list_insert_id, bump_nil by done. done.
    + done.
  - pose proof (repr_links _ _ HR) as HL.
    pose proof (NoDup_concat_lookup _ _ _ (links_nodup _ _ HL) Hk) as Hnd.
    apply NoDup_app in Hnd as (_ & _ & [Hxt _]%NoDup_cons).
    assert (∀ y, y ∈ todo → (y < NPROC)%nat) as Hr by (intros; eapply (Links_range _ _ _ _ y HL Hk); set_solver).
    apply wp_bind. destruct (promoted (getp s x)) eqn:Hprom.
    + eapply wp_mono; [|eapply tick_step_promote; try done; apply Hpr; set_solver].
      intros r s1 (-> & qs' & Hqs' & HR1 & Hb1 & Hf1 & Hc1 & Hg1).
      assert (∀ y, y ∈ todo → field s1 y = field s y) as Hft.
      { intros y Hy. rewrite Hf1 by auto. rewrite decide_False; [done|set_solver]. }
      eapply wp_mono; [|eapply (IH _ s1 qs' kept); [done| |done| |lia]].
      * intros _ s2 (HR2 & Hf2 & Hc2 & Hg2). unfold level_post.
        rewrite stay_cons, climb_cons, Hprom, <-(stay_ext s s1 todo), <-(climb_ext s s1 todo) by done.
        split; [|split; [by eapply field_after|split; congruence]].
        rewrite Hqs', bump_insert_comm, list_insert_insert_eq, bump_insert in HR2. done.
      * rewrite Hqs', bump_lookup_ne. apply list_lookup_insert_eq. by eapply lookup_lt_Some.
      * intros y Hy. rewrite prio_field, Hft, <-prio_field by done. apply Hpr. set_solver.
    + eapply wp_mono; [|by eapply tick_step_stay].
      intros r s1 (-> & HR1 & Hf1 & Hc1 & Hg1).
      assert (∀ y, y ∈ todo → field s1 y = field s y) as Hft.
      { intros y Hy. rewrite Hf1 by auto. rewrite decide_False; [done|set_solver]. }
      eapply wp_mono; [|eapply (IH base s1 qs (kept ++ [x])); [done| |done| |lia]].
      * intros _ s2 (HR2 & Hf2 & Hc2 & Hg2). unfold level_post.
        rewrite stay_cons, climb_cons, Hprom, <-(stay_ext s s1 todo), <-(climb_ext s s1 todo) by done.
        rewrite <-(assoc_L (++)) in HR2.
        split; [done|split; [by eapply field_after|split; congruence]].
      * by rewrite <-(assoc_L (++)).
      * intros y Hy. rewrite prio_field, Hft, <-prio_field by done. apply Hpr. set_solver.
Qed.

Lemma tick_level_ok k base l s qs :
  Repr s qs → qs !! k = Some l → bump_base k base qs →
  (∀ x, x ∈ l → prio (getp s x) = Z.of_nat k) →
  wp (tick_level (Z.of_nat k)) (λ _, level_post k base [] l s qs) s.
Proof.
  intros HR Hk Hb Hpr. pose proof (repr_links _ _ HR) as HL.
  destruct (Links_lookup _ _ _ _ HL Hk) as (Q & HQ & Hseg & _).
  unfold tick_level. wp_steps. rewrite Nat2Z.id, (lookup_total_Some _ _ _ HQ), (lseg_head _ _ _ Hseg).
  apply tick_level_loop; try done.
  enough (length l ≤ NPROC)%nat by lia.
  apply NoDup_length_bound; [by eapply NoDup_concat_lookup; [apply HL|]|].
  apply Forall_forall. intros x Hx. by eapply Links_range.
Qed.

(** The queues when levels below [n] have been processed. *)
Definition tick_upto (n : nat) (s : kst) (qs : list (list nat)) : list (list nat) :=
  imap (λ k l, if decide (k < n)%nat
               then stay s l ++ (if decide (S k < n)%nat then climb s (default [] (qs !! S k)) else [])
               else l) qs.

Lemma tick_upto_0 s qs : tick_upto 0 s qs = qs.
Proof.
  apply list_eq. intros k. unfold tick_upto. rewrite list_lookup_imap.
  by destruct (qs !! k).
Qed.

Lemma tick_upto_all s qs : tick_upto (length qs) s qs = tick_queues s qs.
Proof.
  apply list_eq. intros k. unfold tick_upto, tick_queues. rewrite !list_lookup_imap.
  destruct (qs !! k) as [l|] eqn:Hk; simpl; [|done].
  rewrite decide_True by (by eapply lookup_lt_Some). case_decide; [done|].
  by rewrite (lookup_ge_None_2 qs (S k)) by lia.
Qed.

Lemma tick_upto_lookup n s qs k l :
  qs !! k = Some l →
  tick_upto n s qs !! k =
    Some (if decide (k < n)%nat
          then stay s l ++ (if decide (S k < n)%nat then climb s (default [] (qs !! S k)) else [])
          else l).
Proof. intros Hk. unfold tick_upto. by rewrite list_lookup_imap, Hk. Qed.

(** What level [n] appends to: level [n-1], once processed. *)
Definition prev_stay (n : nat) (s : kst) (qs : list (list nat)) : list nat :=
  match n with O => [] | S m => stay s (default [] (qs !! m)) end.

Lemma tick_upto_base n s qs l : qs !! n = Some l → bump_base n (prev_stay n s qs) (tick_upto n s qs).
Proof.
  intros Hn. destruct n as [|m]; simpl; [done|].
  destruct (lookup_lt_is_Some_2 qs m) as [l' Hl']; [apply lookup_lt_Some in Hn; lia|].
  erewrite tick_upto_lookup, Hl' by done. simpl.
  by rewrite decide_True, decide_False, app_nil_r by lia.
Qed.

Lemma tick_upto_S n s qs l :
  qs !! n = Some l →
  bump n (prev_stay n s qs) (climb s l) (<[n := stay s l]> (tick_upto n s qs)) = tick_upto (S n) s qs.
Proof.
  intros Hn. pose proof (lookup_lt_Some _ _ _ Hn) as Hlt.
  assert (length (tick_upto n s qs) = length qs) as Hlen by apply length_imap.
  apply list_eq. intros k.
  destruct (qs !! k) as [lk|] eqn:Hk.
  2:{ assert (length qs ≤ k)%nat by (by apply lookup_ge_None_1).
      rewrite !lookup_ge_None_2; [done|unfold tick_upto; by rewrite length_imap|].
      destruct n; simpl; rewrite !length_insert, Hlen; done. }
  rewrite (tick_upto_lookup (S n) _ _ _ lk) by done.
  destruct (Nat.lt_trichotomy k n) as [Hkn|[->|Hkn]].
  - destruct n as [|m]; [lia|]. simpl. destruct (decide (k = m)) as [->|Hkm].
    + rewrite list_lookup_insert_eq by (rewrite length_insert, Hlen; lia).
      rewrite !decide_True by lia. by rewrite Hk, Hn.
    + rewrite !list_lookup_insert_ne by lia. rewrite (tick_upto_lookup _ _ _ _ lk) by done.
      by rewrite !decide_True by lia.
  - rewrite bump_lookup_ne, list_lookup_insert_eq by (rewrite Hlen; lia).
    rewrite Hk in Hn. injection Hn as <-. by rewrite decide_True, decide_False, app_nil_r by lia.
  - transitivity (tick_upto n s qs !! k).
    + destruct n; simpl; rewrite !list_lookup_insert_ne by lia; done.
    + rewrite (tick_upto_lookup n _ _ _ lk) by done. by rewrite !decide_False by lia.
Qed.

(** State of the outer loop after levels below [n]. *)
Definition tick_inv (n : nat) (s0 : kst) (qs : list (list nat)) (s : kst) : Prop :=
  Repr s (tick_upto n s0 qs) ∧
  (∀ i, (i < NPROC)%nat →
     field s i = if decide (i ∈ concat (take n qs)) then aged (field s0 i) else field s0 i) ∧
  mycpu s = mycpu s0 ∧ glob s = glob s0.

Lemma tick_inv_step n s0 qs l s :
  Repr s0 qs → prio_sorted s0 qs → qs !! n = Some l → tick_inv n s0 qs s →
  wp (tick_level (Z.of_nat n)) (λ _, tick_inv (S n) s0 qs) s.
Proof.
  intros HR0 Hsort Hn (HR & Hf & Hc & Hg). pose proof (repr_links _ _ HR0) as HL0.
  assert (∀ x, x ∈ l → (x < NPROC)%nat) as Hr by (intros; by eapply Links_range).
  assert (∀ x, x ∈ l → x ∉ concat (take n qs)) as Hnew.
  { intros x Hx Hx'. pose proof (links_nodup _ _ HL0) as Hnd.
    rewrite <-(take_drop_middle qs n l Hn), concat_app in Hnd. simpl in Hnd.
    apply NoDup_app in Hnd as (_ & Hd & _). apply (Hd x Hx'). set_solver. }
  assert (∀ x, x ∈ l → field s x = field s0 x) as Hfl.
  { intros x Hx. rewrite Hf by auto. rewrite decide_False; [done|auto]. }
  eapply wp_mono; [|eapply (tick_level_ok n (prev_stay n s0 qs) l s (tick_upto n s0 qs)); [done| | |]].
  - intros _ s' (HR' & Hf' & Hc' & Hg'). rewrite (stay_ext s0 s l), (climb_ext s0 s l) in HR' by done.
    simpl in HR'. rewrite tick_upto_S in HR' by done. split; [done|split; [|split; congruence]].
    intros i Hi. rewrite Hf', (take_S_r qs n l), concat_app by done. simpl. rewrite app_nil_r.
    destruct (decide (i ∈ l)) as [Hil|Hil].
    + rewrite Hfl by done. by rewrite decide_True by set_solver.
    + rewrite Hf by done. destruct (decide (i ∈ concat (take n qs)));
        [rewrite decide_True by set_solver|rewrite decide_False by set_solver]; done.
  - rewrite (tick_upto_lookup _ _ _ _ l) by done. by rewrite decide_False by lia.
  - by eapply tick_upto_base.
  - intros x Hx. rewrite prio_field, Hfl, <-prio_field by done. by eapply Hsort.
Qed.

Lemma prio_on_tick_repr s qs :
  Repr s qs → prio_sorted s qs →
  wp prio_on_tick (λ _ s', Repr s' (tick_queues s qs) ∧
    (∀ i, (i < NPROC)%nat → field s' i = if decide (i ∈ concat qs) then aged (field s i) else field s i) ∧
    mycpu s' = mycpu s ∧ glob s' = glob s) s.
Proof.
  intros HR Hsort. pose proof (links_len _ _ (repr_links _ _ HR)) as Hlen.
  apply wp_for with (I := λ done, tick_inv (length done) s qs).
  - intros done x todo s' Hsplit HI.
    assert (x = Z.of_nat (length done)) as ->.
    { assert (seqZ 0 (Z.of_nat NPRIO) !! length done = Some x) as Hx%lookup_seqZ.
      { rewrite Hsplit. by apply list_lookup_middle. } lia. }
    assert (length done < length qs)%nat as Hlt.
    { apply (f_equal length) in Hsplit. rewrite length_seqZ, length_app in Hsplit. simpl in Hsplit. lia. }
    destruct (lookup_lt_is_Some_2 _ _ Hlt) as [l Hl].
    eapply wp_mono; [|by eapply tick_inv_step]. intros [] s'' HI'.
    by rewrite length_app, Nat.add_1_r.
  - simpl. split; [by rewrite tick_upto_0|]. split; [|done]. done.
  - intros s'. rewrite length_seqZ, Nat2Z.id, <-Hlen. intros (HR' & Hf & Hc).
    rewrite tick_upto_all in HR'. split; [done|split; [|done]].
    intros i Hi. rewrite Hf, firstn_all by done. done.
Qed.

Lemma prio_sorted_tick s s' qs :
  Repr s qs → prio_sorted s qs →
  (∀ i, (i < NPROC)%nat → field s' i = if decide (i ∈ concat qs) then aged (field s i) else field s i) →
  prio_sorted s' (tick_queues s qs).
Proof.
  intros HR Hs Hf k l p Hk Hp. pose proof (repr_links _ _ HR) as HL.
  unfold tick_queues in Hk. rewrite list_lookup_imap in Hk.
  destruct (qs !! k) as [lk|] eqn:Ek; simpl in Hk; [|done]. injection Hk as <-.
  apply elem_of_app in Hp as [Hp|Hp].
  - unfold stay in Hp. apply list_elem_of_filter in Hp as [Hprom Hp].
    rewrite prio_field, Hf by (by eapply Links_range).
    rewrite decide_True by (by eapply elem_of_concat_lookup).
    unfold aged. rewrite <-promoted_field, Hprom. simpl. by eapply (Hs k lk).
  - unfold climb in Hp. apply list_elem_of_filter in Hp as [Hprom Hp].
    destruct (qs !! S k) as [l'|] eqn:Ek'; simpl in Hp; [|by apply not_elem_of_nil in Hp].
    rewrite prio_field, Hf by (by eapply Links_range).
    rewrite decide_True by (by eapply elem_of_concat_lookup).
    unfold aged. rewrite <-promoted_field, Hprom. simpl.
    pose proof (Hs _ _ _ Ek' Hp) as Hp'. simpl. lia.
Qed.

(** ** A concrete queue

    Processes 3 and 7 at priorities 20 and 5, and 9 at 20 behind 3. *)

Definition demo_cpu : cpu := Cpu None 0 false None false true.

Definition demo_table : list proc :=
  <[9%nat := set_prio 20 (set_wait_ticks 19 proc0)]>
    (<[7%nat := set_prio 5 proc0]> (<[3%nat := set_prio 20 proc0]> (replicate NPROC proc0))).

Definition demo0 : kst := prio_init (Kst demo_table [] 0 demo_cpu (Globals None 1 0)).
Definition demo : kst := prio_enqueue 9 (prio_enqueue 7 (prio_enqueue 3 demo0)).
Definition demo_qs : list (list nat) :=
  <[20%nat := [3%nat; 9%nat]]> (<[5%nat := [7%nat]]> (replicate NPRIO [])).

Lemma prio_init_repr s : length (procs s) = NPROC → Repr (prio_init s) (replicate NPRIO []).
Proof.
  intros Hlen. split; [split|]; try done.
  - intros i Q l HQ Hl. apply lookup_replicate in HQ as [-> _], Hl as [-> _]. done.
  - vm_compute. constructor.
Qed.

Lemma demo_repr : Repr demo demo_qs.
Proof.
  pose proof (prio_init_repr (Kst demo_table [] 0 demo_cpu (Globals None 1 0)) eq_refl) as H0.
  fold demo0 in H0.
  destruct (prio_enqueue_repr 3 demo0 _ [] H0) as [H1 _]; [done|by apply Nat.ltb_lt|by apply not_elem_of_nil|done|done|].
  destruct (prio_enqueue_repr 7 (prio_enqueue 3 demo0) _ [] H1) as [H2 _];
    [done|by apply Nat.ltb_lt|by_compute|done|done|].
  destruct (prio_enqueue_repr 9 (prio_enqueue 7 (prio_enqueue 3 demo0)) _ [3%nat] H2) as [H3 _];
    [done|by apply Nat.ltb_lt|by_compute|done|done|].
  exact H3.
Qed.

Lemma demo_sorted : prio_sorted demo demo_qs.
Proof.
  intros k l p Hk Hp. unfold demo_qs in Hk.
  apply list_lookup_insert_Some in Hk as [(<- & <- & _)|[_ Hk]].
  { apply elem_of_cons in Hp as [->|Hp]; [done|]. by apply list_elem_of_singleton in Hp as ->. }
  apply list_lookup_insert_Some in Hk as [(<- & <- & _)|[_ Hk]].
  { by apply list_elem_of_singleton in Hp as ->. }
  apply lookup_replicate in Hk as [-> _]. by apply not_elem_of_nil in Hp.
Qed.

(** ** Theorems *)

Lemma prio_sorted_push s s' qs p l :
  prio_sorted s qs → Repr s qs → (p < NPROC)%nat → prio_ok (getp s p) →
  qs !! Z.to_nat (prio (getp s p)) = Some l →
  (∀ i, (i < NPROC)%nat → prio (getp s' i) = prio (getp s i)) →
  prio_sorted s' (<[Z.to_nat (prio (getp s p)) := (l ++ [p])]> qs).
Proof.
  intros Hs HR Hp [Hp0 Hp1] Hl Hf k l' x Hk Hx.
  apply list_lookup_insert_Some in Hk as [(<- & <- & _)|[Hne Hk]].
  - apply elem_of_app in Hx as [Hx| ->%list_elem_of_singleton].
    + rewrite Hf by (eapply Links_range; [apply HR|exact Hl|done]). by eapply Hs.
    + rewrite Hf by done. lia.
  - rewrite Hf by (eapply Links_range; [apply HR|exact Hk|done]). by eapply Hs.
Qed.

(** [prio_enqueue] is "append to the queue of its own priority": from a
    well-formed run queue it leaves a well-formed run queue whose only
    difference is the new process at the tail of level [p->prio]; it resets
    [wait_ticks], changes no other field of any process, and raises
    [preempt_pending] exactly when the new process outranks the running one. *)
Theorem prio_enqueue_refines p s qs l
    (HR : Repr s qs) (Hsort : prio_sorted s qs) (Hcur : cur_ok s)
    (Hp : (p < NPROC)%nat) (Hnew : p ∉ concat qs) (Hprio : prio_ok (getp s p))
    (Hl : qs !! Z.to_nat (prio (getp s p)) = Some l) :
  let s' := prio_enqueue p s in
  let qs' := <[Z.to_nat (prio (getp s p)) := (l ++ [p])]> qs in
  Repr s' qs' ∧ prio_sorted s' qs' ∧
  (∀ i, (i < NPROC)%nat → field s' i = if decide (i = p) then set_wait_ticks 0 (field s i) else field s i) ∧
  mycpu s' = set_preempt_pending (outranks s p || preempt_pending (mycpu s)) (mycpu s) ∧
  glob s' = glob s.
Proof.
  destruct (prio_enqueue_repr p s qs l HR Hcur Hp Hnew Hprio Hl) as (HR' & Hf & Hc & Hg).
  split; [done|]. split; [|done].
  eapply prio_sorted_push; try done. intros i Hi. rewrite prio_field, Hf by done. by case_decide.
Qed.

Lemma prio_enqueue_refines_witness :
  let p := 0%nat in
  Repr demo demo_qs ∧ Repr (prio_enqueue p demo) (<[0%nat := [p]]> demo_qs).
Proof.
  split; [exact demo_repr|].
  refine (proj1 (prio_enqueue_refines 0 demo demo_qs [] demo_repr demo_sorted _ _ _ _ _)).
  - vm_compute. exact I.
  - by apply Nat.ltb_lt.
  - by_compute.
  - done.
  - done.
Defined.

(** [prio_dequeue] takes exactly the given process out of the run queue,
    wherever it stands in its level: the queue of its priority loses it, keeps
    the order of the others, every other level and every field but the links is
    untouched, and the loops terminate. *)
Theorem prio_dequeue_removes p s qs l
    (HR : Repr s qs) (Hsort : prio_sorted s qs) (Hprio : prio_ok (getp s p))
    (Hl : qs !! Z.to_nat (prio (getp s p)) = Some l) :
  wp (prio_dequeue p)
     (λ _ s', let qs' := <[Z.to_nat (prio (getp s p)) := drop_proc p l]> qs in
              Repr s' qs' ∧ (p ∉ concat qs') ∧ same_but_links s s') s.
Proof.
  unfold prio_dequeue. wp_steps.
  eapply wp_mono; [|eapply (rq_remove_repr _ p); [done|unfold prio_ok in *; lia|done]].
  intros _ s' [HR' Hs]. split; [done|]. split; [|done].
  intros (k & l' & Hk & Hx)%elem_of_concat_inv.
  apply list_lookup_insert_Some in Hk as [(_ & <- & _)|[Hne Hk]].
  - by apply list_elem_of_filter in Hx as [? _].
  - apply Hne. rewrite (Hsort k l' p Hk Hx). lia.
Qed.

Lemma prio_dequeue_removes_witness :
  wp (prio_dequeue 3) (λ _ s', Repr s' (<[20%nat := [9%nat]]> demo_qs)) demo.
Proof.
  eapply wp_mono; [|apply (prio_dequeue_removes 3 demo demo_qs [3%nat; 9%nat] demo_repr demo_sorted)].
  - intros _ s' (H & _). exact H.
  - done.
  - done.
Defined.

(** [prio_pick_next] is strict priority with FIFO order inside a level: it
    returns the oldest process of the first non-empty level and removes it, and
    it returns NULL, changing nothing, only when every level is empty. *)
Theorem prio_pick_next_highest s qs (HR : Repr s qs) (Hsort : prio_sorted s qs) :
  wp prio_pick_next
     (λ r s', match r with
              | None => concat qs = [] ∧ s' = s
              | Some p =>
                  p ∈ concat qs ∧
                  (∀ p', p' ∈ concat qs → prio (getp s p) ≤ prio (getp s p')) ∧
                  ∃ k l, qs !! k = Some (p :: l) ∧ Repr s' (<[k := l]> qs) ∧
                         prio_sorted s' (<[k := l]> qs) ∧ (p ∉ concat (<[k := l]> qs)) ∧
                         same_but_links s s'
              end) s.
Proof.
  eapply wp_mono; [|by apply prio_pick_next_repr]. intros [p|] s'.
  2:{ intros [Hall ->]. split; [|done]. clear -Hall. induction Hall; simplify_eq/=; done. }
  intros (k & l & Hk & Hlt & HR' & Hs). split; [|split].
  - eapply elem_of_concat_lookup; [done|set_solver].
  - intros p' (j & l' & Hj & Hp')%elem_of_concat_inv.
    rewrite (Hsort k _ p Hk), (Hsort j l' p' Hj Hp') by set_solver.
    destruct (decide (k ≤ j)%nat); [lia|]. rewrite Hlt in Hj by lia.
    injection Hj as <-. by apply not_elem_of_nil in Hp'.
  - exists k, l. split; [done|]. split; [done|]. split; [|split; [|done]].
    + intros j l' x Hj Hx. assert (x < NPROC)%nat as Hxr by (eapply (Links_range s'); [apply HR'|done|done]).
      pose proof (links_procs _ _ (repr_links _ _ HR)).
      rewrite prio_field, (same_field _ _ _ Hs), <-prio_field by lia.
      apply list_lookup_insert_Some in Hj as [(<- & <- & _)|[_ Hj]]; [|by eapply Hsort].
      eapply Hsort; [done|set_solver].
    + by apply (Links_remove_notin s qs k []); [apply HR|].
Qed.

Lemma prio_pick_next_highest_witness :
  wp prio_pick_next (λ r s', r = Some 7%nat) demo.
Proof.
  eapply wp_mono; [|apply (prio_pick_next_highest demo demo_qs demo_repr demo_sorted)].
  intros [p|] s'.
  - intros (Hin & Hmin & _). assert (prio (getp demo p) ≤ 5) as Hle.
    { apply (Hmin 7%nat). by_compute. }
    vm_compute in Hin. repeat (apply elem_of_cons in Hin as [->|Hin]; [vm_compute in Hle; congruence|]).
    by apply not_elem_of_nil in Hin.
  - intros [H _]. vm_compute in H. discriminate.
Defined.

(** C24. One clock tick ages every queued process exactly once, although the
    loop relinks the lists it is walking: the queues become [tick_queues]
    (those that stay, in order, then those promoted from the level below, in
    order), each queued process has its [wait_ticks] bumped or, when it reached
    [AGING_TICKS], is one priority higher with [wait_ticks] 0; processes outside
    the queue are untouched and both loops terminate. *)
Theorem prio_on_tick_ages_once s qs (HR : Repr s qs) (Hsort : prio_sorted s qs) :
  wp prio_on_tick
     (λ _ s', Repr s' (tick_queues s qs) ∧ prio_sorted s' (tick_queues s qs) ∧
              (∀ i, (i < NPROC)%nat →
                 field s' i = if decide (i ∈ concat qs) then aged (field s i) else field s i) ∧
              mycpu s' = mycpu s ∧ glob s' = glob s) s.
Proof.
  eapply wp_mono; [|by apply prio_on_tick_repr]. intros _ s' (HR' & Hf & Hcg).
  split; [done|]. split; [by eapply prio_sorted_tick|done].
Qed.

Lemma prio_on_tick_ages_once_witness :
  wp prio_on_tick
     (λ _ s', Repr s' (<[20%nat := [3%nat; 9%nat]]> (<[5%nat := [7%nat]]> (replicate NPRIO [])))) demo.
Proof.
  eapply wp_mono; [|apply (prio_on_tick_ages_once demo demo_qs demo_repr demo_sorted)].
  intros _ s' (H & _). exact H.
Defined.

(** *** Aging is progress *)

Fixpoint on_ticks (n : nat) : M kst unit :=
  match n with O => mret tt | S n' => prio_on_tick;; on_ticks n' end.

Lemma tick_queues_concat s qs p :
  prio_sorted s qs → p ∈ concat qs → p ∈ concat (tick_queues s qs).
Proof.
  intros Hsort (k & l & Hk & Hp)%elem_of_concat_inv. unfold tick_queues.
  destruct (promoted (getp s p)) eqn:Hprom.
  - pose proof Hprom as Hprio. unfold promoted in Hprio. apply andb_prop in Hprio as [_ Hprio].
    rewrite (Hsort k l p Hk Hp) in Hprio. destruct k as [|k]; [done|].
    destruct (lookup_lt_is_Some_2 qs k) as [l' Hl']; [apply lookup_lt_Some in Hk; lia|].
    eapply (elem_of_concat_lookup _ k); [by rewrite list_lookup_imap, Hl'|].
    apply elem_of_app. right. rewrite Hk. unfold climb. by apply list_elem_of_filter.
  - eapply (elem_of_concat_lookup _ k); [by rewrite list_lookup_imap, Hk|].
    apply elem_of_app. left. unfold stay. by apply list_elem_of_filter.
Qed.

Lemma on_ticks_spec n p s qs :
  Repr s qs → prio_sorted s qs → p ∈ concat qs →
  wp (on_ticks n) (λ _ s', ∃ qs', Repr s' qs' ∧ prio_sorted s' qs' ∧ p ∈ concat qs' ∧
                                  field s' p = Nat.iter n aged (field s p)) s.
Proof.
  revert s qs. induction n as [|n IH]; intros s qs HR Hsort Hp; simpl.
  - wp_step. eauto.
  - assert (p < NPROC)%nat as Hpr.
    { pose proof (links_range _ _ (repr_links _ _ HR)) as H. rewrite Forall_forall in H. auto. }
    wp_step. eapply wp_mono; [|by apply prio_on_tick_repr]. intros _ s1 (HR1 & Hf & _).
    eapply wp_mono; [|eapply (IH s1 (tick_queues s qs)); [done|by eapply prio_sorted_tick|by apply tick_queues_concat]].
    intros _ s2 (qs2 & ? & ? & ? & ->). exists qs2. repeat (split; [done|]).
    rewrite Hf, decide_True by done. by rewrite <-Nat.iter_succ_r.
Qed.

(** The distance to priority 0, in ticks. *)
Lemma aged_progress n p :
  0 ≤ prio p → (0 < prio p → 0 ≤ wait_ticks p < AGING_TICKS) →
  AGING_TICKS * prio p - (if decide (0 < prio p) then wait_ticks p else 0) ≤ Z.of_nat n → prio (Nat.iter n aged p) = 0.
Proof.
  unfold AGING_TICKS. revert p. induction n as [|n IH]; intros p H0 Hw Hn.
  - simpl. destruct (decide (prio p = 0)); [done|]. rewrite decide_True in Hn by lia. lia.
  - rewrite Nat.iter_succ_r. unfold aged, promoted, AGING_TICKS, PRIO_MIN. destruct (Z.ltb_spec 0 (prio p)) as [Hp|Hp].
    + rewrite s32_id by lia. rewrite decide_True in Hn by done. destruct (Z.leb_spec 20 (wait_ticks p + 1)); simpl; apply IH; simpl; try case_decide; lia.
    + rewrite andb_false_r. apply IH; simpl; try case_decide; lia.
Qed.

(** C25. No starvation by aging: a process that stays queued reaches the highest
    priority 0 after at most [AGING_TICKS * prio] clock ticks (640 with the
    constants of param.h), and is then in the queue of level 0. *)
Theorem aging_reaches_top n p s qs
    (HR : Repr s qs) (Hsort : prio_sorted s qs) (Hp : p ∈ concat qs)
    (Hw : 0 ≤ wait_ticks (getp s p) < AGING_TICKS) (Hn : AGING_TICKS * prio (getp s p) ≤ Z.of_nat n) :
  wp (on_ticks n)
     (λ _ s', prio (getp s' p) = 0 ∧ ∃ qs' l, Repr s' qs' ∧ qs' !! 0%nat = Some l ∧ p ∈ l) s.
Proof.
  assert (0 ≤ prio (getp s p)) as H0.
  { destruct (elem_of_concat_inv _ _ Hp) as (k & l & Hk & Hx). rewrite (Hsort k l p Hk Hx). lia. }
  eapply wp_mono; [|by eapply (on_ticks_spec n p)]. intros _ s' (qs' & HR' & Hs' & Hp' & Hf).
  assert (prio (getp s' p) = 0) as Hz.
  { rewrite prio_field, Hf. apply aged_progress; rewrite <-?prio_field, <-?wait_field; try case_decide; lia. }
  split; [done|]. destruct (elem_of_concat_inv _ _ Hp') as (k & l & Hk & Hx).
  exists qs', l. split; [done|]. split; [|done].
  rewrite (Hs' k l p Hk Hx) in Hz. by replace 0%nat with k by lia.
Qed.

Lemma aging_reaches_top_witness :
  wp (on_ticks 100) (λ _ s', prio (getp s' 7%nat) = 0) demo.
Proof.
  eapply wp_mono; [|apply (aging_reaches_top 100 7 demo demo_qs demo_repr demo_sorted)].
  - intros _ s' [H _]. exact H.
  - by_compute.
  - vm_compute. by split.
  - vm_compute. discriminate.
Defined.

(** [prio_should_preempt(cur_prio)] holds exactly when some process of
    priority at least as urgent as [cur_prio] (equal included) is queued. *)
Theorem prio_should_preempt_iff cur_prio s qs (HR : Repr s qs) (Hsort : prio_sorted s qs) :
  prio_should_preempt cur_prio s = true ↔ ∃ p, p ∈ concat qs ∧ prio (getp s p) ≤ cur_prio.
Proof.
  unfold prio_should_preempt, prio_highest_nonempty. rewrite (repr_highest _ _ HR).
  destruct (first_nonempty_cases qs) as [[-> Hall]|(k & l & -> & Hk & Hne & Hlt)].
  - simpl. split; [done|]. intros (p & (j & l & Hj & Hp)%elem_of_concat_inv & _).
    rewrite Forall_lookup in Hall. rewrite (Hall _ _ Hj) in Hp. by apply not_elem_of_nil in Hp.
  - rewrite (proj2 (Z.ltb_ge _ _)) by lia. rewrite Z.leb_le. split.
    + intros Hle. destruct l as [|p l]; [done|]. exists p. split.
      * eapply elem_of_concat_lookup; [done|]. apply elem_of_cons. by left.
      * rewrite (Hsort k _ p Hk); [done|]. apply elem_of_cons. by left.
    + intros (p & (j & l' & Hj & Hp)%elem_of_concat_inv & Hle).
      rewrite (Hsort j l' p Hj Hp) in Hle. destruct (decide (k ≤ j)%nat); [lia|].
      rewrite Hlt in Hj by lia. injection Hj as <-. by apply not_elem_of_nil in Hp.
Qed.

Lemma prio_should_preempt_iff_witness :
  prio_should_preempt 5 demo = true ∧ ∃ p, p ∈ concat demo_qs ∧ prio (getp demo p) ≤ 5.
Proof.
  split; [reflexivity|].
  apply (prio_should_preempt_iff 5 demo demo_qs demo_repr demo_sorted). reflexivity.
Defined.
