(* ===== verification/Sched.v ===== *)
(** * Sleeping, waking and switching (kernel/proc.c)

    The direct-switch scheduler of this repository: a process that gives up the
    CPU calls [schedule()], which picks the next process and switches to it
    with no scheduler thread in between, and without holding [p->lock].
    [sleep] and [exit] are therefore cut at the point where the last spinlock
    is released and interrupts come back on: [sleep_enter] and [exit_enter] run
    up to there, [schedule] after it, and whatever an interrupt does in between
    is a separate step of the machine in [Schedmach]. *)

From S2P Require Import Prelude Machine Proc Runq.

(** ** Operations *)

Definition myproc (s : kst) : option nat := c_proc (mycpu s).

(** Code that dereferences [myproc()].  Address 0 is not mapped by the kernel
    page table, so a null dereference is the fault that [kerneltrap] panics on. *)
Definition with_cur {A} (f : nat → M kst A) : M kst A :=
  c ← gets myproc;
  match c with Some p => f p | None => panic "kerneltrap" end.

(** One iteration of the loop of [wakeup(chan)]. *)
Definition wakeup_one (ch : channel) (s : kst) (p : nat) : kst :=
  if decide (Some p = myproc s) then s
  else if decide (state (getp s p) = SLEEPING ∧ chan (getp s p) = ch)
  then prio_enqueue p (updp p (set_wait_ticks 0) (updp p (set_state RUNNABLE) s))
  else s.

Definition wakeup (ch : channel) (s : kst) : kst := foldl (wakeup_one ch) s (seq 0 NPROC).

(** [kill(pid)]: the loop over the table and the return value. *)
Fixpoint kill_from (id : Z) (l : list nat) (s : kst) : Z * kst :=
  match l with
  | [] => (-1, s)
  | p :: l' =>
      if pid (getp s p) =? id then
        let s1 := updp p (set_killed 1) s in
        (0, if decide (state (getp s1 p) = SLEEPING)
            then prio_enqueue p (updp p (set_wait_ticks 0) (updp p (set_state RUNNABLE) s1))
            else s1)
      else kill_from id l' s
  end.

Definition kill (id : Z) (s : kst) : Z * kst := kill_from id (seq 0 NPROC) s.

Definition setkilled (p : nat) (s : kst) : kst := updp p (set_killed 1) s.
Definition killed (p : nat) (s : kst) : Z := killed_flag (getp s p).

(** [sleep(chan, lk)] from its entry to [release(&p->lock)]. *)
Definition sleep_enter (ch : channel) : M kst unit :=
  with_cur (λ p,
    modify (updp p (set_chan ch));;
    st ← gets (λ s, state (getp s p));
    (if decide (st = RUNNABLE) then prio_dequeue p else mret tt);;
    modify (updp p (set_state SLEEPING))).

(** [sleep] after [schedule()] returns, before [acquire(lk)]. *)
Definition sleep_exit : M kst unit := with_cur (λ p, modify (updp p (set_chan ChNull))).

(** [yield()] up to [release(&p->lock)]. *)
Definition yield_enter : M kst unit :=
  with_cur (λ p,
    modify (updp p (set_state RUNNABLE));;
    modify (updp p (set_wait_ticks 0));;
    modify (prio_enqueue p)).

(** [schedule()] up to the [swtch]: the process to run next becomes
    [c->proc]; the result is that process and the saved interrupt flag. *)
Definition schedule_body (_ : unit) : M kst (unit + option nat) :=
  next ← prio_pick_next;
  match next with
  | None => idle ← gets (λ s, idleproc (mycpu s)); mret (inr idle)
  | Some n =>
      idle ← gets (λ s, idleproc (mycpu s));
      if decide (Some n = idle) then mret (inr (Some n))
      else
        st ← gets (λ s, state (getp s n));
        if decide (st = RUNNABLE) then
          modify (updp n (set_state RUNNING));;
          modify (updp n (set_wait_ticks 0));;
          mret (inr (Some n))
        else mret (inl tt)
  end.

Definition schedule : M kst (option nat * bool) :=
  intena ← gets (λ s, sie (mycpu s));
  modify (λ s, set_cpu (set_sie false (mycpu s)) s);;
  next ← iterM (S NPROC) schedule_body tt;
  modify (λ s, set_cpu (set_c_proc next (mycpu s)) s);;
  mret (next, intena).

(** The end of [schedule()], when the caller is switched back in. *)
Definition schedule_return (intena : bool) (s : kst) : kst :=
  if intena then set_cpu (set_sie true (mycpu s)) s else s.

(** [clockintr()], the part that touches the scheduler. *)
Definition clockintr (s : kst) : kst :=
  wakeup ChTicks (set_glob (set_ticks (u32 (ticks (glob s) + 1)) (glob s)) s).

(** The timer part of [kerneltrap()]: age, then decide whether to yield. *)
Definition timer_tick : M kst bool :=
  modify clockintr;;
  prio_on_tick;;
  c ← gets myproc;
  match c with
  | None => mret false
  | Some p => gets (λ s, prio_should_preempt (prio (getp s p)) s)
  end.

(** The timer part of [usertrap()], after [devintr()] and the test of
    [killed(p)]. *)
Definition usertrap_timer : M kst bool :=
  prio_on_tick;;
  c ← gets myproc;
  match c with
  | None => mret false
  | Some p =>
      st ← gets (λ s, state (getp s p));
      if decide (st = RUNNING) then
        pending ← gets (λ s, preempt_pending (mycpu s));
        if pending : bool
        then modify (λ s, set_cpu (set_preempt_pending false (mycpu s)) s);; mret true
        else gets (λ s, prio_should_preempt (prio (getp s p)) s)
      else mret false
  end.

(** [reparent(p)]. *)
Definition chan_of (o : option nat) : channel := from_option ChProc ChNull o.

Definition reparent_one (p : nat) (s : kst) (pp : nat) : kst :=
  if decide (parent (getp s pp) = Some p)
  then wakeup (chan_of (initproc (glob s))) (updp pp (set_parent (initproc (glob s))) s)
  else s.

Definition reparent (p : nat) (s : kst) : kst := foldl (reparent_one p) s (seq 0 NPROC).

(** [exit(status)] from [acquire(&wait_lock)] to [release(&p->lock)], after
    the files have been closed. *)
Definition exit_enter (status : Z) : M kst unit :=
  with_cur (λ p,
    modify (reparent p);;
    par ← gets (λ s, parent (getp s p));
    modify (wakeup (chan_of par));;
    modify (updp p (set_xstate status));;
    modify (updp p (set_state ZOMBIE))).

(** [allocpid()]. *)
Definition allocpid : M kst Z :=
  id ← gets (λ s, nextpid (glob s));
  modify (λ s, set_glob (set_nextpid (s32 (nextpid (glob s) + 1)) (glob s)) s);;
  mret id.

(** The assignments of [allocproc] at label [found]. *)
Definition allocproc_found (p : nat) : M kst unit :=
  id ← allocpid;
  modify (updp p (λ pr, set_rq_next None (set_wait_ticks 0 (set_prio PRIO_DEFAULT
            (set_base_prio PRIO_DEFAULT (set_state USED (set_pid id pr))))))).

(** The assignments of [freeproc], after the memory has been released. *)
Definition scrub (pr : proc) : proc :=
  set_state UNUSED (set_xstate 0 (set_killed 0 (set_chan ChNull
    (set_name (<[0%nat := 0]> (name pr)) (set_parent None (set_pid 0 (set_sz 0
    (set_pagetable 0 (set_trapframe 0 pr))))))))).

Definition freeproc_fields (p : nat) : kst → kst := updp p scrub.

(** The end of [fork]: the child is linked to its parent and made runnable. *)
Definition fork_tail (np p : nat) (s : kst) : kst :=
  let s1 := updp np (set_parent (Some p)) s in
  let s2 := updp np (set_state RUNNABLE) s1 in
  let s3 := updp np (set_prio (prio (getp s2 p))) s2 in
  prio_enqueue np (updp np (set_wait_ticks 0) s3).

(** ** The scheduler invariant

    Between the critical sections: the run queue is well formed and sorted by
    priority, it holds exactly the RUNNABLE processes (the idle process, which
    is always RUNNABLE, may be in or out), and only the process on the CPU is
    RUNNING. *)
Record SInv (s : kst) (qs : list (list nat)) : Prop := {
  si_repr : Repr s qs;
  si_sorted : prio_sorted s qs;
  si_prio : ∀ p, (p < NPROC)%nat → prio_ok (getp s p);
  si_cur : ∃ c, myproc s = Some c ∧ (c < NPROC)%nat;
  si_idle : ∃ i, idleproc (mycpu s) = Some i ∧ (i < NPROC)%nat ∧ state (getp s i) = RUNNABLE;
  si_queue : ∀ p, (p < NPROC)%nat → idleproc (mycpu s) ≠ Some p →
               (p ∈ concat qs ↔ state (getp s p) = RUNNABLE);
  si_running : ∀ p, (p < NPROC)%nat → state (getp s p) = RUNNING → myproc s = Some p
}.

(** Equal but for [preempt_pending]. *)
Definition same_cpu (c c' : cpu) : Prop := c' = set_preempt_pending (preempt_pending c') c.

#[export] Instance same_cpu_refl : Reflexive same_cpu.
Proof. by intros []. Qed.
#[export] Instance same_cpu_trans : Transitive same_cpu.
Proof.
  unfold same_cpu, set_preempt_pending. intros [] [] []; simpl. intros [=] [=]. congruence.
Qed.

Lemma same_cpu_set c b : same_cpu c (set_preempt_pending b c).
Proof. done. Qed.

Lemma same_cpu_proj c c' : same_cpu c c' → c_proc c' = c_proc c ∧ idleproc c' = idleproc c ∧ sie c' = sie c.
Proof. unfold same_cpu. intros ->. done. Qed.

Lemma Repr_procs s qs : Repr s qs → length (procs s) = NPROC.
Proof. intros HR. apply HR. Qed.

Lemma Repr_in_range s qs p : Repr s qs → p ∈ concat qs → (p < NPROC)%nat.
Proof.
  intros HR Hp. pose proof (links_range _ _ (repr_links _ _ HR)) as H.
  rewrite Forall_forall in H. auto.
Qed.

Lemma Repr_updp_notin s qs p f :
  Repr s qs → (p < NPROC)%nat → p ∉ concat qs → Repr (updp p f s) qs.
Proof.
  intros [[Hp Hq Hl Hok Hnd Hr] Hh] Hlt Hnin. split; [split|]; try done.
  - by rewrite length_updp.
  - intros i Q l HQ Hi. destruct (Hok i Q l HQ Hi) as [Hseg Ht]. split; [|done].
    eapply lseg_ext; [|exact Hseg]. intros x Hx. rewrite nx_updp by lia.
    rewrite decide_False; [done|]. intros ->. by eapply Hnin, elem_of_concat_lookup.
Qed.

(** A change of fields other than [state], [prio] and the link. *)
Lemma SInv_updp s qs p f :
  SInv s qs → (p < NPROC)%nat →
  (∀ x, rq_next (f x) = rq_next x ∧ prio (f x) = prio x ∧ state (f x) = state x) →
  SInv (updp p f s) qs.
Proof.
  intros [HR Hs Hpr Hc Hi Hq Hrun] Hp Hf. pose proof (Repr_procs _ _ HR) as Hlen.
  assert (∀ i, prio (getp (updp p f s) i) = prio (getp s i)) as Hprio.
  { intros i. rewrite getp_updp by lia. case_decide; [|done]. apply Hf. }
  assert (∀ i, state (getp (updp p f s) i) = state (getp s i)) as Hst.
  { intros i. rewrite getp_updp by lia. case_decide; [|done]. apply Hf. }
  split; try done.
  - apply Repr_updp; [done|done|apply Hf].
  - intros k l x Hk Hx. rewrite Hprio. by eapply Hs.
  - intros x Hx. unfold prio_ok. rewrite Hprio. by apply Hpr.
  - destruct Hi as (i & ? & ? & ?). exists i. by rewrite Hst.
  - intros x Hx Hne. rewrite Hst. by apply Hq.
  - intros x Hx. rewrite Hst. by apply Hrun.
Qed.

(** A change of state that does not involve RUNNABLE. *)
Lemma SInv_set_state s qs p f :
  SInv s qs → (p < NPROC)%nat → state (getp s p) ≠ RUNNABLE →
  state (f (getp s p)) ≠ RUNNABLE → prio_ok (f (getp s p)) →
  (state (f (getp s p)) = RUNNING → myproc s = Some p) →
  SInv (updp p f s) qs.
Proof.
  intros [HR Hs Hpr Hc (i & Hi & Hir & Hist) Hq Hrun] Hp Hst Hst' Hprio' Hrun'.
  pose proof (Repr_procs _ _ HR) as Hlen.
  assert (idleproc (mycpu s) ≠ Some p) as Hnid by (rewrite Hi; congruence).
  assert (p ∉ concat qs) as Hnin by (by rewrite Hq).
  assert (∀ x, x ≠ p → getp (updp p f s) x = getp s x) as Hne by (intros; by apply getp_updp_ne).
  split; try done.
  - by apply Repr_updp_notin.
  - intros k l x Hk Hx. rewrite Hne; [by eapply Hs|]. intros ->. by eapply Hnin, elem_of_concat_lookup.
  - intros x Hx. rewrite getp_updp by lia. case_decide; subst; auto.
  - exists i. split; [done|]. split; [done|]. rewrite Hne; [done|]. congruence.
  - intros x Hx Hxi. rewrite getp_updp by lia. case_decide; [subst x|by apply Hq]. by split.
  - intros x Hx. rewrite getp_updp by lia. case_decide; [subst x|by apply Hrun]. done.
Qed.

(** *** Making a process runnable *)

Lemma elem_of_concat_push (qs : list (list nat)) k l p x :
  qs !! k = Some l → x ∈ concat (<[k := (l ++ [p])]> qs) ↔ x ∈ concat qs ∨ x = p.
Proof.
  intros Hl. destruct (concat_insert_split qs k l Hl) as (rest & HP & HP').
  rewrite (HP' (l ++ [p])), HP, !elem_of_app, list_elem_of_singleton. tauto.
Qed.

(** The invariant after [p] became RUNNABLE and was pushed on its level. *)
Lemma SInv_after_push s s' qs k l p :
  SInv s qs → (p < NPROC)%nat → p ∉ concat qs → qs !! k = Some l → (k < NPRIO)%nat →
  Repr s' (<[k := (l ++ [p])]> qs) → same_cpu (mycpu s) (mycpu s') →
  (∀ x, (x < NPROC)%nat → x ≠ p → field s' x = field s x) →
  state (getp s' p) = RUNNABLE → prio (getp s' p) = Z.of_nat k →
  SInv s' (<[k := (l ++ [p])]> qs).
Proof.
  intros [HR Hs Hpr (c & Hc & Hcr) (i & Hi & Hir & Hist) Hq Hrun] Hp Hnin Hl Hk HR' Hsame Hf Hst Hprio.
  assert (∀ x, (x < NPROC)%nat → x ≠ p → state (getp s' x) = state (getp s x) ∧ prio (getp s' x) = prio (getp s x)) as Hoth.
  { intros x Hx Hne. by rewrite state_field, prio_field, !Hf by done. }
  assert (∀ j l' x, qs !! j = Some l' → x ∈ l' → prio (getp s' x) = Z.of_nat j) as Hold.
  { intros j l' x Hj Hx. assert (x ∈ concat qs) as H by (by eapply elem_of_concat_lookup).
    assert (x ≠ p) as Hxp by (by intros ->).
    rewrite (proj2 (Hoth x (Repr_in_range s qs x HR H) Hxp)). by eapply Hs. }
  destruct (same_cpu_proj _ _ Hsame) as (Hc2 & Hi2 & _). split.
  - done.
  - intros j l' x Hj Hx. apply list_lookup_insert_Some in Hj as [(<- & <- & _)|[Hne Hj]]; [|by eapply Hold].
    apply elem_of_app in Hx as [Hx| ->%list_elem_of_singleton]; [by eapply Hold|done].
  - intros x Hx. unfold prio_ok. destruct (decide (x = p)) as [->|Hne]; [lia|].
    rewrite (proj2 (Hoth x Hx Hne)). by apply Hpr.
  - exists c. unfold myproc. by rewrite Hc2.
  - exists i. rewrite Hi2. split; [done|]. split; [done|].
    destruct (decide (i = p)) as [->|]; [done|]. by rewrite (proj1 (Hoth i Hir ltac:(done))).
  - intros x Hx Hxi. rewrite elem_of_concat_push by done. destruct (decide (x = p)) as [->|Hne].
    + rewrite Hst. tauto.
    + rewrite (proj1 (Hoth x Hx Hne)). rewrite Hi2 in Hxi. rewrite <-(Hq x Hx Hxi). tauto.
  - intros x Hx. destruct (decide (x = p)) as [->|Hne]; [by rewrite Hst|].
    rewrite (proj1 (Hoth x Hx Hne)). intros Hr. unfold myproc. rewrite Hc2. by apply Hrun.
Qed.

Lemma SInv_enqueue s qs p f :
  SInv s qs → (p < NPROC)%nat → p ∉ concat qs →
  (∀ x, set_rq_next None (f x) = f (set_rq_next None x)) →
  state (f (getp s p)) = RUNNABLE → prio_ok (f (getp s p)) →
  let s' := prio_enqueue p (updp p f s) in
  ∃ qs', SInv s' qs' ∧ (∀ x, x ∈ concat qs' ↔ x ∈ concat qs ∨ x = p) ∧
    (∀ i, (i < NPROC)%nat → field s' i = if decide (i = p) then set_wait_ticks 0 (f (field s i)) else field s i) ∧
    same_cpu (mycpu s) (mycpu s') ∧ glob s' = glob s.
Proof.
  intros HI Hp Hnin Hcomm Hst Hprio. pose proof (si_repr _ _ HI) as HR.
  pose proof (Repr_procs _ _ HR) as Hlen.
  assert (Repr (updp p f s) qs) as HR1 by (by apply Repr_updp_notin).
  assert (prio_ok (getp (updp p f s) p)) as Hprio1 by (by rewrite getp_updp_eq by lia).
  destruct (prio_lookup _ _ _ HR1 Hprio1) as [l Hl].
  assert (cur_ok (updp p f s)) as Hcur1.
  { destruct (si_cur _ _ HI) as (c & Hc & Hcr). unfold cur_ok.
    change (c_proc (mycpu (updp p f s))) with (myproc s). by rewrite Hc. }
  destruct (prio_enqueue_repr p (updp p f s) qs l HR1 Hcur1 Hp Hnin Hprio1 Hl) as (HR2 & Hf & Hcpu & Hg).
  set (s' := prio_enqueue p (updp p f s)) in *.
  assert (∀ x, (x < NPROC)%nat → field s' x = if decide (x = p) then set_wait_ticks 0 (f (field s x)) else field s x) as Hfs.
  { intros x Hx. rewrite Hf by done. rewrite field_updp by (done || lia). by case_decide. }
  assert (field s' p = set_rq_next None (set_wait_ticks 0 (f (getp s p)))) as Hfp.
  { rewrite Hfs, decide_True by done. unfold field. rewrite <-Hcomm. done. }
  eexists. split; [|split; [|split; [exact Hfs|split; [rewrite Hcpu; done|done]]]].
  - eapply (SInv_after_push s); try done.
    + apply lookup_lt_Some in Hl. by rewrite (links_len _ _ (repr_links _ _ HR)) in Hl.
    + by rewrite Hcpu.
    + intros x Hx Hne. by rewrite Hfs, decide_False.
    + by rewrite state_field, Hfp.
    + rewrite prio_field, Hfp, getp_updp_eq by lia. unfold prio_ok in Hprio. simpl. lia.
  - intros x. by apply elem_of_concat_push.
Qed.

(** *** [wakeup] *)

Definition wake (p : proc) : proc := set_wait_ticks 0 (set_state RUNNABLE p).

Definition woken (ch : channel) (s : kst) (p : nat) : Prop :=
  myproc s ≠ Some p ∧ state (getp s p) = SLEEPING ∧ chan (getp s p) = ch.

#[export] Instance woken_dec ch s p : Decision (woken ch s p).
Proof. unfold woken. apply _. Defined.

Lemma updp_updp s p f g : updp p f (updp p g s) = updp p (λ x, f (g x)) s.
Proof.
  unfold updp, set_procs; simpl. f_equal. by rewrite list_alter_alter_eq.
Qed.

(** A sleeping process made runnable: the body shared by [wakeup] and [kill]. *)
Lemma SInv_wake s qs p :
  SInv s qs → (p < NPROC)%nat → state (getp s p) = SLEEPING →
  let s' := prio_enqueue p (updp p (set_wait_ticks 0) (updp p (set_state RUNNABLE) s)) in
  ∃ qs', SInv s' qs' ∧ (∀ x, x ∈ concat qs' ↔ x ∈ concat qs ∨ x = p) ∧
    (∀ i, (i < NPROC)%nat → field s' i = if decide (i = p) then wake (field s i) else field s i) ∧
    same_cpu (mycpu s) (mycpu s') ∧ glob s' = glob s.
Proof.
  intros HI Hp Hst. rewrite updp_updp.
  destruct (si_idle _ _ HI) as (i & Hi & Hir & Hist).
  assert (p ∉ concat qs) as Hnin.
  { rewrite (si_queue _ _ HI); [congruence|done|]. rewrite Hi. congruence. }
  destruct (SInv_enqueue s qs p wake HI Hp Hnin) as (qs' & HI' & Hin & Hf & Hc & Hg);
    [done|done|by apply (si_prio _ _ HI)|].
  exists qs'. done.
Qed.

Lemma woken_field ch s s' p :
  field s' p = field s p → same_cpu (mycpu s) (mycpu s') → woken ch s' p ↔ woken ch s p.
Proof.
  intros Hf Hc. apply same_cpu_proj in Hc as (Hc & _). unfold woken, myproc. rewrite Hc.
  assert (state (getp s' p) = state (getp s p)) as -> by (by rewrite !state_field, Hf).
  assert (chan (getp s' p) = chan (getp s p)) as ->; [|done].
  change (chan (getp s' p)) with (chan (field s' p)). by rewrite Hf.
Qed.

Lemma wakeup_list ch l : ∀ s qs,
  SInv s qs → NoDup l → Forall (λ p, (p < NPROC)%nat) l →
  ∃ qs', SInv (foldl (wakeup_one ch) s l) qs' ∧
    (∀ i, (i < NPROC)%nat → field (foldl (wakeup_one ch) s l) i =
       if decide (i ∈ l ∧ woken ch s i) then wake (field s i) else field s i) ∧
    same_cpu (mycpu s) (mycpu (foldl (wakeup_one ch) s l)) ∧ glob (foldl (wakeup_one ch) s l) = glob s.
Proof.
  induction l as [|p l IH]; intros s qs HI Hnd Hr; simpl.
  { by exists qs. }
  apply NoDup_cons in Hnd as [Hpl Hnd]. apply Forall_cons in Hr as [Hp Hr].
  assert (∃ qs1, SInv (wakeup_one ch s p) qs1 ∧
    (∀ i, (i < NPROC)%nat → field (wakeup_one ch s p) i =
       if decide (i = p ∧ woken ch s i) then wake (field s i) else field s i) ∧
    same_cpu (mycpu s) (mycpu (wakeup_one ch s p)) ∧ glob (wakeup_one ch s p) = glob s)
    as (qs1 & HI1 & Hf1 & Hc1 & Hg1).
  { unfold wakeup_one. case_decide as Hcur; [|case_decide as Hs].
    - exists qs. split; [done|]. split; [|done]. intros i Hi. rewrite decide_False; [done|].
      intros [-> [? _]]. congruence.
    - destruct Hs as [Hs Hch]. destruct (SInv_wake s qs p HI Hp Hs) as (qs1 & HI1 & _ & Hf & ?).
      exists qs1. split; [done|]. split; [|done]. intros i Hi. rewrite Hf by done.
      case_decide as Hip; [subst|by rewrite decide_False by naive_solver].
      rewrite decide_True; [done|]. unfold woken. done.
    - exists qs. split; [done|]. split; [|done]. intros i Hi. rewrite decide_False; [done|].
      intros [-> [_ ?]]. done. }
  destruct (IH _ qs1 HI1 Hnd Hr) as (qs2 & HI2 & Hf2 & Hc2 & Hg2).
  exists qs2. split; [done|]. split; [|split; [by etrans|congruence]].
  intros i Hi. rewrite Hf2 by done. destruct (decide (i = p)) as [->|Hne].
  - rewrite (decide_False (P := p ∈ l ∧ _)) by tauto. rewrite Hf1 by done.
    apply decide_ext. set_solver.
  - assert (field (wakeup_one ch s p) i = field s i) as Hfi by (rewrite Hf1, decide_False by tauto; done).
    rewrite Hfi. apply decide_ext. rewrite (woken_field ch s _ i) by done. set_solver.
Qed.

Lemma seq_NPROC : NoDup (seq 0 NPROC) ∧ Forall (λ p, (p < NPROC)%nat) (seq 0 NPROC).
Proof. split; [apply NoDup_seq|]. apply Forall_forall. intros x Hx%elem_of_seq. lia. Qed.

Lemma wakeup_ok ch s qs :
  SInv s qs →
  ∃ qs', SInv (wakeup ch s) qs' ∧
    (∀ i, (i < NPROC)%nat → field (wakeup ch s) i = if decide (woken ch s i) then wake (field s i) else field s i) ∧
    same_cpu (mycpu s) (mycpu (wakeup ch s)) ∧ glob (wakeup ch s) = glob s.
Proof.
  intros HI. destruct seq_NPROC as [Hnd Hr].
  destruct (wakeup_list ch (seq 0 NPROC) s qs HI Hnd Hr) as (qs' & HI' & Hf & Hcg).
  exists qs'. split; [done|]. split; [|done]. intros i Hi. unfold wakeup. rewrite Hf by done.
  apply decide_ext. rewrite elem_of_seq. split; [tauto|]. intros ?. split; [lia|done].
Qed.

(** *** Steps that only wake processes up

    [keeps s qs s']: the invariant holds again, the CPU runs the same process,
    and the only change of scheduling state is that some sleeping processes
    other than the current one became RUNNABLE. *)
Definition evolves (s s' : kst) : Prop :=
  ∀ i, (i < NPROC)%nat →
    state (getp s' i) = state (getp s i) ∨
    (myproc s ≠ Some i ∧ state (getp s i) = SLEEPING ∧ state (getp s' i) = RUNNABLE).

Definition keeps (s : kst) (qs : list (list nat)) (s' : kst) (qs' : list (list nat)) : Prop :=
  SInv s' qs' ∧ evolves s s' ∧
  (∀ c, myproc s = Some c → c ∉ concat qs → c ∉ concat qs') ∧
  myproc s' = myproc s ∧ idleproc (mycpu s') = idleproc (mycpu s).

Lemma keeps_refl s qs : SInv s qs → keeps s qs s qs.
Proof. intros HI. split; [done|]. split; [by left|done]. Qed.

Lemma keeps_trans s1 q1 s2 q2 s3 q3 : keeps s1 q1 s2 q2 → keeps s2 q2 s3 q3 → keeps s1 q1 s3 q3.
Proof.
  intros (HI2 & He2 & Hn2 & Hm2 & Hi2) (HI3 & He3 & Hn3 & Hm3 & Hi3).
  split; [done|]. split; [|split; [|split; congruence]].
  - intros i Hi. destruct (He2 i Hi) as [E2|(? & ? & E2)], (He3 i Hi) as [E3|(? & ? & E3)];
      rewrite ?Hm2 in *; [left|right|right|]; rewrite ?E2, ?E3 in *; try done; congruence.
  - intros c Hc Hnin. apply Hn3; [congruence|auto].
Qed.

(** A step that keeps the processor and changes fields without touching the
    scheduling state of the current process. *)
Lemma keeps_intro s qs s' qs' :
  SInv s qs → SInv s' qs' → evolves s s' → (∀ i, idleproc (mycpu s) = Some i → i ∈ concat qs' → i ∈ concat qs) →
  myproc s' = myproc s → idleproc (mycpu s') = idleproc (mycpu s) → keeps s qs s' qs'.
Proof.
  intros HI HI' He Hidle Hm Hi. split; [done|]. split; [done|]. split; [|done].
  intros c Hc Hnin Hin. destruct (decide (idleproc (mycpu s) = Some c)) as [Hci|Hci]; [naive_solver|].
  assert (c < NPROC)%nat as Hcr by (by eapply Repr_in_range; [apply HI'|]).
  apply (si_queue _ _ HI') in Hin; [|done|by rewrite Hi].
  apply Hnin. apply (si_queue _ _ HI); [done|done|]. destruct (He c Hcr) as [<-|(? & _)]; done.
Qed.

Lemma SInv_idle_not s qs i p st :
  SInv s qs → idleproc (mycpu s) = Some i → state (getp s p) = st → st ≠ RUNNABLE → p ≠ i.
Proof. intros HI Hi Hst Hne ->. destruct (si_idle _ _ HI) as (j & ? & ? & ?). congruence. Qed.

Lemma wake_keeps s qs p :
  SInv s qs → (p < NPROC)%nat → state (getp s p) = SLEEPING → myproc s ≠ Some p →
  ∃ qs', keeps s qs (prio_enqueue p (updp p (set_wait_ticks 0) (updp p (set_state RUNNABLE) s))) qs'.
Proof.
  intros HI Hp Hst Hcur. destruct (SInv_wake s qs p HI Hp Hst) as (qs' & HI' & Hin & Hf & Hc & _).
  apply same_cpu_proj in Hc as (Hc & Hci & _). exists qs'. apply keeps_intro; try done.
  - intros i Hi. rewrite !state_field, Hf by done. case_decide; [subst|by left]. by right.
  - intros i Hi [?| ->]%Hin; [done|]. by eapply SInv_idle_not in Hst.
Qed.

Lemma wakeup_keeps ch s qs : SInv s qs → ∃ qs', keeps s qs (wakeup ch s) qs'.
Proof.
  intros HI. destruct seq_NPROC as [Hnd Hr]. unfold wakeup. revert Hnd Hr.
  generalize (seq 0 NPROC) as l. intros l _. revert s qs HI.
  induction l as [|p l IH]; intros s qs HI Hr; simpl; [by exists qs; apply keeps_refl|].
  apply Forall_cons in Hr as [Hp Hr].
  assert (∃ qs1, keeps s qs (wakeup_one ch s p) qs1) as (qs1 & Hk1).
  { unfold wakeup_one. case_decide as Hcur; [by exists qs; apply keeps_refl|].
    case_decide as Hs; [|by exists qs; apply keeps_refl]. destruct Hs as [Hs _].
    by apply wake_keeps. }
  destruct (IH _ qs1 (proj1 Hk1) Hr) as (qs2 & Hk2). exists qs2. by eapply keeps_trans.
Qed.

Lemma updp_keeps s qs p f :
  SInv s qs → (p < NPROC)%nat →
  (∀ x, rq_next (f x) = rq_next x ∧ prio (f x) = prio x ∧ state (f x) = state x) →
  keeps s qs (updp p f s) qs.
Proof.
  intros HI Hp Hf. apply keeps_intro; try done; [by apply SInv_updp|].
  intros i Hi. left. rewrite getp_updp by (rewrite (Repr_procs _ _ (si_repr _ _ HI)); lia).
  case_decide; [|done]. apply Hf.
Qed.

Lemma glob_keeps s qs g : SInv s qs → keeps s qs (set_glob g s) qs.
Proof.
  intros HI. apply keeps_intro; try done; [|by left]. destruct HI as [[[? ? ? ? ? ?] ?] ? ? ? ? ? ?].
  split; done.
Qed.

Lemma kill_keeps id s qs :
  SInv s qs → (∀ c, myproc s = Some c → state (getp s c) ≠ SLEEPING) → ∃ qs', keeps s qs (kill id s).2 qs'.
Proof.
  intros HI Hc. unfold kill. destruct seq_NPROC as [_ Hr]. revert Hr. generalize (seq 0 NPROC) as l.
  induction l as [|p l IH]; intros Hr; simpl; [by exists qs; apply keeps_refl|].
  apply Forall_cons in Hr as [Hp Hr]. destruct (pid (getp s p) =? id); [|auto]. simpl.
  assert (keeps s qs (updp p (set_killed 1) s) qs) as Hk by (by apply updp_keeps).
  case_decide as Hst; [|by exists qs]. pose proof (Repr_procs _ _ (si_repr _ _ HI)) as Hlen.
  rewrite getp_updp_eq in Hst by lia.
  destruct (wake_keeps (updp p (set_killed 1) s) qs p) as (qs' & Hk'); [apply Hk|done| | |].
  - by rewrite getp_updp_eq by lia.
  - intros Hcp. by apply (Hc p Hcp).
  - exists qs'. by eapply keeps_trans.
Qed.

Lemma reparent_keeps p s qs : SInv s qs → ∃ qs', keeps s qs (reparent p s) qs'.
Proof.
  destruct seq_NPROC as [_ Hr]. unfold reparent. revert s qs Hr. generalize (seq 0 NPROC) as l.
  induction l as [|pp l IH]; intros s qs Hr HI; simpl; [by exists qs; apply keeps_refl|].
  apply Forall_cons in Hr as [Hpp Hr].
  assert (∃ qs1, keeps s qs (reparent_one p s pp) qs1) as (qs1 & Hk1).
  { unfold reparent_one. case_decide; [|by exists qs; apply keeps_refl].
    assert (keeps s qs (updp pp (set_parent (initproc (glob s))) s) qs) as Hk by (by apply updp_keeps).
    destruct (wakeup_keeps (chan_of (initproc (glob s))) _ qs (proj1 Hk)) as (qs1 & Hk1).
    exists qs1. by eapply keeps_trans. }
  destruct (IH _ qs1 Hr (proj1 Hk1)) as (qs2 & Hk2). exists qs2. by eapply keeps_trans.
Qed.

Lemma clockintr_keeps s qs : SInv s qs → ∃ qs', keeps s qs (clockintr s) qs'.
Proof.
  intros HI. unfold clockintr.
  pose proof (glob_keeps s qs (set_ticks (u32 (ticks (glob s) + 1)) (glob s)) HI) as Hk.
  destruct (wakeup_keeps ChTicks _ qs (proj1 Hk)) as (qs1 & Hk1). exists qs1. exact (keeps_trans _ _ _ _ _ _ Hk Hk1).
Qed.

Lemma tick_queues_concat_inv s qs p : p ∈ concat (tick_queues s qs) → p ∈ concat qs.
Proof.
  intros (k & l & Hk & Hp)%elem_of_concat_inv. unfold tick_queues in Hk.
  rewrite list_lookup_imap in Hk. apply fmap_Some in Hk as (l0 & Hl0 & ->).
  apply elem_of_app in Hp as [Hp|Hp]; apply list_elem_of_filter in Hp as [_ Hp].
  - by eapply elem_of_concat_lookup.
  - destruct (qs !! S k) eqn:E; [|by apply elem_of_nil in Hp]. by eapply elem_of_concat_lookup.
Qed.

Lemma aged_same p : state (aged p) = state p ∧ (prio_ok p → prio_ok (aged p)).
Proof.
  unfold aged. destruct (promoted p) eqn:E; (split; [done|]); [|done].
  unfold promoted, PRIO_MIN in E. apply andb_prop in E as [_ ?%Z.ltb_lt]. unfold prio_ok. simpl. lia.
Qed.

Lemma on_tick_keeps s qs :
  SInv s qs → wp prio_on_tick (λ _ s', keeps s qs s' (tick_queues s qs)) s.
Proof.
  intros HI. pose proof (si_repr _ _ HI) as HR. pose proof (si_sorted _ _ HI) as Hs.
  eapply wp_mono; [|by apply prio_on_tick_repr]. intros _ s' (HR' & Hf & Hc & Hg).
  assert (∀ i, (i < NPROC)%nat → state (getp s' i) = state (getp s i)) as Hst.
  { intros i Hi. rewrite !state_field, Hf by done. case_decide; [apply aged_same|done]. }
  assert (∀ i, i ∈ concat (tick_queues s qs) ↔ i ∈ concat qs) as Hin.
  { intros i. split; [apply tick_queues_concat_inv|by apply tick_queues_concat]. }
  apply keeps_intro; try done.
  - destruct HI as [_ _ Hpr Hcur (i & Hi & Hir & Hist) Hq Hrun]. split; try done.
    + by eapply prio_sorted_tick.
    + intros x Hx. unfold prio_ok. rewrite prio_field, Hf by done. case_decide; [apply aged_same|]; by apply Hpr.
    + unfold myproc. by rewrite Hc.
    + rewrite Hc. exists i. by rewrite Hst.
    + intros x Hx. rewrite Hc, Hin, Hst by done. by apply Hq.
    + intros x Hx. rewrite Hst by done. unfold myproc. rewrite Hc. by apply Hrun.
  - intros i Hi. left. by apply Hst.
  - intros i _. by rewrite Hin.
  - unfold myproc. by rewrite Hc.
  - by rewrite Hc.
Qed.

(** *** Dispatching *)

Lemma concat_pop (qs : list (list nat)) k n l x :
  qs !! k = Some (n :: l) → NoDup (concat qs) → x ∈ concat (<[k := l]> qs) ↔ x ∈ concat qs ∧ x ≠ n.
Proof.
  intros Hk Hnd. destruct (concat_insert_split qs k _ Hk) as (rest & HP & HP').
  rewrite (HP' l), HP. rewrite HP in Hnd. simpl in Hnd. apply NoDup_cons in Hnd as [Hn _].
  simpl. rewrite elem_of_cons. naive_solver.
Qed.

Lemma SInv_dispatch s s' qs k n l :
  SInv s qs → qs !! k = Some (n :: l) → Repr s' (<[k := l]> qs) →
  (∀ p, (p < NPROC)%nat → state (getp s p) ≠ RUNNING) →
  myproc s' = Some n → idleproc (mycpu s') = idleproc (mycpu s) →
  (∀ i, (i < NPROC)%nat → i ≠ n → field s' i = field s i) →
  prio (getp s' n) = prio (getp s n) →
  state (getp s' n) = (if decide (idleproc (mycpu s) = Some n) then RUNNABLE else RUNNING) →
  SInv s' (<[k := l]> qs).
Proof.
  intros [HR Hs Hpr (c & Hc & Hcr) (i & Hi & Hir & Hist) Hq Hrun] Hk HR' Hnr Hm Hid Hf Hprio Hst.
  assert (∀ x, x ∈ concat (<[k := l]> qs) ↔ x ∈ concat qs ∧ x ≠ n) as Hin.
  { intros x. apply concat_pop; [done|apply HR]. }
  assert (∀ x, (x < NPROC)%nat → prio (getp s' x) = prio (getp s x)) as Hprio'.
  { intros x Hx. destruct (decide (x = n)) as [->|]; [done|]. by rewrite prio_field, Hf. }
  assert (n ∈ concat qs) as Hn by (eapply elem_of_concat_lookup; [done|set_solver]).
  pose proof (Repr_in_range _ _ _ HR Hn) as Hnr'. split; try done.
  - intros j l' x Hj Hx.
    assert (x ∈ concat qs) as Hxin by (apply Hin; by eapply elem_of_concat_lookup).
    rewrite Hprio' by (by apply (Repr_in_range s qs)).
    apply list_lookup_insert_Some in Hj as [(<- & <- & _)|[_ Hj]]; [|by eapply Hs].
    eapply Hs; [done|set_solver].
  - intros x Hx. unfold prio_ok. rewrite Hprio' by done. by apply Hpr.
  - exists n. done.
  - rewrite Hid. exists i. split; [done|]. split; [done|]. destruct (decide (i = n)) as [->|].
    + by rewrite Hst, decide_True.
    + by rewrite state_field, Hf.
  - intros x Hx Hxi. rewrite Hid in Hxi. rewrite Hin. destruct (decide (x = n)) as [->|Hne].
    + rewrite Hst, decide_False by done. naive_solver.
    + rewrite state_field, Hf, <-state_field, <-Hq by done. tauto.
  - intros x Hx Hr. destruct (decide (x = n)) as [->|Hne]; [done|].
    rewrite state_field, Hf, <-state_field in Hr by done. by apply Hnr in Hr.
Qed.

(** The process that [schedule] switches to, and the queues it leaves. *)
Definition chosen (s : kst) (qs : list (list nat)) (n : nat) (qs' : list (list nat)) : Prop :=
  (∃ k l, qs !! k = Some (n :: l) ∧ (∀ j, (j < k)%nat → qs !! j = Some []) ∧ qs' = <[k := l]> qs) ∨
  (Forall (λ l, l = []) qs ∧ idleproc (mycpu s) = Some n ∧ qs' = qs).

Lemma chosen_notin s qs n qs' : SInv s qs → chosen s qs n qs' → n ∉ concat qs'.
Proof.
  intros HI [(k & l & Hk & _ & ->)|(Hall & _ & ->)].
  - rewrite concat_pop; [|done|apply HI]. tauto.
  - intros (k & l & Hk & Hn)%elem_of_concat_inv. rewrite Forall_forall in Hall.
    rewrite (Hall l) in Hn; [by apply elem_of_nil in Hn|by eapply list_elem_of_lookup_2].
Qed.

Lemma chosen_lt s qs n qs' : SInv s qs → chosen s qs n qs' → (n < NPROC)%nat.
Proof.
  intros HI [(k & l & Hk & _ & ->)|(_ & Hi & _)].
  - eapply Repr_in_range; [apply HI|]. eapply elem_of_concat_lookup; [done|]. by left.
  - destruct (si_idle _ _ HI) as (i & ? & ? & _). congruence.
Qed.

(** The effect of dispatching [n] on its own entry. *)
Definition run_proc (s : kst) (n : nat) (p : proc) : proc :=
  if decide (idleproc (mycpu s) = Some n) then p else set_wait_ticks 0 (set_state RUNNING p).

Lemma set_sie_SInv s qs b : SInv s qs → SInv (set_cpu (set_sie b (mycpu s)) s) qs.
Proof. intros [? ? ? ? ? ? ?]. by split; try apply Repr_set_cpu. Qed.

Lemma SInv_dispatched s s' qs qs' n :
  SInv s qs → chosen s qs n qs' → Repr s' qs' →
  (∀ p, (p < NPROC)%nat → state (getp s p) ≠ RUNNING) →
  myproc s' = Some n → idleproc (mycpu s') = idleproc (mycpu s) →
  (∀ i, (i < NPROC)%nat → field s' i = if decide (i = n) then run_proc s n (field s i) else field s i) →
  SInv s' qs'.
Proof.
  intros HI Hch HR' Hnr Hm Hid Hf. pose proof (chosen_lt _ _ _ _ HI Hch) as Hn.
  pose proof (Hf n Hn) as Hfn. rewrite decide_True in Hfn by done.
  destruct Hch as [(k & l & Hk & _ & ->)|(Hall & Hi & ->)].
  - eapply (SInv_dispatch s); try done.
    + intros i Hi Hne. by rewrite Hf, decide_False.
    + rewrite !prio_field, Hfn. unfold run_proc. by case_decide.
    + rewrite !state_field, Hfn. unfold run_proc. case_decide as Hd; [|done].
      destruct (si_idle _ _ HI) as (i & Hi & _ & Hist). assert (n = i) as -> by congruence. done.
  - assert (∀ i, (i < NPROC)%nat → field s' i = field s i) as Hf'.
    { intros i Hir. rewrite Hf by done. case_decide; [|done]. unfold run_proc. by rewrite decide_True. }
    destruct HI as [HR Hs Hpr Hc (i & Hi' & Hir & Hist) Hq Hrun]. split; try done.
    + intros j l' x Hj Hx. rewrite prio_field, Hf'; [by eapply Hs|].
      eapply (Repr_in_range s); [done|]. by eapply elem_of_concat_lookup.
    + intros x Hx. unfold prio_ok. rewrite prio_field, Hf' by done. by apply Hpr.
    + by exists n.
    + rewrite Hid. exists i. by rewrite state_field, Hf'.
    + intros x Hx. rewrite Hid, state_field, Hf' by done. by apply Hq.
    + intros x Hx. rewrite state_field, Hf' by done. intros Hr. by apply Hnr in Hr.
Qed.

Definition dispatched (s : kst) (qs : list (list nat)) (n : nat) (s' : kst) (qs' : list (list nat)) : Prop :=
  chosen s qs n qs' ∧ SInv s' qs' ∧ myproc s' = Some n ∧ idleproc (mycpu s') = idleproc (mycpu s) ∧
  (∀ i, (i < NPROC)%nat → field s' i = if decide (i = n) then run_proc s n (field s i) else field s i) ∧
  glob s' = glob s.

(** The first candidate is taken: a queued process is RUNNABLE. *)
Lemma schedule_body_ok s qs :
  SInv s qs →
  wp (schedule_body tt) (λ r s', match r with
    | inl _ => False
    | inr next => ∃ n qs', next = Some n ∧ chosen s qs n qs' ∧ Repr s' qs' ∧ mycpu s' = mycpu s ∧
        (∀ i, (i < NPROC)%nat → field s' i = if decide (i = n) then run_proc s n (field s i) else field s i) ∧
        glob s' = glob s
    end) s.
Proof.
  intros HI. pose proof (si_repr _ _ HI) as HR. pose proof (Repr_procs _ _ HR) as Hlen.
  unfold schedule_body. wp_step. eapply wp_mono; [|by apply prio_pick_next_repr]. intros [n|] s1.
  - intros (k & l & Hk & Hlow & HR1 & Hsame). pose proof Hsame as (_ & Hc1 & Hg1).
    assert (n ∈ concat qs) as Hin by (eapply elem_of_concat_lookup; [done|by left]).
    assert (n < NPROC)%nat as Hn by (by apply (Repr_in_range s qs)).
    assert (chosen s qs n (<[k:=l]> qs)) as Hch by (left; eauto).
    assert (∀ i, (i < NPROC)%nat → field s1 i = field s i) as Hf1.
    { intros i Hi. apply same_field; [done|lia]. }
    pose proof (Repr_procs _ _ HR1) as Hlen1.
    wp_steps. rewrite Hc1. case_decide as Hid.
    + wp_steps. exists n, (<[k:=l]> qs). split; [done|]. split; [done|]. split; [done|split; [done|split; [|done]]]. intros i Hi. rewrite Hf1 by done.
      case_decide; [|done]. unfold run_proc. by rewrite decide_True.
    + wp_steps. assert (state (getp s n) = RUNNABLE) as Hst by (apply (si_queue _ _ HI); auto).
      rewrite state_field, Hf1, <-state_field, Hst by done. rewrite decide_True by done. wp_steps.
      exists n, (<[k:=l]> qs). split; [done|]. split; [done|]. split; [|split; [done|split; [|done]]].
      * by apply Repr_updp; [apply Repr_updp|..].
      * intros i Hi. rewrite !field_updp by (rewrite ?length_updp; done || lia). rewrite Hf1 by done.
        case_decide; [|done]. unfold run_proc. by rewrite decide_False by naive_solver.
  - intros [Hall ->]. wp_steps. destruct (si_idle _ _ HI) as (i & Hi & Hir & Hist).
    exists i, qs. split; [done|]. split; [by right|]. split; [done|split; [done|split; [|done]]]. intros x Hx.
    case_decide; [|done]. unfold run_proc. by rewrite decide_True by congruence.
Qed.

Lemma schedule_ok s qs :
  SInv s qs → (∀ p, (p < NPROC)%nat → state (getp s p) ≠ RUNNING) →
  wp schedule (λ '(next, ie) s', ie = sie (mycpu s) ∧ ∃ n qs', next = Some n ∧ dispatched s qs n s' qs') s.
Proof.
  intros HI Hnr. pose proof (si_repr _ _ HI) as HR. pose proof (Repr_procs _ _ HR) as Hlen.
  destruct (si_idle _ _ HI) as (idl & Hidl & Hidr & Hidst).
  unfold schedule. wp_steps. set (s0 := set_cpu _ s).
  assert (SInv s0 qs) as HI0 by (by apply set_sie_SInv).
  eapply wp_iter with (I := λ _ s, s = s0) (μ := λ _ _, 0%nat); [|done|lia].
  intros [] ? ->. eapply wp_mono; [|by apply (schedule_body_ok s0 qs)].
  intros [[]|next] s1; [done|]. intros (n & qs' & -> & Hch & HR1 & Hc1 & Hf1 & Hg1).
  wp_steps. split; [done|]. exists n, qs'. split; [done|]. split; [done|].
  split; [|split; [done|split; [simpl; by rewrite Hc1|done]]].
  eapply (SInv_dispatched s0); try done.
  - by apply Repr_set_cpu.
  - simpl. by rewrite Hc1.
Qed.

(** *** Giving up the CPU *)

Lemma cur_not_queued s qs c :
  SInv s qs → (c < NPROC)%nat → state (getp s c) ≠ RUNNABLE → (c ∉ concat qs) ∧ idleproc (mycpu s) ≠ Some c.
Proof.
  intros HI Hc Hst. destruct (si_idle _ _ HI) as (i & Hi & _ & Hist).
  assert (idleproc (mycpu s) ≠ Some c) by congruence. split; [|done]. by rewrite (si_queue _ _ HI).
Qed.

Lemma sleep_enter_ok ch s qs c :
  SInv s qs → myproc s = Some c → state (getp s c) = RUNNING →
  wp (sleep_enter ch) (λ _ s', SInv s' qs ∧ mycpu s' = mycpu s ∧ glob s' = glob s ∧
    (∀ i, (i < NPROC)%nat → field s' i = if decide (i = c) then set_state SLEEPING (set_chan ch (field s i)) else field s i)) s.
Proof.
  intros HI Hm Hst. pose proof (Repr_procs _ _ (si_repr _ _ HI)) as Hlen.
  assert (c < NPROC)%nat as Hc by (destruct (si_cur _ _ HI) as (? & ? & ?); congruence).
  unfold sleep_enter, with_cur. wp_step. wp_step. rewrite Hm. wp_steps.
  rewrite getp_updp_eq by lia. change (state (set_chan ch (getp s c))) with (state (getp s c)). rewrite Hst. wp_steps.
  split; [|split; [done|split; [done|]]].
  - rewrite updp_updp. apply SInv_set_state; try done; [by rewrite Hst|by apply (si_prio _ _ HI)].
  - intros i Hi. rewrite !field_updp by (rewrite ?length_updp; done || lia). by case_decide.
Qed.

Lemma yield_enter_ok s qs c :
  SInv s qs → myproc s = Some c → c ∉ concat qs →
  wp yield_enter (λ _ s', ∃ qs', SInv s' qs' ∧ (∀ x, x ∈ concat qs' ↔ x ∈ concat qs ∨ x = c) ∧
    same_cpu (mycpu s) (mycpu s') ∧ glob s' = glob s ∧
    (∀ i, (i < NPROC)%nat → field s' i = if decide (i = c) then wake (field s i) else field s i)) s.
Proof.
  intros HI Hm Hnin.
  assert (c < NPROC)%nat as Hc by (destruct (si_cur _ _ HI) as (? & ? & ?); congruence).
  unfold yield_enter, with_cur. wp_step. wp_step. rewrite Hm. wp_steps. rewrite updp_updp.
  destruct (SInv_enqueue s qs c wake HI Hc Hnin) as (qs' & HI' & Hin & Hf & Hcpu & Hg);
    [done|done|by apply (si_prio _ _ HI)|]. by exists qs'.
Qed.

Lemma zombie_ok status s qs c :
  SInv s qs → (c < NPROC)%nat → state (getp s c) = RUNNING →
  let s' := updp c (set_state ZOMBIE) (updp c (set_xstate status) s) in
  SInv s' qs ∧ mycpu s' = mycpu s ∧
  (∀ i, (i < NPROC)%nat → field s' i = if decide (i = c) then set_state ZOMBIE (set_xstate status (field s i)) else field s i).
Proof.
  intros HI Hc Hst. rewrite updp_updp. pose proof (Repr_procs _ _ (si_repr _ _ HI)) as Hlen.
  split; [|split; [done|]].
  - apply SInv_set_state; try done; [by rewrite Hst|by apply (si_prio _ _ HI)].
  - intros i Hi. rewrite field_updp by (done || lia). by case_decide.
Qed.

Lemma exit_enter_ok status s qs c :
  SInv s qs → myproc s = Some c → state (getp s c) = RUNNING →
  wp (exit_enter status) (λ _ s', ∃ s1 qs', keeps s qs s1 qs' ∧ SInv s' qs' ∧
    mycpu s' = mycpu s1 ∧ state (getp s1 c) = RUNNING ∧
    (∀ i, (i < NPROC)%nat → field s' i = if decide (i = c) then set_state ZOMBIE (set_xstate status (field s1 i)) else field s1 i)) s.
Proof.
  intros HI Hm Hst.
  assert (c < NPROC)%nat as Hc by (destruct (si_cur _ _ HI) as (? & ? & ?); congruence).
  unfold exit_enter, with_cur. apply wp_bind, wp_gets. rewrite Hm. apply wp_bind, wp_modify.
  destruct (reparent_keeps c s qs HI) as (qs1 & Hk1). generalize dependent (reparent c s). intros s1 Hk1.
  apply wp_bind, wp_gets, wp_bind, wp_modify, wp_bind, wp_modify, wp_modify.
  destruct (wakeup_keeps (chan_of (parent (getp s1 c))) s1 qs1 (proj1 Hk1)) as (qs2 & Hk2).
  generalize dependent (wakeup (chan_of (parent (getp s1 c))) s1). intros s2 Hk2.
  pose proof (keeps_trans _ _ _ _ _ _ Hk1 Hk2) as Hk. exists s2, qs2. split; [done|].
  destruct Hk as (HI2 & He & _ & Hm2 & _).
  assert (state (getp s2 c) = RUNNING) as Hst2.
  { destruct (He c Hc) as [->|(? & _)]; done. }
  destruct (zombie_ok status s2 qs2 c HI2 Hc Hst2) as (HI3 & Hc3 & Hf3). done.
Qed.

Lemma timer_tick_ok s qs c :
  SInv s qs → myproc s = Some c →
  wp timer_tick (λ b s', ∃ qs', keeps s qs s' qs' ∧ b = prio_should_preempt (prio (getp s' c)) s') s.
Proof.
  intros HI Hm. destruct (clockintr_keeps s qs HI) as (qs1 & Hk1). unfold timer_tick. wp_step. wp_step. wp_step.
  eapply wp_mono; [|apply on_tick_keeps, Hk1]. intros [] s2 Hk2.
  pose proof (keeps_trans _ _ _ _ _ _ Hk1 Hk2) as Hk. wp_steps.
  destruct Hk as (HI2 & He & Hn & Hm2 & Hi2). rewrite Hm2, Hm. wp_steps.
  by exists (tick_queues (clockintr s) qs1).
Qed.

Lemma preempt_pending_keeps s qs b :
  SInv s qs → keeps s qs (set_cpu (set_preempt_pending b (mycpu s)) s) qs.
Proof.
  intros HI. apply keeps_intro; try done; [|by left].
  destruct HI as [? ? ? ? ? ? ?]. split; try done. by apply Repr_set_cpu.
Qed.

Lemma usertrap_timer_ok s qs c :
  SInv s qs → myproc s = Some c → state (getp s c) = RUNNING →
  wp usertrap_timer (λ b s', ∃ qs', keeps s qs s' qs' ∧
    b = preempt_pending (mycpu s) || prio_should_preempt (prio (getp s' c)) s') s.
Proof.
  intros HI Hm Hst. pose proof (Repr_procs _ _ (si_repr _ _ HI)) as Hlen.
  assert (c < NPROC)%nat as Hc by (destruct (si_cur _ _ HI) as (? & ? & ?); congruence).
  unfold usertrap_timer. apply wp_bind. eapply wp_mono;
    [|apply wp_and; [by apply on_tick_keeps|apply (prio_on_tick_repr s qs); apply HI]].
  intros [] s1 [Hk (_ & _ & Hcpu & _)]. pose proof Hk as (HI1 & He & _ & Hm1 & _).
  apply wp_bind, wp_gets. rewrite Hm1, Hm. apply wp_bind, wp_gets.
  destruct (He c Hc) as [->|(? & _)]; [|done]. rewrite Hst, decide_True by done.
  apply wp_bind, wp_gets. rewrite Hcpu. destruct (preempt_pending (mycpu s)); wp_steps.
  - eexists. split; [|done]. eapply keeps_trans; [exact Hk|]. by apply preempt_pending_keeps.
  - by eexists.
Qed.

(** *** Creating and freeing processes *)

Lemma allocproc_found_ok s qs np :
  SInv s qs → (np < NPROC)%nat → state (getp s np) = UNUSED →
  wp (allocproc_found np) (λ _ s', SInv s' qs ∧ mycpu s' = mycpu s ∧ state (getp s' np) = USED ∧
    (∀ i, (i < NPROC)%nat → i ≠ np → getp s' i = getp s i)) s.
Proof.
  intros HI Hnp Hst. unfold allocproc_found, allocpid. wp_steps.
  pose proof (glob_keeps s qs (set_nextpid (s32 (nextpid (glob s) + 1)) (glob s)) HI) as (HI1 & _).
  pose proof (Repr_procs _ _ (si_repr _ _ HI1)) as Hlen.
  split; [|split; [done|split]].
  - apply SInv_set_state; try done. change (state (getp s np) ≠ RUNNABLE). by rewrite Hst.
  - by rewrite getp_updp_eq by lia.
  - intros i Hi Hne. by rewrite getp_updp_ne.
Qed.

Lemma freeproc_fields_ok s qs np :
  SInv s qs → (np < NPROC)%nat → state (getp s np) = ZOMBIE ∨ state (getp s np) = USED →
  let s' := freeproc_fields np s in
  SInv s' qs ∧ mycpu s' = mycpu s ∧ state (getp s' np) = UNUSED ∧
    (∀ i, (i < NPROC)%nat → i ≠ np → getp s' i = getp s i).
Proof.
  intros HI Hnp Hst. pose proof (Repr_procs _ _ (si_repr _ _ HI)) as Hlen. unfold freeproc_fields.
  split; [|split; [done|split]].
  - apply SInv_set_state; try done; [by destruct Hst as [-> | ->]|by apply (si_prio _ _ HI)].
  - by rewrite getp_updp_eq by lia.
  - intros i Hi Hne. by rewrite getp_updp_ne.
Qed.

Lemma fork_tail_ok s qs np p :
  SInv s qs → (np < NPROC)%nat → (p < NPROC)%nat → np ≠ p → state (getp s np) = USED →
  let s' := fork_tail np p s in
  ∃ qs', SInv s' qs' ∧ same_cpu (mycpu s) (mycpu s') ∧ (∀ x, x ∈ concat qs' ↔ x ∈ concat qs ∨ x = np) ∧
    (∀ i, (i < NPROC)%nat → field s' i = if decide (i = np)
       then set_wait_ticks 0 (set_prio (prio (getp s p)) (set_state RUNNABLE (set_parent (Some p) (field s i))))
       else field s i).
Proof.
  intros HI Hnp Hp Hne Hst. unfold fork_tail. rewrite !updp_updp, getp_updp_ne by done.
  destruct (cur_not_queued s qs np HI Hnp) as [Hnin _]; [by rewrite Hst|].
  destruct (SInv_enqueue s qs np (λ x, set_wait_ticks 0 (set_prio (prio (getp s p))
             (set_state RUNNABLE (set_parent (Some p) x)))) HI Hnp Hnin) as (qs' & HI' & Hin & Hf & Hc & _);
    [done|done|by apply (si_prio _ _ HI)|]. exists qs'. done.
Qed.
