(* ===== verification/Schedmach.v ===== *)
(** * The scheduler as a machine (kernel/proc.c, kernel/trap.c)

    The operations of [Sched] composed into a step relation: every process has
    a kernel program counter that says where it continues when it has the CPU,
    and a step is taken by the process on the CPU or by an interrupt that finds
    it there.  The parameter [win] says whether interrupts may arrive in the
    windows of [sleep] and [exit], between the release of the last spinlock and
    the [intr_off] of [schedule]. *)

From S2P Require Import Prelude Machine Proc Runq Sched.

(** ** Definitions *)

Inductive kpc : Set :=
  | PRun              (** running user or kernel code *)
  | PSleepW           (** in [sleep], about to call [schedule] *)
  | PSleepRet         (** in [sleep], [schedule] returned *)
  | PExitW            (** in [exit], about to call [schedule] *)
  | PExitRet          (** in [exit], [schedule] returned: [panic("zombie exit")] *)
  | PYield (k : kpc). (** in the [yield] of a timer interrupt that arrived at [k] *)

#[export] Instance kpc_eq_dec : EqDecision kpc.
Proof. solve_decision. Defined.

Record mach : Type := Mach { kern : kst; pcs : list kpc }.

Definition pc (m : mach) (p : nat) : kpc := default PRun (pcs m !! p).

(** The process on the CPU is at [k]. *)
Definition at_pc (m : mach) (p : nat) (k : kpc) : Prop := myproc (kern m) = Some p ∧ pc m p = k.

Definition goto (p : nat) (k : kpc) (s : kst) (m : mach) : mach := Mach s (<[p := k]> (pcs m)).

(** Where an interrupt can find the current process. *)
Definition irq_at (win : bool) (k : kpc) : Prop :=
  k = PRun ∨ (win = true ∧ (k = PSleepW ∨ k = PExitW)).

(** The idle process runs [idle_main] only. *)
Definition is_idle (m : mach) (p : nat) : Prop := idleproc (mycpu (kern m)) = Some p.

Inductive kstep (win : bool) : mach → mach → Prop :=
  | st_wakeup m p k ch :
      at_pc m p k → irq_at win k →
      kstep win m (Mach (wakeup ch (kern m)) (pcs m))
  | st_kill m p id :
      at_pc m p PRun → ¬ is_idle m p →
      kstep win m (Mach (kill id (kern m)).2 (pcs m))
  | st_sleep m p ch s' :
      at_pc m p PRun → ¬ is_idle m p → sleep_enter ch (kern m) = Ok tt s' →
      kstep win m (goto p PSleepW s' m)
  | st_sleep_sched m p r s' :
      at_pc m p PSleepW → schedule (kern m) = Ok r s' →
      kstep win m (goto p PSleepRet s' m)
  | st_sleep_ret m p s' :
      at_pc m p PSleepRet → sleep_exit (kern m) = Ok tt s' →
      kstep win m (goto p PRun s' m)
  | st_exit m p status s' :
      at_pc m p PRun → ¬ is_idle m p → initproc (glob (kern m)) ≠ Some p →
      exit_enter status (kern m) = Ok tt s' →
      kstep win m (goto p PExitW s' m)
  | st_exit_sched m p r s' :
      at_pc m p PExitW → schedule (kern m) = Ok r s' →
      kstep win m (goto p PExitRet s' m)
  | st_ktick m p k s' :
      at_pc m p k → irq_at win k → timer_tick (kern m) = Ok false s' →
      kstep win m (Mach s' (pcs m))
  | st_ktick_yield m p k s1 s2 r s' :
      at_pc m p k → irq_at win k → timer_tick (kern m) = Ok true s1 →
      yield_enter s1 = Ok tt s2 → schedule s2 = Ok r s' →
      kstep win m (goto p (PYield k) s' m)
  | st_utick m p s' :
      at_pc m p PRun → ¬ is_idle m p → usertrap_timer (clockintr (kern m)) = Ok false s' →
      kstep win m (Mach s' (pcs m))
  | st_utick_yield m p s1 s2 r s' :
      at_pc m p PRun → ¬ is_idle m p → usertrap_timer (clockintr (kern m)) = Ok true s1 →
      yield_enter s1 = Ok tt s2 → schedule s2 = Ok r s' →
      kstep win m (goto p (PYield PRun) s' m)
  | st_yield_ret m p k :
      at_pc m p (PYield k) → kstep win m (goto p k (kern m) m)
  | st_idle m p r s' :
      at_pc m p PRun → is_idle m p → schedule (kern m) = Ok r s' →
      kstep win m (Mach s' (pcs m))
  | st_alloc m p np s' :
      at_pc m p PRun → ¬ is_idle m p → (np < NPROC)%nat → state (getp (kern m) np) = UNUSED →
      allocproc_found np (kern m) = Ok tt s' →
      kstep win m (goto np PRun s' m)
  | st_fork m p np :
      at_pc m p PRun → ¬ is_idle m p → (np < NPROC)%nat → state (getp (kern m) np) = USED →
      kstep win m (Mach (fork_tail np p (kern m)) (pcs m))
  | st_free m p np :
      at_pc m p PRun → ¬ is_idle m p → (np < NPROC)%nat →
      state (getp (kern m) np) = ZOMBIE ∨ state (getp (kern m) np) = USED →
      kstep win m (Mach (freeproc_fields np (kern m)) (pcs m)).

Definition ksteps (win : bool) : mach → mach → Prop := rtc (kstep win).

(** The machine when [scheduler()] has switched to the idle process in slot
    1, with the first user process in slot 0, made runnable by [userinit]. *)
Definition boot : mach :=
  let s0 := prio_init (Kst (replicate NPROC proc0) [] 0 (Cpu None 0 false None false false)
                           (Globals None 1 0)) in
  let s1 := match allocproc_found 0 s0 with Ok _ s => s | _ => s0 end in
  let s2 := prio_enqueue 0 (updp 0 (set_state RUNNABLE) (set_glob (Globals (Some 0%nat) 2 0) s1)) in
  let s3 := updp 1 (λ p, set_state RUNNABLE (set_prio PRIO_MAX (set_base_prio PRIO_MAX p))) s2 in
  Mach (set_cpu (Cpu (Some 1%nat) 0 false (Some 1%nat) false true) s3) (replicate NPROC PRun).

(** ** The invariant *)

(** What the program counter of a process says about its state. *)
Definition pc_ok (cur idle : bool) (st : procstate) (k : kpc) : Prop :=
  if idle then k = PRun ∨ k = PYield PRun
  else if cur then
    (st = RUNNING ∧ (k = PRun ∨ k = PYield PRun ∨ k = PSleepRet)) ∨
    (st = SLEEPING ∧ k = PSleepW) ∨ (st = ZOMBIE ∧ k = PExitW)
  else match st with
  | SLEEPING => k = PSleepRet
  | RUNNABLE => k = PRun ∨ k = PYield PRun ∨ k = PSleepRet
  | ZOMBIE => k = PExitRet
  | USED => k = PRun
  | UNUSED => True
  | RUNNING => False
  end.

Record MInv (m : mach) : Prop := {
  mi_sched : ∃ qs, SInv (kern m) qs ∧ (∀ c, myproc (kern m) = Some c → c ∉ concat qs);
  mi_len : length (pcs m) = NPROC;
  mi_pc : ∀ p, (p < NPROC)%nat →
    pc_ok (bool_decide (myproc (kern m) = Some p)) (bool_decide (idleproc (mycpu (kern m)) = Some p))
          (state (getp (kern m) p)) (pc m p)
}.

Lemma pc_goto m p k s i :
  (p < length (pcs m))%nat → pc (goto p k s m) i = if decide (i = p) then k else pc m i.
Proof.
  intros Hp. unfold pc, goto. simpl. case_decide; [subst; by rewrite list_lookup_insert_eq|].
  by rewrite list_lookup_insert_ne.
Qed.

Lemma MInv_cur m : MInv m → ∃ c, myproc (kern m) = Some c ∧ (c < NPROC)%nat.
Proof. intros [(qs & HI & _) _ _]. apply (si_cur _ _ HI). Qed.

(** The state of the process on the CPU. *)
Lemma cur_pc m p k :
  MInv m → at_pc m p k → (p < NPROC)%nat ∧ pc_ok true (bool_decide (idleproc (mycpu (kern m)) = Some p)) (state (getp (kern m) p)) k.
Proof.
  intros HM [Hm <-]. destruct (MInv_cur m HM) as (c & Hc & Hcr). assert (c = p) as -> by congruence.
  split; [done|]. pose proof (mi_pc _ HM p Hcr) as H. by rewrite bool_decide_true in H by done.
Qed.

Lemma cur_running m p :
  MInv m → at_pc m p PRun → ¬ is_idle m p → (p < NPROC)%nat ∧ state (getp (kern m) p) = RUNNING.
Proof.
  intros HM Hat Hid. destruct (cur_pc _ _ _ HM Hat) as [Hp H]. split; [done|].
  rewrite bool_decide_false in H by done. simpl in H. naive_solver.
Qed.

(** Steps that only wake processes. *)
Lemma MInv_keeps m qs s' qs' :
  MInv m → (∀ c, myproc (kern m) = Some c → c ∉ concat qs) → keeps (kern m) qs s' qs' →
  MInv (Mach s' (pcs m)).
Proof.
  intros [_ Hlen Hpc] Hnin (HI' & He & Hn & Hm & Hid). split; [|done|].
  - exists qs'. split; [done|]. simpl. rewrite Hm. auto.
  - intros p Hp. unfold pc. simpl. rewrite Hm, Hid. specialize (Hpc p Hp). unfold pc in Hpc.
    destruct (He p Hp) as [->|(Hc & Hs & ->)]; [done|]. rewrite Hs in Hpc.
    rewrite (bool_decide_false (myproc (kern m) = Some p)) in * by done.
    destruct (bool_decide _); [done|]. simpl in *. auto.
Qed.

(** A switch: seen from outside the CPU every process is at a resting point,
    and [schedule] puts one of them on the CPU. *)
Lemma MInv_dispatched s qs n s' qs' pcs' :
  SInv s qs → dispatched s qs n s' qs' → length pcs' = NPROC →
  (∀ p, (p < NPROC)%nat → pc_ok false (bool_decide (idleproc (mycpu s) = Some p)) (state (getp s p)) (default PRun (pcs' !! p))) →
  MInv (Mach s' pcs').
Proof.
  intros HI (Hch & HI' & Hm & Hid & Hf & _) Hlen Hpc. split; [|done|].
  - exists qs'. split; [done|]. simpl. rewrite Hm. intros c [= <-]. by apply (chosen_notin s qs).
  - intros p Hp. unfold pc. simpl. rewrite Hm, Hid, state_field, Hf by done.
    specialize (Hpc p Hp). rewrite state_field in Hpc. destruct (decide (p = n)) as [->|Hpn].
    + rewrite (bool_decide_true (Some n = Some n)) by done. unfold run_proc. case_decide as Hi.
      * by rewrite bool_decide_true in * by done.
      * rewrite bool_decide_false in * by done. simpl. destruct Hch as [(k & l & Hk & _)|(_ & ? & _)]; [|done].
        assert (state (getp s n) = RUNNABLE) as Hst.
        { apply (si_queue _ _ HI); [done|done|]. eapply elem_of_concat_lookup; [done|]. by left. }
        rewrite <-state_field, Hst in Hpc. simpl in Hpc. tauto.
    + rewrite bool_decide_false by congruence. done.
Qed.

Lemma nobody_running s qs c :
  SInv s qs → myproc s = Some c → state (getp s c) ≠ RUNNING →
  ∀ p, (p < NPROC)%nat → state (getp s p) ≠ RUNNING.
Proof. intros HI Hm Hst p Hp Hr. pose proof (si_running _ _ HI p Hp Hr). congruence. Qed.

Lemma switch_ok s qs c pcs' r s' :
  SInv s qs → myproc s = Some c → state (getp s c) ≠ RUNNING → length pcs' = NPROC →
  (∀ p, (p < NPROC)%nat → pc_ok false (bool_decide (idleproc (mycpu s) = Some p)) (state (getp s p)) (default PRun (pcs' !! p))) →
  schedule s = Ok r s' → MInv (Mach s' pcs').
Proof.
  intros HI Hm Hst Hlen Hpc Hs.
  pose proof (wp_run _ _ _ _ _ (schedule_ok s qs HI (nobody_running s qs c HI Hm Hst)) Hs) as H.
  destruct r as [next ie]. destruct H as (_ & n & qs' & _ & Hd). by eapply MInv_dispatched.
Qed.

(** The process on the CPU puts itself at rest at [k] in state [st]. *)
Lemma resting m c k s :
  MInv m → myproc (kern m) = Some c → (c < NPROC)%nat → idleproc (mycpu s) = idleproc (mycpu (kern m)) →
  (∀ p, (p < NPROC)%nat → p ≠ c → state (getp s p) = state (getp (kern m) p)) →
  pc_ok false (bool_decide (idleproc (mycpu s) = Some c)) (state (getp s c)) k →
  ∀ p, (p < NPROC)%nat →
    pc_ok false (bool_decide (idleproc (mycpu s) = Some p)) (state (getp s p)) (default PRun (<[c := k]> (pcs m) !! p)).
Proof.
  intros [_ Hlen Hpc] Hm Hc Hid Hoth Hk p Hp. destruct (decide (p = c)) as [->|Hne].
  - by rewrite list_lookup_insert_eq by lia.
  - rewrite list_lookup_insert_ne, Hid, Hoth by done. specialize (Hpc p Hp).
    rewrite (bool_decide_false (myproc (kern m) = Some p)) in Hpc by congruence. done.
Qed.

(** The process on the CPU changes its own state. *)
Lemma MInv_own m c k s qs :
  MInv m → myproc (kern m) = Some c → SInv s qs → (c ∉ concat qs) → mycpu s = mycpu (kern m) →
  (∀ p, (p < NPROC)%nat → p ≠ c → state (getp s p) = state (getp (kern m) p)) →
  pc_ok true (bool_decide (idleproc (mycpu s) = Some c)) (state (getp s c)) k →
  MInv (goto c k s m).
Proof.
  intros HM Hm HI Hnin Hcpu Hoth Hk. destruct (MInv_cur m HM) as (c' & Hc' & Hc).
  assert (c' = c) as -> by congruence. destruct HM as [_ Hlen Hpc]. split.
  - exists qs. split; [done|]. unfold myproc. simpl. rewrite Hcpu. intros x Hx. unfold myproc in Hm. by simplify_eq/=.
  - simpl. by rewrite length_insert.
  - intros p Hp. rewrite pc_goto by lia. simpl. unfold myproc. rewrite Hcpu in *. unfold myproc in Hm. rewrite Hm.
    destruct (decide (p = c)) as [->|Hne]; [by rewrite (bool_decide_true (Some c = Some c))|].
    specialize (Hpc p Hp). unfold myproc in Hpc. by rewrite Hm, <-Hoth in Hpc.
Qed.

Lemma getp_state_field s s' i : field s' i = field s i → state (getp s' i) = state (getp s i).
Proof. intros H. by rewrite !state_field, H. Qed.

(** A process other than the current one changes outside the run queue. *)
Lemma MInv_other m np k s qs c :
  MInv m → myproc (kern m) = Some c → np ≠ c → (np < NPROC)%nat → SInv s qs → (c ∉ concat qs) →
  same_cpu (mycpu (kern m)) (mycpu s) →
  (∀ p, (p < NPROC)%nat → p ≠ np → state (getp s p) = state (getp (kern m) p)) →
  pc_ok false (bool_decide (idleproc (mycpu s) = Some np)) (state (getp s np)) k →
  MInv (goto np k s m).
Proof.
  intros [_ Hlen Hpc] Hm Hne Hnp HI Hnin (Hc & Hid & _)%same_cpu_proj Hoth Hk. unfold myproc in Hm. split.
  - exists qs. split; [done|]. unfold myproc. simpl. rewrite Hc. intros x Hx. by simplify_eq/=.
  - simpl. by rewrite length_insert.
  - intros p Hp. rewrite pc_goto by lia. simpl. unfold myproc. rewrite Hc, Hid, Hm in *.
    destruct (decide (p = np)) as [->|Hnp']; [by rewrite (bool_decide_false (Some c = Some np)) by congruence|].
    specialize (Hpc p Hp). unfold myproc in Hpc. by rewrite Hm, <-Hoth in Hpc.
Qed.

Lemma yield_switch m c s2 r s' :
  MInv m → at_pc m c PRun → yield_enter (kern m) = Ok tt s2 → schedule s2 = Ok r s' →
  MInv (goto c (PYield PRun) s' m).
Proof.
  intros HM Hat Hy Hs. destruct (cur_pc _ _ _ HM Hat) as [Hc _]. destruct Hat as [Hm _].
  destruct (mi_sched _ HM) as (qs & HI & Hnin).
  destruct (wp_run _ _ _ _ _ (yield_enter_ok _ qs c HI Hm (Hnin c Hm)) Hy) as (qs2 & HI2 & _ & Hcpu & _ & Hf).
  apply same_cpu_proj in Hcpu as (Hcp & Hid & _).
  assert (state (getp s2 c) = RUNNABLE) as Hst by (by rewrite state_field, Hf, decide_True).
  eapply (switch_ok s2 qs2 c); try done.
  - unfold myproc. by rewrite Hcp.
  - by rewrite Hst.
  - rewrite length_insert. apply HM.
  - apply (resting m c); try done.
    + intros p Hp Hne. apply getp_state_field. by rewrite Hf, decide_False.
    + rewrite Hst. unfold pc_ok. case_bool_decide; auto.
Qed.

(** The process on the CPU leaves it from the window of [sleep] or [exit]. *)
Lemma window_switch m c k k' r s' :
  MInv m → at_pc m c k → (k = PSleepW ∧ k' = PSleepRet) ∨ (k = PExitW ∧ k' = PExitRet) →
  schedule (kern m) = Ok r s' → MInv (goto c k' s' m).
Proof.
  intros HM Hat Hk Hs. destruct (cur_pc _ _ _ HM Hat) as [Hc Hpc]. destruct Hat as [Hm _].
  destruct (mi_sched _ HM) as (qs & HI & _).
  assert (pc_ok false (bool_decide (idleproc (mycpu (kern m)) = Some c)) (state (getp (kern m) c)) k' ∧
          state (getp (kern m) c) ≠ RUNNING) as [Hpc' Hst].
  { unfold pc_ok in *. case_bool_decide; [naive_solver|]. 
    destruct Hk as [[-> ->]|[-> ->]], Hpc as [[-> ?]|[[-> ?]|[-> ?]]]; naive_solver. }
  eapply (switch_ok _ qs c); try done; [rewrite length_insert; apply HM|]. by apply (resting m c).
Qed.

Lemma MInv_sleep_enter ch m p s' :
  MInv m → at_pc m p PRun → ¬ is_idle m p → sleep_enter ch (kern m) = Ok tt s' → MInv (goto p PSleepW s' m).
Proof.
  intros HM Hat Hid Hs. destruct (cur_running _ _ HM Hat Hid) as [Hp Hst]. destruct Hat as [Hm _].
  destruct (mi_sched _ HM) as (qs & HI & Hnin).
  destruct (wp_run _ _ _ _ _ (sleep_enter_ok ch _ qs p HI Hm Hst) Hs) as (HI' & Hcpu & _ & Hf).
  eapply MInv_own; try done; [by apply Hnin|..].
  - intros x Hx Hne. apply getp_state_field. by rewrite Hf, decide_False.
  - rewrite Hcpu, bool_decide_false by done. simpl. right; left.
    by rewrite state_field, Hf, decide_True.
Qed.

Lemma MInv_sleep_exit m p s' :
  MInv m → at_pc m p PSleepRet → sleep_exit (kern m) = Ok tt s' → MInv (goto p PRun s' m).
Proof.
  intros HM Hat Hs. destruct (cur_pc _ _ _ HM Hat) as [Hp Hpc]. destruct Hat as [Hm _].
  destruct (mi_sched _ HM) as (qs & HI & Hnin).
  assert (s' = updp p (set_chan ChNull) (kern m)) as ->.
  { assert (wp sleep_exit (λ _ s, s = updp p (set_chan ChNull) (kern m)) (kern m)) as H.
    { unfold sleep_exit, with_cur. apply wp_bind, wp_gets. rewrite Hm. by apply wp_modify. }
    exact (wp_run _ _ _ _ _ H Hs). }
  pose proof (Repr_procs _ _ (si_repr _ _ HI)) as Hlen.
  apply (MInv_own m p PRun _ qs); try done; [by apply SInv_updp|by apply Hnin|..].
  - intros x Hx Hne. by rewrite getp_updp_ne.
  - rewrite getp_updp_eq by lia. simpl. unfold pc_ok in *. case_bool_decide; [naive_solver|].
    left. naive_solver.
Qed.

Lemma MInv_exit_enter status m p s' :
  MInv m → at_pc m p PRun → ¬ is_idle m p → exit_enter status (kern m) = Ok tt s' → MInv (goto p PExitW s' m).
Proof.
  intros HM Hat Hid Hs. destruct (cur_running _ _ HM Hat Hid) as [Hp Hst]. destruct Hat as [Hm _].
  destruct (mi_sched _ HM) as (qs & HI & Hnin).
  destruct (wp_run _ _ _ _ _ (exit_enter_ok status _ qs p HI Hm Hst) Hs)
    as (s1 & qs1 & Hk & HI' & Hcpu & Hst1 & Hf).
  pose proof (MInv_keeps m qs s1 qs1 HM Hnin Hk) as HM1. destruct Hk as (_ & _ & Hn & Hm1 & Hid1).
  change (goto p PExitW s' m) with (goto p PExitW s' (Mach s1 (pcs m))).
  apply (MInv_own _ p PExitW s' qs1); try done.
  - by rewrite <-Hm1 in Hm.
  - by apply Hn; [|apply Hnin].
  - intros x Hx Hne. apply getp_state_field. by rewrite Hf, decide_False.
  - rewrite Hcpu, Hid1, bool_decide_false by done. right; right. by rewrite state_field, Hf, decide_True.
Qed.

Lemma MInv_yield_ret m p k : MInv m → at_pc m p (PYield k) → MInv (goto p k (kern m) m).
Proof.
  intros HM Hat. destruct (cur_pc _ _ _ HM Hat) as [Hp Hpc]. destruct Hat as [Hm _].
  destruct (mi_sched _ HM) as (qs & HI & Hnin). apply (MInv_own m p k _ qs); try done; [by apply Hnin|].
  unfold pc_ok in *. case_bool_decide; [destruct Hpc; naive_solver|]. left.
  destruct Hpc as [[-> ?]|[[-> ?]|[-> ?]]]; naive_solver.
Qed.

Lemma MInv_alloc m p np s' :
  MInv m → at_pc m p PRun → ¬ is_idle m p → (np < NPROC)%nat → state (getp (kern m) np) = UNUSED →
  allocproc_found np (kern m) = Ok tt s' → MInv (goto np PRun s' m).
Proof.
  intros HM Hat Hid Hnp Hu Hs. destruct (cur_running _ _ HM Hat Hid) as [Hp Hst]. destruct Hat as [Hm _].
  destruct (mi_sched _ HM) as (qs & HI & Hnin).
  destruct (wp_run _ _ _ _ _ (allocproc_found_ok _ qs np HI Hnp Hu) Hs) as (HI' & Hcpu & Hst' & Hoth).
  apply (MInv_other m np PRun s' qs p); try done; [congruence|by apply Hnin|by rewrite Hcpu|..].
  - intros x Hx Hne. by rewrite Hoth.
  - rewrite Hst'. unfold pc_ok. case_bool_decide; auto.
Qed.

Lemma goto_same m np : goto np (pc m np) (kern m) m = m.
Proof.
  unfold goto, pc. destruct m as [s l]. simpl. f_equal.
  destruct (l !! np) eqn:E; [by apply list_insert_id|]. by apply list_insert_ge, lookup_ge_None.
Qed.

Lemma Mach_goto m np s : Mach s (pcs m) = goto np (pc m np) s m.
Proof. pose proof (f_equal pcs (goto_same m np)) as H. simpl in H. unfold goto. by rewrite H. Qed.

Lemma MInv_fork m p np :
  MInv m → at_pc m p PRun → ¬ is_idle m p → (np < NPROC)%nat → state (getp (kern m) np) = USED →
  MInv (Mach (fork_tail np p (kern m)) (pcs m)).
Proof.
  intros HM Hat Hid Hnp Hu. destruct (cur_running _ _ HM Hat Hid) as [Hp Hst]. destruct Hat as [Hm _].
  destruct (mi_sched _ HM) as (qs & HI & Hnin). assert (np ≠ p) as Hne by congruence.
  destruct (fork_tail_ok _ qs np p HI Hnp Hp Hne Hu) as (qs' & HI' & Hcpu & Hin & Hf).
  rewrite (Mach_goto m np). apply (MInv_other m np _ _ qs' p); try done.
  - rewrite Hin. pose proof (Hnin p Hm). naive_solver.
  - intros x Hx Hxn. apply getp_state_field. by rewrite Hf, decide_False.
  - pose proof (mi_pc _ HM np Hnp) as Hpc.
    rewrite (bool_decide_false (myproc (kern m) = Some np)), Hu in Hpc by congruence.
    apply same_cpu_proj in Hcpu as (_ & -> & _). rewrite state_field, Hf, decide_True by done.
    simpl. unfold pc_ok in *. case_bool_decide; auto.
Qed.

Lemma MInv_free m p np :
  MInv m → at_pc m p PRun → ¬ is_idle m p → (np < NPROC)%nat →
  state (getp (kern m) np) = ZOMBIE ∨ state (getp (kern m) np) = USED →
  MInv (Mach (freeproc_fields np (kern m)) (pcs m)).
Proof.
  intros HM Hat Hid Hnp Hu. destruct (cur_running _ _ HM Hat Hid) as [Hp Hst]. destruct Hat as [Hm _].
  destruct (mi_sched _ HM) as (qs & HI & Hnin). assert (np ≠ p) as Hne by naive_solver congruence.
  destruct (freeproc_fields_ok _ qs np HI Hnp Hu) as (HI' & Hcpu & Hst' & Hoth).
  rewrite (Mach_goto m np). apply (MInv_other m np _ _ qs p); try done; [by apply Hnin|..].
  - intros x Hx Hxn. by rewrite Hoth.
  - pose proof (mi_pc _ HM np Hnp) as Hpc. rewrite Hcpu, Hst'.
    unfold pc_ok in *. case_bool_decide; done.
Qed.

Lemma utick_keeps m p qs b s' :
  MInv m → SInv (kern m) qs → at_pc m p PRun → ¬ is_idle m p →
  usertrap_timer (clockintr (kern m)) = Ok b s' → ∃ qs', keeps (kern m) qs s' qs'.
Proof.
  intros HM HI Hat Hid Hs. destruct (cur_running _ _ HM Hat Hid) as [Hp Hst]. destruct Hat as [Hm _].
  destruct (clockintr_keeps _ qs HI) as (qs1 & Hk1).
  destruct (wp_run _ _ _ _ _ (usertrap_timer_ok _ qs1 p (proj1 Hk1) (eq_trans (proj1 (proj2 (proj2 (proj2 Hk1)))) Hm)
    ltac:(destruct (proj1 (proj2 Hk1) p Hp) as [->|(? & _)]; done)) Hs) as (qs2 & Hk2 & _).
  exists qs2. exact (keeps_trans _ _ _ _ _ _ Hk1 Hk2).
Qed.

(** A tick that ends in [yield]. *)
Lemma MInv_tick_yield m p qs s1 qs1 s2 r s' :
  MInv m → (∀ c, myproc (kern m) = Some c → c ∉ concat qs) → at_pc m p PRun → keeps (kern m) qs s1 qs1 →
  yield_enter s1 = Ok tt s2 → schedule s2 = Ok r s' → MInv (goto p (PYield PRun) s' m).
Proof.
  intros HM Hnin Hat Hk Hy Hs. pose proof (MInv_keeps _ _ _ _ HM Hnin Hk) as HM1.
  apply (yield_switch (Mach s1 (pcs m)) p s2 r); try done. split; [|apply Hat]. simpl.
  destruct Hk as (_ & _ & _ & -> & _). apply Hat.
Qed.

(** Every step keeps the invariant when the windows are closed. *)
Lemma MInv_step m m' : MInv m → kstep false m m' → MInv m'.
Proof.
  intros HM Hstep. destruct (mi_sched _ HM) as (qs & HI & Hnin). destruct Hstep.
  - destruct (wakeup_keeps ch _ qs HI) as (qs' & Hk). by eapply MInv_keeps.
  - destruct (cur_running _ _ HM H H0) as [Hp Hst]. destruct (kill_keeps id _ qs HI) as (qs' & Hk).
    { intros c Hc. destruct H as [? _]. assert (c = p) as -> by congruence. by rewrite Hst. }
    by eapply MInv_keeps.
  - by eapply MInv_sleep_enter.
  - eapply window_switch; eauto.
  - by eapply MInv_sleep_exit.
  - by eapply MInv_exit_enter.
  - eapply window_switch; eauto.
  - destruct (wp_run _ _ _ _ _ (timer_tick_ok _ qs p HI (proj1 H)) H1) as (qs' & Hk & _). by eapply MInv_keeps.
  - destruct (wp_run _ _ _ _ _ (timer_tick_ok _ qs p HI (proj1 H)) H1) as (qs' & Hk & _).
    destruct H0 as [->|[? _]]; [|done]. by eapply MInv_tick_yield.
  - destruct (utick_keeps _ _ _ _ _ HM HI H H0 H1) as (qs' & Hk). by eapply MInv_keeps.
  - destruct (utick_keeps _ _ _ _ _ HM HI H H0 H1) as (qs' & Hk). by eapply MInv_tick_yield.
  - by eapply MInv_yield_ret.
  - pose proof H as [Hm Hk]. destruct (cur_pc _ _ _ HM H) as [Hp _].
    destruct (si_idle _ _ HI) as (i & Hi & _ & Hist). unfold is_idle in H0. assert (i = p) as -> by congruence.
    rewrite (Mach_goto m p). apply (switch_ok (kern m) qs p _ r); try done; [by rewrite Hist|..].
    + rewrite length_insert. apply HM.
    + apply (resting m p); try done. rewrite bool_decide_true by done. rewrite Hk. by left.
  - by eapply MInv_alloc.
  - by eapply MInv_fork.
  - by eapply MInv_free.
Qed.

Lemma MInv_steps m m' : MInv m → ksteps false m m' → MInv m'.
Proof. intros HM Hs. induction Hs; eauto using MInv_step. Qed.

(** ** The initial state *)

Definition boot_qs : list (list nat) := <[20%nat := [0%nat]]> (replicate NPRIO []).

Lemma forall_NPROC (P : nat → Prop) : Forall P (seq 0 NPROC) → ∀ p, (p < NPROC)%nat → P p.
Proof. rewrite Forall_forall. intros H p Hp. apply H, elem_of_seq. lia. Qed.

#[export] Instance pc_ok_dec cur idle st k : Decision (pc_ok cur idle st k).
Proof. destruct cur, idle, st; unfold pc_ok; apply _. Defined.

#[export] Instance prio_ok_dec p : Decision (prio_ok p).
Proof. unfold prio_ok. apply _. Defined.

Lemma boot_repr : Repr (kern boot) boot_qs.
Proof.
  pose proof (prio_init_repr (Kst (replicate NPROC proc0) [] 0 (Cpu None 0 false None false false)
                           (Globals None 1 0)) eq_refl) as H0.
  set (s0 := prio_init _) in H0.
  set (s1 := match allocproc_found 0 s0 with Ok _ s => s | _ => s0 end).
  assert (Repr (set_glob (Globals (Some 0%nat) 2 0) s1) (replicate NPRIO [])) as H1.
  { apply (Repr_updp_notin (set_glob (Globals (Some 0%nat) 2 0) s0)); [by destruct H0 as [[] ?]|by apply Nat.ltb_lt|].
    by_compute. }
  assert (Repr (updp 0 (set_state RUNNABLE) (set_glob (Globals (Some 0%nat) 2 0) s1)) (replicate NPRIO [])) as H2.
  { apply Repr_updp; [done|by apply Nat.ltb_lt|done]. }
  destruct (prio_enqueue_repr 0 _ _ [] H2) as [H3 _]; [done|by apply Nat.ltb_lt|by_compute|done|done|].
  apply Repr_set_cpu, Repr_updp; [exact H3|by apply Nat.ltb_lt|done].
Qed.

Lemma boot_SInv : SInv (kern boot) boot_qs.
Proof.
  split.
  - apply boot_repr.
  - intros k l p Hk Hp. unfold boot_qs in Hk.
    apply list_lookup_insert_Some in Hk as [(<- & <- & _)|[_ Hk]].
    { by apply list_elem_of_singleton in Hp as ->. }
    apply lookup_replicate in Hk as [-> _]. by apply elem_of_nil in Hp.
  - apply forall_NPROC. by_compute.
  - exists 1%nat. split; [done|by apply Nat.ltb_lt].
  - exists 1%nat. split; [done|]. split; [by apply Nat.ltb_lt|done].
  - apply (forall_NPROC (λ p, _ → (_ ↔ _))). by_compute.
  - apply (forall_NPROC (λ p, _ → _)). by_compute.
Qed.

Lemma MInv_boot : MInv boot.
Proof.
  split; [|done|].
  - exists boot_qs. split; [apply boot_SInv|]. intros c [= <-]. by_compute.
  - apply forall_NPROC. by_compute.
Qed.

(** ** Running the machine

    The relation as a function of the action taken; runs of it are evaluated. *)

Inductive action : Set :=
  | AWakeup (ch : channel) | AKill (id : Z) | ASleep (ch : channel) | AExit (status : Z)
  | ASched | AReturn | ATick | AUserTick | AAlloc (np : nat) | AFork (np : nat) | AFree (np : nat).

#[export] Instance irq_at_dec win k : Decision (irq_at win k).
Proof. unfold irq_at. apply _. Defined.

#[export] Instance is_idle_dec m p : Decision (is_idle m p).
Proof. unfold is_idle. apply _. Defined.

Definition okM {A B} (o : outcome kst A) (k : A → kst → option B) : option B :=
  match o with Ok a s => k a s | _ => None end.

(** [yield()] from a timer interrupt that found the process at [k]. *)
Definition yield_act (p : nat) (k : kpc) (s : kst) (m : mach) : option mach :=
  okM (yield_enter s) (λ _ s2, okM (schedule s2) (λ _ s', Some (goto p (PYield k) s' m))).

Definition stepf (win : bool) (a : action) (m : mach) : option mach :=
  match myproc (kern m) with
  | None => None
  | Some p =>
      let k := pc m p in
      match a with
      | AWakeup ch => if decide (irq_at win k) then Some (Mach (wakeup ch (kern m)) (pcs m)) else None
      | ATick =>
          if decide (irq_at win k) then
            okM (timer_tick (kern m)) (λ b s1, if b : bool then yield_act p k s1 m else Some (Mach s1 (pcs m)))
          else None
      | ASched =>
          match k with
          | PSleepW => okM (schedule (kern m)) (λ _ s', Some (goto p PSleepRet s' m))
          | PExitW => okM (schedule (kern m)) (λ _ s', Some (goto p PExitRet s' m))
          | PRun => if decide (is_idle m p) then okM (schedule (kern m)) (λ _ s', Some (Mach s' (pcs m))) else None
          | _ => None
          end
      | AReturn =>
          match k with
          | PSleepRet => okM (sleep_exit (kern m)) (λ _ s', Some (goto p PRun s' m))
          | PYield k' => Some (goto p k' (kern m) m)
          | _ => None
          end
      | _ =>
          if decide (k = PRun ∧ ¬ is_idle m p) then
            match a with
            | AKill id => Some (Mach (kill id (kern m)).2 (pcs m))
            | ASleep ch => okM (sleep_enter ch (kern m)) (λ _ s', Some (goto p PSleepW s' m))
            | AExit status =>
                if decide (initproc (glob (kern m)) ≠ Some p)
                then okM (exit_enter status (kern m)) (λ _ s', Some (goto p PExitW s' m)) else None
            | AUserTick =>
                okM (usertrap_timer (clockintr (kern m)))
                    (λ b s1, if b : bool then yield_act p PRun s1 m else Some (Mach s1 (pcs m)))
            | AAlloc np =>
                if decide ((np < NPROC)%nat ∧ state (getp (kern m) np) = UNUSED)
                then okM (allocproc_found np (kern m)) (λ _ s', Some (goto np PRun s' m)) else None
            | AFork np =>
                if decide ((np < NPROC)%nat ∧ state (getp (kern m) np) = USED)
                then Some (Mach (fork_tail np p (kern m)) (pcs m)) else None
            | AFree np =>
                if decide ((np < NPROC)%nat ∧ (state (getp (kern m) np) = ZOMBIE ∨ state (getp (kern m) np) = USED))
                then Some (Mach (freeproc_fields np (kern m)) (pcs m)) else None
            | _ => None
            end
          else None
      end
  end.

Fixpoint runf (win : bool) (l : list action) (m : mach) : option mach :=
  match l with [] => Some m | a :: l' => m' ← stepf win a m; runf win l' m' end.

Lemma okM_Some {A B} (o : outcome kst A) (k : A → kst → option B) b :
  okM o k = Some b → ∃ a s, o = Ok a s ∧ k a s = Some b.
Proof. destruct o; simpl; [eauto|done..]. Qed.

Ltac okM_inv :=
  repeat match goal with
  | H : okM _ _ = Some _ |- _ => apply okM_Some in H as (? & ? & ? & H)
  | u : () |- _ => destruct u
  end; simplify_eq.

(** The function takes steps of the relation. *)
Lemma stepf_sound win a m m' : stepf win a m = Some m' → kstep win m m'.
Proof.
  unfold stepf. destruct (myproc (kern m)) as [p|] eqn:Hm; [|done].
  assert (at_pc m p (pc m p)) as Hat by done. revert Hat. generalize (pc m p). intros k Hat.
  destruct a; repeat case_decide; try done; unfold yield_act;
    repeat match goal with H : _ ∧ _ |- _ => destruct H; subst end;
    try (destruct k; repeat case_decide; try done); intros; okM_inv;
    try match goal with b : bool |- _ => destruct b; okM_inv end;
    eauto using kstep.
Qed.

Lemma runf_sound win l m m' : runf win l m = Some m' → ksteps win m m'.
Proof.
  revert m. induction l as [|a l IH]; simpl; intros m; [intros [= ->]; constructor|].
  intros (m1 & Hs & Hl)%bind_Some. eapply rtc_l; [by eapply stepf_sound|by apply IH].
Qed.

(** A run evaluated to the state it ends in. *)
Definition run_to (win : bool) (l : list action) (m : mach) : mach := default m (runf win l m).

#[export] Hint Opaque run_to : typeclass_instances.

Lemma run_to_steps win l m : is_Some (runf win l m) → ksteps win m (run_to win l m).
Proof. intros [m' H]. unfold run_to. rewrite H. by eapply runf_sound. Qed.

(** ** Theorems *)

(** C5. The scheduler is safe as long as no interrupt falls in the windows of
    [sleep] and [exit]: in every state reached from boot by any sequence of
    system calls, wakeups, clock ticks, preemptions, forks and exits, the run
    queue is well formed and sorted by priority, no process is in it twice, it
    holds exactly the RUNNABLE processes (the idle process apart), only the
    process on the CPU is RUNNING, and the process on the CPU is never one
    that has exited, so [panic("zombie exit")] is not reached. *)
Theorem scheduler_safe m (Hr : ksteps false boot m) :
  ∃ c qs, myproc (kern m) = Some c ∧ (c ∉ concat qs) ∧ Repr (kern m) qs ∧ prio_sorted (kern m) qs ∧
    NoDup (concat qs) ∧
    (∀ p, (p < NPROC)%nat → ¬ is_idle m p → p ∈ concat qs ↔ state (getp (kern m) p) = RUNNABLE) ∧
    (∀ p, (p < NPROC)%nat → state (getp (kern m) p) = RUNNING → p = c) ∧ pc m c ≠ PExitRet.
Proof.
  pose proof (MInv_steps _ _ MInv_boot Hr) as HM. destruct (mi_sched _ HM) as (qs & HI & Hnin).
  destruct (MInv_cur _ HM) as (c & Hc & Hcr). exists c, qs. split; [done|]. split; [by apply Hnin|].
  split; [apply HI|]. split; [apply HI|]. split; [apply HI|]. split; [|split].
  - intros p Hp Hid. by apply (si_queue _ _ HI).
  - intros p Hp Hst. pose proof (si_running _ _ HI p Hp Hst). congruence.
  - pose proof (cur_pc m c (pc m c) HM (conj Hc eq_refl)) as [_ Hpc]. intros Hk. rewrite Hk in Hpc.
    unfold pc_ok in Hpc. case_bool_decide; naive_solver.
Qed.

(** A run in which the first process forks a child, sleeps, is preempted,
    woken and waits for the child to exit. *)
Definition demo_run : list action :=
  [ASched; AAlloc 2; AFork 2; ASleep ChTicks; ASched; ATick; AReturn;
   ASleep (ChProc 0); ASched; AReturn; AExit 0; ASched; AReturn; AFree 2].

Lemma demo_run_ok : ksteps false boot (run_to false demo_run boot).
Proof. apply run_to_steps. by_compute. Qed.

Lemma scheduler_safe_witness :
  let m := run_to false demo_run boot in
  ∃ c qs, myproc (kern m) = Some c ∧ (c ∉ concat qs) ∧ Repr (kern m) qs.
Proof.
  intros m. destruct (scheduler_safe m demo_run_ok) as (c & qs & Hc & Hn & HR & _).
  exists c, qs. exact (conj Hc (conj Hn HR)).
Defined.

(** C19. [schedule] never fails and honours priorities.  When the process on the
    CPU is about to leave it, [schedule] terminates without panic and gives the
    CPU to the process at the head of the highest non-empty level of the run
    queue, which becomes RUNNING with its waiting time reset, or to the idle
    process when nothing is queued; the queue loses that process only, no other
    process changes, and the caller gets its interrupt flag back. *)
Theorem schedule_picks_highest m c
    (Hr : ksteps false boot m) (Hat : at_pc m c PSleepW ∨ at_pc m c PExitW) :
  ∃ qs, Repr (kern m) qs ∧
    wp schedule (λ '(next, ie) s', ie = sie (mycpu (kern m)) ∧
      ∃ n qs', next = Some n ∧ myproc s' = Some n ∧ chosen (kern m) qs n qs' ∧ Repr s' qs' ∧
        (∀ i, (i < NPROC)%nat → field s' i =
           if decide (i = n) then run_proc (kern m) n (field (kern m) i) else field (kern m) i)) (kern m).
Proof.
  pose proof (MInv_steps _ _ MInv_boot Hr) as HM. destruct (mi_sched _ HM) as (qs & HI & _).
  exists qs. split; [apply HI|].
  assert (myproc (kern m) = Some c ∧ state (getp (kern m) c) ≠ RUNNING) as [Hm Hst].
  { destruct Hat as [Hat|Hat]; destruct (cur_pc _ _ _ HM Hat) as [Hc Hpc]; destruct Hat as [Hm _];
      (split; [exact Hm|]); intros Hrun; rewrite Hrun in Hpc; unfold pc_ok in Hpc;
      destruct (bool_decide _); naive_solver. }
  eapply wp_mono; [|apply (schedule_ok _ qs HI (nobody_running _ qs c HI Hm Hst))].
  intros [next ie] s' (Hie & n & qs' & Hn & Hch & HI' & Hm' & _ & Hf & _).
  split; [done|]. exists n, qs'. split; [done|]. split; [done|]. split; [done|]. split; [apply HI'|done].
Qed.

Definition sleep_run : list action := [ASched; AAlloc 2; AFork 2; ASleep ChTicks].

Lemma sleep_run_ok : ksteps false boot (run_to false sleep_run boot).
Proof. apply run_to_steps. by_compute. Qed.

Lemma schedule_picks_highest_witness :
  let m := run_to false sleep_run boot in
  ∃ qs, Repr (kern m) qs ∧ wp schedule (λ r s', ∃ n, myproc s' = Some n) (kern m).
Proof.
  intros m. destruct (schedule_picks_highest m 0 sleep_run_ok) as (qs & HR & Hwp).
  { left. split; vm_compute; reflexivity. }
  exists qs. split; [exact HR|]. eapply wp_mono; [|exact Hwp].
  intros [next ie] s' (_ & n & qs' & _ & Hn & _). exists n. exact Hn.
Defined.

(** C20. [wakeup(chan)] is exact: it makes RUNNABLE, with the waiting time reset,
    every process that sleeps on the channel except the caller, puts it in the
    run queue, and changes nothing else; in particular it never touches the
    process on the CPU. *)
Theorem wakeup_exact ch s qs (HI : SInv s qs) :
  ∃ qs', SInv (wakeup ch s) qs' ∧
    (∀ i, (i < NPROC)%nat →
       field (wakeup ch s) i = if decide (woken ch s i) then wake (field s i) else field s i) ∧
    (∀ i, (i < NPROC)%nat → woken ch s i → i ∈ concat qs') ∧
    myproc (wakeup ch s) = myproc s ∧ glob (wakeup ch s) = glob s.
Proof.
  destruct (wakeup_ok ch s qs HI) as (qs' & HI' & Hf & Hc & Hg).
  apply same_cpu_proj in Hc as (Hcp & Hid & _).
  exists qs'. split; [done|]. split; [done|]. split; [|done]. intros i Hi Hw.
  apply (si_queue _ _ HI'); [done| |by rewrite state_field, Hf, decide_True].
  rewrite Hid. destruct Hw as (_ & Hs & _). by apply (cur_not_queued s qs i HI Hi); rewrite Hs.
Qed.

Definition asleep_run : list action := [ASched; ASleep ChTicks; ASched].

Lemma asleep_SInv : ∃ qs, SInv (kern (run_to false asleep_run boot)) qs.
Proof.
  assert (ksteps false boot (run_to false asleep_run boot)) as H by (apply run_to_steps; by_compute).
  destruct (mi_sched _ (MInv_steps _ _ MInv_boot H)) as (qs & HI & _). by exists qs.
Qed.

Lemma wakeup_exact_witness :
  let s := kern (run_to false asleep_run boot) in ∃ qs', SInv (wakeup ChTicks s) qs' ∧ 0%nat ∈ concat qs'.
Proof.
  intros s. destruct asleep_SInv as (qs & HI).
  destruct (wakeup_exact ChTicks s qs HI) as (qs' & HI' & _ & Hin & _).
  exists qs'. split; [exact HI'|]. apply Hin; [by apply Nat.ltb_lt|]. split; [|split]; vm_compute; done.
Defined.

(** *** Interrupts in the windows of [sleep] and [exit]

    [sleep] and [exit] release [p->lock] before they call [schedule], so with
    interrupts enabled (a system call) the states below are reached. *)

(** The process is neither on the CPU nor in the run queue. *)
Definition off_queue (m : mach) (p : nat) : Prop :=
  myproc (kern m) ≠ Some p ∧ Forall (λ Q, head Q ≠ Some p) (q (kern m)) ∧
  Forall (λ pr, rq_next pr ≠ Some p) (procs (kern m)).

#[export] Instance off_queue_dec m p : Decision (off_queue m p).
Proof. unfold off_queue. apply _. Defined.

(** C22. A lost wakeup.  A process has marked itself SLEEPING on a channel and
    released its locks; an interrupt handler calls [wakeup] on that very
    channel before [schedule] runs; since [wakeup] skips [myproc()], the
    process is still SLEEPING on the channel after it has been switched out,
    and the CPU idles. *)
Theorem sleep_window_loses_wakeup :
  ∃ m1 m2 m3, ksteps true boot m1 ∧ at_pc m1 0 PSleepW ∧ chan (getp (kern m1) 0) = ChDiskBuf 0 ∧
    m2 = Mach (wakeup (ChDiskBuf 0) (kern m1)) (pcs m1) ∧ kstep true m1 m2 ∧ kstep true m2 m3 ∧
    state (getp (kern m3) 0) = SLEEPING ∧ chan (getp (kern m3) 0) = ChDiskBuf 0 ∧ off_queue m3 0 ∧ is_idle m3 1 ∧
    myproc (kern m3) = Some 1%nat.
Proof.
  set (l := [ASched; ASleep (ChDiskBuf 0)]).
  exists (run_to true l boot), (run_to true (l ++ [AWakeup (ChDiskBuf 0)]) boot),
    (run_to true (l ++ [AWakeup (ChDiskBuf 0); ASched]) boot).
  split; [apply run_to_steps; by_compute|]. split; [split; by_compute|]. split; [by_compute|].
  split; [vm_compute; reflexivity|].
  split; [apply (stepf_sound _ (AWakeup (ChDiskBuf 0))); vm_compute; reflexivity|].
  split; [apply (stepf_sound _ ASched); vm_compute; reflexivity|].
  split; [by_compute|]. split; [by_compute|]. split; [by_compute|]. split; by_compute.
Qed.

(** A lost process.  A clock tick in the window of [sleep] makes the process
    RUNNABLE by [yield]; when it runs again it goes on into the [schedule] of
    [sleep] in state RUNNING, and ends up RUNNING but neither on the CPU nor in
    the run queue, where neither [wakeup] nor [kill] finds it SLEEPING. *)
Theorem sleep_window_loses_process :
  ∃ m, ksteps true boot m ∧ state (getp (kern m) 0) = RUNNING ∧ off_queue m 0 ∧ pc m 0 = PSleepRet ∧
    chan (getp (kern m) 0) = ChLog ∧ state (getp (wakeup ChLog (kern m)) 0) = RUNNING ∧
    state (getp (kill 1 (kern m)).2 0) = RUNNING.
Proof.
  exists (run_to true [ASched; AAlloc 2; AFork 2; ASleep ChLog; ATick; ASleep ChCons; ASched; AReturn; ASched] boot).
  split; [apply run_to_steps; by_compute|]. repeat (split; [by_compute|]). by_compute.
Qed.

(** C23. A revived zombie.  A clock tick in the window of [exit] makes the
    ZOMBIE process RUNNABLE again; it ends up RUNNING off the CPU and off the
    run queue, so that its parent, asleep in [wait], never finds a ZOMBIE. *)
Theorem exit_window_revives_zombie :
  ∃ m1 m2, ksteps true boot m1 ∧ state (getp (kern m1) 2) = ZOMBIE ∧ at_pc m1 2 PExitW ∧
    ksteps true m1 m2 ∧ state (getp (kern m2) 2) = RUNNING ∧ off_queue m2 2 ∧ pc m2 2 = PExitRet ∧
    parent (getp (kern m2) 2) = Some 0%nat ∧ state (getp (kern m2) 0) = SLEEPING ∧
    chan (getp (kern m2) 0) = ChProc 0.
Proof.
  set (l := [ASched; AAlloc 2; AFork 2; ASleep ChLog; ASched; AWakeup ChLog; AExit 7]).
  set (l' := [ATick; AReturn; ASleep (ChProc 0); ASched; AReturn; ASched]).
  exists (run_to true l boot), (run_to true l' (run_to true l boot)).
  split; [apply run_to_steps; by_compute|]. split; [by_compute|]. split; [split; by_compute|].
  split; [apply run_to_steps; by_compute|]. repeat (split; [by_compute|]). by_compute.
Qed.

Lemma kill_from_cases id s n : ∀ a,
  (∃ p, (a ≤ p < a + n)%nat ∧ pid (getp s p) = id ∧ (∀ j, (a ≤ j < p)%nat → pid (getp s j) ≠ id) ∧
     kill_from id (seq a n) s =
       (0, let s1 := updp p (set_killed 1) s in
           if decide (state (getp s1 p) = SLEEPING)
           then prio_enqueue p (updp p (set_wait_ticks 0) (updp p (set_state RUNNABLE) s1)) else s1)) ∨
  ((∀ p, (a ≤ p < a + n)%nat → pid (getp s p) ≠ id) ∧ kill_from id (seq a n) s = (-1, s)).
Proof.
  induction n as [|n IH]; intros a; simpl; [right; split; [lia|done]|].
  destruct (Z.eqb_spec (pid (getp s a)) id) as [Hid|Hid].
  { left. exists a. split; [lia|]. split; [done|]. split; [lia|done]. }
  destruct (IH (S a)) as [(p & Hp & Hpid & Hlow & Hk)|[Hno Hk]]; [left|right].
  - exists p. split; [lia|]. split; [done|]. split; [|done]. intros j Hj.
    destruct (decide (j = a)) as [->|]; [done|]. apply Hlow. lia.
  - split; [|done]. intros p Hp. destruct (decide (p = a)) as [->|]; [done|]. apply Hno. lia.
Qed.

(** [kill(pid)] acts on the first table slot with that pid and on no other:
    it marks it killed, makes it RUNNABLE if it sleeps, and returns 0; when no
    slot has the pid it returns -1 and changes nothing. *)
Theorem kill_spec id s qs (HI : SInv s qs) :
  (∃ p, (p < NPROC)%nat ∧ pid (getp s p) = id ∧ (∀ j, (j < p)%nat → pid (getp s j) ≠ id) ∧
     (kill id s).1 = 0 ∧
     (∀ i, (i < NPROC)%nat → field (kill id s).2 i =
        if decide (i = p)
        then (if decide (state (getp s p) = SLEEPING) then wake else λ x, x) (set_killed 1 (field s i))
        else field s i)) ∨
  ((∀ p, (p < NPROC)%nat → pid (getp s p) ≠ id) ∧ kill id s = (-1, s)).
Proof.
  pose proof (Repr_procs _ _ (si_repr _ _ HI)) as Hlen.
  destruct (kill_from_cases id s NPROC 0) as [(p & Hp & Hid & Hlow & Hk)|[Hno Hk]]; [left|right].
  - exists p. split; [lia|]. split; [done|]. split; [intros; apply Hlow; lia|].
    unfold kill. rewrite Hk. split; [done|]. intros i Hi. simpl. rewrite getp_updp_eq by lia. 
    assert (keeps s qs (updp p (set_killed 1) s) qs) as (HI1 & _) by (apply updp_keeps; [done|lia|done]).
    change (state (set_killed 1 (getp s p))) with (state (getp s p)).
    destruct (decide (state (getp s p) = SLEEPING)) as [Hst|Hst].
    + destruct (SInv_wake _ qs p HI1 ltac:(lia)) as (qs' & _ & _ & Hf & _); [by rewrite getp_updp_eq by lia|].
      rewrite Hf by done. rewrite field_updp by (done || lia). by case_decide.
    + rewrite field_updp by (done || lia). by case_decide.
  - split; [intros p Hp; apply Hno; lia|done].
Qed.

Lemma kill_spec_witness : let s := kern (run_to false asleep_run boot) in (kill 1 s).1 = 0 ∨ kill 1 s = (-1, s).
Proof.
  intros s. destruct asleep_SInv as (qs & HI).
  destruct (kill_spec 1 s qs HI) as [(p & _ & _ & _ & H & _)|[_ H]]; [left|right]; exact H.
Defined.
