(* ===== verification/Spinlock.v ===== *)
(** * Spinlocks (kernel/spinlock.c)

    [push_off]/[pop_off], [acquire], [release] and [holding] for any number of
    harts.  [acquire] is cut at its spin loop: [acquire_enter] disables
    interrupts and checks for self-deadlock, [acquire_tas] is one atomic swap.
    Every hart interleaves these with the others; mutual exclusion and the
    discipline of the interrupt flag are invariants of the step relation. *)

From S2P Require Import Prelude Proc.

(** ** Operations *)

(** [struct spinlock] without its debugging name. *)
Record spinlock := Spinlock { locked : Z; lk_cpu : option nat }.

Definition initlock : spinlock := Spinlock 0 None.

#[export] Instance spinlock_inhabited : Inhabited spinlock := populate initlock.
#[export] Instance spinlock_eq_dec : EqDecision spinlock.
Proof. solve_decision. Defined.

Definition set_noff (v : Z) (c : cpu) : cpu :=
  Cpu (c_proc c) v (intena c) (idleproc c) (preempt_pending c) (sie c).
Definition set_intena (v : bool) (c : cpu) : cpu :=
  Cpu (c_proc c) (noff c) v (idleproc c) (preempt_pending c) (sie c).

(** [intr_get], [intr_off], [intr_on] of riscv.h: the SIE bit of sstatus. *)
Definition intr_get (c : cpu) : bool := sie c.
Definition intr_off (c : cpu) : cpu := set_sie false c.
Definition intr_on (c : cpu) : cpu := set_sie true c.

Definition push_off : M cpu unit :=
  old ← gets intr_get;
  modify intr_off;;
  n ← gets noff;
  (if n =? 0 then modify (set_intena old) else mret tt);;
  modify (λ c, set_noff (s32 (noff c + 1)) c).

Definition pop_off : M cpu unit :=
  i ← gets intr_get;
  if i : bool then panic "pop_off - interruptible"
  else
    n ← gets noff;
    if n <? 1 then panic "pop_off"
    else
      modify (λ c, set_noff (n - 1) c);;
      ie ← gets intena;
      if (n - 1 =? 0) && ie then modify intr_on else mret tt.

(** The harts and the locks. *)
Record lst := Lst { cpus : list cpu; locks : list spinlock }.

#[export] Instance cpu_inhabited : Inhabited cpu := populate (Cpu None 0 false None false false).

Definition cpu_at (h : nat) (s : lst) : cpu := cpus s !!! h.
Definition lock_at (l : nat) (s : lst) : spinlock := locks s !!! l.
Definition set_cpu_at (h : nat) (c : cpu) (s : lst) : lst := Lst (<[h := c]> (cpus s)) (locks s).
Definition set_lock_at (l : nat) (k : spinlock) (s : lst) : lst := Lst (cpus s) (<[l := k]> (locks s)).

Definition on_cpu {A} (h : nat) (m : M cpu A) : M lst A := zoom (cpu_at h) (set_cpu_at h) m.

(** [holding(lk)] on hart [h]. *)
Definition holding (h : nat) (k : spinlock) : bool :=
  negb (locked k =? 0) && bool_decide (lk_cpu k = Some h).

Definition acquire_enter (h l : nat) : M lst unit :=
  on_cpu h push_off;;
  r ← gets (λ s, holding h (lock_at l s));
  if r : bool then panic "acquire" else mret tt.

(** One [__sync_lock_test_and_set]; on success the rest of [acquire]. *)
Definition acquire_tas (h l : nat) : M lst bool :=
  old ← gets (λ s, locked (lock_at l s));
  modify (λ s, set_lock_at l (Spinlock 1 (lk_cpu (lock_at l s))) s);;
  if old =? 0 then
    modify (λ s, set_lock_at l (Spinlock (locked (lock_at l s)) (Some h)) s);; mret true
  else mret false.

Definition release (h l : nat) : M lst unit :=
  r ← gets (λ s, holding h (lock_at l s));
  if negb r then panic "release"
  else
    modify (λ s, set_lock_at l (Spinlock (locked (lock_at l s)) None) s);;
    modify (λ s, set_lock_at l (Spinlock 0 (lk_cpu (lock_at l s))) s);;
    on_cpu h pop_off.

(** ** The harts running *)

(** What a hart is doing: the locks its code has taken and, inside [acquire],
    the lock it spins on; [base] is the interrupt flag it had with no lock. *)
Record hart := Hart { held : list nat; spin : option nat; base : bool }.

#[export] Instance hart_inhabited : Inhabited hart := populate (Hart [] None false).

Record smach := Smach { lks : lst; harts : list hart }.

Definition hart_at (m : smach) (h : nat) : hart := harts m !!! h.
Definition set_hart (h : nat) (x : hart) (s : lst) (m : smach) : smach := Smach s (<[h := x]> (harts m)).

Inductive lstep (m : smach) : smach → Prop :=
  | ls_enter h l s' :
      (h < length (harts m))%nat → (l < length (locks (lks m)))%nat → spin (hart_at m h) = None →
      acquire_enter h l (lks m) = Ok tt s' →
      lstep m (set_hart h (Hart (held (hart_at m h)) (Some l) (base (hart_at m h))) s' m)
  | ls_spin h l s' :
      (h < length (harts m))%nat → spin (hart_at m h) = Some l →
      acquire_tas h l (lks m) = Ok false s' →
      lstep m (Smach s' (harts m))
  | ls_acquired h l s' :
      (h < length (harts m))%nat → spin (hart_at m h) = Some l →
      acquire_tas h l (lks m) = Ok true s' →
      lstep m (set_hart h (Hart (l :: held (hart_at m h)) None (base (hart_at m h))) s' m)
  | ls_release h l s' :
      (h < length (harts m))%nat → spin (hart_at m h) = None → l ∈ held (hart_at m h) →
      release h l (lks m) = Ok tt s' →
      lstep m (set_hart h (Hart (filter (.≠ l) (held (hart_at m h))) None (base (hart_at m h))) s' m)
  | ls_intr h b :
      (h < length (harts m))%nat → spin (hart_at m h) = None → held (hart_at m h) = [] →
      lstep m (set_hart h (Hart [] None b) (set_cpu_at h (set_sie b (cpu_at h (lks m))) (lks m)) m).

Definition smach0 (nh nl : nat) : smach :=
  Smach (Lst (replicate nh (Cpu None 0 false None false false)) (replicate nl initlock))
        (replicate nh (Hart [] None false)).

(** ** The invariant *)

Definition depth (x : hart) : Z := Z.of_nat (length (held x)) + (if spin x then 1 else 0).

(** The interrupt discipline of one hart. *)
Record cpu_ok (c : cpu) (x : hart) : Prop := {
  co_noff : noff c = depth x;
  co_off : 0 < depth x → sie c = false ∧ intena c = base x;
  co_base : depth x = 0 → sie c = base x
}.

Record LInv (m : smach) : Prop := {
  li_len : length (cpus (lks m)) = length (harts m);
  li_small : Z.of_nat (length (locks (lks m))) < 2 ^ 30;
  li_cpu : ∀ h, (h < length (harts m))%nat → cpu_ok (cpu_at h (lks m)) (hart_at m h);
  li_held : ∀ h l, (h < length (harts m))%nat → l ∈ held (hart_at m h) ↔
      (l < length (locks (lks m)))%nat ∧ locked (lock_at l (lks m)) ≠ 0 ∧ lk_cpu (lock_at l (lks m)) = Some h;
  li_nodup : ∀ h, (h < length (harts m))%nat → NoDup (held (hart_at m h));
  li_spin : ∀ h l, (h < length (harts m))%nat → spin (hart_at m h) = Some l →
      (l < length (locks (lks m)))%nat ∧ (l ∉ held (hart_at m h));
  li_owner : ∀ l h, (l < length (locks (lks m)))%nat → locked (lock_at l (lks m)) ≠ 0 →
      lk_cpu (lock_at l (lks m)) = Some h → (h < length (harts m))%nat
}.

(** *** Laws of the updates *)

Lemma cpu_at_set h c s i :
  (h < length (cpus s))%nat → cpu_at i (set_cpu_at h c s) = if decide (i = h) then c else cpu_at i s.
Proof.
  intros Hh. unfold cpu_at, set_cpu_at; simpl. case_decide; [subst; by rewrite list_lookup_total_insert_eq|].
  by rewrite list_lookup_total_insert_ne.
Qed.

Lemma lock_at_set l k s i :
  (l < length (locks s))%nat → lock_at i (set_lock_at l k s) = if decide (i = l) then k else lock_at i s.
Proof.
  intros Hh. unfold lock_at, set_lock_at; simpl. case_decide; [subst; by rewrite list_lookup_total_insert_eq|].
  by rewrite list_lookup_total_insert_ne.
Qed.

Lemma hart_at_set h x s m i :
  (h < length (harts m))%nat → hart_at (set_hart h x s m) i = if decide (i = h) then x else hart_at m i.
Proof.
  intros Hh. unfold hart_at, set_hart; simpl. case_decide; [subst; by rewrite list_lookup_total_insert_eq|].
  by rewrite list_lookup_total_insert_ne.
Qed.

Lemma push_off_ok c x x' :
  cpu_ok c x → 0 ≤ depth x < 2 ^ 31 - 1 → depth x' = depth x + 1 → base x' = base x →
  wp push_off (λ _ c', cpu_ok c' x') c.
Proof.
  intros [Hn Hoff Hb] Hd Hd' Hb'. unfold push_off. wp_steps. simpl. rewrite Hn.
  destruct (Z.eqb_spec (depth x) 0) as [H0|H0]; wp_steps; split; simpl; rewrite ?s32_id by lia; try lia.
  - intros _. split; [done|]. unfold intr_get. rewrite Hb'. by apply Hb.
  - intros _. split; [done|]. rewrite Hb'. apply Hoff. lia.
Qed.

Lemma pop_off_ok c x x' :
  cpu_ok c x → 0 < depth x → depth x' = depth x - 1 → base x' = base x →
  wp pop_off (λ _ c', cpu_ok c' x') c.
Proof.
  intros [Hn Hoff Hb] Hd Hd' Hb'. destruct (Hoff Hd) as [Hs Hi]. unfold pop_off. wp_steps.
  unfold intr_get. rewrite Hs. wp_steps. rewrite Hn. destruct (Z.ltb_spec (depth x) 1); [lia|]. wp_steps.
  simpl. rewrite Hi. destruct (Z.eqb_spec (depth x - 1) 0) as [H0|H0]; [destruct (base x) eqn:E|];
    wp_steps; split; simpl; try lia.
  - by rewrite Hb'.
  - intros _. rewrite Hb'. done.
  - intros _. rewrite Hb', Hi. done.
Qed.

(** A hart never holds more locks than there are. *)
Lemma depth_bound m h : LInv m → (h < length (harts m))%nat → 0 ≤ depth (hart_at m h) ≤ 2 ^ 30.
Proof.
  intros HI Hh. assert (length (held (hart_at m h)) ≤ length (locks (lks m)))%nat as H.
  { apply (NoDup_length_bound _ _ (li_nodup _ HI h Hh)). apply Forall_forall.
    intros l Hl%(li_held _ HI); [|done]. apply Hl. }
  pose proof (li_small _ HI). unfold depth. destruct (spin _); lia.
Qed.

(** A step of hart [h] that leaves lock [l] as [k]. *)
Lemma LInv_update m h x' c' l k :
  LInv m → (h < length (harts m))%nat → (l < length (locks (lks m)))%nat →
  cpu_ok c' x' → NoDup (held x') → (∀ i, spin x' = Some i → (i < length (locks (lks m)))%nat ∧ (i ∉ held x')) →
  (∀ i, i ≠ l → i ∈ held x' ↔ i ∈ held (hart_at m h)) →
  (l ∈ held x' ↔ locked k ≠ 0 ∧ lk_cpu k = Some h) →
  (∀ i, (i < length (harts m))%nat → i ≠ h → l ∈ held (hart_at m i) ↔ locked k ≠ 0 ∧ lk_cpu k = Some i) →
  (∀ i, locked k ≠ 0 → lk_cpu k = Some i → (i < length (harts m))%nat) →
  LInv (set_hart h x' (set_lock_at l k (set_cpu_at h c' (lks m))) m).
Proof.
  intros [Hlen Hsm Hcpu Hheld Hnd Hspin Hown] Hh Hl Hc' Hnd' Hsp' Hh1 Hh2 Hh3 Ho'.
  assert (∀ i, lock_at i (set_lock_at l k (set_cpu_at h c' (lks m))) = if decide (i = l) then k else lock_at i (lks m)) as HL.
  { intros i. by rewrite lock_at_set. }
  split; simpl; rewrite ?length_insert; try done.
  - intros i Hi. rewrite hart_at_set by done. change (cpu_at i _) with (cpu_at i (set_cpu_at h c' (lks m))).
    rewrite cpu_at_set by lia. case_decide; [done|]. by apply Hcpu.
  - intros i j Hi. rewrite HL, hart_at_set by done. destruct (decide (j = l)) as [->|Hjl].
    + case_decide; [subst; rewrite Hh2; naive_solver|]. rewrite Hh3 by done. naive_solver.
    + case_decide; [subst; by rewrite Hh1, Hheld|]. by apply Hheld.
  - intros i Hi. rewrite hart_at_set by done. case_decide; [done|]. by apply Hnd.
  - intros i j Hi. rewrite hart_at_set by done. case_decide; [by apply Hsp'|]. by apply Hspin.
  - intros j i Hj. rewrite HL. case_decide; [by apply Ho'|]. by apply Hown.
Qed.

Lemma set_lock_same l s : (l < length (locks s))%nat → set_lock_at l (lock_at l s) s = s.
Proof.
  intros Hl. unfold set_lock_at, lock_at. destruct s as [c L]; simpl in *. f_equal.
  apply list_insert_id. destruct (lookup_lt_is_Some_2 _ _ Hl) as [x Hx]. by rewrite Hx, (lookup_total_Some _ _ _ Hx).
Qed.

Lemma set_hart_same h s m : (h < length (harts m))%nat → set_hart h (hart_at m h) s m = Smach s (harts m).
Proof.
  intros Hh. unfold set_hart, hart_at. f_equal. apply list_insert_id.
  destruct (lookup_lt_is_Some_2 _ _ Hh) as [x Hx]. by rewrite Hx, (lookup_total_Some _ _ _ Hx).
Qed.

Lemma set_cpu_same h s : (h < length (cpus s))%nat → set_cpu_at h (cpu_at h s) s = s.
Proof.
  intros Hl. unfold set_cpu_at, cpu_at. destruct s as [c L]; simpl in *. f_equal.
  apply list_insert_id. destruct (lookup_lt_is_Some_2 _ _ Hl) as [x Hx]. by rewrite Hx, (lookup_total_Some _ _ _ Hx).
Qed.

Lemma LInv_update_lock m h x' l k :
  LInv m → (h < length (harts m))%nat → (l < length (locks (lks m)))%nat →
  cpu_ok (cpu_at h (lks m)) x' → NoDup (held x') →
  (∀ i, spin x' = Some i → (i < length (locks (lks m)))%nat ∧ (i ∉ held x')) →
  (∀ i, i ≠ l → i ∈ held x' ↔ i ∈ held (hart_at m h)) →
  (l ∈ held x' ↔ locked k ≠ 0 ∧ lk_cpu k = Some h) →
  (∀ i, (i < length (harts m))%nat → i ≠ h → l ∈ held (hart_at m i) ↔ locked k ≠ 0 ∧ lk_cpu k = Some i) →
  (∀ i, locked k ≠ 0 → lk_cpu k = Some i → (i < length (harts m))%nat) →
  LInv (set_hart h x' (set_lock_at l k (lks m)) m).
Proof.
  intros HI Hh. rewrite <-(set_cpu_same h (lks m)) at 3 by (rewrite (li_len _ HI); done). by apply LInv_update.
Qed.

Lemma holding_held m h l :
  LInv m → (h < length (harts m))%nat → (l < length (locks (lks m)))%nat →
  holding h (lock_at l (lks m)) = bool_decide (l ∈ held (hart_at m h)).
Proof.
  intros HI Hh Hl. unfold holding. destruct (Z.eqb_spec (locked (lock_at l (lks m))) 0) as [E|E]; simpl.
  - rewrite bool_decide_false; [done|]. rewrite (li_held _ HI) by done. tauto.
  - apply bool_decide_ext. rewrite (li_held _ HI) by done. tauto.
Qed.

Lemma acquire_enter_ok m h l :
  LInv m → (h < length (harts m))%nat → (l < length (locks (lks m)))%nat → spin (hart_at m h) = None →
  (l ∉ held (hart_at m h)) →
  wp (acquire_enter h l)
     (λ _ s', LInv (set_hart h (Hart (held (hart_at m h)) (Some l) (base (hart_at m h))) s' m)) (lks m).
Proof.
  intros HI Hh Hl Hs Hnin. pose proof (depth_bound m h HI Hh) as Hd.
  unfold acquire_enter, on_cpu. apply wp_bind, wp_zoom. eapply wp_mono.
  2: { eapply (push_off_ok _ (hart_at m h) (Hart (held (hart_at m h)) (Some l) (base (hart_at m h)))).
       - by apply (li_cpu _ HI).
       - lia.
       - unfold depth. simpl. rewrite Hs. lia.
       - done. }
  intros [] c' Hc'. wp_steps. change (lock_at l (set_cpu_at h c' (lks m))) with (lock_at l (lks m)).
  rewrite (holding_held m) by done. rewrite bool_decide_false by done. wp_steps.
  rewrite <-(set_lock_same l (set_cpu_at h c' (lks m))) by done.
  apply LInv_update; try done; simpl.
  - by apply (li_nodup _ HI).
  - intros i [= <-]. done.
  - rewrite (li_held _ HI) by done. change (lock_at l (set_cpu_at h c' (lks m))) with (lock_at l (lks m)). tauto.
  - intros i Hi Hne. rewrite (li_held _ HI) by done. change (lock_at l (set_cpu_at h c' (lks m))) with (lock_at l (lks m)). tauto.
  - intros i. by apply (li_owner _ HI).
Qed.

Lemma acquire_tas_ok m h l :
  LInv m → (h < length (harts m))%nat → spin (hart_at m h) = Some l →
  wp (acquire_tas h l)
     (λ b s', b = (locked (lock_at l (lks m)) =? 0) ∧
        if b : bool then LInv (set_hart h (Hart (l :: held (hart_at m h)) None (base (hart_at m h))) s' m)
        else LInv (Smach s' (harts m))) (lks m).
Proof.
  intros HI Hh Hs. destruct (li_spin _ HI h l Hh Hs) as [Hl Hnin]. pose proof (li_len _ HI) as Hlen.
  pose proof (li_cpu _ HI h Hh) as Hc. unfold acquire_tas. wp_steps.
  destruct (Z.eqb_spec (locked (lock_at l (lks m))) 0) as [E|E]; wp_steps; (split; [done|]).
  - rewrite lock_at_set, decide_True by done. unfold set_lock_at at 1. simpl. rewrite list_insert_insert_eq.
    apply LInv_update_lock; try done; simpl.
    + destruct Hc as [Hc1 Hc2 Hc3]. unfold depth in *. simpl in *. rewrite Hs in *.
      split; unfold depth; simpl; [lia|intros _; apply Hc2; lia|lia].
    + apply NoDup_cons. split; [done|by apply (li_nodup _ HI)].
    + intros i Hi. rewrite elem_of_cons. naive_solver.
    + rewrite elem_of_cons. naive_solver.
    + intros i Hi Hne. rewrite (li_held _ HI) by done. naive_solver.
    + by intros i _ [= <-].
  - rewrite <-(set_hart_same h) by done. apply LInv_update_lock; try done; simpl.
    + by apply (li_nodup _ HI).
    + intros i. by apply (li_spin _ HI).
    + rewrite (li_held _ HI) by done. naive_solver.
    + intros i Hi Hne. rewrite (li_held _ HI) by done. naive_solver.
    + intros i _. by apply (li_owner _ HI).
Qed.

Lemma filter_ne_length (l : nat) (L : list nat) :
  NoDup L → l ∈ L → S (length (filter (.≠ l) L)) = length L.
Proof.
  induction L as [|x L IH]; [by intros _ ?%elem_of_nil|]. rewrite NoDup_cons, elem_of_cons, filter_cons.
  intros [Hx Hnd] [->|Hin].
  - rewrite decide_False by tauto. simpl. f_equal. f_equal. clear -Hx.
    induction L as [|y L IH]; [done|]. apply not_elem_of_cons in Hx as [? ?].
    rewrite filter_cons, decide_True by done. f_equal. auto.
  - rewrite decide_True by (by intros ->). simpl. f_equal. auto.
Qed.

Lemma release_ok m h l :
  LInv m → (h < length (harts m))%nat → spin (hart_at m h) = None → l ∈ held (hart_at m h) →
  wp (release h l)
     (λ _ s', LInv (set_hart h (Hart (filter (.≠ l) (held (hart_at m h))) None (base (hart_at m h))) s' m)) (lks m).
Proof.
  intros HI Hh Hs Hin. pose proof Hin as (Hl & Hk & Ho)%(li_held _ HI); [|done].
  pose proof (li_nodup _ HI h Hh) as Hnd. pose proof (filter_ne_length l _ Hnd Hin) as Hlen.
  unfold release. wp_steps. rewrite (holding_held m), bool_decide_true by done. simpl. wp_steps.
  rewrite lock_at_set, decide_True by done. simpl. unfold on_cpu. apply wp_zoom. eapply wp_mono.
  2: { eapply (pop_off_ok _ (hart_at m h) (Hart (filter (.≠ l) (held (hart_at m h))) None (base (hart_at m h)))).
       - by apply (li_cpu _ HI).
       - unfold depth. rewrite Hs. lia.
       - unfold depth. simpl. rewrite Hs. lia.
       - done. }
  intros [] c' Hc'. unfold set_cpu_at, set_lock_at at 1 2; simpl. rewrite list_insert_insert_eq.
  apply (LInv_update m h _ c' l (Spinlock 0 None)); try done; simpl.
  - by apply NoDup_filter.
  - intros i Hi. rewrite list_elem_of_filter. naive_solver.
  - rewrite list_elem_of_filter. naive_solver.
  - intros i Hi Hne. rewrite (li_held _ HI) by done. naive_solver.
Qed.

Lemma LInv_intr m h b :
  LInv m → (h < length (harts m))%nat → spin (hart_at m h) = None → held (hart_at m h) = [] →
  LInv (set_hart h (Hart [] None b) (set_cpu_at h (set_sie b (cpu_at h (lks m))) (lks m)) m).
Proof.
  intros [Hlen Hsm Hcpu Hheld Hnd Hspin Hown] Hh Hs He.
  split; simpl; rewrite ?length_insert; try done.
  - intros i Hi. rewrite hart_at_set by done. rewrite cpu_at_set by lia. case_decide; [|by apply Hcpu].
    destruct (Hcpu h Hh) as [H1 H2 H3]. split; simpl; try done. rewrite H1. unfold depth. by rewrite Hs, He.
  - intros i j Hi. rewrite hart_at_set by done. case_decide; [subst; simpl; rewrite <-Hheld, He by done; done|]. by apply Hheld.
  - intros i Hi. rewrite hart_at_set by done. case_decide; [constructor|]. by apply Hnd.
  - intros i j Hi. rewrite hart_at_set by done. case_decide; [done|]. by apply Hspin.
Qed.

Lemma LInv_step m m' : LInv m → lstep m m' → LInv m'.
Proof.
  intros HI Hstep. destruct Hstep as [h l s' Hh Hl Hs Ho|h l s' Hh Hs Ho|h l s' Hh Hs Ho|h l s' Hh Hs Hin Ho|h b Hh Hs He].
  - destruct (decide (l ∈ held (hart_at m h))) as [Hin|Hnin].
    + exfalso. revert Ho. unfold acquire_enter, on_cpu, zoom, mbind, M_bind.
      destruct (push_off (cpu_at h (lks m))) as [[] c'| | |]; try done. unfold gets.
      change (lock_at l (set_cpu_at h c' (lks m))) with (lock_at l (lks m)).
      rewrite (holding_held m), bool_decide_true by done. done.
    + exact (wp_run _ _ _ _ _ (acquire_enter_ok m h l HI Hh Hl Hs Hnin) Ho).
  - destruct (wp_run _ _ _ _ _ (acquire_tas_ok m h l HI Hh Hs) Ho) as [_ H]. exact H.
  - destruct (wp_run _ _ _ _ _ (acquire_tas_ok m h l HI Hh Hs) Ho) as [_ H]. exact H.
  - exact (wp_run _ _ _ _ _ (release_ok m h l HI Hh Hs Hin) Ho).
  - by apply LInv_intr.
Qed.

Lemma LInv_init nh nl : Z.of_nat nl < 2 ^ 30 → LInv (smach0 nh nl).
Proof.
  intros Hnl. unfold smach0.
  assert (∀ h, (h < nh)%nat → hart_at (smach0 nh nl) h = Hart [] None false) as Hh.
  { intros h Hh. unfold hart_at. simpl. by apply lookup_total_replicate_2. }
  assert (∀ l, (l < nl)%nat → lock_at l (lks (smach0 nh nl)) = initlock) as Hl.
  { intros h ?. unfold lock_at. simpl. by apply lookup_total_replicate_2. }
  split; simpl; rewrite ?length_replicate; try done.
  - intros h Hlt. rewrite Hh by done. unfold cpu_at. simpl. rewrite lookup_total_replicate_2 by done. by split.
  - intros h l Hlt. rewrite Hh by done. simpl. rewrite elem_of_nil. split; [done|].
    intros (Hll & H & _). by rewrite Hl in H.
  - intros h Hlt. rewrite Hh by done. constructor.
  - intros h l Hlt. by rewrite Hh by done.
  - intros l h Hlt. by rewrite Hl.
Qed.

Lemma LInv_steps m m' : LInv m → rtc lstep m m' → LInv m'.
Proof. intros HI Hs. induction Hs; eauto using LInv_step. Qed.

(** ** Theorems *)

(** C18. Spinlocks exclude each other: however the harts interleave their
    [acquire] loops and [release] calls, two harts never hold the same lock; a
    hart that holds or waits for a lock has its interrupts off, [noff] counts
    exactly the locks it holds plus the one it spins on, and when it holds none
    its interrupt flag is the one it had before it took the first. *)
Theorem spinlock_mutual_exclusion nh nl m
    (Hnl : Z.of_nat nl < 2 ^ 30) (Hr : rtc lstep (smach0 nh nl) m) :
  (∀ h1 h2 l, (h1 < length (harts m))%nat → (h2 < length (harts m))%nat →
     l ∈ held (hart_at m h1) → l ∈ held (hart_at m h2) → h1 = h2) ∧
  (∀ h, (h < length (harts m))%nat →
     noff (cpu_at h (lks m)) = depth (hart_at m h) ∧
     sie (cpu_at h (lks m)) = if depth (hart_at m h) =? 0 then base (hart_at m h) else false).
Proof.
  pose proof (LInv_steps _ _ (LInv_init nh nl Hnl) Hr) as HI. split.
  - intros h1 h2 l Hh1 Hh2 Hl1 Hl2. apply (li_held _ HI) in Hl1, Hl2; try done. naive_solver congruence.
  - intros h Hh. destruct (li_cpu _ HI h Hh) as [H1 H2 H3]. split; [done|].
    pose proof (depth_bound _ _ HI Hh). destruct (Z.eqb_spec (depth (hart_at m h)) 0); [by apply H3|].
    apply H2. lia.
Qed.

(** Hart 0 takes lock 1 while hart 1 spins on it. *)
Lemma two_harts : ∃ m, rtc lstep (smach0 2 2) m ∧ 1%nat ∈ held (hart_at m 0) ∧ spin (hart_at m 1) = Some 1%nat.
Proof.
  eexists. split; [|split].
  - eapply rtc_l; [eapply (ls_enter _ 0 1); [by apply Nat.ltb_lt|by apply Nat.ltb_lt|done|vm_compute; reflexivity]|].
    eapply rtc_l; [eapply (ls_acquired _ 0 1); [by apply Nat.ltb_lt|done|vm_compute; reflexivity]|].
    eapply rtc_l; [eapply (ls_enter _ 1 1); [by apply Nat.ltb_lt|by apply Nat.ltb_lt|done|vm_compute; reflexivity]|].
    eapply rtc_l; [eapply (ls_spin _ 1 1); [by apply Nat.ltb_lt|done|vm_compute; reflexivity]|]. apply rtc_refl.
  - by left.
  - done.
Qed.

Lemma spinlock_mutual_exclusion_witness :
  ∃ m, rtc lstep (smach0 2 2) m ∧ 1%nat ∈ held (hart_at m 0) ∧
    ∀ h, (h < length (harts m))%nat → 1%nat ∈ held (hart_at m h) → 0%nat = h.
Proof.
  destruct two_harts as (m & Hr & Hin & Hs). exists m. split; [exact Hr|]. split; [exact Hin|].
  intros h Hh Hh'. destruct (spinlock_mutual_exclusion 2 2 m eq_refl Hr) as [H _].
  apply (H 0%nat h 1%nat); [|exact Hh|exact Hin|exact Hh'].
  destruct (length (harts m)); [inversion Hh|]. apply Nat.lt_0_succ.
Defined.

(** The deadlock and misuse checks of spinlock.c are exact: with the lock
    discipline established, [acquire] panics exactly when the hart already
    holds the lock, and [release] panics exactly when it does not hold it; in
    the other cases both succeed. *)
Theorem spinlock_panics m h l
    (HI : LInv m) (Hh : (h < length (harts m))%nat) (Hl : (l < length (locks (lks m)))%nat)
    (Hs : spin (hart_at m h) = None) :
  (if decide (l ∈ held (hart_at m h)) then acquire_enter h l (lks m) = Panic "acquire"
   else ∃ s', acquire_enter h l (lks m) = Ok tt s') ∧
  (if decide (l ∈ held (hart_at m h)) then ∃ s', release h l (lks m) = Ok tt s'
   else release h l (lks m) = Panic "release").
Proof.
  pose proof (holding_held m h l HI Hh Hl) as Hhold. case_decide as Hin; split.
  - pose proof (depth_bound m h HI Hh) as Hd.
    pose proof (push_off_ok (cpu_at h (lks m)) (hart_at m h) (Hart (held (hart_at m h)) (Some l) (base (hart_at m h)))
      (li_cpu _ HI h Hh) ltac:(lia) ltac:(unfold depth; simpl; rewrite Hs; lia) eq_refl) as Hp.
    apply wp_ok in Hp as ([] & c' & Hp & _).
    unfold acquire_enter, on_cpu, zoom, mbind, M_bind. rewrite Hp. unfold gets.
    change (lock_at l (set_cpu_at h c' (lks m))) with (lock_at l (lks m)).
    by rewrite Hhold, bool_decide_true.
  - pose proof (release_ok m h l HI Hh Hs Hin) as H. apply wp_ok in H as ([] & s' & H & _). by exists s'.
  - pose proof (acquire_enter_ok m h l HI Hh Hl Hs Hin) as H. apply wp_ok in H as ([] & s' & H & _). by exists s'.
  - unfold release, mbind, M_bind, gets. by rewrite Hhold, bool_decide_false.
Qed.

Lemma spinlock_panics_witness :
  (0 < 2)%nat ∧ release 0 1 (lks (smach0 2 2)) = Panic "release".
Proof.
  split; [apply Nat.lt_0_succ|].
  pose proof (spinlock_panics (smach0 2 2) 0 1 (LInv_init 2 2 eq_refl)
    (Nat.lt_0_succ 1) (Nat.lt_succ_diag_r 1) eq_refl) as [_ H]. exact H.
Defined.
