(* ===== verification/Sync.v ===== *)
(** * Sleep locks, semaphores and reader-writer locks
      (kernel/sleeplock.c, kernel/semaphore.c, kernel/rwlock.c)

    Each of these objects is a few integers under a spinlock, with waiting by
    [while(busy) sleep(obj, &obj->lock)] and a [wakeup(obj)] that makes every
    sleeper test again.  A function is translated to code that ends in
    [Blocked] when it goes to sleep; the part that runs after the wakeup is a
    function of its own (the loop).  Threads running these functions in any
    order form a step relation; what the objects promise are its invariants.
    With [lossy] the relation lets sleepers miss a wakeup, as happens when an
    interrupt falls in the window of [sleep]. *)

From S2P Require Import Prelude Proc.

(** ** The functions *)

(** An object with the [wakeup] calls made on it. *)
Record mon (O : Type) := Mon { obj : O; woke : bool }.
Arguments Mon {O} obj woke.
Arguments obj {O} m.
Arguments woke {O} m.

Definition upd {O} (f : O → O) : M (mon O) unit := modify (λ m, Mon (f (obj m)) (woke m)).
Definition see {O A} (f : O → A) : M (mon O) A := gets (λ m, f (obj m)).
(** [wakeup(obj)]. *)
Definition wakeup_obj {O} : M (mon O) unit := modify (λ m, Mon (obj m) true).

(** *** sleeplock.c: [struct sleeplock] without its spinlock and name *)

Record sleeplock := Sleeplock { sl_locked : Z; sl_pid : Z }.

Definition initsleeplock : sleeplock := Sleeplock 0 0.

(** The loop of [acquiresleep], run by the process with this pid. *)
Definition acquiresleep_loop (mypid : Z) : M (mon sleeplock) unit :=
  l ← see sl_locked;
  if negb (l =? 0) then block
  else upd (λ k, Sleeplock 1 (sl_pid k));; upd (λ k, Sleeplock (sl_locked k) mypid).

Definition acquiresleep (mypid : Z) : M (mon sleeplock) unit := acquiresleep_loop mypid.

Definition releasesleep : M (mon sleeplock) unit :=
  upd (λ k, Sleeplock 0 (sl_pid k));; upd (λ k, Sleeplock (sl_locked k) 0);; wakeup_obj.

Definition holdingsleep (mypid : Z) (k : sleeplock) : bool :=
  negb (sl_locked k =? 0) && (sl_pid k =? mypid).

(** *** semaphore.c: [sem_table], the values *)

Definition MAXSEM : Z := 32.

Definition sem_table_init : list Z := replicate (Z.to_nat MAXSEM) 0.

Definition sem_ok (id : Z) : bool := negb ((id <? 0) || (MAXSEM <=? id)).

Definition sem_value (id : Z) (t : list Z) : Z := t !!! Z.to_nat id.
Definition set_sem (id v : Z) (t : list Z) : list Z := <[Z.to_nat id := v]> t.

Definition sem_init_k (id value : Z) : M (mon (list Z)) unit :=
  if sem_ok id then upd (set_sem id value) else mret tt.

Definition sem_wait_loop (id : Z) : M (mon (list Z)) unit :=
  v ← see (sem_value id);
  if v =? 0 then block else upd (set_sem id (s32 (v - 1))).

Definition sem_wait_k (id : Z) : M (mon (list Z)) unit :=
  if sem_ok id then sem_wait_loop id else mret tt.

Definition sem_signal_k (id : Z) : M (mon (list Z)) unit :=
  if sem_ok id then
    v ← see (sem_value id);
    upd (set_sem id (s32 (v + 1)));; wakeup_obj
  else mret tt.

(** *** rwlock.c: [rw_table] *)

Definition MAXRW : Z := 32.

Record rwlock := Rwlock { readers : Z; writer : Z; waiting_writers : Z }.

#[export] Instance rwlock_inhabited : Inhabited rwlock := populate (Rwlock 0 0 0).
#[export] Instance rwlock_eq_dec : EqDecision rwlock.
Proof. solve_decision. Defined.

Definition rw_table_init : list rwlock := replicate (Z.to_nat MAXRW) (Rwlock 0 0 0).

Definition rw_ok (id : Z) : bool := negb ((id <? 0) || (MAXRW <=? id)).

Definition rw_at (id : Z) (t : list rwlock) : rwlock := t !!! Z.to_nat id.
Definition upd_rw (id : Z) (f : rwlock → rwlock) : M (mon (list rwlock)) unit :=
  upd (λ t, <[Z.to_nat id := f (rw_at id t)]> t).

Definition rw_init_k (id : Z) : M (mon (list rwlock)) unit :=
  if rw_ok id then upd_rw id (λ _, Rwlock 0 0 0) else mret tt.

Definition rw_rlock_loop (id : Z) : M (mon (list rwlock)) unit :=
  w ← see (rw_at id);
  if negb (writer w =? 0) || (0 <? waiting_writers w) then block
  else upd_rw id (λ w, Rwlock (s32 (readers w + 1)) (writer w) (waiting_writers w)).

Definition rw_rlock_k (id : Z) : M (mon (list rwlock)) unit :=
  if rw_ok id then rw_rlock_loop id else mret tt.

Definition rw_runlock_k (id : Z) : M (mon (list rwlock)) unit :=
  if rw_ok id then
    upd_rw id (λ w, Rwlock (s32 (readers w - 1)) (writer w) (waiting_writers w));;
    w ← see (rw_at id);
    if readers w =? 0 then wakeup_obj else mret tt
  else mret tt.

Definition rw_wlock_loop (id : Z) : M (mon (list rwlock)) unit :=
  w ← see (rw_at id);
  if negb (writer w =? 0) || (0 <? readers w) then block
  else
    upd_rw id (λ w, Rwlock (readers w) (writer w) (s32 (waiting_writers w - 1)));;
    upd_rw id (λ w, Rwlock (readers w) 1 (waiting_writers w)).

Definition rw_wlock_k (id : Z) : M (mon (list rwlock)) unit :=
  if rw_ok id then
    upd_rw id (λ w, Rwlock (readers w) (writer w) (s32 (waiting_writers w + 1)));;
    rw_wlock_loop id
  else mret tt.

Definition rw_wunlock_k (id : Z) : M (mon (list rwlock)) unit :=
  if rw_ok id then
    upd_rw id (λ w, Rwlock (readers w) 0 (waiting_writers w));; wakeup_obj
  else mret tt.

(** ** Threads using one object *)

(** The functions of one object as operations of a client: [start] is the
    call, [resume] the loop after a wakeup; [ghost] is what the client knows it
    holds, [allowed] its discipline, [after] the effect of a completed call. *)
Class Monitor (O : Type) := {
  op : Type;
  ghost : Type;
  start : op → M (mon O) unit;
  resume : op → M (mon O) unit;
  allowed : op → ghost → O → Prop;
  after : op → ghost → ghost
}.

Section threads.
Context {O : Type} {Mo : Monitor O}.

Inductive tstate : Type :=
  | TRun                 (** not inside a call *)
  | TSleep (o : op)      (** asleep on the object *)
  | TReady (o : op).     (** woken, about to test again *)

Record tmach := Tmach { tobj : O; thr : list (tstate * ghost) }.

(** The effect of [wakeup(obj)] on the other threads. *)
Definition wake_thread (x : tstate * ghost) : tstate * ghost :=
  match x.1 with TSleep o => (TReady o, x.2) | _ => x end.

(** The threads after a piece of code that called [wakeup] or did not; with
    [lossy] sleepers may miss it. *)
Definition wake_all (lossy b : bool) (l l' : list (tstate * ghost)) : Prop :=
  wakes lossy (if b then wake_thread else id) l l'.

(** Running a piece of code by thread [t] on behalf of [o]. *)
Inductive runs (lossy : bool) (m : tmach) (t : nat) (o : op) (g : ghost) (code : M (mon O) unit) : tmach → Prop :=
  | runs_done s' l :
      code (Mon (tobj m) false) = Ok tt s' → wake_all lossy (woke s') (thr m) l →
      runs lossy m t o g code (Tmach (obj s') (<[t := (TRun, after o g)]> l))
  | runs_sleep s' l :
      code (Mon (tobj m) false) = Blocked s' → wake_all lossy (woke s') (thr m) l →
      runs lossy m t o g code (Tmach (obj s') (<[t := (TSleep o, g)]> l)).

Inductive tstep (lossy : bool) (m : tmach) : tmach → Prop :=
  | t_call t o g m' :
      thr m !! t = Some (TRun, g) → allowed o g (tobj m) → runs lossy m t o g (start o) m' → tstep lossy m m'
  | t_resume t o g m' :
      thr m !! t = Some (TReady o, g) → runs lossy m t o g (resume o) m' → tstep lossy m m'
  | t_spurious t o g :   (** [kill] *)
      thr m !! t = Some (TSleep o, g) → tstep lossy m (Tmach (tobj m) (<[t := (TReady o, g)]> (thr m))).

(** Counting threads. *)
Definition tcount (P : tstate * ghost → bool) (l : list (tstate * ghost)) : Z :=
  Z.of_nat (length (filter (λ x, P x = true) l)).

Lemma tcount_insert P l t x y :
  l !! t = Some x →
  tcount P (<[t := y]> l) = tcount P l - (if P x then 1 else 0) + (if P y then 1 else 0).
Proof.
  intros Hx. unfold tcount. rewrite <-(take_drop_middle l t x Hx) at 2.
  rewrite insert_take_drop by (by eapply lookup_lt_Some). rewrite !filter_app, !filter_cons, !length_app.
  destruct (P x), (P y); simpl; lia.
Qed.

Lemma tcount_wake P lossy b l l' : (∀ x, P (wake_thread x) = P x) → wake_all lossy b l l' → tcount P l' = tcount P l.
Proof.
  intros HP Hw. unfold tcount. f_equal. induction Hw as [|x y l l' Hy _ IH]; [done|]. rewrite !filter_cons.
  assert (P y = P x) as -> by (destruct Hy as [->|[_ ->]]; [by destruct b|done]). case_decide; simpl; lia.
Qed.

Lemma tcount_pos P l x : x ∈ l → P x = true → 0 < tcount P l.
Proof.
  intros Hx HP. unfold tcount. assert (x ∈ filter (λ x, P x = true) l) as H by (by apply list_elem_of_filter).
  destruct (filter _ l); [by apply elem_of_nil in H|]. simpl. lia.
Qed.

Lemma tcount_ex P l : 0 < tcount P l → ∃ t x, l !! t = Some x ∧ P x = true.
Proof.
  unfold tcount. intros H. destruct (filter (λ x, P x = true) l) as [|x l'] eqn:E; [simpl in H; lia|].
  assert (x ∈ filter (λ x, P x = true) l) as [HP Hx]%list_elem_of_filter by (rewrite E; by left).
  apply list_elem_of_lookup_1 in Hx as [t Hx]. eauto.
Qed.

Lemma tcount_two P l t1 t2 x1 x2 :
  l !! t1 = Some x1 → l !! t2 = Some x2 → t1 ≠ t2 → P x1 = true → P x2 = true → 2 ≤ tcount P l.
Proof.
  intros H1 H2 Hne HP1 HP2. unfold tcount. rewrite <-(take_drop_middle l t1 x1 H1), filter_app, filter_cons, length_app.
  rewrite decide_True by done. simpl.
  assert (x2 ∈ filter (λ x, P x = true) (take t1 l) ∨ x2 ∈ filter (λ x, P x = true) (drop (S t1) l)) as Hin.
  { rewrite !list_elem_of_filter. destruct (decide (t2 < t1)%nat).
    - left. split; [done|]. apply (list_elem_of_lookup_2 _ t2). by rewrite lookup_take_lt.
    - right. split; [done|]. apply (list_elem_of_lookup_2 _ (t2 - S t1)). rewrite lookup_drop. by replace (S t1 + (t2 - S t1))%nat with t2 by lia. }
  destruct Hin as [Hin|Hin]; destruct (filter _ _); (by apply elem_of_nil in Hin) || (simpl; lia).
Qed.

Lemma tcount_nonneg P l : 0 ≤ tcount P l.
Proof. unfold tcount. lia. Qed.

Lemma tcount_bound P l : tcount P l ≤ Z.of_nat (length l).
Proof. unfold tcount. pose proof (length_filter (λ x, P x = true) l). lia. Qed.

(** A count is strictly below the number of threads when one is left out. *)
Lemma tcount_lt P l t x : l !! t = Some x → P x = false → tcount P l < Z.of_nat (length l).
Proof.
  intros Hx HP. unfold tcount. rewrite <-(take_drop_middle l t x Hx), filter_app, filter_cons, !length_app.
  rewrite decide_False by congruence. simpl.
  pose proof (length_filter (λ x, P x = true) (take t l)). pose proof (length_filter (λ x, P x = true) (drop (S t) l)). lia.
Qed.

(** No wakeup. *)
Lemma wake_none lossy l l' : wake_all lossy false l l' → l' = l.
Proof. by apply wakes_id. Qed.

(** Where a thread that is inside a call after a wakeup comes from. *)
Lemma wake_inside lossy b l l' t o g : wake_all lossy b l l' →
  l' !! t = Some (TSleep o, g) ∨ l' !! t = Some (TReady o, g) → l !! t = Some (TSleep o, g) ∨ l !! t = Some (TReady o, g).
Proof.
  intros Hw [H|H]; destruct (wakes_lookup _ _ _ _ Hw H) as ([x g'] & Hx & [Hy|[_ Hy]]); destruct b, x; cbn in Hy; try done; injection Hy as -> ->; auto.
Qed.

Lemma wake_asleep lossy b l l' t o g : wake_all lossy b l l' → l' !! t = Some (TSleep o, g) →
  l !! t = Some (TSleep o, g) ∧ (lossy = false → b = false).
Proof.
  intros Hw H. destruct (wakes_lookup _ _ _ _ Hw H) as ([x g'] & Hx & [Hy|[Hl Hy]]); destruct b, x; cbn in Hy; try done; injection Hy as -> ->; by rewrite ?Hl.
Qed.

Lemma wake_run lossy b l l' t g : wake_all lossy b l l' → l !! t = Some (TRun, g) → l' !! t = Some (TRun, g).
Proof. intros Hw. apply (wakes_awake _ _ _ _ Hw). by destruct b. Qed.

Lemma wake_all_insert lossy b l l' t x : wake_all lossy b l l' →
  wake_all lossy b (<[t := x]> l) (<[t := (if b then wake_thread else id) x]> l').
Proof. intros Hw. apply Forall2_insert; [done|by left]. Qed.

(** A thread that has left its call is not among those inside one. *)
Lemma insert_inside (l : list (tstate * ghost)) t g t' o' g' :
  <[t := (TRun, g)]> l !! t' = Some (TSleep o', g') ∨ <[t := (TRun, g)]> l !! t' = Some (TReady o', g') →
  l !! t' = Some (TSleep o', g') ∨ l !! t' = Some (TReady o', g').
Proof. rewrite !list_lookup_insert_Some. naive_solver. Qed.

End threads.
Arguments tstate _ {Mo}.
Arguments tmach _ {Mo}.

(** ** Sleep locks *)

Inductive slop : Type := SAcquire (mypid : Z) | SRelease.

#[export] Instance sleeplock_monitor : Monitor sleeplock := {
  op := slop;
  ghost := bool;
  start o := match o with SAcquire p => acquiresleep p | SRelease => releasesleep end;
  resume o := match o with SAcquire p => acquiresleep_loop p | SRelease => mret tt end;
  allowed o g _ := match o with SAcquire _ => g = false | SRelease => g = true end;
  after o _ := match o with SAcquire _ => true | SRelease => false end
}.

Definition holds_sl (x : tstate sleeplock * ghost) : bool := x.2.

Record SlInv (lossy : bool) (m : tmach sleeplock) : Prop := {
  sl_count : tcount holds_sl (thr m) = sl_locked (tobj m);
  sl_one : sl_locked (tobj m) = 0 ∨ sl_locked (tobj m) = 1;
  sl_sleep : lossy = false → ∀ t o g, thr m !! t = Some (TSleep o, g) → sl_locked (tobj m) = 1;
  sl_calls : ∀ t o g, thr m !! t = Some (TSleep o, g) ∨ thr m !! t = Some (TReady o, g) →
               g = false ∧ ∃ p, o = SAcquire p
}.

Lemma SlInv_acquire lossy m t o p (g : ghost) m' :
  SlInv lossy m → o = SAcquire p → g = false → (∃ x, thr m !! t = Some (x, g)) →
  runs lossy m t o g (acquiresleep_loop p) m' → SlInv lossy m'.
Proof.
  intros [Hc Hone Hs Hcall] -> -> [x Hx] Hrun.
  assert (thr m !! t = Some (x, false)) as Hx' by done.
  destruct Hrun as [s' l Hcode Hw|s' l Hcode Hw]; revert Hcode Hw; unfold acquiresleep_loop, see, upd, mbind, M_bind, gets, modify; simpl;
    destruct (Z.eqb_spec (sl_locked (tobj m)) 0) as [E|E]; simpl; try done; intros [= <-] ->%wake_none; simpl; split; simpl.
  - rewrite (tcount_insert _ _ _ _ _ Hx). simpl. lia.
  - by right.
  - intros _ t' o' g' _. done.
  - intros t' o' g'. rewrite !list_lookup_insert_Some. naive_solver.
  - rewrite (tcount_insert _ _ _ _ _ Hx). simpl. lia.
  - done.
  - intros _ t' o' g' _. lia.
  - intros t' o' g'. rewrite !list_lookup_insert_Some. naive_solver.
Qed.

Lemma SlInv_release lossy m t m' :
  SlInv lossy m → thr m !! t = Some (TRun, true) → runs lossy m t SRelease true releasesleep m' → SlInv lossy m'.
Proof.
  intros [Hc Hone Hs Hcall] Ht Hrun. destruct Hrun as [s' l Hcode Hw|s' l Hcode Hw]; [|done]. revert Hcode Hw.
  unfold releasesleep, upd, wakeup_obj, mbind, M_bind, modify; simpl. intros [= <-] Hw; simpl in *.
  pose proof (tcount_pos holds_sl (thr m) _ (list_elem_of_lookup_2 _ _ _ Ht) eq_refl).
  pose proof (wake_run _ _ _ _ _ _ Hw Ht) as Ht'. split; simpl.
  - rewrite (tcount_insert holds_sl _ _ _ _ Ht'), (tcount_wake holds_sl _ _ _ _ ltac:(by intros [[] []]) Hw). simpl. lia.
  - by left.
  - intros E t' o' g' Hi. apply list_lookup_insert_Some in Hi as [(_ & [=] & _)|[_ Hi]].
    by destruct (wake_asleep _ _ _ _ _ _ _ Hw Hi) as [_ ?%(λ f, f E)].
  - intros t' o' g' Hi. exact (Hcall _ _ _ (wake_inside _ _ _ _ _ _ _ Hw (insert_inside l t _ _ _ _ Hi))).
Qed.

Lemma SlInv_step lossy m m' : SlInv lossy m → tstep lossy m m' → SlInv lossy m'.
Proof.
  intros HI Hstep. destruct Hstep as [t o g m' Ht Hal Hrun|t o g m' Ht Hrun|t o g Ht].
  - destruct o as [p|]; simpl in Hal, Hrun; [by eapply SlInv_acquire; eauto|]. subst. by eapply SlInv_release.
  - destruct (sl_calls _ _ HI t o g (or_intror Ht)) as [-> [p ->]]. simpl in *. eapply SlInv_acquire; eauto.
  - destruct HI as [Hc Hone Hs Hcall]. split; simpl.
    + rewrite (tcount_insert _ _ _ _ _ Ht). simpl. rewrite Hc. destruct g; simpl; lia.
    + done.
    + intros E t' o' g'. rewrite list_lookup_insert_Some. intros [(_ & [=] & _)|[_ H]]. by eapply Hs.
    + intros t' o' g'. rewrite !list_lookup_insert_Some. naive_solver.
Qed.

Definition sl_mach0 (n : nat) : tmach sleeplock := Tmach initsleeplock (replicate n (TRun, false)).

Lemma SlInv_init lossy n : SlInv lossy (sl_mach0 n).
Proof.
  split; simpl; [|by left|..].
  - unfold tcount. induction n; [done|]. simpl. done.
  - by intros _ t o g [??]%lookup_replicate.
  - intros t o g [[??]%lookup_replicate|[??]%lookup_replicate]; done.
Qed.

Lemma SlInv_steps lossy m m' : SlInv lossy m → rtc (tstep lossy) m m' → SlInv lossy m'.
Proof. intros HI Hs. induction Hs; eauto using SlInv_step. Qed.

(** ** Semaphores *)

Inductive semop : Type := SWait | SSignal.

(** Clients of semaphore [id]; the ghost is the number of units a thread has
    taken minus the number it has returned. *)
Definition sem_monitor (id : Z) : Monitor (list Z) := {|
  op := semop;
  ghost := Z;
  start o := match o with SWait => sem_wait_k id | SSignal => sem_signal_k id end;
  resume o := match o with SWait => sem_wait_loop id | SSignal => mret tt end;
  allowed o _ t := match o with SWait => True | SSignal => sem_value id t < 2 ^ 31 - 1 end;
  after o g := match o with SWait => g + 1 | SSignal => g - 1 end
|}.

Section semaphore.
Context (id : Z) (Hid : 0 ≤ id < MAXSEM).
Local Existing Instance sem_monitor.
Notation mach := (@tmach (list Z) (sem_monitor id)).

Definition taken (l : list (@tstate (list Z) (sem_monitor id) * Z)) : Z := foldr (λ x, Z.add x.2) 0 l.

Lemma taken_insert l t x y : l !! t = Some x → taken (<[t := y]> l) = taken l - x.2 + y.2.
Proof.
  unfold taken. revert t. induction l as [|z l IH]; intros [|t] Ht; simplify_eq/=; [lia|]. rewrite (IH t) by done. lia.
Qed.

Lemma taken_wake lossy b l l' : @wake_all (list Z) (sem_monitor id) lossy b l l' → taken l' = taken l.
Proof.
  intros Hw. unfold taken. induction Hw as [|x y l l' Hy _ IH]; [done|]. cbn [foldr]. rewrite IH. f_equal.
  destruct Hy as [->|[_ ->]]; [|done]. by destruct b, x as [[] ?].
Qed.

Record SemInv (lossy : bool) (v0 : Z) (m : mach) : Prop := {
  sem_len : length (tobj m) = Z.to_nat MAXSEM;
  sem_bal : sem_value id (tobj m) + taken (thr m) = v0;
  sem_range : 0 ≤ sem_value id (tobj m) < 2 ^ 31;
  sem_sleep : lossy = false → ∀ t o g, thr m !! t = Some (TSleep o, g) → sem_value id (tobj m) = 0;
  sem_calls : ∀ t o g, thr m !! t = Some (TSleep o, g) ∨ thr m !! t = Some (TReady o, g) → o = SWait
}.

Lemma sem_id_ok : sem_ok id = true.
Proof. unfold sem_ok. destruct (Z.ltb_spec id 0), (Z.leb_spec MAXSEM id); simpl; lia. Qed.

Lemma sem_value_set v t : length t = Z.to_nat MAXSEM → sem_value id (set_sem id v t) = v.
Proof. intros Hl. unfold sem_value, set_sem. apply list_lookup_total_insert_eq. rewrite Hl. lia. Qed.

Lemma SemInv_wait lossy v0 (m : mach) t g m' :
  SemInv lossy v0 m → (∃ x, thr m !! t = Some (x, g)) → runs lossy m t SWait g (sem_wait_loop id) m' → SemInv lossy v0 m'.
Proof.
  intros [Hl Hb Hr Hs Hcall] [x Hx] Hrun.
  destruct Hrun as [s' l Hcode Hw|s' l Hcode Hw]; revert Hcode Hw; unfold sem_wait_loop, see, upd, mbind, M_bind, gets, modify; simpl;
    destruct (Z.eqb_spec (sem_value id (tobj m)) 0) as [E|E]; simpl; try done; intros [= <-] ->%wake_none; simpl; split; simpl.
  - unfold set_sem. by rewrite length_insert.
  - rewrite sem_value_set by done. rewrite (taken_insert _ _ _ _ Hx). simpl. rewrite s32_id by lia. lia.
  - rewrite sem_value_set by done. rewrite s32_id; lia.
  - intros El t' o' g'. rewrite list_lookup_insert_Some. intros [(? & [=] & ?)|(_ & H%(Hs El))]. lia.
  - intros t' o' g'. rewrite !list_lookup_insert_Some. naive_solver.
  - done.
  - rewrite (taken_insert _ _ _ _ Hx). simpl. lia.
  - lia.
  - intros _ t' o' g' _. done.
  - intros t' o' g'. rewrite !list_lookup_insert_Some. naive_solver.
Qed.

Lemma SemInv_signal lossy v0 (m : mach) t g m' :
  SemInv lossy v0 m → thr m !! t = Some (TRun, g) → sem_value id (tobj m) < 2 ^ 31 - 1 →
  runs lossy m t SSignal g (sem_signal_k id) m' → SemInv lossy v0 m'.
Proof.
  intros [Hl Hb Hr Hs Hcall] Ht Hal Hrun. unfold sem_signal_k in Hrun. rewrite sem_id_ok in Hrun.
  destruct Hrun as [s' l Hcode Hw|s' l Hcode Hw]; [|done]. revert Hcode Hw.
  unfold see, upd, wakeup_obj, mbind, M_bind, modify, gets; simpl. intros [= <-] Hw; simpl in *.
  pose proof (wake_run _ _ _ _ _ _ Hw Ht) as Ht'. split; simpl.
  - unfold set_sem. by rewrite length_insert.
  - rewrite (taken_insert _ _ _ _ Ht'), (taken_wake _ _ _ _ Hw), sem_value_set, s32_id by (done || lia). simpl. lia.
  - rewrite sem_value_set, s32_id by (done || lia). lia.
  - intros E t' o' g' Hi. apply list_lookup_insert_Some in Hi as [(_ & [=] & _)|[_ Hi]].
    by destruct (wake_asleep _ _ _ _ _ _ _ Hw Hi) as [_ ?%(λ f, f E)].
  - intros t' o' g' Hi. exact (Hcall _ _ _ (wake_inside _ _ _ _ _ _ _ Hw (insert_inside l t _ _ _ _ Hi))).
Qed.

Lemma SemInv_step lossy v0 (m m' : mach) : SemInv lossy v0 m → tstep lossy m m' → SemInv lossy v0 m'.
Proof.
  intros HI Hstep. destruct Hstep as [t o g m' Ht Hal Hrun|t o g m' Ht Hrun|t o g Ht].
  - destruct o; simpl in Hal, Hrun; [|by eapply SemInv_signal].
    unfold sem_wait_k in Hrun. rewrite sem_id_ok in Hrun. eapply SemInv_wait; eauto.
  - pose proof (sem_calls _ _ _ HI t o g (or_intror Ht)) as ->. simpl in *. eapply SemInv_wait; eauto.
  - destruct HI as [Hl Hb Hr Hs Hcall]. split; simpl; try done.
    + rewrite (taken_insert _ _ _ _ Ht). simpl. lia.
    + intros E t' o' g'. rewrite list_lookup_insert_Some. intros [(_ & [=] & _)|[_ H]]. by eapply Hs.
    + intros t' o' g'. rewrite !list_lookup_insert_Some. naive_solver.
Qed.

(** Semaphore [id] initialised to [v0], [n] threads. *)
Definition sem_mach0 (v0 : Z) (n : nat) : mach :=
  @Tmach (list Z) (sem_monitor id) (set_sem id v0 sem_table_init) (replicate n (@TRun _ (sem_monitor id), 0)).

Lemma SemInv_init lossy v0 n : 0 ≤ v0 < 2 ^ 31 → SemInv lossy v0 (sem_mach0 v0 n).
Proof.
  intros Hv. split; simpl.
  - unfold set_sem. by rewrite length_insert.
  - rewrite sem_value_set by done. assert (taken (replicate n (@TRun _ (sem_monitor id), 0)) = 0) as ->; [|lia].
    unfold taken. induction n; simpl; lia.
  - by rewrite sem_value_set.
  - by intros _ t o g [??]%lookup_replicate.
  - intros t o g [[??]%lookup_replicate|[??]%lookup_replicate]; done.
Qed.

Lemma SemInv_steps lossy v0 (m m' : mach) : SemInv lossy v0 m → rtc (tstep lossy) m m' → SemInv lossy v0 m'.
Proof. intros HI Hs. induction Hs; eauto using SemInv_step. Qed.
End semaphore.

(** ** Reader-writer locks *)

Inductive rwop : Type := RLock | RUnlock | WLock | WUnlock.
Inductive rwhold : Type := HNone | HRead | HWrite.

Definition rw_monitor (id : Z) : Monitor (list rwlock) := {|
  op := rwop;
  ghost := rwhold;
  start o := match o with RLock => rw_rlock_k id | RUnlock => rw_runlock_k id
                        | WLock => rw_wlock_k id | WUnlock => rw_wunlock_k id end;
  resume o := match o with RLock => rw_rlock_loop id | WLock => rw_wlock_loop id | _ => mret tt end;
  allowed o g _ := match o with RLock | WLock => g = HNone | RUnlock => g = HRead | WUnlock => g = HWrite end;
  after o _ := match o with RLock => HRead | WLock => HWrite | _ => HNone end
|}.

Section rwlock.
Context (id : Z) (Hid : 0 ≤ id < MAXRW).
Local Existing Instance rw_monitor.
Notation mach := (@tmach (list rwlock) (rw_monitor id)).
Notation thread := (@tstate (list rwlock) (rw_monitor id) * @ghost (list rwlock) (rw_monitor id))%type.

Definition is_read (x : thread) : bool := match (x.2 : rwhold) with HRead => true | _ => false end.
Definition is_write (x : thread) : bool := match (x.2 : rwhold) with HWrite => true | _ => false end.
(** Inside [rw_wlock_k], asleep or about to test again. *)
Definition is_waiting (x : thread) : bool :=
  match x.1 with TSleep WLock | TReady WLock => true | _ => false end.

(** The fields of lock [id] against what the threads hold. *)
Record rw_counts (w : rwlock) (l : list thread) : Prop := {
  rc_readers : readers w = tcount is_read l;
  rc_writer : writer w = tcount is_write l;
  rc_waiting : waiting_writers w = tcount is_waiting l;
  rc_excl : writer w = 0 ∨ (writer w = 1 ∧ readers w = 0)
}.

(** Why a sleeping thread sleeps. *)
Definition rw_blocked (w : rwlock) (o : rwop) : Prop :=
  match o with
  | RLock => writer w ≠ 0 ∨ 0 < waiting_writers w
  | WLock => writer w ≠ 0 ∨ 0 < readers w
  | _ => False
  end.

Record RwInv (lossy : bool) (m : mach) : Prop := {
  rw_len : length (tobj m) = Z.to_nat MAXRW;
  rw_small : Z.of_nat (length (thr m)) < 2 ^ 31;
  rw_cnt : rw_counts (rw_at id (tobj m)) (thr m);
  rw_sleep : lossy = false → ∀ t o g, thr m !! t = Some (TSleep o, g) → rw_blocked (rw_at id (tobj m)) o;
  rw_calls : ∀ t o g, thr m !! t = Some (TSleep o, g) ∨ thr m !! t = Some (TReady o, g) →
               g = HNone ∧ (o = RLock ∨ o = WLock)
}.

Lemma rw_id_ok : rw_ok id = true.
Proof. unfold rw_ok. destruct (Z.ltb_spec id 0), (Z.leb_spec MAXRW id); simpl; lia. Qed.

Lemma rw_at_set w t : length t = Z.to_nat MAXRW → rw_at id (<[Z.to_nat id := w]> t) = w.
Proof. intros Hl. unfold rw_at. apply list_lookup_total_insert_eq. rewrite Hl. lia. Qed.

Lemma rw_at_id t : length t = Z.to_nat MAXRW → <[Z.to_nat id := rw_at id t]> t = t.
Proof.
  intros Hl. apply list_insert_id. assert (Z.to_nat id < length t)%nat as Hlt by (rewrite Hl; lia).
  destruct (lookup_lt_is_Some_2 _ _ Hlt) as [w Hw]. unfold rw_at. by rewrite Hw, (lookup_total_Some _ _ _ Hw).
Qed.

(** The effect of a finished call by thread [t] on the counts. *)
Lemma rw_counts_insert w w' l t x y :
  rw_counts w l → l !! t = Some x →
  readers w' = readers w - (if is_read x then 1 else 0) + (if is_read y then 1 else 0) →
  writer w' = writer w - (if is_write x then 1 else 0) + (if is_write y then 1 else 0) →
  waiting_writers w' = waiting_writers w - (if is_waiting x then 1 else 0) + (if is_waiting y then 1 else 0) →
  (writer w' = 0 ∨ (writer w' = 1 ∧ readers w' = 0)) →
  rw_counts w' (<[t := y]> l).
Proof.
  intros [H1 H2 H3 H4] Hx Hr Hw Hq He.
  split; rewrite ?(tcount_insert _ _ _ _ _ Hx); congruence || done.
Qed.

Lemma rw_counts_wake lossy b w (l l' : list thread) :
  @wake_all _ (rw_monitor id) lossy b l l' → rw_counts w l → rw_counts w l'.
Proof.
  intros Hw [H1 H2 H3 H4].
  assert (∀ P, (∀ x, P (wake_thread x) = P x) → tcount P l' = tcount P l) as E by (intros P HP; exact (tcount_wake P _ _ _ _ HP Hw)).
  split; rewrite ?E; try done; intros [[|[]|[]] []]; done.
Qed.

Ltac rw_unfold :=
  unfold rw_rlock_loop, rw_wlock_loop, rw_rlock_k, rw_wlock_k, rw_runlock_k, rw_wunlock_k,
    see, upd_rw, upd, wakeup_obj, mbind, M_bind, gets, modify; rewrite ?rw_id_ok; simpl.

(** Re-establishing the invariant after thread [t] ends a call or goes to
    sleep, when nobody else is woken. *)
Lemma RwInv_set lossy (m : mach) t x y w' :
  RwInv lossy m → thr m !! t = Some x → rw_counts w' (<[t := y]> (thr m)) →
  (lossy = false → ∀ t' o g, t' ≠ t → thr m !! t' = Some (TSleep o, g) → rw_blocked w' o) →
  (∀ o, y.1 = TSleep o → rw_blocked w' o) →
  (∀ o, y.1 = TSleep o ∨ y.1 = TReady o → y.2 = HNone ∧ (o = RLock ∨ o = WLock)) →
  RwInv lossy (Tmach (<[Z.to_nat id := w']> (tobj m)) (<[t := y]> (thr m))).
Proof.
  intros [Hl Hsm Hc Hs Hcall] Hx Hc' Hs' Hy Hy'. split; simpl.
  - by rewrite length_insert.
  - by rewrite length_insert.
  - by rewrite rw_at_set.
  - rewrite rw_at_set by done. intros E t' o g. specialize (Hs' E). rewrite list_lookup_insert_Some. naive_solver.
  - intros t' o g. rewrite !list_lookup_insert_Some. naive_solver.
Qed.

(** The same when the sleepers are woken. *)
Lemma RwInv_set_wake lossy (m : mach) t x g w' l :
  RwInv lossy m → thr m !! t = Some x → @wake_all _ (rw_monitor id) lossy true (thr m) l → rw_counts w' (<[t := (TRun, g)]> l) →
  RwInv lossy (@Tmach (list rwlock) (rw_monitor id) (<[Z.to_nat id := w']> (tobj m)) (<[t := (TRun, g)]> l)).
Proof.
  intros [Hl Hsm Hc Hs Hcall] Hx Hw Hc'. split; simpl.
  - by rewrite length_insert.
  - rewrite length_insert. exact (eq_ind_r (λ k, Z.of_nat k < 2 ^ 31) Hsm (wakes_length _ _ Hw)).
  - by rewrite rw_at_set.
  - intros E t' o g' Hi. apply list_lookup_insert_Some in Hi as [(_ & [=] & _)|[_ Hi]].
    by destruct (wake_asleep _ _ _ _ _ _ _ Hw Hi) as [_ ?%(λ f, f E)].
  - intros t' o g' Hi. exact (Hcall _ _ _ (wake_inside _ _ _ _ _ _ _ Hw (insert_inside l t _ _ _ _ Hi))).
Qed.

Lemma rw_counts_bounds w (l : list thread) :
  rw_counts w l → Z.of_nat (length l) < 2 ^ 31 →
  0 ≤ readers w < 2 ^ 31 ∧ 0 ≤ writer w < 2 ^ 31 ∧ 0 ≤ waiting_writers w < 2 ^ 31.
Proof.
  intros [-> -> -> _] Hl.
  assert (∀ P, 0 ≤ tcount P l ≤ Z.of_nat (length l)) as H.
  { intros P. split; [apply tcount_nonneg|apply tcount_bound]. }
  pose proof (H is_read). pose proof (H is_write). pose proof (H is_waiting). lia.
Qed.

(** Thread [t] goes to sleep, or back to sleep. *)
Lemma RwInv_asleep lossy (m : mach) t x o :
  RwInv lossy m → thr m !! t = Some (x, HNone) → is_waiting (x, HNone) = is_waiting (TSleep o, HNone) →
  o = RLock ∨ o = WLock → rw_blocked (rw_at id (tobj m)) o →
  RwInv lossy (@Tmach (list rwlock) (rw_monitor id) (tobj m) (<[t := (TSleep o, HNone)]> (thr m))).
Proof.
  intros HI Hx Hnw Ho Hb. pose proof HI as [Hl Hsm Hc Hs Hcall].
  rewrite <-(rw_at_id (tobj m)) by done. eapply RwInv_set; [done|done|..].
  - eapply rw_counts_insert; [done|done|..]; rewrite ?Hnw; [simpl; lia|simpl; lia|lia|apply Hc].
  - intros El t' o' g Hne H. by eapply Hs.
  - by intros o' [= <-].
  - by intros o' [[= <-]|[=]].
Qed.

Lemma RwInv_rlock lossy (m : mach) t x m' :
  RwInv lossy m → thr m !! t = Some (x, HNone) → is_waiting (x, HNone) = false →
  runs lossy m t RLock HNone (rw_rlock_loop id) m' → RwInv lossy m'.
Proof.
  intros HI Hx Hnw Hrun. pose proof HI as [Hl Hsm Hc Hs Hcall].
  pose proof (rw_counts_bounds _ _ Hc Hsm) as Hb. remember (rw_at id (tobj m)) as w eqn:Hw.
  destruct Hrun as [s' l Hcode Hwk|s' l Hcode Hwk]; revert Hcode Hwk; rw_unfold; rewrite <-?Hw;
    destruct (Z.eqb_spec (writer w) 0) as [E|E], (Z.ltb_spec 0 (waiting_writers w)) as [E'|E'];
    simpl; try done; intros [= <-] Hwk; simpl; simpl in Hwk; try apply wake_none in Hwk as ->;
    try (apply (RwInv_asleep lossy m t x RLock); [done|done|done|by left|rewrite <-Hw; simpl; lia]).
  pose proof (tcount_lt is_read _ _ _ Hx eq_refl) as Hlt. pose proof (rc_readers _ _ Hc) as Hr.
  eapply RwInv_set; [done|done|..].
  - eapply rw_counts_insert; [done|done|..]; rewrite ?Hnw; simpl; rewrite <-?Hw, ?s32_id; lia.
  - intros El t' o g Hne H. pose proof (Hs El _ _ _ H) as Hbl.
    destruct (Hcall t' o g (or_introl H)) as [-> [-> | ->]]; simpl in *; [lia|].
    pose proof (tcount_pos is_waiting _ _ (list_elem_of_lookup_2 _ _ _ H) eq_refl).
    rewrite (rc_waiting _ _ Hc) in *. lia.
  - done.
  - naive_solver.
Qed.

Lemma RwInv_wlock_loop lossy (m : mach) t x m' :
  RwInv lossy m → thr m !! t = Some (x, HNone) → is_waiting (x, HNone) = true →
  runs lossy m t WLock HNone (rw_wlock_loop id) m' → RwInv lossy m'.
Proof.
  intros HI Hx Hnw Hrun. pose proof HI as [Hl Hsm Hc Hs Hcall].
  pose proof (rw_counts_bounds _ _ Hc Hsm) as Hb. remember (rw_at id (tobj m)) as w eqn:Hw.
  destruct Hrun as [s' l Hcode Hwk|s' l Hcode Hwk]; revert Hcode Hwk; rw_unfold; rewrite <-?Hw;
    destruct (Z.eqb_spec (writer w) 0) as [E|E], (Z.ltb_spec 0 (readers w)) as [E'|E'];
    simpl; try done; intros [= <-] Hwk; simpl; simpl in Hwk; try apply wake_none in Hwk as ->;
    try (apply (RwInv_asleep lossy m t x WLock); [done|done|done|by right|rewrite <-Hw; simpl; lia]).
  rewrite list_insert_insert_eq, rw_at_set by done. rewrite <-?Hw.
  eapply RwInv_set; [done|done|..].
  - eapply rw_counts_insert; [done|done|..]; rewrite ?Hnw; simpl; rewrite ?s32_id; lia.
  - intros El t' o g Hne H. destruct (Hcall t' o g (or_introl H)) as [-> [-> | ->]]; simpl; lia.
  - done.
  - naive_solver.
Qed.

(** The call of [rw_wlock_k] announces the writer first: it is the loop from
    the state in which the thread already counts as waiting. *)
Lemma RwInv_wlock lossy (m : mach) t m' :
  RwInv lossy m → thr m !! t = Some (TRun, HNone) → runs lossy m t WLock HNone (rw_wlock_k id) m' → RwInv lossy m'.
Proof.
  intros HI Hx Hrun. pose proof HI as [Hl Hsm Hc Hs Hcall].
  pose proof (rw_counts_bounds _ _ Hc Hsm) as Hb. remember (rw_at id (tobj m)) as w eqn:Hw.
  set (w1 := Rwlock (readers w) (writer w) (s32 (waiting_writers w + 1))).
  set (m1 := @Tmach (list rwlock) (rw_monitor id) (<[Z.to_nat id := w1]> (tobj m)) (<[t := (@TReady (list rwlock) (rw_monitor id) WLock, HNone)]> (thr m))).
  assert (RwInv lossy m1) as HI1.
  { eapply RwInv_set; [done|done|..].
    - pose proof (tcount_lt is_waiting _ _ _ Hx eq_refl). pose proof (rc_waiting _ _ Hc).
      eapply rw_counts_insert; [done|done|..]; unfold w1; simpl; rewrite ?s32_id; try lia. apply Hc.
    - intros El t' o g Hne H. pose proof (Hs El _ _ _ H) as Hbl.
      pose proof (tcount_lt is_waiting _ _ _ Hx eq_refl). pose proof (rc_waiting _ _ Hc).
      destruct (Hcall t' o g (or_introl H)) as [-> [-> | ->]]; simpl in *; rewrite ?s32_id; lia.
    - done.
    - intros o [[=]|[= <-]]. split; [done|by right]. }
  assert (thr m1 !! t = Some (@TReady (list rwlock) (rw_monitor id) WLock, HNone)) as Hx1.
  { simpl. apply list_lookup_insert_eq. by eapply lookup_lt_Some. }
  eapply (RwInv_wlock_loop lossy m1 t _ m' HI1 Hx1 eq_refl).
  assert (rw_wlock_k id (Mon (tobj m) false) = rw_wlock_loop id (Mon (tobj m1) false)) as Heq.
  { unfold rw_wlock_k. rewrite rw_id_ok. unfold upd_rw, upd, mbind, M_bind, modify. simpl. by rewrite <-Hw. }
  destruct Hrun as [s' l Hcode Hwk|s' l Hcode Hwk]; rewrite Heq in Hcode;
    pose proof (@wake_all_insert _ (rw_monitor id) _ _ _ _ t (@TReady _ (rw_monitor id) WLock, HNone) Hwk) as Hwk';
    erewrite <-list_insert_insert_eq; by constructor.
Qed.

Lemma RwInv_runlock lossy (m : mach) t m' :
  RwInv lossy m → thr m !! t = Some (TRun, HRead) → runs lossy m t RUnlock HRead (rw_runlock_k id) m' → RwInv lossy m'.
Proof.
  intros HI Hx Hrun. pose proof HI as [Hl Hsm Hc Hs Hcall].
  pose proof (rw_counts_bounds _ _ Hc Hsm) as Hb. remember (rw_at id (tobj m)) as w eqn:Hw.
  pose proof (tcount_pos is_read _ _ (list_elem_of_lookup_2 _ _ _ Hx) eq_refl) as Hpos. rewrite <-(rc_readers _ _ Hc) in Hpos.
  pose proof (rc_excl _ _ Hc) as He.
  set (w1 := Rwlock (readers w - 1) (writer w) (waiting_writers w)).
  assert (∀ l : list thread, rw_counts w l → l !! t = Some (@TRun _ (rw_monitor id), HRead) →
            rw_counts w1 (<[t := (@TRun _ (rw_monitor id), HNone)]> l)) as Hc1.
  { intros l Hcl Hlt. eapply rw_counts_insert; [done|done|..]; unfold w1; simpl; lia. }
  destruct Hrun as [s' l Hcode Hwk|s' l Hcode Hwk]; revert Hcode Hwk; rw_unfold; rewrite <-?Hw, s32_id, rw_at_set by (done || lia); simpl;
    fold w1; destruct (Z.eqb_spec (readers w - 1) 0) as [E|E]; try done; intros [= <-] Hwk; simpl; simpl in Hwk; try apply wake_none in Hwk as ->.
  - eapply RwInv_set_wake; [done|done|done|]. apply Hc1; [exact (rw_counts_wake _ _ _ _ _ Hwk Hc)|exact (wake_run _ _ _ _ _ _ Hwk Hx)].
  - eapply RwInv_set; [done|done|by apply Hc1| |done|naive_solver].
    intros El t' o g Hne H. pose proof (Hs El _ _ _ H) as Hbl.
    destruct (Hcall t' o g (or_introl H)) as [-> [-> | ->]]; simpl in *; lia.
Qed.

Lemma RwInv_wunlock lossy (m : mach) t m' :
  RwInv lossy m → thr m !! t = Some (TRun, HWrite) → runs lossy m t WUnlock HWrite (rw_wunlock_k id) m' → RwInv lossy m'.
Proof.
  intros HI Hx Hrun. pose proof HI as [Hl Hsm Hc Hs Hcall].
  pose proof (tcount_pos is_write _ _ (list_elem_of_lookup_2 _ _ _ Hx) eq_refl) as Hpos. rewrite <-(rc_writer _ _ Hc) in Hpos.
  pose proof (rc_excl _ _ Hc) as He. remember (rw_at id (tobj m)) as w eqn:Hw.
  destruct Hrun as [s' l Hcode Hwk|s' l Hcode Hwk]; revert Hcode Hwk; rw_unfold; try done; rewrite <-?Hw; intros [= <-] Hwk; simpl; simpl in Hwk; try apply wake_none in Hwk as ->.
  eapply RwInv_set_wake; [done|done|done|].
  eapply rw_counts_insert; [exact (rw_counts_wake _ _ _ _ _ Hwk Hc)|exact (wake_run _ _ _ _ _ _ Hwk Hx)|..]; simpl; lia.
Qed.

Lemma RwInv_step lossy (m m' : mach) : RwInv lossy m → tstep lossy m m' → RwInv lossy m'.
Proof.
  intros HI Hstep. destruct Hstep as [t o g m' Ht Hal Hrun|t o g m' Ht Hrun|t o g Ht].
  - destruct o; simpl in Hal, Hrun; subst g.
    + unfold rw_rlock_k in Hrun. rewrite rw_id_ok in Hrun. by eapply RwInv_rlock.
    + by eapply RwInv_runlock.
    + by eapply RwInv_wlock.
    + by eapply RwInv_wunlock.
  - destruct (rw_calls _ _ HI t o g (or_intror Ht)) as [-> [-> | ->]]; simpl in Hrun.
    + by eapply RwInv_rlock.
    + by eapply RwInv_wlock_loop.
  - destruct (rw_calls _ _ HI t o g (or_introl Ht)) as [-> Ho]. pose proof HI as [Hl Hsm Hc Hs Hcall].
    rewrite <-(rw_at_id (tobj m)) by done. eapply RwInv_set; [done|done|..].
    + eapply rw_counts_insert; [done|done|..]; simpl; try lia; [destruct o; simpl; lia|apply Hc].
    + intros El t' o' g Hne H. by eapply Hs.
    + done.
    + by intros o' [[=]|[= <-]].
Qed.

Definition rw_mach0 (n : nat) : mach :=
  @Tmach (list rwlock) (rw_monitor id) rw_table_init (replicate n (@TRun _ (rw_monitor id), HNone)).

Lemma RwInv_init lossy n : Z.of_nat n < 2 ^ 31 → RwInv lossy (rw_mach0 n).
Proof.
  intros Hn. assert (rw_at id rw_table_init = Rwlock 0 0 0) as E.
  { unfold rw_at, rw_table_init. apply lookup_total_replicate_2. lia. }
  split; simpl; rewrite ?E; try done.
  - by rewrite length_replicate.
  - assert (∀ P, P (@TRun _ (rw_monitor id), HNone) = false → tcount P (replicate n (@TRun _ (rw_monitor id), HNone)) = 0) as H.
    { intros P HP. unfold tcount. clear Hn. induction n as [|n IH]; [done|]. simpl. rewrite filter_cons, HP. exact IH. }
    split; simpl; rewrite ?H by done; auto.
  - by intros _ t o g [??]%lookup_replicate.
  - intros t o g [[??]%lookup_replicate|[??]%lookup_replicate]; done.
Qed.

Lemma RwInv_steps lossy (m m' : mach) : RwInv lossy m → rtc (tstep lossy) m m' → RwInv lossy m'.
Proof. intros HI Hs. induction Hs; eauto using RwInv_step. Qed.
End rwlock.

(** ** Theorems *)

(** A sleep lock is held by at most one thread at a time, in every
    interleaving of [acquiresleep], [releasesleep] and spurious wakeups, also
    when sleepers miss wakeups; it is marked locked exactly when somebody holds
    it; and if sleepers get their wakeups, a thread sleeps on it only while it is
    held. *)
Theorem sleeplock_exclusive lossy n m (Hr : rtc (tstep lossy) (sl_mach0 n) m) :
  (∀ t1 t2 x1 x2, thr m !! t1 = Some (x1, true) → thr m !! t2 = Some (x2, true) → t1 = t2) ∧
  (sl_locked (tobj m) ≠ 0 ↔ ∃ t x, thr m !! t = Some (x, true)) ∧
  (lossy = false → ∀ t o g, thr m !! t = Some (TSleep o, g) → ∃ t' x, thr m !! t' = Some (x, true)).
Proof.
  destruct (SlInv_steps _ _ _ (SlInv_init lossy n) Hr) as [Hc Hone Hs _].
  assert (sl_locked (tobj m) ≠ 0 ↔ ∃ t x, thr m !! t = Some (x, true)) as Hiff.
  { split.
    - intros Hne. destruct (tcount_ex holds_sl (thr m)) as (t & [x g] & Hx & Hg); [lia|].
      exists t, x. by destruct g.
    - intros (t & x & Hx). pose proof (tcount_pos holds_sl _ _ (list_elem_of_lookup_2 _ _ _ Hx) eq_refl). lia. }
  split; [|split; [done|]].
  - intros t1 t2 x1 x2 H1 H2. destruct (decide (t1 = t2)) as [|Hne]; [done|].
    pose proof (tcount_two holds_sl _ _ _ _ _ H1 H2 Hne eq_refl eq_refl). lia.
  - intros E t o g H. apply Hiff. rewrite (Hs E _ _ _ H). done.
Qed.

(** One thread holds the lock while another sleeps on it. *)
Lemma sl_run : ∃ m, rtc (tstep false) (sl_mach0 2) m ∧ thr m !! 1%nat = Some (TSleep (SAcquire 8), false).
Proof.
  eexists. split.
  - eapply rtc_l; [eapply (@t_call _ sleeplock_monitor _ _ 0 (SAcquire 7) false); [reflexivity|reflexivity|eapply runs_done; [reflexivity|apply wakes_all]]|].
    eapply rtc_l; [eapply (@t_call _ sleeplock_monitor _ _ 1 (SAcquire 8) false); [reflexivity|reflexivity|eapply runs_sleep; [reflexivity|apply wakes_all]]|].
    apply rtc_refl.
  - reflexivity.
Qed.

Lemma sleeplock_exclusive_witness :
  ∃ m, rtc (tstep false) (sl_mach0 2) m ∧ ∃ t x, thr m !! t = Some (x, true).
Proof.
  destruct sl_run as (m & Hr & Hs). exists m. split; [exact Hr|].
  exact (proj2 (proj2 (sleeplock_exclusive false 2 m Hr)) eq_refl _ _ _ Hs).
Defined.


Lemma sem_run : ∃ m, rtc (tstep false) (sem_mach0 3 1 2) m ∧
  thr m !! 1%nat = Some (@TSleep (list Z) (sem_monitor 3) SWait, 0).
Proof.
  eexists. split.
  - eapply rtc_l; [eapply (@t_call _ (sem_monitor 3) _ _ 0 SWait 0); [reflexivity|exact I|eapply runs_done; [reflexivity|apply wakes_all]]|].
    eapply rtc_l; [eapply (@t_call _ (sem_monitor 3) _ _ 1 SWait 0); [reflexivity|exact I|eapply runs_sleep; [reflexivity|apply wakes_all]]|].
    apply rtc_refl.
  - reflexivity.
Qed.


(** C17. Reader-writer locks: in every interleaving of well-bracketed clients a
    writer excludes readers and other writers, [readers], [writer] and
    [waiting_writers] are exactly the numbers of threads that read, write and
    wait to write, and a waiting writer keeps new readers out; also when
    sleepers miss wakeups. *)
Theorem rwlock_exclusive lossy id n m
    (Hid : 0 ≤ id < MAXRW) (Hn : Z.of_nat n < 2 ^ 31) (Hr : rtc (tstep lossy) (rw_mach0 id n) m) :
  (∀ t t' x x' h, thr m !! t = Some (x, HWrite) → thr m !! t' = Some (x', h) → h ≠ HNone → t = t') ∧
  rw_counts id (rw_at id (tobj m)) (thr m) ∧
  (∀ t x, thr m !! t = Some x → is_waiting id x = true →
     rw_rlock_k id (Mon (tobj m) false) = Blocked (Mon (tobj m) false)).
Proof.
  destruct (RwInv_steps id Hid lossy _ _ (RwInv_init id Hid lossy n Hn) Hr) as [_ _ Hc _ _]. split; [|split; [done|]].
  - intros t t' x x' h H1 H2 Hh. destruct (decide (t = t')) as [|Hne]; [done|].
    pose proof (tcount_pos (is_write id) _ _ (list_elem_of_lookup_2 _ _ _ H1) eq_refl) as Hp.
    pose proof (rc_writer _ _ _ Hc). pose proof (rc_readers _ _ _ Hc). pose proof (rc_excl _ _ _ Hc).
    destruct h; [done| |].
    + pose proof (tcount_pos (is_read id) _ _ (list_elem_of_lookup_2 _ _ _ H2) eq_refl). lia.
    + pose proof (tcount_two (is_write id) _ _ _ _ _ H1 H2 Hne eq_refl eq_refl). lia.
  - intros t x Ht Hx. assert (0 < tcount (is_waiting id) (thr m)) as Hw.
    { by eapply tcount_pos; [by eapply list_elem_of_lookup_2|]. }
    rewrite <-(rc_waiting _ _ _ Hc) in Hw. unfold rw_rlock_k, rw_rlock_loop, see, gets, mbind, M_bind.
    rewrite rw_id_ok by done. simpl. rewrite (proj2 (Z.ltb_lt _ _) Hw), orb_true_r. done.
Qed.

(** A reader holds the lock, a writer sleeps. *)
Lemma rw_run : ∃ m, rtc (tstep false) (rw_mach0 3 2) m ∧
  thr m !! 0%nat = Some (@TRun (list rwlock) (rw_monitor 3), HRead) ∧
  thr m !! 1%nat = Some (@TSleep (list rwlock) (rw_monitor 3) WLock, HNone).
Proof.
  eexists. split; [|split].
  - eapply rtc_l; [eapply (@t_call _ (rw_monitor 3) _ _ 0 RLock HNone); [reflexivity|reflexivity|eapply runs_done; [reflexivity|apply wakes_all]]|].
    eapply rtc_l; [eapply (@t_call _ (rw_monitor 3) _ _ 1 WLock HNone); [reflexivity|reflexivity|eapply runs_sleep; [reflexivity|apply wakes_all]]|].
    apply rtc_refl.
  - reflexivity.
  - reflexivity.
Qed.

Lemma rwlock_exclusive_witness :
  ∃ m, rtc (tstep false) (rw_mach0 3 2) m ∧ rw_rlock_k 3 (Mon (tobj m) false) = Blocked (Mon (tobj m) false).
Proof.
  destruct rw_run as (m & Hr & _ & Hs). exists m. split; [exact Hr|].
  destruct (rwlock_exclusive false 3 2 m ltac:(split; by compute) ltac:(by compute) Hr) as (_ & _ & H).
  exact (H 1%nat _ Hs eq_refl).
Defined.

(** As long as sleepers get their wakeups, reader-writer locks do not
    deadlock: whenever a thread sleeps on the lock, some thread holds it or has been woken and is
    about to test again. *)
Theorem rwlock_no_deadlock id n m t o g
    (Hid : 0 ≤ id < MAXRW) (Hn : Z.of_nat n < 2 ^ 31) (Hr : rtc (tstep false) (rw_mach0 id n) m)
    (Ht : thr m !! t = Some (TSleep o, g)) :
  ∃ t' x h, thr m !! t' = Some (x, h) ∧ (h ≠ HNone ∨ ∃ o', x = TReady o').
Proof.
  destruct (RwInv_steps id Hid false _ _ (RwInv_init id Hid false n Hn) Hr) as [_ _ Hc Hs Hcall]. specialize (Hs eq_refl).
  assert (writer (rw_at id (tobj m)) ≠ 0 ∨ 0 < readers (rw_at id (tobj m)) →
          ∃ t' x h, thr m !! t' = Some (x, h) ∧ (h ≠ HNone ∨ ∃ o', x = TReady o')) as Hheld.
  { intros H. pose proof (rc_readers _ _ _ Hc). pose proof (rc_writer _ _ _ Hc). pose proof (rc_excl _ _ _ Hc).
    assert (0 < tcount (is_write id) (thr m) ∨ 0 < tcount (is_read id) (thr m)) as [Hw|Hw] by lia.
    - destruct (tcount_ex _ _ Hw) as (t' & [x h] & Hx & Hh). exists t', x, h. split; [done|]. left. by destruct h.
    - destruct (tcount_ex _ _ Hw) as (t' & [x h] & Hx & Hh). exists t', x, h. split; [done|]. left. by destruct h. }
  pose proof (Hs _ _ _ Ht) as Hb. destruct (Hcall _ _ _ (or_introl Ht)) as [-> [-> | ->]]; simpl in Hb; [|auto].
  destruct Hb as [Hb|Hb]; [auto|]. rewrite (rc_waiting _ _ _ Hc) in Hb.
  destruct (tcount_ex _ _ Hb) as (t' & [x h] & Hx & Hw). destruct x as [|[]|[]]; try done.
  - apply Hheld. exact (Hs _ _ _ Hx).
  - eexists t', _, h. split; [done|]. right. by eexists.
Qed.

Lemma rwlock_no_deadlock_witness :
  ∃ m, rtc (tstep false) (rw_mach0 3 2) m ∧
    ∃ t' x h, thr m !! t' = Some (x, h) ∧ (h ≠ HNone ∨ ∃ o', x = TReady o').
Proof.
  destruct rw_run as (m & Hr & _ & Hs). exists m. split; [exact Hr|].
  exact (rwlock_no_deadlock 3 2 m 1 WLock HNone ltac:(split; by compute) ltac:(by compute) Hr Hs).
Defined.

(** A semaphore initialised to a negative value does not block: the test in
    [sem_wait_k] is for zero only, so every wait passes and drives the value
    further down. *)
Theorem sem_negative_never_blocks id v t
    (Hid : 0 ≤ id < MAXSEM) (Hl : length t = Z.to_nat MAXSEM) (Hv : - 2 ^ 31 < v < 0) :
  (sem_init_k id v;; sem_wait_k id) (Mon t false) = Ok tt (Mon (set_sem id (v - 1) t) false).
Proof.
  unfold sem_init_k, sem_wait_k, sem_wait_loop. rewrite sem_id_ok by done.
  unfold upd, see, mbind, M_bind, modify, gets. simpl. rewrite sem_value_set by done.
  destruct (Z.eqb_spec v 0); [lia|]. rewrite s32_id by lia. simpl. unfold set_sem. by rewrite list_insert_insert_eq.
Qed.

Lemma sem_negative_never_blocks_witness :
  (sem_init_k 0 (-1);; sem_wait_k 0) (Mon sem_table_init false) = Ok tt (Mon (set_sem 0 (-2) sem_table_init) false).
Proof.
  exact (sem_negative_never_blocks 0 (-1) sem_table_init ltac:(split; by compute) eq_refl ltac:(split; by compute)).
Defined.
