(* ===== verification/Ring.v ===== *)
(** * Ring buffers with free-running indices, and user memory

    The pipes, the console and the UART keep bytes in an array of [N] entries
    indexed by two counters of [W] bits, taken modulo [N] at each access.  They
    reach the memory of the calling process one byte at a time. *)

From S2P Require Import Prelude.

(** What these drivers ask of vm.c: a byte from or to a user address, or failure.
    A stored byte can be read back and no other byte changes; whether an address
    can be stored to does not depend on the byte. *)
Class UserMem (U : Type) := {
  copyin1 : Z → U → option Z;
  copyout1 : Z → Z → U → option U;
  copyin1_byte : ∀ a u b, copyin1 a u = Some b → 0 ≤ b < 256;
  copyout1_same : ∀ a b u u', copyout1 a b u = Some u' → 0 ≤ b < 256 → copyin1 a u' = Some b;
  copyout1_other : ∀ a a' b u u', copyout1 a b u = Some u' → 0 ≤ a → 0 ≤ a' → a' ≠ a → copyin1 a' u' = copyin1 a' u;
  copyout1_fault : ∀ a b b' u, copyout1 a b u = None → copyout1 a b' u = None
}.

(** A process whose memory is an array from address 0 on. *)
Definition flat_copyin1 (a : Z) (u : list Z) : option Z := b ← u !! Z.to_nat a; if decide (0 ≤ b < 256) then Some b else None.
Definition flat_copyout1 (a b : Z) (u : list Z) : option (list Z) :=
  if decide (Z.to_nat a < length u)%nat then Some (<[Z.to_nat a := b]> u) else None.

#[export] Instance flat_mem : UserMem (list Z).
Proof.
  refine {| copyin1 := flat_copyin1; copyout1 := flat_copyout1 |}; unfold flat_copyin1, flat_copyout1.
  - intros a u b (x & _ & Hx)%bind_Some. case_decide; by simplify_eq.
  - intros a b u u' H Hb. case_decide as Ha; simplify_eq. rewrite list_lookup_insert_eq by done. cbn. by rewrite decide_True.
  - intros a a' b u u' H Ha Ha' Hne. case_decide; simplify_eq. by rewrite list_lookup_insert_ne by lia.
  - intros a b b' u. by case_decide.
Defined.

(** *** What a call saw of the caller's memory *)

Section user.
Context {U : Type} {UM : UserMem U}.

(** The [n] bytes at [addr + i], as the caller reads them. *)
Definition user_data (u : U) (addr i n : Z) : list Z :=
  (λ k, default 0 (copyin1 (u64 (addr + k)) u)) <$> seqZ i n.

(** A store to [a] would fail. *)
Definition no_store (u : U) (a : Z) : bool := match copyout1 a 0 u with None => true | Some _ => false end.

(** [l] is what user memory holds from [addr + i] on. *)
Definition user_bytes (u : U) (addr i : Z) (l : list Z) : Prop :=
  ∀ k x, l !! k = Some x → copyin1 (u64 (addr + (i + Z.of_nat k))) u = Some x.

Lemma user_bytes_snoc u addr i l x :
  user_bytes u addr i l → copyin1 (u64 (addr + (i + Z.of_nat (length l)))) u = Some x →
  user_bytes u addr i (l ++ [x]).
Proof.
  intros Hl Hx k y [Hk|[Hge Hk]]%lookup_app_Some; [by apply Hl|].
  apply list_lookup_singleton_Some in Hk as [Hk <-]. by replace k with (length l) by lia.
Qed.

Lemma user_bytes_data u addr i l : user_bytes u addr i l → user_data u addr i (Z.of_nat (length l)) = l.
Proof.
  intros Hl. apply list_eq. intros k. unfold user_data. rewrite list_lookup_fmap. destruct (l !! k) as [x|] eqn:Ek.
  - pose proof (lookup_lt_Some _ _ _ Ek). rewrite lookup_seqZ_lt by lia. cbn. by rewrite (Hl k x Ek).
  - apply lookup_ge_None in Ek. by rewrite lookup_seqZ_ge by lia.
Qed.

Lemma user_bytes_range u addr i l : user_bytes u addr i l → Forall (λ b, 0 ≤ b < 256) l.
Proof. intros Hl. apply Forall_lookup. intros k x Hk. by eapply copyin1_byte, Hl. Qed.

(** Storing the bytes [l] at [addr + i] on. *)
Fixpoint put_bytes (u : U) (addr i : Z) (l : list Z) : option U :=
  match l with
  | [] => Some u
  | x :: l' => u' ← copyout1 (u64 (addr + i)) x u; put_bytes u' addr (i + 1) l'
  end.

Lemma put_bytes_snoc u addr i l x u' :
  put_bytes u addr i l = Some u' →
  put_bytes u addr i (l ++ [x]) = copyout1 (u64 (addr + (i + Z.of_nat (length l)))) x u'.
Proof.
  revert u i. induction l as [|y l IH]; simpl; intros u i.
  - intros [= ->]. rewrite Z.add_0_r. by destruct (copyout1 _ _ _).
  - destruct (copyout1 _ _ u) as [u1|]; simpl; [|done]. intros H. rewrite (IH _ _ H). f_equal. f_equal. lia.
Qed.

(** Addresses of one buffer are different. *)
Lemma u64_apart addr i j : 0 ≤ i < 2 ^ 64 → 0 ≤ j < 2 ^ 64 → u64 (addr + i) = u64 (addr + j) → i = j.
Proof. unfold u64. intros Hi Hj E. zdm. Qed.

(** Stored bytes are there for the caller to read. *)
Lemma put_bytes_there u addr i l u' :
  put_bytes u addr i l = Some u' → 0 ≤ i → i + Z.of_nat (length l) ≤ 2 ^ 64 → Forall (λ b, 0 ≤ b < 256) l →
  user_bytes u' addr i l ∧ ∀ j, 0 ≤ j < i → copyin1 (u64 (addr + j)) u' = copyin1 (u64 (addr + j)) u.
Proof.
  revert u i. induction l as [|x l IH]; intros u i; simpl.
  { intros [= ->] Hi _ _. split; [by intros k y|done]. }
  intros (u1 & E1 & E)%bind_Some Hi Hl [Hx Hall]%Forall_cons.
  destruct (IH _ _ E) as [Hb Hother]; [lia|lia|done|].
  assert (∀ a, 0 ≤ u64 a) as Hpos by (intros a; unfold u64; zdm). split.
  - intros [|k] y; simpl.
    + intros [= <-]. rewrite Z.add_0_r, Hother by lia. by apply (copyout1_same _ _ _ _ E1).
    + intros Hk. replace (i + Z.of_nat (S k)) with (i + 1 + Z.of_nat k) by lia. by apply Hb.
  - intros j Hj. rewrite Hother by lia. apply (copyout1_other _ _ _ _ _ E1); [apply Hpos|apply Hpos|].
    intros E2. apply u64_apart in E2; lia.
Qed.
End user.

(** The ring [buf] with indices [r] and [w] holds the bytes [l], oldest first. *)
Record rb (N W : Z) (buf : list Z) (r w : Z) (l : list Z) : Prop := {
  rb_data : length buf = Z.to_nat N;
  rb_r : 0 ≤ r < 2 ^ W;
  rb_w : w = (r + Z.of_nat (length l)) mod 2 ^ W;
  rb_size : Z.of_nat (length l) ≤ N;
  rb_bytes : ∀ k x, l !! k = Some x → buf !! Z.to_nat ((r + Z.of_nat k) mod N) = Some x
}.

(** The bytes between two indices. *)
Definition rb_contents (N W : Z) (buf : list Z) (r w : Z) : list Z :=
  (λ k, buf !!! Z.to_nat ((r + Z.of_nat k) mod N)) <$> seq 0 (Z.to_nat ((w - r) mod 2 ^ W)).

Section ring.
Context (N W : Z) (HN : 0 < N < 2 ^ W) (Hdiv : (N | 2 ^ W)).
Implicit Types (buf l : list Z) (r w : Z).

(** The counters wrap at a multiple of the size of the ring. *)
Lemma rb_wrap x : (x mod 2 ^ W) mod N = x mod N.
Proof. symmetry. apply Znumtheory.Zmod_div_mod; [lia|lia|done]. Qed.

Lemma rb_index buf r w l k : rb N W buf r w l → (Z.to_nat ((r + k) mod N) < length buf)%nat.
Proof. intros H. rewrite (rb_data _ _ _ _ _ _ H). pose proof (Z.mod_pos_bound (r + k) N). lia. Qed.

Lemma rb_distance buf r w l : rb N W buf r w l → (w - r) mod 2 ^ W = Z.of_nat (length l).
Proof.
  intros [_ Hr Hw Hs _]. rewrite Hw, Zminus_mod_idemp_l. replace (r + Z.of_nat (length l) - r) with (Z.of_nat (length l)) by lia. apply Z.mod_small. lia.
Qed.

Lemma rb_empty_iff buf r w l : rb N W buf r w l → r = w ↔ l = [].
Proof.
  intros H. pose proof (rb_distance _ _ _ _ H) as Hd. split.
  - intros ->. rewrite Z.sub_diag, Z.mod_0_l in Hd by lia. by destruct l.
  - intros ->. destruct H as [_ Hr Hw _ _]. rewrite Hw. cbn. by rewrite Z.add_0_r, Z.mod_small.
Qed.

Lemma rb_full_iff buf r w l : rb N W buf r w l → w = (r + N) mod 2 ^ W ↔ Z.of_nat (length l) = N.
Proof.
  intros H. pose proof (rb_distance _ _ _ _ H) as Hd. split.
  - intros ->. rewrite Zminus_mod_idemp_l in Hd. replace (r + N - r) with N in Hd by lia. rewrite Z.mod_small in Hd; lia.
  - intros E. by rewrite (rb_w _ _ _ _ _ _ H), E.
Qed.

Lemma rb_push buf r w l x : rb N W buf r w l → Z.of_nat (length l) < N →
  rb N W (<[Z.to_nat (w mod N) := x]> buf) r ((w + 1) mod 2 ^ W) (l ++ [x]).
Proof.
  intros [Hd Hr Hw Hs Hb] Hlt. split.
  - by rewrite length_insert.
  - done.
  - rewrite length_app, Hw, Zplus_mod_idemp_l. cbn. f_equal. lia.
  - rewrite length_app. cbn. lia.
  - intros k y Hk. rewrite Hw, rb_wrap. apply lookup_app_Some in Hk as [Hk|[Hge Hk]].
    + rewrite list_lookup_insert_ne; [by apply Hb|]. apply lookup_lt_Some in Hk. intros E.
      apply Z2Nat.inj in E; [|apply Z.mod_pos_bound; lia..].
      assert ((r + Z.of_nat (length l) - (r + Z.of_nat k)) mod N = 0) as H0 by (rewrite Zminus_mod, E, Z.sub_diag; apply Z.mod_0_l; lia).
      replace (r + Z.of_nat (length l) - (r + Z.of_nat k)) with (Z.of_nat (length l) - Z.of_nat k) in H0 by lia. rewrite Z.mod_small in H0; lia.
    + apply list_lookup_singleton_Some in Hk as [Hk <-]. replace k with (length l) by lia. apply list_lookup_insert_eq.
      rewrite Hd. pose proof (Z.mod_pos_bound (r + Z.of_nat (length l)) N). lia.
Qed.

Lemma rb_pop buf r w x l : rb N W buf r w (x :: l) →
  buf !!! Z.to_nat (r mod N) = x ∧ rb N W buf ((r + 1) mod 2 ^ W) w l.
Proof.
  intros [Hd Hr Hw Hs Hb]. split.
  - apply lookup_total_Some. specialize (Hb 0%nat x eq_refl). by rewrite Z.add_0_r in Hb.
  - split; cbn [length] in *; [done|apply Z.mod_pos_bound; lia| |lia|].
    + rewrite Hw, Zplus_mod_idemp_l. f_equal. lia.
    + intros k y Hk. rewrite <-Zplus_mod_idemp_l, rb_wrap, Zplus_mod_idemp_l.
      replace (r + 1 + Z.of_nat k) with (r + Z.of_nat (S k)) by lia. by apply Hb.
Qed.

(** Putting back what was popped. *)
Lemma rb_unpop buf r w x l : rb N W buf r w (x :: l) → ((r + 1) mod 2 ^ W - 1) mod 2 ^ W = r.
Proof. intros [_ Hr _ _ _]. rewrite Zminus_mod_idemp_l. replace (r + 1 - 1) with r by lia. by apply Z.mod_small. Qed.

(** The last byte, and its removal. *)
Lemma rb_last buf r w l x : rb N W buf r w (l ++ [x]) →
  buf !!! Z.to_nat (((w - 1) mod 2 ^ W) mod N) = x ∧ rb N W buf r ((w - 1) mod 2 ^ W) l.
Proof.
  intros [Hd Hr Hw Hs Hb]. rewrite length_app in Hw, Hs. cbn in Hw, Hs.
  assert ((w - 1) mod 2 ^ W = (r + Z.of_nat (length l)) mod 2 ^ W) as E by (rewrite Hw, Zminus_mod_idemp_l; f_equal; lia).
  rewrite E. split.
  - rewrite rb_wrap. apply lookup_total_Some, Hb. by apply list_lookup_middle.
  - split; [done|done|done|lia|]. intros k y Hk. apply Hb. by apply lookup_app_l_Some.
Qed.

Lemma rb_contents_eq buf r w l : rb N W buf r w l → rb_contents N W buf r w = l.
Proof.
  intros H. unfold rb_contents. rewrite (rb_distance _ _ _ _ H), Nat2Z.id. apply list_eq. intros k. rewrite list_lookup_fmap. destruct (l !! k) as [x|] eqn:Hk.
  - rewrite lookup_seq_lt by (by eapply lookup_lt_Some). cbn. f_equal. apply lookup_total_Some. by apply H.
  - rewrite lookup_seq_ge; [done|]. by apply lookup_ge_None.
Qed.

(** An index in the middle. *)
Lemma rb_split buf r e l1 l2 : rb N W buf r e (l1 ++ l2) →
  rb N W buf r ((r + Z.of_nat (length l1)) mod 2 ^ W) l1 ∧ rb N W buf ((r + Z.of_nat (length l1)) mod 2 ^ W) e l2.
Proof.
  intros [Hd Hr Hw Hs Hb]. rewrite length_app in *. split; split; try done; try lia.
  - intros k x Hk. apply Hb. by apply lookup_app_l_Some.
  - apply Z.mod_pos_bound. lia.
  - rewrite Hw, Zplus_mod_idemp_l. f_equal. lia.
  - intros k x Hk. rewrite <-Zplus_mod_idemp_l, rb_wrap, Zplus_mod_idemp_l.
    replace (r + Z.of_nat (length l1) + Z.of_nat k) with (r + Z.of_nat (length l1 + k)) by lia. apply Hb. by rewrite lookup_app_r, Nat.add_comm, Nat.add_sub by lia.
Qed.

Lemma rb_init buf : length buf = Z.to_nat N → rb N W buf 0 0 [].
Proof. intros H. split; [done|lia| |cbn; lia|by intros k x ?]. cbn. by rewrite Z.mod_0_l by lia. Qed.
End ring.
