(* ===== verification/Pipe.v ===== *)
(** * Pipes (kernel/pipe.c)

    The 512-byte ring with its free-running 32-bit counters, written and read
    one byte at a time through [copyin] and [copyout].  The two loops run until
    they return or go to sleep; what runs after a wakeup starts from the saved
    loop variable.  User memory is an interface: a type with a one-byte
    [copyin] and [copyout].  Threads that write, read and close form a step
    relation in which, with [lossy], sleepers may miss a wakeup. *)

From S2P Require Import Prelude Ring.

(** ** Operations *)

Definition PIPESIZE : Z := 512.

Record pipe := Pipe { data : list Z; nread : Z; nwrite : Z; readopen : Z; writeopen : Z }.

Definition set_data (v : list Z) (p : pipe) : pipe := Pipe v (nread p) (nwrite p) (readopen p) (writeopen p).
Definition set_nread (v : Z) (p : pipe) : pipe := Pipe (data p) v (nwrite p) (readopen p) (writeopen p).
Definition set_nwrite (v : Z) (p : pipe) : pipe := Pipe (data p) (nread p) v (readopen p) (writeopen p).
Definition set_readopen (v : Z) (p : pipe) : pipe := Pipe (data p) (nread p) (nwrite p) v (writeopen p).
Definition set_writeopen (v : Z) (p : pipe) : pipe := Pipe (data p) (nread p) (nwrite p) (readopen p) v.

(** The assignments of [pipealloc] to a fresh page holding [junk]. *)
Definition pipe_init (junk : list Z) : pipe := Pipe junk 0 0 1 1.

(** How a call ends: it returns, or it sleeps having done [i] bytes. *)
Inductive pres : Set := PRet (r : Z) | PAsleep (i : Z).

Section ops.
Context {U : Type} {UM : UserMem U}.

(** The pipe, the caller's memory, and the wakeups on [&nread] and [&nwrite]. *)
Record pst := Pst { pi : pipe; um : U; woke_read : bool; woke_write : bool }.

Definition upd_pipe (f : pipe → pipe) : M pst unit :=
  modify (λ s, Pst (f (pi s)) (um s) (woke_read s) (woke_write s)).
Definition wakeup_nread : M pst unit := modify (λ s, Pst (pi s) (um s) true (woke_write s)).
Definition wakeup_nwrite : M pst unit := modify (λ s, Pst (pi s) (um s) (woke_read s) true).

(** [pipeclose]; the result says whether the page is freed. *)
Definition pipeclose (writable : bool) : M pst bool :=
  (if writable then upd_pipe (set_writeopen 0);; wakeup_nread
   else upd_pipe (set_readopen 0);; wakeup_nwrite);;
  p ← gets pi;
  mret ((readopen p =? 0) && (writeopen p =? 0)).

(** One iteration of the loop of [pipewrite]. *)
Definition pipewrite_body (killed : bool) (addr n i : Z) : M pst (Z + pres) :=
  if i <? n then
    p ← gets pi;
    if (readopen p =? 0) || killed then mret (inr (PRet (-1)))
    else if nwrite p =? u32 (nread p + PIPESIZE) then
      wakeup_nread;; mret (inr (PAsleep i))
    else
      u ← gets um;
      match copyin1 (u64 (addr + i)) u with
      | None => wakeup_nread;; mret (inr (PRet i))
      | Some ch =>
          upd_pipe (λ p, set_data (<[Z.to_nat (nwrite p mod PIPESIZE) := ch]> (data p)) p);;
          upd_pipe (λ p, set_nwrite (u32 (nwrite p + 1)) p);;
          mret (inl (i + 1))
      end
  else wakeup_nread;; mret (inr (PRet i)).

(** [pipewrite] from [i] bytes on: [i = 0] at the call. *)
Definition pipewrite (killed : bool) (addr n i : Z) : M pst pres :=
  iterM (S (Z.to_nat (n - i))) (pipewrite_body killed addr n) i.

(** One iteration of the copy loop of [piperead]. *)
Definition piperead_body (addr n i : Z) : M pst (Z + Z) :=
  if i <? n then
    p ← gets pi;
    if nread p =? nwrite p then mret (inr i)
    else
      ch ← gets (λ s, data (pi s) !!! Z.to_nat (nread (pi s) mod PIPESIZE));
      upd_pipe (λ p, set_nread (u32 (nread p + 1)) p);;
      u ← gets um;
      match copyout1 (u64 (addr + i)) ch u with
      | None => mret (inr i)
      | Some u' => modify (λ s, Pst (pi s) u' (woke_read s) (woke_write s));; mret (inl (i + 1))
      end
  else mret (inr i).

(** [piperead]; after a wakeup it starts over. *)
Definition piperead (killed : bool) (addr n : Z) : M pst pres :=
  p ← gets pi;
  if (nread p =? nwrite p) && negb (writeopen p =? 0) then
    if killed then mret (PRet (-1)) else mret (PAsleep 0)
  else
    i ← iterM (S (Z.to_nat n)) (piperead_body addr n) 0;
    wakeup_nwrite;;
    mret (PRet i).

(** ** The queue of bytes a pipe holds *)

(** The ring represents the byte sequence [l]. *)
Definition ring (p : pipe) (l : list Z) : Prop := rb PIPESIZE 32 (data p) (nread p) (nwrite p) l.

Lemma pipe_size : 0 < PIPESIZE < 2 ^ 32.
Proof. done. Qed.
Lemma pipe_divides : (PIPESIZE | 2 ^ 32).
Proof. by exists (2 ^ 23). Qed.

Lemma ring_empty p l : ring p l → nread p = nwrite p ↔ l = [].
Proof. apply rb_empty_iff, pipe_size. Qed.

Lemma ring_full p l : ring p l → nwrite p = u32 (nread p + PIPESIZE) ↔ Z.of_nat (length l) = PIPESIZE.
Proof. apply rb_full_iff, pipe_size. Qed.

Lemma ring_push p l ch :
  ring p l → Z.of_nat (length l) < PIPESIZE →
  ring (set_nwrite (u32 (nwrite p + 1)) (set_data (<[Z.to_nat (nwrite p mod PIPESIZE) := ch]> (data p)) p)) (l ++ [ch]).
Proof. apply (rb_push _ _ pipe_size pipe_divides). Qed.

Lemma ring_pop p x l :
  ring p (x :: l) →
  data p !!! Z.to_nat (nread p mod PIPESIZE) = x ∧ ring (set_nread (u32 (nread p + 1)) p) l.
Proof. apply (rb_pop _ _ pipe_size pipe_divides). Qed.

(** *** The two loops against the queue *)

Definition same_flags (p p' : pipe) : Prop := readopen p' = readopen p ∧ writeopen p' = writeopen p.

(** How far [pipewrite] has come: [l] has been appended. *)
Definition wrote (killed : bool) (addr n i : Z) (s : pst) (q : list Z) (j : Z) (s' : pst) (l : list Z) : Prop :=
  j = i + Z.of_nat (length l) ∧ ring (pi s') (q ++ l) ∧ um s' = um s ∧ user_bytes (um s) addr i l ∧
  same_flags (pi s) (pi s') ∧ woke_write s' = woke_write s ∧ (l ≠ [] → j ≤ n ∧ readopen (pi s) ≠ 0 ∧ killed = false).

Definition pipewrite_post (killed : bool) (addr n i : Z) (s : pst) (q : list Z) (r : pres) (s' : pst) : Prop :=
  ∃ l j, wrote killed addr n i s q j s' l ∧
  match r with
  | PRet r =>
      (r = -1 ∧ l = [] ∧ (readopen (pi s) = 0 ∨ killed = true)) ∨
      (r = j ∧ woke_read s' = true ∧ (n ≤ j ∨ copyin1 (u64 (addr + j)) (um s) = None))
  | PAsleep j' =>
      j' = j ∧ j < n ∧ woke_read s' = true ∧ Z.of_nat (length (q ++ l)) = PIPESIZE ∧
      readopen (pi s) ≠ 0 ∧ killed = false
  end.

Lemma pipewrite_ok killed addr n i s q :
  ring (pi s) q → wp (pipewrite killed addr n i) (pipewrite_post killed addr n i s q) s.
Proof.
  intros Hq. unfold pipewrite.
  eapply wp_iter with (I := λ j s', ∃ l, wrote killed addr n i s q j s' l) (μ := λ j _, Z.to_nat (n - j)).
  - intros j s' (l & HW). pose proof HW as (Hj & Hr & Hu & Hub & [Hro Hwo] & Hww & Hl).
    unfold pipewrite_body. destruct (Z.ltb_spec j n) as [Hlt|Hge].
    2: { wp_steps. exists l, j. split; [done|]. right. auto. }
    wp_steps. rewrite Hro. destruct (Z.eqb_spec (readopen (pi s)) 0) as [E|E]; simpl.
    { wp_steps. exists l, j. split; [done|]. left. destruct l; [auto|]. by destruct Hl as (_ & ? & _). }
    destruct killed; simpl.
    { wp_steps. exists l, j. split; [done|]. left. destruct l; [auto|]. by destruct Hl as (_ & _ & ?). }
    destruct (Z.eqb_spec (nwrite (pi s')) (u32 (nread (pi s') + PIPESIZE))) as [Ef|Ef].
    { wp_steps. apply (ring_full _ _ Hr) in Ef. exists l, j. split; [done|]. auto 10. }
    wp_steps. rewrite Hu. destruct (copyin1 (u64 (addr + j)) (um s)) as [ch|] eqn:Ec; wp_steps.
    2: { exists l, j. split; [done|]. right. auto. }
    split; [|lia]. exists (l ++ [ch]). split; [rewrite length_app; simpl; lia|]. split.
    { simpl. rewrite (assoc_L (++)). apply ring_push; [done|]. rewrite (ring_full _ _ Hr) in Ef.
      pose proof (rb_size _ _ _ _ _ _ Hr). lia. }
    split; [done|]. split; [apply user_bytes_snoc; [done|by rewrite <-Hj]|]. split; [done|]. split; [done|].
    intros _. split; [lia|done].
  - exists []. split; [simpl; lia|]. rewrite app_nil_r. split; [done|]. split; [done|].
    split; [by intros k x ?|]. done.
  - lia.
Qed.

Definition piperead_post (killed : bool) (addr n : Z) (s : pst) (q : list Z) (r : pres) (s' : pst) : Prop :=
  if decide (q = [] ∧ writeopen (pi s) ≠ 0)
  then s' = s ∧ r = (if killed then PRet (-1) else PAsleep 0)
  else ∃ l lost q' i, q = l ++ lost ++ q' ∧ r = PRet i ∧ i = Z.of_nat (length l) ∧
    ring (pi s') q' ∧ same_flags (pi s) (pi s') ∧ put_bytes (um s) addr 0 l = Some (um s') ∧
    woke_write s' = true ∧ woke_read s' = woke_read s ∧
    ((lost = [] ∧ (n ≤ i ∨ q' = [])) ∨
     (∃ x, lost = [x] ∧ i < n ∧ copyout1 (u64 (addr + i)) x (um s') = None)).

Lemma piperead_loop_ok addr n s q :
  ring (pi s) q →
  wp (iterM (S (Z.to_nat n)) (piperead_body addr n) 0)
     (λ i s', ∃ l lost q', q = l ++ lost ++ q' ∧ i = Z.of_nat (length l) ∧
        ring (pi s') q' ∧ same_flags (pi s) (pi s') ∧ put_bytes (um s) addr 0 l = Some (um s') ∧
        woke_write s' = woke_write s ∧ woke_read s' = woke_read s ∧
        ((lost = [] ∧ (n ≤ i ∨ q' = [])) ∨
         (∃ x, lost = [x] ∧ i < n ∧ copyout1 (u64 (addr + i)) x (um s') = None))) s.
Proof.
  intros Hq.
  eapply wp_iter with (I := λ j s', ∃ l q', q = l ++ q' ∧ j = Z.of_nat (length l) ∧ ring (pi s') q' ∧
    same_flags (pi s) (pi s') ∧ put_bytes (um s) addr 0 l = Some (um s') ∧
    woke_write s' = woke_write s ∧ woke_read s' = woke_read s) (μ := λ j _, Z.to_nat (n - j)); [| |lia].
  - intros j s' (l & q' & -> & Hj & Hr & Hfl & Hput & Hww & Hwr). unfold piperead_body.
    destruct (Z.ltb_spec j n) as [Hlt|Hge].
    2: { wp_steps. exists l, [], q'. auto 15. }
    wp_steps. destruct (Z.eqb_spec (nread (pi s')) (nwrite (pi s'))) as [E|E].
    { apply (ring_empty _ _ Hr) in E as ->. wp_steps. exists l, [], []. auto 15. }
    rewrite (ring_empty _ _ Hr) in E. destruct q' as [|x q']; [done|]. destruct (ring_pop _ _ _ Hr) as [Hx Hr'].
    wp_steps. rewrite Hx. unfold upd_pipe. wp_steps. cbn [um pi]. destruct (copyout1 (u64 (addr + j)) x (um s')) as [u'|] eqn:Ec; wp_steps.
    + split; [|lia]. exists (l ++ [x]), q'. split; [by rewrite <-(assoc_L (++))|].
      split; [rewrite length_app; simpl; lia|]. split; [done|]. split; [done|]. split; [|done].
      rewrite (put_bytes_snoc _ _ _ _ _ _ Hput). simpl. rewrite <-Ec. f_equal. f_equal. lia.
    + exists l, [x], q'. split; [done|]. split; [done|]. split; [done|]. split; [done|]. split; [done|].
      split; [done|]. split; [done|]. right. eauto.
  - exists [], q. done.
Qed.

Lemma piperead_ok killed addr n s q :
  ring (pi s) q → wp (piperead killed addr n) (piperead_post killed addr n s q) s.
Proof.
  intros Hq. unfold piperead, piperead_post. wp_steps.
  assert ((nread (pi s) =? nwrite (pi s)) && negb (writeopen (pi s) =? 0) =
          bool_decide (q = [] ∧ writeopen (pi s) ≠ 0)) as ->.
  { pose proof (ring_empty _ _ Hq). destruct (Z.eqb_spec (nread (pi s)) (nwrite (pi s))), (Z.eqb_spec (writeopen (pi s)) 0);
      case_bool_decide; simpl; tauto. }
  destruct (decide (q = [] ∧ writeopen (pi s) ≠ 0)) as [Hd|Hd];
    [rewrite bool_decide_true by done|rewrite bool_decide_false by done].
  - by destruct killed.
  - wp_step. eapply wp_mono; [|by apply piperead_loop_ok].
    intros i s' (l & lost & q' & -> & Hi & Hr & Hf & Hp & Hw & Hwr & Hend). wp_steps.
    exists l, lost, q', i. auto 15.
Qed.
End ops.

(** ** Readers and writers on one pipe *)

(** The bytes in the ring, oldest first. *)
Definition contents (p : pipe) : list Z := rb_contents PIPESIZE 32 (data p) (nread p) (nwrite p).

Lemma ring_contents p l : ring p l → contents p = l.
Proof. apply rb_contents_eq, pipe_size. Qed.

Section threads.
Context {U : Type} {UM : UserMem U}.

(** A thread is outside the pipe code, asleep in one of its loops, or woken;
    the arguments of the call are kept. *)
Inductive pthread : Type :=
  | PIdle
  | PWSleep (addr n i : Z) | PWReady (addr n i : Z)
  | PRSleep (addr n : Z) | PRReady (addr n : Z).

(** What readers have seen: a byte in their memory, or a call that ended where
    their memory cannot be stored to. *)
Inductive revent : Type := Got (b : Z) | Fault.

(** The pipe and its threads; the bytes [pipewrite] was given and reported as
    written, and what the readers saw. *)
Record pmach := Pmach { mp : pipe; pths : list pthread; written : list Z; received : list revent }.

Definition wake_pthread (wr ww : bool) (t : pthread) : pthread :=
  match t with
  | PRSleep a n => if wr then PRReady a n else t
  | PWSleep a n i => if ww then PWReady a n i else t
  | _ => t
  end.

(** The bytes at [addr + i] on that a write with this result reports as done,
    read from the memory of its caller. *)
Definition given (u : U) (addr i : Z) (r : pres) : list Z :=
  match r with
  | PRet r => if r =? -1 then [] else user_data u addr i (r - i)
  | PAsleep j => user_data u addr i (j - i)
  end.

(** What the caller of a read with this result finds in its memory. *)
Definition found (u : U) (addr n : Z) (r : pres) : list revent :=
  match r with
  | PRet r => (Got <$> user_data u addr 0 r) ++ (if (0 <=? r) && (r <? n) && no_store u (u64 (addr + r)) then [Fault] else [])
  | PAsleep _ => []
  end.

(** The machine after a call of thread [t] that left [s']. *)
Definition after_call (m : pmach) (t : nat) (x : pthread) (s' : @pst U) (ths : list pthread) (w : list Z) (r : list revent) : pmach :=
  Pmach (pi s') (<[t := x]> ths) (written m ++ w) (received m ++ r).

Definition wakes_p (lossy : bool) (m : pmach) (s' : @pst U) (ths : list pthread) : Prop :=
  wakes lossy (wake_pthread (woke_read s') (woke_write s')) (pths m) ths.

Inductive pstep (lossy : bool) (m : pmach) : pmach → Prop :=
  | ps_write t addr n i killed u r s' ths :
      (pths m !! t = Some PIdle ∧ i = 0) ∨ pths m !! t = Some (PWReady addr n i) → writeopen (mp m) ≠ 0 →
      pipewrite killed addr n i (Pst (mp m) u false false) = Ok r s' → wakes_p lossy m s' ths →
      pstep lossy m (after_call m t (match r with PRet _ => PIdle | PAsleep j => PWSleep addr n j end) s' ths (given u addr i r) [])
  | ps_read t addr n killed u r s' ths :
      pths m !! t = Some PIdle ∨ pths m !! t = Some (PRReady addr n) → readopen (mp m) ≠ 0 →
      piperead killed addr n (Pst (mp m) u false false) = Ok r s' → wakes_p lossy m s' ths →
      pstep lossy m (after_call m t (match r with PRet _ => PIdle | PAsleep _ => PRSleep addr n end) s' ths [] (found (um s') addr n r))
  | ps_close t writable u freed s' ths :
      pths m !! t = Some PIdle → pipeclose writable (Pst (mp m) u false false) = Ok freed s' → wakes_p lossy m s' ths →
      pstep lossy m (after_call m t PIdle s' ths [] [])
  | ps_kill t x :
      pths m !! t = Some x →
      pstep lossy m (Pmach (mp m) (<[t := wake_pthread true true x]> (pths m)) (written m) (received m)).

Definition pmach0 (junk : list Z) (nt : nat) : pmach := Pmach (pipe_init junk) (replicate nt PIdle) [] [].

(** The bytes taken out of the pipe, from what the readers saw: those they got,
    and perhaps one for each fault. *)
Inductive consumed : list revent → list Z → Prop :=
  | cons_nil : consumed [] []
  | cons_got b es l : consumed es l → consumed (Got b :: es) (b :: l)
  | cons_fault es l : consumed es l → consumed (Fault :: es) l
  | cons_lost b es l : consumed es l → consumed (Fault :: es) (b :: l).

Fixpoint got (es : list revent) : list Z :=
  match es with [] => [] | Got b :: es' => b :: got es' | Fault :: es' => got es' end.

Lemma consumed_app es1 es2 l1 l2 : consumed es1 l1 → consumed es2 l2 → consumed (es1 ++ es2) (l1 ++ l2).
Proof. intros H1 H2. induction H1; cbn; [done|by constructor..]. Qed.

Lemma consumed_got l : consumed (Got <$> l) l.
Proof. induction l; by constructor. Qed.

Lemma consumed_exact es l : consumed es l → (Fault ∉ es) → l = got es.
Proof. induction 1 as [|b es l _ IH|es l|b es l]; cbn; intros Hf; [done| |set_solver..]. f_equal. apply IH. set_solver. Qed.

(** The count a writer sleeps with. *)
Definition count_ok (x : pthread) : Prop := match x with PWSleep _ _ i | PWReady _ _ i => 0 ≤ i | _ => True end.

Record PInv (lossy : bool) (m : pmach) : Prop := {
  pv_ring : ring (mp m) (contents (mp m));
  pv_bytes : Forall (λ b, 0 ≤ b < 256) (contents (mp m));
  pv_stream : ∃ l, consumed (received m) l ∧ written m = l ++ contents (mp m);
  pv_count : Forall count_ok (pths m);
  pv_rsleep : lossy = false → ∀ t a n, pths m !! t = Some (PRSleep a n) → contents (mp m) = [] ∧ writeopen (mp m) ≠ 0;
  pv_wsleep : lossy = false → ∀ t a n i, pths m !! t = Some (PWSleep a n i) →
      Z.of_nat (length (contents (mp m))) = PIPESIZE ∧ readopen (mp m) ≠ 0
}.

Lemma wakes_p_lookup m s' ths t x y i :
  wakes_p false m s' ths → <[t := x]> ths !! i = Some y →
  y = x ∨ ∃ z, pths m !! i = Some z ∧ y = wake_pthread (woke_read s') (woke_write s') z.
Proof.
  intros Hw. rewrite list_lookup_insert_Some. intros [(-> & -> & _)|[_ Hy]]; [by left|right].
  destruct (wakes_lookup _ _ _ _ Hw Hy) as (z & Hz & [->|[? _]]); [eauto|done].
Qed.

Lemma counts_wake lossy m s' ths t x : wakes_p lossy m s' ths → Forall count_ok (pths m) → count_ok x → Forall count_ok (<[t := x]> ths).
Proof.
  intros Hw Hm Hx. apply Forall_insert; [|done]. unfold wakes_p in Hw. revert Hm. induction Hw as [|y z l l' Hy _ IH]; [done|].
  intros [Hc Hl]%Forall_cons. constructor; [|by apply IH]. destruct Hy as [->|[_ ->]]; [|done]. by destruct y, (woke_read s'), (woke_write s').
Qed.

(** Appending: sleeping readers are woken unless nothing was appended. *)
Lemma PInv_write lossy m t x s' ths l :
  PInv lossy m → ring (pi s') (contents (mp m) ++ l) → Forall (λ b, 0 ≤ b < 256) l → same_flags (mp m) (pi s') → wakes_p lossy m s' ths →
  (l ≠ [] → woke_read s' = true) → count_ok x →
  (∀ a n, x ≠ PRSleep a n) →
  (∀ a n i, x = PWSleep a n i → Z.of_nat (length (contents (mp m) ++ l)) = PIPESIZE ∧ readopen (mp m) ≠ 0) →
  PInv lossy (after_call m t x s' ths l []).
Proof.
  intros [Hr Hby (tk & Htk & Hst) Hcn Hrs Hws] Hr' Hl [Hro Hwo] Hwk Hw Hxc Hx1 Hx2. pose proof (ring_contents _ _ Hr') as Hc.
  split; simpl; rewrite ?Hc.
  - done.
  - by apply Forall_app.
  - exists tk. by rewrite app_nil_r, Hst, <-(assoc_L (++)).
  - by eapply counts_wake.
  - intros -> i a n Hi. apply (wakes_p_lookup _ _ _ _ _ _ _ Hwk) in Hi as [Hi|(z & Hz & Hi)]; [by destruct (Hx1 a n)|].
    destruct z; simpl in Hi; repeat case_match; simplify_eq. rewrite Hwo.
    destruct (Hrs eq_refl _ _ _ Hz) as [-> ?]. destruct l; [done|]. by specialize (Hw ltac:(done)).
  - intros -> i a n j Hi. apply (wakes_p_lookup _ _ _ _ _ _ _ Hwk) in Hi as [Hi|(z & Hz & Hi)]; [rewrite Hro; by apply (Hx2 a n j)|].
    destruct z; simpl in Hi; repeat case_match; simplify_eq. rewrite Hro.
    destruct (Hws eq_refl _ _ _ _ Hz) as [Hln ?]. split; [|done]. pose proof (rb_size _ _ _ _ _ _ Hr') as Hsz. rewrite length_app in *. lia.
Qed.

(** Taking: sleeping writers are woken unless nothing was taken. *)
Lemma PInv_read lossy m t x s' ths l q' es :
  PInv lossy m → contents (mp m) = l ++ q' → ring (pi s') q' → consumed es l → same_flags (mp m) (pi s') → wakes_p lossy m s' ths →
  (l ≠ [] → woke_write s' = true) → count_ok x →
  (∀ a n, x = PRSleep a n → q' = [] ∧ writeopen (mp m) ≠ 0) →
  (∀ a n i, x ≠ PWSleep a n i) →
  PInv lossy (after_call m t x s' ths [] es).
Proof.
  intros [Hr Hby (tk & Htk & Hst) Hcn Hrs Hws] Hl Hr' Hes [Hro Hwo] Hwk Hw Hxc Hx1 Hx2. pose proof (ring_contents _ _ Hr') as Hc.
  split; simpl; rewrite ?Hc.
  - done.
  - rewrite Hl in Hby. by apply Forall_app in Hby as [_ ?].
  - exists (tk ++ l). split; [by apply consumed_app|]. by rewrite app_nil_r, Hst, Hl, <-(assoc_L (++)).
  - by eapply counts_wake.
  - intros -> i a n Hi. apply (wakes_p_lookup _ _ _ _ _ _ _ Hwk) in Hi as [Hi|(z & Hz & Hi)]; [rewrite Hwo; by apply (Hx1 a n)|].
    destruct z; simpl in Hi; repeat case_match; simplify_eq. rewrite Hwo.
    destruct (Hrs eq_refl _ _ _ Hz) as [H0 ?]. rewrite Hl in H0. by apply app_nil in H0 as [_ ->].
  - intros -> i a n j Hi. apply (wakes_p_lookup _ _ _ _ _ _ _ Hwk) in Hi as [Hi|(z & Hz & Hi)]; [by destruct (Hx2 a n j)|].
    destruct z; simpl in Hi; repeat case_match; simplify_eq. rewrite Hro.
    destruct (Hws eq_refl _ _ _ _ Hz) as [Hln ?]. rewrite Hl in Hln. destruct l; [done|]. by specialize (Hw ltac:(done)).
Qed.

Lemma PInv_close lossy m t writable u freed s' ths :
  PInv lossy m → pipeclose writable (Pst (mp m) u false false) = Ok freed s' → wakes_p lossy m s' ths →
  PInv lossy (after_call m t PIdle s' ths [] []).
Proof.
  intros [Hr Hby Hst Hcn Hrs Hws] Hcl Hwk.
  assert (contents (pi s') = contents (mp m) ∧ ring (pi s') (contents (mp m)) ∧
          (if writable then woke_read s' = true ∧ readopen (pi s') = readopen (mp m)
           else woke_write s' = true ∧ writeopen (pi s') = writeopen (mp m))) as (Hc & Hr' & Hw).
  { unfold pipeclose in Hcl. destruct writable; unfold upd_pipe, wakeup_nread, wakeup_nwrite, modify, gets, mbind, M_bind in Hcl;
      simpl in Hcl; injection Hcl as _ <-; (split; [done|]); (split; [|done]); by destruct Hr; split. }
  split; simpl; rewrite ?Hc, ?app_nil_r; try done.
  - by eapply counts_wake.
  - intros -> i a n Hi. apply (wakes_p_lookup _ _ _ _ _ _ _ Hwk) in Hi as [Hi|(z & Hz & Hi)]; [done|].
    destruct z; simplify_eq/=; [destruct (woke_write s'); by simplify_eq|].
    destruct (woke_read s') eqn:E; simplify_eq. destruct writable; [by destruct Hw|]. destruct Hw as [_ ->]. by eapply Hrs.
  - intros -> i a n j Hi. apply (wakes_p_lookup _ _ _ _ _ _ _ Hwk) in Hi as [Hi|(z & Hz & Hi)]; [done|].
    destruct z; simplify_eq/=; [|destruct (woke_read s'); by simplify_eq].
    destruct (woke_write s') eqn:E; simplify_eq. destruct writable; [|by destruct Hw]. destruct Hw as [_ ->]. by eapply Hws.
Qed.

(** What a write says it wrote is what it appended. *)
Lemma given_ok killed addr n i (s s' : @pst U) q r : 0 ≤ i → pipewrite_post killed addr n i s q r s' →
  user_bytes (um s) addr i (given (um s) addr i r) ∧ ring (pi s') (q ++ given (um s) addr i r).
Proof.
  intros Hi (l & j & (Hj & Hr & _ & Hub & _) & Hres). enough (given (um s) addr i r = l) as -> by done.
  assert (user_data (um s) addr i (j - i) = l) as El by (rewrite <-(user_bytes_data _ _ _ _ Hub); f_equal; lia).
  destruct r as [r|j']; simpl in *.
  - destruct Hres as [(-> & -> & _)|(-> & _)]; [done|]. by destruct (Z.eqb_spec j (-1)); [lia|].
  - by destruct Hres as (-> & _).
Qed.

(** What a reader finds accounts for what was taken. *)
Lemma found_ok addr n (u u' : U) l lost i : put_bytes u addr 0 l = Some u' → i = Z.of_nat (length l) →
  Forall (λ b, 0 ≤ b < 256) l → Z.of_nat (length l) ≤ PIPESIZE →
  lost = [] ∨ (∃ x, lost = [x] ∧ i < n ∧ copyout1 (u64 (addr + i)) x u' = None) →
  consumed (found u' addr n (PRet i)) (l ++ lost).
Proof.
  intros Hput -> Hall Hlen Hlost. unfold found. unfold PIPESIZE in Hlen.
  destruct (put_bytes_there _ _ _ _ _ Hput) as [Hub _]; [lia|lia|done|]. rewrite (user_bytes_data _ _ _ _ Hub).
  apply consumed_app; [apply consumed_got|]. destruct Hlost as [->|(x & -> & Hi & Hf)].
  - case_match; repeat constructor.
  - unfold no_store. rewrite (copyout1_fault _ _ 0 _ Hf), (proj2 (Z.leb_le _ _)), (proj2 (Z.ltb_lt _ _)) by lia. apply cons_lost, cons_nil.
Qed.

Lemma PInv_step lossy m m' : PInv lossy m → pstep lossy m m' → PInv lossy m'.
Proof.
  intros HI Hstep.
  destruct Hstep as [t addr n i killed u r s' ths Ht Ho Hw Hwk|t addr n killed u r s' ths Ht Ho Hw Hwk|t wr u freed s' ths Ht Hw Hwk|t x Ht].
  - pose proof (wp_run _ _ _ _ _ (pipewrite_ok killed addr n i (Pst (mp m) u false false) _ (pv_ring _ _ HI)) Hw) as Hpost.
    assert (0 ≤ i) as Hi by (destruct Ht as [[_ ->]|Ht]; [done|]; exact (Forall_lookup_1 _ _ _ _ (pv_count _ _ HI) Ht)).
    destruct (given_ok _ _ _ _ _ _ _ _ Hi Hpost) as [Hub Hring]. simpl in Hub, Hring.
    destruct Hpost as (l & j & (Hj & Hr & _ & _ & Hfl & _ & Hl) & Hres).
    assert (given u addr i r = l) as E by (eapply (inj (app _)); rewrite <-(ring_contents _ _ Hring); by apply ring_contents).
    rewrite E in *. apply PInv_write; try done; [by eapply user_bytes_range| |destruct r as [r|j']; naive_solver lia..].
    destruct r as [r|j']; naive_solver.
  - pose proof (wp_run _ _ _ _ _ (piperead_ok killed addr n (Pst (mp m) u false false) _ (pv_ring _ _ HI)) Hw) as Hpost.
    unfold piperead_post in Hpost. simpl in Hpost. case_decide as Hd.
    + destruct Hpost as [-> ->]. apply (PInv_read _ m t _ _ _ [] (contents (mp m))); simpl; try done.
      * apply HI.
      * destruct killed; constructor.
      * by destruct killed.
      * intros a n' i. by destruct killed.
    + destruct Hpost as (l & lost & q' & i & Hq & -> & Hi & Hr & Hfl & Hput & Hww & _ & Hend).
      pose proof (pv_bytes _ _ HI) as Hby. pose proof (rb_size _ _ _ _ _ _ (pv_ring _ _ HI)) as Hsz. rewrite Hq in Hby, Hsz.
      apply Forall_app in Hby as [Hby _]. rewrite !length_app in Hsz.
      apply (PInv_read _ m t _ _ _ (l ++ lost) q'); try done; [by rewrite <-(assoc_L (++))|].
      eapply found_ok; [exact Hput|done|done|lia|]. destruct Hend as [[-> _]|Hend]; [by left|by right].
  - by eapply PInv_close.
  - destruct HI as [Hr Hby Hst Hcn Hrs Hws]. split; simpl; try done.
    + apply Forall_insert; [done|]. pose proof (Forall_lookup_1 _ _ _ _ Hcn Ht). by destruct x.
    + intros E i a n. rewrite list_lookup_insert_Some. intros [(_ & Hx & _)|[_ ?]]; [by destruct x|by eapply Hrs].
    + intros E i a n j. rewrite list_lookup_insert_Some. intros [(_ & Hx & _)|[_ ?]]; [by destruct x|by eapply Hws].
Qed.

Lemma PInv_init lossy junk nt : length junk = Z.to_nat PIPESIZE → PInv lossy (pmach0 junk nt).
Proof.
  intros Hj. assert (ring (pipe_init junk) []) as Hr by (by split).
  pose proof (ring_contents _ _ Hr) as Hc. split; simpl; rewrite ?Hc; try done.
  - exists []. by repeat constructor.
  - by apply Forall_replicate.
  - by intros _ t a n i [??]%lookup_replicate.
Qed.

Lemma PInv_steps lossy m m' : PInv lossy m → rtc (pstep lossy) m m' → PInv lossy m'.
Proof. intros HI Hs. induction Hs; eauto using PInv_step. Qed.
End threads.

(** ** Theorems *)

(** C11. A pipe is a FIFO byte stream: in every interleaving of writes, reads,
    closes and kills, the bytes that [pipewrite] took from its callers' memory
    and reported as written are, in order, the bytes that readers found in their
    own memory followed by the at most 512 bytes in the ring, across the
    wrap-around of the ring and of the 32-bit counters.  The one exception is a
    read that stops where its caller's memory cannot be stored to: it may drop
    one byte.  This holds also when sleepers miss wakeups ([lossy]).  If no
    interrupt falls in the window of [sleep], so that every sleeper gets its
    wakeups, a reader sleeps only while the pipe is empty and a writer exists, a
    writer only while it is full and a reader exists. *)
Theorem pipe_stream {U} {UM : UserMem U} lossy junk nt m
    (Hj : length junk = Z.to_nat PIPESIZE) (Hr : rtc (pstep lossy) (pmach0 junk nt) m) :
  (∃ l, consumed (received m) l ∧ written m = l ++ contents (mp m)) ∧
  (Fault ∉ received m → written m = got (received m) ++ contents (mp m)) ∧
  Z.of_nat (length (contents (mp m))) ≤ PIPESIZE ∧
  (lossy = false →
   (∀ t a n, pths m !! t = Some (PRSleep a n) → contents (mp m) = [] ∧ writeopen (mp m) ≠ 0) ∧
   (∀ t a n i, pths m !! t = Some (PWSleep a n i) →
      Z.of_nat (length (contents (mp m))) = PIPESIZE ∧ readopen (mp m) ≠ 0)).
Proof.
  destruct (PInv_steps _ _ _ (PInv_init lossy junk nt Hj) Hr) as [Hring _ (l & Hl & Hst) _ Hrs Hws].
  split; [eauto|]. split; [intros Hf; by rewrite Hst, (consumed_exact _ _ Hl Hf)|]. split; [apply Hring|]. intros E. by split; [apply Hrs|apply Hws].
Qed.

(** Five bytes written by thread 0, two of them read by thread 1. *)
Lemma pipe_run : ∃ m, rtc (pstep (U := list Z) false) (pmach0 (replicate 512 0) 2) m ∧ received m = [Got 1; Got 2] ∧ contents (mp m) = [3; 4; 5].
Proof.
  eexists. split; [|split].
  - eapply rtc_l; [eapply (ps_write _ _ 0 0 5 0 false [1; 2; 3; 4; 5]); [left; done|done|vm_compute; reflexivity|apply wakes_all]|].
    eapply rtc_l; [eapply (ps_read _ _ 1 0 2 false [0; 0; 0]); [left; done|done|vm_compute; reflexivity|apply wakes_all]|]. apply rtc_refl.
  - vm_compute. reflexivity.
  - vm_compute. reflexivity.
Qed.

Lemma pipe_stream_witness :
  ∃ m, rtc (pstep (U := list Z) false) (pmach0 (replicate 512 0) 2) m ∧ written m = [1; 2; 3; 4; 5].
Proof.
  destruct pipe_run as (m & Hr & Ht & Hc). exists m. split; [exact Hr|].
  rewrite (proj1 (proj2 (pipe_stream false (replicate 512 0) 2 m eq_refl Hr))), Ht, Hc; [reflexivity|].
  rewrite Ht. set_solver.
Defined.

(** [pipewrite] appends to the queue a prefix of the caller's bytes, in
    order.  It returns the number of bytes it transferred when all are done or
    the caller's memory faults, -1 without effect when the read end is closed
    or the caller is killed, and it goes to sleep only when the ring is full
    with bytes still to go; in all cases but -1 it wakes the readers. *)
Theorem pipewrite_spec {U} {UM : UserMem U} killed addr n i s q (Hq : ring (pi s) q) :
  wp (pipewrite killed addr n i) (pipewrite_post killed addr n i s q) s.
Proof. by apply pipewrite_ok. Qed.

Lemma pipewrite_spec_witness :
  let s := Pst (pipe_init (replicate 512 0)) [7; 8; 9] false false in
  wp (pipewrite false 1 2 0) (pipewrite_post false 1 2 0 s []) s.
Proof. intros s. apply pipewrite_spec. split; done. Defined.

(** [piperead] removes bytes from the front of the queue and stores them in
    order in the caller's memory.  On an empty pipe with an open write end it
    sleeps (or returns -1 when killed) and changes nothing; otherwise it takes
    as many bytes as asked for or available, returns how many it stored, and
    wakes the writers.  A byte whose [copyout] fails has already been taken out
    of the ring: it is lost, and not counted. *)
Theorem piperead_spec {U} {UM : UserMem U} killed addr n s q (Hq : ring (pi s) q) :
  wp (piperead killed addr n) (piperead_post killed addr n s q) s.
Proof. by apply piperead_ok. Qed.

Lemma piperead_spec_witness :
  let s := Pst (pipe_init (replicate 512 0)) [7; 8; 9] false false in
  wp (piperead false 1 2) (piperead_post false 1 2 s []) s.
Proof. intros s. apply piperead_spec. split; done. Defined.
