(* ===== verification/Mem.v ===== *)
(** * Physical memory and the kernel string functions (kernel/string.c)

    Memory is a finite map from byte addresses to bytes, 0 where nothing was
    written.  The functions of string.c are loops over it, with the pointer
    arithmetic of the code; their specifications say what every byte is
    afterwards. *)

From S2P Require Import Prelude.

(** ** Bytes and little-endian words *)

Notation mem := (gmap Z Z).

Definition rd (m : mem) (a : Z) : Z := default 0 (m !! a).
Definition wr (a v : Z) (m : mem) : mem := <[a := u8 v]> m.

(** All stored values are bytes. *)
Definition bytes_ok (m : mem) : Prop := ∀ a, 0 ≤ rd m a < 256.

Fixpoint rd_le (n : nat) (m : mem) (a : Z) : Z :=
  match n with O => 0 | S n' => rd m a + 256 * rd_le n' m (a + 1) end.
Fixpoint wr_le (n : nat) (a v : Z) (m : mem) : mem :=
  match n with O => m | S n' => wr_le n' (a + 1) (v / 256) (wr a v m) end.

Definition load64 (m : mem) (a : Z) : Z := rd_le 8 m a.
Definition store64 (a v : Z) (m : mem) : mem := wr_le 8 a v m.
Definition load32 (m : mem) (a : Z) : Z := rd_le 4 m a.
Definition store32 (a v : Z) (m : mem) : mem := wr_le 4 a v m.

(** ** string.c *)

(** [memset(dst, c, n)]. *)
Definition memset (dst c n : Z) (m : mem) : mem :=
  foldl (λ m i, wr (dst + i) c m) m (seqZ 0 n).

(** [memcmp(v1, v2, n)]. *)
Fixpoint memcmp_loop (n : nat) (s1 s2 : Z) (m : mem) : Z :=
  match n with
  | O => 0
  | S n' => if rd m s1 =? rd m s2 then memcmp_loop n' (s1 + 1) (s2 + 1) m else rd m s1 - rd m s2
  end.
Definition memcmp (v1 v2 n : Z) (m : mem) : Z := memcmp_loop (Z.to_nat n) v1 v2 m.

(** The two loops of [memmove]. *)
Fixpoint copy_down (n : nat) (d s : Z) (m : mem) : mem :=
  match n with O => m | S n' => copy_down n' (d - 1) (s - 1) (wr (d - 1) (rd m (s - 1)) m) end.
Fixpoint copy_up (n : nat) (d s : Z) (m : mem) : mem :=
  match n with O => m | S n' => copy_up n' (d + 1) (s + 1) (wr d (rd m s) m) end.

Definition memmove (dst src n : Z) (m : mem) : mem :=
  if n =? 0 then m
  else if (src <? dst) && (dst <? src + n) then copy_down (Z.to_nat n) (dst + n) (src + n) m
  else copy_up (Z.to_nat n) dst src m.

Definition memcpy (dst src n : Z) (m : mem) : mem := memmove dst src n m.

(** [strncmp(p, q, n)]; [char] is unsigned on RISC-V. *)
Fixpoint strncmp_loop (n : nat) (p q : Z) (m : mem) : Z :=
  match n with
  | O => 0
  | S n' => if negb (rd m p =? 0) && (rd m p =? rd m q) then strncmp_loop n' (p + 1) (q + 1) m
            else rd m p - rd m q
  end.
Definition strncmp (p q n : Z) (m : mem) : Z := strncmp_loop (Z.to_nat n) p q m.

(** The padding loop and the copy loop of [strncpy]. *)
Fixpoint pad_loop (n : nat) (s : Z) (m : mem) : mem :=
  match n with O => m | S n' => pad_loop n' (s + 1) (wr s 0 m) end.
Fixpoint strncpy_loop (n : nat) (s t : Z) (m : mem) : mem :=
  match n with
  | O => m
  | S n' =>
      let ch := rd m t in
      let m' := wr s ch m in
      if ch =? 0 then pad_loop n' (s + 1) m' else strncpy_loop n' (s + 1) (t + 1) m'
  end.
Definition strncpy (s t n : Z) (m : mem) : mem := strncpy_loop (Z.to_nat n) s t m.

(** The loop of [safestrcpy], with [n] already decremented; the state of [s]
    when it ends is where the final 0 goes. *)
Fixpoint safestrcpy_loop (n : nat) (s t : Z) (m : mem) : Z * mem :=
  match n with
  | O => (s, m)
  | S n' =>
      let ch := rd m t in
      let m' := wr s ch m in
      if ch =? 0 then (s + 1, m') else safestrcpy_loop n' (s + 1) (t + 1) m'
  end.
Definition safestrcpy (s t n : Z) (m : mem) : mem :=
  if n <=? 0 then m
  else let '(s', m') := safestrcpy_loop (Z.to_nat (n - 1)) s t m in wr s' 0 m'.

(** [strlen(s)]: the loop stops at the first 0; [fuel] bounds the search. *)
Fixpoint strlen_loop (fuel : nat) (s n : Z) (m : mem) : option Z :=
  match fuel with
  | O => None
  | S f => if rd m (s + n) =? 0 then Some n else strlen_loop f s (n + 1) m
  end.
Definition strlen (fuel : nat) (s : Z) (m : mem) : option Z := strlen_loop fuel s 0 m.

(** ** Reading back what was written *)

Lemma u8_range x : 0 ≤ u8 x < 256.
Proof. unfold u8. apply Z.mod_pos_bound. lia. Qed.

Lemma u8_id x : 0 ≤ x < 256 → u8 x = x.
Proof. intros. unfold u8. apply Z.mod_small. lia. Qed.

Lemma rd_wr a v m b : rd (wr a v m) b = if decide (b = a) then u8 v else rd m b.
Proof.
  unfold rd, wr. case_decide; [subst; by rewrite lookup_insert_eq|]. by rewrite lookup_insert_ne.
Qed.

Lemma rd_wr_eq a v m : rd (wr a v m) a = u8 v.
Proof. by rewrite rd_wr, decide_True. Qed.

Lemma rd_wr_ne a v m b : b ≠ a → rd (wr a v m) b = rd m b.
Proof. intros. by rewrite rd_wr, decide_False. Qed.

Lemma bytes_ok_wr a v m : bytes_ok m → bytes_ok (wr a v m).
Proof. intros H b. rewrite rd_wr. case_decide; [apply u8_range|apply H]. Qed.

Lemma bytes_ok_empty : bytes_ok ∅.
Proof. intros a. unfold rd. rewrite lookup_empty. simpl. lia. Qed.

Lemma rd_le_range n m a : bytes_ok m → 0 ≤ rd_le n m a < 256 ^ Z.of_nat n.
Proof.
  intros Hm. revert a. induction n as [|n IH]; intros a; [simpl; lia|].
  cbn [rd_le]. specialize (IH (a + 1)). specialize (Hm a). rewrite Nat2Z.inj_succ, Z.pow_succ_r by lia. lia.
Qed.

Lemma rd_wr_le n a v m b :
  rd (wr_le n a v m) b = if decide (a ≤ b < a + Z.of_nat n) then u8 (v / 256 ^ (b - a)) else rd m b.
Proof.
  revert a v m. induction n as [|n IH]; intros a v m; [simpl; by rewrite decide_False by lia|].
  cbn [wr_le]. rewrite IH, rd_wr. repeat case_decide; try lia; subst.
  - rewrite Z.div_div by lia. rewrite <-Z.pow_succ_r by lia. do 3 f_equal. lia.
  - rewrite Z.sub_diag. by rewrite Z.pow_0_r, Z.div_1_r.
Qed.

Lemma rd_le_ext n m m' a :
  (∀ b, a ≤ b < a + Z.of_nat n → rd m b = rd m' b) → rd_le n m a = rd_le n m' a.
Proof.
  revert a. induction n as [|n IH]; intros a H; [done|]. cbn [rd_le]. rewrite (H a) by lia.
  rewrite (IH (a + 1)); [done|]. intros b Hb. apply H. lia.
Qed.

Lemma rd_le_wr_le n a v m : rd_le n (wr_le n a v m) a = v mod 256 ^ Z.of_nat n.
Proof.
  assert (∀ k b, (∀ i, 0 ≤ i < Z.of_nat k → rd (wr_le n a v m) (b + i) = u8 (v / 256 ^ (b - a + i))) → a ≤ b →
    rd_le k (wr_le n a v m) b = (v / 256 ^ (b - a)) mod 256 ^ Z.of_nat k) as H.
  { induction k as [|k IH]; intros b Hb Hab; [simpl; by rewrite Z.mod_1_r|]. cbn [rd_le].
    rewrite IH; [|intros i Hi; replace (b + 1 + i) with (b + (1 + i)) by lia; rewrite Hb by lia; do 3 f_equal; lia|lia].
    specialize (Hb 0 ltac:(lia)). rewrite !Z.add_0_r in Hb. rewrite Hb. unfold u8.
    assert (v / 256 ^ (b + 1 - a) = v / 256 ^ (b - a) / 256) as ->.
    { replace (b + 1 - a) with (Z.succ (b - a)) by lia. rewrite Z.pow_succ_r, Z.div_div by lia. f_equal. lia. }
    rewrite Nat2Z.inj_succ, Z.pow_succ_r by lia. rewrite Z.rem_mul_r by lia. done. }
  rewrite H; [|intros i Hi; rewrite rd_wr_le, decide_True by lia; do 3 f_equal; lia|lia].
  by rewrite Z.sub_diag, Z.pow_0_r, Z.div_1_r.
Qed.

Lemma rd_le_wr_le_ne n k a v m b :
  b + Z.of_nat n ≤ a ∨ a + Z.of_nat k ≤ b → rd_le n (wr_le k a v m) b = rd_le n m b.
Proof.
  intros H. apply rd_le_ext. intros c Hc. rewrite rd_wr_le, decide_False; [done|lia].
Qed.

Lemma bytes_ok_wr_le n a v m : bytes_ok m → bytes_ok (wr_le n a v m).
Proof. intros H b. rewrite rd_wr_le. case_decide; [apply u8_range|apply H]. Qed.

Lemma load64_store64 a v m : 0 ≤ v < 2 ^ 64 → load64 (store64 a v m) a = v.
Proof. intros Hv. unfold load64, store64. rewrite rd_le_wr_le. by apply Z.mod_small. Qed.

Lemma load64_store64_ne a v m b : b + 8 ≤ a ∨ a + 8 ≤ b → load64 (store64 a v m) b = load64 m b.
Proof. intros H. apply rd_le_wr_le_ne. simpl. lia. Qed.

Lemma load64_ext m m' a : (∀ b, a ≤ b < a + 8 → rd m b = rd m' b) → load64 m a = load64 m' a.
Proof. intros H. apply rd_le_ext. intros b Hb. apply H. simpl in Hb. lia. Qed.

Lemma rd_store64_ne a v m b : ¬ (a ≤ b < a + 8) → rd (store64 a v m) b = rd m b.
Proof. intros H. unfold store64. rewrite rd_wr_le, decide_False; [done|]. simpl. lia. Qed.

Lemma bytes_ok_store64 a v m : bytes_ok m → bytes_ok (store64 a v m).
Proof. apply bytes_ok_wr_le. Qed.

Lemma rd_store32 a v m b : rd (store32 a v m) b = if decide (a ≤ b < a + 4) then u8 (v / 256 ^ (b - a)) else rd m b.
Proof. apply (rd_wr_le 4). Qed.

Lemma bytes_ok_store32 a v m : bytes_ok m → bytes_ok (store32 a v m).
Proof. apply bytes_ok_wr_le. Qed.

Lemma load64_range m a : bytes_ok m → 0 ≤ load64 m a < 2 ^ 64.
Proof. apply (rd_le_range 8). Qed.

(** ** What the loops do *)

Lemma rd_memset dst c n m a :
  rd (memset dst c n m) a = if decide (dst ≤ a < dst + n) then u8 c else rd m a.
Proof.
  unfold memset. assert (∀ k lo m, rd (foldl (λ m i, wr (dst + i) c m) m (seqZ lo (Z.of_nat k))) a =
    if decide (dst + lo ≤ a < dst + lo + Z.of_nat k) then u8 c else rd m a) as H.
  { induction k as [|k IH]; intros lo m'; [simpl; by rewrite decide_False by lia|].
    rewrite seqZ_cons by lia. simpl foldl. replace (Z.pred (Z.of_nat (S k))) with (Z.of_nat k) by lia.
    rewrite IH, rd_wr. repeat case_decide; try lia; done. }
  destruct (decide (0 ≤ n)).
  - specialize (H (Z.to_nat n) 0 m). rewrite Z2Nat.id, Z.add_0_r in H by done. exact H.
  - rewrite seqZ_nil by lia. simpl. by rewrite decide_False by lia.
Qed.

Lemma rd_le_zero n m a : (∀ b, a ≤ b < a + Z.of_nat n → rd m b = 0) → rd_le n m a = 0.
Proof.
  revert a. induction n as [|n IH]; intros a H; [done|]. cbn [rd_le].
  rewrite (H a), (IH (a + 1)); [lia| |lia]. intros b Hb. apply H. lia.
Qed.

Lemma load64_memset0 p n m a : p ≤ a → a + 8 ≤ p + n → load64 (memset p 0 n m) a = 0.
Proof. intros H1 H2. apply rd_le_zero. intros b Hb. simpl in Hb. rewrite rd_memset, decide_True by lia. done. Qed.

Lemma bytes_ok_memset dst c n m : bytes_ok m → bytes_ok (memset dst c n m).
Proof. intros H a. rewrite rd_memset. case_decide; [apply u8_range|apply H]. Qed.

Lemma rd_copy_up n d s m a :
  bytes_ok m → d ≤ s ∨ s + Z.of_nat n ≤ d →
  rd (copy_up n d s m) a = if decide (d ≤ a < d + Z.of_nat n) then rd m (s + (a - d)) else rd m a.
Proof.
  revert d s m. induction n as [|n IH]; intros d s m Hm Hov; [simpl; by rewrite decide_False by lia|].
  cbn [copy_up]. rewrite IH by (by apply bytes_ok_wr || lia). rewrite !rd_wr.
  repeat case_decide; try lia; try done.
  - f_equal. lia.
  - subst. rewrite u8_id by apply Hm. f_equal. lia.
Qed.

Lemma rd_copy_down n d s m a :
  bytes_ok m → s ≤ d →
  rd (copy_down n d s m) a = if decide (d - Z.of_nat n ≤ a < d) then rd m (s - (d - a)) else rd m a.
Proof.
  revert d s m. induction n as [|n IH]; intros d s m Hm Hov; [simpl; by rewrite decide_False by lia|].
  cbn [copy_down]. rewrite IH by (by apply bytes_ok_wr || lia). rewrite !rd_wr.
  repeat case_decide; try lia; try done.
  - f_equal. lia.
  - subst. rewrite u8_id by apply Hm. f_equal. lia.
Qed.

Lemma rd_memmove dst src n m a :
  bytes_ok m → 0 ≤ n →
  rd (memmove dst src n m) a = if decide (dst ≤ a < dst + n) then rd m (src + (a - dst)) else rd m a.
Proof.
  intros Hm Hn. unfold memmove. destruct (Z.eqb_spec n 0) as [->|]; [by rewrite decide_False by lia|].
  destruct (Z.ltb_spec src dst), (Z.ltb_spec dst (src + n)); simpl.
  1: rewrite rd_copy_down by (done || lia). 2-4: rewrite rd_copy_up by (done || lia).
  all: rewrite Z2Nat.id by lia; repeat case_decide; try lia; try done. f_equal. lia.
Qed.

Lemma bytes_ok_memmove dst src n m : bytes_ok m → 0 ≤ n → bytes_ok (memmove dst src n m).
Proof. intros Hm Hn a. rewrite rd_memmove by done. case_decide; apply Hm. Qed.

(** The bytes [a .. a+n-1]. *)
Definition bytes (m : mem) (a n : Z) : list Z := (λ i, rd m (a + i)) <$> seqZ 0 n.

(** The state of a string copy after the loop: [k] characters were copied. *)
Lemma safestrcpy_loop_ok n : ∀ s t m,
  bytes_ok m → t + Z.of_nat n ≤ s ∨ s + Z.of_nat n ≤ t →
  ∃ k m', 0 ≤ k ≤ Z.of_nat n ∧ (∀ i, 0 ≤ i < k → rd m (t + i) ≠ 0 ∧ rd m' (s + i) = rd m (t + i)) ∧
    (∀ a, ¬ (s ≤ a < s + Z.of_nat n) → rd m' a = rd m a) ∧
    ((k = Z.of_nat n ∧ safestrcpy_loop n s t m = (s + k, m')) ∨
     (k < Z.of_nat n ∧ rd m (t + k) = 0 ∧ rd m' (s + k) = 0 ∧ safestrcpy_loop n s t m = (s + k + 1, m'))).
Proof.
  induction n as [|n IH]; intros s t m Hm Hd.
  { exists 0, m. split; [lia|]. split; [lia|]. split; [done|]. left. by rewrite Z.add_0_r. }
  cbn [safestrcpy_loop]. destruct (Z.eqb_spec (rd m t) 0) as [E|E].
  { exists 0, (wr s (rd m t) m). split; [lia|]. split; [lia|]. split.
    - intros a Ha. apply rd_wr_ne. lia.
    - right. rewrite !Z.add_0_r, rd_wr_eq, E. split; [lia|done]. }
  destruct (IH (s + 1) (t + 1) (wr s (rd m t) m)) as (k & m' & Hk & Hc & Ho & Hend);
    [by apply bytes_ok_wr|lia|].
  assert (∀ i, 0 ≤ i < Z.of_nat (S n) → rd (wr s (rd m t) m) (t + i) = rd m (t + i)) as Hsrc.
  { intros i Hi. apply rd_wr_ne. lia. }
  exists (k + 1), m'. split; [lia|]. split; [|split].
  - intros i Hi. destruct (decide (i = 0)) as [->|Hi0].
    + rewrite !Z.add_0_r. split; [done|]. rewrite Ho, rd_wr_eq by lia. apply u8_id, Hm.
    + specialize (Hc (i - 1) ltac:(lia)). replace (t + 1 + (i - 1)) with (t + i) in Hc by lia.
      replace (s + 1 + (i - 1)) with (s + i) in Hc by lia. by rewrite Hsrc in Hc by lia.
  - intros a Ha. rewrite Ho by lia. apply rd_wr_ne. lia.
  - destruct Hend as [[-> ->]|(Hlt & H0 & H0' & ->)]; [left|right].
    + split; [lia|]. f_equal. lia.
    + replace (t + 1 + k) with (t + (k + 1)) in H0 by lia. rewrite Hsrc in H0 by lia.
      replace (s + 1 + k) with (s + (k + 1)) in H0' by lia. split; [lia|]. split; [done|]. split; [done|]. f_equal. lia.
Qed.

(** ** Theorems *)

(** [memmove] copies correctly also when source and destination overlap:
    afterwards every destination byte is the source byte of the memory before
    the call, and nothing else has changed. *)
Theorem memmove_copies dst src n m (Hm : bytes_ok m) (Hn : 0 ≤ n) :
  bytes (memmove dst src n m) dst n = bytes m src n ∧
  (∀ a, ¬ (dst ≤ a < dst + n) → rd (memmove dst src n m) a = rd m a).
Proof.
  split.
  - unfold bytes. apply list_fmap_ext. intros k i Hi. apply lookup_seqZ in Hi as [-> Hi].
    rewrite rd_memmove, decide_True by (done || lia). f_equal. lia.
  - intros a Ha. by rewrite rd_memmove, decide_False.
Qed.

Lemma memmove_copies_witness :
  let m := wr 12 3 (wr 11 2 (wr 10 1 ∅)) in bytes (memmove 11 10 3 m) 11 3 = [1; 2; 3].
Proof.
  intros m. rewrite (proj1 (memmove_copies 11 10 3 m ltac:(by repeat apply bytes_ok_wr; apply bytes_ok_empty) ltac:(by compute))).
  vm_compute. reflexivity.
Defined.

(** [safestrcpy(s, t, n)] always NUL-terminates inside the [n] bytes of the
    destination: it copies the string at [t] up to its end or [n-1] characters,
    puts a 0 behind them, and writes nothing outside [s .. s+n-1]. *)
Theorem safestrcpy_terminates s t n m
    (Hm : bytes_ok m) (Hn : 0 < n) (Hd : t + n ≤ s ∨ s + n ≤ t) :
  ∃ k, 0 ≤ k < n ∧
    (∀ i, 0 ≤ i < k → rd m (t + i) ≠ 0 ∧ rd (safestrcpy s t n m) (s + i) = rd m (t + i)) ∧
    rd (safestrcpy s t n m) (s + k) = 0 ∧ (k = n - 1 ∨ rd m (t + k) = 0) ∧
    (∀ a, ¬ (s ≤ a < s + n) → rd (safestrcpy s t n m) a = rd m a).
Proof.
  destruct (safestrcpy_loop_ok (Z.to_nat (n - 1)) s t m Hm ltac:(lia)) as (k & m' & Hk & Hc & Ho & Hend).
  unfold safestrcpy. destruct (Z.leb_spec n 0); [lia|]. rewrite Z2Nat.id in * by lia. exists k. split; [lia|].
  destruct Hend as [[-> ->]|(Hlt & H0 & H0' & ->)].
  - split; [intros i Hi; rewrite rd_wr_ne by lia; by apply Hc|]. split; [by rewrite rd_wr_eq|]. split; [by left|].
    intros a Ha. rewrite rd_wr_ne by lia. apply Ho. lia.
  - split; [intros i Hi; rewrite rd_wr_ne by lia; by apply Hc|]. split; [by rewrite rd_wr_ne by lia|]. split; [by right|].
    intros a Ha. rewrite rd_wr_ne by lia. apply Ho. lia.
Qed.

Lemma safestrcpy_terminates_witness :
  let m := wr 11 104 (wr 10 115 ∅) in
  ∃ k, 0 ≤ k < 16 ∧ rd (safestrcpy 100 10 16 m) (100 + k) = 0.
Proof.
  intros m. destruct (safestrcpy_terminates 100 10 16 m ltac:(by repeat apply bytes_ok_wr; apply bytes_ok_empty)
    ltac:(by compute) ltac:(left; by compute)) as (k & Hk & _ & H0 & _).
  exists k. exact (conj Hk H0).
Defined.

(** Clients use the laws above; conversion never unfolds the loops. *)
#[global] Opaque load64 store64 load32 store32 memset memmove.
