(* ===== verification/Kalloc.v ===== *)
(** * The physical page allocator (kernel/kalloc.c)

    The free list lives in the free pages themselves: the first eight bytes of
    a free page hold the address of the next one.  [FL m l] says that the list
    headed by [kmem.freelist] is exactly the list of pages [l]. *)

From S2P Require Import Prelude Machine Mem.

(** Addresses the linker script provides (kernel.ld, trampoline.S). *)
Class Layout := {
  kend : Z;
  etext : Z;
  trampoline : Z;
  kernel_pages : list Z; (* taken at boot and never given back: kernel stacks, the kernel page table, the disk rings *)
  kend_range : KERNBASE ≤ kend ≤ PHYSTOP;
  trampoline_page : trampoline mod PGSIZE = 0 ∧ 0 ≤ trampoline ≤ PHYSTOP
}.

(** ** Operations *)

(** Physical memory and [kmem.freelist]. *)
Record mst := Mst { ram : mem; freelist : Z }.

Definition on_ram (f : mem → mem) : M mst unit := modify (λ s, Mst (f (ram s)) (freelist s)).
Definition set_freelist (v : Z) : M mst unit := modify (λ s, Mst (ram s) v).

Section kalloc.
Context `{LY : Layout}.

Definition kfree (pa : Z) : M mst unit :=
  if negb (pa mod PGSIZE =? 0) || (pa <? kend) || (PHYSTOP <=? pa) then panic "kfree"
  else
    on_ram (memset pa 1 PGSIZE);;
    l ← gets freelist;
    on_ram (store64 pa l);;
    set_freelist pa.

Definition kalloc : M mst Z :=
  r ← gets freelist;
  (if r =? 0 then mret tt else n ← gets (λ s, load64 (ram s) r); set_freelist n);;
  (if r =? 0 then mret tt else on_ram (memset r 5 PGSIZE));;
  mret r.

(** The loop of [freerange] over the pages from [p] on. *)
Definition freerange_body (pa_end p : Z) : M mst (Z + unit) :=
  if p + PGSIZE <=? pa_end then kfree p;; mret (inl (p + PGSIZE)) else mret (inr tt).

Definition freerange (pa_start pa_end : Z) : M mst unit :=
  iterM (S (Z.to_nat (pa_end / PGSIZE))) (freerange_body pa_end) (PGROUNDUP pa_start).

Definition kinit : M mst unit :=
  set_freelist 0;; freerange kend PHYSTOP.

(** ** The free list *)

(** A page the allocator may hand out. *)
Definition page_ok (p : Z) : Prop := p mod PGSIZE = 0 ∧ kend ≤ p < PHYSTOP.

#[export] Instance page_ok_dec p : Decision (page_ok p).
Proof. unfold page_ok. apply _. Defined.

(** The list starting at [h] in memory. *)
Fixpoint chain (m : mem) (h : Z) (l : list Z) : Prop :=
  match l with [] => h = 0 | p :: l' => h = p ∧ chain m (load64 m p) l' end.

Record FL (s : mst) (l : list Z) : Prop := {
  fl_chain : chain (ram s) (freelist s) l;
  fl_pages : Forall page_ok l;
  fl_nodup : NoDup l
}.

(** [m'] differs from [m] only inside the pages [ps]. *)
Definition only_pages (ps : list Z) (m m' : mem) : Prop :=
  ∀ a, (∀ p, p ∈ ps → ¬ (p ≤ a < p + PGSIZE)) → rd m' a = rd m a.

Lemma only_pages_refl ps m : only_pages ps m m.
Proof. done. Qed.

Lemma only_pages_trans ps m1 m2 m3 : only_pages ps m1 m2 → only_pages ps m2 m3 → only_pages ps m1 m3.
Proof. intros H1 H2 a Ha. by rewrite H2, H1. Qed.

Lemma only_pages_mono ps ps' m m' : ps ⊆ ps' → only_pages ps m m' → only_pages ps' m m'.
Proof. intros Hs H a Ha. apply H. intros p Hp. by apply Ha, Hs. Qed.

Lemma page_ok_range p : page_ok p → 0 < p ∧ p + PGSIZE ≤ PHYSTOP.
Proof.
  intros [Hal Hr]. pose proof kend_range. unfold PHYSTOP, KERNBASE, PGSIZE in *. split; [lia|].
  Z.div_mod_to_equations. lia.
Qed.

(** An aligned word of a page that was not touched keeps its value. *)
Lemma only_pages_load64 ps m m' p i :
  only_pages ps m m' → (p ∉ ps) → page_ok p → Forall page_ok ps → 0 ≤ i → i + 8 ≤ PGSIZE →
  load64 m' (p + i) = load64 m (p + i).
Proof.
  intros Ho Hp Hpok Hps Hi Hi'. apply load64_ext. intros a Ha. apply Ho. intros q Hq Hr.
  rewrite Forall_forall in Hps. specialize (Hps q Hq). destruct Hpok as [Hal _], Hps as [Hal' _].
  assert (p = q); [|congruence]. unfold PGSIZE in *. Z.div_mod_to_equations. lia.
Qed.

Lemma chain_ext m m' h l :
  (∀ p, p ∈ l → load64 m' p = load64 m p) → chain m h l → chain m' h l.
Proof.
  revert h. induction l as [|p l IH]; simpl; intros h Hl; [done|]. intros [-> Hc]. split; [done|].
  rewrite Hl by (by left). apply IH; [|done]. intros q Hq. apply Hl. by right.
Qed.

Lemma FL_only_pages s l ps m' :
  FL s l → only_pages ps (ram s) m' → Forall page_ok ps → (∀ p, p ∈ ps → p ∉ l) → FL (Mst m' (freelist s)) l.
Proof.
  intros [Hc Hp Hn] Ho Hps Hd. split; simpl; [|done|done].
  eapply chain_ext; [|exact Hc]. intros p Hpl. rewrite Forall_forall in Hp.
  rewrite <-(Z.add_0_r p). eapply only_pages_load64; try done; [naive_solver|by apply Hp].
Qed.

Lemma only_pages_memset p c m : only_pages [p] m (memset p c PGSIZE m).
Proof. intros a Ha. rewrite rd_memset, decide_False; [done|]. apply Ha. by left. Qed.

Lemma only_pages_store64 p i v m : 0 ≤ i → i + 8 ≤ PGSIZE → only_pages [p] m (store64 (p + i) v m).
Proof.
  intros Hi Hi' a Ha. apply rd_store64_ne. specialize (Ha p ltac:(by left)). lia.
Qed.

(** *** The operations *)

Lemma FL_head_range s l : FL s l → 0 ≤ freelist s < 2 ^ 64.
Proof.
  intros [Hc Hp _]. destruct l as [|p l]; simpl in Hc; [lia|]. destruct Hc as [-> _].
  apply Forall_cons in Hp as [Hp _]. apply page_ok_range in Hp. unfold PHYSTOP, KERNBASE, PGSIZE in Hp. lia.
Qed.

Lemma kfree_ok s l p :
  FL s l → page_ok p → (p ∉ l) →
  wp (kfree p) (λ _ s', FL s' (p :: l) ∧ only_pages [p] (ram s) (ram s') ∧
                        (bytes_ok (ram s) → bytes_ok (ram s'))) s.
Proof.
  intros HFL Hp Hnin. pose proof (FL_head_range _ _ HFL) as Hhead. unfold kfree.
  destruct Hp as [Hal Hr]. rewrite Hal. simpl.
  destruct (Z.ltb_spec p kend); [lia|]. destruct (Z.leb_spec PHYSTOP p); [lia|]. simpl.
  unfold on_ram, set_freelist. wp_steps. cbn [ram freelist].
  set (m' := store64 p (freelist s) (memset p 1 PGSIZE (ram s))).
  assert (only_pages [p] (ram s) m') as Ho.
  { eapply only_pages_trans; [apply (only_pages_memset p 1)|].
    pose proof (only_pages_store64 p 0 (freelist s) (memset p 1 PGSIZE (ram s))) as Hst.
    rewrite Z.add_0_r in Hst. apply Hst; unfold PGSIZE; lia. }
  split; [|split; [done|]].
  - assert (FL (Mst m' (freelist s)) l) as [Hc Hpg Hnd].
    { eapply FL_only_pages; [done|done|apply Forall_singleton; by split|]. by intros q ->%list_elem_of_singleton. }
    split; cbn [ram freelist chain].
    + split; [done|]. assert (load64 m' p = freelist s) as -> by (by apply load64_store64). exact Hc.
    + by apply Forall_cons.
    + by apply NoDup_cons.
  - intros Hm. by apply bytes_ok_store64, bytes_ok_memset.
Qed.

Lemma kalloc_ok s l :
  FL s l →
  wp kalloc (λ r s', match l with
    | [] => r = 0 ∧ s' = s
    | p :: l' => r = p ∧ FL s' l' ∧ only_pages [p] (ram s) (ram s') ∧
                 (bytes_ok (ram s) → bytes_ok (ram s')) ∧ (∀ i, 0 ≤ i < PGSIZE → rd (ram s') (p + i) = 5)
    end) s.
Proof.
  intros HFL. pose proof HFL as [Hc Hp Hnd]. unfold kalloc, on_ram, set_freelist. wp_steps.
  destruct l as [|p l]; simpl in Hc.
  - rewrite Hc. simpl. by wp_steps.
  - destruct Hc as [-> Hc]. apply Forall_cons in Hp as [Hp Hps]. apply NoDup_cons in Hnd as [Hnin Hnd].
    pose proof (page_ok_range _ Hp) as Hpr. destruct (Z.eqb_spec p 0); [lia|]. wp_steps. cbn [ram freelist].
    pose proof (only_pages_memset p 5 (ram s)) as Ho. split; [done|]. split; [|split; [done|split]].
    + assert (FL (Mst (ram s) (load64 (ram s) p)) l) as HFL' by (by split).
      eapply (FL_only_pages _ _ [p] _ HFL'); [done|by apply Forall_singleton|]. by intros q ->%list_elem_of_singleton.
    + intros Hm. by apply bytes_ok_memset.
    + intros i Hi. rewrite rd_memset, decide_True by lia. done.
Qed.

(** The pages of [lo, hi), highest first. *)
Fixpoint pages_down (n : nat) (lo : Z) : list Z :=
  match n with O => [] | S n' => (lo + PGSIZE * Z.of_nat n') :: pages_down n' lo end.

Lemma elem_of_pages_down n lo p :
  p ∈ pages_down n lo ↔ ∃ k, (k < n)%nat ∧ p = lo + PGSIZE * Z.of_nat k.
Proof.
  induction n as [|n IH]; simpl; [rewrite elem_of_nil; split; [done|]; intros (k & ? & _); lia|].
  rewrite elem_of_cons, IH. split.
  - intros [->|(k & ? & ->)]; [exists n; split; [lia|done]|exists k; split; [lia|done]].
  - intros (k & Hk & ->). destruct (decide (k = n)) as [->|]; [by left|]. right. exists k. split; [lia|done].
Qed.

Lemma freerange_loop_ok lo hi n s :
  FL s [] → lo mod PGSIZE = 0 → kend ≤ lo → hi ≤ PHYSTOP → 0 ≤ hi →
  n = Z.to_nat ((hi - lo) / PGSIZE) →
  wp (iterM (S (Z.to_nat (hi / PGSIZE))) (freerange_body hi) lo) (λ _ s', FL s' (pages_down n lo) ∧ (bytes_ok (ram s) → bytes_ok (ram s'))) s.
Proof.
  intros HFL Hal Hlo Hhi Hhi0 Hn. pose proof kend_range as Hk.
  assert (0 ≤ lo) as Hlo0 by (unfold KERNBASE in Hk; lia).
  eapply wp_iter with
    (I := λ p s', ∃ k, p = lo + PGSIZE * Z.of_nat k ∧ FL s' (pages_down k lo) ∧ (bytes_ok (ram s) → bytes_ok (ram s')) ∧ (k ≤ n)%nat)
    (μ := λ p _, Z.to_nat ((hi - p) / PGSIZE)).
  - intros p s' (k & -> & HFL' & Hb & Hkn). unfold freerange_body.
    destruct (Z.leb_spec (lo + PGSIZE * Z.of_nat k + PGSIZE) hi) as [Hle|Hgt].
    + wp_step. eapply wp_mono; [|eapply kfree_ok; [done|..]].
      * intros [] s'' (HFL'' & _ & Hb''). wp_steps. split.
        -- exists (S k). split; [lia|]. split; [done|]. split; [by intros ?%Hb%Hb''|]. unfold PGSIZE in *. subst n. Z.div_mod_to_equations. lia.
        -- unfold PGSIZE in *. Z.div_mod_to_equations. lia.
      * split; [|unfold PGSIZE in *; lia]. rewrite Z.add_mod, Z.mul_comm, Z_mod_mult, Z.add_0_r, Hal by (unfold PGSIZE; lia). done.
      * rewrite elem_of_pages_down. intros (j & Hj & E). unfold PGSIZE in *. lia.
    + wp_steps. assert (k = n) as ->; [|done]. unfold PGSIZE in *. subst n. Z.div_mod_to_equations. lia.
  - exists 0%nat. split; [lia|]. split; [done|]. split; [done|lia].
  - assert ((hi - lo) / PGSIZE ≤ hi / PGSIZE) by (apply Z.div_le_mono; unfold PGSIZE; lia). lia.
Qed.

Lemma pages_down_all p :
  p ∈ pages_down (Z.to_nat ((PHYSTOP - PGROUNDUP kend) / PGSIZE)) (PGROUNDUP kend) ↔ page_ok p.
Proof.
  pose proof kend_range as Hk. unfold PHYSTOP, KERNBASE in Hk.
  destruct (PGROUNDUP_props kend) as [Hal Hr]; [unfold PGSIZE; lia|].
  rewrite elem_of_pages_down. unfold page_ok, PHYSTOP, KERNBASE, PGSIZE in *. split.
  - intros (k & Hk' & ->). split; [|Z.div_mod_to_equations; lia].
    rewrite Z.add_mod, Z.mul_comm, Z_mod_mult, Z.add_0_r, Hal by lia. done.
  - intros [Hpal Hpr]. exists (Z.to_nat ((p - PGROUNDUP kend) / 4096)).
    assert (PGROUNDUP kend ≤ p) by (Z.div_mod_to_equations; lia).
    split; [Z.div_mod_to_equations; lia|]. rewrite Z2Nat.id by (apply Z.div_pos; lia). Z.div_mod_to_equations. lia.
Qed.

(** ** Clients of the allocator *)

(** Memory and the pages that have been handed out. *)
Inductive astep : mst * list Z → mst * list Z → Prop :=
  | a_alloc s own p s' : kalloc s = Ok p s' → p ≠ 0 → astep (s, own) (s', p :: own)
  | a_full s own s' : kalloc s = Ok 0 s' → astep (s, own) (s', own)
  | a_free s own p s' : p ∈ own → kfree p s = Ok tt s' → astep (s, own) (s', filter (.≠ p) own)
  | a_write s own p i v s' :  (** a client writes into a page it owns *)
      p ∈ own → 0 ≤ i → i + 8 ≤ PGSIZE → s' = Mst (store64 (p + i) v (ram s)) (freelist s) →
      astep (s, own) (s', own).

(** Every page is either free or owned, once. *)
Definition AInv (x : mst * list Z) : Prop :=
  ∃ l, FL x.1 l ∧ NoDup (l ++ x.2) ∧ ∀ p, p ∈ l ++ x.2 ↔ page_ok p.

Lemma AInv_step x x' : AInv x → astep x x' → AInv x'.
Proof.
  intros (l & HFL & Hnd & Hall) Hstep. destruct Hstep as [s own p s' Ha Hp|s own s' Ha|s own p s' Hin Hf|s own p i v s' Hin Hi Hi' ->];
    simpl in *.
  - pose proof (wp_run _ _ _ _ _ (kalloc_ok s l HFL) Ha) as H. destruct l as [|q l]; [by destruct H|].
    destruct H as (-> & HFL' & _). exists l. split; [done|]. simpl. split; [|intros q']; by rewrite <-Permutation_middle.
  - pose proof (wp_run _ _ _ _ _ (kalloc_ok s l HFL) Ha) as H. destruct l as [|q l].
    { destruct H as [_ ->]. by exists []. }
    destruct H as (<- & _). pose proof (fl_pages _ _ HFL) as Hp. apply Forall_cons in Hp as [Hp _].
    apply page_ok_range in Hp. lia.
  - assert (page_ok p) as Hp by (apply Hall, elem_of_app; by right).
    assert (p ∉ l) as Hnin. { apply NoDup_app in Hnd as (_ & Hd & _). intros Hl. by apply (Hd p). }
    pose proof (wp_run _ _ _ _ _ (kfree_ok s l p HFL Hp Hnin) Hf) as (HFL' & _).
    assert (own ≡ₚ p :: filter (.≠ p) own) as HP.
    { apply NoDup_app in Hnd as (_ & _ & Hno). apply NoDup_Permutation; [done| |].
      - apply NoDup_cons. rewrite list_elem_of_filter. split; [tauto|by apply NoDup_filter].
      - intros q. rewrite elem_of_cons, list_elem_of_filter. destruct (decide (q = p)); naive_solver. }
    exists (p :: l). split; [done|]. simpl.
    assert (p :: l ++ filter (.≠ p) own ≡ₚ l ++ own) as HP2 by (by rewrite HP at 2; rewrite <-Permutation_middle).
    split; [by rewrite HP2|]. intros q. by rewrite HP2.
  - exists l. split; [|done]. eapply (FL_only_pages s l [p]); [done|by apply only_pages_store64| |].
    + apply Forall_singleton, Hall, elem_of_app. by right.
    + intros q ->%list_elem_of_singleton Hl. apply NoDup_app in Hnd as (_ & Hd & _). by apply (Hd p).
Qed.

Lemma AInv_steps x x' : AInv x → rtc astep x x' → AInv x'.
Proof. intros HI Hs. induction Hs; eauto using AInv_step. Qed.

Lemma kinit_list s : wp kinit (λ _ s', FL s' (pages_down (Z.to_nat ((PHYSTOP - PGROUNDUP kend) / PGSIZE)) (PGROUNDUP kend)) ∧ (bytes_ok (ram s) → bytes_ok (ram s'))) s.
Proof.
  unfold kinit, set_freelist. wp_steps. unfold freerange.
  pose proof kend_range as Hk. unfold PHYSTOP, KERNBASE in Hk.
  destruct (PGROUNDUP_props kend) as [Hal Hr]; [unfold PGSIZE; lia|].
  eapply wp_mono; [|eapply freerange_loop_ok; [|done|lia|done|done|reflexivity]]; [done|].
  split; simpl; [done|by constructor|constructor].
Qed.

Lemma kinit_ok s : wp kinit (λ _ s', AInv (s', []) ∧ (bytes_ok (ram s) → bytes_ok (ram s'))) s.
Proof.
  eapply wp_mono; [|apply kinit_list]. intros [] s' [HFL Hb]. split; [|exact Hb].
  eexists. split; [exact HFL|]. simpl. rewrite app_nil_r. split; [apply HFL|apply pages_down_all].
Qed.
End kalloc.

(** ** Theorems *)

(** [kinit] hands every page between the end of the kernel and [PHYSTOP]
    to the allocator, once: the free list then holds exactly the page-aligned
    addresses of that range, without repetition; the loop terminates and no
    [kfree] panics. *)
Theorem kinit_frees_all `{LY : Layout} s :
  wp kinit (λ _ s', ∃ l, FL s' l ∧ NoDup l ∧ ∀ p, p ∈ l ↔ p mod PGSIZE = 0 ∧ kend ≤ p < PHYSTOP) s.
Proof.
  eapply wp_mono; [|apply kinit_ok]. intros [] s' [(l & HFL & Hnd & Hall) _]. simpl in *. rewrite app_nil_r in *.
  exists l. done.
Qed.

(** The allocator never hands out a page twice and never loses one: after
    [kinit], through any sequence of [kalloc], [kfree] of owned pages and writes
    into owned pages, the pages in use and the free pages together are always
    exactly the pages of physical memory, each once; [kalloc] returns 0 only
    when no page is free. *)
Theorem kalloc_conserves `{LY : Layout} s0 s1 s own
    (Hinit : kinit s0 = Ok tt s1) (Hr : rtc astep (s1, []) (s, own)) :
  ∃ l, FL s l ∧ NoDup (l ++ own) ∧ (∀ p, p ∈ l ++ own ↔ page_ok p) ∧
    (∀ r s', kalloc s = Ok r s' → r = 0 ↔ l = []).
Proof.
  pose proof (wp_run _ _ _ _ _ (kinit_ok s0) Hinit) as [H0 _].
  destruct (AInv_steps _ _ H0 Hr) as (l & HFL & Hnd & Hall). exists l. split; [done|]. split; [done|]. split; [done|].
  intros r s' Hk. pose proof (wp_run _ _ _ _ _ (kalloc_ok s l HFL) Hk) as H. destruct l as [|p l]; [naive_solver|].
  destruct H as (-> & _). pose proof (fl_pages _ _ HFL) as Hp. apply Forall_cons in Hp as [Hp _].
  apply page_ok_range in Hp. split; [lia|done].
Qed.

(** A machine with twenty pages. *)
#[export] Program Instance small_layout : Layout := { kend := PHYSTOP - 20 * PGSIZE - 100; etext := KERNBASE; trampoline := KERNBASE; kernel_pages := [PHYSTOP - 2 * PGSIZE; PHYSTOP - PGSIZE] }.
Next Obligation. by compute. Qed.
Next Obligation. by compute. Qed.

Lemma kalloc_conserves_witness :
  ∃ s1 l, kinit (Mst ∅ 0) = Ok tt s1 ∧ FL s1 l ∧ NoDup (l ++ []).
Proof.
  destruct (proj1 (wp_ok kinit _ (Mst ∅ 0)) (kinit_ok (Mst ∅ 0))) as ([] & s1 & E & _).
  destruct (kalloc_conserves (Mst ∅ 0) s1 s1 [] E (rtc_refl _ _)) as (l & HFL & Hnd & _).
  exists s1, l. split; [exact E|]. split; [exact HFL|exact Hnd].
Defined.
