(* ===== verification/Vm.v ===== *)
(** * Virtual memory (kernel/vm.c)

    Sv39 page tables in physical memory, as the code manipulates them: a
    three-level walk over 512-entry pages, and on top of it mapping, unmapping,
    growing, copying and freeing of user address spaces and the copies between
    user and kernel memory.  This file holds the operations; the representation
    of a page table as a finite map and the theorems are in [Vmspec]. *)

From S2P Require Import Prelude Machine Mem Kalloc.

Section vm.
Context `{LY : Layout}.

(** [*pte] and [*pte = v]. *)
Definition load_pte (pte : Z) : M mst Z := gets (λ s, load64 (ram s) pte).
Definition store_pte (pte v : Z) : M mst unit := on_ram (store64 pte v).

(** [e & bit], as a C condition. *)
Definition has (e bit : Z) : bool := negb (Z.land e bit =? 0).

(** One iteration of the loop of [walk]: the next table, or the result. *)
Definition walk_level (va : Z) (alloc : bool) (level pagetable : Z) : M mst (Z + Z) :=
  let pte := pagetable + 8 * PX level va in
  e ← load_pte pte;
  if has e PTE_V then
    if negb (PTE_LEAF e =? 0) then mret (inr pte) else mret (inl (PTE2PA e))
  else if negb alloc then mret (inr 0)
  else
    p ← kalloc;
    if p =? 0 then mret (inr 0)
    else
      on_ram (memset p 0 PGSIZE);;
      store_pte pte (Z.lor (PA2PTE p) PTE_V);;
      mret (inl p).

(** [walk(pagetable, va, alloc)]: the address of the PTE, or 0. *)
Definition walk (pagetable va : Z) (alloc : bool) : M mst Z :=
  if MAXVA <=? va then panic "walk"
  else
    r2 ← walk_level va alloc 2 pagetable;
    match r2 with
    | inr pte => mret pte
    | inl t1 =>
        r1 ← walk_level va alloc 1 t1;
        match r1 with
        | inr pte => mret pte
        | inl t0 => mret (t0 + 8 * PX 0 va)
        end
    end.

Definition walkaddr (pagetable va : Z) : M mst Z :=
  if MAXVA <=? va then mret 0
  else
    pte ← walk pagetable va false;
    if pte =? 0 then mret 0
    else
      e ← load_pte pte;
      if negb (has e PTE_V) then mret 0
      else if negb (has e PTE_U) then mret 0
      else mret (PTE2PA e).

(** One iteration of the loop of [mappages]. *)
Definition mappages_body (pagetable last perm : Z) (x : Z * Z) : M mst ((Z * Z) + Z) :=
  let '(a, pa) := x in
  pte ← walk pagetable a true;
  if pte =? 0 then mret (inr (-1))
  else
    e ← load_pte pte;
    if has e PTE_V then panic "mappages: remap"
    else
      store_pte pte (Z.lor (Z.lor (PA2PTE pa) perm) PTE_V);;
      if a =? last then mret (inr 0)
      else mret (inl (u64 (a + PGSIZE), u64 (pa + PGSIZE))).

Definition mappages (pagetable va size pa perm : Z) : M mst Z :=
  if negb (va mod PGSIZE =? 0) then panic "mappages: va not aligned"
  else if negb (size mod PGSIZE =? 0) then panic "mappages: size not aligned"
  else if size =? 0 then panic "mappages: size"
  else iterM (Z.to_nat (size / PGSIZE)) (mappages_body pagetable (u64 (va + size - PGSIZE)) perm) (va, pa).

Definition kvmmap (kpgtbl va pa sz perm : Z) : M mst unit :=
  r ← mappages kpgtbl va sz pa perm;
  if negb (r =? 0) then panic "kvmmap" else mret tt.

(** One iteration of the loop of [uvmunmap]. *)
Definition uvmunmap_body (pagetable stop : Z) (do_free : bool) (a : Z) : M mst (Z + unit) :=
  if a <? stop then
    pte ← walk pagetable a false;
    if pte =? 0 then panic "uvmunmap: walk"
    else
      e ← load_pte pte;
      if negb (has e PTE_V) then panic "uvmunmap: not mapped"
      else if PTE_FLAGS e =? PTE_V then panic "uvmunmap: not a leaf"
      else
        (if do_free then kfree (PTE2PA e) else mret tt);;
        store_pte pte 0;;
        mret (inl (u64 (a + PGSIZE)))
  else mret (inr tt).

Definition uvmunmap (pagetable va npages : Z) (do_free : bool) : M mst unit :=
  if negb (va mod PGSIZE =? 0) then panic "uvmunmap: not aligned"
  else iterM (S (Z.to_nat npages)) (uvmunmap_body pagetable (u64 (va + npages * PGSIZE)) do_free) va.

Definition uvmcreate : M mst Z :=
  p ← kalloc;
  if p =? 0 then mret 0 else on_ram (memset p 0 PGSIZE);; mret p.

(** [uvmfirst(pagetable, src, sz)] with [src] a kernel address.  It does not check
    [kalloc]: writing to the null page is the fault [kerneltrap] panics on. *)
Definition uvmfirst (pagetable src sz : Z) : M mst unit :=
  if PGSIZE <=? sz then panic "uvmfirst: more than a page"
  else
    p ← kalloc;
    if p =? 0 then panic "kerneltrap" else
    on_ram (memset p 0 PGSIZE);;
    _ ← mappages pagetable 0 PGSIZE p (Z.lor (Z.lor (Z.lor PTE_W PTE_R) PTE_X) PTE_U);
    on_ram (memmove p src sz).

Definition uvmdealloc (pagetable oldsz newsz : Z) : M mst Z :=
  if oldsz <=? newsz then mret oldsz
  else
    (if PGROUNDUP newsz <? PGROUNDUP oldsz then
       let npages := s32 ((PGROUNDUP oldsz - PGROUNDUP newsz) / PGSIZE) in
       uvmunmap pagetable (PGROUNDUP newsz) (u64 npages) true
     else mret tt);;
    mret newsz.

(** One iteration of the loop of [uvmalloc]; [oldsz] is already rounded up. *)
Definition uvmalloc_body (pagetable oldsz newsz xperm a : Z) : M mst (Z + Z) :=
  if a <? newsz then
    p ← kalloc;
    if p =? 0 then uvmdealloc pagetable a oldsz;; mret (inr 0)
    else
      on_ram (memset p 0 PGSIZE);;
      r ← mappages pagetable a PGSIZE p (Z.lor (Z.lor PTE_R PTE_U) xperm);
      if negb (r =? 0) then kfree p;; uvmdealloc pagetable a oldsz;; mret (inr 0)
      else mret (inl (u64 (a + PGSIZE)))
  else mret (inr newsz).

Definition uvmalloc (pagetable oldsz newsz xperm : Z) : M mst Z :=
  if newsz <? oldsz then mret oldsz
  else
    let oldsz' := PGROUNDUP oldsz in
    iterM (S (Z.to_nat ((newsz - oldsz' + PGSIZE - 1) / PGSIZE))) (uvmalloc_body pagetable oldsz' newsz xperm) oldsz'.

(** [freewalk(pagetable)]; [depth] bounds the recursion, 3 for Sv39. *)
Fixpoint freewalk (depth : nat) (pagetable : Z) : M mst unit :=
  match depth with
  | O => λ _, NoFuel
  | S d =>
      forM (seqZ 0 512) (λ i,
        pte ← load_pte (pagetable + 8 * i);
        if has pte PTE_V && (Z.land pte (Z.lor (Z.lor PTE_R PTE_W) PTE_X) =? 0) then
          freewalk d (PTE2PA pte);; store_pte (pagetable + 8 * i) 0
        else if has pte PTE_V then panic "freewalk: leaf"
        else mret tt);;
      kfree pagetable
  end.

Definition uvmfree (pagetable sz : Z) : M mst unit :=
  (if 0 <? sz then uvmunmap pagetable 0 (PGROUNDUP sz / PGSIZE) true else mret tt);;
  freewalk 3 pagetable.

(** One iteration of the loop of [uvmcopy]; [inr (Some i)] is [goto err]. *)
Definition uvmcopy_body (old new sz i : Z) : M mst (Z + option Z) :=
  if i <? sz then
    pte ← walk old i false;
    if pte =? 0 then panic "uvmcopy: pte should exist"
    else
      e ← load_pte pte;
      if negb (has e PTE_V) then panic "uvmcopy: page not present"
      else
        p ← kalloc;
        if p =? 0 then mret (inr (Some i))
        else
          on_ram (memmove p (PTE2PA e) PGSIZE);;
          r ← mappages new i PGSIZE p (PTE_FLAGS e);
          if negb (r =? 0) then kfree p;; mret (inr (Some i))
          else mret (inl (u64 (i + PGSIZE)))
  else mret (inr None).

Definition uvmcopy (old new sz : Z) : M mst Z :=
  r ← iterM (S (Z.to_nat ((sz + PGSIZE - 1) / PGSIZE))) (uvmcopy_body old new sz) 0;
  match r with
  | None => mret 0
  | Some i => uvmunmap new 0 (i / PGSIZE) true;; mret (-1)
  end.

Definition uvmclear (pagetable va : Z) : M mst unit :=
  pte ← walk pagetable va false;
  if pte =? 0 then panic "uvmclear"
  else e ← load_pte pte; store_pte pte (Z.land e (u64 (Z.lnot PTE_U))).

(** One iteration of the loop of [copyout]: the loop variables are [dstva],
    [src] and [len]. *)
Definition copyout_body (pagetable : Z) (x : Z * Z * Z) : M mst ((Z * Z * Z) + Z) :=
  let '(dstva, src, len) := x in
  if 0 <? len then
    let va0 := PGROUNDDOWN dstva in
    if MAXVA <=? va0 then mret (inr (-1))
    else
      pte ← walk pagetable va0 false;
      if pte =? 0 then mret (inr (-1))
      else
        e ← load_pte pte;
        if negb (has e PTE_W) then mret (inr (-1))
        else
          pa0 ← walkaddr pagetable va0;
          if pa0 =? 0 then mret (inr (-1))
          else
            let n := Z.min (PGSIZE - (dstva - va0)) len in
            on_ram (memmove (pa0 + (dstva - va0)) src n);;
            mret (inl (va0 + PGSIZE, src + n, len - n))
  else mret (inr 0).

Definition copyout (pagetable dstva src len : Z) : M mst Z :=
  iterM (S (S (Z.to_nat (len / PGSIZE + 1)))) (copyout_body pagetable) (dstva, src, len).

Definition copyin_body (pagetable : Z) (x : Z * Z * Z) : M mst ((Z * Z * Z) + Z) :=
  let '(dst, srcva, len) := x in
  if 0 <? len then
    let va0 := PGROUNDDOWN srcva in
    pa0 ← walkaddr pagetable va0;
    if pa0 =? 0 then mret (inr (-1))
    else
      let n := Z.min (PGSIZE - (srcva - va0)) len in
      on_ram (memmove dst (pa0 + (srcva - va0)) n);;
      mret (inl (dst + n, va0 + PGSIZE, len - n))
  else mret (inr 0).

Definition copyin (pagetable dst srcva len : Z) : M mst Z :=
  iterM (S (S (Z.to_nat (len / PGSIZE + 1)))) (copyin_body pagetable) (dst, srcva, len).

(** The inner loop of [copyinstr] over at most [n] bytes at [p]: whether the
    0 was found, and [dst] and [max] afterwards. *)
Fixpoint copyinstr_page (n : nat) (p dst max : Z) : M mst (bool * Z * Z) :=
  match n with
  | O => mret (false, dst, max)
  | S n' =>
      c ← gets (λ s, rd (ram s) p);
      if c =? 0 then on_ram (wr dst 0);; mret (true, dst, max)
      else on_ram (wr dst c);; copyinstr_page n' (p + 1) (dst + 1) (max - 1)
  end.

Definition copyinstr_body (pagetable : Z) (x : Z * Z * Z) : M mst ((Z * Z * Z) + Z) :=
  let '(dst, srcva, max) := x in
  if 0 <? max then
    let va0 := PGROUNDDOWN srcva in
    pa0 ← walkaddr pagetable va0;
    if pa0 =? 0 then mret (inr (-1))
    else
      let n := Z.min (PGSIZE - (srcva - va0)) max in
      r ← copyinstr_page (Z.to_nat n) (pa0 + (srcva - va0)) dst max;
      let '(got_null, dst', max') := r in
      if got_null : bool then mret (inr 0) else mret (inl (dst', va0 + PGSIZE, max'))
  else mret (inr (-1)).

Definition copyinstr (pagetable dst srcva max : Z) : M mst Z :=
  iterM (S (S (Z.to_nat (max / PGSIZE + 1)))) (copyinstr_body pagetable) (dst, srcva, max).

(** [proc_mapstacks(kpgtbl)] of proc.c. *)
Definition proc_mapstacks (nproc : Z) (kpgtbl : Z) : M mst unit :=
  forM (seqZ 0 nproc) (λ p,
    pa ← kalloc;
    if pa =? 0 then panic "kalloc"
    else kvmmap kpgtbl (KSTACK p) pa PGSIZE (Z.lor PTE_R PTE_W)).

(** [kvmmake()]; the page from [kalloc] is not tested for 0. *)
Definition kvmmake : M mst Z :=
  kpgtbl ← kalloc;
  on_ram (memset kpgtbl 0 PGSIZE);;
  kvmmap kpgtbl UART0 UART0 PGSIZE (Z.lor PTE_R PTE_W);;
  kvmmap kpgtbl VIRTIO0 VIRTIO0 PGSIZE (Z.lor PTE_R PTE_W);;
  kvmmap kpgtbl PLIC PLIC 0x4000000 (Z.lor PTE_R PTE_W);;
  kvmmap kpgtbl KERNBASE KERNBASE (etext - KERNBASE) (Z.lor PTE_R PTE_X);;
  kvmmap kpgtbl etext etext (PHYSTOP - etext) (Z.lor PTE_R PTE_W);;
  kvmmap kpgtbl TRAMPOLINE trampoline PGSIZE (Z.lor PTE_R PTE_X);;
  proc_mapstacks (Z.of_nat NPROC) kpgtbl;;
  mret kpgtbl.

(** [pgpte(pagetable, va)]. *)
Definition pgpte (pagetable va : Z) : M mst Z := walk pagetable va false.
End vm.
