(* ===== verification/Vmspec.v ===== *)
(** * Page tables as finite maps (kernel/vm.c)

    [PT m root t]: the memory [m] holds a page table rooted at [root] whose
    table pages are given by [t], a map from index paths to pages: the empty
    path is the root, a path of length 2 is a last-level table.  The entries of
    the upper levels are determined by [t]; the entries of the last level are
    the mappings, read by [pte_of].  The specifications of the operations of
    [Vm] are stated on this map, and every one says which pages it may write
    and that no page is lost. *)

From S2P Require Import Prelude Machine Mem Kalloc Vm.

(** ** Flags of a PTE *)

Lemma has_flags e bit : 0 ≤ bit < 1024 → has e bit = has (PTE_FLAGS e) bit.
Proof.
  intros Hb. unfold has, PTE_FLAGS. do 2 f_equal. rewrite <-Z.land_assoc. f_equal.
  change 0x3FF with (Z.ones 10). rewrite Z.land_comm, Z.land_ones by lia. symmetry. apply Z.mod_small.
  change (2 ^ 10) with 1024. lia.
Qed.

Lemma PTE_LEAF_flags e : PTE_LEAF e = PTE_LEAF (PTE_FLAGS e).
Proof. unfold PTE_LEAF, PTE_FLAGS. by rewrite <-!Z.land_assoc. Qed.

(** A pointer to the table page [c]. *)
Definition table_pte (c : Z) : Z := Z.lor (PA2PTE c) PTE_V.

Section spec.
Context `{LY : Layout}.

Lemma page_ok_pte p : page_ok p → pte_ok_pa p.
Proof.
  intros Hp. pose proof (page_ok_range _ Hp) as Hr. destruct Hp as [Hal _]. split; [|done].
  unfold PHYSTOP, KERNBASE, PGSIZE in *. lia.
Qed.

Lemma table_pte_props c :
  page_ok c → has (table_pte c) PTE_V = true ∧ PTE_LEAF (table_pte c) = 0 ∧ PTE2PA (table_pte c) = c ∧
    0 ≤ table_pte c < 2 ^ 64.
Proof.
  intros Hc%page_ok_pte. unfold table_pte. assert (0 ≤ PTE_V < 1024) as HV by (by compute).
  rewrite has_flags, PTE_LEAF_flags, PTE_FLAGS_mkpte, PTE2PA_mkpte by done. split; [done|]. split; [done|]. split; [done|].
  rewrite mkpte_eq by done. destruct Hc as [Hc _]. change PTE_V with 1.
  change (2 ^ 56) with 72057594037927936 in Hc. zdm.
Qed.

(** ** Representation *)

Record PT (m : mem) (root : Z) (t : gmap (list Z) Z) : Prop := {
  pt_root : t !! [] = Some root;
  pt_paths : ∀ w p, t !! w = Some p → page_ok p ∧ (length w ≤ 2)%nat ∧ Forall (λ i, 0 ≤ i < 512) w;
  pt_low : ∀ i w p, t !! (i :: w) = Some p → i < 256;
  pt_inj : ∀ w w' p, t !! w = Some p → t !! w' = Some p → w = w';
  pt_prefix : ∀ w i p, t !! (w ++ [i]) = Some p → is_Some (t !! w);
  pt_entry : ∀ w p i, t !! w = Some p → (length w < 2)%nat → 0 ≤ i < 512 →
     load64 m (p + 8 * i) = match t !! (w ++ [i]) with Some c => table_pte c | None => 0 end
}.

(** The table pages. *)
Definition tpages (t : gmap (list Z) Z) : list Z := (map_to_list t).*2.

Lemma elem_of_tpages t p : p ∈ tpages t ↔ ∃ w, t !! w = Some p.
Proof.
  unfold tpages. rewrite list_elem_of_fmap. split.
  - intros ([w q] & -> & Hw%elem_of_map_to_list). by exists w.
  - intros [w Hw]. exists (w, p). by rewrite elem_of_map_to_list.
Qed.

Lemma tpages_insert t w p : t !! w = None → tpages (<[w := p]> t) ≡ₚ p :: tpages t.
Proof. intros Hw. unfold tpages. by rewrite map_to_list_insert. Qed.

Lemma tpages_ok m root t : PT m root t → Forall page_ok (tpages t).
Proof. intros HP. apply Forall_forall. intros p [w Hw]%elem_of_tpages. by apply (pt_paths _ _ _ HP) in Hw as [? _]. Qed.

(** Where the last-level entry of [va] is, and what it holds. *)
Definition leaf_at (t : gmap (list Z) Z) (va : Z) : option Z :=
  p ← t !! [PX 2 va; PX 1 va]; Some (p + 8 * PX 0 va).

Definition pte_of (m : mem) (t : gmap (list Z) Z) (va : Z) : Z :=
  match leaf_at t va with Some a => load64 m a | None => 0 end.

(** A page table, the free list, and nothing shared between them. *)
Record VM (s : mst) (root : Z) (t : gmap (list Z) Z) (l : list Z) : Prop := {
  vm_pt : PT (ram s) root t;
  vm_fl : FL s l;
  vm_disj : ∀ p, p ∈ tpages t → p ∉ l;
  vm_bytes : bytes_ok (ram s)
}.

(** Pages are conserved, table pages stay, and only table pages and pages that
    were free are written. *)
Definition vframe (s : mst) (t : gmap (list Z) Z) (l : list Z) (s' : mst) (t' : gmap (list Z) Z) (l' : list Z) : Prop :=
  t ⊆ t' ∧ tpages t' ++ l' ≡ₚ tpages t ++ l ∧ only_pages (tpages t ++ l) (ram s) (ram s').

Lemma vframe_refl s t l : vframe s t l s t l.
Proof. by split. Qed.

Lemma vframe_trans s1 t1 l1 s2 t2 l2 s3 t3 l3 :
  vframe s1 t1 l1 s2 t2 l2 → vframe s2 t2 l2 s3 t3 l3 → vframe s1 t1 l1 s3 t3 l3.
Proof.
  intros (H1 & H2 & H3) (H4 & H5 & H6). split; [by etrans|]. split; [by etrans|].
  eapply only_pages_trans; [done|]. eapply only_pages_mono; [|done]. intros p. by rewrite H2.
Qed.

(** *** Walking without allocation *)

Lemma has_0 b : has 0 b = false.
Proof. done. Qed.

(** One level of the walk. *)
Lemma walk_level_lookup s root t va alloc level w p :
  PT (ram s) root t → t !! w = Some p → (length w < 2)%nat → 0 ≤ level →
  walk_level va alloc level p s =
    match t !! (w ++ [PX level va]) with
    | Some c => Ok (inl c) s
    | None => if alloc then
        (q ← kalloc; if q =? 0 then mret (inr 0) else
           on_ram (memset q 0 PGSIZE);; store_pte (p + 8 * PX level va) (table_pte q);; mret (inl q)) s
        else Ok (inr 0) s
    end.
Proof.
  intros HP Hw Hlen Hlev. pose proof (PX_range level va Hlev) as HPX. unfold walk_level.
  unfold load_pte, gets, mbind at 1, M_bind at 1. rewrite (pt_entry _ _ _ HP w p _ Hw Hlen HPX).
  destruct (t !! (w ++ [PX level va])) as [c|] eqn:E.
  - destruct (table_pte_props c) as (-> & -> & -> & _); [by apply (pt_paths _ _ _ HP) in E as [? _]|]. done.
  - rewrite has_0. by destruct alloc.
Qed.

Lemma walk_lookup s root t va :
  PT (ram s) root t → 0 ≤ va < MAXVA → walk root va false s = Ok (default 0 (leaf_at t va)) s.
Proof.
  intros HP Hva. unfold walk. destruct (Z.leb_spec MAXVA va); [lia|].
  unfold mbind at 1, M_bind at 1. rewrite (walk_level_lookup s root t va false 2 [] root HP (pt_root _ _ _ HP)) by (simpl; lia).
  unfold leaf_at. simpl. destruct (t !! [PX 2 va]) as [c|] eqn:E2.
  - unfold mbind at 1, M_bind at 1. rewrite (walk_level_lookup s root t va false 1 [PX 2 va] c HP E2) by (simpl; lia).
    simpl. destruct (t !! [PX 2 va; PX 1 va]) as [c'|]; done.
  - destruct (t !! [PX 2 va; PX 1 va]) as [c'|] eqn:E; [|done].
    destruct (pt_prefix _ _ _ HP [PX 2 va] (PX 1 va) c' E) as [? ?]. congruence.
Qed.

(** *** Walking with allocation *)

(** A word of page [p] after a store into a different word. *)
Lemma load64_store_other m p i v q j :
  page_ok p → page_ok q → 0 ≤ i < 512 → 0 ≤ j < 512 → (q, j) ≠ (p, i) →
  load64 (store64 (p + 8 * i) v m) (q + 8 * j) = load64 m (q + 8 * j).
Proof.
  intros [Hp _] [Hq _] Hi Hj Hne. apply load64_store64_ne. destruct (decide (p = q)) as [->|Hpq].
  - assert (i ≠ j) by congruence. lia.
  - pose proof (page_disjoint p q Hp Hq Hpq). unfold PGSIZE in *. lia.
Qed.

Lemma only_pages_word ps m m' p i :
  only_pages ps m m' → (p ∉ ps) → page_ok p → Forall page_ok ps → 0 ≤ i < 512 →
  load64 m' (p + 8 * i) = load64 m (p + 8 * i).
Proof. intros. eapply only_pages_load64; try done; unfold PGSIZE; lia. Qed.

(** The memory after the fresh page [c] was cleared and entered at [p, i]. *)
Definition link_table (c p i : Z) (m1 : mem) : mem :=
  store64 (p + 8 * i) (table_pte c) (memset c 0 PGSIZE m1).

Lemma link_table_word m m1 c p i q j :
  only_pages [c] m m1 → page_ok c → page_ok p → page_ok q → c ≠ p → 0 ≤ i < 512 → 0 ≤ j < 512 →
  load64 (link_table c p i m1) (q + 8 * j) =
    if decide (q = c) then 0 else if decide ((q, j) = (p, i)) then table_pte c else load64 m (q + 8 * j).
Proof.
  intros Ho Hc Hp Hq Hcp Hi Hj. unfold link_table. case_decide as E1; [subst q|].
  - rewrite load64_store_other by (done || congruence). apply load64_memset0; unfold PGSIZE; lia.
  - case_decide as E2.
    + injection E2 as -> ->. apply load64_store64, (proj2 (proj2 (proj2 (table_pte_props c Hc)))).
    + rewrite load64_store_other by done.
      apply (only_pages_word [c]); [|by rewrite list_elem_of_singleton|done|by apply Forall_singleton|done].
      eapply only_pages_trans; [done|apply only_pages_memset].
Qed.

Lemma only_pages_link m m1 c p i :
  only_pages [c] m m1 → 0 ≤ i < 512 → only_pages [c; p] m (link_table c p i m1).
Proof.
  intros Ho Hi. assert ([c] ⊆ [c; p] ∧ [p] ⊆ [c; p]) as [H1 H2] by set_solver.
  unfold link_table. eapply only_pages_trans; [eapply only_pages_mono, Ho; done|].
  eapply only_pages_trans; [eapply only_pages_mono, (only_pages_memset c 0); done|].
  eapply only_pages_mono, (only_pages_store64 p); [done|lia|unfold PGSIZE; lia].
Qed.

Section extend.
Context (m m1 : mem) (root : Z) (t : gmap (list Z) Z) (w : list Z) (p i c : Z).
Context (HP : PT m root t) (Hw : t !! w = Some p) (Hlen : (length w < 2)%nat) (Hi : 0 ≤ i < 512) (Hlow : w = [] → i < 256).
Context (Hnone : t !! (w ++ [i]) = None) (Hc : page_ok c) (Hfresh : c ∉ tpages t) (Ho : only_pages [c] m m1).

Lemma extend_ne w' q : t !! w' = Some q → q ≠ c ∧ page_ok q.
Proof.
  intros H. split; [|by apply (pt_paths _ _ _ HP) in H as [? _]].
  intros ->. apply Hfresh, elem_of_tpages. by exists w'.
Qed.

Lemma PT_extend : PT (link_table c p i m1) root (<[w ++ [i] := c]> t).
Proof.
  destruct (extend_ne _ _ Hw) as [Hpc Hp].
  assert (∀ j, t !! ((w ++ [i]) ++ [j]) = None) as Hbelow.
  { intros j. destruct (t !! ((w ++ [i]) ++ [j])) eqn:E; [|done]. destruct (pt_prefix _ _ _ HP _ _ _ E). congruence. }
  split.
  - rewrite lookup_insert_ne by (by destruct w). apply HP.
  - intros w' q. destruct (decide (w' = w ++ [i])) as [->|Hne].
    + rewrite lookup_insert_eq. intros [= <-]. split; [done|]. rewrite length_app. simpl. split; [lia|].
      apply Forall_app. split; [by apply (pt_paths _ _ _ HP) in Hw as (_ & _ & ?)|by apply Forall_singleton].
    + rewrite lookup_insert_ne by done. apply HP.
  - intros j w' q [[E _]|[_ E]]%lookup_insert_Some; [|by eapply HP]. destruct w as [|j' w1]; [by injection E as <- _; apply Hlow|].
    injection E as <- _. by eapply HP.
  - intros w1 w2 q. rewrite !lookup_insert_Some. intros [[<- <-]|[H1 E1]] [[<- E]|[H2 E2]]; try done.
    + destruct (extend_ne _ _ E2) as [Hq _]. congruence.
    + destruct (extend_ne _ _ E1) as [Hq _]. congruence.
    + by eapply (pt_inj _ _ _ HP).
  - intros w' j q. rewrite lookup_insert_Some. intros [[[-> ->]%app_inj_2 _]|[_ E]]; [|done|].
    + rewrite lookup_insert_ne, Hw; [done|]. intros E%(f_equal length). rewrite length_app in E. simpl in E. lia.
    + destruct (decide (w' = w ++ [i])) as [->|Hne]; [by rewrite lookup_insert_eq|]. rewrite lookup_insert_ne by done. by eapply HP.
  - intros w' q j Hq Hl Hj. apply lookup_insert_Some in Hq as [[<- <-]|[Hne Hq]].
    + rewrite (link_table_word m), decide_True by done. rewrite lookup_insert_ne, Hbelow; [done|].
      intros E%(f_equal length). rewrite !length_app in E. simpl in E. lia.
    + destruct (extend_ne _ _ Hq) as [Hqc Hqok]. rewrite (link_table_word m), decide_False by done. case_decide as E.
      * injection E as -> ->. rewrite (pt_inj _ _ _ HP _ _ _ Hq Hw), lookup_insert_eq. done.
      * rewrite lookup_insert_ne; [by apply HP|]. intros [-> [= ->]]%app_inj_2; [|done]. congruence.
Qed.

Lemma pte_of_extend va : 0 ≤ va → pte_of (link_table c p i m1) (<[w ++ [i] := c]> t) va = pte_of m t va.
Proof.
  intros Hva. destruct (extend_ne _ _ Hw) as [Hpc Hp]. pose proof (PX_range 0 va ltac:(lia)) as HPX. unfold pte_of, leaf_at.
  destruct (decide ([PX 2 va; PX 1 va] = w ++ [i])) as [E|E].
  - rewrite E, lookup_insert_eq, Hnone. simpl. by rewrite (link_table_word m), decide_True.
  - rewrite lookup_insert_ne by done. destruct (t !! [PX 2 va; PX 1 va]) as [q|] eqn:Hq; [|done]. simpl.
    destruct (extend_ne _ _ Hq) as [Hqc Hqok]. rewrite (link_table_word m), decide_False by done.
    rewrite decide_False; [done|]. intros [= -> _]. pose proof (pt_inj _ _ _ HP _ _ _ Hq Hw) as <-. simpl in Hlen. lia.
Qed.

End extend.

Lemma wp_load_pte a Q s : Q (load64 (ram s) a) s → wp (load_pte a) Q s.
Proof. done. Qed.
Lemma wp_on_ram f (Q : unit → mst → Prop) s : Q tt (Mst (f (ram s)) (freelist s)) → wp (on_ram f) Q s.
Proof. done. Qed.

Lemma VM_pages_ok s root t l : VM s root t l → Forall page_ok (tpages t ++ l).
Proof. intros [HP HF _ _]. apply Forall_app. split; [by eapply tpages_ok|apply HF]. Qed.

Lemma walk_level_alloc s root t l va level w p :
  VM s root t l → t !! w = Some p → (length w < 2)%nat → 0 ≤ level → (w = [] → PX level va < 256) →
  wp (walk_level va true level p) (λ r s', ∃ t' l', VM s' root t' l' ∧ vframe s t l s' t' l' ∧
    (∀ va', 0 ≤ va' → pte_of (ram s') t' va' = pte_of (ram s) t va') ∧ (size t' ≤ size t + 1)%nat ∧
    match r with inl c => t' !! (w ++ [PX level va]) = Some c | inr x => x = 0 ∧ l' = [] end) s.
Proof.
  intros HV Hw Hlen Hlev Hlow. pose proof HV as [HP HF Hd Hb]. pose proof (PX_range level va Hlev) as HPX.
  unfold wp. rewrite (walk_level_lookup s root t va true level w p HP Hw Hlen Hlev).
  destruct (t !! (w ++ [PX level va])) as [c|] eqn:E.
  { exists t, l. split; [done|]. split; [apply vframe_refl|]. split; [done|]. split; [lia|done]. }
  change (wp (q ← kalloc; if q =? 0 then mret (inr 0) else
     on_ram (memset q 0 PGSIZE);; store_pte (p + 8 * PX level va) (table_pte q);; mret (inl q))
     (λ r s', ∃ t' l', VM s' root t' l' ∧ vframe s t l s' t' l' ∧
    (∀ va', 0 ≤ va' → pte_of (ram s') t' va' = pte_of (ram s) t va') ∧ (size t' ≤ size t + 1)%nat ∧
    match r with inl c => t' !! (w ++ [PX level va]) = Some c | inr x => x = 0 ∧ l' = [] end) s).
  apply wp_bind. eapply wp_mono; [|by apply kalloc_ok]. intros q s1. destruct l as [|c l].
  { intros [-> ->]. exists t, []. split; [done|]. split; [apply vframe_refl|]. split; [done|]. split; [lia|done]. }
  intros (-> & HF1 & Ho & Hb1 & _). pose proof (fl_pages _ _ HF) as Hpg. apply Forall_cons in Hpg as [Hc _].
  pose proof (page_ok_range _ Hc). destruct (Z.eqb_spec c 0); [lia|].
  assert (c ∉ tpages t) as Hfresh by (intros Hin; apply (Hd c Hin); by left).
  apply wp_bind, wp_on_ram, wp_bind, wp_on_ram, wp_ret. cbn [ram freelist].
  change (store64 _ _ _) with (link_table c p (PX level va) (ram s1)).
  exists (<[w ++ [PX level va] := c]> t), l. split; [split|split; [split; [|split]|split; [|split]]]; simpl.
  - by apply (PT_extend (ram s)).
  - assert (only_pages [c; p] (ram s1) (link_table c p (PX level va) (ram s1))) as Ho1.
    { by apply only_pages_link. }
    pose proof (pt_paths _ _ _ HP _ _ Hw) as [Hpok _]. pose proof (fl_nodup _ _ HF) as [Hcl _]%NoDup_cons.
    eapply (FL_only_pages s1); [done|done|by apply Forall_cons; split; [|apply Forall_singleton]|].
    intros x. rewrite elem_of_cons, list_elem_of_singleton. intros [->| ->]; [done|].
    intros Hpl. apply (Hd p); [apply elem_of_tpages; eauto|by right].
  - intros x [w' Hw']%elem_of_tpages Hxl. apply lookup_insert_Some in Hw' as [[_ <-]|[_ Hw']].
    + by pose proof (fl_nodup _ _ HF) as [? _]%NoDup_cons.
    + apply (Hd x); [apply elem_of_tpages; eauto|by right].
  - apply bytes_ok_store64, bytes_ok_memset, Hb1, Hb.
  - by apply insert_subseteq.
  - rewrite tpages_insert by done. by rewrite <-Permutation_middle.
  - eapply only_pages_mono, only_pages_link; [|done..].
    intros x. rewrite elem_of_cons, list_elem_of_singleton, elem_of_app, elem_of_cons, elem_of_tpages. naive_solver.
  - intros va' Hva'. by apply (pte_of_extend (ram s) (ram s1) root).
  - rewrite map_size_insert_None by done. lia.
  - by rewrite lookup_insert_eq.
Qed.

(** [walk] with allocation: the mappings are unchanged, and the entry exists
    afterwards unless memory ran out. *)
Lemma walk_alloc s root t l va :
  VM s root t l → 0 ≤ va < MAXVA →
  wp (walk root va true) (λ r s', ∃ t' l', VM s' root t' l' ∧ vframe s t l s' t' l' ∧
    (∀ va', 0 ≤ va' → pte_of (ram s') t' va' = pte_of (ram s) t va') ∧ (size t' ≤ size t + 2)%nat ∧
    ((r = 0 ∧ l' = []) ∨ leaf_at t' va = Some r)) s.
Proof.
  intros HV Hva. unfold walk. destruct (Z.leb_spec MAXVA va); [lia|].
  apply wp_bind. eapply wp_mono; [|eapply (walk_level_alloc s root t l va 2 [] root); [done|apply HV|simpl; lia|lia|]].
  2: { intros _. rewrite PX_eq by lia. change MAXVA with 274877906944 in Hva. change (2 ^ (12 + 9 * 2)) with 1073741824. zdm. }
  intros [c|x] s1 (t1 & l1 & HV1 & Hf1 & Hp1 & Hz1 & Hr).
  2: { exists t1, l1. split; [done|]. split; [done|]. split; [done|]. split; [lia|auto]. }
  apply wp_bind. eapply wp_mono; [|eapply (walk_level_alloc s1 root t1 l1 va 1 [PX 2 va] c); [done|done|simpl; lia|lia|done]].
  intros r s2 (t2 & l2 & HV2 & Hf2 & Hp2 & Hz2 & Hr2).
  assert (vframe s t l s2 t2 l2 ∧ ∀ va', 0 ≤ va' → pte_of (ram s2) t2 va' = pte_of (ram s) t va') as [Hf Hp].
  { split; [by eapply vframe_trans|]. intros va' H'. by rewrite Hp2, Hp1. }
  destruct r as [c2|x]; apply wp_ret; exists t2, l2; (split; [done|]); (split; [done|]); (split; [done|]); (split; [lia|]); [right|left; done].
  unfold leaf_at. simpl in Hr2. by rewrite Hr2.
Qed.

(** *** Writing a last-level entry *)

(** The page number of a virtual address. *)
Definition vpn (va : Z) : Z := va / PGSIZE.

Lemma PX_vpn va va' :
  0 ≤ va < MAXVA → 0 ≤ va' < MAXVA →
  (PX 2 va = PX 2 va' ∧ PX 1 va = PX 1 va' ∧ PX 0 va = PX 0 va') ↔ vpn va = vpn va'.
Proof.
  intros Ha Hb. split.
  - intros (E2 & E1 & E0). pose proof (PX_split va Ha). pose proof (PX_split va' Hb). unfold vpn.
    rewrite E2, E1, E0 in *. unfold PGSIZE in *. change (2 ^ 12) with 4096 in *. zdm.
  - unfold vpn. intros E. rewrite !PX_eq by lia. unfold PGSIZE in E.
    assert (∀ x y k, 0 ≤ k → x / 4096 = y / 4096 → x / 2 ^ (12 + k) = y / 2 ^ (12 + k)) as H.
    { intros x y k Hk Exy. rewrite Z.pow_add_r by lia. change (2 ^ 12) with 4096.
      rewrite <-!Z.div_div by lia. by rewrite Exy. }
    split; [|split]; f_equal; apply H; done || lia.
Qed.

Lemma leaf_at_Some m root t va a :
  PT m root t → leaf_at t va = Some a → 0 ≤ va →
  ∃ q j, t !! [PX 2 va; PX 1 va] = Some q ∧ a = q + 8 * j ∧ 0 ≤ j < 512 ∧ j = PX 0 va ∧ page_ok q.
Proof.
  intros HP Hl Hva. unfold leaf_at in Hl. destruct (t !! [PX 2 va; PX 1 va]) as [q|] eqn:E; simplify_eq/=.
  exists q, (PX 0 va). split; [done|]. split; [done|]. split; [by apply PX_range|]. split; [done|].
  by apply (pt_paths _ _ _ HP) in E as [? _].
Qed.

Lemma PT_set_leaf m root t va a v :
  PT m root t → 0 ≤ va → leaf_at t va = Some a → PT (store64 a v m) root t.
Proof.
  intros HP Hva Hl. destruct (leaf_at_Some _ _ _ _ _ HP Hl Hva) as (q & j & Hq & -> & Hj & _ & Hqok).
  destruct HP as [H1 H2 HL H3 H4 H5]. split; try done. intros w p i Hw Hlen Hi.
  rewrite load64_store_other; [by apply H5|done|by apply H2 in Hw as [? _]|done|done|].
  intros [= <- _]. pose proof (H3 _ _ _ Hw Hq) as ->. simpl in Hlen. lia.
Qed.

Lemma pte_of_set_leaf m root t va a v va' :
  PT m root t → 0 ≤ va < MAXVA → 0 ≤ va' < MAXVA → leaf_at t va = Some a → 0 ≤ v < 2 ^ 64 →
  pte_of (store64 a v m) t va' = if decide (vpn va' = vpn va) then v else pte_of m t va'.
Proof.
  intros HP Hva Hva' Hl Hv. destruct (leaf_at_Some _ _ _ _ _ HP Hl ltac:(lia)) as (q & j & Hq & -> & Hj & Ej & Hqok).
  unfold pte_of. case_decide as E.
  - symmetry in E. apply (PX_vpn va va' Hva Hva') in E as (E2 & E1 & E0). unfold leaf_at. rewrite <-E2, <-E1, Hq. simpl.
    rewrite <-E0, <-Ej. by apply load64_store64.
  - destruct (leaf_at t va') as [a'|] eqn:Hl'; [|done].
    destruct (leaf_at_Some _ _ _ _ _ HP Hl' ltac:(lia)) as (q' & j' & Hq' & -> & Hj' & Ej' & Hqok').
    apply load64_store_other; try done. intros [= -> ->]. apply E.
    pose proof (pt_inj _ _ _ HP _ _ _ Hq Hq') as [= E2 E1]. apply (PX_vpn va' va Hva' Hva). naive_solver.
Qed.

Lemma VM_set_leaf s root t l va a v :
  VM s root t l → 0 ≤ va → leaf_at t va = Some a →
  VM (Mst (store64 a v (ram s)) (freelist s)) root t l ∧
  vframe s t l (Mst (store64 a v (ram s)) (freelist s)) t l.
Proof.
  intros [HP HF Hd Hb] Hva Hl. destruct (leaf_at_Some _ _ _ _ _ HP Hl Hva) as (q & j & Hq & -> & Hj & _ & Hqok).
  assert (q ∈ tpages t) as Hqt by (apply elem_of_tpages; eauto).
  assert (only_pages [q] (ram s) (store64 (q + 8 * j) v (ram s))) as Ho by (apply only_pages_store64; unfold PGSIZE; lia).
  split; [split|split; [done|split; [done|]]]; simpl.
  - by eapply PT_set_leaf.
  - eapply (FL_only_pages s); [done|done|by apply Forall_singleton|]. intros x ->%list_elem_of_singleton. by apply Hd.
  - done.
  - by apply bytes_ok_store64.
  - eapply only_pages_mono, Ho. intros x ->%list_elem_of_singleton. apply elem_of_app. by left.
Qed.

Lemma leaf_at_pos m root t va a : PT m root t → 0 ≤ va → leaf_at t va = Some a → 0 < a.
Proof.
  intros HP Hva Hl. destruct (leaf_at_Some _ _ _ _ _ HP Hl Hva) as (q & j & Hq & -> & Hj & _ & Hqok).
  pose proof (page_ok_range _ Hqok). lia.
Qed.

(** *** [mappages] *)

(** The entry [mappages] writes. *)
Definition map_pte (pa perm : Z) : Z := Z.lor (Z.lor (PA2PTE pa) perm) PTE_V.

Lemma lor_flags x y : 0 ≤ x < 1024 → 0 ≤ y < 1024 → 0 ≤ Z.lor x y < 1024.
Proof.
  intros Hx Hy. assert (0 ≤ Z.lor x y) by (apply Z.lor_nonneg; lia). split; [done|].
  change 1024 with (2 ^ 10) in *. destruct (decide (Z.lor x y = 0)) as [->|]; [lia|].
  apply Z.log2_lt_pow2; [lia|]. rewrite Z.log2_lor by lia.
  assert (∀ z, 0 ≤ z < 2 ^ 10 → Z.log2 z < 10) as Hlog.
  { intros z Hz. destruct (decide (z = 0)) as [->|]; [done|]. apply Z.log2_lt_pow2; lia. }
  pose proof (Hlog x Hx). pose proof (Hlog y Hy). lia.
Qed.

Lemma map_pte_props pa perm :
  pte_ok_pa pa → 0 ≤ perm < 1024 →
  0 ≤ map_pte pa perm < 2 ^ 64 ∧ PTE2PA (map_pte pa perm) = pa ∧ PTE_FLAGS (map_pte pa perm) = Z.lor perm PTE_V ∧
  has (map_pte pa perm) PTE_V = true.
Proof.
  intros Hpa Hp. assert (0 ≤ PTE_V < 1024) as HV by (by compute). pose proof (lor_flags perm PTE_V Hp HV) as Hl.
  unfold map_pte. rewrite <-Z.lor_assoc. rewrite has_flags, PTE_FLAGS_mkpte, PTE2PA_mkpte, mkpte_eq by done.
  split; [|split; [done|split; [done|]]].
  - destruct Hpa as [Hpa _]. change (2 ^ 56) with 72057594037927936 in Hpa. zdm.
  - unfold has. rewrite Z.land_comm, Z.lor_comm, Z.land_lor_distr_r, Z.land_diag.
    destruct (Z.eqb_spec (Z.lor PTE_V (Z.land PTE_V perm)) 0) as [E|]; [|done]. apply Z.lor_eq_0_iff in E as [E _]. done.
Qed.

(** The mappings after [k] pages from [va] on were mapped to [pa] on. *)
Definition mapped (old : Z → Z) (va pa perm k : Z) (va' : Z) : Z :=
  if decide (va ≤ va' < va + k * PGSIZE) then map_pte (pa + (vpn va' * PGSIZE - va)) perm else old va'.

Lemma mapped_step old va pa perm k va' :
  va mod PGSIZE = 0 → 0 ≤ k →
  (if decide (vpn va' = vpn (va + k * PGSIZE)) then map_pte (pa + k * PGSIZE) perm else mapped old va pa perm k va') =
  mapped old va pa perm (k + 1) va'.
Proof.
  intros Hal Hk. unfold mapped, vpn, PGSIZE in *. repeat case_decide; try done; try (exfalso; zdm).
  f_equal. zdm.
Qed.

Section mappages.
Context (s : mst) (root : Z) (t : gmap (list Z) Z) (l : list Z) (va size pa perm : Z).
Context (HV : VM s root t l) (Hva : va mod PGSIZE = 0) (Hsz : size mod PGSIZE = 0) (Hpos : 0 < size).
Context (Hlo : 0 ≤ va) (Hhi : va + size ≤ MAXVA) (Hpa : pa mod PGSIZE = 0) (Hpa0 : 0 ≤ pa) (Hpahi : pa + size ≤ 2 ^ 56).
Context (Hperm : 0 ≤ perm < 1024).
Context (Hfree : ∀ va', va ≤ va' < va + size → has (pte_of (ram s) t va') PTE_V = false).

(** The state after [k] pages. *)
Definition mp_inv (k : Z) (s' : mst) : Prop :=
  ∃ t' l', VM s' root t' l' ∧ vframe s t l s' t' l' ∧ Z.of_nat (base.size t') ≤ Z.of_nat (base.size t) + 2 * k ∧
    ∀ va', 0 ≤ va' < MAXVA → pte_of (ram s') t' va' = mapped (pte_of (ram s) t) va pa perm k va'.

Definition mp_post (r : Z) (s' : mst) : Prop :=
  ∃ k t' l', VM s' root t' l' ∧ vframe s t l s' t' l' ∧ Z.of_nat (base.size t') ≤ Z.of_nat (base.size t) + 2 * (size / PGSIZE) ∧
    (∀ va', 0 ≤ va' < MAXVA → pte_of (ram s') t' va' = mapped (pte_of (ram s) t) va pa perm k va') ∧
    ((r = 0 ∧ k = size / PGSIZE) ∨ (r = -1 ∧ l' = [] ∧ 0 ≤ k < size / PGSIZE)).

Lemma mappages_page k s' :
  0 ≤ k < size / PGSIZE → mp_inv k s' →
  wp (mappages_body root (va + size - PGSIZE) perm (va + k * PGSIZE, pa + k * PGSIZE))
     (λ r s'', match r with
      | inl (a', q') => a' = va + (k + 1) * PGSIZE ∧ q' = pa + (k + 1) * PGSIZE ∧ k + 1 < size / PGSIZE ∧ mp_inv (k + 1) s''
      | inr r => mp_post r s''
      end) s'.
Proof.
  intros Hk (t1 & l1 & HV1 & Hf1 & Hz1 & Hp1). unfold mappages_body.
  assert (MAXVA = 2 ^ 38) as HM by done.
  assert (va + k * PGSIZE + PGSIZE ≤ va + size ∧ (va + k * PGSIZE = va + size - PGSIZE ↔ k + 1 = size / PGSIZE)) as [Hr Hlast].
  { unfold PGSIZE in *. zdm. }
  assert (0 ≤ va + k * PGSIZE < MAXVA) as Ha by (unfold PGSIZE in *; lia).
  apply wp_bind. eapply wp_mono; [|by apply (walk_alloc s' root t1 l1)].
  intros a s2 (t2 & l2 & HV2 & Hf2 & Hp2 & Hz2 & [[-> ->]|Hleaf]).
  { exists k, t2, []. split; [done|]. split; [by eapply vframe_trans|]. split; [lia|]. split; [|auto].
    intros va' H'. rewrite Hp2 by lia. by apply Hp1. }
  pose proof (leaf_at_pos _ _ _ _ _ (vm_pt _ _ _ _ HV2) (proj1 Ha) Hleaf) as Hapos. destruct (Z.eqb_spec a 0); [lia|].
  assert (∀ va', 0 ≤ va' < MAXVA → pte_of (ram s2) t2 va' = mapped (pte_of (ram s) t) va pa perm k va') as Hp12.
  { intros va' H'. rewrite Hp2 by lia. by apply Hp1. }
  apply wp_bind, wp_load_pte.
  assert (load64 (ram s2) a = pte_of (ram s) t (va + k * PGSIZE)) as ->.
  { transitivity (pte_of (ram s2) t2 (va + k * PGSIZE)); [unfold pte_of; by rewrite Hleaf|].
    rewrite Hp12 by done. unfold mapped. by rewrite decide_False by lia. }
  rewrite Hfree by (unfold PGSIZE in *; lia). apply wp_bind, wp_on_ram.
  assert (pte_ok_pa (pa + k * PGSIZE)) as Hpaok.
  { unfold pte_ok_pa, PGSIZE in *. split; [zdm|]. by rewrite Z_mod_plus_full. }
  fold (map_pte (pa + k * PGSIZE) perm). destruct (map_pte_props _ _ Hpaok Hperm) as (Hrng & _).
  destruct (VM_set_leaf s2 root t2 l2 _ a (map_pte (pa + k * PGSIZE) perm) HV2 (proj1 Ha) Hleaf) as [HV3 Hf3].
  set (s3 := Mst _ _) in *. assert (mp_inv (k + 1) s3) as HI3.
  { exists t2, l2. split; [done|]. split; [eapply vframe_trans; [|exact Hf3]; by eapply vframe_trans|]. split; [lia|].
    intros va' H'. rewrite <-mapped_step by (done || lia). unfold s3. simpl.
    rewrite (pte_of_set_leaf _ root _ (va + k * PGSIZE)) by (done || apply HV2). by rewrite Hp12. }
  destruct (Z.eqb_spec (va + k * PGSIZE) (va + size - PGSIZE)) as [E|E].
  - apply wp_ret. destruct HI3 as (t3 & l3 & ? & ? & ? & ?). exists (k + 1), t3, l3. rewrite Hlast in E.
    split; [done|]. split; [done|]. split; [lia|]. split; [done|]. left. split; [done|lia].
  - apply wp_ret. rewrite Hlast in E. unfold u64. rewrite !Z.mod_small by (unfold PGSIZE in *; zdm).
    split; [lia|]. split; [lia|]. split; [lia|done].
Qed.

Lemma mappages_ok : wp (mappages root va size pa perm) mp_post s.
Proof.
  unfold mappages. rewrite Hva, Hsz. simpl. destruct (Z.eqb_spec size 0); [lia|].
  assert (MAXVA = 2 ^ 38) as HM by done.
  assert (u64 (va + size - PGSIZE) = va + size - PGSIZE) as ->.
  { unfold u64, PGSIZE in *. apply Z.mod_small. zdm. }
  eapply wp_iter with
    (I := λ x s', ∃ k, x = (va + k * PGSIZE, pa + k * PGSIZE) ∧ 0 ≤ k < size / PGSIZE ∧ mp_inv k s')
    (μ := λ x _, Z.to_nat ((va + size - x.1) / PGSIZE - 1)).
  - intros x s' (k & -> & Hk & HI). eapply wp_mono; [|by apply mappages_page]. simpl.
    intros [[a' q']|r] s''; [|done]. intros (-> & -> & Hk1 & HI1). split.
    + exists (k + 1). split; [done|]. split; [lia|done].
    + simpl. unfold PGSIZE in *. zdm.
  - exists 0. rewrite !Z.mul_0_l, !Z.add_0_r. split; [done|]. split; [unfold PGSIZE in *; zdm|].
    exists t, l. split; [done|]. split; [apply vframe_refl|]. split; [lia|]. intros va' H'. unfold mapped. by rewrite decide_False by lia.
  - simpl. unfold PGSIZE in *. zdm.
Qed.
End mappages.

(** *** Pages outside the table *)

Lemma tpages_word m m' root t ps w p i :
  PT m root t → only_pages ps m m' → Forall page_ok ps → (∀ q, q ∈ ps → q ∉ tpages t) →
  t !! w = Some p → 0 ≤ i < 512 → load64 m' (p + 8 * i) = load64 m (p + 8 * i).
Proof.
  intros HP Ho Hps Hd Hw Hi. apply (only_pages_word ps); try done.
  - intros Hin. apply (Hd p Hin), elem_of_tpages. eauto.
  - by apply (pt_paths _ _ _ HP) in Hw as [? _].
Qed.

Lemma PT_only_pages m m' root t ps :
  PT m root t → only_pages ps m m' → Forall page_ok ps → (∀ q, q ∈ ps → q ∉ tpages t) →
  PT m' root t ∧ ∀ va, 0 ≤ va → pte_of m' t va = pte_of m t va.
Proof.
  intros HP Ho Hps Hd. split.
  - pose proof HP as [H1 H2 HL H3 H4 H5]. split; try done. intros w p i Hw Hl Hi.
    rewrite (tpages_word m m' root t ps w) by done. by apply H5.
  - intros va Hva. unfold pte_of. destruct (leaf_at t va) as [a|] eqn:Hl; [|done].
    destruct (leaf_at_Some _ _ _ _ _ HP Hl Hva) as (q & j & Hq & -> & Hj & _).
    by apply (tpages_word m m' root t ps [PX 2 va; PX 1 va]).
Qed.

Lemma kfree_vm s root t l p :
  VM s root t l → page_ok p → (p ∉ l) → (p ∉ tpages t) →
  wp (kfree p) (λ _ s', VM s' root t (p :: l) ∧ only_pages [p] (ram s) (ram s') ∧
    ∀ va, 0 ≤ va → pte_of (ram s') t va = pte_of (ram s) t va) s.
Proof.
  intros [HP HF Hd Hb] Hp Hl Ht. eapply wp_mono; [|by apply kfree_ok]. intros [] s' (HF' & Ho & Hb').
  destruct (PT_only_pages (ram s) (ram s') root t [p] HP Ho) as [HP' Hpte];
    [by apply Forall_singleton|by intros q ->%list_elem_of_singleton|].
  split; [|done]. split; try done; [|by apply Hb'].
  intros q Hq. rewrite not_elem_of_cons. split; [by intros ->|by apply Hd].
Qed.

Lemma kalloc_vm s root t l :
  VM s root t l →
  wp kalloc (λ r s', match l with
    | [] => r = 0 ∧ s' = s
    | p :: l' => r = p ∧ page_ok p ∧ p ≠ 0 ∧ VM s' root t l' ∧ (p ∉ l') ∧ (p ∉ tpages t) ∧ only_pages [p] (ram s) (ram s') ∧
                 ∀ va, 0 ≤ va → pte_of (ram s') t va = pte_of (ram s) t va
    end) s.
Proof.
  intros [HP HF Hd Hb]. eapply wp_mono; [|by apply kalloc_ok]. intros r s'. destruct l as [|p l]; [done|].
  intros (-> & HF' & Ho & Hb' & _). pose proof (fl_pages _ _ HF) as [Hp _]%Forall_cons.
  pose proof (fl_nodup _ _ HF) as [Hn _]%NoDup_cons. pose proof (page_ok_range _ Hp).
  assert (p ∉ tpages t) as Hpt by (intros Hin; apply (Hd p Hin); by left).
  destruct (PT_only_pages (ram s) (ram s') root t [p] HP Ho) as [HP' Hpte];
    [by apply Forall_singleton|by intros q ->%list_elem_of_singleton|].
  split; [done|]. split; [done|]. split; [lia|]. split; [|done].
  split; try done; [|by apply Hb']. intros q Hq Hql. apply (Hd q Hq). by right.
Qed.

(** A write that stays inside a page outside tables and free list. *)
Lemma VM_data s root t l m' p :
  VM s root t l → only_pages [p] (ram s) m' → page_ok p → (p ∉ l) → (p ∉ tpages t) → bytes_ok m' →
  VM (Mst m' (freelist s)) root t l ∧ ∀ va, 0 ≤ va → pte_of m' t va = pte_of (ram s) t va.
Proof.
  intros [HP HF Hd Hb] Ho Hp Hl Ht Hb'.
  destruct (PT_only_pages (ram s) m' root t [p] HP Ho) as [HP' Hpte];
    [by apply Forall_singleton|by intros q ->%list_elem_of_singleton|].
  split; [|done]. split; try done.
  eapply (FL_only_pages s); [done|done|by apply Forall_singleton|by intros q ->%list_elem_of_singleton].
Qed.

(** *** [uvmunmap] *)

(** The mappings after [k] pages from [va] on were removed. *)
Definition unmapped (old : Z → Z) (va k : Z) (va' : Z) : Z :=
  if decide (va ≤ va' < va + k * PGSIZE) then 0 else old va'.

Lemma unmapped_step old va k va' :
  va mod PGSIZE = 0 → 0 ≤ k →
  (if decide (vpn va' = vpn (va + k * PGSIZE)) then 0 else unmapped old va k va') = unmapped old va (k + 1) va'.
Proof.
  intros Hal Hk. unfold unmapped, vpn, PGSIZE in *. repeat case_decide; try done; exfalso; zdm.
Qed.

(** The pages that [n] mappings from [va] on refer to. *)
Definition leaf_pages (old : Z → Z) (va n : Z) : list Z := (λ k, PTE2PA (old (va + k * PGSIZE))) <$> seqZ 0 n.

Lemma leaf_pages_snoc old va n : 0 ≤ n → leaf_pages old va (n + 1) = leaf_pages old va n ++ [PTE2PA (old (va + n * PGSIZE))].
Proof. intros Hn. unfold leaf_pages. rewrite seqZ_app by lia. by rewrite fmap_app. Qed.

Lemma elem_of_leaf_pages old va n p :
  p ∈ leaf_pages old va n ↔ ∃ k, 0 ≤ k < n ∧ p = PTE2PA (old (va + k * PGSIZE)).
Proof.
  unfold leaf_pages. rewrite list_elem_of_fmap. split.
  - intros (k & -> & Hk%elem_of_seqZ). exists k. split; [lia|done].
  - intros (k & Hk & ->). exists k. split; [done|]. apply elem_of_seqZ. lia.
Qed.

Section uvmunmap.
Context (s : mst) (root : Z) (t : gmap (list Z) Z) (l : list Z) (va n : Z) (do_free : bool).
Context (HV : VM s root t l) (Hva : va mod PGSIZE = 0) (Hn : 0 ≤ n) (Hlo : 0 ≤ va) (Hhi : va + n * PGSIZE ≤ MAXVA).
Notation old := (pte_of (ram s) t).
Context (Hmap : ∀ k, 0 ≤ k < n → has (old (va + k * PGSIZE)) PTE_V = true ∧ PTE_FLAGS (old (va + k * PGSIZE)) ≠ PTE_V).
Context (Hown : do_free = true → NoDup (leaf_pages old va n) ∧
  ∀ p, p ∈ leaf_pages old va n → page_ok p ∧ (p ∉ l) ∧ (p ∉ tpages t)).

(** The pages freed by the first [k] iterations. *)
Definition freed (k : Z) : list Z := if do_free then leaf_pages old va k else [].

Definition um_inv (k : Z) (s' : mst) : Prop :=
  ∃ l', VM s' root t l' ∧ l' ≡ₚ freed k ++ l ∧ only_pages (tpages t ++ freed k) (ram s) (ram s') ∧
    ∀ va', 0 ≤ va' < MAXVA → pte_of (ram s') t va' = unmapped old va k va'.

Lemma uvmunmap_page k s' :
  0 ≤ k < n → um_inv k s' →
  wp (uvmunmap_body root (va + n * PGSIZE) do_free (va + k * PGSIZE))
     (λ r s'', r = inl (va + (k + 1) * PGSIZE) ∧ um_inv (k + 1) s'') s'.
Proof.
  intros Hk (l1 & HV1 & Hl1 & Ho1 & Hp1). unfold uvmunmap_body.
  assert (MAXVA = 2 ^ 38) as HM by done.
  assert (0 ≤ va + k * PGSIZE < MAXVA ∧ va + k * PGSIZE < va + n * PGSIZE) as [Ha Hlt] by (unfold PGSIZE in *; lia).
  destruct (Z.ltb_spec (va + k * PGSIZE) (va + n * PGSIZE)); [|lia].
  destruct (Hmap k Hk) as [HmV Hml]. set (a := va + k * PGSIZE) in *.
  assert (pte_of (ram s') t a = old a) as Epte.
  { rewrite Hp1 by done. unfold unmapped. by rewrite decide_False by (unfold a; lia). }
  apply wp_bind. unfold wp at 1. rewrite (walk_lookup s' root t a (vm_pt _ _ _ _ HV1) Ha).
  destruct (leaf_at t a) as [pte|] eqn:Hleaf.
  2: { exfalso. unfold pte_of in HmV. by rewrite Hleaf, has_0 in HmV. }
  simpl. pose proof (leaf_at_pos _ _ _ _ _ (vm_pt _ _ _ _ HV1) (proj1 Ha) Hleaf). destruct (Z.eqb_spec pte 0); [lia|].
  apply wp_bind, wp_load_pte. assert (load64 (ram s') pte = old a) as ->.
  { rewrite <-Epte. unfold pte_of. by rewrite Hleaf. }
  rewrite HmV. simpl. destruct (Z.eqb_spec (PTE_FLAGS (old a)) PTE_V); [done|].
  assert (wp (if do_free then kfree (PTE2PA (old a)) else mret tt)
    (λ _ s2, ∃ l2, VM s2 root t l2 ∧ l2 ≡ₚ freed (k + 1) ++ l ∧
       only_pages (tpages t ++ freed (k + 1)) (ram s) (ram s2) ∧
       ∀ va', 0 ≤ va' < MAXVA → pte_of (ram s2) t va' = unmapped old va k va') s') as Hkf.
  { unfold freed in *. destruct do_free eqn:Edf; [|apply wp_ret; by exists l1].
    destruct Hown as [Hnd Hpg]; [done|]. rewrite leaf_pages_snoc by lia. fold a.
    assert (PTE2PA (old a) ∈ leaf_pages old va n) as Hin by (apply elem_of_leaf_pages; eauto).
    destruct (Hpg _ Hin) as (Hpok & Hnl & Hnt).
    assert (PTE2PA (old a) ∉ l1) as Hnl1.
    { rewrite Hl1, elem_of_app. intros [Hin'|?]; [|done]. replace n with (k + (n - k)) in Hnd by lia.
      unfold leaf_pages in Hnd. rewrite seqZ_app in Hnd by lia. rewrite fmap_app in Hnd.
      apply NoDup_app in Hnd as (_ & Hd & _). apply (Hd _ Hin'). rewrite seqZ_cons by lia. simpl. by left. }
    eapply wp_mono; [|by apply (kfree_vm s' root t l1)]. intros [] s2 (HV2 & Ho2 & Hp2).
    exists (PTE2PA (old a) :: l1). split; [done|]. split; [rewrite Hl1, <-app_assoc; simpl; by rewrite <-Permutation_middle|].
    split.
    - eapply only_pages_trans; [eapply only_pages_mono, Ho1|eapply only_pages_mono, Ho2]; intros x;
        rewrite !elem_of_app, list_elem_of_singleton; naive_solver.
    - intros va' H'. rewrite Hp2 by lia. by apply Hp1. }
  apply wp_bind. eapply wp_mono; [|exact Hkf]. intros [] s2 (l2 & HV2 & Hl2 & Ho2 & Hp2).
  apply wp_bind, wp_on_ram, wp_ret.
  destruct (VM_set_leaf s2 root t l2 a pte 0 HV2 (proj1 Ha) Hleaf) as [HV3 (_ & _ & Ho3)].
  split; [f_equal; unfold u64, a, PGSIZE in *; rewrite Z.mod_small; lia|].
  exists l2. split; [done|]. split; [done|]. split.
  - eapply only_pages_trans; [exact Ho2|].
    destruct (leaf_at_Some _ _ _ _ _ (vm_pt _ _ _ _ HV2) Hleaf (proj1 Ha)) as (q & j & Hq & -> & Hj & _).
    eapply only_pages_mono, (only_pages_store64 q); [|lia|unfold PGSIZE; lia].
    intros x ->%list_elem_of_singleton. apply elem_of_app. left. apply elem_of_tpages. eauto.
  - intros va' H'. simpl. rewrite (pte_of_set_leaf _ root _ a) by (done || apply HV2).
    rewrite <-unmapped_step by (done || lia). fold a. by rewrite Hp2.
Qed.

Lemma uvmunmap_ok : wp (uvmunmap root va n do_free) (λ _, um_inv n) s.
Proof.
  unfold uvmunmap. rewrite Hva. change (negb (0 =? 0)) with false. cbn iota. assert (MAXVA = 2 ^ 38) as HM by done.
  assert (u64 (va + n * PGSIZE) = va + n * PGSIZE) as ->.
  { unfold u64, PGSIZE in *. apply Z.mod_small. lia. }
  eapply wp_iter with (I := λ a s', ∃ k, a = va + k * PGSIZE ∧ 0 ≤ k ≤ n ∧ um_inv k s')
    (μ := λ a _, Z.to_nat ((va + n * PGSIZE - a) / PGSIZE)).
  - intros a s' (k & -> & Hk & HI). destruct (decide (k = n)) as [->|Hkn].
    + unfold uvmunmap_body. rewrite Z.ltb_irrefl. by apply wp_ret.
    + eapply wp_mono; [|apply uvmunmap_page; [lia|done]]. intros r s'' [-> HI']. split.
      * exists (k + 1). split; [done|]. split; [lia|done].
      * unfold PGSIZE in *. zdm.
  - exists 0. split; [lia|]. split; [lia|]. exists l. split; [done|]. split; [unfold freed; by destruct do_free|].
    split; [apply only_pages_refl|]. intros va' H'. unfold unmapped. by rewrite decide_False by lia.
  - unfold PGSIZE in *. zdm.
Qed.
End uvmunmap.
End spec.
