(* ===== verification/Uvm.v ===== *)
(** * User address spaces (kernel/vm.c)

    [AS s root t l n]: the page table at [root] maps the first [n] pages of
    user memory to pages it owns, and nothing between them and the trapframe.
    [uvmalloc], [uvmdealloc], [uvmcopy] and [uvmfree] move between such address
    spaces; in all of them the pages of the machine (tables, user pages, free
    pages) are the same before and after, also on the error paths. *)

From S2P Require Import Prelude Machine Mem Kalloc Vm Vmspec.

Section uvm.
Context `{LY : Layout}.

(** Setting a flag that is set. *)
Lemma lor_has x : has x PTE_V = true → Z.lor x PTE_V = x.
Proof.
  intros Hx. apply Z.bits_inj'. intros n Hn. rewrite Z.lor_spec. unfold has in Hx. change PTE_V with (2 ^ 0) in *.
  rewrite Z.pow2_bits_eqb by lia. destruct (Z.eqb_spec 0 n) as [<-|]; [|by rewrite orb_false_r].
  rewrite orb_true_r. destruct (Z.testbit x 0) eqn:E; [done|]. exfalso. revert Hx. rewrite negb_true_iff.
  assert (Z.land x (2 ^ 0) = 0) as ->; [|done]. apply Z.bits_inj'. intros i Hi. rewrite Z.land_spec, Z.pow2_bits_eqb, Z.bits_0 by lia.
  destruct (Z.eqb_spec 0 i) as [<-|]; [by rewrite E|by rewrite andb_false_r].
Qed.

(** Number of pages of a process of size [sz]. *)
Definition npg (sz : Z) : Z := PGROUNDUP sz / PGSIZE.

Lemma npg_eq sz : 0 ≤ sz ≤ MAXVA → npg sz = (sz + PGSIZE - 1) / PGSIZE ∧ PGROUNDUP sz = npg sz * PGSIZE.
Proof.
  intros Hsz. unfold npg. assert (MAXVA = 2 ^ 38) as HM by done.
  rewrite PGROUNDUP_eq by (unfold PGSIZE; lia). rewrite Z.div_mul by (by compute). done.
Qed.

(** The entry of the [k]-th user page. *)
Definition upte (s : mst) (t : gmap (list Z) Z) (k : Z) : Z := pte_of (ram s) t (k * PGSIZE).

(** The pages of user memory. *)
Definition upages (s : mst) (t : gmap (list Z) Z) (n : Z) : list Z := leaf_pages (pte_of (ram s) t) 0 n.

Record AS (s : mst) (root : Z) (t : gmap (list Z) Z) (l : list Z) (n : Z) : Prop := {
  as_vm : VM s root t l;
  as_size : 0 ≤ n ∧ n * PGSIZE ≤ TRAPFRAME;
  as_map : ∀ k, 0 ≤ k < n → has (upte s t k) PTE_V = true ∧ PTE_FLAGS (upte s t k) ≠ PTE_V;
  as_free : ∀ va, n * PGSIZE ≤ va < TRAPFRAME → has (pte_of (ram s) t va) PTE_V = false;
  as_nodup : NoDup (upages s t n);
  as_own : ∀ p, p ∈ upages s t n → page_ok p ∧ (p ∉ l) ∧ (p ∉ tpages t)
}.

(** All pages of an address space and the free pages. *)
Definition total (s : mst) (t : gmap (list Z) Z) (l : list Z) (n : Z) : list Z := tpages t ++ upages s t n ++ l.

(** The user pages and their entries, and the entries of the trapframe and the
    trampoline, are as they were. *)
Record same_user (s : mst) (t : gmap (list Z) Z) (s' : mst) (t' : gmap (list Z) Z) (n : Z) : Prop := {
  su_pte : ∀ k, 0 ≤ k < n → upte s' t' k = upte s t k;
  su_byte : ∀ k i, 0 ≤ k < n → 0 ≤ i < PGSIZE → rd (ram s') (PTE2PA (upte s t k) + i) = rd (ram s) (PTE2PA (upte s t k) + i);
  su_high : ∀ va, TRAPFRAME ≤ va < MAXVA → pte_of (ram s') t' va = pte_of (ram s) t va
}.

Lemma same_user_refl s t n : same_user s t s t n.
Proof. done. Qed.

Lemma same_user_trans s1 t1 s2 t2 s3 t3 n :
  same_user s1 t1 s2 t2 n → same_user s2 t2 s3 t3 n → same_user s1 t1 s3 t3 n.
Proof.
  intros [H1 H2 Ha] [H3 H4 Hb]. split.
  - intros k Hk. by rewrite H3, H1.
  - intros k i Hk Hi. specialize (H4 k i Hk Hi). rewrite H1 in H4 by done. by rewrite H4, H2.
  - intros va Hva. by rewrite Hb, Ha.
Qed.

Lemma same_user_mono s t s' t' n n' : n' ≤ n → same_user s t s' t' n → same_user s t s' t' n'.
Proof. intros Hn [H1 H2 H3]. split; intros; [apply H1|apply H2|apply H3]; lia. Qed.

Lemma upages_ext s t s' t' n : (∀ k, 0 ≤ k < n → upte s' t' k = upte s t k) → upages s' t' n = upages s t n.
Proof.
  intros H. unfold upages, leaf_pages. apply list_fmap_ext. intros i k Hk. apply lookup_seqZ in Hk as [-> Hk].
  rewrite Z.add_0_l. f_equal. apply H. lia.
Qed.

Lemma elem_of_upages s t n p : p ∈ upages s t n ↔ ∃ k, 0 ≤ k < n ∧ p = PTE2PA (upte s t k).
Proof. unfold upages. rewrite elem_of_leaf_pages. by setoid_rewrite Z.add_0_l. Qed.

Lemma upages_snoc s t n : 0 ≤ n → upages s t (n + 1) = upages s t n ++ [PTE2PA (upte s t n)].
Proof. intros Hn. unfold upages. rewrite leaf_pages_snoc by done. by rewrite Z.add_0_l. Qed.

(** Bytes of a page that is not among the written pages. *)
Lemma only_pages_byte ps m m' p i :
  only_pages ps m m' → (p ∉ ps) → page_ok p → Forall page_ok ps → 0 ≤ i < PGSIZE → rd m' (p + i) = rd m (p + i).
Proof.
  intros Ho Hp [Hal _] Hps Hi. apply Ho. intros q Hq Hr. rewrite Forall_forall in Hps. destruct (Hps q Hq) as [Hal' _].
  assert (p = q); [|congruence]. unfold PGSIZE in *. zdm.
Qed.

(** A step that keeps entries and writes outside the user pages keeps user
    memory. *)
Lemma same_user_intro s t s' t' n ps :
  (∀ k, 0 ≤ k < n → upte s' t' k = upte s t k) → (∀ va, TRAPFRAME ≤ va < MAXVA → pte_of (ram s') t' va = pte_of (ram s) t va) →
  only_pages ps (ram s) (ram s') → Forall page_ok ps →
  (∀ p, p ∈ upages s t n → page_ok p ∧ (p ∉ ps)) → same_user s t s' t' n.
Proof.
  intros H1 H2 Ho Hps Hd. split; [done| |done]. intros k i Hk Hi.
  destruct (Hd (PTE2PA (upte s t k))) as [Hok Hnin]; [apply elem_of_upages; eauto|].
  by eapply only_pages_byte.
Qed.

(** One address space becomes another: the first [m] user pages are kept, no
    page is lost, table pages stay and no other page is written. *)
Record evolve (m : Z) (s : mst) (t : gmap (list Z) Z) (l : list Z) (n : Z) (s' : mst) (t' : gmap (list Z) Z) (l' : list Z) (n' : Z) : Prop := {
  ev_user : same_user s t s' t' m;
  ev_total : total s' t' l' n' ≡ₚ total s t l n;
  ev_tables : t ⊆ t';
  ev_only : only_pages (total s t l n) (ram s) (ram s')
}.

Lemma evolve_refl m s t l n : evolve m s t l n s t l n.
Proof. by split. Qed.

Lemma evolve_trans m s1 t1 l1 n1 s2 t2 l2 n2 s3 t3 l3 n3 :
  evolve m s1 t1 l1 n1 s2 t2 l2 n2 → evolve m s2 t2 l2 n2 s3 t3 l3 n3 → evolve m s1 t1 l1 n1 s3 t3 l3 n3.
Proof.
  intros [H1 H2 H3 H4] [H5 H6 H7 H8]. split; [by eapply same_user_trans|by etrans|by etrans|].
  eapply only_pages_trans; [done|]. eapply only_pages_mono; [|done]. intros p. by rewrite H2.
Qed.

Lemma evolve_mono m m' s t l n s' t' l' n' : m' ≤ m → evolve m s t l n s' t' l' n' → evolve m' s t l n s' t' l' n'.
Proof. intros Hm [H1 H2 H3 H4]. split; try done. by eapply same_user_mono. Qed.

(** *** Shrinking *)

(** [uvmunmap] of the pages [n'..n-1] of an address space. *)
Lemma uvmunmap_shrink s root t l n n' :
  AS s root t l n → 0 ≤ n' ≤ n →
  wp (uvmunmap root (n' * PGSIZE) (n - n') true)
     (λ _ s', ∃ l', AS s' root t l' n' ∧ evolve n' s t l n s' t l' n') s.
Proof.
  intros [HV [Hn Hhi] Hmap Hfree Hnd Hown] Hn'. assert (TRAPFRAME < MAXVA ∧ MAXVA = 2 ^ 38) as [HT HM] by done.
  assert (leaf_pages (pte_of (ram s) t) (n' * PGSIZE) (n - n') = (λ k, PTE2PA (upte s t k)) <$> seqZ n' (n - n')) as Elp.
  { unfold leaf_pages. replace (seqZ n' (n - n')) with ((λ i, n' + i) <$> seqZ 0 (n - n')).
    - rewrite <-list_fmap_compose. apply list_fmap_ext. intros i x _. simpl. unfold upte. do 2 f_equal. unfold PGSIZE. lia.
    - by rewrite fmap_add_seqZ, Z.add_0_r. }
  assert (upages s t n = upages s t n' ++ leaf_pages (pte_of (ram s) t) (n' * PGSIZE) (n - n')) as Esplit.
  { rewrite Elp. unfold upages, leaf_pages. replace n with (n' + (n - n')) at 1 by lia. rewrite seqZ_app by lia.
    rewrite fmap_app, Z.add_0_l. f_equal. }
  rewrite Esplit in Hnd. apply NoDup_app in Hnd as (Hnd1 & Hdisj & Hnd2).
  eapply wp_mono; [|apply (uvmunmap_ok s root t l (n' * PGSIZE) (n - n') true)]; try done; try (unfold PGSIZE in *; lia).
  2: { by rewrite Z_mod_mult. }
  2: { intros k Hk. replace (n' * PGSIZE + k * PGSIZE) with ((n' + k) * PGSIZE) by lia. apply Hmap. lia. }
  2: { intros _. split; [done|]. intros p Hp. apply Hown. rewrite Esplit. apply elem_of_app. by right. }
  intros [] s' (l' & HV' & Hl' & Ho & Hpte). unfold freed in *.
  set (fr := leaf_pages (pte_of (ram s) t) (n' * PGSIZE) (n - n')) in *.
  assert (∀ k, 0 ≤ k < n' → upte s' t k = upte s t k) as Hu.
  { intros k Hk. unfold upte. rewrite Hpte by (unfold PGSIZE in *; lia). unfold unmapped. by rewrite decide_False by (unfold PGSIZE in *; lia). }
  assert (upages s' t n' = upages s t n') as Eu by (by apply upages_ext).
  assert (∀ va, TRAPFRAME ≤ va < MAXVA → pte_of (ram s') t va = pte_of (ram s) t va) as Hhigh.
  { intros va Hva. rewrite Hpte by (unfold PGSIZE, TRAPFRAME in *; lia). unfold unmapped.
    rewrite decide_False; [done|]. replace (n' * PGSIZE + (n - n') * PGSIZE) with (n * PGSIZE) by lia. lia. }
  exists l'. split; split.
  - done.
  - unfold PGSIZE in *. lia.
  - intros k Hk. rewrite Hu by done. apply Hmap. lia.
  - intros va Hva. rewrite Hpte by (unfold PGSIZE in *; lia). unfold unmapped. case_decide; [done|]. apply Hfree. lia.
  - by rewrite Eu.
  - rewrite Eu. intros p Hp. destruct (Hown p) as (Hok & Hnl & Hnt); [rewrite Esplit; apply elem_of_app; by left|].
    split; [done|]. split; [|done]. rewrite Hl', elem_of_app. intros [Hin|?]; [|done]. by apply (Hdisj p).
  - eapply (same_user_intro s t s' t n' (tpages t ++ fr)); [done|done|done| |].
    + apply Forall_app. split; [by eapply tpages_ok, HV|]. apply Forall_forall. intros p Hp. apply Hown. rewrite Esplit.
      apply elem_of_app. by right.
    + intros p Hp. destruct (Hown p) as (Hok & Hnl & Hnt); [rewrite Esplit; apply elem_of_app; by left|].
      split; [done|]. rewrite elem_of_app. intros [?|?]; [done|]. by apply (Hdisj p).
  - unfold total. rewrite Eu, Esplit, Hl'. by rewrite <-(assoc_L (++)).
  - done.
  - eapply only_pages_mono; [|exact Ho]. unfold total. rewrite Esplit. intros p. rewrite !elem_of_app. tauto.
Qed.

Lemma uvmdealloc_ok s root t l oldsz newsz :
  0 ≤ oldsz ≤ TRAPFRAME → 0 ≤ newsz → AS s root t l (npg oldsz) →
  wp (uvmdealloc root oldsz newsz)
     (λ r s', ∃ l', r = Z.min oldsz newsz ∧ AS s' root t l' (npg r) ∧ evolve (npg r) s t l (npg oldsz) s' t l' (npg r)) s.
Proof.
  intros Hold Hnew HA. assert (TRAPFRAME < MAXVA ∧ MAXVA = 2 ^ 38) as [HT HM] by done. unfold uvmdealloc.
  destruct (Z.leb_spec oldsz newsz) as [Hle|Hlt].
  { apply wp_ret. exists l. rewrite Z.min_l by done. done. }
  destruct (npg_eq oldsz) as [Eo Eo']; [lia|]. destruct (npg_eq newsz) as [En En']; [lia|].
  assert (0 ≤ npg newsz ≤ npg oldsz) as Hn.
  { rewrite Eo, En. split; [apply Z.div_pos; unfold PGSIZE; lia|apply Z.div_le_mono; unfold PGSIZE; lia]. }
  rewrite Z.min_r by lia. rewrite Eo', En'. destruct (Z.ltb_spec (npg newsz * PGSIZE) (npg oldsz * PGSIZE)) as [Hlt'|Hge].
  - assert (u64 (s32 ((npg oldsz * PGSIZE - npg newsz * PGSIZE) / PGSIZE)) = npg oldsz - npg newsz) as ->.
    { rewrite <-Z.mul_sub_distr_r, Z.div_mul by (by compute). pose proof (as_size _ _ _ _ _ HA) as [_ Hs].
      rewrite s32_id by (unfold PGSIZE in *; lia). unfold u64. apply Z.mod_small. unfold PGSIZE in *. lia. }
    apply wp_bind. eapply wp_mono; [|by apply (uvmunmap_shrink s root t l (npg oldsz))].
    intros [] s' (l' & HA' & Hev). apply wp_ret. exists l'. done.
  - assert (npg newsz = npg oldsz) as E by (unfold PGSIZE in *; lia). apply wp_bind, wp_ret, wp_ret. exists l. by rewrite E.
Qed.
(** *** Growing by a page *)

(** A page owned by nobody. *)
Definition fresh (p : Z) (s : mst) (t : gmap (list Z) Z) (l : list Z) (n : Z) : Prop :=
  page_ok p ∧ (p ∉ l) ∧ (p ∉ tpages t) ∧ (p ∉ upages s t n).

(** A change outside the page table and the user pages. *)
Lemma AS_ext s root t l n s' l' ps :
  AS s root t l n → VM s' root t l' → (∀ va, 0 ≤ va → pte_of (ram s') t va = pte_of (ram s) t va) →
  only_pages ps (ram s) (ram s') → Forall page_ok ps → (∀ p, p ∈ upages s t n → (p ∉ ps) ∧ (p ∉ l')) →
  AS s' root t l' n ∧ same_user s t s' t n ∧ upages s' t n = upages s t n.
Proof.
  intros [HV [Hn Hhi] Hmap Hfree Hnd Hown] HV' Hpte Ho Hps Hd. assert (0 ≤ TRAPFRAME) as HT by done.
  assert (∀ k, 0 ≤ k → upte s' t k = upte s t k) as Hu by (intros; apply Hpte; unfold PGSIZE; lia).
  assert (upages s' t n = upages s t n) as Eu by (apply upages_ext; intros; apply Hu; lia).
  split; [split|split]; try done.
  - intros k Hk. rewrite Hu by lia. by apply Hmap.
  - intros va Hva. rewrite Hpte by (unfold PGSIZE in *; lia). by apply Hfree.
  - by rewrite Eu.
  - rewrite Eu. intros p Hp. destruct (Hown p Hp) as (? & _ & ?). by destruct (Hd p Hp).
  - apply (same_user_intro _ _ _ _ _ ps); try done.
    + intros k Hk. apply Hu. lia.
    + intros va Hva. apply Hpte. lia.
    + intros p Hp. split; [by apply Hown|by apply Hd].
Qed.

(** Writing into a fresh page. *)
Lemma AS_data s root t l n m' p :
  AS s root t l n → fresh p s t l n → only_pages [p] (ram s) m' → bytes_ok m' →
  let s' := Mst m' (freelist s) in AS s' root t l n ∧ same_user s t s' t n ∧ fresh p s' t l n.
Proof.
  intros HA (Hp & Hl & Ht & Hu) Ho Hb. destruct (VM_data s root t l m' p) as [HV' Hpte]; try done; [by apply HA|].
  destruct (AS_ext s root t l n (Mst m' (freelist s)) l [p]) as (HA' & Hsu & Eu); try done.
  - by apply Forall_singleton.
  - intros q Hq. split; [|by apply (as_own _ _ _ _ _ HA)]. intros ->%list_elem_of_singleton. done.
  - split; [done|]. split; [done|]. unfold fresh. by rewrite Eu.
Qed.

Lemma AS_kalloc s root t l n :
  AS s root t l n →
  wp kalloc (λ r s', match l with
    | [] => r = 0 ∧ s' = s
    | p :: l' => r = p ∧ p ≠ 0 ∧ AS s' root t l' n ∧ same_user s t s' t n ∧ fresh p s' t l' n ∧ only_pages [p] (ram s) (ram s')
    end) s.
Proof.
  intros HA. eapply wp_mono; [|apply (kalloc_vm s root t l), HA]. intros r s'. destruct l as [|p l']; [done|].
  intros (-> & Hp & Hp0 & HV' & Hpl & Hpt & Ho & Hpte).
  destruct (AS_ext s root t (p :: l') n s' l' [p]) as (HA' & Hsu & Eu); try done.
  - by apply Forall_singleton.
  - intros q Hq. destruct (as_own _ _ _ _ _ HA q Hq) as (_ & Hnl & _). apply not_elem_of_cons in Hnl as [? ?].
    split; [by intros ?%list_elem_of_singleton|done].
  - repeat (split; [done|]). split; [|done]. unfold fresh. rewrite Eu. split; [done|]. split; [done|]. split; [done|].
    intros Hin. apply (as_own _ _ _ _ _ HA) in Hin as (_ & Hnl & _). apply Hnl. by left.
Qed.

Lemma AS_kfree s root t l n p :
  AS s root t l n → fresh p s t l n →
  wp (kfree p) (λ _ s', AS s' root t (p :: l) n ∧ same_user s t s' t n ∧ upages s' t n = upages s t n ∧ only_pages [p] (ram s) (ram s')) s.
Proof.
  intros HA (Hp & Hl & Ht & Hu). eapply wp_mono; [|apply (kfree_vm s root t l p); try done; apply HA].
  intros [] s' (HV' & Ho & Hpte). destruct (AS_ext s root t l n s' (p :: l) [p]) as (HA' & Hsu & Eu); try done.
  - by apply Forall_singleton.
  - intros q Hq. assert (q ≠ p) by (by intros ->). split; [by intros ?%list_elem_of_singleton|].
    rewrite not_elem_of_cons. split; [done|]. by apply (as_own _ _ _ _ _ HA).
Qed.
(** [mappages] of one page at the end of user memory. *)
Lemma AS_grow s root t l n p perm :
  AS s root t l n → fresh p s t l n → 0 ≤ perm < 1024 → Z.lor perm PTE_V ≠ PTE_V → (n + 1) * PGSIZE ≤ TRAPFRAME →
  wp (mappages root (n * PGSIZE) PGSIZE p perm)
     (λ r s', ∃ t' l', vframe s t l s' t' l' ∧ same_user s t s' t' n ∧ Z.of_nat (size t') ≤ Z.of_nat (size t) + 2 ∧
        ((r = 0 ∧ AS s' root t' l' (n + 1) ∧ upte s' t' n = map_pte p perm) ∨
         (r = -1 ∧ l' = [] ∧ AS s' root t' l' n ∧ fresh p s' t' l' n))) s.
Proof.
  intros HA (Hp & Hpl & Hpt & Hpu) Hperm Hleaf Htop. pose proof HA as [HV [Hn Hhi] Hmap Hfree Hnd Hown].
  assert (TRAPFRAME < MAXVA ∧ MAXVA = 2 ^ 38) as [HT HM] by done. pose proof (page_ok_pte p Hp) as Hpp.
  pose proof (page_ok_range p Hp) as Hpr.
  eapply wp_mono; [|apply (mappages_ok s root t l (n * PGSIZE) PGSIZE p perm); try done; try (unfold PGSIZE in *; lia)].
  2: { by rewrite Z_mod_mult. } 2: { apply Hpp. } 2: { unfold PHYSTOP, KERNBASE in Hpr. lia. }
  2: { intros va' Hva'. apply Hfree. unfold PGSIZE in *. lia. }
  intros r s' (k & t' & l' & HV' & Hf & Hz & Hpte & Hr). change (PGSIZE / PGSIZE) with 1 in Hr, Hz.
  exists t', l'. split; [done|]. destruct Hf as (Hsub & Hperm' & Ho).
  assert (∀ va, 0 ≤ va < MAXVA → (va < n * PGSIZE ∨ (n + 1) * PGSIZE ≤ va ∨ k = 0) → pte_of (ram s') t' va = pte_of (ram s) t va) as Hold.
  { intros va Hva Hout. rewrite Hpte by done. unfold mapped. rewrite decide_False; [done|]. unfold PGSIZE in *. lia. }
  assert (∀ i, 0 ≤ i < n → upte s' t' i = upte s t i) as Hu by (intros i Hi; apply Hold; unfold PGSIZE in *; lia).
  pose proof (upages_ext _ _ _ _ _ Hu) as Eu.
  assert (∀ q, (q ∉ tpages t) → (q ∉ l) → (q ∉ l') ∧ (q ∉ tpages t')) as Hout.
  { intros q H1 H2. assert (q ∉ tpages t' ++ l') as Hq by (rewrite Hperm', elem_of_app; tauto).
    rewrite elem_of_app in Hq. tauto. }
  assert (∀ q, q ∈ upages s t n → page_ok q ∧ (q ∉ l') ∧ (q ∉ tpages t')) as Hown'.
  { intros q Hq. destruct (Hown q Hq) as (? & ? & ?). split; [done|]. by apply Hout. }
  split.
  { apply (same_user_intro _ _ _ _ _ (tpages t ++ l)); [done| |done|by eapply VM_pages_ok|].
    - intros va Hva. apply Hold; [|right; left]; unfold PGSIZE in *; lia.
    - intros q Hq. destruct (Hown q Hq) as (? & ? & ?). split; [done|]. rewrite elem_of_app. tauto. }
  split; [lia|]. destruct Hr as [[-> ->]|(-> & -> & Hk)].
  - left. split; [done|].
    assert (upte s' t' n = map_pte p perm) as En.
    { unfold upte. rewrite Hpte by (unfold PGSIZE in *; lia). unfold mapped. rewrite decide_True by (unfold PGSIZE in *; lia).
      f_equal. unfold vpn. rewrite Z.div_mul by (by compute). lia. }
    destruct (map_pte_props p perm Hpp Hperm) as (_ & Epa & Efl & Hval).
    split; [|done]. split; [done|lia| | | |].
    + intros i Hi. destruct (decide (i = n)) as [->|]; [rewrite En, Efl; done|]. rewrite Hu by lia. apply Hmap. lia.
    + intros va Hva. rewrite Hold by (unfold PGSIZE in *; lia). apply Hfree. unfold PGSIZE in *. lia.
    + rewrite upages_snoc, Eu, En, Epa by done. apply NoDup_app. split; [done|]. split; [|apply NoDup_singleton].
      intros q Hq ->%list_elem_of_singleton. done.
    + rewrite upages_snoc, Eu, En, Epa by done. intros q [Hq| ->%list_elem_of_singleton]%elem_of_app; [by apply Hown'|].
      split; [done|]. by apply Hout.
  - right. assert (k = 0) as -> by lia. split; [done|]. split; [done|]. split; [split|].
    + done.
    + done.
    + intros i Hi. rewrite Hu by lia. by apply Hmap.
    + intros va Hva. rewrite Hold by (unfold PGSIZE in *; lia). by apply Hfree.
    + by rewrite Eu.
    + by rewrite Eu.
    + split; [done|]. rewrite Eu. destruct (Hout p); done.
Qed.
Lemma perm_take (ts us l ts' l' : list Z) p :
  ts' ++ l' ≡ₚ ts ++ l → ts' ++ (us ++ [p]) ++ l' ≡ₚ ts ++ us ++ p :: l.
Proof.
  intros H. rewrite (assoc_L (++) ts'), (comm (++) ts'), <-(assoc_L (++)), H, <-(assoc_L (++)). simpl.
  rewrite (assoc_L (++) ts), (comm (++) ts us), <-(assoc_L (++)). f_equiv. by rewrite <-Permutation_middle.
Qed.

Lemma perm_held (ts us l ts' l' : list Z) p :
  ts' ++ l' ≡ₚ ts ++ l → ts' ++ us ++ p :: l' ≡ₚ ts ++ us ++ p :: l.
Proof. intros H. rewrite <-(perm_take ts us l ts' l' p H). f_equiv. by rewrite <-(assoc_L (++)). Qed.

(** The common part of the loops of [uvmalloc] and [uvmcopy]: a page is
    allocated, filled and mapped at the end of user memory, and freed again if
    it cannot be mapped.  [g] is the contents written. *)
Section add_page.
Context (s : mst) (root : Z) (t : gmap (list Z) Z) (l : list Z) (n perm : Z) (fill : Z → mem → mem) (g : Z → Z).
Context (HA : AS s root t l n) (Hperm : 0 ≤ perm < 1024) (Hleaf : Z.lor perm PTE_V ≠ PTE_V) (Htop : (n + 1) * PGSIZE ≤ TRAPFRAME).
Context (Hfill : ∀ p m, p ∈ l → page_ok p → only_pages [p] (ram s) m → bytes_ok m →
  only_pages [p] m (fill p m) ∧ bytes_ok (fill p m) ∧ ∀ i, 0 ≤ i < PGSIZE → rd (fill p m) (p + i) = g i).

Lemma take_page :
  wp kalloc (λ r s', match l with
    | [] => r = 0 ∧ s' = s
    | p :: l' => r = p ∧ p ≠ 0 ∧ let s2 := Mst (fill p (ram s')) (freelist s') in
        AS s2 root t l' n ∧ fresh p s2 t l' n ∧ evolve n s t l n s2 t (p :: l') n ∧
        ∀ i, 0 ≤ i < PGSIZE → rd (ram s2) (p + i) = g i
    end) s.
Proof.
  eapply wp_mono; [|by apply AS_kalloc]. intros r s'. destruct l as [|p l']; [done|].
  intros (-> & Hp0 & HA1 & Hsu1 & Hfr & Ho1).
  destruct (Hfill p (ram s')) as (Ho2 & Hb2 & Hg); [by left|apply Hfr|done|apply (vm_bytes _ _ _ _ (as_vm _ _ _ _ _ HA1))|].
  destruct (AS_data s' root t l' n (fill p (ram s')) p HA1 Hfr Ho2 Hb2) as (HA2 & Hsu2 & Hfr2).
  split; [done|]. split; [done|]. split; [done|]. split; [done|]. split; [|done].
  assert (same_user s t (Mst (fill p (ram s')) (freelist s')) t n) as Hsu by (by eapply same_user_trans).
  split; [done| |done|].
  - unfold total. by rewrite (upages_ext s t _ t n (su_pte _ _ _ _ _ Hsu)).
  - eapply only_pages_mono, (only_pages_trans [p]); [|exact Ho1|exact Ho2].
    intros q ->%list_elem_of_singleton. unfold total. rewrite !elem_of_app. right. right. by left.
Qed.

Lemma add_page {X} (F K : M mst X) (Q : X → mst → Prop) :
  (∀ s' t' l', AS s' root t' l' n → evolve n s t l n s' t' l' n →
     Z.of_nat (length l) ≤ 3 → wp F Q s') →
  (∀ s' t' l' p, AS s' root t' l' (n + 1) → evolve n s t l n s' t' l' (n + 1) → Z.of_nat (size t') ≤ Z.of_nat (size t) + 2 → upte s' t' n = map_pte p perm → page_ok p →
     (∀ i, 0 ≤ i < PGSIZE → rd (ram s') (p + i) = g i) → head l = Some p → wp K Q s') →
  wp (p ← kalloc;
      if p =? 0 then F
      else on_ram (fill p);;
           r ← mappages root (n * PGSIZE) PGSIZE p perm;
           if negb (r =? 0) then kfree p;; F else K) Q s.
Proof.
  intros HF HK. apply wp_bind. eapply wp_mono; [|apply take_page]. intros r s1 H. clear Hfill.
  destruct l as [|p l1] eqn:El.
  { destruct H as [-> ->]. apply (HF s t []); [done|apply evolve_refl|simpl; lia]. }
  destruct H as (-> & Hp0 & HA2 & Hfr & Hev & Hg). destruct (Z.eqb_spec p 0); [done|].
  apply wp_bind, wp_on_ram. cbv zeta in *. set (s2 := Mst (fill p (ram s1)) (freelist s1)) in *. clearbody s2.
  pose proof (as_size _ _ _ _ _ HA) as [Hn _].
  apply wp_bind. eapply wp_mono; [|by apply (AS_grow s2 root t l1 n p perm)].
  intros r s3 (t3 & l3 & (Hsub & Hpm & Ho) & Hsu & Hz & Hr).
  pose proof (upages_ext _ _ _ _ _ (su_pte _ _ _ _ _ Hsu)) as Eu.
  assert (only_pages (total s2 t (p :: l1) n) (ram s2) (ram s3)) as Hot.
  { eapply only_pages_mono; [|exact Ho]. intros q. unfold total. rewrite !elem_of_app. intros [?|?]; [by left|]. right. right. by right. }
  destruct Hr as [(-> & HA3 & Hup)|(-> & -> & HA3 & Hfr3)]; simpl.
  - apply (HK s3 t3 l3 p HA3); [|done|done|apply Hfr| |done].
    + eapply evolve_trans; [exact Hev|]. split; [done| |done|done].
      unfold total. destruct (map_pte_props p perm (page_ok_pte p (proj1 Hfr)) Hperm) as (_ & Epa & _).
      rewrite upages_snoc, Eu, Hup, Epa by done. by apply perm_take.
    + intros i Hi. rewrite <-Hg by done. destruct Hfr as (Hok & Hpl & Hpt & _).
      eapply only_pages_byte; [exact Ho| |done|eapply VM_pages_ok, HA2|done]. rewrite elem_of_app. tauto.
  - apply wp_bind. eapply wp_mono; [|by apply (AS_kfree s3 root t3 [] n p)]. intros [] s4 (HA4 & Hsu4 & Eu4 & Ho4).
    apply (HF s4 t3 [p] HA4).
    + eapply evolve_trans; [exact Hev|]. split; [by eapply same_user_trans| |done|].
      * unfold total. rewrite Eu4, Eu. by apply perm_held.
      * eapply only_pages_trans; [exact Hot|]. eapply only_pages_mono; [|exact Ho4].
        intros q ->%list_elem_of_singleton. unfold total. rewrite !elem_of_app. right. right. by left.
    + apply Permutation_length in Hpm. rewrite !length_app in Hpm. unfold tpages in Hpm.
      rewrite !length_fmap, !length_map_to_list in Hpm. simpl in *. lia.
Qed.
End add_page.

Lemma length_total s t l n : 0 ≤ n → Z.of_nat (length (total s t l n)) = Z.of_nat (size t) + n + Z.of_nat (length l).
Proof.
  intros Hn. unfold total, tpages, upages, leaf_pages.
  rewrite !length_app, !length_fmap, length_map_to_list, length_seqZ. lia.
Qed.

(** The [j]-th user page is a page of zeroes with the given permissions. *)
Definition zero_page (perm : Z) (s : mst) (t : gmap (list Z) Z) (j : Z) : Prop :=
  PTE_FLAGS (upte s t j) = Z.lor perm PTE_V ∧ ∀ i, 0 ≤ i < PGSIZE → rd (ram s) (PTE2PA (upte s t j) + i) = 0.

Lemma zero_page_keep perm s t s' t' n j : 0 ≤ j < n → same_user s t s' t' n → zero_page perm s t j → zero_page perm s' t' j.
Proof.
  intros Hj [H1 H2 _] [H3 H4]. unfold zero_page. rewrite H1 by done. split; [done|]. intros i Hi. rewrite H2 by done. by apply H4.
Qed.

Lemma page_lt k sz : 0 ≤ sz ≤ MAXVA → 0 ≤ k → k * PGSIZE < sz ↔ k < npg sz.
Proof. intros Hsz Hk. destruct (npg_eq sz Hsz) as [-> _]. unfold PGSIZE. split; intros; zdm. Qed.

Lemma npg_mul k : 0 ≤ k → k * PGSIZE ≤ MAXVA → npg (k * PGSIZE) = k.
Proof.
  intros Hk Hm. destruct (npg_eq (k * PGSIZE)) as [-> _]; [unfold PGSIZE in *; lia|]. unfold PGSIZE. zdm.
Qed.

(** *** [uvmalloc] *)

Section uvmalloc.
Context (s : mst) (root : Z) (t : gmap (list Z) Z) (l : list Z) (oldsz newsz xperm : Z).
Context (Hold : 0 ≤ oldsz) (Hle : oldsz ≤ newsz) (Hnew : newsz ≤ TRAPFRAME) (Hx : 0 ≤ xperm < 1024).
Context (HA : AS s root t l (npg oldsz)).
Notation n0 := (npg oldsz).
Notation perm := (Z.lor (Z.lor PTE_R PTE_U) xperm).

Definition ua_inv (k : Z) (s' : mst) : Prop :=
  ∃ t' l', AS s' root t' l' (n0 + k) ∧ evolve n0 s t l n0 s' t' l' (n0 + k) ∧
    Z.of_nat (size t') ≤ Z.of_nat (size t) + 2 * k ∧ ∀ j, n0 ≤ j < n0 + k → zero_page perm s' t' j.

Definition ua_post (r : Z) (s' : mst) : Prop :=
  ∃ t' l',
    (r = newsz ∧ AS s' root t' l' (npg newsz) ∧ evolve n0 s t l n0 s' t' l' (npg newsz) ∧
       Z.of_nat (size t') ≤ Z.of_nat (size t) + 2 * (npg newsz - n0) ∧ ∀ j, n0 ≤ j < npg newsz → zero_page perm s' t' j) ∨
    (r = 0 ∧ AS s' root t' l' n0 ∧ evolve n0 s t l n0 s' t' l' n0 ∧
       Z.of_nat (length l) ≤ 3 * (npg newsz - n0)).

Lemma ua_perm : 0 ≤ perm < 1024 ∧ Z.lor perm PTE_V ≠ PTE_V.
Proof.
  split; [apply lor_flags; [by compute|done]|]. intros E. apply (f_equal (λ x, Z.testbit x 1)) in E. revert E.
  rewrite !Z.lor_spec. change (Z.testbit PTE_R 1) with true. simpl. done.
Qed.

(** The rollback. *)
Lemma ua_rollback k s' t' l' :
  0 ≤ k → n0 + k < npg newsz → AS s' root t' l' (n0 + k) → evolve n0 s t l n0 s' t' l' (n0 + k) →
  Z.of_nat (length l) ≤ 3 * (npg newsz - n0) →
  wp (uvmdealloc root ((n0 + k) * PGSIZE) (n0 * PGSIZE);; mret (inr 0 : Z + Z))
     (λ r s'', match r with inl _ => False | inr r => ua_post r s'' end) s'.
Proof.
  intros Hk Hlt HA' Hev Hlen. apply wp_bind. pose proof (as_size _ _ _ _ _ HA') as [Hs1 Hs2].
  pose proof (as_size _ _ _ _ _ HA) as [Hs3 Hs4]. assert (TRAPFRAME < MAXVA) as HT by done.
  assert (npg ((n0 + k) * PGSIZE) = n0 + k) as E1 by (apply npg_mul; lia).
  assert (npg (n0 * PGSIZE) = n0) as E2 by (apply npg_mul; lia).
  assert (0 ≤ n0 * PGSIZE ≤ (n0 + k) * PGSIZE) as Hr by (unfold PGSIZE; lia).
  eapply wp_mono; [|apply (uvmdealloc_ok s' root t' l' ((n0 + k) * PGSIZE) (n0 * PGSIZE)); [lia|lia|by rewrite E1]].
  intros r s'' (l'' & -> & HA'' & Hev''). rewrite Z.min_r, E2 in HA'' by lia. rewrite Z.min_r, E1, E2 in Hev'' by lia.
  apply wp_ret. exists t', l''. right. split; [done|]. split; [done|]. split; [|done]. by eapply evolve_trans.
Qed.

Lemma uvmalloc_step k s' :
  0 ≤ k → n0 + k < npg newsz → ua_inv k s' →
  wp (uvmalloc_body root (n0 * PGSIZE) newsz xperm ((n0 + k) * PGSIZE))
     (λ r s'', match r with inl a' => a' = (n0 + (k + 1)) * PGSIZE ∧ ua_inv (k + 1) s'' | inr r => ua_post r s'' end) s'.
Proof.
  intros Hk Hlt (t' & l' & HA' & Hev & Hsz & Hz). assert (TRAPFRAME < MAXVA ∧ MAXVA = 2 ^ 38) as [HT HM] by done.
  pose proof (as_size _ _ _ _ _ HA) as [Hs3 Hs4]. destruct (npg_eq newsz) as [_ Hnp]; [lia|].
  assert (npg newsz * PGSIZE ≤ TRAPFRAME) as Htop.
  { rewrite <-Hnp, PGROUNDUP_eq by (unfold PGSIZE; lia). change TRAPFRAME with (67108862 * PGSIZE) in *. unfold PGSIZE in *. zdm. }
  unfold uvmalloc_body. destruct (Z.ltb_spec ((n0 + k) * PGSIZE) newsz) as [_|Hge].
  2: { exfalso. apply (page_lt (n0 + k) newsz) in Hlt; lia. }
  destruct ua_perm as [Hp1 Hp2].
  apply (add_page s' root t' l' (n0 + k) perm (λ p, memset p 0 PGSIZE) (λ _, 0));
    [done|done|done|unfold PGSIZE in *; lia| | |].
  - intros p m _ _ Ho Hb. split; [apply only_pages_memset|]. split; [by apply bytes_ok_memset|].
    intros i Hi. by rewrite rd_memset, decide_True by lia.
  - intros s2 t2 l2 HA2 Hev2 Hlen. eapply wp_mono; [|apply (ua_rollback k s2 t2 l2)]; try done.
    + intros [] s''; done.
    + eapply evolve_trans; [done|]. eapply evolve_mono; [|done]. lia.
    + pose proof (Permutation_length (ev_total _ _ _ _ _ _ _ _ _ Hev)) as E.
      pose proof (length_total s t l n0 Hs3). pose proof (length_total s' t' l' (n0 + k) ltac:(lia)). lia.
  - intros s2 t2 l2 p HA2 Hev2 Hsz2 Hup Hp Hg _. apply wp_ret. split.
    { unfold u64. rewrite Z.mod_small; unfold PGSIZE in *; lia. }
    exists t2, l2. replace (n0 + (k + 1)) with (n0 + k + 1) by lia. split; [done|]. split.
    { eapply evolve_trans; [done|]. eapply evolve_mono; [|done]. lia. }
    split; [lia|].
    intros j Hj. destruct (decide (j = n0 + k)) as [->|].
    + destruct (map_pte_props p perm (page_ok_pte p Hp) Hp1) as (_ & Epa & Efl & _). unfold zero_page. by rewrite Hup, Epa, Efl.
    + eapply (zero_page_keep _ s' t' s2 t2 (n0 + k)); [lia|apply Hev2|]. apply Hz. lia.
Qed.

Lemma uvmalloc_ok : wp (uvmalloc root oldsz newsz xperm) ua_post s.
Proof.
  unfold uvmalloc. destruct (Z.ltb_spec newsz oldsz); [lia|]. assert (TRAPFRAME < MAXVA ∧ MAXVA = 2 ^ 38) as [HT HM] by done.
  destruct (npg_eq oldsz) as [E1 ->]; [lia|]. destruct (npg_eq newsz) as [E2 E2']; [lia|].
  assert (0 ≤ n0 ≤ npg newsz) as Hn. { rewrite E1, E2. unfold PGSIZE. split; [apply Z.div_pos; lia|apply Z.div_le_mono; lia]. }
  eapply wp_iter with (I := λ a s', ∃ k, a = (n0 + k) * PGSIZE ∧ 0 ≤ k ≤ npg newsz - n0 ∧ ua_inv k s')
    (μ := λ a _, Z.to_nat (npg newsz - a / PGSIZE)).
  - intros a s' (k & -> & Hk & HI). destruct (decide (k = npg newsz - n0)) as [->|Hne].
    + unfold uvmalloc_body. replace (n0 + (npg newsz - n0)) with (npg newsz) in * by lia.
      destruct (Z.ltb_spec (npg newsz * PGSIZE) newsz) as [Hlt|_]; [apply page_lt in Hlt; lia|].
      apply wp_ret. destruct HI as (t' & l' & HI). replace (n0 + (npg newsz - n0)) with (npg newsz) in HI by lia.
      exists t', l'. by left.
    + eapply wp_mono; [|apply (uvmalloc_step k); [lia|lia|done]]. intros [a'|r] s''; [|done]. intros [-> HI']. split.
      * exists (k + 1). split; [done|]. split; [lia|done].
      * rewrite !Z.div_mul by (by compute). lia.
  - exists 0. rewrite Z.add_0_r. split; [done|]. split; [lia|]. exists t, l. rewrite Z.add_0_r. split; [done|].
    split; [apply evolve_refl|]. split; [lia|]. intros j Hj. lia.
  - rewrite Z.div_mul by (by compute). replace (newsz - n0 * PGSIZE + PGSIZE - 1) with (newsz + PGSIZE - 1 + (- n0) * PGSIZE) by lia.
    rewrite Z.div_add, <-E2 by (by compute). lia.
Qed.
End uvmalloc.
(** *** [freewalk] *)

Section freewalk.
Context (m0 : mem) (root : Z) (t : gmap (list Z) Z) (HP : PT m0 root t).
Context (Hleaf : ∀ w p i, t !! w = Some p → length w = 2%nat → 0 ≤ i < 512 → has (load64 m0 (p + 8 * i)) PTE_V = false).

(** The pages at and below a path. *)
Fixpoint sub (d : nat) (w : list Z) : list Z :=
  match d, t !! w with
  | S d', Some p => p :: (seqZ 0 512 ≫= λ i, sub d' (w ++ [i]))
  | _, _ => []
  end.

Lemma elem_of_sub d w q : q ∈ sub d w → ∃ w', t !! (w ++ w') = Some q.
Proof.
  revert w. induction d as [|d IH]; intros w; cbn [sub]; [by intros ?%elem_of_nil|].
  destruct (t !! w) as [p|] eqn:E; [|by intros ?%elem_of_nil].
  intros [->|(i & Hq & _)%list_elem_of_bind]%elem_of_cons; [exists []; by rewrite app_nil_r|].
  destruct (IH _ Hq) as [w' Hw']. exists (i :: w'). by rewrite <-(assoc_L (++)) in Hw'.
Qed.

Lemma sub_elem d w w' q : t !! (w ++ w') = Some q → (length w' < d)%nat → q ∈ sub d w.
Proof.
  revert d w. induction w' as [|i w' IH]; intros d w Hq Hl; (destruct d as [|d]; [simpl in Hl; lia|]); cbn [sub].
  - rewrite app_nil_r in Hq. rewrite Hq. by left.
  - assert (is_Some (t !! w)) as [p ->].
    { clear IH Hl. revert q Hq. induction w' as [|j w' IH] using rev_ind; intros q Hq; [by eapply HP|].
      destruct (pt_prefix _ _ _ HP (w ++ i :: w') j q) as [q' Hq']; [by rewrite <-(assoc_L (++))|by eapply IH]. }
    right. apply list_elem_of_bind. exists i. simpl in Hl. split; [apply IH; [by rewrite <-(assoc_L (++))|lia]|].
    apply (pt_paths _ _ _ HP) in Hq as (_ & _ & Hall). apply Forall_app in Hall as [_ [Hi _]%Forall_cons].
    apply elem_of_seqZ. lia.
Qed.

Lemma sub_page_ok d w : Forall page_ok (sub d w).
Proof. apply Forall_forall. intros q [w' Hw']%elem_of_sub. by apply (pt_paths _ _ _ HP) in Hw' as [? _]. Qed.

(** Subtrees are disjoint from each other and from their parent. *)
Lemma sub_disj d w p i j q : t !! w = Some p → q ∈ sub d (w ++ [i]) → q ≠ p ∧ (i ≠ j → q ∉ sub d (w ++ [j])).
Proof.
  intros Hw [w1 H1]%elem_of_sub. rewrite <-(assoc_L (++)) in H1. split.
  - intros ->. pose proof (pt_inj _ _ _ HP _ _ _ H1 Hw) as E%(f_equal length). rewrite length_app in E. simpl in E. lia.
  - intros Hij [w2 H2]%elem_of_sub. rewrite <-(assoc_L (++)) in H2. pose proof (pt_inj _ _ _ HP _ _ _ H1 H2) as E.
    by apply app_inv_head in E as [= ? _].
Qed.

(** What the loop over the entries of [p] has done. *)
Definition fw_inv (d : nat) (w : list Z) (p : Z) (s : mst) (l : list Z) (dn : list Z) (s' : mst) : Prop :=
  let cs := dn ≫= λ i, sub d (w ++ [i]) in
  ∃ l', FL s' l' ∧ l' ≡ₚ cs ++ l ∧ only_pages (p :: cs) (ram s) (ram s') ∧ bytes_ok (ram s') ∧
    ∀ i, 0 ≤ i < 512 → (i ∉ dn) → load64 (ram s') (p + 8 * i) = load64 m0 (p + 8 * i).

(** The precondition of a call: the tree below [w] is as it was at the start. *)
Definition fw_pre (d : nat) (w : list Z) (s : mst) (l : list Z) : Prop :=
  FL s l ∧ bytes_ok (ram s) ∧ ∃ ps, only_pages ps m0 (ram s) ∧ Forall page_ok ps ∧ ∀ q, q ∈ sub d w → (q ∉ ps) ∧ (q ∉ l).

Definition fw_post (d : nat) (w : list Z) (s : mst) (l : list Z) (s' : mst) : Prop :=
  ∃ l', FL s' l' ∧ l' ≡ₚ sub d w ++ l ∧ only_pages (sub d w) (ram s) (ram s') ∧ bytes_ok (ram s').

Lemma fw_child d w p i dn s l s' l' c :
  t !! w = Some p → t !! (w ++ [i]) = Some c → 0 ≤ i < 512 → (i ∉ dn) → fw_pre (S d) w s l →
  FL s' l' → l' ≡ₚ (dn ≫= λ i, sub d (w ++ [i])) ++ l → only_pages (p :: (dn ≫= λ i, sub d (w ++ [i]))) (ram s) (ram s') →
  bytes_ok (ram s') → fw_pre d (w ++ [i]) s' l'.
Proof.
  intros Hw Hc Hi Hdn (HF & Hb & ps & Ho & Hps & Hd) HF' Hl' Ho' Hb'. split; [done|]. split; [done|].
  exists (ps ++ p :: (dn ≫= λ i, sub d (w ++ [i]))). split; [|split].
  - eapply only_pages_trans; eapply only_pages_mono; [|exact Ho| |exact Ho']; intros q Hq; apply elem_of_app; tauto.
  - apply Forall_app. split; [done|]. apply Forall_cons. split; [by apply (pt_paths _ _ _ HP) in Hw as [? _]|].
    apply Forall_bind, Forall_forall. intros j _. apply sub_page_ok.
  - intros q Hq. destruct (sub_disj d w p i i q Hw Hq) as [Hne _].
    assert (q ∈ sub (S d) w) as Hin.
    { cbn [sub]. rewrite Hw. right. apply list_elem_of_bind. exists i. split; [done|]. apply elem_of_seqZ. lia. }
    assert (q ∉ dn ≫= λ i, sub d (w ++ [i])) as Hnc.
    { intros (j & Hj & Hjd)%list_elem_of_bind. destruct (sub_disj d w p i j q Hw Hq) as [_ Hdj]. apply Hdj; [by intros ->|done]. }
    destruct (Hd q Hin). rewrite Hl', !elem_of_app, elem_of_cons. tauto.
Qed.
Lemma fw_step d w p s l i dn td s' :
  (∀ w' p' s l, t !! w' = Some p' → (d + length w' = 3)%nat → fw_pre d w' s l → wp (freewalk d p') (λ _, fw_post d w' s l) s) →
  t !! w = Some p → (S d + length w = 3)%nat → fw_pre (S d) w s l → seqZ 0 512 = dn ++ i :: td → fw_inv d w p s l dn s' →
  wp (pte ← load_pte (p + 8 * i);
      if has pte PTE_V && (Z.land pte (Z.lor (Z.lor PTE_R PTE_W) PTE_X) =? 0) then
        freewalk d (PTE2PA pte);; store_pte (p + 8 * i) 0
      else if has pte PTE_V then panic "freewalk: leaf" else mret tt) (λ _, fw_inv d w p s l (dn ++ [i])) s'.
Proof.
  intros IH Hw Hd Hpre Hseq (l' & HF & Hl & Ho & Hb & Hpte).
  assert (0 ≤ i < 512) as Hi. { assert (i ∈ seqZ 0 512) as Hin%elem_of_seqZ by (rewrite Hseq; set_solver). lia. }
  assert (i ∉ dn) as Hidn. { pose proof (NoDup_seqZ 0 512) as Hnd. rewrite Hseq in Hnd. apply NoDup_app in Hnd as (_ & Hnd & _). set_solver. }
  apply wp_bind, wp_load_pte. rewrite Hpte by done.
  unfold fw_inv. rewrite bind_app, bind_singleton.
  destruct (t !! (w ++ [i])) as [c|] eqn:Hc.
  - assert (length w < 2)%nat as Hlen.
    { apply (pt_paths _ _ _ HP) in Hc as (_ & Hlen & _). rewrite length_app in Hlen. simpl in Hlen. lia. }
    rewrite (pt_entry _ _ _ HP w p i Hw Hlen Hi), Hc.
    destruct (table_pte_props c) as (-> & Hlf & -> & _); [by apply (pt_paths _ _ _ HP) in Hc as [? _]|].
    assert (Z.land (table_pte c) (Z.lor (Z.lor PTE_R PTE_W) PTE_X) = 0) as ->.
    { rewrite <-Hlf. unfold PTE_LEAF. by rewrite !Z.land_lor_distr_r. }
    apply wp_bind. eapply wp_mono; [|apply (IH (w ++ [i]) c s' l' Hc); [rewrite length_app; simpl; lia|by eapply fw_child]].
    intros [] s1 (l1 & HF1 & Hl1 & Ho1 & Hb1). apply wp_on_ram. cbn [ram freelist].
    assert (p ∉ sub d (w ++ [i])) as Hpc. { intros Hin. by destruct (sub_disj d w p i i p Hw Hin). }
    pose proof (pt_paths _ _ _ HP _ _ Hw) as [Hpok _].
    assert (only_pages [p] (ram s1) (store64 (p + 8 * i) 0 (ram s1))) as Hos by (apply only_pages_store64; unfold PGSIZE; lia).
    exists l1. split; [|split; [|split; [|split]]].
    + eapply (FL_only_pages s1); [done|done|by apply Forall_singleton|].
      intros q ->%list_elem_of_singleton. rewrite Hl1, Hl, !elem_of_app. intros [?|[(j & Hj & _)%list_elem_of_bind|Hpl]]; [done| |].
      * by destruct (sub_disj d w p j j p Hw Hj).
      * destruct Hpre as (_ & _ & ps & _ & _ & Hdj). apply (Hdj p); [cbn [sub]; rewrite Hw; by left|done].
    + rewrite Hl1, Hl. rewrite !(assoc_L (++)). f_equiv. apply Permutation_app_comm.
    + cbn [ram]. eapply only_pages_trans; [eapply only_pages_mono; [|exact Ho]; set_solver|].
      eapply only_pages_trans; [eapply only_pages_mono; [|exact Ho1]; set_solver|].
      eapply only_pages_mono; [|exact Hos]. set_solver.
    + by apply bytes_ok_store64.
    + intros j Hj Hjd. cbn [ram]. rewrite load64_store_other; [|done|done|done|done|set_solver].
      rewrite (only_pages_word _ _ _ p j Ho1); [apply Hpte; [done|set_solver]|done|done|apply sub_page_ok|done].
  - assert (has (load64 m0 (p + 8 * i)) PTE_V = false) as ->.
    { destruct (decide (length w < 2)%nat) as [Hlen|Hlen]; [by rewrite (pt_entry _ _ _ HP w p i Hw Hlen Hi), Hc|].
      apply (Hleaf w p i Hw); [lia|done]. }
    simpl. apply wp_ret. assert (sub d (w ++ [i]) = []) as -> by (destruct d; cbn [sub]; by rewrite ?Hc).
    rewrite app_nil_r. exists l'. do 4 (split; [done|]). intros j Hj Hjd. apply Hpte; [done|set_solver].
Qed.

Lemma freewalk_sub d w p s l :
  t !! w = Some p → (d + length w = 3)%nat → fw_pre d w s l → wp (freewalk d p) (λ _, fw_post d w s l) s.
Proof.
  revert w p s l. induction d as [|d IH]; intros w p s l Hw Hd Hpre.
  { apply (pt_paths _ _ _ HP) in Hw as (_ & ? & _). lia. }
  cbn [freewalk]. pose proof Hpre as (HF & Hb & ps & Ho & Hps & Hdj). pose proof (pt_paths _ _ _ HP _ _ Hw) as [Hpok _].
  assert (p ∈ sub (S d) w) as Hin by (cbn [sub]; rewrite Hw; by left).
  apply wp_bind. eapply (wp_for (fw_inv d w p s l)).
  - intros dn i td s' Hseq HI. by eapply fw_step.
  - exists l. split; [done|]. split; [done|]. split; [apply only_pages_refl|]. split; [done|].
    intros i Hi _. apply (only_pages_word ps); try done. by apply Hdj.
  - intros s' (l' & HF' & Hl' & Ho' & Hb' & _).
    set (cs := seqZ 0 512 ≫= λ i, sub d (w ++ [i])) in *.
    assert (p ∉ l') as Hpl.
    { rewrite Hl', elem_of_app. intros [(i & Hi & _)%list_elem_of_bind|?]; [|by apply (Hdj p)].
      by destruct (sub_disj d w p i i p Hw Hi). }
    eapply wp_mono; [|by apply (kfree_ok s' l' p)]. intros [] s2 (HF2 & Ho2 & Hb2). unfold fw_post. cbn [sub]. rewrite Hw. fold cs.
    exists (p :: l'). split; [done|]. split; [by rewrite Hl'|]. split; [|by apply Hb2].
    eapply only_pages_trans; [exact Ho'|]. eapply only_pages_mono; [|exact Ho2]. intros q ->%list_elem_of_singleton. by left.
Qed.

Lemma freewalk_ok s l :
  VM s root t l → ram s = m0 →
  wp (freewalk 3 root) (λ _ s', ∃ l', FL s' l' ∧ l' ≡ₚ tpages t ++ l ∧ only_pages (tpages t) (ram s) (ram s') ∧ bytes_ok (ram s')) s.
Proof.
  intros [_ HF Hd Hb] Hm. assert (∀ q, q ∈ sub 3 [] ↔ q ∈ tpages t) as Hsub.
  { intros q. rewrite elem_of_tpages. split; [by intros ?%elem_of_sub|]. intros [w Hw]. apply (sub_elem 3 [] w q Hw).
    apply (pt_paths _ _ _ HP) in Hw as (_ & ? & _). lia. }
  eapply wp_mono; [|apply (freewalk_sub 3 [] root s l); [apply HP|done|]].
  - intros [] s' (l' & HF' & Hl' & Ho & Hb'). exists l'. split; [done|]. split; [|split; [|done]].
    + rewrite Hl'. f_equiv. apply NoDup_Permutation; [| |done].
      * pose proof (fl_nodup _ _ HF') as Hnd. rewrite Hl' in Hnd. by apply NoDup_app in Hnd as (? & _ & _).
      * unfold tpages. apply NoDup_fmap_2_strong; [|apply NoDup_map_to_list].
        intros [w1 q1] [w2 q2] H1%elem_of_map_to_list H2%elem_of_map_to_list. simpl. intros <-. f_equal. by eapply (pt_inj _ _ _ HP).
    + eapply only_pages_mono; [|exact Ho]. intros q. by rewrite Hsub.
  - split; [done|]. split; [done|]. exists []. split; [by rewrite Hm|]. split; [done|]. intros q Hq%Hsub.
    split; [by intros ?%elem_of_nil|by apply Hd].
Qed.
End freewalk.

(** *** [uvmcreate] and [uvmfree] *)

Lemma leaf_index i j k :
  0 ≤ i < 256 → 0 ≤ j < 512 → 0 ≤ k < 512 →
  let va := ((i * 512 + j) * 512 + k) * PGSIZE in
  0 ≤ va < MAXVA ∧ PX 2 va = i ∧ PX 1 va = j ∧ PX 0 va = k.
Proof.
  intros Hi Hj Hk va. unfold va. rewrite !PX_eq by (unfold PGSIZE; lia). change MAXVA with 274877906944. unfold PGSIZE.
  change (2 ^ (12 + 9 * 2)) with 1073741824. change (2 ^ (12 + 9 * 1)) with 2097152. change (2 ^ (12 + 9 * 0)) with 4096.
  split; [lia|]. split; [|split]; zdm.
Qed.

(** If no address is mapped then no last-level entry is valid. *)
Lemma no_leaf m root t :
  PT m root t → (∀ va, 0 ≤ va < MAXVA → has (pte_of m t va) PTE_V = false) →
  ∀ w p k, t !! w = Some p → length w = 2%nat → 0 ≤ k < 512 → has (load64 m (p + 8 * k)) PTE_V = false.
Proof.
  intros HP Hno [|i [|j [|]]] p k Hw Hlen Hk; try done.
  pose proof (pt_low _ _ _ HP _ _ _ Hw) as Hi. pose proof (pt_paths _ _ _ HP _ _ Hw) as (_ & _ & Hall).
  apply Forall_cons in Hall as [Hi' [Hj _]%Forall_cons].
  destruct (leaf_index i j k) as (Hva & E2 & E1 & E0); [lia|lia|lia|]. specialize (Hno _ Hva). revert Hno.
  unfold pte_of, leaf_at. by rewrite E2, E1, E0, Hw.
Qed.

Lemma uvmfree_ok s root t l sz :
  0 ≤ sz ≤ TRAPFRAME → AS s root t l (npg sz) → (∀ va, TRAPFRAME ≤ va < MAXVA → has (pte_of (ram s) t va) PTE_V = false) →
  wp (uvmfree root sz) (λ _ s', ∃ l', FL s' l' ∧ l' ≡ₚ total s t l (npg sz) ∧
    only_pages (total s t l (npg sz)) (ram s) (ram s') ∧ bytes_ok (ram s')) s.
Proof.
  intros Hsz HA Hhigh. unfold uvmfree. apply wp_bind.
  assert (wp (if 0 <? sz then uvmunmap root 0 (PGROUNDUP sz / PGSIZE) true else mret tt)
    (λ _ s', ∃ l', AS s' root t l' 0 ∧ evolve 0 s t l (npg sz) s' t l' 0) s) as Hun.
  { destruct (Z.ltb_spec 0 sz) as [Hpos|Hz].
    - change (PGROUNDUP sz / PGSIZE) with (npg sz). replace (npg sz) with (npg sz - 0) at 1 by lia.
      apply (uvmunmap_shrink s root t l (npg sz) 0 HA). pose proof (as_size _ _ _ _ _ HA). lia.
    - assert (sz = 0) as -> by lia. apply wp_ret. exists l. change (npg 0) with 0 in *. split; [done|apply evolve_refl]. }
  eapply wp_mono; [|exact Hun]. intros [] s1 (l1 & HA1 & Hev). pose proof (as_vm _ _ _ _ _ HA1) as HV1.
  eapply wp_mono; [|apply (freewalk_ok (ram s1) root t (vm_pt _ _ _ _ HV1)); [|exact HV1|done]].
  - intros [] s2 (l2 & HF2 & Hl2 & Ho2 & Hb2). exists l2. destruct Hev as [_ Htot _ Ho1].
    change (total s1 t l1 0) with (tpages t ++ l1) in Htot. split; [done|]. split; [by rewrite Hl2|]. split; [|done].
    eapply only_pages_trans; [exact Ho1|]. eapply only_pages_mono; [|exact Ho2]. intros q Hq. rewrite <-Htot. apply elem_of_app. by left.
  - apply (no_leaf _ root); [apply HV1|]. intros va Hva. destruct (decide (va < TRAPFRAME)).
    + apply (as_free _ _ _ _ _ HA1). lia.
    + rewrite (su_high _ _ _ _ _ (ev_user _ _ _ _ _ _ _ _ _ Hev)) by lia. apply Hhigh. lia.
Qed.

Lemma uvmcreate_ok s l :
  FL s l → bytes_ok (ram s) →
  wp uvmcreate (λ r s', match l with
    | [] => r = 0 ∧ s' = s
    | p :: l' => r = p ∧ p ≠ 0 ∧ AS s' p {[ [] := p ]} l' 0 ∧ (∀ va, pte_of (ram s') {[ [] := p ]} va = 0) ∧
                 only_pages [p] (ram s) (ram s')
    end) s.
Proof.
  intros HF Hb. unfold uvmcreate. apply wp_bind. eapply wp_mono; [|by apply kalloc_ok]. intros r s1.
  destruct l as [|p l']; [intros [-> ->]; by apply wp_ret|]. intros (-> & HF1 & Ho1 & Hb1 & _).
  pose proof (fl_pages _ _ HF) as [Hp _]%Forall_cons. pose proof (page_ok_range _ Hp) as Hpr.
  pose proof (fl_nodup _ _ HF) as [Hpl _]%NoDup_cons.
  destruct (Z.eqb_spec p 0); [lia|]. apply wp_bind, wp_on_ram, wp_ret. cbn [ram freelist].
  pose proof (only_pages_memset p 0 (ram s1)) as Ho2.
  assert (PT (memset p 0 PGSIZE (ram s1)) p {[ [] := p ]}) as HP.
  { split; [apply lookup_insert_eq| | | | |].
    - intros w q [<- <-]%lookup_singleton_Some. split; [done|]. split; [simpl; lia|done].
    - intros i w q [? _]%lookup_singleton_Some. done.
    - intros w w' q [<- _]%lookup_singleton_Some [<- _]%lookup_singleton_Some. done.
    - intros w i q [E _]%lookup_singleton_Some. by destruct w.
    - intros w q i [<- <-]%lookup_singleton_Some _ Hi. rewrite lookup_singleton_ne by done.
      apply load64_memset0; unfold PGSIZE; lia. }
  assert (∀ m va, pte_of m {[ [] := p ]} va = 0) as Hpte.
  { intros m va. unfold pte_of, leaf_at. by rewrite lookup_singleton_ne. }
  split; [done|]. split; [done|]. split; [|split; [done|by eapply only_pages_trans]]. split.
  - split; [done| | |by apply bytes_ok_memset, Hb1].
    + eapply (FL_only_pages s1); [done|done|by apply Forall_singleton|by intros q ->%list_elem_of_singleton].
    + intros q [w [_ <-]%lookup_singleton_Some]%elem_of_tpages. done.
  - by compute.
  - intros k Hk. lia.
  - intros va _. by rewrite Hpte.
  - constructor.
  - by intros q ?%elem_of_nil.
Qed.
(** *** [uvmcopy] *)

Section uvmcopy.
Context (s : mst) (old new : Z) (to tn : gmap (list Z) Z) (l : list Z) (sz : Z).
Context (Hsz : 0 ≤ sz ≤ TRAPFRAME) (HO : AS s old to l (npg sz)) (HN : AS s new tn l 0).
Context (Hdisj : ∀ p, p ∈ tpages to ++ upages s to (npg sz) → p ∉ tpages tn).

(** The [j]-th page of the child is a copy of the parent's. *)
Definition copied (s' : mst) (t' : gmap (list Z) Z) (j : Z) : Prop :=
  PTE_FLAGS (upte s' t' j) = PTE_FLAGS (upte s to j) ∧
  ∀ i, 0 ≤ i < PGSIZE → rd (ram s') (PTE2PA (upte s' t' j) + i) = rd (ram s) (PTE2PA (upte s to j) + i).

Definition uc_inv (k : Z) (s' : mst) : Prop :=
  ∃ t' l', AS s' new t' l' k ∧ evolve 0 s tn l 0 s' t' l' k ∧
    Z.of_nat (size t') ≤ Z.of_nat (size tn) + 2 * k ∧ ∀ j, 0 ≤ j < k → copied s' t' j.

Definition uc_post (r : option Z) (s' : mst) : Prop :=
  match r with
  | None => uc_inv (npg sz) s'
  | Some i => ∃ k t' l', i = k * PGSIZE ∧ 0 ≤ k < npg sz ∧ AS s' new t' l' k ∧ evolve 0 s tn l 0 s' t' l' k ∧
      Z.of_nat (length l) ≤ 3 * npg sz
  end.

(** The parent's pages are not the child's. *)
Lemma uc_parent q : q ∈ tpages to ++ upages s to (npg sz) → page_ok q ∧ (q ∉ total s tn l 0).
Proof.
  intros Hq. pose proof (Hdisj q Hq) as Hnt. unfold total. change (upages s tn 0) with (@nil Z). rewrite app_nil_l, elem_of_app.
  apply elem_of_app in Hq as [Hq|Hq].
  - pose proof (vm_disj _ _ _ _ (as_vm _ _ _ _ _ HO) q Hq). split; [|tauto].
    pose proof (tpages_ok _ _ _ (vm_pt _ _ _ _ (as_vm _ _ _ _ _ HO))) as Hall. rewrite Forall_forall in Hall. by apply Hall.
  - destruct (as_own _ _ _ _ _ HO q Hq) as (? & ? & _). split; [done|tauto].
Qed.

Lemma uc_total_ok : Forall page_ok (total s tn l 0).
Proof. unfold total. change (upages s tn 0) with (@nil Z). rewrite app_nil_l. eapply VM_pages_ok, HN. Qed.

(** The parent in a later state. *)
Lemma uc_parent_kept s' :
  only_pages (total s tn l 0) (ram s) (ram s') →
  PT (ram s') old to ∧ same_user s to s' to (npg sz).
Proof.
  intros Ho. destruct (PT_only_pages (ram s) (ram s') old to (total s tn l 0)) as [HP Hpte]; try done.
  - apply HO.
  - apply uc_total_ok.
  - intros q Hq Ht. destruct (uc_parent q); [apply elem_of_app; by left|done].
  - split; [done|]. apply (same_user_intro _ _ _ _ _ (total s tn l 0)); [| |done|apply uc_total_ok|].
    + intros k Hk. apply Hpte. unfold PGSIZE. lia.
    + intros va Hva. apply Hpte. assert (0 ≤ TRAPFRAME) by done. lia.
    + intros q Hq. apply uc_parent, elem_of_app. by right.
Qed.

Lemma copied_keep s1 t1 s2 t2 n j : 0 ≤ j < n → same_user s1 t1 s2 t2 n → copied s1 t1 j → copied s2 t2 j.
Proof.
  intros Hj [H1 H2 _] [H3 H4]. unfold copied. rewrite H1 by done. split; [done|]. intros i Hi. rewrite H2 by done. by apply H4.
Qed.

Lemma uvmcopy_step k s' :
  0 ≤ k < npg sz → uc_inv k s' →
  wp (uvmcopy_body old new sz (k * PGSIZE))
     (λ r s'', match r with inl i' => i' = (k + 1) * PGSIZE ∧ uc_inv (k + 1) s'' | inr r => uc_post r s'' end) s'.
Proof.
  intros Hk (t' & l' & HA' & Hev & Hz & Hc). assert (TRAPFRAME < MAXVA ∧ MAXVA = 2 ^ 38) as [HT HM] by done.
  pose proof (as_size _ _ _ _ _ HO) as [_ Htop]. destruct (uc_parent_kept s' (ev_only _ _ _ _ _ _ _ _ _ Hev)) as [HP' Hsu].
  destruct (as_map _ _ _ _ _ HO k Hk) as [HV Hlf]. unfold uvmcopy_body.
  destruct (Z.ltb_spec (k * PGSIZE) sz) as [_|Hge]; [|exfalso; apply Z.le_ngt in Hge; apply Hge, page_lt; lia].
  apply wp_bind. unfold wp at 1. rewrite (walk_lookup s' old to (k * PGSIZE) HP') by (unfold PGSIZE in *; lia).
  pose proof (su_pte _ _ _ _ _ Hsu k Hk) as Epte. set (e := upte s to k) in *. unfold upte, pte_of in Epte.
  destruct (leaf_at to (k * PGSIZE)) as [a|] eqn:Ha; [|by rewrite <-Epte in HV]. simpl default.
  assert (0 < a) by (eapply leaf_at_pos; [exact HP'| |exact Ha]; unfold PGSIZE; lia). destruct (Z.eqb_spec a 0); [lia|].
  apply wp_bind, wp_load_pte. rewrite Epte, HV. cbn [negb].
  assert (PTE2PA e ∈ upages s to (npg sz)) as Hein by (apply elem_of_upages; eauto).
  destruct (uc_parent (PTE2PA e)) as [Heok Hetot]; [apply elem_of_app; by right|].
  assert (0 ≤ PTE_FLAGS e < 1024) as Hfl. { unfold PTE_FLAGS. change 0x3FF with (Z.ones 10). rewrite Z.land_ones by lia. apply Z.mod_pos_bound. lia. }
  assert (Z.lor (PTE_FLAGS e) PTE_V = PTE_FLAGS e) as HlorV.
  { apply lor_has. rewrite <-has_flags; [done|by compute]. }
  apply (add_page s' new t' l' k (PTE_FLAGS e) (λ p, memmove p (PTE2PA e) PGSIZE) (λ i, rd (ram s) (PTE2PA e + i)));
    [done|done|by rewrite HlorV|unfold PGSIZE in *; lia| | |].
  - intros p m Hpl Hp Ho Hb. assert (0 ≤ PGSIZE) as Hpg by done. assert (p ∈ total s tn l 0) as Hpt.
    { rewrite <-(ev_total _ _ _ _ _ _ _ _ _ Hev). unfold total. rewrite !elem_of_app. tauto. }
    split; [|split; [by apply bytes_ok_memmove|]].
    + intros x Hx. rewrite rd_memmove, decide_False; [done| |done|done]. apply Hx. by left.
    + intros i Hi. rewrite rd_memmove, decide_True by (done || lia). replace (PTE2PA e + (p + i - p)) with (PTE2PA e + i) by lia.
      rewrite (only_pages_byte [p] (ram s') m); [|done|intros E%list_elem_of_singleton; by rewrite E in Hetot|done|by apply Forall_singleton|done].
      eapply only_pages_byte; [apply (ev_only _ _ _ _ _ _ _ _ _ Hev)|done|done|apply uc_total_ok|done].
  - intros s2 t2 l2 HA2 Hev2 Hlen. apply wp_ret. exists k, t2, l2. split; [done|]. split; [done|]. split; [done|].
    split; [eapply evolve_trans; [done|]; eapply evolve_mono; [|done]; lia|].
    pose proof (Permutation_length (ev_total _ _ _ _ _ _ _ _ _ Hev)) as E.
    pose proof (length_total s tn l 0 ltac:(lia)). pose proof (length_total s' t' l' k ltac:(lia)). lia.
  - intros s2 t2 l2 p HA2 Hev2 Hz2 Hup Hp Hg _. apply wp_ret. split; [unfold u64; rewrite Z.mod_small; unfold PGSIZE in *; lia|].
    exists t2, l2. split; [done|]. split; [eapply evolve_trans; [done|]; eapply evolve_mono; [|done]; lia|]. split; [lia|].
    intros j Hj. destruct (decide (j = k)) as [->|].
    + destruct (map_pte_props p (PTE_FLAGS e) (page_ok_pte p Hp) Hfl) as (_ & Epa & Efl & _). unfold copied.
      by rewrite Hup, Epa, Efl, HlorV.
    + eapply (copied_keep s' t' s2 t2 k); [lia|apply Hev2|]. apply Hc. lia.
Qed.

Lemma uvmcopy_ok :
  wp (uvmcopy old new sz) (λ r s', same_user s to s' to (npg sz) ∧ ∃ t' l',
    (r = 0 ∧ AS s' new t' l' (npg sz) ∧ evolve 0 s tn l 0 s' t' l' (npg sz) ∧ ∀ j, 0 ≤ j < npg sz → copied s' t' j) ∨
    (r = -1 ∧ AS s' new t' l' 0 ∧ evolve 0 s tn l 0 s' t' l' 0 ∧
       Z.of_nat (length l) ≤ 3 * npg sz)) s.
Proof.
  unfold uvmcopy. apply wp_bind. assert (TRAPFRAME < MAXVA) as HT by done. destruct (npg_eq sz) as [E _]; [lia|].
  pose proof (as_size _ _ _ _ _ HO) as [Hn0 _].
  eapply wp_mono; [|eapply wp_iter with (I := λ i s', ∃ k, i = k * PGSIZE ∧ 0 ≤ k ≤ npg sz ∧ uc_inv k s')
    (μ := λ i _, Z.to_nat (npg sz - i / PGSIZE)) (Q := uc_post)].
  - intros [i|] s'; simpl.
    + intros (k & t' & l' & -> & Hk & HA & Hev & Hlen). rewrite Z.div_mul by (by compute). apply wp_bind.
      replace k with (k - 0) at 1 by lia. replace 0 with (0 * PGSIZE) at 1 by lia.
      eapply wp_mono; [|apply (uvmunmap_shrink s' new t' l' k 0 HA); lia]. intros [] s'' (l'' & HA'' & Hev'').
      apply wp_ret. pose proof (evolve_trans _ _ _ _ _ _ _ _ _ _ _ _ _ Hev Hev'') as Hev2.
      split; [by apply uc_parent_kept, Hev2|]. exists t', l''. right. done.
    + intros (t' & l' & HA & Hev & _ & Hc). apply wp_ret. split; [by apply uc_parent_kept, Hev|]. exists t', l'. left. done.
  - intros i s' (k & -> & Hk & HI). destruct (decide (k = npg sz)) as [->|Hne].
    + unfold uvmcopy_body. destruct (Z.ltb_spec (npg sz * PGSIZE) sz) as [Hlt|_]; [apply page_lt in Hlt; lia|]. by apply wp_ret.
    + eapply wp_mono; [|apply uvmcopy_step; [lia|done]]. intros [i'|r] s''; [|done]. intros [-> HI']. split.
      * exists (k + 1). split; [done|]. split; [lia|done].
      * rewrite !Z.div_mul by (by compute). lia.
  - exists 0. split; [done|]. split; [done|]. exists tn, l. split; [done|]. split; [apply evolve_refl|]. split; [lia|]. intros j Hj. lia.
  - change (0 / PGSIZE) with 0. rewrite <-E. lia.
Qed.
End uvmcopy.
End uvm.
