(* ===== verification/Ucopy.v ===== *)
(** * Copying between kernel and user memory (kernel/vm.c)

    [copyout], [copyin] and [copyinstr] walk the page table of a process page
    by page.  They are related here to the memory the process sees: [ubyte s t
    va] is the byte at the user address [va]. *)

From S2P Require Import Prelude Machine Mem Kalloc Vm Vmspec Uvm.

Section ucopy.
Context `{LY : Layout}.

(** The page [walkaddr] finds. *)
Definition upage (s : mst) (t : gmap (list Z) Z) (va : Z) : option Z :=
  let e := pte_of (ram s) t va in
  if (va <? MAXVA) && has e PTE_V && has e PTE_U && negb (PTE2PA e =? 0) then Some (PTE2PA e) else None.

(** ... and that a process may write. *)
Definition wpage (s : mst) (t : gmap (list Z) Z) (va : Z) : option Z :=
  if has (pte_of (ram s) t va) PTE_W then upage s t va else None.

(** The physical address of a user address, and the byte there. *)
Definition uphys (s : mst) (t : gmap (list Z) Z) (va : Z) : Z := PTE2PA (pte_of (ram s) t va) + va mod PGSIZE.
Definition ubyte (s : mst) (t : gmap (list Z) Z) (va : Z) : Z := rd (ram s) (uphys s t va).

Lemma pte_of_page m t va va' : 0 ≤ va → 0 ≤ va' → vpn va = vpn va' → pte_of m t va = pte_of m t va'.
Proof.
  intros H0 H0' E. assert (∀ level, 0 ≤ level → PX level va = PX level va') as Hpx.
  { intros level Hl. rewrite !PX_eq by done. unfold vpn, PGSIZE in E. replace (12 + 9 * level) with (12 + (9 * level)) by lia.
    rewrite Z.pow_add_r by lia. rewrite <-!Z.div_div by lia. change (2 ^ 12) with 4096. by rewrite E. }
  unfold pte_of, leaf_at. by rewrite !Hpx by lia.
Qed.

Lemma PGROUNDDOWN_vpn va : 0 ≤ va < 2 ^ 64 → PGROUNDDOWN va = vpn va * PGSIZE ∧ va = PGROUNDDOWN va + va mod PGSIZE.
Proof. intros Hva. rewrite PGROUNDDOWN_eq by done. unfold vpn, PGSIZE. zdm. Qed.

Lemma walkaddr_lookup s root t va :
  PT (ram s) root t → 0 ≤ va → walkaddr root va s = Ok (default 0 (upage s t va)) s.
Proof.
  intros HP H0. unfold walkaddr, upage. destruct (Z.leb_spec MAXVA va) as [Hge|Hlt].
  { destruct (Z.ltb_spec va MAXVA); [lia|]. done. }
  destruct (Z.ltb_spec va MAXVA); [|lia]. unfold mbind at 1, M_bind at 1. rewrite (walk_lookup s root t va HP) by lia.
  unfold pte_of. destruct (leaf_at t va) as [a|] eqn:Ha; [|done]. change (default 0 (Some a)) with a.
  pose proof (leaf_at_pos _ _ _ _ _ HP H0 Ha). destruct (Z.eqb_spec a 0); [lia|].
  unfold mbind, M_bind. change (load_pte a s) with (Ok (S := mst) (load64 (ram s) a) s). cbn beta iota.
  destruct (has (load64 (ram s) a) PTE_V); [|done]. destruct (has (load64 (ram s) a) PTE_U); [|done]. simpl.
  destruct (Z.eqb_spec (PTE2PA (load64 (ram s) a)) 0) as [->|]; done.
Qed.

(** Addresses in one page. *)
Lemma same_page s t va i :
  0 ≤ va → 0 ≤ i → va mod PGSIZE + i < PGSIZE →
  pte_of (ram s) t (va + i) = pte_of (ram s) t va ∧ uphys s t (va + i) = uphys s t va + i ∧
  upage s t (va + i) = upage s t va ∧ wpage s t (va + i) = wpage s t va.
Proof.
  intros H0 Hi Hp. assert (vpn (va + i) = vpn va) as Ev by (unfold vpn, PGSIZE in *; zdm).
  assert (pte_of (ram s) t (va + i) = pte_of (ram s) t va) as Ep by (apply pte_of_page; [lia|done|done]).
  assert ((va + i) mod PGSIZE = va mod PGSIZE + i) as Em by (unfold PGSIZE in *; zdm).
  assert ((va + i <? MAXVA) = (va <? MAXVA)) as Eb.
  { change MAXVA with (67108864 * PGSIZE). unfold PGSIZE in *. destruct (Z.ltb_spec (va + i) (67108864 * 4096)), (Z.ltb_spec va (67108864 * 4096)); try done; zdm. }
  assert (upage s t (va + i) = upage s t va) as Eu by (unfold upage; by rewrite Ep, Eb).
  split; [done|]. unfold uphys, wpage. rewrite Ep, Em, Eu. split; [lia|done].
Qed.

(** [walkaddr] on a page boundary, for any address of the page. *)
Lemma walkaddr_ok s root t va :
  PT (ram s) root t → 0 ≤ va < 2 ^ 64 →
  walkaddr root (PGROUNDDOWN va) s = Ok (default 0 (upage s t va)) s.
Proof.
  intros HP Hva. destruct (PGROUNDDOWN_vpn va Hva) as [E1 E2]. set (va0 := PGROUNDDOWN va) in *.
  pose proof (Z.mod_pos_bound va PGSIZE ltac:(by compute)) as Hm.
  assert (0 ≤ va0) as H0 by (rewrite E1; unfold vpn, PGSIZE; zdm).
  assert (va0 mod PGSIZE = 0) as Hm0 by (rewrite E1; apply Z_mod_mult).
  rewrite (walkaddr_lookup s root t va0 HP H0). rewrite E2. destruct (same_page s t va0 (va mod PGSIZE)) as (_ & _ & -> & _); [done|lia|lia|done].
Qed.

(** ** An address space and a kernel buffer *)

Section copy.
Context (s : mst) (root : Z) (t : gmap (list Z) Z) (l : list Z) (n : Z) (HA : AS s root t l n).
Context (Hsys : ∀ va, TRAPFRAME ≤ va < MAXVA → has (pte_of (ram s) t va) PTE_U = false).

Lemma user_vpn va : 0 ≤ va < MAXVA → has (pte_of (ram s) t va) PTE_V = true → has (pte_of (ram s) t va) PTE_U = true →
  0 ≤ vpn va < n ∧ upte s t (vpn va) = pte_of (ram s) t va.
Proof.
  intros Hva EV EU. assert (va < n * PGSIZE) as Hlt.
  { destruct (decide (va < TRAPFRAME)) as [Hlt|]; [|rewrite Hsys in EU by lia; done].
    destruct (decide (va < n * PGSIZE)); [done|]. rewrite (as_free _ _ _ _ _ HA) in EV by lia. done. }
  assert (0 ≤ vpn va < n) as Hv by (unfold vpn, PGSIZE in *; zdm). split; [done|].
  apply pte_of_page; [unfold PGSIZE; lia|lia|]. unfold vpn. by rewrite Z.div_mul by (by compute).
Qed.

Lemma upage_user va p : 0 ≤ va → upage s t va = Some p →
  0 ≤ vpn va < n ∧ p = PTE2PA (upte s t (vpn va)) ∧ p ∈ upages s t n ∧ uphys s t va = p + va mod PGSIZE.
Proof.
  intros H0 Hp. unfold upage in Hp. destruct (va <? MAXVA) eqn:Em; [|done]. apply Z.ltb_lt in Em.
  destruct (has (pte_of (ram s) t va) PTE_V) eqn:EV; [|done]. destruct (has (pte_of (ram s) t va) PTE_U) eqn:EU; [|done]. simpl in Hp.
  destruct (Z.eqb_spec (PTE2PA (pte_of (ram s) t va)) 0); [done|]. injection Hp as <-.
  destruct (user_vpn va) as [Hv Eu]; [lia|done|done|].
  split; [done|]. rewrite Eu. split; [done|]. split; [|done]. apply elem_of_upages. exists (vpn va). by rewrite Eu.
Qed.

(** Different user addresses are different bytes. *)
Lemma uphys_inj va va' : 0 ≤ va < n * PGSIZE → 0 ≤ va' < n * PGSIZE → uphys s t va = uphys s t va' → va = va'.
Proof.
  intros Hva Hva' E. unfold uphys in E.
  assert (∀ x, 0 ≤ x < n * PGSIZE → 0 ≤ vpn x < n ∧ pte_of (ram s) t x = upte s t (vpn x) ∧ x = vpn x * PGSIZE + x mod PGSIZE) as Hx.
  { intros x Hx. split; [unfold vpn, PGSIZE in *; zdm|]. split; [|unfold vpn, PGSIZE; zdm].
    apply pte_of_page; [lia|unfold vpn, PGSIZE in *; zdm|]. unfold vpn. by rewrite Z.div_mul by (by compute). }
  destruct (Hx va Hva) as (Hv & E1 & D1), (Hx va' Hva') as (Hv' & E2 & D2). rewrite E1, E2 in E.
  assert (∀ k, 0 ≤ k < n → PTE2PA (upte s t k) mod PGSIZE = 0) as Hal.
  { intros k Hk. apply (as_own _ _ _ _ _ HA). apply elem_of_upages. eauto. }
  pose proof (Hal _ Hv) as A1. pose proof (Hal _ Hv') as A2.
  assert (va mod PGSIZE = va' mod PGSIZE) as Em by (unfold PGSIZE in *; zdm).
  assert (PTE2PA (upte s t (vpn va)) = PTE2PA (upte s t (vpn va'))) as Ep by lia.
  assert (vpn va = vpn va'); [|lia].
  pose proof (as_nodup _ _ _ _ _ HA) as Hnd. unfold upages, leaf_pages in Hnd.
  assert (Z.to_nat (vpn va) = Z.to_nat (vpn va')); [|lia].
  eapply NoDup_lookup; [exact Hnd| |]; rewrite list_lookup_fmap, lookup_seqZ_lt by lia; simpl; rewrite Z.add_0_l, Z2Nat.id by lia.
  - reflexivity.
  - rewrite Z.add_0_l. f_equal. symmetry. exact Ep.
Qed.

(** A write into pages that are neither tables nor free. *)
Lemma AS_write_pages ps m' :
  only_pages ps (ram s) m' → bytes_ok m' → (∀ p, p ∈ ps → page_ok p ∧ (p ∉ l) ∧ (p ∉ tpages t)) →
  AS (Mst m' (freelist s)) root t l n ∧ ∀ va, 0 ≤ va → pte_of m' t va = pte_of (ram s) t va.
Proof.
  intros Ho Hb Hps. pose proof HA as [[HP HF Hd Hby] Hs Hmap Hfree Hnd Hown].
  assert (Forall page_ok ps) as Hok by (apply Forall_forall; intros p Hp; by apply Hps).
  destruct (PT_only_pages (ram s) m' root t ps HP Ho Hok) as [HP' Hpte]; [intros q Hq; by apply Hps|].
  split; [|done]. assert (∀ k, 0 ≤ k → upte (Mst m' (freelist s)) t k = upte s t k) as Hu by (intros; apply Hpte; unfold PGSIZE; lia).
  assert (upages (Mst m' (freelist s)) t n = upages s t n) as Eu by (apply upages_ext; intros; apply Hu; lia).
  split; [split; try done| | | | |].
  - eapply FL_only_pages; [done|done|done|]. intros q Hq. by apply Hps.
  - done.
  - intros k Hk. rewrite Hu by lia. by apply Hmap.
  - intros va Hva. cbn [ram]. rewrite Hpte by (unfold PGSIZE in *; lia). by apply Hfree.
  - by rewrite Eu.
  - by rewrite Eu.
Qed.

Lemma AS_write m' :
  only_pages (upages s t n) (ram s) m' → bytes_ok m' →
  AS (Mst m' (freelist s)) root t l n ∧ ∀ va, 0 ≤ va → pte_of m' t va = pte_of (ram s) t va.
Proof. intros Ho Hb. apply (AS_write_pages (upages s t n)); [done|done|apply HA]. Qed.

(** The pages of the address space do not meet the buffer. *)
Definition apart (ps : list Z) (buf len : Z) : Prop := ∀ p, p ∈ ps → p + PGSIZE ≤ buf ∨ buf + len ≤ p.

(** A write into a kernel buffer. *)
Lemma AS_buffer m' dst len :
  (∀ a, ¬ (dst ≤ a < dst + len) → rd m' a = rd (ram s) a) → bytes_ok m' → apart (total s t l n) dst len →
  AS (Mst m' (freelist s)) root t l n ∧ ∀ va, 0 ≤ va → pte_of m' t va = pte_of (ram s) t va.
Proof.
  intros Ho Hb Hap.
  assert (∀ p i, p ∈ total s t l n → 0 ≤ i → i + 8 ≤ PGSIZE → load64 m' (p + i) = load64 (ram s) (p + i)) as Hw.
  { intros p i Hp Hi Hi'. apply load64_ext. intros a Ha. apply Ho. destruct (Hap p Hp); lia. }
  pose proof HA as [[HP HF Hd Hby] Hs Hmap Hfree Hnd Hown].
  assert (∀ w p i, t !! w = Some p → 0 ≤ i < 512 → load64 m' (p + 8 * i) = load64 (ram s) (p + 8 * i)) as Htw.
  { intros w p i Hp Hi. apply Hw; [|lia|unfold PGSIZE; lia]. unfold total. rewrite !elem_of_app, elem_of_tpages. eauto. }
  assert (∀ va, 0 ≤ va → pte_of m' t va = pte_of (ram s) t va) as Hpte.
  { intros va Hva. unfold pte_of. destruct (leaf_at t va) as [a|] eqn:Hl; [|done].
    destruct (leaf_at_Some _ _ _ _ _ HP Hl Hva) as (q & j & Hq & -> & Hj & _). by eapply Htw. }
  split; [|done]. assert (∀ k, 0 ≤ k → upte (Mst m' (freelist s)) t k = upte s t k) as Hu by (intros; apply Hpte; unfold PGSIZE; lia).
  assert (upages (Mst m' (freelist s)) t n = upages s t n) as Eu by (apply upages_ext; intros; apply Hu; lia).
  split; [split| | | | |]; try done.
  - destruct HP as [H1 H2 HL H3 H4 H5]. split; try done. intros w p i Hp Hlen Hi. cbn [ram]. rewrite (Htw w) by done. by apply H5.
  - destruct HF as [Hc Hpg Hn]. split; [|done|done]. eapply chain_ext; [|exact Hc]. intros p Hp.
    rewrite <-(Z.add_0_r p). apply Hw; [|lia|unfold PGSIZE; lia]. unfold total. rewrite !elem_of_app. tauto.
  - intros k Hk. rewrite Hu by lia. by apply Hmap.
  - intros va Hva. cbn [ram]. rewrite Hpte by (unfold PGSIZE in *; lia). by apply Hfree.
  - by rewrite Eu.
  - by rewrite Eu.
Qed.
End copy.
(** Reading the page table in a state with the same entries. *)
Lemma same_entries s s' t va :
  0 ≤ va → (∀ va, 0 ≤ va → pte_of (ram s') t va = pte_of (ram s) t va) →
  upage s' t va = upage s t va ∧ wpage s' t va = wpage s t va ∧ uphys s' t va = uphys s t va.
Proof. intros H0 H. unfold wpage, upage, uphys. by rewrite H. Qed.

Lemma upage_lt s t va p : upage s t va = Some p → va < MAXVA.
Proof. unfold upage. destruct (Z.ltb_spec va MAXVA); [done|]. simpl. done. Qed.

Lemma wpage_upage s t va p : wpage s t va = Some p → upage s t va = Some p.
Proof. unfold wpage. by destruct (has _ PTE_W). Qed.

(** Pages still to be visited. *)
Definition pages_left (va len : Z) : nat := Z.to_nat ((len + va mod PGSIZE + PGSIZE - 1) / PGSIZE).

Lemma pages_left_start va len : 0 ≤ len → (pages_left va len < S (S (Z.to_nat (len / PGSIZE + 1))))%nat.
Proof.
  intros Hl. unfold pages_left. pose proof (Z.mod_pos_bound va PGSIZE ltac:(by compute)).
  assert ((len + va mod PGSIZE + PGSIZE - 1) / PGSIZE ≤ len / PGSIZE + 2); [|pose proof (Z.div_pos len PGSIZE); unfold PGSIZE in *; zdm].
  unfold PGSIZE in *. zdm.
Qed.

Lemma pages_left_step va len :
  0 ≤ va < 2 ^ 64 → 0 < len → let nb := Z.min (PGSIZE - va mod PGSIZE) len in
  (pages_left (PGROUNDDOWN va + PGSIZE) (len - nb) < pages_left va len)%nat.
Proof.
  intros Hva Hl nb. destruct (PGROUNDDOWN_vpn va Hva) as [E1 _]. unfold pages_left.
  replace ((PGROUNDDOWN va + PGSIZE) mod PGSIZE) with 0.
  2: { rewrite E1. replace (vpn va * PGSIZE + PGSIZE) with ((vpn va + 1) * PGSIZE) by lia. by rewrite Z_mod_mult. }
  pose proof (Z.mod_pos_bound va PGSIZE ltac:(by compute)) as Hm. unfold nb, PGSIZE in *. set (off := va mod 4096) in *.
  destruct (Z.min_spec (4096 - off) len) as [[? ->]|[? ->]]; zdm.
Qed.

(** *** [copyout] *)

Section copyout.
Context (s : mst) (root : Z) (t : gmap (list Z) Z) (l : list Z) (n : Z) (HA : AS s root t l n).
Context (Hsys : ∀ va, TRAPFRAME ≤ va < MAXVA → has (pte_of (ram s) t va) PTE_U = false).
Context (dstva src len : Z) (Hva : 0 ≤ dstva < 2 ^ 64) (Hlen : 0 ≤ len) (Hap : apart (upages s t n) src len).

(** The first [k] bytes have been copied. *)
Record co_inv (k : Z) (s' : mst) : Prop := {
  co_as : AS s' root t l n;
  co_pte : ∀ va, 0 ≤ va → pte_of (ram s') t va = pte_of (ram s) t va;
  co_perm : ∀ i, 0 ≤ i < k → is_Some (wpage s t (dstva + i));
  co_new : ∀ i, 0 ≤ i < k → rd (ram s') (uphys s t (dstva + i)) = rd (ram s) (src + i);
  co_old : ∀ a, (∀ i, 0 ≤ i < k → a ≠ uphys s t (dstva + i)) → rd (ram s') a = rd (ram s) a
}.

Lemma co_user i : 0 ≤ i → is_Some (wpage s t (dstva + i)) →
  0 ≤ dstva + i < n * PGSIZE ∧ ∃ p, p ∈ upages s t n ∧ page_ok p ∧ p ≤ uphys s t (dstva + i) < p + PGSIZE.
Proof.
  intros Hi [p Hp%wpage_upage]. destruct (upage_user s root t l n HA Hsys (dstva + i) p) as (Hv & _ & Hin & ->); [lia|done|].
  split; [unfold vpn, PGSIZE in *; zdm|]. exists p. split; [done|]. split; [by apply (as_own _ _ _ _ _ HA)|].
  pose proof (Z.mod_pos_bound (dstva + i) PGSIZE ltac:(by compute)). lia.
Qed.

(** The buffer is not changed. *)
Lemma co_src k s' j : co_inv k s' → 0 ≤ j < len → rd (ram s') (src + j) = rd (ram s) (src + j).
Proof.
  intros HI Hj. apply (co_old _ _ HI). intros i Hi E. destruct (co_user i ltac:(lia) (co_perm _ _ HI i Hi)) as (_ & p & Hp & _ & Hr).
  destruct (Hap p Hp); lia.
Qed.

Lemma co_write k s' p nb :
  co_inv k s' → 0 ≤ k → 0 < nb → k + nb ≤ len → wpage s t (dstva + k) = Some p → (dstva + k) mod PGSIZE + nb ≤ PGSIZE →
  co_inv (k + nb) (Mst (memmove (p + (dstva + k) mod PGSIZE) (src + k) nb (ram s')) (freelist s')).
Proof.
  intros HI Hk Hnb Hle Hp Hpg. set (off := (dstva + k) mod PGSIZE) in *.
  pose proof (co_as _ _ HI) as HA'. pose proof (vm_bytes _ _ _ _ (as_vm _ _ _ _ _ HA')) as Hb'.
  assert (∀ j, 0 ≤ j < nb → wpage s t (dstva + k + j) = Some p ∧ uphys s t (dstva + k + j) = p + off + j) as Hj.
  { intros j Hj. destruct (same_page s t (dstva + k) j) as (_ & E1 & _ & E2); [lia|lia|lia|]. rewrite E1, E2. split; [done|].
    apply wpage_upage in Hp. destruct (upage_user s root t l n HA Hsys (dstva + k) p) as (_ & _ & _ & ->); [lia|done|]. lia. }
  assert (∀ i, 0 ≤ i < k + nb → is_Some (wpage s t (dstva + i))) as Hperm.
  { intros i Hi. destruct (decide (i < k)); [apply (co_perm _ _ HI); lia|].
    replace (dstva + i) with (dstva + k + (i - k)) by lia. destruct (Hj (i - k)) as [-> _]; [lia|eauto]. }
  assert (upages s' t n = upages s t n) as Eu.
  { apply upages_ext. intros i Hi. apply (co_pte _ _ HI). unfold PGSIZE. lia. }
  assert (p ∈ upages s t n ∧ 0 ≤ off) as [Hpin Hoff].
  { split; [|apply Z.mod_pos_bound; by compute]. apply wpage_upage in Hp.
    by destruct (upage_user s root t l n HA Hsys (dstva + k) p) as (_ & _ & ? & _); [lia|done|]. }
  assert (∀ a, rd (memmove (p + off) (src + k) nb (ram s')) a =
    if decide (p + off ≤ a < p + off + nb) then rd (ram s') (src + k + (a - (p + off))) else rd (ram s') a) as Hrd.
  { intros a. apply rd_memmove; [done|lia]. }
  destruct (AS_write s' root t l n HA' (memmove (p + off) (src + k) nb (ram s'))) as [HA2 Hpte2].
  { intros a Ha. rewrite Hrd, decide_False; [done|]. rewrite Eu in Ha. specialize (Ha p Hpin). lia. }
  { apply bytes_ok_memmove; [done|lia]. }
  split.
  - done.
  - intros va H0. cbn [ram]. rewrite Hpte2 by done. by apply HI.
  - done.
  - intros i Hi. cbn [ram]. rewrite Hrd. destruct (decide (i < k)) as [Hik|Hik].
    + rewrite decide_False; [apply (co_new _ _ HI); lia|]. intros Hin.
      destruct (co_user i ltac:(lia) (Hperm i ltac:(lia))) as [Hu _].
      set (j := uphys s t (dstva + i) - (p + off)). destruct (Hj j) as [Hw Hph]; [lia|].
      assert (dstva + i = dstva + k + j) as E; [|lia].
      apply (uphys_inj s root t l n HA); [done| |lia].
      destruct (co_user (k + j) ltac:(lia)) as [Hu' _]; [rewrite Z.add_assoc, Hw; eauto|]. lia.
    + destruct (Hj (i - k)) as [_ Hph]; [lia|]. replace (dstva + k + (i - k)) with (dstva + i) in Hph by lia. rewrite Hph.
      rewrite decide_True by lia. replace (src + k + (p + off + (i - k) - (p + off))) with (src + i) by lia.
      apply (co_src k); [done|lia].
  - intros a Ha. cbn [ram]. rewrite Hrd, decide_False.
    + apply (co_old _ _ HI). intros i Hi. apply Ha. lia.
    + intros Hin. apply (Ha (k + (a - (p + off)))); [lia|]. rewrite Z.add_assoc. destruct (Hj (a - (p + off))) as [_ ->]; lia.
Qed.

Lemma copyout_step k s' va rem :
  co_inv k s' → 0 ≤ k < len → va = dstva + k → rem = len - k → va < 2 ^ 64 →
  wp (copyout_body root (va, src + k, rem))
     (λ r s'', match r with
      | inl x => ∃ nb, nb = Z.min (PGSIZE - va mod PGSIZE) rem ∧ x = (PGROUNDDOWN va + PGSIZE, src + k + nb, rem - nb) ∧
                 va < MAXVA ∧ co_inv (k + nb) s''
      | inr r => r = -1 ∧ s'' = s' ∧ wpage s t (dstva + k) = None
      end) s'.
Proof.
  intros HI Hk -> -> Hlt. set (va := dstva + k) in *. unfold copyout_body. destruct (Z.ltb_spec 0 (len - k)); [|lia].
  assert (0 ≤ va < 2 ^ 64) as Hv by lia. destruct (PGROUNDDOWN_vpn va Hv) as [E1 E2].
  pose proof (Z.mod_pos_bound va PGSIZE ltac:(by compute)) as Hm. set (va0 := PGROUNDDOWN va) in *.
  assert (0 ≤ va0) as H0 by (rewrite E1; unfold vpn, PGSIZE; zdm).
  destruct (same_entries s s' t va) as (Eup & Ewp & _); [lia|apply HI|]. pose proof (vm_pt _ _ _ _ (as_vm _ _ _ _ _ (co_as _ _ HI))) as HP'.
  destruct (Z.leb_spec MAXVA va0).
  { apply wp_ret. split; [done|]. split; [done|]. unfold wpage. destruct (has _ _); [|done]. unfold upage.
    destruct (Z.ltb_spec va MAXVA); [lia|]. done. }
  apply wp_bind. unfold wp at 1. rewrite (walk_lookup s' root t va0 HP') by lia.
  assert (pte_of (ram s') t va = pte_of (ram s') t va0) as Ep.
  { apply pte_of_page; [lia|done|]. rewrite E1. unfold vpn. by rewrite Z.div_mul by (by compute). }
  assert (has (pte_of (ram s') t va0) PTE_W = false → wpage s t va = None) as Hnone.
  { intros Hf. rewrite <-Ewp. unfold wpage. by rewrite Ep, Hf. }
  unfold pte_of in Hnone at 1. destruct (leaf_at t va0) as [a|] eqn:Ha; [|by apply wp_ret; auto].
  change (default 0 (Some a)) with a. pose proof (leaf_at_pos _ _ _ _ _ HP' H0 Ha). destruct (Z.eqb_spec a 0); [lia|].
  apply wp_bind, wp_load_pte. destruct (has (load64 (ram s') a) PTE_W) eqn:EW; cbn [negb]; [|apply wp_ret; auto].
  apply wp_bind. unfold wp at 1. unfold va0 at 1. rewrite (walkaddr_ok s' root t va HP' Hv).
  assert (wpage s t va = upage s' t va) as Ew.
  { rewrite <-Ewp. unfold wpage. rewrite Ep. unfold pte_of. by rewrite Ha, EW. }
  destruct (upage s' t va) as [p|] eqn:Hup; [|by apply wp_ret].
  change (default 0 (Some p)) with p. assert (p ≠ 0) as Hp0.
  { unfold upage in Hup. destruct (_ && _) eqn:Eb in Hup; [|done]. apply andb_prop in Eb as [_ Eb]. injection Hup as <-. by destruct (Z.eqb_spec (PTE2PA (pte_of (ram s') t va)) 0). }
  destruct (Z.eqb_spec p 0); [done|]. apply wp_bind, wp_on_ram, wp_ret.
  replace (va - va0) with (va mod PGSIZE) by lia. set (nb := Z.min (PGSIZE - va mod PGSIZE) (len - k)).
  exists nb. split; [done|]. split; [done|]. split; [by eapply upage_lt|].
  apply co_write; try done; fold va; unfold nb; lia.
Qed.

Lemma copyout_ok :
  wp (copyout root dstva src len)
     (λ r s', ∃ k, co_inv k s' ∧ ((r = 0 ∧ k = len) ∨ (r = -1 ∧ 0 ≤ k < len ∧ wpage s t (dstva + k) = None))) s.
Proof.
  assert (MAXVA = 2 ^ 38) as HM by done.
  eapply wp_iter with
    (I := λ x s', ∃ k, x.1.2 = src + k ∧ x.2 = len - k ∧ 0 ≤ k ≤ len ∧ (k < len → x.1.1 = dstva + k) ∧ 0 ≤ x.1.1 < 2 ^ 64 ∧ co_inv k s')
    (μ := λ x _, pages_left x.1.1 x.2).
  - intros [[va sp] rem] s'; cbn [fst snd]. intros (k & -> & -> & Hk & Hvk & Hv & HI). destruct (decide (k = len)) as [->|Hne].
    + unfold copyout_body. destruct (Z.ltb_spec 0 (len - len)); [lia|]. apply wp_ret. exists len. auto.
    + eapply wp_mono; [|apply (copyout_step k s' va (len - k) HI); [lia|apply Hvk; lia|done|lia]].
      intros [x|r] s''; [|intros (-> & -> & Hw); exists k; split; [done|]; right; split; [done|]; split; [lia|done]].
      intros (nb & Enb & -> & Hmax & HI'). cbn [fst snd]. split; [|rewrite Enb; apply pages_left_step; [done|lia]].
      destruct (PGROUNDDOWN_vpn va Hv) as [E1 E2]. pose proof (Z.mod_pos_bound va PGSIZE ltac:(by compute)) as Hm.
      exists (k + nb). split; [lia|]. split; [lia|]. split; [lia|]. split; [|split; [unfold PGSIZE in *; lia|done]].
      intros Hlt. specialize (Hvk ltac:(lia)). lia.
  - cbn [fst snd]. exists 0. split; [lia|]. split; [lia|]. split; [lia|]. split; [intros; lia|]. split; [done|].
    split; try done; intros; lia.
  - cbn [fst snd]. by apply pages_left_start.
Qed.
End copyout.
(** *** [copyin] and [copyinstr] *)

Section copyin.
Context (s : mst) (root : Z) (t : gmap (list Z) Z) (l : list Z) (n : Z) (HA : AS s root t l n).
Context (Hsys : ∀ va, TRAPFRAME ≤ va < MAXVA → has (pte_of (ram s) t va) PTE_U = false).
Context (dst srcva len : Z) (Hva : 0 ≤ srcva < 2 ^ 64) (Hlen : 0 ≤ len) (Hap : apart (total s t l n) dst len).

(** The first [k] bytes have been copied. *)
Record ci_inv (k : Z) (s' : mst) : Prop := {
  ci_as : AS s' root t l n;
  ci_pte : ∀ va, 0 ≤ va → pte_of (ram s') t va = pte_of (ram s) t va;
  ci_perm : ∀ i, 0 ≤ i < k → is_Some (upage s t (srcva + i));
  ci_new : ∀ i, 0 ≤ i < k → rd (ram s') (dst + i) = ubyte s t (srcva + i);
  ci_old : ∀ a, ¬ (dst ≤ a < dst + k) → rd (ram s') a = rd (ram s) a
}.

Lemma ci_start : ci_inv 0 s.
Proof. split; try done; intros; lia. Qed.

(** User memory is not changed. *)
Lemma ci_src k s' i : ci_inv k s' → 0 ≤ k ≤ len → 0 ≤ i → is_Some (upage s t (srcva + i)) →
  rd (ram s') (uphys s t (srcva + i)) = ubyte s t (srcva + i).
Proof.
  intros HI Hk Hi [p Hp]. apply (ci_old _ _ HI). destruct (upage_user s root t l n HA Hsys (srcva + i) p) as (_ & _ & Hin & ->); [lia|done|].
  pose proof (Z.mod_pos_bound (srcva + i) PGSIZE ltac:(by compute)).
  destruct (Hap p); [unfold total; rewrite !elem_of_app; tauto|lia|lia].
Qed.

(** [nb] more bytes. *)
Lemma ci_write k s' nb m' :
  ci_inv k s' → 0 ≤ k → 0 ≤ nb → k + nb ≤ len → bytes_ok m' →
  (∀ j, 0 ≤ j < nb → is_Some (upage s t (srcva + (k + j)))) →
  (∀ a, rd m' a = if decide (dst + k ≤ a < dst + k + nb) then ubyte s t (srcva + (a - dst)) else rd (ram s') a) →
  ci_inv (k + nb) (Mst m' (freelist s')).
Proof.
  intros HI Hk Hnb Hle Hb Hacc Hrd. pose proof (ci_as _ _ HI) as HA'.
  assert (upages s' t n = upages s t n) as Eu.
  { apply upages_ext. intros i Hi. apply (ci_pte _ _ HI). unfold PGSIZE. lia. }
  destruct (AS_buffer s' root t l n HA' m' dst len) as [HA2 Hpte2]; [|done|unfold total; by rewrite Eu|].
  { intros a Ha. rewrite Hrd, decide_False by lia. done. }
  split.
  - done.
  - intros va H0. cbn [ram]. rewrite Hpte2 by done. by apply HI.
  - intros i Hi. destruct (decide (i < k)); [apply (ci_perm _ _ HI); lia|]. replace i with (k + (i - k)) by lia. apply Hacc. lia.
  - intros i Hi. cbn [ram]. rewrite Hrd. case_decide; [f_equal; lia|]. apply (ci_new _ _ HI). lia.
  - intros a Ha. cbn [ram]. rewrite Hrd, decide_False by lia. apply (ci_old _ _ HI). lia.
Qed.

(** The page of the next byte: what [walkaddr] returns, and the bytes in it. *)
Lemma ci_page k s' :
  ci_inv k s' → 0 ≤ k < len → srcva + k < 2 ^ 64 → let va := srcva + k in
  wp (walkaddr root (PGROUNDDOWN va)) (λ pa s'', s'' = s' ∧
    ((pa = 0 ∧ upage s t va = None) ∨
     (pa ≠ 0 ∧ va < MAXVA ∧ upage s t va = Some pa ∧
        ∀ j, 0 ≤ j → va mod PGSIZE + j < PGSIZE →
          is_Some (upage s t (srcva + (k + j))) ∧ rd (ram s') (pa + va mod PGSIZE + j) = ubyte s t (srcva + (k + j))))) s'.
Proof.
  intros HI Hk Hlt va. assert (0 ≤ va < 2 ^ 64) as Hv by (unfold va; lia). unfold wp.
  rewrite (walkaddr_ok s' root t va (vm_pt _ _ _ _ (as_vm _ _ _ _ _ (ci_as _ _ HI))) Hv).
  destruct (same_entries s s' t va) as (-> & _ & _); [lia|apply HI|]. split; [done|].
  destruct (upage s t va) as [p|] eqn:Hp; [right|by left]. change (default 0 (Some p)) with p.
  split. { unfold upage in Hp. destruct (_ && _) eqn:Eb in Hp; [|done]. apply andb_prop in Eb as [_ Eb]. injection Hp as <-. by destruct (Z.eqb_spec (PTE2PA (pte_of (ram s) t va)) 0). }
  split; [by eapply upage_lt|]. split; [done|]. intros j Hj Hpg.
  destruct (same_page s t va j) as (_ & E1 & E2 & _); [lia|done|done|].
  destruct (upage_user s root t l n HA Hsys va p) as (_ & _ & _ & Eph); [lia|done|].
  unfold va in E1, E2. rewrite <-Z.add_assoc in E1, E2. fold va in E1, E2.
  assert (is_Some (upage s t (srcva + (k + j)))) as Hs by (rewrite E2, Hp; eauto). split; [done|].
  rewrite <-(ci_src k s' (k + j)) by (done || lia). f_equal. lia.
Qed.

Lemma copyin_ok :
  wp (copyin root dst srcva len)
     (λ r s', ∃ k, ci_inv k s' ∧ ((r = 0 ∧ k = len) ∨ (r = -1 ∧ 0 ≤ k < len ∧ upage s t (srcva + k) = None))) s.
Proof.
  assert (MAXVA = 2 ^ 38) as HM by done.
  eapply wp_iter with
    (I := λ x s', ∃ k, x.1.1 = dst + k ∧ x.2 = len - k ∧ 0 ≤ k ≤ len ∧ (k < len → x.1.2 = srcva + k) ∧ 0 ≤ x.1.2 < 2 ^ 64 ∧ ci_inv k s')
    (μ := λ x _, pages_left x.1.2 x.2).
  - intros [[dp va] rem] s'; cbn [fst snd]. intros (k & -> & -> & Hk & Hvk & Hv & HI). unfold copyin_body.
    destruct (Z.ltb_spec 0 (len - k)); [|apply wp_ret; exists k; split; [done|]; left; split; [done|lia]].
    specialize (Hvk ltac:(lia)). apply wp_bind. rewrite Hvk in *.
    eapply wp_mono; [|apply (ci_page k s' HI); lia]. intros pa s'' (-> & [[-> Hnone]|(Hpa & Hmax & Hup & Hpg)]).
    { apply wp_ret. exists k. split; [done|]. right. split; [done|]. split; [lia|done]. }
    destruct (Z.eqb_spec pa 0); [done|]. apply wp_bind, wp_on_ram, wp_ret. cbn [fst snd].
    destruct (PGROUNDDOWN_vpn (srcva + k) Hv) as [E1 E2]. pose proof (Z.mod_pos_bound (srcva + k) PGSIZE ltac:(by compute)) as Hm.
    replace (srcva + k - PGROUNDDOWN (srcva + k)) with ((srcva + k) mod PGSIZE) by lia.
    set (nb := Z.min (PGSIZE - (srcva + k) mod PGSIZE) (len - k)). split; [|apply pages_left_step; [done|lia]].
    pose proof (vm_bytes _ _ _ _ (as_vm _ _ _ _ _ (ci_as _ _ HI))) as Hb.
    exists (k + nb). split; [lia|]. split; [lia|]. split; [lia|]. split; [lia|]. split; [unfold PGSIZE in *; lia|].
    apply ci_write; try done; [lia|lia|lia|apply bytes_ok_memmove; [done|lia]|intros j Hj; apply Hpg; lia|].
    intros a. rewrite rd_memmove by (done || lia). case_decide; [|done].
    destruct (Hpg (a - (dst + k))) as [_ E]; [lia|lia|]. rewrite E. f_equal. lia.
  - cbn [fst snd]. exists 0. split; [lia|]. split; [lia|]. split; [lia|]. split; [lia|]. split; [done|]. apply ci_start.
  - cbn [fst snd]. by apply pages_left_start.
Qed.

(** The first [k] bytes are not 0. *)
Definition nonzero (k : Z) : Prop := ∀ i, 0 ≤ i < k → ubyte s t (srcva + i) ≠ 0.

Lemma copyinstr_page_ok nn k s' q :
  ci_inv k s' → nonzero k → 0 ≤ k → k + Z.of_nat nn ≤ len →
  (∀ j, 0 ≤ j < Z.of_nat nn → is_Some (upage s t (srcva + (k + j))) ∧ uphys s t (srcva + (k + j)) = q + j) →
  wp (copyinstr_page nn q (dst + k) (len - k))
     (λ r s'', ∃ k', nonzero k' ∧ k ≤ k' ∧
        match r with
        | (true, _, _) => k' < len ∧ ubyte s t (srcva + k') = 0 ∧ ci_inv (k' + 1) s''
        | (false, d, m) => k' = k + Z.of_nat nn ∧ d = dst + k' ∧ m = len - k' ∧ ci_inv k' s''
        end) s'.
Proof.
  revert k s' q. induction nn as [|nn IH]; intros k s' q HI Hnz Hk Hle Hj; cbn [copyinstr_page].
  { apply wp_ret. exists k. split; [done|]. split; [lia|]. split; [lia|]. done. }
  destruct (Hj 0 ltac:(lia)) as [Hacc Eq]. rewrite (Z.add_0_r k) in Hacc, Eq. rewrite (Z.add_0_r q) in Eq.
  apply wp_bind, wp_gets. rewrite <-Eq, (ci_src k s' k) by (done || lia).
  pose proof (vm_bytes _ _ _ _ (as_vm _ _ _ _ _ (ci_as _ _ HI))) as Hb.
  assert (∀ c, c = ubyte s t (srcva + k) → u8 c = c → ci_inv (k + 1) (Mst (wr (dst + k) c (ram s')) (freelist s'))) as Hw.
  { intros c -> Hc8. apply ci_write; try done; [lia|by apply bytes_ok_wr| |].
    - intros j Hj'. replace (k + j) with k by lia. done.
    - intros a. rewrite rd_wr. destruct (decide (a = dst + k)) as [->|].
      + rewrite decide_True by lia. rewrite Hc8. f_equal. lia.
      + by rewrite decide_False by lia. }
  assert (0 ≤ ubyte s t (srcva + k) < 256) as Hrng.
  { unfold ubyte. apply (vm_bytes _ _ _ _ (as_vm _ _ _ _ _ HA)). }
  assert (u8 (ubyte s t (srcva + k)) = ubyte s t (srcva + k)) as Hu8 by (unfold u8; apply Z.mod_small; lia).
  destruct (Z.eqb_spec (ubyte s t (srcva + k)) 0) as [Ez|Enz].
  - apply wp_bind, wp_on_ram, wp_ret. exists k. split; [done|]. split; [lia|]. split; [lia|]. split; [done|]. apply Hw; [done|]. done.
  - apply wp_bind, wp_on_ram. replace (dst + k + 1) with (dst + (k + 1)) by lia. replace (len - k - 1) with (len - (k + 1)) by lia.
    eapply wp_mono; [|apply (IH (k + 1)); [by apply Hw| |lia|lia|]].
    + intros [[[|] d] m] s'' (k' & Hnz' & Hle' & H); exists k'; (split; [done|]); (split; [lia|]); [done|].
      destruct H as (-> & H). split; [lia|done].
    + intros i Hi. destruct (decide (i = k)) as [->|]; [done|]. apply Hnz. lia.
    + intros j Hj'. destruct (Hj (j + 1) ltac:(lia)) as [H1 H2]. replace (k + 1 + j) with (k + (j + 1)) by lia. split; [done|lia].
Qed.

Lemma copyinstr_ok :
  wp (copyinstr root dst srcva len)
     (λ r s', ∃ k, nonzero k ∧ 0 ≤ k ≤ len ∧
        ((r = 0 ∧ k < len ∧ ubyte s t (srcva + k) = 0 ∧ ci_inv (k + 1) s') ∨
         (r = -1 ∧ ci_inv k s' ∧ (k = len ∨ upage s t (srcva + k) = None)))) s.
Proof.
  assert (MAXVA = 2 ^ 38) as HM by done.
  eapply wp_iter with
    (I := λ x s', ∃ k, x.1.1 = dst + k ∧ x.2 = len - k ∧ 0 ≤ k ≤ len ∧ (k < len → x.1.2 = srcva + k) ∧ 0 ≤ x.1.2 < 2 ^ 64 ∧
                      nonzero k ∧ ci_inv k s')
    (μ := λ x _, pages_left x.1.2 x.2).
  - intros [[dp va] rem] s'; cbn [fst snd]. intros (k & -> & -> & Hk & Hvk & Hv & Hnz & HI). unfold copyinstr_body.
    destruct (Z.ltb_spec 0 (len - k)).
    2: { apply wp_ret. exists k. split; [done|]. split; [lia|]. right. split; [done|]. split; [done|]. left. lia. }
    specialize (Hvk ltac:(lia)). apply wp_bind. rewrite Hvk in *.
    eapply wp_mono; [|apply (ci_page k s' HI); lia]. intros pa s'' (-> & [[-> Hnone]|(Hpa & Hmax & Hup & Hpg)]).
    { apply wp_ret. exists k. split; [done|]. split; [lia|]. right. split; [done|]. split; [done|]. by right. }
    destruct (Z.eqb_spec pa 0); [done|].
    destruct (PGROUNDDOWN_vpn (srcva + k) Hv) as [E1 E2]. pose proof (Z.mod_pos_bound (srcva + k) PGSIZE ltac:(by compute)) as Hm.
    replace (srcva + k - PGROUNDDOWN (srcva + k)) with ((srcva + k) mod PGSIZE) by lia.
    set (nb := Z.min (PGSIZE - (srcva + k) mod PGSIZE) (len - k)).
    destruct (upage_user s root t l n HA Hsys (srcva + k) pa) as (_ & _ & _ & Eph); [lia|done|].
    apply wp_bind. eapply wp_mono; [|apply (copyinstr_page_ok (Z.to_nat nb) k s'); [done|done|lia|lia|]].
    + intros [[[|] d] m] s'' (k' & Hnz' & Hle' & Hres).
      * destruct Hres as (Hlt & Hz & HI'). apply wp_ret. exists k'. split; [done|]. split; [lia|]. by left.
      * destruct Hres as (-> & -> & -> & HI'). apply wp_ret. cbn [fst snd]. rewrite Z2Nat.id in * by lia.
        replace (len - (k + nb)) with (len - k - nb) by lia. split; [|apply pages_left_step; [done|lia]].
        exists (k + nb). split; [lia|]. split; [lia|]. split; [lia|]. split; [lia|]. split; [unfold PGSIZE in *; lia|]. done.
    + intros j Hj. split; [apply Hpg; lia|]. destruct (same_page s t (srcva + k) j) as (_ & E3 & _); [lia|lia|lia|].
      rewrite Z.add_assoc, E3, Eph. lia.
  - cbn [fst snd]. exists 0. split; [lia|]. split; [lia|]. split; [lia|]. split; [lia|]. split; [done|]. split; [intros i Hi; lia|apply ci_start].
  - cbn [fst snd]. by apply pages_left_start.
Qed.
End copyin.
End ucopy.
