(* ===== verification/Addrspace.v ===== *)
(** * Theorems on page tables and address spaces (kernel/vm.c)

    What the operations of [Vm] promise, stated on the abstract page table of
    [Vmspec], the address spaces of [Uvm] and the user memory of [Ucopy], with
    witnesses on a machine of twenty pages. *)

From S2P Require Import Prelude Machine Mem Kalloc Vm Vmspec Uvm Ucopy.

(** ** Theorems *)

(** [mappages] on a page table whose range is unmapped: the result is 0 and
    exactly the addresses of the range are mapped, page by page, to consecutive
    physical pages with the given permissions, or it is -1 because every free
    page is used up and a prefix of the range is mapped.  All other addresses
    keep their entries, the table stays a well-formed tree, no page is lost
    between the tables and the free list, at most two tables are added per
    mapped page, and no other memory is written. *)
Theorem mappages_spec `{LY : Layout} s root t l va size pa perm
    (HV : VM s root t l) (Hva : va mod PGSIZE = 0) (Hsz : size mod PGSIZE = 0) (Hpos : 0 < size) (Hlo : 0 ≤ va)
    (Hhi : va + size ≤ MAXVA) (Hpa : pa mod PGSIZE = 0) (Hpa0 : 0 ≤ pa) (Hpahi : pa + size ≤ 2 ^ 56) (Hperm : 0 ≤ perm < 1024)
    (Hfree : ∀ va', va ≤ va' < va + size → has (pte_of (ram s) t va') PTE_V = false) :
  wp (mappages root va size pa perm) (λ r s', ∃ k t' l', VM s' root t' l' ∧
    (t ⊆ t' ∧ tpages t' ++ l' ≡ₚ tpages t ++ l ∧ only_pages (tpages t ++ l) (ram s) (ram s')) ∧
    Z.of_nat (base.size t') ≤ Z.of_nat (base.size t) + 2 * (size / PGSIZE) ∧
    (∀ va', 0 ≤ va' < MAXVA → pte_of (ram s') t' va' =
       if decide (va ≤ va' < va + k * PGSIZE) then map_pte (pa + (vpn va' * PGSIZE - va)) perm else pte_of (ram s) t va') ∧
    ((r = 0 ∧ k = size / PGSIZE) ∨ (r = -1 ∧ l' = [] ∧ 0 ≤ k < size / PGSIZE))) s.
Proof. by apply mappages_ok. Qed.

(** [walkaddr] is the lookup of the abstract page table: it returns the
    physical page of the address if the address is below [MAXVA] and its entry
    is valid and accessible to the user, 0 otherwise, and changes nothing. *)
Theorem walkaddr_equiv `{LY : Layout} s root t va (HP : PT (ram s) root t) (Hva : 0 ≤ va) :
  walkaddr root va s =
    Ok (let e := pte_of (ram s) t va in
        if (va <? MAXVA) && has e PTE_V && has e PTE_U then PTE2PA e else 0) s.
Proof.
  rewrite (walkaddr_lookup s root t va HP Hva). unfold upage. cbv zeta. f_equal.
  destruct (_ && has (pte_of (ram s) t va) PTE_U); [|done]. simpl.
  destruct (Z.eqb_spec (PTE2PA (pte_of (ram s) t va)) 0) as [->|]; done.
Qed.

(** [uvmalloc] grows user memory from [oldsz] to [newsz] or leaves it as it
    was.  On success every added page is a page of zeroes, readable by the user
    with the requested permissions, for which at most two page tables each were
    added; on failure, which needs fewer than three
    free pages per page asked for, everything allocated on the way is unmapped
    and freed.  In both cases the old user pages, the trapframe and the
    trampoline are unchanged, no page is lost, and no page outside this address
    space and the free list is written. *)
Theorem uvmalloc_spec `{LY : Layout} s root t l oldsz newsz xperm
    (Hold : 0 ≤ oldsz) (Hle : oldsz ≤ newsz) (Hnew : newsz ≤ TRAPFRAME) (Hx : 0 ≤ xperm < 1024) (HA : AS s root t l (npg oldsz)) :
  wp (uvmalloc root oldsz newsz xperm) (λ r s', ∃ t' l',
    (r = newsz ∧ AS s' root t' l' (npg newsz) ∧ evolve (npg oldsz) s t l (npg oldsz) s' t' l' (npg newsz) ∧
       Z.of_nat (size t') ≤ Z.of_nat (size t) + 2 * (npg newsz - npg oldsz) ∧
       ∀ j, npg oldsz ≤ j < npg newsz → zero_page (Z.lor (Z.lor PTE_R PTE_U) xperm) s' t' j) ∨
    (r = 0 ∧ AS s' root t' l' (npg oldsz) ∧ evolve (npg oldsz) s t l (npg oldsz) s' t' l' (npg oldsz) ∧
       Z.of_nat (length l) ≤ 3 * (npg newsz - npg oldsz))) s.
Proof. by apply uvmalloc_ok. Qed.

(** [uvmdealloc] never fails: it returns the smaller size, keeps the pages
    below it with their contents, and gives every page above it back to the
    allocator. *)
Theorem uvmdealloc_spec `{LY : Layout} s root t l oldsz newsz
    (Hold : 0 ≤ oldsz ≤ TRAPFRAME) (Hnew : 0 ≤ newsz) (HA : AS s root t l (npg oldsz)) :
  wp (uvmdealloc root oldsz newsz) (λ r s', ∃ l', r = Z.min oldsz newsz ∧ AS s' root t l' (npg r) ∧
    evolve (npg r) s t l (npg oldsz) s' t l' (npg r)) s.
Proof. by apply uvmdealloc_ok. Qed.

(** C8. [uvmcopy] gives the child a copy of the parent's memory or nothing: on
    success page [j] of the child has the contents and the permissions of page
    [j] of the parent, for every page; on failure, which needs fewer than three
    free pages per page, the child is empty again.  The parent's memory is
    unchanged and no page is lost. *)
Theorem uvmcopy_spec `{LY : Layout} s old new to tn l sz
    (Hsz : 0 ≤ sz ≤ TRAPFRAME) (HO : AS s old to l (npg sz)) (HN : AS s new tn l 0)
    (Hdisj : ∀ p, p ∈ tpages to ++ upages s to (npg sz) → p ∉ tpages tn) :
  wp (uvmcopy old new sz) (λ r s', same_user s to s' to (npg sz) ∧ ∃ t' l',
    (r = 0 ∧ AS s' new t' l' (npg sz) ∧ evolve 0 s tn l 0 s' t' l' (npg sz) ∧ ∀ j, 0 ≤ j < npg sz → copied s to s' t' j) ∨
    (r = -1 ∧ AS s' new t' l' 0 ∧ evolve 0 s tn l 0 s' t' l' 0 ∧ Z.of_nat (length l) ≤ 3 * npg sz)) s.
Proof. by apply uvmcopy_ok. Qed.

(** C26. [uvmfree] returns every page of an address space without trapframe and
    trampoline, user pages and page tables, to the allocator: afterwards the
    free list is a permutation of what the address space owned and what was
    free.  It terminates without panic. *)
Theorem uvmfree_spec `{LY : Layout} s root t l sz
    (Hsz : 0 ≤ sz ≤ TRAPFRAME) (HA : AS s root t l (npg sz))
    (Hhigh : ∀ va, TRAPFRAME ≤ va < MAXVA → has (pte_of (ram s) t va) PTE_V = false) :
  wp (uvmfree root sz) (λ _ s', ∃ l', FL s' l' ∧ l' ≡ₚ tpages t ++ upages s t (npg sz) ++ l) s.
Proof.
  eapply wp_mono; [|by apply (uvmfree_ok s root t l sz)]. intros [] s' (l' & HF & Hl & _). exists l'. split; [exact HF|exact Hl].
Qed.

(** [copyout] writes exactly the bytes it is given, in order, at the user
    addresses [dstva], [dstva+1], ..., and nothing else of user memory: on
    success all [len] bytes, on failure the bytes before the first address that
    is not a writable user address. *)
Theorem copyout_spec `{LY : Layout} s root t l n dstva src len
    (HA : AS s root t l n) (Hsys : ∀ va, TRAPFRAME ≤ va < MAXVA → has (pte_of (ram s) t va) PTE_U = false)
    (Hva : 0 ≤ dstva < 2 ^ 64) (Hlen : 0 ≤ len) (Hap : apart (upages s t n) src len) :
  wp (copyout root dstva src len) (λ r s', ∃ k, 0 ≤ k ≤ len ∧ AS s' root t l n ∧
    (∀ va, 0 ≤ va < n * PGSIZE →
       ubyte s' t va = if decide (dstva ≤ va < dstva + k) then rd (ram s) (src + (va - dstva)) else ubyte s t va) ∧
    (∀ i, 0 ≤ i < k → is_Some (wpage s t (dstva + i))) ∧
    ((r = 0 ∧ k = len) ∨ (r = -1 ∧ k < len ∧ wpage s t (dstva + k) = None))) s.
Proof.
  eapply wp_mono; [|by apply (copyout_ok s root t l n HA Hsys dstva src len Hva Hlen Hap)].
  intros r s' (k & HI & Hr). exists k. split; [lia|]. split; [apply HI|]. split; [|split; [apply HI|lia || naive_solver]].
  intros va Hv. unfold ubyte. destruct (same_entries s s' t va) as (_ & _ & ->); [lia|apply HI|]. case_decide as Hd.
  - replace va with (dstva + (va - dstva)) at 1 by lia. apply (co_new _ _ _ _ _ _ _ _ _ HI). lia.
  - apply (co_old _ _ _ _ _ _ _ _ _ HI). intros i Hi E.
    destruct (co_user s root t l n HA Hsys dstva Hva i) as [Hu _]; [lia|apply (co_perm _ _ _ _ _ _ _ _ _ HI); lia|].
    apply (uphys_inj s root t l n HA) in E; [lia|done|done].
Qed.

(** C27. What [copyout] wrote, [copyin] reads back: after a successful [copyout]
    of a buffer to [va], a [copyin] of the same range succeeds and its buffer
    holds the same bytes. *)
Theorem copy_roundtrip `{LY : Layout} s root t l n va src dst len s1
    (HA : AS s root t l n) (Hsys : ∀ va, TRAPFRAME ≤ va < MAXVA → has (pte_of (ram s) t va) PTE_U = false)
    (Hva : 0 ≤ va < 2 ^ 64) (Hlen : 0 ≤ len) (Hap : apart (upages s t n) src len) (Hap' : apart (total s t l n) dst len)
    (Hout : copyout root va src len s = Ok 0 s1) :
  wp (copyin root dst va len) (λ r s2, r = 0 ∧ ∀ i, 0 ≤ i < len → rd (ram s2) (dst + i) = rd (ram s) (src + i)) s1.
Proof.
  destruct (wp_run _ _ _ _ _ (copyout_ok s root t l n HA Hsys va src len Hva Hlen Hap) Hout) as (k & HI & [[_ ->]|[? _]]); [|done].
  destruct HI as [HA1 Hpte Hperm Hnew _].
  assert (upages s1 t n = upages s t n) as Eu by (apply upages_ext; intros i Hi; apply Hpte; unfold PGSIZE; lia).
  eapply wp_mono; [|apply (copyin_ok s1 root t l n HA1); [|done|done|unfold total; by rewrite Eu]].
  2: { intros x Hx. rewrite Hpte; [by apply Hsys|]. assert (0 ≤ TRAPFRAME) by done. lia. }
  intros r s2 (k & HI2 & Hr). destruct Hr as [[-> ->]|(_ & Hk & Hnone)].
  - split; [done|]. intros i Hi. rewrite (ci_new _ _ _ _ _ _ _ _ _ HI2) by done. unfold ubyte.
    destruct (same_entries s s1 t (va + i)) as (_ & _ & ->); [lia|done|]. by apply Hnew.
  - destruct (Hperm k Hk) as [p Hp%wpage_upage]. destruct (same_entries s s1 t (va + k)) as (E & _); [lia|done|]. congruence.
Qed.

(** C28. [copyinstr] fetches a user string: if it returns 0 the buffer holds the
    bytes of user memory from [srcva] up to and including the first NUL, and
    the NUL is among the first [max] bytes; if it returns -1 there is no NUL in
    the first [max] bytes that can be read.  At most [max] bytes of the buffer
    and nothing else is written. *)
Theorem copyinstr_spec `{LY : Layout} s root t l n dst srcva max
    (HA : AS s root t l n) (Hsys : ∀ va, TRAPFRAME ≤ va < MAXVA → has (pte_of (ram s) t va) PTE_U = false)
    (Hva : 0 ≤ srcva < 2 ^ 64) (Hmax : 0 ≤ max) (Hap : apart (total s t l n) dst max) :
  wp (copyinstr root dst srcva max) (λ r s', ∃ k, 0 ≤ k ≤ max ∧ AS s' root t l n ∧
    (∀ i, 0 ≤ i < k → ubyte s t (srcva + i) ≠ 0) ∧
    (∀ a, ¬ (dst ≤ a < dst + max) → rd (ram s') a = rd (ram s) a) ∧
    ((r = 0 ∧ k < max ∧ ubyte s t (srcva + k) = 0 ∧ ∀ i, 0 ≤ i ≤ k → rd (ram s') (dst + i) = ubyte s t (srcva + i)) ∨
     (r = -1 ∧ (k = max ∨ upage s t (srcva + k) = None)))) s.
Proof.
  eapply wp_mono; [|by apply (copyinstr_ok s root t l n HA Hsys dst srcva max Hva Hmax Hap)].
  intros r s' (k & Hnz & Hk & Hr). exists k. split; [done|]. destruct Hr as [(-> & Hlt & Hz & HI)|(-> & HI & Hr)].
  - split; [apply HI|]. split; [exact Hnz|]. split; [intros a Ha; apply (ci_old _ _ _ _ _ _ _ _ _ HI); lia|].
    left. split; [done|]. split; [done|]. split; [done|]. intros i Hi. apply (ci_new _ _ _ _ _ _ _ _ _ HI). lia.
  - split; [apply HI|]. split; [exact Hnz|]. split; [intros a Ha; apply (ci_old _ _ _ _ _ _ _ _ _ HI); lia|]. by right.
Qed.

(** ** Witnesses: a machine of twenty pages *)

Lemma small_pages l : NoDup l → (∀ p, p ∈ l ↔ page_ok p) → length l = 20%nat.
Proof.
  intros Hnd Hall. assert (l ≡ₚ (λ k, PHYSTOP - k * PGSIZE) <$> seqZ 1 20) as ->; [|done].
  apply NoDup_Permutation; [done| |].
  - apply NoDup_fmap_2; [|apply NoDup_seqZ]. intros x y. unfold PGSIZE. lia.
  - intros p. rewrite Hall, list_elem_of_fmap. unfold page_ok. change kend with (PHYSTOP - 20 * PGSIZE - 100).
    unfold PHYSTOP, KERNBASE, PGSIZE. split.
    + intros [Hm Hr]. exists ((0x80000000 + 128 * 1024 * 1024 - p) / 4096). rewrite elem_of_seqZ. zdm.
    + intros (k & -> & Hk%elem_of_seqZ). zdm.
Qed.

(** An empty address space. *)
Lemma boot_space :
  ∃ s root l, AS s root {[ [] := root ]} l 0 ∧ (∀ va, pte_of (ram s) {[ [] := root ]} va = 0) ∧ length l = 19%nat.
Proof.
  destruct (proj1 (wp_ok kinit _ (Mst ∅ 0)) (kinit_ok (Mst ∅ 0))) as ([] & s0 & E & (l & HFL & Hnd & Hall) & Hb).
  simpl in *. rewrite app_nil_r in Hnd. setoid_rewrite app_nil_r in Hall. pose proof (small_pages l Hnd Hall) as Hlen.
  destruct (proj1 (wp_ok uvmcreate _ s0) (uvmcreate_ok s0 l HFL (Hb bytes_ok_empty))) as (root & s & Er & Hr).
  destruct l as [|p l']; [done|]. destruct Hr as (-> & _ & HA & Hp & _). exists s, p, l'. split; [done|]. split; [done|].
  simpl in Hlen. lia.
Qed.

(** An address space with a page of user memory. *)
Lemma boot_user :
  ∃ s root t l, AS s root t l 1 ∧ zero_page (Z.lor (Z.lor PTE_R PTE_U) PTE_W) s t 0 ∧ (11 < length l)%nat ∧
    ∀ va, TRAPFRAME ≤ va < MAXVA → pte_of (ram s) t va = 0.
Proof.
  destruct boot_space as (s & root & l & HA & Hp & Hlen).
  destruct (proj1 (wp_ok (uvmalloc root 0 PGSIZE PTE_W) _ s) (uvmalloc_ok s root {[ [] := root ]} l 0 PGSIZE PTE_W
    ltac:(done) ltac:(done) ltac:(done) ltac:(done) HA)) as (r & s' & _ & t' & l' & Hr).
  change (npg 0) with 0 in Hr. change (npg PGSIZE) with 1 in Hr. rewrite map_size_singleton in Hr.
  destruct Hr as [(_ & HA' & Hev & Hsz & Hz)|(_ & _ & _ & Hfew)]; [|lia].
  exists s', root, t', l'. split; [done|]. split; [apply Hz; lia|]. split.
  - pose proof (Permutation_length (ev_total _ _ _ _ _ _ _ _ _ Hev)) as E.
    pose proof (length_total s' t' l' 1 ltac:(lia)). pose proof (length_total s {[ [] := root ]} l 0 ltac:(lia)) as E2.
    rewrite map_size_singleton in E2. lia.
  - intros va Hva. rewrite (su_high _ _ _ _ _ (ev_user _ _ _ _ _ _ _ _ _ Hev)) by done. apply Hp.
Qed.

(** Its page can be read and written. *)
Lemma zero_page_user s root t l :
  AS s root t l 1 → zero_page (Z.lor (Z.lor PTE_R PTE_U) PTE_W) s t 0 →
  wpage s t 0 = Some (PTE2PA (upte s t 0)) ∧ upage s t 0 = Some (PTE2PA (upte s t 0)).
Proof.
  intros HA [Hfl _]. unfold wpage, upage. unfold upte in *. rewrite Z.mul_0_l in *.
  rewrite !(has_flags (pte_of (ram s) t 0)), Hfl by done. simpl. destruct (Z.eqb_spec (PTE2PA (pte_of (ram s) t 0)) 0) as [E0|]; [|done].
  exfalso. destruct (page_ok_range 0) as [? _]; [|lia]. apply (as_own _ _ _ _ _ HA), elem_of_upages. exists 0. split; [lia|].
  unfold upte. by rewrite Z.mul_0_l.
Qed.

(** Two address spaces, the second empty. *)
Lemma boot_fork :
  ∃ s old new t l, AS s old t l 1 ∧ AS s new {[ [] := new ]} l 0 ∧ (3 < length l)%nat ∧
    ∀ p, p ∈ tpages t ++ upages s t 1 → p ∉ tpages {[ [] := new ]}.
Proof.
  destruct boot_user as (s & old & t & l & HA & _ & Hlen & _). pose proof (as_vm _ _ _ _ _ HA) as [HP HF Hd Hb].
  destruct (proj1 (wp_ok uvmcreate _ s) (uvmcreate_ok s l HF Hb)) as (new & s1 & _ & Hr).
  destruct l as [|p l]; [simpl in Hlen; lia|]. destruct Hr as (-> & _ & HN & _ & Ho). pose proof (as_vm _ _ _ _ _ HN) as [_ HF1 _ Hb1].
  pose proof (fl_pages _ _ HF) as [Hp _]%Forall_cons.
  destruct (PT_only_pages (ram s) (ram s1) old t [p] HP Ho) as [HP1 Hpte].
  { by apply Forall_singleton. } { intros q ->%list_elem_of_singleton Hq. apply (Hd p Hq). by left. }
  assert (∀ q, q ∈ upages s t 1 → (q ∉ [p]) ∧ (q ∉ l)) as Hu.
  { intros q Hq. destruct (as_own _ _ _ _ _ HA q Hq) as (_ & Hnl & _). apply not_elem_of_cons in Hnl as [? ?].
    split; [by intros ?%list_elem_of_singleton|done]. }
  assert (∀ q, q ∈ tpages t → (q ∉ [p]) ∧ (q ∉ l)) as Ht.
  { intros q Hq. specialize (Hd q Hq). apply not_elem_of_cons in Hd as [? ?]. split; [by intros ?%list_elem_of_singleton|done]. }
  destruct (AS_ext s old t (p :: l) 1 s1 l [p] HA) as (HA1 & _ & Eu); [|done|done|by apply Forall_singleton|done|].
  { split; try done. intros q Hq. by apply Ht. }
  exists s1, old, p, t, l. split; [done|]. split; [done|]. split; [simpl in Hlen; lia|].
  intros q Hq. rewrite Eu in Hq. assert (q ∉ [p]) as Hne by (apply elem_of_app in Hq as [Hq|Hq]; [by apply Ht|by apply Hu]).
  intros [w [_ <-]%lookup_singleton_Some]%elem_of_tpages. apply Hne. by left.
Qed.

(** A kernel buffer below the pages of the allocator. *)
Lemma buffer_apart ps len : Forall page_ok ps → len ≤ 4096 → apart ps KERNBASE len.
Proof.
  intros Hps Hl p Hp. rewrite Forall_forall in Hps. destruct (Hps p Hp) as [_ Hr]. right.
  change kend with (PHYSTOP - 20 * PGSIZE - 100) in Hr. unfold PHYSTOP, KERNBASE, PGSIZE in *. lia.
Qed.

Lemma AS_pages_ok s root t l n : AS s root t l n → Forall page_ok (total s t l n).
Proof.
  intros HA. pose proof (VM_pages_ok _ _ _ _ (as_vm _ _ _ _ _ HA)) as [Ht Hl]%Forall_app. unfold total.
  apply Forall_app. split; [done|]. apply Forall_app. split; [|done]. apply Forall_forall. intros p Hp. by apply (as_own _ _ _ _ _ HA).
Qed.

Lemma mappages_spec_witness :
  ∃ s root, wp (mappages root 0 PGSIZE KERNBASE PTE_R) (λ r _, r = 0 ∨ r = -1) s.
Proof.
  destruct boot_space as (s & root & l & HA & Hp & Hlen). exists s, root.
  eapply wp_mono; [|apply (mappages_spec s root {[ [] := root ]} l 0 PGSIZE KERNBASE PTE_R (as_vm _ _ _ _ _ HA)); try done].
  - intros r s' (k & t' & l' & _ & _ & _ & _ & [[-> _]|[-> _]]); auto.
  - intros va' _. by rewrite Hp.
Defined.

Lemma walkaddr_equiv_witness : ∃ s root, walkaddr root 0 s = Ok 0 s.
Proof.
  destruct boot_space as (s & root & l & HA & Hp & Hlen). exists s, root.
  rewrite (walkaddr_equiv s root {[ [] := root ]} 0 (vm_pt _ _ _ _ (as_vm _ _ _ _ _ HA)) ltac:(done)). by rewrite Hp.
Defined.

Lemma uvmalloc_spec_witness : ∃ s root, wp (uvmalloc root 0 8192 PTE_W) (λ r _, r = 8192) s.
Proof.
  destruct boot_space as (s & root & l & HA & Hp & Hlen). exists s, root.
  eapply wp_mono; [|apply (uvmalloc_spec s root {[ [] := root ]} l 0 8192 PTE_W); try done].
  intros r s' (t' & l' & [(-> & _)|(_ & _ & _ & Hfew)]); [done|]. change (npg 8192 - npg 0) with 2 in Hfew. lia.
Defined.

Lemma uvmdealloc_spec_witness : ∃ s root, wp (uvmdealloc root PGSIZE 100) (λ r _, r = 100) s.
Proof.
  destruct boot_user as (s & root & t & l & HA & _). exists s, root.
  eapply wp_mono; [|apply (uvmdealloc_spec s root t l PGSIZE 100); [done|done|exact HA]]. by intros r s' (l' & -> & _).
Defined.

Lemma uvmcopy_spec_witness : ∃ s old new, wp (uvmcopy old new PGSIZE) (λ r _, r = 0) s.
Proof.
  destruct boot_fork as (s & old & new & t & l & HO & HN & Hlen & Hd). exists s, old, new.
  eapply wp_mono; [|apply (uvmcopy_spec s old new t {[ [] := new ]} l PGSIZE); [done|exact HO|exact HN|exact Hd]].
  intros r s' (_ & t' & l' & [(-> & _)|(_ & _ & _ & Hfew)]); [done|]. change (npg PGSIZE) with 1 in Hfew. lia.
Defined.

Lemma uvmfree_spec_witness : ∃ s root t l, wp (uvmfree root PGSIZE) (λ _ s', ∃ l', FL s' l' ∧ l' ≡ₚ tpages t ++ upages s t 1 ++ l) s.
Proof.
  destruct boot_user as (s & root & t & l & HA & _ & _ & Hhigh). exists s, root, t, l.
  apply (uvmfree_spec s root t l PGSIZE); [done|exact HA|]. intros va Hva. by rewrite Hhigh.
Defined.

Lemma copyout_spec_witness : ∃ s root, wp (copyout root 10 KERNBASE 100) (λ r _, r = 0 ∨ r = -1) s.
Proof.
  destruct boot_user as (s & root & t & l & HA & _ & _ & Hhigh). exists s, root.
  pose proof (AS_pages_ok _ _ _ _ _ HA) as [_ [Hu _]%Forall_app]%Forall_app.
  eapply wp_mono; [|apply (copyout_spec s root t l 1 10 KERNBASE 100 HA); [|done|done|by apply buffer_apart]].
  - intros r s' (k & _ & _ & _ & _ & [[-> _]|[-> _]]); auto.
  - intros va Hva. by rewrite Hhigh.
Defined.

Lemma copy_roundtrip_witness :
  ∃ s root s1, copyout root 10 KERNBASE 100 s = Ok 0 s1 ∧ wp (copyin root (KERNBASE + 100) 10 100) (λ r _, r = 0) s1.
Proof.
  destruct boot_user as (s & root & t & l & HA & Hz & _ & Hhigh).
  pose proof (AS_pages_ok _ _ _ _ _ HA) as Hok. pose proof Hok as [_ [Hu _]%Forall_app]%Forall_app.
  assert (∀ va, TRAPFRAME ≤ va < MAXVA → has (pte_of (ram s) t va) PTE_U = false) as Hsys by (intros va Hva; by rewrite Hhigh).
  pose proof (buffer_apart _ 100 Hu ltac:(done)) as Hap.
  assert (apart (total s t l 1) (KERNBASE + 100) 100) as Hap'.
  { intros p Hp. destruct (buffer_apart _ 200 Hok ltac:(done) p Hp); lia. }
  destruct (proj1 (wp_ok (copyout root 10 KERNBASE 100) _ s) (copyout_ok s root t l 1 HA Hsys 10 KERNBASE 100 ltac:(done) ltac:(done) Hap))
    as (r & s1 & E & k & _ & Hr).
  assert (r = 0) as ->.
  { destruct Hr as [[-> _]|(_ & Hk & Hnone)]; [done|]. exfalso.
    destruct (same_page s t 0 (10 + k)) as (_ & _ & _ & Ew); [done|lia|change (0 mod PGSIZE) with 0; unfold PGSIZE; lia|].
    rewrite Z.add_0_l, Hnone, (proj1 (zero_page_user s root t l HA Hz)) in Ew. done. }
  exists s, root, s1. split; [exact E|].
  eapply wp_mono; [|apply (copy_roundtrip s root t l 1 10 KERNBASE (KERNBASE + 100) 100 s1 HA Hsys ltac:(done) ltac:(done) Hap Hap' E)].
  by intros r s' [-> _].
Defined.

Lemma copyinstr_spec_witness : ∃ s root, wp (copyinstr root KERNBASE 0 128) (λ r s', r = 0 ∧ rd (ram s') KERNBASE = 0) s.
Proof.
  destruct boot_user as (s & root & t & l & HA & Hz & _ & Hhigh). exists s, root.
  pose proof (AS_pages_ok _ _ _ _ _ HA) as Hok.
  assert (ubyte s t 0 = 0) as H0.
  { destruct Hz as [_ Hz]. unfold ubyte, uphys. change (0 mod PGSIZE) with 0. apply (Hz 0). by compute. }
  eapply wp_mono; [|apply (copyinstr_spec s root t l 1 KERNBASE 0 128 HA); [|done|done|by apply buffer_apart]].
  - intros r s' (k & Hk & _ & Hnz & _ & Hr). assert (k = 0) as ->.
    { destruct (decide (k = 0)); [done|]. exfalso. apply (Hnz 0); [lia|done]. }
    destruct Hr as [(-> & _ & _ & Hb)|(_ & [?|Hnone])]; [|done|].
    + split; [done|]. rewrite <-H0. rewrite <-(Z.add_0_r KERNBASE). apply (Hb 0). lia.
    + by rewrite Z.add_0_l, (proj2 (zero_page_user s root t l HA Hz)) in Hnone.
  - intros va Hva. by rewrite Hhigh.
Defined.
