(* ===== verification/Bytes.v ===== *)
(** * Byte sequences and their fields

    Disk blocks are lists of bytes.  The kernel reads and writes integers in
    them through casts to structures ([struct logheader], [struct dinode],
    [struct dirent], arrays of [uint]); [get_le] and [put_le] are these accesses,
    little endian. *)

From S2P Require Import Prelude.

(** The end of the sequence reads as 0, which makes a list of bytes a C string. *)
Definition byte_at (l : list Z) (i : Z) : Z := default 0 (l !! Z.to_nat i).

(** The [n]-byte integer at offset [off]. *)
Fixpoint get_le (n : nat) (off : Z) (l : list Z) : Z :=
  match n with O => 0 | S n' => byte_at l off + 256 * get_le n' (off + 1) l end.

Fixpoint put_le (n : nat) (off v : Z) (l : list Z) : list Z :=
  match n with O => l | S n' => put_le n' (off + 1) (v / 256) (<[Z.to_nat off := v mod 256]> l) end.

Definition get16 (off : Z) (l : list Z) : Z := get_le 2 off l.
Definition get32 (off : Z) (l : list Z) : Z := get_le 4 off l.
Definition put16 (off v : Z) (l : list Z) : list Z := put_le 2 off v l.
Definition put32 (off v : Z) (l : list Z) : list Z := put_le 4 off v l.

Definition byte_list (l : list Z) : Prop := Forall (λ x, 0 ≤ x < 256) l.

Lemma byte_at_insert l i j x : 0 ≤ j → (i < length l)%nat → byte_at (<[i := x]> l) j = if decide (j = Z.of_nat i) then x else byte_at l j.
Proof.
  intros Hj Hi. unfold byte_at. case_decide as E; [subst j; by rewrite Nat2Z.id, list_lookup_insert_eq|]. by rewrite list_lookup_insert_ne by lia.
Qed.

Lemma byte_at_replicate n i : byte_at (replicate n 0) i = 0.
Proof.
  unfold byte_at. destruct (replicate n 0 !! Z.to_nat i) as [x|] eqn:E; [|done]. by apply lookup_replicate in E as [-> _].
Qed.

Lemma length_put_le n off v l : length (put_le n off v l) = length l.
Proof. revert off v l. induction n as [|n IH]; intros off v l; simpl; [done|]. by rewrite IH, length_insert. Qed.

Lemma byte_at_put_le n off v l i :
  0 ≤ off → 0 ≤ i → off + Z.of_nat n ≤ Z.of_nat (length l) →
  byte_at (put_le n off v l) i = if decide (off ≤ i < off + Z.of_nat n) then (v / 256 ^ (i - off)) mod 256 else byte_at l i.
Proof.
  revert off v l. induction n as [|n IH]; intros off v l Ho Hi Hl; [simpl; by rewrite decide_False by lia|].
  cbn [put_le]. rewrite IH by (rewrite ?length_insert; lia). rewrite byte_at_insert, Z2Nat.id by lia. destruct (decide (i = off)) as [->|Hne].
  - rewrite decide_False, decide_True by lia. by rewrite Z.sub_diag, Z.pow_0_r, Z.div_1_r.
  -     destruct (decide (off + 1 ≤ i < off + 1 + Z.of_nat n)); [rewrite decide_True by lia|by rewrite decide_False by lia].
    replace (i - off) with (Z.succ (i - (off + 1))) by lia.
    rewrite Z.pow_succ_r by lia. by rewrite Z.div_div by lia.
Qed.

Lemma get_le_ext n off l l' :
  (∀ i, off ≤ i < off + Z.of_nat n → byte_at l' i = byte_at l i) → get_le n off l' = get_le n off l.
Proof.
  revert off. induction n as [|n IH]; intros off H; simpl; [done|]. rewrite H by lia. f_equal. f_equal. apply IH. intros i Hi. apply H. lia.
Qed.

Lemma get_put_eq n off v l :
  0 ≤ off → off + Z.of_nat n ≤ Z.of_nat (length l) → get_le n off (put_le n off v l) = v mod 256 ^ Z.of_nat n.
Proof.
  revert off v l. induction n as [|n IH]; intros off v l Ho Hl; [simpl; by rewrite Z.mod_1_r|].
  cbn [get_le put_le]. rewrite IH by (rewrite ?length_insert; lia). rewrite byte_at_put_le by (rewrite ?length_insert; lia).
  rewrite decide_False by lia. rewrite byte_at_insert, Z2Nat.id, decide_True by lia.
  rewrite Nat2Z.inj_succ, Z.pow_succ_r by lia. rewrite Z.rem_mul_r by (try apply Z.pow_pos_nonneg; lia). lia.
Qed.

Lemma get_put_ne n off m off' v l :
  0 ≤ off → 0 ≤ off' → off + Z.of_nat n ≤ Z.of_nat (length l) → off' + Z.of_nat m ≤ off ∨ off + Z.of_nat n ≤ off' →
  get_le m off' (put_le n off v l) = get_le m off' l.
Proof. intros Ho Ho' Hl Hd. apply get_le_ext. intros i Hi. rewrite byte_at_put_le by lia. by rewrite decide_False by lia. Qed.

Lemma byte_list_put n off v l : byte_list l → byte_list (put_le n off v l).
Proof.
  revert off v l. induction n as [|n IH]; intros off v l Hl; simpl; [done|]. apply IH, Forall_insert; [done|]. apply Z.mod_pos_bound. lia.
Qed.

Lemma byte_at_range l i : byte_list l → 0 ≤ byte_at l i < 256.
Proof.
  intros Hl. unfold byte_at. destruct (l !! Z.to_nat i) as [x|] eqn:E.
  - unfold byte_list in Hl. rewrite Forall_lookup in Hl. by apply (Hl _ _ E).
  - simpl. lia.
Qed.

Lemma get_le_range n off l : byte_list l → 0 ≤ get_le n off l < 256 ^ Z.of_nat n.
Proof.
  intros Hl. revert off. induction n as [|n IH]; intros off; [simpl; lia|]. cbn [get_le].
  pose proof (byte_at_range l off Hl). specialize (IH (off + 1)). rewrite Nat2Z.inj_succ, Z.pow_succ_r by lia. lia.
Qed.

(** An array of [k] 32-bit integers at [base]. *)
Lemma put32_array base g k d :
  0 ≤ base → base + 4 * Z.of_nat k ≤ Z.of_nat (length d) →
  let d' := foldl (λ d i, put32 (base + 4 * i) (g i) d) d (seqZ 0 (Z.of_nat k)) in
  length d' = length d ∧ (∀ j, 0 ≤ j → j < base ∨ base + 4 * Z.of_nat k ≤ j → byte_at d' j = byte_at d j) ∧
  (∀ i, 0 ≤ i < Z.of_nat k → get32 (base + 4 * i) d' = g i mod 2 ^ 32) ∧ (byte_list d → byte_list d').
Proof.
  intros Hb Hd. cbn zeta. induction k as [|k IH].
  { rewrite seqZ_nil by lia. cbn [foldl]. split_and!; [done|done|lia|done]. }
  destruct IH as (IHl & IHo & IHi & IHb); [lia|]. rewrite seqZ_S, foldl_app. cbn [foldl]. set (d' := foldl _ _ _) in *. clearbody d'.
  unfold get32, put32 in *. split_and!.
  - by rewrite length_put_le.
  - intros j Hj Hout. rewrite byte_at_put_le, decide_False by lia. apply IHo; lia.
  - intros i Hi. destruct (decide (i = Z.of_nat k)) as [->|Hne].
    + rewrite Z.add_0_l, get_put_eq by lia. done.
    + rewrite get_put_ne by lia. apply IHi. lia.
  - intros Hl. by apply byte_list_put, IHb.
Qed.

Lemma get_put16 off v l : 0 ≤ off → off + 2 ≤ Z.of_nat (length l) → get16 off (put16 off v l) = u16 v.
Proof. intros. unfold get16, put16. by rewrite get_put_eq by lia. Qed.

Lemma get_put32 off v l : 0 ≤ off → off + 4 ≤ Z.of_nat (length l) → get32 off (put32 off v l) = u32 v.
Proof. intros. unfold get32, put32. by rewrite get_put_eq by lia. Qed.

Lemma s16_u16 x : - 2 ^ 15 ≤ x < 2 ^ 15 → s16 (u16 x) = x.
Proof. intros Hx. unfold s16, u16. rewrite Zplus_mod_idemp_l, Z.mod_small; lia. Qed.
