(* ===== verification/Bio.v ===== *)
(** * The buffer cache (kernel/bio.c, kernel/buf.h)

    [NBUF] buffers in a circular doubly linked list, most recently used first,
    through a sentinel [bcache.head].  A buffer caches one disk block; a process
    uses it between [bread] and [brelse], holding its sleep lock.  The links are
    modelled as they are stored; [ring] relates them to the list of buffers in
    order of use, and [BC] is what the cache promises to its clients: every
    block has one contents, found in the cache or on disk. *)

From stdpp Require Import functions.
From S2P Require Import Prelude Machine Sync.

Definition BSIZE : Z := 1024.

(** ** State *)

(** [struct buf]; [prev] and [next] are indices in [bcache.buf], [HEAD] is
    [bcache.head].  The field [disk] belongs to the disk driver. *)
Record buf := Buf {
  valid : Z; bdev : Z; blockno : Z; block_lock : sleeplock; refcnt : Z; prev : nat; next : nat; bdata : list Z
}.

Definition zero_block : list Z := replicate (Z.to_nat BSIZE) 0.

#[export] Instance buf_inhabited : Inhabited buf := populate (Buf 0 0 0 (Sleeplock 0 0) 0 0 0 zero_block).

Definition HEAD : nat := NBUF.

(** The cache, the disk, the writes made to it, in order, and the pid of the
    running process. *)
Record bst := Bst { bufs : list buf; disk : gmap Z (list Z); writes : list (Z * list Z); mypid : Z }.

Definition set_valid (v : Z) (b : buf) : buf := Buf v (bdev b) (blockno b) (block_lock b) (refcnt b) (prev b) (next b) (bdata b).
Definition set_dev (v : Z) (b : buf) : buf := Buf (valid b) v (blockno b) (block_lock b) (refcnt b) (prev b) (next b) (bdata b).
Definition set_blockno (v : Z) (b : buf) : buf := Buf (valid b) (bdev b) v (block_lock b) (refcnt b) (prev b) (next b) (bdata b).
Definition set_lock (v : sleeplock) (b : buf) : buf := Buf (valid b) (bdev b) (blockno b) v (refcnt b) (prev b) (next b) (bdata b).
Definition set_refcnt (v : Z) (b : buf) : buf := Buf (valid b) (bdev b) (blockno b) (block_lock b) v (prev b) (next b) (bdata b).
Definition set_prev (v : nat) (b : buf) : buf := Buf (valid b) (bdev b) (blockno b) (block_lock b) (refcnt b) v (next b) (bdata b).
Definition set_next (v : nat) (b : buf) : buf := Buf (valid b) (bdev b) (blockno b) (block_lock b) (refcnt b) (prev b) v (bdata b).
Definition set_data (v : list Z) (b : buf) : buf := Buf (valid b) (bdev b) (blockno b) (block_lock b) (refcnt b) (prev b) (next b) v.

Definition bget_at (i : nat) : M bst buf := gets (λ s, bufs s !!! i).
Definition bupd (i : nat) (f : buf → buf) : M bst unit :=
  modify (λ s, Bst (alter f i (bufs s)) (disk s) (writes s) (mypid s)).

(** Code of the sleep lock of buffer [i]. *)
Definition with_lock {A} (i : nat) (m : M (mon sleeplock) A) : M bst A :=
  zoom (λ s, Mon (block_lock (bufs s !!! i)) false)
       (λ k s, Bst (alter (set_lock (obj k)) i (bufs s)) (disk s) (writes s) (mypid s)) m.

(** ** The disk *)

(** The contents of a block. *)
Definition dread (d : gmap Z (list Z)) (b : Z) : list Z := default zero_block (d !! b).

(** [virtio_disk_rw(b, write)], which returns when the device has completed the
    request. *)
Definition virtio_disk_rw (i : nat) (write : bool) : M bst unit :=
  b ← bget_at i;
  if write then modify (λ s, Bst (bufs s) (<[blockno b := bdata b]> (disk s)) (writes s ++ [(blockno b, bdata b)]) (mypid s))
  else s ← getS; bupd i (set_data (dread (disk s) (blockno b))).

(** ** bio.c *)

Definition binit : M bst unit :=
  bupd HEAD (set_prev HEAD);;
  bupd HEAD (set_next HEAD);;
  forM (seq 0 NBUF) (λ b,
    h ← bget_at HEAD;
    bupd b (set_next (next h));;
    bupd b (set_prev HEAD);;
    bupd b (set_lock initsleeplock);;
    bupd (next h) (set_prev b);;
    bupd HEAD (set_next b)).

(** The two loops of [bget]: [inr (Some b)] is the buffer found. *)
Definition bget_cached (dev bno : Z) (b : nat) : M bst (nat + option nat) :=
  if decide (b = HEAD) then mret (inr None)
  else
    x ← bget_at b;
    if (bdev x =? dev) && (blockno x =? bno) then
      bupd b (λ x, set_refcnt (u32 (refcnt x + 1)) x);; mret (inr (Some b))
    else mret (inl (next x)).

Definition bget_recycle (dev bno : Z) (b : nat) : M bst (nat + option nat) :=
  if decide (b = HEAD) then mret (inr None)
  else
    x ← bget_at b;
    if refcnt x =? 0 then
      bupd b (set_dev dev);; bupd b (set_blockno bno);; bupd b (set_valid 0);; bupd b (set_refcnt 1);;
      mret (inr (Some b))
    else mret (inl (prev x)).

Definition bget (dev bno : Z) : M bst nat :=
  pid ← gets mypid;
  h ← bget_at HEAD;
  r ← iterM (S NBUF) (bget_cached dev bno) (next h);
  match r with
  | Some b => with_lock b (acquiresleep pid);; mret b
  | None =>
      h ← bget_at HEAD;
      r ← iterM (S NBUF) (bget_recycle dev bno) (prev h);
      match r with
      | Some b => with_lock b (acquiresleep pid);; mret b
      | None => panic "bget: no buffers"
      end
  end.

Definition bread (dev bno : Z) : M bst nat :=
  b ← bget dev bno;
  x ← bget_at b;
  (if valid x =? 0 then virtio_disk_rw b false;; bupd b (set_valid 1) else mret tt);;
  mret b.

Definition bwrite (b : nat) : M bst unit :=
  pid ← gets mypid;
  x ← bget_at b;
  if negb (holdingsleep pid (block_lock x)) then panic "bwrite" else virtio_disk_rw b true.

Definition brelse (b : nat) : M bst unit :=
  pid ← gets mypid;
  x ← bget_at b;
  if negb (holdingsleep pid (block_lock x)) then panic "brelse"
  else
    with_lock b releasesleep;;
    bupd b (λ x, set_refcnt (u32 (refcnt x - 1)) x);;
    x ← bget_at b;
    if refcnt x =? 0 then
      bupd (next x) (set_prev (prev x));;
      bupd (prev x) (set_next (next x));;
      h ← bget_at HEAD;
      bupd b (set_next (next h));;
      bupd b (set_prev HEAD);;
      bupd (next h) (set_prev b);;
      bupd HEAD (set_next b)
    else mret tt.

Definition bpin (b : nat) : M bst unit := bupd b (λ x, set_refcnt (u32 (refcnt x + 1)) x).
Definition bunpin (b : nat) : M bst unit := bupd b (λ x, set_refcnt (u32 (refcnt x - 1)) x).

(** ** The list of buffers *)

Section chain.
Context (nx pv : nat → nat).

(** Consecutive elements are linked both ways. *)
Fixpoint lchain (c : list nat) : Prop :=
  match c with
  | a :: (b :: _) as t => nx a = b ∧ pv b = a ∧ lchain t
  | _ => True
  end.

Lemma lchain_app c a c' : lchain (c ++ a :: c') ↔ lchain (c ++ [a]) ∧ lchain (a :: c').
Proof.
  induction c as [|x c IH]; simpl; [tauto|]. destruct c as [|y c]; simpl in *; [tauto|]. rewrite IH. tauto.
Qed.
End chain.

Lemma lchain_ext nx pv nx' pv' c :
  (∀ x, x ∈ removelast c → nx' x = nx x) → (∀ x, x ∈ tail c → pv' x = pv x) → lchain nx pv c → lchain nx' pv' c.
Proof.
  induction c as [|a c IH]; [done|]. destruct c as [|b c]; [done|]. intros Hn Hp (H1 & H2 & H3). simpl.
  split; [rewrite Hn; [done|by left]|]. split; [rewrite Hp; [done|by left]|]. apply IH; [| |done].
  - intros x Hx. apply Hn. by right.
  - intros x Hx. apply Hp. by right.
Qed.

(** Taking an element out. *)
Lemma lchain_unlink nx pv u p a q w :
  NoDup (removelast (u ++ [p; a; q] ++ w)) → NoDup (tail (u ++ [p; a; q] ++ w)) →
  lchain nx pv (u ++ [p; a; q] ++ w) →
  lchain (<[p := q]> nx) (<[q := p]> pv) (u ++ [p; q] ++ w).
Proof.
  intros Hr Ht Hc. simpl in Hc. apply (lchain_app nx pv u p) in Hc as [H1 (_ & _ & (_ & _ & H2))].
  change (u ++ [p; q] ++ w) with (u ++ p :: q :: w). apply lchain_app. split.
  - eapply lchain_ext; [| |exact H1].
    + rewrite removelast_last. intros x Hx. apply fn_lookup_insert_ne. intros ->.
      change (u ++ [x; a; q] ++ w) with (u ++ x :: a :: q :: w) in Hr. rewrite removelast_app in Hr by done.
      simpl removelast in Hr. apply NoDup_app in Hr as (_ & Hd & _). apply (Hd x Hx). by left.
    + intros x Hx. apply fn_lookup_insert_ne. intros ->.
      destruct u as [|y u]; [by apply elem_of_nil in Hx|]. simpl in Hx, Ht. rewrite <-app_assoc in Hx || idtac.
      apply elem_of_app in Hx. change (u ++ p :: a :: x :: w) with (u ++ [p; a; x] ++ w) in Ht.
      apply NoDup_app in Ht as (_ & Hd & Ht). destruct Hx as [Hx|Hx%list_elem_of_singleton].
      * apply (Hd x Hx). simpl. rewrite !elem_of_cons. tauto.
      * subst. simpl in Ht. apply NoDup_cons in Ht as [Ht _]. apply Ht. rewrite !elem_of_cons. tauto.
  - split; [by rewrite fn_lookup_insert|]. split; [by rewrite fn_lookup_insert|].
    change (lchain (<[p := q]> nx) (<[q := p]> pv) (q :: w)). eapply lchain_ext; [| |exact H2].
    + intros x Hx. apply fn_lookup_insert_ne. intros ->.
      change (u ++ [x; a; q] ++ w) with (u ++ x :: a :: q :: w) in Hr. rewrite removelast_app in Hr by done.
      apply NoDup_app in Hr as (_ & _ & Hr). simpl in Hr. destruct w as [|z w]; [by apply elem_of_nil in Hx|].
      apply NoDup_cons in Hr as [Hr _]. apply Hr. right. exact Hx.
    + intros x Hx. simpl in Hx. apply fn_lookup_insert_ne. intros ->.
      assert (NoDup (x :: w)) as [Hn _]%NoDup_cons; [|done].
      destruct u as [|y u]; simpl in Ht; [by apply NoDup_cons in Ht as [_ Ht]|].
      apply NoDup_app in Ht as (_ & _ & Ht). simpl in Ht. apply NoDup_cons in Ht as [_ Ht]. by apply NoDup_cons in Ht as [_ Ht].
Qed.

Definition nxt (bs : list buf) (i : nat) : nat := next (bs !!! i).
Definition prv (bs : list buf) (i : nat) : nat := prev (bs !!! i).

(** [lru] lists the buffers, most recently used first. *)
Record ring (bs : list buf) (lru : list nat) : Prop := {
  ring_len : length bs = S NBUF;
  ring_chain : lchain (nxt bs) (prv bs) (HEAD :: lru ++ [HEAD]);
  ring_nodup : NoDup lru;
  ring_all : ∀ i, i ∈ lru ↔ (i < NBUF)%nat
}.

Lemma ring_ext bs bs' lru :
  length bs' = length bs → (∀ i, nxt bs' i = nxt bs i) → (∀ i, prv bs' i = prv bs i) → ring bs lru → ring bs' lru.
Proof. intros Hl Hn Hp [H1 H2 H3 H4]. split; [by rewrite Hl|by eapply lchain_ext; [..|exact H2]|done|done]. Qed.

(** The buffers met on a walk through [f] up to the sentinel. *)
Fixpoint path (f : nat → nat) (b : nat) (l : list nat) : Prop :=
  match l with [] => b = HEAD | x :: l' => b = x ∧ x ≠ HEAD ∧ path f (f x) l' end.

Lemma lchain_forward nx pv l a : lchain nx pv (a :: l ++ [HEAD]) → (HEAD ∉ l) → path nx (nx a) l.
Proof.
  revert a. induction l as [|x l IH]; simpl; intros a.
  - by intros (-> & _).
  - intros (-> & _ & Hc) Hn. apply not_elem_of_cons in Hn as [? ?]. split; [done|]. split; [done|]. by apply IH.
Qed.

Lemma lchain_backward nx pv l a : lchain nx pv (HEAD :: l ++ [a]) → (HEAD ∉ l) → path pv (pv a) (reverse l).
Proof.
  revert a. induction l as [|x l IH] using rev_ind; intros a.
  - by intros (_ & -> & _).
  - rewrite <-app_assoc. intros Hc Hn. apply not_elem_of_app in Hn as [? Hx]. rewrite not_elem_of_cons in Hx.
    apply (lchain_app nx pv (HEAD :: l) x [a]) in Hc as [Hc (_ & -> & _)]. rewrite reverse_app. simpl.
    split; [done|]. split; [naive_solver|]. by apply IH.
Qed.

(** Both loops of [bget]: the first buffer on the way that passes the test. *)
Lemma walk_loop (test : buf → bool) (act : nat → M bst unit) (step : buf → nat) (body : nat → M bst (nat + option nat)) l b n s :
  (∀ b, body b = if decide (b = HEAD) then mret (inr None)
                 else x ← bget_at b; if test x then act b;; mret (inr (Some b)) else mret (inl (step x))) →
  path (λ i, step (bufs s !!! i)) b l → (length l < n)%nat →
  iterM n body b s = match head (filter (λ i, test (bufs s !!! i)) l) with
                     | Some i => (act i;; mret (Some i)) s
                     | None => Ok None s
                     end.
Proof.
  intros Hbody. revert b n. induction l as [|x l IH]; simpl; intros b n Hp Hn; (destruct n as [|n]; [lia|]); simpl;
    unfold mbind at 1, M_bind at 1; rewrite Hbody.
  - subst. by rewrite decide_True.
  - destruct Hp as (-> & Hx & Hp). rewrite decide_False by done. unfold mbind at 1, M_bind at 1. cbn [bget_at gets].
    rewrite filter_cons. destruct (test (bufs s !!! x)) eqn:Et; simpl.
    + unfold mbind, M_bind. by destruct (act x s).
    + apply IH; [done|lia].
Qed.

Lemma wp_walk_loop (test : buf → bool) (act : nat → M bst unit) (step : buf → nat) (body : nat → M bst (nat + option nat)) l b n
    (Q : option nat → bst → Prop) s :
  (∀ b, body b = if decide (b = HEAD) then mret (inr None)
                 else x ← bget_at b; if test x then act b;; mret (inr (Some b)) else mret (inl (step x))) →
  path (λ i, step (bufs s !!! i)) b l → (length l < n)%nat →
  (∀ i, i ∈ l → test (bufs s !!! i) = true → wp (act i) (λ _, Q (Some i)) s) →
  ((∀ i, i ∈ l → test (bufs s !!! i) = false) → Q None s) →
  wp (iterM n body b) Q s.
Proof.
  intros Hbody Hp Hn HS HN. unfold wp. rewrite (walk_loop test act step body l b n s Hbody Hp Hn).
  destruct (head (filter _ l)) as [i|] eqn:Ef.
  - apply head_Some_elem_of, list_elem_of_filter in Ef as [Ht Hin]. specialize (HS i Hin (Is_true_true_1 _ Ht)).
    unfold wp in HS. unfold mbind, M_bind. by destruct (act i s).
  - apply HN. intros i Hi. apply head_None in Ef. destruct (test (bufs s !!! i)) eqn:Et; [|done].
    exfalso. eapply (filter_nil_not_elem_of _ _ i); [exact Ef|cbv beta; by rewrite Et|done].
Qed.

Lemma ring_head bs lru : ring bs lru → (HEAD ∉ lru) ∧ length lru = NBUF.
Proof.
  intros [_ _ Hnd Hall]. split; [rewrite Hall; unfold HEAD; lia|].
  assert (lru ≡ₚ seq 0 NBUF) as ->; [|by rewrite length_seq].
  apply NoDup_Permutation; [done|apply NoDup_seq|]. intros i. rewrite Hall, elem_of_seq. lia.
Qed.

(** ** What the cache promises

    [v] is the contents of every block, [pins] the blocks pinned by the log,
    and [hd] the blocks whose buffer the process holds, with the buffer and
    what is in it.  A buffer that differs from the disk is pinned or held. *)

Definition cached (s : bst) (b : Z) (i : nat) : Prop :=
  (i < NBUF)%nat ∧ bdev (bufs s !!! i) = ROOTDEV ∧ blockno (bufs s !!! i) = b.

(** References to the buffer [i] of block [b]. *)
Definition nrefs (pins : gset Z) (hd : gmap Z (nat * list Z)) (b : Z) : Z :=
  (if decide (b ∈ pins) then 1 else 0) + match hd !! b with Some _ => 1 | None => 0 end.

Record BC (s : bst) (v : Z → list Z) (pins : gset Z) (hd : gmap Z (nat * list Z)) : Prop := {
  bc_ring : ∃ lru, ring (bufs s) lru;
  bc_uniq : ∀ b i j, cached s b i → cached s b j → i = j;
  bc_free : ∀ i, (i < NBUF)%nat → bdev (bufs s !!! i) ≠ ROOTDEV →
     refcnt (bufs s !!! i) = 0 ∧ sl_locked (block_lock (bufs s !!! i)) = 0;
  bc_ref : ∀ b i, cached s b i → refcnt (bufs s !!! i) = nrefs pins hd b;
  bc_lock : ∀ b i, cached s b i → sl_locked (block_lock (bufs s !!! i)) = match hd !! b with Some _ => 1 | None => 0 end;
  bc_valid : ∀ b i, cached s b i → valid (bufs s !!! i) ≠ 0;
  bc_held : ∀ b i x, hd !! b = Some (i, x) →
     cached s b i ∧ bdata (bufs s !!! i) = x ∧ sl_pid (block_lock (bufs s !!! i)) = mypid s;
  bc_pin : ∀ b, b ∈ pins → ∃ i, cached s b i;
  bc_data : ∀ b i, cached s b i → hd !! b = None → bdata (bufs s !!! i) = v b;
  bc_disk : ∀ b, (b ∉ pins) → hd !! b = None → dread (disk s) b = v b
}.

(** Some buffer can be recycled. *)
Lemma BC_room s v pins hd :
  BC s v pins hd → (size (pins ∪ dom hd) < NBUF)%nat → ∃ i, (i < NBUF)%nat ∧ refcnt (bufs s !!! i) = 0.
Proof.
  intros HB Hsz. destruct (decide (Exists (λ i, refcnt (bufs s !!! i) = 0) (seq 0 NBUF))) as [He|Hn].
  { apply Exists_exists in He as (i & Hi%elem_of_seq & E). exists i. split; [lia|done]. }
  exfalso. rewrite <-Forall_Exists_neg, Forall_forall in Hn.
  set (l := (λ i, blockno (bufs s !!! i)) <$> seq 0 NBUF).
  assert (∀ i, (i < NBUF)%nat → cached s (blockno (bufs s !!! i)) i) as Hc.
  { intros i Hi. split; [done|]. split; [|done]. destruct (decide (bdev (bufs s !!! i) = ROOTDEV)) as [|Hne]; [done|].
    destruct (bc_free _ _ _ _ HB i Hi Hne). exfalso. apply (Hn i); [apply elem_of_seq; lia|done]. }
  assert (NoDup l) as Hnd.
  { apply NoDup_fmap_2_strong; [|apply NoDup_seq]. intros i j Hi%elem_of_seq Hj%elem_of_seq E.
    apply (bc_uniq _ _ _ _ HB (blockno (bufs s !!! i))); [apply Hc; lia|]. rewrite E. apply Hc. lia. }
  assert ((list_to_set l : gset Z) ⊆ pins ∪ dom hd) as Hsub.
  { intros b. rewrite elem_of_list_to_set. intros (i & -> & Hi%elem_of_seq)%list_elem_of_fmap.
    pose proof (bc_ref _ _ _ _ HB _ i (Hc i ltac:(lia))) as Hr. unfold nrefs in Hr. rewrite elem_of_union, elem_of_dom.
    case_decide; [by left|]. right. destruct (hd !! blockno (bufs s !!! i)); [done|]. exfalso. apply (Hn i); [apply elem_of_seq; lia|lia]. }
  apply subseteq_size in Hsub. rewrite size_list_to_set in Hsub by done. unfold l in Hsub. rewrite length_fmap, length_seq in Hsub. lia.
Qed.

(** Rewriting the buffer [i], keeping its links. *)
Definition same_links (x y : buf) : Prop := prev x = prev y ∧ next x = next y.

Lemma alter_total (f : buf → buf) (bs : list buf) i j :
  (i < length bs)%nat → alter f i bs !!! j = if decide (i = j) then f (bs !!! i) else bs !!! j.
Proof.
  intros Hi. destruct (lookup_lt_is_Some_2 bs i Hi) as [x Hx]. rewrite (list_alter_as_insert _ _ _ x) by done.
  case_decide as E; [subst; rewrite list_lookup_total_insert_eq by done; by rewrite (lookup_total_Some _ _ _ Hx)|].
  by rewrite list_lookup_total_insert_ne.
Qed.

Lemma ring_alter f bs lru i : same_links (f (bs !!! i)) (bs !!! i) → (i < length bs)%nat → ring bs lru → ring (alter f i bs) lru.
Proof.
  intros [Hp Hn] Hi. apply ring_ext; [by rewrite length_alter|..]; intros j; unfold nxt, prv; rewrite alter_total by done;
    case_decide; by subst.
Qed.

Definition upd_buf (s : bst) (i : nat) (f : buf → buf) : bst := Bst (alter f i (bufs s)) (disk s) (writes s) (mypid s).

Lemma BC_len s v pins hd : BC s v pins hd → length (bufs s) = S NBUF.
Proof. intros HB. destruct (bc_ring _ _ _ _ HB) as [lru Hr]. apply Hr. Qed.

Lemma cached_upd s b i f j :
  (i < length (bufs s))%nat →
  cached (upd_buf s i f) b j ↔
    if decide (i = j) then (i < NBUF)%nat ∧ bdev (f (bufs s !!! i)) = ROOTDEV ∧ blockno (f (bufs s !!! i)) = b else cached s b j.
Proof. intros Hi. unfold cached, upd_buf. cbn [bufs]. rewrite alter_total by done. case_decide; by subst. Qed.

(** Buffer [i] becomes the held buffer of block [b]. *)
Lemma BC_take s v pins hd b i f :
  BC s v pins hd → hd !! b = None → (i < NBUF)%nat → let x := f (bufs s !!! i) in
  same_links x (bufs s !!! i) → bdev x = ROOTDEV → blockno x = b → refcnt x = nrefs pins hd b + 1 →
  block_lock x = Sleeplock 1 (mypid s) → valid x ≠ 0 → bdata x = v b →
  cached s b i ∨ ((∀ j, ¬ cached s b j) ∧ refcnt (bufs s !!! i) = 0) →
  BC (upd_buf s i f) v pins (<[b := (i, v b)]> hd).
Proof.
  intros HB Hhd Hi x Hlk Hdev Hbno Href Hlock Hval Hdat Hcase. pose proof (BC_len _ _ _ _ HB) as Hlen.
  assert (i < length (bufs s))%nat as Hil by (rewrite Hlen; lia).
  assert (∀ b' j, cached (upd_buf s i f) b' j ↔ if decide (i = j) then b' = b else cached s b' j) as Hc.
  { intros b' j. rewrite cached_upd by done. case_decide; [|done]. fold x. rewrite Hdev, Hbno. naive_solver. }
  assert (∀ b' j, cached s b' j → i ≠ j → b' ≠ b) as Hother.
  { intros b' j Hcj Hij ->. destruct Hcase as [Hci|[Hno _]]; [|by eapply Hno]. apply Hij. by eapply (bc_uniq _ _ _ _ HB). }
  assert (∀ b' j, cached s b' j → b' ≠ b → i = j → nrefs pins hd b' = 0) as Hevict.
  { intros b' j Hcj Hne <-. destruct Hcase as [Hci|[_ Hr]]; [destruct Hci as (_ & _ & E), Hcj as (_ & _ & E'); congruence|].
    by rewrite <-(bc_ref _ _ _ _ HB b' i Hcj). }
  assert (∀ j, bufs (upd_buf s i f) !!! j = if decide (i = j) then x else bufs s !!! j) as Hget.
  { intros j. cbn [upd_buf bufs]. by rewrite alter_total. }
  destruct HB as [[lru Hring] Huniq Hfree Hrefs Hlk0 Hvalid Hheld Hpin Hdata Hdisk]. split.
  - exists lru. by apply ring_alter.
  - intros b' j k. rewrite !Hc. destruct (decide (i = j)) as [<-|Hj], (decide (i = k)) as [<-|Hk]; try done.
    + intros E Hck. by destruct (Hother b' k Hck Hk).
    + intros Hcj E. by destruct (Hother b' j Hcj Hj).
    + apply Huniq.
  - intros j Hj Hne. rewrite Hget in *. case_decide; [done|]. by apply Hfree.
  - intros b' j. rewrite Hc, Hget. case_decide as E.
    + intros ->. rewrite Href. unfold nrefs. rewrite lookup_insert_eq, Hhd. lia.
    + intros Hcj. rewrite (Hrefs b' j Hcj). unfold nrefs. rewrite lookup_insert_ne; [done|]. intros <-. by destruct (Hother b j Hcj E).
  - intros b' j. rewrite Hc, Hget. case_decide as E.
    + intros ->. by rewrite Hlock, lookup_insert_eq.
    + intros Hcj. rewrite (Hlk0 b' j Hcj), lookup_insert_ne; [done|]. intros <-. by destruct (Hother b j Hcj E).
  - intros b' j. rewrite Hc, Hget. case_decide; [done|]. apply Hvalid.
  - intros b' j y [[<- [= <- <-]]|[Hne Hy]]%lookup_insert_Some; rewrite Hc, Hget.
    + rewrite !decide_True by done. by rewrite Hlock.
    + destruct (Hheld b' j y Hy) as (Hcj & Hd & Hp). rewrite !decide_False; [done|..].
      all: intros E; specialize (Hevict b' j Hcj ltac:(done) E); unfold nrefs in Hevict; rewrite Hy in Hevict; case_decide; lia.
  - intros b' Hb'. destruct (Hpin b' Hb') as [j Hcj]. destruct (decide (i = j)) as [E|E].
    + destruct (decide (b' = b)) as [->|Hne]; [exists i; apply Hc; by rewrite decide_True|].
      specialize (Hevict b' j Hcj Hne E). unfold nrefs in Hevict. rewrite decide_True in Hevict by done. destruct (hd !! b'); lia.
    + exists j. apply Hc. by rewrite decide_False.
  - intros b' j. rewrite Hc, Hget. case_decide as E.
    + by intros ->; rewrite lookup_insert_eq.
    + intros Hcj. rewrite lookup_insert_ne; [by apply Hdata|]. intros <-. by destruct (Hother b j Hcj E).
  - intros b' Hb'. rewrite lookup_insert_None. intros [Hn _]. by apply Hdisk.
Qed.

(** *** Symbolic execution *)

Lemma wp_bget_at i (Q : buf → bst → Prop) s : Q (bufs s !!! i) s → wp (bget_at i) Q s.
Proof. done. Qed.

Lemma wp_bupd i f (Q : unit → bst → Prop) s : Q tt (upd_buf s i f) → wp (bupd i f) Q s.
Proof. done. Qed.

Lemma upd_buf_comp s i f g : upd_buf (upd_buf s i f) i g = upd_buf s i (g ∘ f).
Proof. unfold upd_buf. cbn [bufs disk writes mypid]. f_equal. symmetry. apply list_alter_compose. Qed.

Lemma upd_buf_get s i f : (i < length (bufs s))%nat → bufs (upd_buf s i f) !!! i = f (bufs s !!! i).
Proof. intros Hi. cbn [upd_buf bufs]. by rewrite alter_total, decide_True. Qed.

Lemma upd_buf_get_ne s i j f : (i < length (bufs s))%nat → i ≠ j → bufs (upd_buf s i f) !!! j = bufs s !!! j.
Proof. intros Hi Hij. cbn [upd_buf bufs]. by rewrite alter_total, decide_False. Qed.

Lemma upd_buf_len s i f : length (bufs (upd_buf s i f)) = length (bufs s).
Proof. cbn [upd_buf bufs]. apply length_alter. Qed.

Lemma wp_acquiresleep i pid (Q : unit → bst → Prop) s :
  sl_locked (block_lock (bufs s !!! i)) = 0 → Q tt (upd_buf s i (set_lock (Sleeplock 1 pid))) →
  wp (with_lock i (acquiresleep pid)) Q s.
Proof.
  intros H0 HQ. apply wp_zoom. unfold acquiresleep, acquiresleep_loop, see, upd. apply wp_bind, wp_gets. cbn [obj].
  rewrite H0. change (negb (0 =? 0)) with false. cbn iota. apply wp_bind, wp_modify, wp_modify. exact HQ.
Qed.

Lemma wp_releasesleep i (Q : unit → bst → Prop) s :
  Q tt (upd_buf s i (set_lock (Sleeplock 0 0))) → wp (with_lock i releasesleep) Q s.
Proof. intros HQ. apply wp_zoom. unfold releasesleep, upd, wakeup_obj. apply wp_bind, wp_modify, wp_bind, wp_modify, wp_modify. exact HQ. Qed.

Lemma nrefs_bound pins hd b : 0 ≤ nrefs pins hd b ≤ 2.
Proof. unfold nrefs. case_decide; destruct (hd !! b); lia. Qed.

Lemma u32_small x : 0 ≤ x < 2 ^ 32 → u32 x = x.
Proof. intros. unfold u32. by apply Z.mod_small. Qed.

(** *** [bread] *)

Lemma bread_ok s v pins hd b :
  BC s v pins hd → hd !! b = None → b ∈ pins ∨ (size (pins ∪ dom hd) < NBUF)%nat →
  wp (bread ROOTDEV b) (λ i s', BC s' v pins (<[b := (i, v b)]> hd) ∧ disk s' = disk s ∧ writes s' = writes s ∧ mypid s' = mypid s) s.
Proof.
  intros HB Hhd Hsz. pose proof (BC_len _ _ _ _ HB) as Hlen. destruct (bc_ring _ _ _ _ HB) as [lru Hring].
  destruct (ring_head _ _ Hring) as [HH Hl]. unfold bread, bget. apply wp_bind, wp_bind, wp_gets, wp_bind, wp_bget_at, wp_bind.
  eapply (wp_walk_loop (λ x, (bdev x =? ROOTDEV) && (blockno x =? b)) (λ b, bupd b (λ x, set_refcnt (u32 (refcnt x + 1)) x)) next _ lru);
    [done|eapply (lchain_forward (nxt (bufs s)) (prv (bufs s)) lru HEAD); [apply Hring|done]|lia|intros i Hin Ht|intros Hnone].
  - assert (cached s b i) as Hci.
    { apply andb_prop in Ht as [Hd Hb]. apply Z.eqb_eq in Hd, Hb. split; [by apply Hring|done]. }
    pose proof (proj1 Hci) as Hi. assert (i < length (bufs s))%nat as Hil by lia. pose proof (nrefs_bound pins hd b) as Hnb.
    apply wp_bupd, wp_bind, wp_acquiresleep; [rewrite upd_buf_get by done; simpl; by rewrite (bc_lock _ _ _ _ HB b i Hci), Hhd|].
    rewrite upd_buf_comp. apply wp_ret. apply wp_bind, wp_bget_at. rewrite upd_buf_get by done. cbn [valid set_lock set_refcnt compose].
    destruct (Z.eqb_spec (valid (bufs s !!! i)) 0) as [E|_]; [by destruct (bc_valid _ _ _ _ HB b i Hci)|].
    apply wp_bind, wp_ret, wp_ret. split; [|done]. destruct Hci as (_ & Hd & Hb).
    apply BC_take; try done; try (by left); simpl.
    + by rewrite u32_small, (bc_ref _ _ _ _ HB b i) by (done || rewrite (bc_ref _ _ _ _ HB b i) by done; lia).
    + by apply (bc_valid _ _ _ _ HB b i).
    + by apply (bc_data _ _ _ _ HB b i).
  - assert (∀ j, ¬ cached s b j) as Hno.
    { intros j (Hj & Hd & Hb). specialize (Hnone j). rewrite Hd, Hb, !Z.eqb_refl in Hnone. by discriminate Hnone; apply Hring. }
    apply wp_bind, wp_bget_at, wp_bind.
    eapply (wp_walk_loop (λ x, refcnt x =? 0) (λ i, bupd i (set_dev ROOTDEV);; bupd i (set_blockno b);; bupd i (set_valid 0);; bupd i (set_refcnt 1)) prev _ (reverse lru));
      [done|eapply (lchain_backward (nxt (bufs s)) (prv (bufs s)) lru HEAD); [apply Hring|done]|rewrite length_reverse; lia| |].
    2: { intros Hfull. exfalso. destruct Hsz as [Hp|Hsz]; [destruct (bc_pin _ _ _ _ HB b Hp) as [j Hj]; by apply (Hno j)|].
         destruct (BC_room s v pins hd HB Hsz) as (j & Hj & Hr).
         specialize (Hfull j). rewrite Hr in Hfull. discriminate Hfull. apply elem_of_reverse. by apply Hring. }
    intros i Hin Ht%Z.eqb_eq. rewrite elem_of_reverse in Hin.
    apply (ring_all _ _ Hring) in Hin. assert (i < length (bufs s))%nat as Hil by lia.
    assert (sl_locked (block_lock (bufs s !!! i)) = 0) as Hul.
    { destruct (decide (bdev (bufs s !!! i) = ROOTDEV)) as [Hd|Hd]; [|by apply (bc_free _ _ _ _ HB i Hin Hd)].
      assert (cached s (blockno (bufs s !!! i)) i) as Hci by done. rewrite (bc_lock _ _ _ _ HB _ i Hci).
      rewrite (bc_ref _ _ _ _ HB _ i Hci) in Ht. unfold nrefs in Ht. destruct (hd !! blockno (bufs s !!! i)); [|done]. case_decide; lia. }
    apply wp_bind, wp_bupd, wp_bind, wp_bupd, wp_bind, wp_bupd, wp_bupd.
    rewrite !upd_buf_comp. apply wp_bind, wp_acquiresleep; [by rewrite upd_buf_get|]. rewrite upd_buf_comp. apply wp_ret.
    apply wp_bind, wp_bget_at. rewrite upd_buf_get by done. cbn [valid set_lock set_refcnt set_valid compose]. change (0 =? 0) with true. cbn iota.
    unfold virtio_disk_rw. apply wp_bind, wp_bind, wp_bind, wp_bget_at. rewrite upd_buf_get by done. apply wp_bind, wp_get, wp_bupd, wp_bupd, wp_ret.
    rewrite !upd_buf_comp. cbn [disk upd_buf]. split; [|done].
    assert (b ∉ pins) as Hpn. { intros Hp. destruct (bc_pin _ _ _ _ HB b Hp) as [j Hj]. by apply (Hno j). }
    apply BC_take; try done; simpl; [|by apply (bc_disk _ _ _ _ HB)|by right].
    unfold nrefs. by rewrite decide_False, Hhd.
Qed.

(** *** Operations on a held buffer *)

(** Equal up to the links. *)
Definition same_buf (x y : buf) : Prop :=
  valid x = valid y ∧ bdev x = bdev y ∧ blockno x = blockno y ∧ block_lock x = block_lock y ∧ refcnt x = refcnt y ∧ bdata x = bdata y.

(** Changes of one held block. *)
Lemma BC_modify s s' v v' pins pins' hd hd' b i x :
  BC s v pins hd → hd !! b = Some (i, x) → mypid s' = mypid s →
  (∃ lru, ring (bufs s') lru) →
  (∀ j, (j < NBUF)%nat → j ≠ i → same_buf (bufs s' !!! j) (bufs s !!! j)) →
  (∀ b', b' ≠ b → (b' ∈ pins' ↔ b' ∈ pins) ∧ hd' !! b' = hd !! b' ∧ v' b' = v b' ∧ dread (disk s') b' = dread (disk s) b') →
  let y := bufs s' !!! i in
  bdev y = ROOTDEV → blockno y = b → valid y ≠ 0 → refcnt y = nrefs pins' hd' b →
  match hd' !! b with
  | Some (j, z) => j = i ∧ bdata y = z ∧ block_lock y = Sleeplock 1 (mypid s)
  | None => bdata y = v' b ∧ sl_locked (block_lock y) = 0 ∧ ((b ∉ pins') → dread (disk s') b = v' b)
  end →
  BC s' v' pins' hd'.
Proof.
  intros HB Hi Hpid Hring Hother Hfr y Hdev Hbno Hval Href Hb.
  destruct (bc_held _ _ _ _ HB b i x Hi) as ((Hib & Hdi & Hbi) & _).
  assert (∀ b' j, cached s' b' j ↔ cached s b' j) as Hc.
  { intros b' j. unfold cached. destruct (decide (j = i)) as [->|Hne]; [fold y; rewrite Hdev, Hbno, Hdi, Hbi; done|].
    split; intros (Hj & H1 & H2); destruct (Hother j Hj Hne) as (_ & E1 & E2 & _); rewrite ?E1, ?E2 in *; done. }
  assert (∀ b' j, cached s b' j → j ≠ i → b' ≠ b) as Hne.
  { intros b' j Hcj Hji ->. apply Hji. by apply (bc_uniq _ _ _ _ HB b). }
  assert (∀ b', cached s b' i → b' = b) as Heq by (intros b' (_ & _ & E); congruence).
  pose proof HB as [_ Huniq Hfree Hrefs Hlk0 Hvalid Hheld Hpin Hdata Hdisk]. split.
  - done.
  - intros b' j k. rewrite !Hc. apply Huniq.
  - intros j Hj. destruct (decide (j = i)) as [->|Hji]; [by fold y; rewrite Hdev|].
    destruct (Hother j Hj Hji) as (_ & -> & _ & -> & -> & _). by apply Hfree.
  - intros b' j. rewrite Hc. intros Hcj. destruct (decide (j = i)) as [->|Hji]; [by rewrite (Heq b' Hcj)|].
    destruct (Hother j (proj1 Hcj) Hji) as (_ & _ & _ & _ & -> & _). rewrite (Hrefs b' j Hcj). unfold nrefs.
    destruct (Hfr b' (Hne b' j Hcj Hji)) as (E1 & -> & _). f_equal. by apply decide_ext.
  - intros b' j. rewrite Hc. intros Hcj. destruct (decide (j = i)) as [->|Hji].
    + rewrite (Heq b' Hcj). fold y. destruct (hd' !! b) as [[j z]|]; [by destruct Hb as (_ & _ & ->)|by destruct Hb as (_ & ? & _)].
    + destruct (Hother j (proj1 Hcj) Hji) as (_ & _ & _ & -> & _). rewrite (Hlk0 b' j Hcj).
      by destruct (Hfr b' (Hne b' j Hcj Hji)) as (_ & -> & _).
  - intros b' j. rewrite Hc. intros Hcj. destruct (decide (j = i)) as [->|Hji]; [done|].
    destruct (Hother j (proj1 Hcj) Hji) as (-> & _). by apply (Hvalid b').
  - intros b' j z Hz. rewrite Hc. destruct (decide (b' = b)) as [->|Hbb].
    + rewrite Hz in Hb. destruct Hb as (-> & Hdat & Hlk). fold y. rewrite Hlk, Hpid. by split; [|split].
    + destruct (Hfr b' Hbb) as (_ & E & _). rewrite E in Hz. destruct (Hheld b' j z Hz) as (Hcj & Hd & Hp).
      assert (j ≠ i) as Hji by (intros ->; by apply Hbb, Heq).
      destruct (Hother j (proj1 Hcj) Hji) as (_ & _ & _ & -> & _ & ->). rewrite Hpid. done.
  - intros b' Hb'. destruct (decide (b' = b)) as [->|Hbb]; [exists i; apply Hc; done|].
    destruct (Hpin b') as [j Hj]; [by apply Hfr|]. exists j. by apply Hc.
  - intros b' j. rewrite Hc. intros Hcj Hn. destruct (decide (j = i)) as [->|Hji].
    + rewrite (Heq b' Hcj) in *. rewrite Hn in Hb. apply Hb.
    + destruct (Hfr b' (Hne b' j Hcj Hji)) as (_ & E & -> & _). destruct (Hother j (proj1 Hcj) Hji) as (_ & _ & _ & _ & _ & ->).
      apply Hdata; [done|]. by rewrite <-E.
  - intros b' Hp Hn. destruct (decide (b' = b)) as [->|Hbb]; [rewrite Hn in Hb; by apply Hb|].
    destruct (Hfr b' Hbb) as (E1 & E2 & -> & ->). apply Hdisk; [by rewrite <-E1|by rewrite <-E2].
Qed.

(** A change of buffer [i] that keeps the links. *)
Lemma ring_upd s v pins hd i f :
  BC s v pins hd → (i < NBUF)%nat → same_links (f (bufs s !!! i)) (bufs s !!! i) → ∃ lru, ring (bufs (upd_buf s i f)) lru.
Proof.
  intros HB Hi Hlk. destruct (bc_ring _ _ _ _ HB) as [lru Hr]. exists lru. apply ring_alter; [done| |done].
  rewrite (ring_len _ _ Hr). lia.
Qed.

Lemma same_buf_refl x : same_buf x x.
Proof. done. Qed.

Lemma held_lock s v pins hd b i x :
  BC s v pins hd → hd !! b = Some (i, x) → block_lock (bufs s !!! i) = Sleeplock 1 (mypid s) ∧ (i < length (bufs s))%nat ∧ cached s b i ∧ bdata (bufs s !!! i) = x.
Proof.
  intros HB Hh. destruct (bc_held _ _ _ _ HB b i x Hh) as (Hc & Hd & Hp). pose proof (bc_lock _ _ _ _ HB b i Hc) as Hl. rewrite Hh in Hl.
  pose proof (BC_len _ _ _ _ HB). destruct Hc as (Hi & ?). split; [|split; [lia|done]]. destruct (block_lock _). simpl in *. congruence.
Qed.

(** The process writes into the buffer. *)
Lemma set_data_ok s v pins hd b i x y :
  BC s v pins hd → hd !! b = Some (i, x) → BC (upd_buf s i (set_data y)) v pins (<[b := (i, y)]> hd).
Proof.
  intros HB Hh. destruct (held_lock _ _ _ _ _ _ _ HB Hh) as (Hl & Hlen & Hc & Hd). pose proof Hc as (Hi & Hdev & Hbno).
  eapply (BC_modify s _ v v pins pins hd _ b i x HB Hh); try done.
  - by eapply ring_upd.
  - intros j Hj Hji. by rewrite upd_buf_get_ne by done.
  - intros b' Hb'. by rewrite lookup_insert_ne.
  - by rewrite upd_buf_get.
  - by rewrite upd_buf_get.
  - rewrite upd_buf_get by done. by apply (bc_valid _ _ _ _ HB b).
  - rewrite upd_buf_get by done. simpl. rewrite (bc_ref _ _ _ _ HB b i Hc). unfold nrefs. by rewrite lookup_insert_eq, Hh.
  - rewrite lookup_insert_eq, upd_buf_get by done. done.
Qed.

Lemma bwrite_ok s v pins hd b i x :
  BC s v pins hd → hd !! b = Some (i, x) →
  wp (bwrite i) (λ _ s', BC s' v pins hd ∧ disk s' = <[b := x]> (disk s) ∧ writes s' = writes s ++ [(b, x)] ∧ mypid s' = mypid s) s.
Proof.
  intros HB Hh. destruct (held_lock _ _ _ _ _ _ _ HB Hh) as (Hl & Hlen & Hc & Hd). pose proof Hc as (Hi & Hdev & Hbno).
  unfold bwrite. apply wp_bind, wp_gets, wp_bind, wp_bget_at. rewrite Hl. unfold holdingsleep. cbn [sl_locked sl_pid]. rewrite Z.eqb_refl.
  change (negb (negb (1 =? 0) && true)) with false. cbn iota. apply wp_bind, wp_bget_at, wp_modify. rewrite Hbno, Hd. split; [|done].
  eapply (BC_modify s _ v v pins pins hd hd b i x HB Hh); try done.
  - apply HB.
  - intros b' Hb'. unfold dread. cbn [disk]. by rewrite lookup_insert_ne.
  - by apply (bc_valid _ _ _ _ HB b).
  - by apply (bc_ref _ _ _ _ HB b).
  - by rewrite Hh.
Qed.

Lemma bpin_ok s v pins hd b i x :
  BC s v pins hd → hd !! b = Some (i, x) → (b ∉ pins) →
  wp (bpin i) (λ _ s', BC s' v ({[b]} ∪ pins) hd ∧ disk s' = disk s ∧ writes s' = writes s ∧ mypid s' = mypid s) s.
Proof.
  intros HB Hh Hp. destruct (held_lock _ _ _ _ _ _ _ HB Hh) as (Hl & Hlen & Hc & Hd). pose proof Hc as (Hi & Hdev & Hbno).
  apply wp_bupd. split; [|done]. eapply (BC_modify s _ v v pins _ hd hd b i x HB Hh); try done.
  - by eapply ring_upd.
  - intros j Hj Hji. by rewrite upd_buf_get_ne by done.
  - intros b' Hb'. set_solver.
  - by rewrite upd_buf_get.
  - by rewrite upd_buf_get.
  - rewrite upd_buf_get by done. by apply (bc_valid _ _ _ _ HB b).
  - rewrite upd_buf_get by done. simpl. rewrite (bc_ref _ _ _ _ HB b i Hc). unfold nrefs. rewrite Hh.
    rewrite decide_False, decide_True by set_solver. done.
  - by rewrite Hh, upd_buf_get.
Qed.

Lemma bunpin_ok s v pins hd b i x :
  BC s v pins hd → hd !! b = Some (i, x) → b ∈ pins →
  wp (bunpin i) (λ _ s', BC s' v (pins ∖ {[b]}) hd ∧ disk s' = disk s ∧ writes s' = writes s ∧ mypid s' = mypid s) s.
Proof.
  intros HB Hh Hp. destruct (held_lock _ _ _ _ _ _ _ HB Hh) as (Hl & Hlen & Hc & Hd). pose proof Hc as (Hi & Hdev & Hbno).
  apply wp_bupd. split; [|done]. eapply (BC_modify s _ v v pins _ hd hd b i x HB Hh); try done.
  - by eapply ring_upd.
  - intros j Hj Hji. by rewrite upd_buf_get_ne by done.
  - intros b' Hb'. set_solver.
  - by rewrite upd_buf_get.
  - by rewrite upd_buf_get.
  - rewrite upd_buf_get by done. by apply (bc_valid _ _ _ _ HB b).
  - rewrite upd_buf_get by done. simpl. rewrite (bc_ref _ _ _ _ HB b i Hc). unfold nrefs. rewrite Hh.
    rewrite decide_True, decide_False by set_solver. done.
  - by rewrite Hh, upd_buf_get.
Qed.

(** Putting an element in front. *)
Lemma lchain_push nx pv l a :
  NoDup (HEAD :: l) → (a ∉ HEAD :: l) → lchain nx pv (HEAD :: l ++ [HEAD]) → let h := nx HEAD in
  lchain (<[HEAD := a]> (<[a := h]> nx)) (<[h := a]> (<[a := HEAD]> pv)) (HEAD :: a :: l ++ [HEAD]).
Proof.
  intros Hnd Ha Hc h. apply not_elem_of_cons in Ha as [HaH Hal]. apply NoDup_cons in Hnd as [HHl Hnd].
  assert (∃ r, l ++ [HEAD] = h :: r ∧ (a ∉ h :: r) ∧ (h ∉ r) ∧ lchain nx pv (h :: r) ∧ removelast (h :: r) = l) as (r & -> & Har & Hhr & Hcr & Hrl).
  { destruct l as [|x l]; simpl in Hc; destruct Hc as (E & _ & Hc); unfold h; rewrite E; simpl.
    - exists []. split; [done|]. split; [set_solver|]. split; [set_solver|done].
    - exists (l ++ [HEAD]). split; [done|]. split; [set_solver|]. apply NoDup_cons in Hnd as [? ?]. split; [set_solver|]. split; [done|].
      exact (removelast_last (x :: l) HEAD). }
  assert (a ≠ h) as Hah by set_solver.
  split; [by rewrite fn_lookup_insert|]. split; [rewrite fn_lookup_insert_ne by done; by rewrite fn_lookup_insert|].
  split; [rewrite fn_lookup_insert_ne by done; by rewrite fn_lookup_insert|]. split; [by rewrite fn_lookup_insert|].
  change (lchain (<[HEAD := a]> (<[a := h]> nx)) (<[h := a]> (<[a := HEAD]> pv)) (h :: r)). eapply lchain_ext; [| |exact Hcr].
  - rewrite Hrl. intros x Hx. rewrite !fn_lookup_insert_ne; [done| |]; intros E; first [apply HHl; by rewrite E|apply Hal; by rewrite E].
  - simpl. intros x Hx. rewrite !fn_lookup_insert_ne; [done| |]; intros E; first [apply Hhr; by rewrite E|apply Har; right; by rewrite E].
Qed.

(** Where an element is in the list. *)
Lemma ring_split bs lru b :
  ring bs lru → (b < NBUF)%nat →
  ∃ u w u' p q w', lru = u ++ b :: w ∧ HEAD :: lru ++ [HEAD] = u' ++ [p; b; q] ++ w' ∧ HEAD :: (u ++ w) ++ [HEAD] = u' ++ [p; q] ++ w' ∧
    next (bs !!! b) = q ∧ prev (bs !!! b) = p.
Proof.
  intros Hr Hb. apply (ring_all _ _ Hr) in Hb as (u & w & ->)%list_elem_of_split.
  destruct (exists_last (l := HEAD :: u)) as (u' & p & Eu); [done|].
  assert (∀ r, HEAD :: u ++ r = u' ++ p :: r) as Ex by (intros r; rewrite app_comm_cons, Eu; by rewrite <-(assoc_L (++))).
  assert (∀ q w', w ++ [HEAD] = q :: w' → next (bs !!! b) = q ∧ prev (bs !!! b) = p) as Hlk.
  { intros q w' E. pose proof (ring_chain _ _ Hr) as Hc. rewrite <-(assoc_L (++)), Ex in Hc. simpl in Hc. rewrite E in Hc.
    apply lchain_app in Hc as [_ (_ & H2 & (H3 & _))]. split; [exact H3|exact H2]. }
  assert (∃ q w', w ++ [HEAD] = q :: w') as (q & w' & Ew) by (destruct w; eauto).
  exists u, w, u', p, q, w'. split; [done|]. rewrite <-!(assoc_L (++)). rewrite !Ex. simpl. rewrite Ew. split; [done|]. split; [done|]. by eapply Hlk.
Qed.

Lemma nxt_upd s i f j : (i < length (bufs s))%nat → nxt (bufs (upd_buf s i f)) j = if decide (i = j) then next (f (bufs s !!! i)) else nxt (bufs s) j.
Proof. intros Hi. unfold nxt. cbn [upd_buf bufs]. rewrite alter_total by done. by case_decide. Qed.

Lemma prv_upd s i f j : (i < length (bufs s))%nat → prv (bufs (upd_buf s i f)) j = if decide (i = j) then prev (f (bufs s !!! i)) else prv (bufs s) j.
Proof. intros Hi. unfold prv. cbn [upd_buf bufs]. rewrite alter_total by done. by case_decide. Qed.

Lemma lchain_pointwise nx pv nx' pv' c : (∀ x, nx' x = nx x) → (∀ x, pv' x = pv x) → lchain nx pv c → lchain nx' pv' c.
Proof. intros. eapply lchain_ext; eauto. Qed.

(** Setting one link. *)
Lemma set_prev_links s i v : (i < length (bufs s))%nat →
  (∀ j, nxt (bufs (upd_buf s i (set_prev v))) j = nxt (bufs s) j) ∧ (∀ j, prv (bufs (upd_buf s i (set_prev v))) j = (<[i := v]> (prv (bufs s))) j) ∧
  (∀ j, same_buf (bufs (upd_buf s i (set_prev v)) !!! j) (bufs s !!! j)).
Proof.
  intros Hi. split; [|split]; intros j.
  - rewrite nxt_upd by done. by case_decide; subst.
  - rewrite prv_upd by done. unfold fn_insert, insert. by repeat case_decide.
  - cbn [upd_buf bufs]. rewrite alter_total by done. by case_decide; subst.
Qed.

Lemma set_next_links s i v : (i < length (bufs s))%nat →
  (∀ j, nxt (bufs (upd_buf s i (set_next v))) j = (<[i := v]> (nxt (bufs s))) j) ∧ (∀ j, prv (bufs (upd_buf s i (set_next v))) j = prv (bufs s) j) ∧
  (∀ j, same_buf (bufs (upd_buf s i (set_next v)) !!! j) (bufs s !!! j)).
Proof.
  intros Hi. split; [|split]; intros j.
  - rewrite nxt_upd by done. unfold fn_insert, insert. by repeat case_decide.
  - rewrite prv_upd by done. by case_decide; subst.
  - cbn [upd_buf bufs]. rewrite alter_total by done. by case_decide; subst.
Qed.

Lemma same_buf_trans x y z : same_buf x y → same_buf y z → same_buf x z.
Proof. unfold same_buf. intuition congruence. Qed.

(** Moving a buffer to the front of the list, as [brelse] does. *)
Lemma move_front_ok s lru b :
  ring (bufs s) lru → (b < NBUF)%nat → let x := bufs s !!! b in
  wp (bupd (next x) (set_prev (prev x));;
      bupd (prev x) (set_next (next x));;
      h ← bget_at HEAD;
      bupd b (set_next (next h));;
      bupd b (set_prev HEAD);;
      bupd (next h) (set_prev b);;
      bupd HEAD (set_next b))
     (λ _ s', (∃ lru', ring (bufs s') (b :: lru') ∧ ∃ u w, lru = u ++ b :: w ∧ lru' = u ++ w) ∧
        (∀ j, same_buf (bufs s' !!! j) (bufs s !!! j)) ∧ disk s' = disk s ∧ writes s' = writes s ∧ mypid s' = mypid s) s.
Proof.
  intros Hr Hb x. destruct (ring_split _ _ _ Hr Hb) as (u & w & u' & p & q & w' & Elru & Ec & Ec' & Hq & Hp).
  destruct (ring_head _ _ Hr) as [HH Hl]. pose proof (ring_len _ _ Hr) as Hlen. unfold x. rewrite Hq, Hp.
  assert (∀ y, y ∈ HEAD :: lru ++ [HEAD] → (y < S NBUF)%nat) as Hin.
  { intros y. rewrite elem_of_cons, elem_of_app, list_elem_of_singleton, (ring_all _ _ Hr). unfold HEAD. lia. }
  assert (p < S NBUF ∧ q < S NBUF)%nat as [Hpl Hql] by (split; apply Hin; rewrite Ec; set_solver).
  pose proof (ring_nodup _ _ Hr) as Hnd.
  assert (NoDup (removelast (u' ++ [p; b; q] ++ w')) ∧ NoDup (tail (u' ++ [p; b; q] ++ w'))) as [Hn1 Hn2].
  { rewrite <-Ec. split.
    - rewrite (removelast_last (HEAD :: lru) HEAD : removelast (HEAD :: lru ++ [HEAD]) = HEAD :: lru). by apply NoDup_cons.
    - simpl. rewrite (comm (++) lru [HEAD]). by apply NoDup_cons. }
  pose proof (ring_chain _ _ Hr) as Hc. rewrite Ec in Hc. apply (lchain_unlink _ _ _ _ _ _ _ Hn1 Hn2) in Hc. rewrite <-Ec' in Hc.
  assert (NoDup (HEAD :: u ++ w) ∧ (b ∉ HEAD :: u ++ w)) as [Hnd' Hbn].
  { rewrite Elru in Hnd, HH. rewrite <-Permutation_middle in Hnd. apply NoDup_cons in Hnd as [? ?]. split.
    - apply NoDup_cons. split; [|done]. intros Hx. apply HH. rewrite elem_of_app, elem_of_cons. apply elem_of_app in Hx. tauto.
    - rewrite not_elem_of_cons. split; [unfold HEAD; lia|done]. }
  apply wp_bind, wp_bupd. set (s1 := upd_buf s q (set_prev p)).
  destruct (set_prev_links s q p) as (N1 & P1 & B1); [lia|]. fold s1 in N1, P1, B1.
  assert (length (bufs s1) = S NBUF) as L1 by (by unfold s1; rewrite upd_buf_len). apply wp_bind, wp_bupd. set (s2 := upd_buf s1 p (set_next q)).
  destruct (set_next_links s1 p q) as (N2 & P2 & B2); [lia|]. fold s2 in N2, P2, B2.
  assert (length (bufs s2) = S NBUF) as L2 by (by unfold s2; rewrite upd_buf_len).
  assert (lchain (nxt (bufs s2)) (prv (bufs s2)) (HEAD :: (u ++ w) ++ [HEAD])) as Hc2.
  { eapply lchain_pointwise; [| |exact Hc]; intros y; rewrite ?N2, ?P2, ?P1; [|done]. unfold fn_insert, insert. case_decide; [done|apply N1]. }
  apply wp_bind, wp_bget_at. set (h := next (bufs s2 !!! HEAD)). assert (h < S NBUF)%nat as Hh.
  { unfold h. change (next _) with (nxt (bufs s2) HEAD). assert (∃ z r, (u ++ w) ++ [HEAD] = z :: r) as (z & r & Ez) by (destruct (u ++ w); simpl; eauto).
    rewrite Ez in Hc2. destruct Hc2 as (-> & _). assert (z ∈ (u ++ w) ++ [HEAD]) as Hz by (rewrite Ez; by left).
    apply Hin. rewrite Elru. clear -Hz. set_solver. }
  apply (lchain_push _ _ (u ++ w) b) in Hc2; [|done|done]. change (nxt (bufs s2) HEAD) with h in Hc2.
  apply wp_bind, wp_bupd. set (s3 := upd_buf s2 b (set_next h)). destruct (set_next_links s2 b h) as (N3 & P3 & B3); [lia|]. fold s3 in N3, P3, B3.
  assert (length (bufs s3) = S NBUF) as L3 by (by unfold s3; rewrite upd_buf_len).
  apply wp_bind, wp_bupd. set (s4 := upd_buf s3 b (set_prev HEAD)). destruct (set_prev_links s3 b HEAD) as (N4 & P4 & B4); [lia|]. fold s4 in N4, P4, B4.
  assert (length (bufs s4) = S NBUF) as L4 by (by unfold s4; rewrite upd_buf_len).
  apply wp_bind, wp_bupd. set (s5 := upd_buf s4 h (set_prev b)). destruct (set_prev_links s4 h b) as (N5 & P5 & B5); [lia|]. fold s5 in N5, P5, B5.
  assert (length (bufs s5) = S NBUF) as L5 by (by unfold s5; rewrite upd_buf_len).
  apply wp_bupd. set (s6 := upd_buf s5 HEAD (set_next b)). destruct (set_next_links s5 HEAD b) as (N6 & P6 & B6); [unfold HEAD; lia|]. fold s6 in N6, P6, B6.
  split; [|split; [|done]].
  - exists (u ++ w). split; [|by exists u, w]. split.
    + unfold s6. by rewrite upd_buf_len.
    + eapply lchain_pointwise; [| |exact Hc2]; intros y.
      * rewrite N6. unfold fn_insert, insert. case_decide; [done|]. rewrite N5, N4, N3. done.
      * rewrite P6, P5. unfold fn_insert, insert. case_decide; [done|]. rewrite P4. unfold fn_insert, insert. case_decide; [done|]. apply P3.
    + apply NoDup_cons in Hnd' as [_ ?]. apply not_elem_of_cons in Hbn as [_ ?]. by apply NoDup_cons.
    + intros i. rewrite <-(ring_all _ _ Hr), Elru. by rewrite <-Permutation_middle.
  - intros j. do 5 (eapply same_buf_trans; [first [apply B6|apply B5|apply B4|apply B3|apply B2]|]). apply B1.
Qed.

Lemma brelse_ok s v pins hd b i x :
  BC s v pins hd → hd !! b = Some (i, x) → b ∈ pins ∨ dread (disk s) b = x →
  wp (brelse i) (λ _ s', BC s' (<[b := x]> v) pins (delete b hd) ∧ disk s' = disk s ∧ writes s' = writes s ∧ mypid s' = mypid s) s.
Proof.
  intros HB Hh Hclean. destruct (held_lock _ _ _ _ _ _ _ HB Hh) as (Hl & Hlen & Hc & Hd). pose proof Hc as (Hi & Hdev & Hbno).
  pose proof (bc_ref _ _ _ _ HB b i Hc) as Hr. unfold nrefs in Hr. rewrite Hh in Hr.
  unfold brelse. apply wp_bind, wp_gets, wp_bind, wp_bget_at. rewrite Hl. unfold holdingsleep. cbn [sl_locked sl_pid]. rewrite Z.eqb_refl.
  change (negb (negb (1 =? 0) && true)) with false. cbn iota. apply wp_bind, wp_releasesleep, wp_bind, wp_bupd. rewrite upd_buf_comp.
  apply wp_bind, wp_bget_at. set (f := (λ x, set_refcnt (u32 (refcnt x - 1)) x) ∘ set_lock (Sleeplock 0 0)). set (s1 := upd_buf s i f).
  assert (bufs s1 !!! i = f (bufs s !!! i)) as E1 by (by apply upd_buf_get).
  assert (∃ lru, ring (bufs s1) lru) as [lru Hring] by (by eapply ring_upd).
  assert (∀ s', (∃ lru, ring (bufs s') lru) → (∀ j, same_buf (bufs s' !!! j) (bufs s1 !!! j)) → disk s' = disk s → mypid s' = mypid s →
    BC s' (<[b := x]> v) pins (delete b hd)) as Hfin.
  { intros s' Hr' Hsame Hdk Hpid. destruct (Hsame i) as (Q1 & Q2 & Q3 & Q4 & Q5 & Q6). rewrite E1 in Q1, Q2, Q3, Q4, Q5, Q6.
    simpl in Q1, Q2, Q3, Q4, Q5, Q6.
    eapply (BC_modify s s' v _ pins pins hd _ b i x HB Hh); try done.
    - intros j Hj Hji. eapply same_buf_trans; [apply Hsame|]. unfold s1. by rewrite upd_buf_get_ne by done.
    - intros b' Hb'. rewrite lookup_delete_ne, fn_lookup_insert_ne, Hdk by done. done.
    - by rewrite Q2.
    - by rewrite Q3.
    - rewrite Q1. by apply (bc_valid _ _ _ _ HB b).
    - rewrite Q5, Hr. unfold nrefs. rewrite lookup_delete_eq. case_decide; done.
    - rewrite lookup_delete_eq, fn_lookup_insert, Q4, Q6. split; [done|]. split; [done|]. rewrite Hdk. naive_solver. }
  destruct (Z.eqb_spec (refcnt (bufs s1 !!! i)) 0).
  - eapply wp_mono; [|by apply (move_front_ok s1 lru i)]. intros [] s' ((lru' & Hr' & _) & Hsame & Hdk & Hw & Hpid).
    split; [|done]. apply Hfin; [by exists (i :: lru')|done|by rewrite Hdk|by rewrite Hpid].
  - apply wp_ret. split; [|done]. apply Hfin; [by exists lru|done|done|done].
Qed.

(** *** [binit] *)

(** Zeroed memory, as the kernel finds [bcache] at boot. *)
Definition bcache0 (d : gmap Z (list Z)) (pid : Z) : bst := Bst (replicate (S NBUF) (Buf 0 0 0 (Sleeplock 0 0) 0 0 0 zero_block)) d [] pid.

Definition untouched (x : buf) : Prop := valid x = 0 ∧ bdev x = 0 ∧ block_lock x = Sleeplock 0 0 ∧ refcnt x = 0.

Lemma binit_step s lru b :
  length (bufs s) = S NBUF → (b < NBUF)%nat → (b ∉ lru) → NoDup lru → (HEAD ∉ lru) → (∀ i, i ∈ lru → (i < NBUF)%nat) →
  lchain (nxt (bufs s)) (prv (bufs s)) (HEAD :: lru ++ [HEAD]) → (∀ j, (j < NBUF)%nat → untouched (bufs s !!! j)) →
  wp (h ← bget_at HEAD; bupd b (set_next (next h));; bupd b (set_prev HEAD);; bupd b (set_lock initsleeplock);; bupd (next h) (set_prev b);; bupd HEAD (set_next b))
     (λ _ s', length (bufs s') = S NBUF ∧ lchain (nxt (bufs s')) (prv (bufs s')) (HEAD :: (b :: lru) ++ [HEAD]) ∧
        (∀ j, (j < NBUF)%nat → untouched (bufs s' !!! j)) ∧ disk s' = disk s ∧ writes s' = writes s ∧ mypid s' = mypid s) s.
Proof.
  intros Hlen Hb Hbl Hnd HH Hlt Hc Hun. apply wp_bind, wp_bget_at. set (h := next (bufs s !!! HEAD)).
  assert (h < S NBUF)%nat as Hh.
  { change h with (nxt (bufs s) HEAD). destruct lru as [|z r]; simpl in Hc; destruct Hc as (-> & _); [unfold HEAD; lia|]. specialize (Hlt z ltac:(by left)). lia. }
  apply (lchain_push _ _ lru b) in Hc; [|by apply NoDup_cons|rewrite not_elem_of_cons; split; [unfold HEAD; lia|done]]. change (nxt (bufs s) HEAD) with h in Hc.
  apply wp_bind, wp_bupd. set (s3 := upd_buf s b (set_next h)). destruct (set_next_links s b h) as (N3 & P3 & B3); [lia|]. fold s3 in N3, P3, B3.
  assert (length (bufs s3) = S NBUF) as L3 by (by unfold s3; rewrite upd_buf_len).
  apply wp_bind, wp_bupd. set (s4 := upd_buf s3 b (set_prev HEAD)). destruct (set_prev_links s3 b HEAD) as (N4 & P4 & B4); [lia|]. fold s4 in N4, P4, B4.
  assert (length (bufs s4) = S NBUF) as L4 by (by unfold s4; rewrite upd_buf_len).
  apply wp_bind, wp_bupd. set (s5 := upd_buf s4 b (set_lock initsleeplock)).
  assert (length (bufs s5) = S NBUF) as L5 by (by unfold s5; rewrite upd_buf_len).
  assert (∀ j, bufs s5 !!! j = if decide (b = j) then set_lock initsleeplock (bufs s4 !!! b) else bufs s4 !!! j) as G5.
  { intros j. unfold s5. cbn [upd_buf bufs]. by rewrite alter_total by lia. }
  apply wp_bind, wp_bupd. set (s6 := upd_buf s5 h (set_prev b)). destruct (set_prev_links s5 h b) as (N6 & P6 & B6); [lia|]. fold s6 in N6, P6, B6.
  assert (length (bufs s6) = S NBUF) as L6 by (by unfold s6; rewrite upd_buf_len).
  apply wp_bupd. set (s7 := upd_buf s6 HEAD (set_next b)). destruct (set_next_links s6 HEAD b) as (N7 & P7 & B7); [unfold HEAD; lia|]. fold s7 in N7, P7, B7.
  assert (∀ j, nxt (bufs s5) j = nxt (bufs s4) j ∧ prv (bufs s5) j = prv (bufs s4) j) as NP5.
  { intros j. unfold nxt, prv. rewrite G5. by case_decide; subst. }
  split; [by unfold s7; rewrite upd_buf_len|]. split; [|split; [|done]].
  - eapply lchain_pointwise; [| |exact Hc]; intros y.
    + rewrite N7. unfold fn_insert, insert. case_decide; [done|]. rewrite N6. destruct (NP5 y) as [-> _]. rewrite N4, N3. done.
    + rewrite P7, P6. unfold fn_insert, insert. case_decide; [done|]. destruct (NP5 y) as [_ ->]. rewrite P4. unfold fn_insert, insert. case_decide; [done|]. apply P3.
  - intros j Hj. unfold untouched. assert (same_buf (bufs s7 !!! j) (bufs s5 !!! j)) as (-> & -> & _ & -> & -> & _) by (eapply same_buf_trans; [apply B7|apply B6]).
    assert (same_buf (bufs s4 !!! j) (bufs s !!! j)) as (E1 & E2 & _ & E3 & E4 & _) by (eapply same_buf_trans; [apply B4|apply B3]).
    destruct (Hun j Hj) as (U1 & U2 & U3 & U4). rewrite G5. case_decide as E; [subst j|]; cbn [valid bdev block_lock refcnt set_lock]; rewrite ?E1, ?E2, ?E3, ?E4, ?U1, ?U2, ?U3, ?U4; done.
Qed.

Lemma binit_ok d pid : wp binit (λ _ s, BC s (dread d) ∅ ∅ ∧ disk s = d ∧ writes s = [] ∧ mypid s = pid) (bcache0 d pid).
Proof.
  unfold binit. apply wp_bind, wp_bupd, wp_bind, wp_bupd. rewrite upd_buf_comp. set (s0 := upd_buf _ _ _).
  eapply (wp_for (λ dn s, length (bufs s) = S NBUF ∧ lchain (nxt (bufs s)) (prv (bufs s)) (HEAD :: reverse dn ++ [HEAD]) ∧
    (∀ j, (j < NBUF)%nat → untouched (bufs s !!! j)) ∧ disk s = d ∧ writes s = [] ∧ mypid s = pid)).
  - intros dn b td s Hseq (Hlen & Hc & Hun & Hrest). pose proof (NoDup_seq 0 NBUF) as Hnd. rewrite Hseq in Hnd.
    apply NoDup_app in Hnd as (Hnd & Hdj & _).
    assert (∀ i, i ∈ dn ∨ i = b → (i < NBUF)%nat) as Hlt.
    { intros i Hi. assert (i ∈ seq 0 NBUF) as Hin%elem_of_seq by (rewrite Hseq; set_solver). lia. }
    eapply wp_mono; [|apply (binit_step s (reverse dn) b); try done].
    + intros [] s' (H1 & H2 & H3 & -> & -> & ->). rewrite reverse_app. simpl. done.
    + apply Hlt. by right.
    + rewrite elem_of_reverse. intros Hin. apply (Hdj b Hin). by left.
    + by rewrite reverse_Permutation.
    + rewrite elem_of_reverse. intros Hin. specialize (Hlt _ (or_introl Hin)). unfold HEAD in Hlt. lia.
    + intros i. rewrite elem_of_reverse. intros Hin. apply Hlt. by left.
  - split; [done|]. split; [done|]. split; [|done]. intros j Hj. do 30 (destruct j as [|j]; [done|]). unfold NBUF in Hj. lia.
  - intros s (Hlen & Hc & Hun & Hd & Hw & Hp). split; [|done].
    assert (∀ b i, ¬ cached s b i) as Hno. { intros b i (Hi & Hdev & _). destruct (Hun i Hi) as (_ & E & _). rewrite E in Hdev. done. }
    split; try (intros b i Hci; by destruct (Hno b i)).
    + exists (reverse (seq 0 NBUF)). split; [done|done|rewrite reverse_Permutation; apply NoDup_seq|]. intros i. rewrite elem_of_reverse, elem_of_seq. lia.
    + intros b i j Hci. by destruct (Hno b i).
    + intros i Hi _. destruct (Hun i Hi) as (_ & _ & -> & ->). done.
    + done.
    + intros b Hb. by apply elem_of_empty in Hb.
    + intros b _ _. by rewrite Hd.
Qed.

(** ** The cache as an array of blocks *)

(** A client reads a block, or overwrites it and writes it through, as the
    comment at the top of bio.c says. *)
Inductive bop := BRead (b : Z) | BWrite (b : Z) (x : list Z).

Definition exec_bop (o : bop) : M bst (list Z) :=
  match o with
  | BRead bno => b ← bread ROOTDEV bno; x ← bget_at b; brelse b;; mret (bdata x)
  | BWrite bno y => b ← bread ROOTDEV bno; bupd b (set_data y);; bwrite b;; brelse b;; mret y
  end.

Fixpoint exec_bops (os : list bop) : M bst (list (list Z)) :=
  match os with [] => mret [] | o :: os' => x ← exec_bop o; xs ← exec_bops os'; mret (x :: xs) end.

(** The same operations on a function from block numbers to contents. *)
Fixpoint array_bops (os : list bop) (v : Z → list Z) : list (list Z) * (Z → list Z) :=
  match os with
  | [] => ([], v)
  | BRead b :: os' => let '(xs, v') := array_bops os' v in (v b :: xs, v')
  | BWrite b x :: os' => let '(xs, v') := array_bops os' (<[b := x]> v) in (x :: xs, v')
  end.

Lemma exec_bop_ok s v o :
  BC s v ∅ ∅ →
  wp (exec_bop o) (λ x s', match o with
    | BRead b => x = v b ∧ BC s' (<[b := v b]> v) ∅ ∅ ∧ writes s' = writes s
    | BWrite b y => x = y ∧ BC s' (<[b := y]> v) ∅ ∅ ∧ writes s' = writes s ++ [(b, y)]
    end) s.
Proof.
  intros HB. assert (∀ b, (∅ : gmap Z (nat * list Z)) !! b = None) as He by (intros; apply lookup_empty).
  assert ((size (∅ ∪ dom (∅ : gmap Z (nat * list Z)) : gset Z) < NBUF)%nat) as Hsz by (rewrite dom_empty_L, union_empty_r_L, size_empty; unfold NBUF; lia).
  destruct o as [b|b y]; simpl; apply wp_bind; (eapply wp_mono; [|apply (bread_ok _ _ _ _ b HB (He b)); by right]); intros i s1 (HB1 & D1 & W1 & _).
  - apply wp_bind, wp_bget_at. destruct (held_lock _ _ _ _ b i (v b) HB1) as (_ & _ & _ & Hx); [apply lookup_insert_eq|].
    apply wp_bind. eapply wp_mono; [|apply (brelse_ok _ _ _ _ b i (v b) HB1); [apply lookup_insert_eq|right]].
    + intros [] s2 (HB2 & _ & W2 & _). apply wp_ret. rewrite delete_insert_eq, delete_empty in HB2. split_and!; [done|done|congruence].
    + rewrite D1. apply (bc_disk _ _ _ _ HB); [set_solver|done].
  - apply wp_bind, wp_bupd. pose proof (set_data_ok _ _ _ _ b i (v b) y HB1 (lookup_insert_eq _ _ _)) as HB2.
    apply wp_bind. eapply wp_mono; [|apply (bwrite_ok _ _ _ _ b i y HB2), lookup_insert_eq]. intros [] s3 (HB3 & D3 & W3 & _).
    apply wp_bind. eapply wp_mono; [|apply (brelse_ok _ _ _ _ b i y HB3); [apply lookup_insert_eq|right]].
    + intros [] s4 (HB4 & _ & W4 & _). apply wp_ret. rewrite !delete_insert_eq, delete_empty in HB4. split_and!; [done|done|]. rewrite W4, W3. simpl. by rewrite W1.
    + rewrite D3. unfold dread. by rewrite lookup_insert_eq.
Qed.

Definition bop_writes (os : list bop) : list (Z * list Z) := os ≫= λ o, match o with BRead _ => [] | BWrite b x => [(b, x)] end.

Lemma exec_bops_ok os s v w :
  BC s v ∅ ∅ → (∀ b, v b = w b) →
  wp (exec_bops os) (λ xs s', xs = (array_bops os w).1 ∧ (∀ b, dread (disk s') b = (array_bops os w).2 b) ∧ writes s' = writes s ++ bop_writes os) s.
Proof.
  revert s v w. induction os as [|o os IH]; intros s v w HB Hv; simpl.
  { apply wp_ret. split_and!; [done| |by rewrite app_nil_r]. intros b. rewrite <-Hv. apply (bc_disk _ _ _ _ HB); [set_solver|apply lookup_empty]. }
  apply wp_bind. eapply wp_mono; [|by apply exec_bop_ok]. destruct o as [b|b y]; intros x s1 (-> & HB1 & W1); apply wp_bind.
  - eapply wp_mono; [|apply (IH s1 _ w HB1)].
    + intros xs s2 (-> & H2 & W2). apply wp_ret. destruct (array_bops os w). simpl in *. split_and!; [by rewrite Hv|done|congruence].
    + intros c. destruct (decide (c = b)) as [->|]; [by rewrite fn_lookup_insert|by rewrite fn_lookup_insert_ne].
  - eapply wp_mono; [|apply (IH s1 _ (<[b := y]> w) HB1)].
    + intros xs s2 (-> & H2 & W2). apply wp_ret. destruct (array_bops os (<[b := y]> w)). simpl in *. split_and!; [done|done|]. by rewrite W2, W1, <-app_assoc.
    + intros c. destruct (decide (c = b)) as [->|]; [by rewrite !fn_lookup_insert|by rewrite !fn_lookup_insert_ne].
Qed.

(** C10. The buffer cache implements an array of blocks.  After [binit], any
    sequence of reads and writes, over any number of blocks, runs without a panic
    and gives what the same sequence gives on an array initialised with the disk;
    the disk ends with the contents of the array, and it is written exactly
    once for each write, in order. *)
Theorem cache_refines_array d pid os :
  wp (binit;; exec_bops os)
     (λ xs s, xs = (array_bops os (dread d)).1 ∧ (∀ b, dread (disk s) b = (array_bops os (dread d)).2 b) ∧ writes s = bop_writes os)
     (bcache0 d pid).
Proof.
  apply wp_bind. eapply wp_mono; [|apply binit_ok]. intros [] s (HB & _ & W & _).
  eapply wp_mono; [|by apply (exec_bops_ok os s (dread d) (dread d))]. intros xs s' (-> & Hd & HW). split_and!; [done|done|]. by rewrite HW, W.
Qed.
