(* ===== verification/Log.v ===== *)
(** * The write-ahead log (kernel/log.c)

    File system calls run between [begin_op] and [end_op]; the blocks they
    modify are kept in the cache ([log_write] pins them) and written to disk by
    [commit] when the last call ends: first to the log, then the header, which
    is the commit point, then to their home, then the header is cleared.
    [recover_from_log] repeats the second half after a crash.

    A crash is a prefix of the writes made to the disk: [virtio_disk_rw] returns
    when a write is complete, and a block write is taken to be atomic. *)

From stdpp Require Import functions.
From S2P Require Import Prelude Machine Sync Bytes Bio.

(** ** State *)

(** [struct logheader] and [struct log]; [block] has [LOGSIZE] entries. *)
Record logheader := Logheader { lh_n : Z; lh_block : list Z }.

Record log := Log {
  start : Z; lsize : Z; outstanding : Z; committing : Z; ldev : Z; lh : logheader
}.

(** The cache and the log; [woken] records the calls of [wakeup(&log)]. *)
Record lst := Lst { lbio : bst; lg : log; woken : nat }.

Definition bio {A} (m : M bst A) : M lst A := zoom lbio (λ t s, Lst t (lg s) (woken s)) m.
Definition upd_log (f : log → log) : M lst unit := modify (λ s, Lst (lbio s) (f (lg s)) (woken s)).
Definition wakeup_log : M lst unit := modify (λ s, Lst (lbio s) (lg s) (S (woken s))).

Definition set_start (v : Z) (l : log) : log := Log v (lsize l) (outstanding l) (committing l) (ldev l) (lh l).
Definition set_lsize (v : Z) (l : log) : log := Log (start l) v (outstanding l) (committing l) (ldev l) (lh l).
Definition set_outstanding (v : Z) (l : log) : log := Log (start l) (lsize l) v (committing l) (ldev l) (lh l).
Definition set_committing (v : Z) (l : log) : log := Log (start l) (lsize l) (outstanding l) v (ldev l) (lh l).
Definition set_ldev (v : Z) (l : log) : log := Log (start l) (lsize l) (outstanding l) (committing l) v (lh l).
Definition set_lhn (v : Z) (l : log) : log :=
  Log (start l) (lsize l) (outstanding l) (committing l) (ldev l) (Logheader v (lh_block (lh l))).
Definition set_lhblock (i v : Z) (l : log) : log :=
  Log (start l) (lsize l) (outstanding l) (committing l) (ldev l) (Logheader (lh_n (lh l)) (<[Z.to_nat i := v]> (lh_block (lh l)))).

(** [log.lh.block[i] = v]; an index outside the array is undefined behaviour. *)
Definition store_lhblock (i v : Z) : M lst unit :=
  if (0 <=? i) && (i <? LOGSIZE) then upd_log (set_lhblock i v) else panic "log.lh.block: out of bounds".

Definition lh_at (i : Z) (l : log) : Z := lh_block (lh l) !!! Z.to_nat i.

(** [struct logheader] in a block. *)
Definition hdr_n (d : list Z) : Z := s32 (get32 0 d).
Definition hdr_block (d : list Z) (i : Z) : Z := s32 (get32 (4 + 4 * i) d).

(** [b->data] of a buffer. *)
Definition data_of (b : nat) : M lst (list Z) := bio (x ← bget_at b; mret (bdata x)).

(** ** Operations *)

Definition install_trans (recovering : bool) : M lst unit :=
  n ← gets (λ s, lh_n (lh (lg s)));
  forM (seqZ 0 n) (λ tail,
    l ← gets lg;
    lbuf ← bio (bread (ldev l) (u32 (start l + tail + 1)));
    dbuf ← bio (bread (ldev l) (u32 (lh_at tail l)));
    d ← data_of lbuf;
    bio (bupd dbuf (set_data d));;
    bio (bwrite dbuf);;
    (if recovering then mret tt else bio (bunpin dbuf));;
    bio (brelse lbuf);;
    bio (brelse dbuf)).

Definition read_head : M lst unit :=
  l ← gets lg;
  buf ← bio (bread (ldev l) (u32 (start l)));
  d ← data_of buf;
  upd_log (set_lhn (hdr_n d));;
  forM (seqZ 0 (hdr_n d)) (λ i, store_lhblock i (hdr_block d i));;
  bio (brelse buf).

(** The block of the header with the first [n] block numbers stored. *)
Definition put_head (h : logheader) (d : list Z) : list Z :=
  foldl (λ d i, put32 (4 + 4 * i) (u32 (lh_block h !!! Z.to_nat i)) d) (put32 0 (u32 (lh_n h)) d) (seqZ 0 (lh_n h)).

Definition write_head : M lst unit :=
  l ← gets lg;
  buf ← bio (bread (ldev l) (u32 (start l)));
  bio (bupd buf (λ x, set_data (put_head (lh l) (bdata x)) x));;
  bio (bwrite buf);;
  bio (brelse buf).

Definition recover_from_log : M lst unit :=
  read_head;;
  install_trans true;;
  upd_log (set_lhn 0);;
  write_head.

(** [initlog(dev, sb)]; [sizeof(struct logheader)] is 124. *)
Definition initlog (dev logstart nlog : Z) : M lst unit :=
  if BSIZE <=? 4 + 4 * LOGSIZE then panic "initlog: too big logheader"
  else
    upd_log (set_start (s32 logstart));;
    upd_log (set_lsize (s32 nlog));;
    upd_log (set_ldev dev);;
    recover_from_log.

(** [begin_op()]; [Blocked] is [sleep(&log, &log.lock)]. *)
Definition begin_op : M lst unit :=
  l ← gets lg;
  if negb (committing l =? 0) then block
  else if LOGSIZE <? lh_n (lh l) + (outstanding l + 1) * MAXOPBLOCKS then block
  else upd_log (λ l, set_outstanding (s32 (outstanding l + 1)) l).

Definition write_log : M lst unit :=
  n ← gets (λ s, lh_n (lh (lg s)));
  forM (seqZ 0 n) (λ tail,
    l ← gets lg;
    to ← bio (bread (ldev l) (u32 (start l + tail + 1)));
    from ← bio (bread (ldev l) (u32 (lh_at tail l)));
    d ← data_of from;
    bio (bupd to (set_data d));;
    bio (bwrite to);;
    bio (brelse from);;
    bio (brelse to)).

Definition commit : M lst unit :=
  n ← gets (λ s, lh_n (lh (lg s)));
  if 0 <? n then
    write_log;;
    write_head;;
    install_trans false;;
    upd_log (set_lhn 0);;
    write_head
  else mret tt.

Definition end_op : M lst unit :=
  upd_log (λ l, set_outstanding (s32 (outstanding l - 1)) l);;
  l ← gets lg;
  if negb (committing l =? 0) then panic "log.committing"
  else if outstanding l =? 0 then
    upd_log (set_committing 1);;
    commit;;
    upd_log (set_committing 0);;
    wakeup_log
  else wakeup_log.

(** The search of [log_write] for the block among the first [n]. *)
Fixpoint find_block (bs : list Z) (i : Z) (b : Z) : Z :=
  match bs with [] => i | x :: bs' => if x =? b then i else find_block bs' (i + 1) b end.

Definition log_write (b : nat) : M lst unit :=
  l ← gets lg;
  if (LOGSIZE <=? lh_n (lh l)) || (lsize l - 1 <=? lh_n (lh l)) then panic "too big a transaction"
  else if outstanding l <? 1 then panic "log_write outside of trans"
  else
    x ← bio (bget_at b);
    let i := find_block (take (Z.to_nat (lh_n (lh l))) (lh_block (lh l))) 0 (s32 (blockno x)) in
    store_lhblock i (s32 (blockno x));;
    if i =? lh_n (lh l) then bio (bpin b);; upd_log (λ l, set_lhn (s32 (lh_n (lh l) + 1)) l) else mret tt.

(** ** Disk writes *)

(** The contents after some writes, on the disk and as a function. *)
Definition apply_writes (ws : list (Z * list Z)) (d : gmap Z (list Z)) : gmap Z (list Z) := foldl (λ d w, <[w.1 := w.2]> d) d ws.
Definition vapply (ws : list (Z * list Z)) (v : Z → list Z) : Z → list Z := foldl (λ v w, <[w.1 := w.2]> v) v ws.

Lemma apply_writes_app ws ws' d : apply_writes (ws ++ ws') d = apply_writes ws' (apply_writes ws d).
Proof. apply foldl_app. Qed.

Lemma vapply_app ws ws' v : vapply (ws ++ ws') v = vapply ws' (vapply ws v).
Proof. apply foldl_app. Qed.

Lemma dread_apply ws d b : dread (apply_writes ws d) b = vapply ws (dread d) b.
Proof.
  induction ws as [|[a x] ws IH] using rev_ind; [done|]. rewrite apply_writes_app, vapply_app. simpl. unfold dread at 1.
  destruct (decide (a = b)) as [->|Hne].
  - by rewrite lookup_insert_eq, fn_lookup_insert.
  - rewrite lookup_insert_ne, fn_lookup_insert_ne by done. apply IH.
Qed.

Lemma vapply_notin ws v b : (b ∉ ws.*1) → vapply ws v b = v b.
Proof.
  induction ws as [|[a x] ws IH] using rev_ind; [done|]. rewrite fmap_app, not_elem_of_app. simpl. intros [H1 H2].
  rewrite vapply_app. simpl. rewrite fn_lookup_insert_ne by set_solver. by apply IH.
Qed.

Lemma vapply_in ws v b x : NoDup ws.*1 → (b, x) ∈ ws → vapply ws v b = x.
Proof.
  induction ws as [|[a y] ws IH] using rev_ind; [by intros _ ?%elem_of_nil|]. rewrite fmap_app, vapply_app. simpl.
  intros (Hnd & Hd & _)%NoDup_app. rewrite elem_of_app, list_elem_of_singleton. intros [Hin|[= -> ->]].
  - rewrite fn_lookup_insert_ne; [by apply IH|]. intros ->. apply (Hd b); [|by left]. apply list_elem_of_fmap. by exists (b, x).
  - by rewrite fn_lookup_insert.
Qed.

Lemma vapply_ext ws v v' b : v b = v' b → vapply ws v b = vapply ws v' b.
Proof.
  intros H. induction ws as [|[a x] ws IH] using rev_ind; [done|]. rewrite !vapply_app. simpl. destruct (decide (a = b)) as [->|].
  - by rewrite !fn_lookup_insert.
  - by rewrite !fn_lookup_insert_ne.
Qed.

(** ** Rules for the code of the cache *)

Section rules.
Context (s : lst) (v : Z → list Z) (pins : gset Z) (hd : gmap Z (nat * list Z)).
Notation t := (lbio s).
Notation put t' := (Lst t' (lg s) (woken s)).
Context (HB : BC t v pins hd).

Lemma wp_bread b Q :
  hd !! b = None → b ∈ pins ∨ (size (pins ∪ dom hd) < NBUF)%nat →
  (∀ i t', BC t' v pins (<[b := (i, v b)]> hd) → disk t' = disk t → writes t' = writes t → mypid t' = mypid t → Q i (put t')) →
  wp (bio (bread ROOTDEV b)) Q s.
Proof.
  intros Hb Hr HQ. apply wp_zoom. eapply wp_mono; [|by apply (bread_ok t v pins hd b HB)]. intros i t' (? & ? & ? & ?). by apply HQ.
Qed.

Lemma wp_data_of b i x (Q : list Z → lst → Prop) : hd !! b = Some (i, x) → Q x s → wp (data_of i) Q s.
Proof.
  intros Hb HQ. apply wp_zoom, wp_bind, wp_bget_at, wp_ret. destruct (held_lock _ _ _ _ _ _ _ HB Hb) as (_ & _ & _ & ->). by destruct s.
Qed.

Lemma wp_set_data b i x f (Q : unit → lst → Prop) :
  hd !! b = Some (i, x) →
  (∀ t', BC t' v pins (<[b := (i, f x)]> hd) → disk t' = disk t → writes t' = writes t → mypid t' = mypid t → Q tt (put t')) →
  wp (bio (bupd i (λ y, set_data (f (bdata y)) y))) Q s.
Proof.
  intros Hb HQ. apply wp_zoom, wp_bupd. apply HQ; try done. pose proof (set_data_ok t v pins hd b i x (f x) HB Hb) as HB'.
  destruct (held_lock _ _ _ _ _ _ _ HB Hb) as (_ & Hlen & _ & Hd).
  assert (upd_buf t i (λ y, set_data (f (bdata y)) y) = upd_buf t i (set_data (f x))) as ->; [|done].
  unfold upd_buf. f_equal. apply list_eq. intros j. rewrite !list_lookup_alter. case_decide as E; [subst j|done].
  destruct (lookup_lt_is_Some_2 _ _ Hlen) as [y Hy]. rewrite Hy. simpl. by rewrite <-Hd, (lookup_total_Some _ _ _ Hy).
Qed.

Lemma wp_bwrite b i x (Q : unit → lst → Prop) :
  hd !! b = Some (i, x) →
  (∀ t', BC t' v pins hd → disk t' = <[b := x]> (disk t) → writes t' = writes t ++ [(b, x)] → mypid t' = mypid t → Q tt (put t')) →
  wp (bio (bwrite i)) Q s.
Proof.
  intros Hb HQ. apply wp_zoom. eapply wp_mono; [|by apply (bwrite_ok t v pins hd b i x HB)]. intros [] t' (? & ? & ? & ?). by apply HQ.
Qed.

Lemma wp_bpin b i x (Q : unit → lst → Prop) :
  hd !! b = Some (i, x) → (b ∉ pins) →
  (∀ t', BC t' v ({[b]} ∪ pins) hd → disk t' = disk t → writes t' = writes t → mypid t' = mypid t → Q tt (put t')) →
  wp (bio (bpin i)) Q s.
Proof.
  intros Hb Hp HQ. apply wp_zoom. eapply wp_mono; [|by apply (bpin_ok t v pins hd b i x HB)]. intros [] t' (? & ? & ? & ?). by apply HQ.
Qed.

Lemma wp_bunpin b i x (Q : unit → lst → Prop) :
  hd !! b = Some (i, x) → b ∈ pins →
  (∀ t', BC t' v (pins ∖ {[b]}) hd → disk t' = disk t → writes t' = writes t → mypid t' = mypid t → Q tt (put t')) →
  wp (bio (bunpin i)) Q s.
Proof.
  intros Hb Hp HQ. apply wp_zoom. eapply wp_mono; [|by apply (bunpin_ok t v pins hd b i x HB)]. intros [] t' (? & ? & ? & ?). by apply HQ.
Qed.

Lemma wp_brelse b i x (Q : unit → lst → Prop) :
  hd !! b = Some (i, x) → b ∈ pins ∨ dread (disk t) b = x →
  (∀ t', BC t' (<[b := x]> v) pins (delete b hd) → disk t' = disk t → writes t' = writes t → mypid t' = mypid t → Q tt (put t')) →
  wp (bio (brelse i)) Q s.
Proof.
  intros Hb Hp HQ. apply wp_zoom. eapply wp_mono; [|by apply (brelse_ok t v pins hd b i x HB)]. intros [] t' (? & ? & ? & ?). by apply HQ.
Qed.
End rules.

(** ** The header block *)

(** The block numbers a header block lists. *)
Definition hdr (d : list Z) : list Z := hdr_block d <$> seqZ 0 (hdr_n d).

Lemma put_blocks (g : Z → Z) k d :
  (k ≤ 30)%nat → length d = Z.to_nat BSIZE →
  let d' := foldl (λ d i, put32 (4 + 4 * i) (u32 (g i)) d) d (seqZ 0 (Z.of_nat k)) in
  length d' = Z.to_nat BSIZE ∧ get32 0 d' = get32 0 d ∧ ∀ i, 0 ≤ i < Z.of_nat k → get32 (4 + 4 * i) d' = u32 (g i).
Proof.
  intros Hk Hd. cbn zeta. unfold BSIZE in *. change (Z.to_nat 1024) with 1024%nat in *. induction k as [|k IH].
  { rewrite seqZ_nil by lia. cbn [foldl]. split; [done|]. split; [done|]. lia. }
  destruct IH as (IHl & IH0 & IH); [lia|]. rewrite seqZ_S, foldl_app. cbn [foldl].
  set (d' := foldl _ _ _) in *. clearbody d'. unfold get32, put32 in *. split_and!.
  - by rewrite length_put_le.
  - rewrite get_put_ne by (rewrite ?IHl; lia). done.
  - intros i Hi. destruct (decide (i = Z.of_nat k)) as [->|Hne].
    + rewrite Z.add_0_l, get_put_eq by (rewrite ?IHl; lia). unfold u32. change (256 ^ Z.of_nat 4) with (2 ^ 32). by rewrite Z.mod_mod.
    + rewrite get_put_ne by (rewrite ?IHl; lia). apply IH. lia.
Qed.

(** What [write_head] stores is what [read_head] reads. *)
Lemma hdr_put_head lb d bl :
  take (length bl) lb = bl → (length bl ≤ 30)%nat → (∀ b, b ∈ bl → 0 ≤ b < 2 ^ 31) → length d = Z.to_nat BSIZE →
  let d' := put_head (Logheader (Z.of_nat (length bl)) lb) d in
  length d' = Z.to_nat BSIZE ∧ hdr_n d' = Z.of_nat (length bl) ∧ hdr d' = bl.
Proof.
  intros Hlb Hn Hbl Hd. cbn zeta. unfold put_head. cbn [lh_n lh_block].
  set (d0 := put32 0 (u32 (Z.of_nat (length bl))) d). assert (length d0 = Z.to_nat BSIZE) as Hd0 by (unfold d0, put32; by rewrite length_put_le).
  destruct (put_blocks (λ i, lb !!! Z.to_nat i) (length bl) d0 Hn Hd0) as (Hl & H0 & Hi). set (d' := foldl _ _ _) in *. clearbody d'.
  assert (hdr_n d' = Z.of_nat (length bl)) as En.
  { unfold hdr_n. rewrite H0. unfold d0, get32, put32. rewrite get_put_eq by (try rewrite Hd; unfold BSIZE; lia).
    change (256 ^ Z.of_nat 4) with (2 ^ 32). unfold u32. rewrite Z.mod_mod, Z.mod_small by lia. apply s32_id. lia. }
  split_and!; [done|done|]. unfold hdr. rewrite En. apply list_eq. intros i. rewrite list_lookup_fmap.
  destruct (decide (i < length bl)%nat) as [Hlt|Hge].
  - rewrite lookup_seqZ_lt by lia. simpl. destruct (lookup_lt_is_Some_2 _ _ Hlt) as [b Hb]. rewrite Hb. f_equal.
    specialize (Hbl b (list_elem_of_lookup_2 _ _ _ Hb)). rewrite <-Hlb, lookup_take_lt in Hb by lia.
    unfold hdr_block. rewrite Z.add_0_l, Hi by lia. rewrite Nat2Z.id, (lookup_total_Some _ _ _ Hb), s32_u32. apply s32_id. lia.
  - rewrite lookup_seqZ_ge by lia. simpl. symmetry. apply lookup_ge_None. lia.
Qed.

(** ** Copying between the log and the home of a block *)

Lemma BC_ext s v v' pins hd : (∀ b, v b = v' b) → BC s v pins hd → BC s v' pins hd.
Proof. intros E []. split; try done; intros; rewrite <-E; auto. Qed.

(** [s'] differs from [s] by the writes [ws] to the disk and in the cache. *)
Record eff (s s' : lst) (ws : list (Z * list Z)) : Prop := {
  eff_disk : disk (lbio s') = apply_writes ws (disk (lbio s));
  eff_writes : writes (lbio s') = writes (lbio s) ++ ws;
  eff_pid : mypid (lbio s') = mypid (lbio s);
  eff_lg : lg s' = lg s;
  eff_woken : woken s' = woken s
}.

Lemma eff_refl s : eff s s [].
Proof. split; try done. by rewrite app_nil_r. Qed.

Lemma eff_trans s s1 s2 ws ws' : eff s s1 ws → eff s1 s2 ws' → eff s s2 (ws ++ ws').
Proof. intros [] []. split; try congruence. - rewrite apply_writes_app. congruence. - rewrite app_assoc. congruence. Qed.

Lemma hd_pop2 (a b : Z) (p q r : nat * list Z) :
  a ≠ b → delete a (delete b (<[a := r]> (<[b := q]> (<[a := p]> ∅)))) =@{gmap Z (nat * list Z)} ∅.
Proof.
  intros Hab. apply map_eq. intros c. rewrite lookup_empty. destruct (decide (c = a)) as [->|]; [by rewrite lookup_delete_eq|].
  rewrite lookup_delete_ne by done. destruct (decide (c = b)) as [->|]; [by rewrite lookup_delete_eq|].
  by rewrite lookup_delete_ne, !lookup_insert_ne by done.
Qed.

(** Lookups among the buffers held. *)
Ltac held :=
  repeat first [rewrite lookup_insert_eq | rewrite lookup_insert_ne by congruence | rewrite lookup_delete_eq
               | rewrite lookup_delete_ne by congruence | rewrite lookup_empty]; done.

Lemma write_log_step s v pins l tail a b :
  BC (lbio s) v pins ∅ → (a ∉ pins) → b ∈ pins → (size pins < NBUF)%nat →
  ldev l = ROOTDEV → u32 (start l + tail + 1) = a → u32 (lh_at tail l) = b →
  wp (to ← bio (bread (ldev l) (u32 (start l + tail + 1)));
      from ← bio (bread (ldev l) (u32 (lh_at tail l)));
      d ← data_of from;
      bio (bupd to (set_data d));;
      bio (bwrite to);;
      bio (brelse from);;
      bio (brelse to))
    (λ _ s', BC (lbio s') (<[a := v b]> v) pins ∅ ∧ eff s s' [(a, v b)]) s.
Proof.
  intros HB Ha Hb Hsz Ed Ea Eb. rewrite Ed, Ea. assert (a ≠ b) as Hab by (intros E; by rewrite E in Ha).
  apply wp_bind, (wp_bread s _ _ _ HB); [held|right; by rewrite dom_empty_L, union_empty_r_L|]. intros i t1 HB1 D1 W1 P1.
  rewrite Eb. apply wp_bind. eapply (wp_bread (Lst t1 _ _) _ _ _ HB1); [held|by left|]. intros j t2 HB2 D2 W2 P2. cbn [lbio lg woken] in *.
  apply wp_bind. eapply (wp_data_of (Lst t2 _ _) _ _ _ HB2 b); [held|].
  apply wp_bind. eapply (wp_set_data (Lst t2 _ _) _ _ _ HB2 a i _ (λ _, v b)); [held|]. intros t3 HB3 D3 W3 P3. cbn [lbio lg woken] in *.
  apply wp_bind. eapply (wp_bwrite (Lst t3 _ _) _ _ _ HB3 a); [held|]. intros t4 HB4 D4 W4 P4. cbn [lbio lg woken] in *.
  apply wp_bind. eapply (wp_brelse (Lst t4 _ _) _ _ _ HB4 b); [held|by left|]. intros t5 HB5 D5 W5 P5. cbn [lbio lg woken] in *.
  eapply (wp_brelse (Lst t5 _ _) _ _ _ HB5 a); [held|right|].
  { cbn [lbio]. rewrite D5, D4. unfold dread. by rewrite lookup_insert_eq. }
  intros t6 HB6 D6 W6 P6. cbn [lbio lg woken] in *. rewrite hd_pop2 in HB6 by done. split.
  - eapply BC_ext; [|exact HB6]. intros c. destruct (decide (c = a)) as [->|]; [by rewrite !fn_lookup_insert|].
    rewrite !(fn_lookup_insert_ne _ a) by done. destruct (decide (c = b)) as [->|]; [by rewrite fn_lookup_insert|by rewrite fn_lookup_insert_ne].
  - split; cbn [lbio lg woken]; try congruence. simpl. congruence.
Qed.

Lemma install_step s v pins (recovering : bool) l tail a b :
  BC (lbio s) v pins ∅ → (a ∉ pins) → a ≠ b → (if recovering then pins = ∅ else b ∈ pins) → (size pins < NBUF)%nat →
  ldev l = ROOTDEV → u32 (start l + tail + 1) = a → u32 (lh_at tail l) = b →
  wp (lbuf ← bio (bread (ldev l) (u32 (start l + tail + 1)));
      dbuf ← bio (bread (ldev l) (u32 (lh_at tail l)));
      d ← data_of lbuf;
      bio (bupd dbuf (set_data d));;
      bio (bwrite dbuf);;
      (if recovering then mret tt else bio (bunpin dbuf));;
      bio (brelse lbuf);;
      bio (brelse dbuf))
    (λ _ s', BC (lbio s') (<[b := v a]> v) (if recovering then pins else pins ∖ {[b]}) ∅ ∧ eff s s' [(b, v a)]) s.
Proof.
  intros HB Ha Hab Hb Hsz Ed Ea Eb. rewrite Ed, Ea. pose proof (bc_disk _ _ _ _ HB a Ha ltac:(held)) as Hda.
  apply wp_bind, (wp_bread s _ _ _ HB); [held|right; by rewrite dom_empty_L, union_empty_r_L|]. intros i t1 HB1 D1 W1 P1.
  rewrite Eb. apply wp_bind. eapply (wp_bread (Lst t1 _ _) _ _ _ HB1); [held| |].
  { destruct recovering; [right|by left]. rewrite Hb, dom_insert_L, dom_empty_L, union_empty_l_L, union_empty_r_L, size_singleton. unfold NBUF. lia. }
  intros j t2 HB2 D2 W2 P2. cbn [lbio lg woken] in *.
  apply wp_bind. eapply (wp_data_of (Lst t2 _ _) _ _ _ HB2 a); [held|].
  apply wp_bind. eapply (wp_set_data (Lst t2 _ _) _ _ _ HB2 b j _ (λ _, v a)); [held|]. intros t3 HB3 D3 W3 P3. cbn [lbio lg woken] in *.
  apply wp_bind. eapply (wp_bwrite (Lst t3 _ _) _ _ _ HB3 b); [held|]. intros t4 HB4 D4 W4 P4. cbn [lbio lg woken] in *.
  set (pins' := if recovering then pins else pins ∖ {[b]}). assert (dread (disk t4) b = v a) as D4b by (rewrite D4; unfold dread; by rewrite lookup_insert_eq).
  assert (dread (disk t4) a = v a) as D4a.
  { rewrite <-Hda, <-D1, <-D2, <-D3, D4. unfold dread. by rewrite lookup_insert_ne by done. }
  apply wp_bind. apply (wp_mono _ (λ _ s', BC (lbio s') v pins' (<[b := (j, v a)]> (<[b := (j, v b)]> (<[a := (i, v a)]> ∅))) ∧ eff (Lst t4 (lg s) (woken s)) s' [])).
  2:{ destruct recovering; [apply wp_ret; split; [done|apply eff_refl]|]. eapply (wp_bunpin (Lst t4 _ _) _ _ _ HB4 b); [held|done|].
      intros t5 HB5 D5 W5 P5. split; [exact HB5|]. split; cbn [lbio lg woken]; try done. by rewrite app_nil_r. }
  intros [] [t5 l5 w5] [HB5 [D5 W5 P5 E1 E2]]. cbn [lbio lg woken] in *. subst l5 w5. rewrite app_nil_r in W5. simpl in D5.
  apply wp_bind. eapply (wp_brelse (Lst t5 _ _) _ _ _ HB5 a); [held|right; cbn [lbio]; congruence|]. intros t6 HB6 D6 W6 P6. cbn [lbio lg woken] in *.
  eapply (wp_brelse (Lst t6 _ _) _ _ _ HB6 b); [held|right; cbn [lbio]; congruence|].
  intros t7 HB7 D7 W7 P7. cbn [lbio lg woken] in *. split.
  - replace (delete b _) with (∅ : gmap Z (nat * list Z)) in HB7.
    2:{ apply map_eq. intros c. destruct (decide (c = b)) as [->|]; [|destruct (decide (c = a)) as [->|]]; symmetry; held. }
    eapply BC_ext; [|exact HB7]. intros c. destruct (decide (c = b)) as [->|]; [by rewrite !fn_lookup_insert|].
    rewrite !(fn_lookup_insert_ne _ b) by done. destruct (decide (c = a)) as [->|]; [by rewrite fn_lookup_insert|by rewrite fn_lookup_insert_ne].
  - split; cbn [lbio lg woken]; try congruence. simpl. congruence.
Qed.

Lemma write_head_ok s v pins a :
  BC (lbio s) v pins ∅ → (a ∉ pins) → (size pins < NBUF)%nat → ldev (lg s) = ROOTDEV → u32 (start (lg s)) = a →
  wp write_head (λ _ s', BC (lbio s') (<[a := put_head (lh (lg s)) (v a)]> v) pins ∅ ∧ eff s s' [(a, put_head (lh (lg s)) (v a))]) s.
Proof.
  intros HB Ha Hsz Ed Ea. unfold write_head. wp_steps. rewrite Ed, Ea.
  apply (wp_bread s _ _ _ HB); [held|right; by rewrite dom_empty_L, union_empty_r_L|]. intros i t1 HB1 D1 W1 P1.
  apply wp_bind. eapply (wp_set_data (Lst t1 _ _) _ _ _ HB1 a i _ (put_head (lh (lg s)))); [held|]. intros t2 HB2 D2 W2 P2. cbn [lbio lg woken] in *.
  apply wp_bind. eapply (wp_bwrite (Lst t2 _ _) _ _ _ HB2 a); [held|]. intros t3 HB3 D3 W3 P3. cbn [lbio lg woken] in *.
  eapply (wp_brelse (Lst t3 _ _) _ _ _ HB3 a); [held|right; cbn [lbio]|].
  { rewrite D3. unfold dread. by rewrite lookup_insert_eq. }
  intros t4 HB4 D4 W4 P4. cbn [lbio lg woken] in *. split.
  - by rewrite !delete_insert_eq, delete_empty in HB4.
  - split; cbn [lbio lg woken]; try congruence. simpl. congruence.
Qed.

(** ** Transactions

    The log occupies the blocks from [st] to [st + sz]; [bl] are the blocks of the
    transaction in memory. *)

Definition in_log (st sz b : Z) : Prop := st ≤ b < st + sz.

Record lhd (st sz : Z) (bl : list Z) (l : log) : Prop := {
  lhd_dev : ldev l = ROOTDEV;
  lhd_start : start l = st;
  lhd_size : lsize l = sz;
  lhd_geo : 0 ≤ st ∧ sz ≤ LOGSIZE ∧ st + sz < 2 ^ 31;
  lhd_n : lh_n (lh l) = Z.of_nat (length bl);
  lhd_block : take (length bl) (lh_block (lh l)) = bl;
  lhd_len : length (lh_block (lh l)) = Z.to_nat LOGSIZE;
  lhd_room : Z.of_nat (length bl) < sz;
  lhd_nodup : NoDup bl;
  lhd_home : ∀ b, b ∈ bl → 0 ≤ b < 2 ^ 31 ∧ ¬ in_log st sz b
}.

(** The writes of [write_log] and of [install_trans]. *)
Definition log_writes (st : Z) (v : Z → list Z) (bl : list Z) : list (Z * list Z) := imap (λ i b, (st + Z.of_nat i + 1, v b)) bl.
Definition inst_writes (st : Z) (v : Z → list Z) (bl : list Z) : list (Z * list Z) := imap (λ i b, (b, v (st + Z.of_nat i + 1))) bl.

Lemma imap_take_S {A B} (f : nat → A → B) (l : list A) k x :
  l !! k = Some x → imap f (take (S k) l) = imap f (take k l) ++ [f k x].
Proof.
  intros Hk. rewrite (take_S_r _ _ _ Hk), imap_app. simpl. rewrite length_take_le, Nat.add_0_r; [done|]. apply lookup_lt_Some in Hk. lia.
Qed.

Lemma log_writes_keys st v bl b : b ∈ (log_writes st v bl).*1 ↔ st < b ≤ st + Z.of_nat (length bl).
Proof.
  unfold log_writes. rewrite list_elem_of_fmap. split.
  - intros ([? x] & -> & Hin). apply elem_of_lookup_imap in Hin as (i & b & [= -> ->] & Hi%lookup_lt_Some). simpl. lia.
  - intros Hb. destruct (lookup_lt_is_Some_2 bl (Z.to_nat (b - st - 1))) as [c Hc]; [lia|]. exists (b, v c). split; [done|].
    apply elem_of_lookup_imap. exists (Z.to_nat (b - st - 1)), c. split; [f_equal; lia|done].
Qed.

Lemma inst_writes_keys st v bl : (inst_writes st v bl).*1 = bl.
Proof.
  unfold inst_writes. rewrite fmap_imap. apply list_eq. intros i. rewrite list_lookup_imap. by destruct (bl !! i).
Qed.

Section header.
Context (st sz : Z) (bl : list Z) (l : log) (HL : lhd st sz bl l).

Lemma lhd_at k b : bl !! k = Some b → u32 (lh_at (Z.of_nat k) l) = b ∧ u32 (start l + Z.of_nat k + 1) = st + Z.of_nat k + 1.
Proof.
  intros Hk. pose proof (lookup_lt_Some _ _ _ Hk) as Hlt. destruct HL as [_ E _ Hg Hn Ht Hlen Hr Hnd Hh]. rewrite E. split.
  - unfold lh_at. rewrite Nat2Z.id. assert (lh_block (lh l) !! k = Some b) as Eb.
    { rewrite <-Ht in Hk. by rewrite lookup_take_lt in Hk by lia. }
    rewrite (lookup_total_Some _ _ _ Eb). apply u32_small. apply list_elem_of_lookup_2, Hh in Hk. lia.
  - apply u32_small. lia.
Qed.

Lemma lhd_pins : size (list_to_set bl : gset Z) = length bl ∧ (length bl < NBUF)%nat.
Proof. destruct HL as [_ _ _ Hg _ _ _ Hr Hnd _]. split; [by apply size_list_to_set|]. unfold LOGSIZE, MAXOPBLOCKS in Hg. unfold NBUF, MAXOPBLOCKS. lia. Qed.

(** The log blocks of the transaction are not among its home blocks. *)
Lemma lhd_apart k : (k < length bl)%nat → (st + Z.of_nat k + 1 ∉ bl) ∧ (st ∉ bl).
Proof. intros Hk. destruct HL as [_ _ _ Hg _ _ _ Hr _ Hh]. split; intros [_ Hx]%Hh; apply Hx; unfold in_log; lia. Qed.

Lemma write_log_ok s v :
  lg s = l → BC (lbio s) v (list_to_set bl) ∅ →
  wp write_log (λ _ s', BC (lbio s') (vapply (log_writes st v bl) v) (list_to_set bl) ∅ ∧ eff s s' (log_writes st v bl)) s.
Proof.
  intros El HB. unfold write_log. wp_steps. rewrite El, (lhd_n _ _ _ _ HL).
  apply (wp_forZ (λ k s', BC (lbio s') (vapply (log_writes st v (take (Z.to_nat k) bl)) v) (list_to_set bl) ∅ ∧
                          eff s s' (log_writes st v (take (Z.to_nat k) bl)))); [lia| |simpl; split; [done|apply eff_refl]|].
  - intros k s1 Hk [HB1 HE1]. apply wp_bind, wp_gets. rewrite (eff_lg _ _ _ HE1), El.
    destruct (lookup_lt_is_Some_2 bl (Z.to_nat k)) as [b Hb]; [lia|]. destruct (lhd_at _ _ Hb) as [Eb Ea]. rewrite Z2Nat.id in Eb, Ea by lia.
    pose proof lhd_pins as [Hsz Hmax]. pose proof (lhd_apart (Z.to_nat k) ltac:(lia)) as [Hap _]. rewrite Z2Nat.id in Hap by lia.
    eapply wp_mono; [|apply (write_log_step s1 _ _ _ _ (st + k + 1) b HB1); [set_solver|apply elem_of_list_to_set; by eapply list_elem_of_lookup_2|lia|apply HL|done|done]].
    assert (vapply (log_writes st v (take (Z.to_nat k) bl)) v b = v b) as ->.
    { apply vapply_notin. rewrite log_writes_keys, length_take. intros Hin.
      apply list_elem_of_lookup_2 in Hb. apply (lhd_home _ _ _ _ HL) in Hb as [_ Hb]. apply Hb. pose proof (lhd_room _ _ _ _ HL). unfold in_log. lia. }
    intros [] s2 [HB2 HE2]. rewrite Z2Nat.inj_add, Nat.add_1_r by lia. unfold log_writes at 1 2. rewrite (imap_take_S _ _ _ _ Hb), vapply_app.
    rewrite Z2Nat.id by lia. split; [exact HB2|]. by eapply eff_trans.
  - intros s1. rewrite Nat2Z.id, take_ge by lia. done.
Qed.

Lemma install_trans_ok s v (recovering : bool) :
  lg s = l → BC (lbio s) v (if recovering then ∅ else list_to_set bl) ∅ →
  wp (install_trans recovering) (λ _ s', BC (lbio s') (vapply (inst_writes st v bl) v) ∅ ∅ ∧ eff s s' (inst_writes st v bl)) s.
Proof.
  intros El HB. unfold install_trans. wp_steps. rewrite El, (lhd_n _ _ _ _ HL).
  apply (wp_forZ (λ k s', BC (lbio s') (vapply (inst_writes st v (take (Z.to_nat k) bl)) v)
                             (if recovering then ∅ else list_to_set (drop (Z.to_nat k) bl)) ∅ ∧
                          eff s s' (inst_writes st v (take (Z.to_nat k) bl)))); [lia| |simpl; rewrite drop_0; split; [done|apply eff_refl]|].
  - intros k s1 Hk [HB1 HE1]. apply wp_bind, wp_gets. rewrite (eff_lg _ _ _ HE1), El.
    destruct (lookup_lt_is_Some_2 bl (Z.to_nat k)) as [b Hb]; [lia|]. destruct (lhd_at _ _ Hb) as [Eb Ea]. rewrite Z2Nat.id in Eb, Ea by lia.
    pose proof lhd_pins as [Hsz Hmax]. pose proof (lhd_apart (Z.to_nat k) ltac:(lia)) as [Hap _]. rewrite Z2Nat.id in Hap by lia.
    pose proof (list_elem_of_lookup_2 _ _ _ Hb) as Hin. pose proof (drop_S _ _ _ Hb) as Hdr. pose proof (lhd_nodup _ _ _ _ HL) as Hnd.
    assert (NoDup (drop (Z.to_nat k) bl)) as Hnd' by (rewrite <-(take_drop (Z.to_nat k) bl) in Hnd; by apply NoDup_app in Hnd as (_ & _ & ?)).
    assert (∀ x, x ∈ drop (Z.to_nat k) bl → x ∈ bl) as Hsub by (intros x Hx; rewrite <-(take_drop (Z.to_nat k) bl); set_solver).
    eapply wp_mono; [|apply (install_step s1 _ _ recovering _ _ (st + k + 1) b HB1); [destruct recovering; set_solver|intros Ex; by rewrite Ex in Hap| | |apply HL|done|done]].
    2:{ destruct recovering; [done|]. rewrite Hdr. set_solver. }
    2:{ destruct recovering; [rewrite size_empty; unfold NBUF; lia|]. rewrite size_list_to_set by done. rewrite length_drop. lia. }
    rewrite vapply_notin by (rewrite inst_writes_keys; intros Hx; apply Hap; rewrite <-(take_drop (Z.to_nat k) bl); set_solver).
    intros [] s2 [HB2 HE2]. rewrite Z2Nat.inj_add, Nat.add_1_r by lia. unfold inst_writes at 1 2. rewrite (imap_take_S _ _ _ _ Hb), vapply_app.
    rewrite Z2Nat.id by lia. split; [|by eapply eff_trans]. destruct recovering; [exact HB2|].
    rewrite Hdr in HB2, Hnd'. apply NoDup_cons in Hnd' as [Hb' _]. cbn [list_to_set] in HB2.
    replace (({[b]} ∪ list_to_set (drop (S (Z.to_nat k)) bl)) ∖ {[b]} : gset Z) with (list_to_set (drop (S (Z.to_nat k)) bl) : gset Z) in HB2; [done|].
    set_solver.
  - intros s1. rewrite Nat2Z.id, take_ge, drop_ge by lia. by destruct recovering.
Qed.
End header.

(** The writes of [commit] and of [recover_from_log]. *)
Definition home_writes (v : Z → list Z) (bl : list Z) : list (Z * list Z) := (λ b, (b, v b)) <$> bl.

Definition commit_writes (st : Z) (v : Z → list Z) (lb bl : list Z) : list (Z * list Z) :=
  match bl with
  | [] => []
  | _ => let h := put_head (Logheader (Z.of_nat (length bl)) lb) (v st) in
         log_writes st v bl ++ [(st, h)] ++ home_writes v bl ++ [(st, put_head (Logheader 0 lb) h)]
  end.

Lemma set_lhn_lhd st sz bl l : lhd st sz bl l → lhd st sz [] (set_lhn 0 l).
Proof. intros [? ? ? ? ? ? ? Hr ? ?]. split; simpl; try done. all: try lia. - constructor. - by intros b ?%elem_of_nil. Qed.

Lemma lhd_header st sz bl l : lhd st sz bl l → lh l = Logheader (Z.of_nat (length bl)) (lh_block (lh l)).
Proof. intros HL. rewrite <-(lhd_n _ _ _ _ HL). by destruct (lh l). Qed.

(** What was written to the log is what is installed. *)
Lemma inst_log_writes st v bl h : inst_writes st (<[st := h]> (vapply (log_writes st v bl) v)) bl = home_writes v bl.
Proof.
  unfold inst_writes, home_writes. rewrite <-imap_const. apply imap_ext. intros i b Hb. simpl. f_equal.
  rewrite fn_lookup_insert_ne by lia. apply vapply_in; [|apply elem_of_lookup_imap; eauto].
  unfold log_writes. rewrite fmap_imap. apply NoDup_alt. intros j k y. rewrite !list_lookup_imap.
  destruct (bl !! j), (bl !! k); simpl; intros [= <-] [= E]. lia.
Qed.

Lemma commit_ok st sz bl s v :
  lhd st sz bl (lg s) → BC (lbio s) v (list_to_set bl) ∅ →
  wp commit (λ _ s', let ws := commit_writes st v (lh_block (lh (lg s))) bl in
    BC (lbio s') (vapply ws v) ∅ ∅ ∧ disk (lbio s') = apply_writes ws (disk (lbio s)) ∧ writes (lbio s') = writes (lbio s) ++ ws ∧
    mypid (lbio s') = mypid (lbio s) ∧ woken s' = woken s ∧ lg s' = set_lhn 0 (lg s)) s.
Proof.
  intros HL HB. unfold commit. apply wp_bind, wp_gets. rewrite (lhd_n _ _ _ _ HL). destruct bl as [|b0 bl0] eqn:Ebl.
  { simpl. wp_steps. split_and!; try done; [by rewrite app_nil_r|]. pose proof (lhd_n _ _ _ _ HL) as En. simpl in En.
    destruct (lg s) as [? ? ? ? ? [n lb]]. simpl in En. by rewrite En. }
  rewrite <-Ebl in *. assert (0 < length bl)%nat as Hpos by (rewrite Ebl; simpl; lia). rewrite (proj2 (Z.ltb_lt _ _)) by lia.
  pose proof (lhd_pins _ _ _ _ HL) as [Hsz Hmax]. destruct (lhd_apart _ _ _ _ HL 0 Hpos) as [_ Hst].
  assert (u32 (start (lg s)) = st) as Est by (rewrite (lhd_start _ _ _ _ HL); apply u32_small; pose proof (lhd_geo _ _ _ _ HL); pose proof (lhd_room _ _ _ _ HL); lia).
  apply wp_bind. eapply wp_mono; [|by apply (write_log_ok _ _ _ _ HL)]. intros [] s1 [HB1 HE1]. pose proof (eff_lg _ _ _ HE1) as L1.
  apply wp_bind. eapply wp_mono; [|apply (write_head_ok s1 _ _ st HB1); [set_solver|lia|rewrite L1; apply HL|by rewrite L1]].
  intros [] s2 [HB2 HE2]. pose proof (eff_lg _ _ _ HE2) as L2. rewrite L1, (lhd_header _ _ _ _ HL) in HB2, HE2. rewrite L1 in L2.
  assert (vapply (log_writes st v bl) v st = v st) as Evst by (apply vapply_notin; rewrite log_writes_keys; lia).
  rewrite Evst in HB2, HE2. set (h := put_head _ (v st)) in *. set (v2 := <[st := h]> _) in HB2.
  apply wp_bind. eapply wp_mono; [|apply (install_trans_ok _ _ _ _ HL s2 _ false L2 HB2)]. intros [] s3 [HB3 HE3].
  unfold v2 in HB3, HE3. rewrite inst_log_writes in HB3, HE3. fold v2 in HB3. pose proof (eff_lg _ _ _ HE3) as L3. rewrite L2 in L3.
  apply wp_bind, wp_modify. set (s4 := Lst (lbio s3) _ _).
  eapply wp_mono; [|apply (write_head_ok s4 _ _ st HB3); [set_solver|rewrite size_empty; unfold NBUF; lia|simpl; rewrite L3; apply HL|simpl; by rewrite L3]].
  intros [] s5 [HB5 HE5].
  assert (vapply (home_writes v bl) v2 st = h) as Eh.
  { rewrite vapply_notin; [unfold v2; apply fn_lookup_insert|]. unfold home_writes. rewrite <-list_fmap_compose. simpl. by rewrite list_fmap_id. }
  assert (lh (lg s4) = Logheader 0 (lh_block (lh (lg s)))) as Elh by (by unfold s4; rewrite L3).
  rewrite Eh, Elh in HB5, HE5. destruct HE5 as [D5 W5 P5 G5 K5]. pose proof (eff_trans _ _ _ _ _ (eff_trans _ _ _ _ _ HE1 HE2) HE3) as HE.
  assert (commit_writes st v (lh_block (lh (lg s))) bl = (log_writes st v bl ++ [(st, h)]) ++ home_writes v bl ++ [(st, put_head (Logheader 0 (lh_block (lh (lg s)))) h)]) as ->.
  { unfold commit_writes. rewrite Ebl at 1. fold h. by rewrite <-app_assoc. }
  destruct HE as [D W P G K]. subst s4. cbn [lbio lg woken] in *. split_and!; try congruence.
  - by rewrite !vapply_app.
  - rewrite D5, D, !apply_writes_app. done.
  - rewrite W5, W. by rewrite <-!app_assoc.
Qed.

(** ** Recovery *)

(** A header that [read_head] can be given: at most [sz - 1] distinct blocks,
    none of the log. *)
Record hdr_ok (st sz : Z) (d : list Z) : Prop := {
  ho_len : length d = Z.to_nat BSIZE;
  ho_n : 0 ≤ hdr_n d < sz;
  ho_nodup : NoDup (hdr d);
  ho_home : ∀ b, b ∈ hdr d → 0 ≤ b < 2 ^ 31 ∧ ¬ in_log st sz b
}.

(** The fields set by [initlog]. *)
Record placed (st sz : Z) (l : log) : Prop := {
  pl_dev : ldev l = ROOTDEV;
  pl_start : start l = st;
  pl_size : lsize l = sz;
  pl_geo : 0 ≤ st ∧ sz ≤ LOGSIZE ∧ st + sz < 2 ^ 31;
  pl_len : length (lh_block (lh l)) = Z.to_nat LOGSIZE
}.

Definition set_lh (h : logheader) (l : log) : log := Log (start l) (lsize l) (outstanding l) (committing l) (ldev l) h.

Lemma length_hdr d : length (hdr d) = Z.to_nat (hdr_n d).
Proof. unfold hdr. by rewrite length_fmap, length_seqZ. Qed.

Lemma read_head_ok st sz s v :
  placed st sz (lg s) → BC (lbio s) v ∅ ∅ → hdr_ok st sz (v st) →
  wp read_head (λ _ s', BC (lbio s') v ∅ ∅ ∧ disk (lbio s') = disk (lbio s) ∧ writes (lbio s') = writes (lbio s) ∧
    mypid (lbio s') = mypid (lbio s) ∧ woken s' = woken s ∧ lhd st sz (hdr (v st)) (lg s') ∧ ∃ h, lg s' = set_lh h (lg s)) s.
Proof.
  intros [Ed Es Ez Hg Hlen] HB [Hl Hn Hnd Hh]. unfold read_head. apply wp_bind, wp_gets. rewrite Ed, Es, u32_small by lia.
  apply wp_bind, (wp_bread s _ _ _ HB); [held|right; rewrite dom_empty_L, union_empty_r_L, size_empty; unfold NBUF; lia|].
  intros i t1 HB1 D1 W1 P1. apply wp_bind. eapply (wp_data_of (Lst t1 _ _) _ _ _ HB1 st); [held|]. apply wp_bind, wp_modify. cbn [lbio lg woken].
  apply wp_bind. apply (wp_forZ (λ k s', ∃ lb, s' = Lst t1 (set_lh (Logheader (hdr_n (v st)) lb) (lg s)) (woken s) ∧
    length lb = Z.to_nat LOGSIZE ∧ take (Z.to_nat k) lb = take (Z.to_nat k) (hdr (v st)))); [lia| |eexists; split_and!; [reflexivity|done|done]|].
  - intros k s' Hk (lb & -> & Hlb & Ht). unfold store_lhblock. rewrite (proj2 (Z.leb_le _ _)), (proj2 (Z.ltb_lt _ _)) by lia. simpl andb. cbv iota.
    apply wp_modify. exists (<[Z.to_nat k := hdr_block (v st) k]> lb). split_and!; [done|by rewrite length_insert|].
    rewrite Z2Nat.inj_add, Nat.add_1_r by lia.
    rewrite (take_S_r _ _ (hdr_block (v st) k)) by (apply list_lookup_insert_eq; unfold LOGSIZE, MAXOPBLOCKS in *; lia).
    rewrite take_insert_ge, Ht by lia. symmetry. apply take_S_r. unfold hdr. rewrite list_lookup_fmap, lookup_seqZ_lt by lia. simpl. by rewrite Z2Nat.id by lia.
  - intros s' (lb & -> & Hlb & Ht). rewrite <-length_hdr, (take_ge (hdr _)) in Ht by lia.
    pose proof (bc_disk _ _ _ _ HB st ltac:(set_solver) ltac:(held)) as Hd.
    eapply (wp_brelse (Lst t1 _ _) _ _ _ HB1 st); [held|right; cbn [lbio]; congruence|]. intros t2 HB2 D2 W2 P2. cbn [lbio lg woken] in *.
    split_and!; try congruence; [| |by eexists].
    + rewrite delete_insert_eq, delete_empty in HB2. eapply BC_ext; [|exact HB2]. intros c.
      destruct (decide (c = st)) as [->|]; [by rewrite fn_lookup_insert|by rewrite fn_lookup_insert_ne].
    + split; simpl; try done; rewrite ?length_hdr; lia.
Qed.

Definition recover_writes (st : Z) (v : Z → list Z) (lb : list Z) : list (Z * list Z) :=
  inst_writes st v (hdr (v st)) ++ [(st, put_head (Logheader 0 lb) (v st))].

Lemma recover_ok st sz s v :
  placed st sz (lg s) → BC (lbio s) v ∅ ∅ → hdr_ok st sz (v st) →
  wp recover_from_log (λ _ s', ∃ lb, let ws := recover_writes st v lb in
    BC (lbio s') (vapply ws v) ∅ ∅ ∧ disk (lbio s') = apply_writes ws (disk (lbio s)) ∧ writes (lbio s') = writes (lbio s) ++ ws ∧
    mypid (lbio s') = mypid (lbio s) ∧ woken s' = woken s ∧ lg s' = set_lh (Logheader 0 lb) (lg s) ∧ lhd st sz [] (lg s')) s.
Proof.
  intros Hpl HB Hho. unfold recover_from_log. apply wp_bind. eapply wp_mono; [|by apply (read_head_ok st sz s v)].
  intros [] s1 (HB1 & D1 & W1 & P1 & K1 & HL & [h Eh]).
  apply wp_bind. eapply wp_mono; [|by apply (install_trans_ok _ _ _ _ HL s1 v true)]. intros [] s2 [HB2 HE2]. pose proof (eff_lg _ _ _ HE2) as L2.
  apply wp_bind, wp_modify. set (s3 := Lst (lbio s2) _ _). assert (u32 (start (lg s3)) = st) as Est.
  { simpl. rewrite L2, (lhd_start _ _ _ _ HL). apply u32_small. pose proof (lhd_geo _ _ _ _ HL). pose proof (lhd_room _ _ _ _ HL). lia. }
  eapply wp_mono; [|apply (write_head_ok s3 _ _ st HB2); [set_solver|rewrite size_empty; unfold NBUF; lia|simpl; rewrite L2; apply HL|done]].
  intros [] s4 [HB4 [D4 W4 P4 L4 K4]]. destruct HE2 as [D2 W2 P2 _ K2].
  assert (lg s4 = set_lh (Logheader 0 (lh_block h)) (lg s)) as E4 by (rewrite L4; simpl; by rewrite L2, Eh).
  assert (vapply (inst_writes st v (hdr (v st))) v st = v st) as Ev.
  { apply vapply_notin. rewrite inst_writes_keys. intros [_ Hx]%(lhd_home _ _ _ _ HL). apply Hx. pose proof (lhd_room _ _ _ _ HL). unfold in_log. lia. }
  assert (lh (lg s3) = Logheader 0 (lh_block h)) as E3 by (simpl; by rewrite L2, Eh).
  exists (lh_block h). unfold recover_writes. rewrite Ev, E3 in *. subst s3. cbn [lbio lg woken] in *. split_and!; try congruence.
  - by rewrite vapply_app.
  - rewrite D4, D2, D1, apply_writes_app. done.
  - rewrite W4, W2, W1. by rewrite <-app_assoc.
  - rewrite L4, L2. by eapply set_lhn_lhd.
Qed.

(** ** Calls of the file system *)

Lemma find_block_spec bl i b :
  (∃ k, bl !! k = Some b ∧ find_block bl i b = i + Z.of_nat k) ∨ ((b ∉ bl) ∧ find_block bl i b = i + Z.of_nat (length bl)).
Proof.
  revert i. induction bl as [|x bl IH]; intros i; simpl; [right; split; [apply not_elem_of_nil|lia]|].
  destruct (Z.eqb_spec x b) as [->|Hne]; [left; exists 0%nat; split; [done|lia]|]. destruct (IH (i + 1)) as [(k & Hk & ->)|[Hb ->]].
  - left. exists (S k). split; [done|lia].
  - right. split; [|lia]. rewrite not_elem_of_cons. split; [congruence|done].
Qed.

(** The blocks of the transaction once [b] is logged. *)
Definition add_block (b : Z) (bl : list Z) : list Z := if decide (b ∈ bl) then bl else bl ++ [b].

Lemma lhd_add st sz bl l b :
  lhd st sz bl l → 0 ≤ b < 2 ^ 31 → ¬ in_log st sz b → (b ∉ bl) → Z.of_nat (length bl) < sz - 1 →
  lhd st sz (bl ++ [b]) (set_lhn (s32 (lh_n (lh l) + 1)) (set_lhblock (Z.of_nat (length bl)) b l)).
Proof.
  intros [? ? ? Hg Hn Ht Hlen Hr Hnd Hh] Hb Hlog Hnew Hroom. unfold LOGSIZE, MAXOPBLOCKS in *. split; simpl; try done.
  - rewrite Hn, s32_id, length_app by lia. simpl. lia.
  - rewrite length_app, Nat2Z.id, Nat.add_1_r. simpl.
    rewrite (take_S_r _ _ b) by (apply list_lookup_insert_eq; lia). rewrite take_insert_ge by lia. by rewrite Ht.
  - by rewrite length_insert.
  - rewrite length_app. simpl. lia.
  - apply NoDup_app. split_and!; [done|set_solver|apply NoDup_singleton].
  - intros c [Hc|Hc]%elem_of_app; [by apply Hh|]. apply list_elem_of_singleton in Hc as ->. done.
Qed.

Lemma set_lhblock_same bl k b l st sz : lhd st sz bl l → bl !! k = Some b → set_lhblock (Z.of_nat k) b l = l.
Proof.
  intros [? ? ? Hg Hn Ht Hlen Hr Hnd Hh] Hk. unfold set_lhblock. rewrite Nat2Z.id, list_insert_id; [by destruct l as [? ? ? ? ? []]|].
  rewrite <-Ht in Hk. by apply lookup_take_Some in Hk as [].
Qed.

Lemma log_write_ok st sz bl s v hd b i x :
  lhd st sz bl (lg s) → BC (lbio s) v (list_to_set bl) hd → hd !! b = Some (i, x) →
  0 ≤ b < 2 ^ 31 → ¬ in_log st sz b → Z.of_nat (length bl) < sz - 1 → 1 ≤ outstanding (lg s) →
  wp (log_write i) (λ _ s', BC (lbio s') v (list_to_set (add_block b bl)) hd ∧ lhd st sz (add_block b bl) (lg s') ∧
    disk (lbio s') = disk (lbio s) ∧ writes (lbio s') = writes (lbio s) ∧ mypid (lbio s') = mypid (lbio s) ∧ woken s' = woken s ∧
    outstanding (lg s') = outstanding (lg s) ∧ committing (lg s') = committing (lg s)) s.
Proof.
  intros HL HB Hhd Hb Hlog Hroom Hout. pose proof HL as [? ? Hz Hg Hn Ht Hlen Hr Hnd Hh]. unfold log_write. apply wp_bind, wp_gets.
  unfold LOGSIZE, MAXOPBLOCKS in *. rewrite Hn, Hz, (proj2 (Z.leb_gt _ _)), (proj2 (Z.leb_gt _ _)), (proj2 (Z.ltb_ge _ _)) by lia. simpl orb. cbv iota.
  apply wp_bind, wp_zoom, wp_bget_at. destruct (bc_held _ _ _ _ HB _ _ _ Hhd) as ((_ & _ & ->) & _ & _). rewrite Nat2Z.id, Ht, s32_id by lia.
  unfold store_lhblock, LOGSIZE, MAXOPBLOCKS. unfold add_block. destruct (find_block_spec bl 0 b) as [(k & Hk & ->)|[Hnew ->]]; rewrite Z.add_0_l.
  - rewrite decide_True by (by eapply list_elem_of_lookup_2). apply lookup_lt_Some in Hk as Hlt.
    rewrite (proj2 (Z.leb_le _ _)), (proj2 (Z.ltb_lt _ _)) by lia. simpl andb. cbv iota. apply wp_bind, wp_modify. cbn [lbio lg woken].
    rewrite (set_lhblock_same _ _ _ _ _ _ HL Hk). destruct (Z.eqb_spec (Z.of_nat k) (Z.of_nat (length bl))); [lia|]. apply wp_ret. done.
  - rewrite decide_False by done. rewrite (proj2 (Z.leb_le _ _)), (proj2 (Z.ltb_lt _ _)) by lia. simpl andb. cbv iota. apply wp_bind, wp_modify.
    cbn [lbio lg woken]. rewrite Z.eqb_refl. apply wp_bind. eapply (wp_bpin (Lst _ _ _) _ _ _ HB b); [done|set_solver|].
    intros t' HB' D' W' P'. apply wp_modify. cbn [lbio lg woken] in *. split_and!; try done.
    + rewrite list_to_set_app_L. simpl. rewrite union_empty_r_L, union_comm_L. done.
    + exact (lhd_add st sz bl (lg s) b HL Hb Hlog Hnew Hroom).
Qed.
