(* ===== verification/Recovery.v ===== *)
(** * Crash safety of the log

    The contents that a disk stands for are its blocks with the logged ones
    installed ([logical]).  Every prefix of the writes of [commit] stands for the
    contents before or after the transaction, and every prefix of the writes of
    [recover_from_log] for the same contents.  The theorems compose these facts
    with the operations: a run of file system calls that crashes at any write,
    and crashes again any number of times while it recovers, is left with the
    contents of some moment at which a group of calls had ended.  The last section
    is about calls that [begin_op] admits and the log cannot hold. *)

From stdpp Require Import functions.
From S2P Require Import Prelude Machine Sync Bytes Bio Log.

(** ** The contents of a disk *)

(** Equal contents outside of the log. *)
Definition agree (st sz : Z) (v w : Z → list Z) : Prop := ∀ b, ¬ in_log st sz b → v b = w b.

#[export] Instance agree_equiv st sz : Equivalence (agree st sz).
Proof.
  split.
  - by intros v b.
  - intros v w H b Hb. by rewrite H.
  - intros u v w H1 H2 b Hb. by rewrite H1, H2.
Qed.

Definition logical (st : Z) (v : Z → list Z) : Z → list Z := vapply (inst_writes st v (hdr (v st))) v.

Lemma hdr_nil d : hdr_n d = 0 → hdr d = [].
Proof. unfold hdr. by intros ->. Qed.

Lemma logical_clean st v : hdr_n (v st) = 0 → logical st v = v.
Proof. unfold logical. by intros ->%hdr_nil. Qed.

Lemma vapply_key ws v v' b : b ∈ ws.*1 → vapply ws v b = vapply ws v' b.
Proof.
  induction ws as [|[a x] ws IH] using rev_ind; [by intros ?%elem_of_nil|]. rewrite fmap_app, elem_of_app, !vapply_app. simpl.
  destruct (decide (a = b)) as [->|Hne]; [by rewrite !fn_lookup_insert|]. rewrite !fn_lookup_insert_ne by done. intros [H| ->%list_elem_of_singleton]; [by apply IH|done].
Qed.

Lemma take_imap {A B} (f : nat → A → B) (l : list A) k : take k (imap f l) = imap f (take k l).
Proof.
  apply list_eq. intros i. rewrite list_lookup_imap. destruct (decide (i < k)%nat).
  - by rewrite !lookup_take_lt, list_lookup_imap by done.
  - by rewrite !lookup_take_ge by lia.
Qed.

Lemma inst_writes_ext st v v' bl :
  (∀ i, (i < length bl)%nat → v (st + Z.of_nat i + 1) = v' (st + Z.of_nat i + 1)) → inst_writes st v bl = inst_writes st v' bl.
Proof. intros H. apply imap_ext. intros i b Hb%lookup_lt_Some. simpl. by rewrite H. Qed.

Lemma hdr_ok_cleared st sz lb d : 0 < sz → length d = Z.to_nat BSIZE → hdr_ok st sz (put_head (Logheader 0 lb) d) ∧ hdr_n (put_head (Logheader 0 lb) d) = 0.
Proof.
  intros Hsz Hd. destruct (hdr_put_head lb d []) as (Hl & Hn & Hh); [done|simpl; lia|by intros b ?%elem_of_nil|done|]. change (Z.of_nat (length [])) with 0 in *.
  split; [|done]. split; rewrite ?Hh; [done|rewrite Hn; lia|constructor|by intros b ?%elem_of_nil].
Qed.

(** ** Recovery keeps the contents at every write *)

Section recover.
Context (st sz : Z) (v : Z → list Z) (lb : list Z) (Hok : hdr_ok st sz (v st)).

Lemma hdr_home : (st ∉ hdr (v st)) ∧ ∀ i, (i < length (hdr (v st)))%nat → (st + Z.of_nat i + 1 ∉ hdr (v st)).
Proof.
  destruct Hok as [_ Hn _ Hh]. split; [|intros i; rewrite length_hdr; intros Hi]; intros [_ Hx]%Hh; apply Hx; unfold in_log; lia.
Qed.

Lemma install_prefix k : let d := vapply (inst_writes st v (take k (hdr (v st)))) v in d st = v st ∧ ∀ b, logical st d b = logical st v b.
Proof.
  intros d. destruct hdr_home as [Hst Hlog]. assert (∀ b, (b ∉ hdr (v st)) → d b = v b) as Hd.
  { intros b Hb. apply vapply_notin. rewrite inst_writes_keys. intros Hx. apply Hb. rewrite <-(take_drop k (hdr (v st))). set_solver. }
  split; [by apply Hd|]. intros b. unfold logical. rewrite (Hd st Hst).
  rewrite (inst_writes_ext st d v) by (intros i Hi; by apply Hd, Hlog). destruct (decide (b ∈ hdr (v st))) as [Hb|Hb].
  - apply vapply_key. by rewrite inst_writes_keys.
  - rewrite !vapply_notin by (by rewrite inst_writes_keys). by apply Hd.
Qed.

Lemma recover_prefix k :
  let d := vapply (take k (recover_writes st v lb)) v in
  hdr_ok st sz (d st) ∧ agree st sz (logical st d) (logical st v) ∧ ((length (recover_writes st v lb) ≤ k)%nat → hdr_n (d st) = 0).
Proof.
  intros d. unfold d, recover_writes. rewrite take_app, length_app. set (bl := hdr (v st)).
  assert (length (inst_writes st v bl) = length bl) as -> by apply length_imap. simpl length.
  destruct (decide (k ≤ length bl)%nat) as [Hk|Hk].
  - replace (k - length bl)%nat with 0%nat by lia. rewrite take_0, app_nil_r.
    assert (take k (inst_writes st v bl) = inst_writes st v (take k bl)) as -> by apply take_imap.
    destruct (install_prefix k) as [E1 E2]. fold bl in E1, E2. rewrite E1. split; [done|]. split; [|lia]. intros b _. apply E2.
  - rewrite (take_ge [_]) by (simpl; lia). rewrite (take_ge (inst_writes st v bl)) by (unfold inst_writes; rewrite length_imap; lia).
    rewrite vapply_app. change (vapply [(st, put_head (Logheader 0 lb) (v st))]) with (λ w : Z → list Z, <[st := put_head (Logheader 0 lb) (v st)]> w).
    cbv beta. rewrite fn_lookup_insert. destruct Hok as [Hlen Hn _ _]. destruct (hdr_ok_cleared st sz lb (v st)) as [H1 H2]; [lia|done|].
    split; [done|]. split; [|done]. rewrite logical_clean by (by rewrite fn_lookup_insert). intros b Hb.
    rewrite fn_lookup_insert_ne; [done|]. intros ->. apply Hb. unfold in_log. lia.
Qed.
End recover.

(** ** A commit is atomic at every write *)

Section commit.
Context (st sz : Z) (bl : list Z) (l : log) (HL : lhd st sz bl l).
Context (v0 v : Z → list Z) (Hlen : length (v0 st) = Z.to_nat BSIZE) (Hclean : hdr_n (v0 st) = 0).
Context (Hsame : ∀ b, (b ∉ bl) → v0 b = v b).

Lemma st_home : (st ∉ bl) ∧ (∀ i, (i < length bl)%nat → (st + Z.of_nat i + 1 ∉ bl)) ∧ v st = v0 st.
Proof.
  destruct HL as [_ _ _ _ _ _ _ Hr _ Hh]. assert (st ∉ bl) as Hst by (intros [_ Hx]%Hh; apply Hx; unfold in_log; lia).
  split_and!; [done| |symmetry; by apply Hsame]. intros i Hi [_ Hx]%Hh. apply Hx. unfold in_log. lia.
Qed.

Notation head1 := (put_head (Logheader (Z.of_nat (length bl)) (lh_block (lh l))) (v st)).

Lemma head1_ok : hdr_ok st sz head1 ∧ hdr head1 = bl.
Proof.
  pose proof HL as [_ _ _ Hg _ Ht _ Hr Hnd Hh]. destruct (hdr_put_head (lh_block (lh l)) (v st) bl) as (H1 & H2 & H3); [done| |by intros b [? _]%Hh| |].
  - unfold LOGSIZE, MAXOPBLOCKS in Hg. lia.
  - by destruct st_home as (_ & _ & ->).
  - split; [|done]. split; rewrite ?H3; [done|lia|done|done].
Qed.

(** Before the header is written. *)
Lemma log_prefix k : let d := vapply (take k (log_writes st v bl)) v0 in d st = v0 st ∧ agree st sz d v0.
Proof.
  intros d. unfold d, log_writes. rewrite take_imap. fold (log_writes st v (take k bl)). pose proof (lhd_room _ _ _ _ HL) as Hr. split.
  - apply vapply_notin. rewrite log_writes_keys. lia.
  - intros b Hb. apply vapply_notin. rewrite log_writes_keys, length_take. intros Hx. apply Hb. unfold in_log. lia.
Qed.

(** After the header is written, and while the blocks are installed. *)
Lemma home_prefix k :
  let d := vapply (take k (home_writes v bl)) (<[st := head1]> (vapply (log_writes st v bl) v0)) in
  d st = head1 ∧ agree st sz (logical st d) v ∧ ((length bl ≤ k)%nat → agree st sz d v).
Proof.
  intros d. destruct st_home as (Hst & Hlog & _). pose proof (lhd_room _ _ _ _ HL) as Hr.
  set (w := <[st := head1]> (vapply (log_writes st v bl) v0)). fold w in d.
  assert (∀ b, (b ∉ bl) → d b = w b) as Hd.
  { intros b Hb. apply vapply_notin. unfold home_writes. rewrite <-fmap_take, <-list_fmap_compose. simpl. rewrite list_fmap_id.
    intros Hx. apply Hb. rewrite <-(take_drop k bl). set_solver. }
  assert (d st = head1) as Hdst by (rewrite Hd by done; apply fn_lookup_insert). split; [done|].
  assert (∀ u b, ¬ in_log st sz b → (∀ c, (c ∉ bl) → u c = w c) → vapply (home_writes v bl) u b = v b) as Hall; [|split].
  { intros u b Hb Hu. destruct (decide (b ∈ bl)) as [Hin|Hni].
    - apply vapply_in; unfold home_writes; [rewrite <-list_fmap_compose; simpl; rewrite list_fmap_id; apply HL|].
      apply list_elem_of_fmap. by exists b.
    - rewrite vapply_notin by (unfold home_writes; rewrite <-list_fmap_compose; simpl; by rewrite list_fmap_id).
      rewrite Hu by done. unfold w. rewrite fn_lookup_insert_ne by (intros ->; apply Hb; unfold in_log; lia).
      rewrite vapply_notin by (rewrite log_writes_keys; intros Hx; apply Hb; unfold in_log; lia). by apply Hsame. }
  - intros b Hb. unfold logical. rewrite Hdst, (proj2 head1_ok).
    assert (inst_writes st d bl = home_writes v bl) as ->; [|by apply Hall].
    rewrite <-(inst_log_writes st v bl head1). apply inst_writes_ext. intros i Hi. rewrite Hd by (by apply Hlog). unfold w.
    rewrite !fn_lookup_insert_ne by lia. apply vapply_key. rewrite log_writes_keys. lia.
  - intros Hk b Hb. unfold d. rewrite take_ge by (unfold home_writes; rewrite length_fmap; lia). by apply Hall.
Qed.

Lemma commit_prefix k :
  let ws := commit_writes st v (lh_block (lh l)) bl in let d := vapply (take k ws) v0 in
  hdr_ok st sz (d st) ∧ (agree st sz (logical st d) v0 ∨ agree st sz (logical st d) v) ∧
  ((length ws ≤ k)%nat → hdr_n (d st) = 0 ∧ agree st sz d v).
Proof.
  intros ws d. pose proof (lhd_room _ _ _ _ HL) as Hr. assert (hdr_ok st sz (v0 st)) as Hok0.
  { split; [done|rewrite Hclean; lia| |]; rewrite hdr_nil by done; [constructor|by intros b ?%elem_of_nil]. }
  assert (ws = [] ∧ bl = [] ∨ ws = log_writes st v bl ++ (st, head1) :: home_writes v bl ++ [(st, put_head (Logheader 0 (lh_block (lh l))) head1)]) as [[Ews Ebl]|Ews].
  { unfold ws, commit_writes. destruct bl; [by left|by right]. }
  { unfold d. rewrite Ews, take_nil. cbn [vapply foldl]. split; [done|]. rewrite logical_clean by done. split; [by left|].
    intros _. split; [done|]. intros b _. apply Hsame. rewrite Ebl. apply not_elem_of_nil. }
  unfold d. rewrite Ews, take_app, length_app. set (k1 := (k - length (log_writes st v bl))%nat). clearbody ws. clear d.
  destruct k1 as [|k1'] eqn:Ek1.
  { rewrite app_nil_r. destruct (log_prefix k) as [E1 E2]. rewrite E1. split; [done|].
    rewrite logical_clean by (by rewrite E1). split; [by left|]. simpl. subst k1. lia. }
  rewrite (take_ge (log_writes st v bl)) by lia. rewrite vapply_app. simpl firstn. rewrite take_app. simpl length. rewrite length_app.
  change (vapply ((st, head1) :: ?ws') ?u) with (vapply ws' (<[st := head1]> u)). rewrite vapply_app. simpl length.
  destruct (k1' - length (home_writes v bl))%nat as [|k2] eqn:Ek2.
  - destruct (home_prefix k1') as (E1 & E2 & _). cbn [firstn vapply foldl]. rewrite E1. destruct head1_ok as [Hh _]. split; [done|]. split; [by right|]. subst k1. lia.
  - rewrite (take_ge (home_writes v bl)) by lia. destruct (home_prefix (length (home_writes v bl))) as (E1 & _ & E2). rewrite firstn_all in E1, E2.
    set (w := vapply (home_writes v bl) _) in *. simpl. rewrite take_nil. simpl. set (head0 := put_head (Logheader 0 _) _).
    destruct (hdr_ok_cleared st sz (lh_block (lh l)) head1) as [H1 H2]; [lia|apply head1_ok|]. fold head0 in H1, H2. rewrite fn_lookup_insert.
    assert (agree st sz (<[st := head0]> w) v) as Hag; [|rewrite logical_clean by (by rewrite fn_lookup_insert); by auto].
    intros b Hb. rewrite fn_lookup_insert_ne by (intros ->; apply Hb; unfold in_log; lia). apply E2; [|done].
    unfold home_writes. by rewrite length_fmap.
Qed.
End commit.

(** ** Calls, groups of calls and their contents *)

(** A call begins, updates a block through [log_write] as the comment above it
    says, or ends. *)
Inductive event := EBegin | EUpdate (b : Z) (f : list Z → list Z) | EEnd.

Definition update (b : Z) (f : list Z → list Z) : M lst unit :=
  bp ← bio (bread ROOTDEV b);
  bio (bupd bp (λ x, set_data (f (bdata x)) x));;
  log_write bp;;
  bio (brelse bp).

Definition exec_event (e : event) : M lst unit :=
  match e with EBegin => begin_op | EUpdate b f => update b f | EEnd => end_op end.

(** What the log promises: the contents the calls see, those that survive a
    crash, the blocks modified since, and the calls in progress. *)
Record contract := Contract { current : Z → list Z; durable : Z → list Z; modified : list Z; calls : Z }.

Section contract.
Context (st sz : Z).

Definition contract_step (e : event) (p : contract) : option contract :=
  match e with
  | EBegin =>
      if Z.of_nat (length (modified p)) + (calls p + 1) * MAXOPBLOCKS <=? LOGSIZE
      then Some (Contract (current p) (durable p) (modified p) (calls p + 1)) else None
  | EUpdate b f =>
      if (0 <=? b) && (b <? 2 ^ 31) && negb ((st <=? b) && (b <? st + sz)) && (1 <=? calls p) && (Z.of_nat (length (modified p)) <? sz - 1)
      then Some (Contract (<[b := f (current p b)]> (current p)) (durable p) (add_block b (modified p)) (calls p)) else None
  | EEnd =>
      if calls p <? 1 then None
      else if calls p =? 1 then Some (Contract (current p) (current p) [] 0)
      else Some (Contract (current p) (durable p) (modified p) (calls p - 1))
  end.

Fixpoint contract_run (es : list event) (p : contract) : option contract :=
  match es with [] => Some p | e :: es' => match contract_step e p with Some p' => contract_run es' p' | None => None end end.

Record INV (s : lst) (p : contract) : Prop := {
  inv_lhd : lhd st sz (modified p) (lg s);
  inv_view : ∃ v, BC (lbio s) v (list_to_set (modified p)) ∅ ∧ agree st sz v (current p);
  inv_head : length (dread (disk (lbio s)) st) = Z.to_nat BSIZE ∧ hdr_n (dread (disk (lbio s)) st) = 0;
  inv_disk : agree st sz (dread (disk (lbio s))) (durable p);
  inv_calls : outstanding (lg s) = calls p ∧ committing (lg s) = 0 ∧ 0 ≤ calls p ≤ 3
}.

(** The disk [d] stands for the contents of [p]. *)
Definition holds (d : gmap Z (list Z)) (p : contract) : Prop :=
  hdr_ok st sz (dread d st) ∧ agree st sz (logical st (dread d)) (durable p).

Lemma logical_ext v w b : (∀ c, v c = w c) → logical st v b = logical st w b.
Proof.
  intros H. unfold logical. rewrite H, (inst_writes_ext st v w) by (intros; apply H). by apply vapply_ext.
Qed.

Lemma INV_holds s p : INV s p → holds (disk (lbio s)) p.
Proof.
  intros [HL _ [Hl Hn] Hd _]. split; [|by rewrite logical_clean]. pose proof (lhd_room _ _ _ _ HL).
  split; rewrite ?hdr_nil by done; [done|rewrite Hn; lia|constructor|by intros b ?%elem_of_nil].
Qed.

(** One event, and the writes it makes. *)
Definition event_post (s : lst) (p p' : contract) (s' : lst) : Prop :=
  INV s' p' ∧ ∃ ws, writes (lbio s') = writes (lbio s) ++ ws ∧ disk (lbio s') = apply_writes ws (disk (lbio s)) ∧
  ∀ k, holds (apply_writes (take k ws) (disk (lbio s))) p ∨ holds (apply_writes (take k ws) (disk (lbio s))) p'.

Lemma event_post_quiet s p p' s' :
  INV s p → INV s' p' → disk (lbio s') = disk (lbio s) → writes (lbio s') = writes (lbio s) → event_post s p p' s'.
Proof.
  intros HI HI' Hd Hw. split; [done|]. exists []. rewrite app_nil_r. split_and!; [done|done|]. intros k. left. rewrite take_nil. by apply INV_holds.
Qed.

Lemma begin_op_ok s p p' : INV s p → contract_step EBegin p = Some p' → wp begin_op (λ _, event_post s p p') s.
Proof.
  intros HI. pose proof HI as [HL Hv Hh Hd (Ho & Hc & Hk)]. simpl. case_match eqn:E; [|done]. intros [= <-]. apply Z.leb_le in E.
  unfold begin_op. wp_steps. rewrite Hc, (lhd_n _ _ _ _ HL), Ho. simpl negb. cbv iota. rewrite (proj2 (Z.ltb_ge _ _)) by lia.
  wp_steps. apply wp_modify. rewrite Ho, s32_id by lia. unfold LOGSIZE, MAXOPBLOCKS in E. apply event_post_quiet; [done| |done|done].
  split; simpl; try done; [|lia]. destruct HL. by split.
Qed.

Lemma update_ok s p p' b f : INV s p → contract_step (EUpdate b f) p = Some p' → wp (update b f) (λ _, event_post s p p') s.
Proof.
  intros HI. pose proof HI as [HL (v & HB & Hv) Hh Hd (Ho & Hc & Hk)]. simpl. case_match eqn:E; [|done]. intros [= <-].
  rewrite !andb_true_iff, negb_true_iff, andb_false_iff, !Z.leb_le, !Z.ltb_lt, Z.leb_gt, Z.ltb_ge in E. destruct E as [[[[Hb1 Hb2] Hb3] Hc1] Hroom].
  assert (¬ in_log st sz b) as Hb by (unfold in_log; lia). pose proof (lhd_pins _ _ _ _ HL) as [Hsz Hmax].
  unfold update. apply wp_bind, (wp_bread s _ _ _ HB); [held|right; rewrite dom_empty_L, union_empty_r_L; lia|]. intros i t1 HB1 D1 W1 P1.
  apply wp_bind. eapply (wp_set_data (Lst t1 _ _) _ _ _ HB1 b i _ f); [held|]. intros t2 HB2 D2 W2 P2. cbn [lbio lg woken] in *.
  apply wp_bind. eapply wp_mono; [|eapply (log_write_ok st sz (modified p) (Lst t2 _ _) _ _ b i _ HL HB2); [held|lia|done|lia|simpl; lia]].
  intros [] s3 (HB3 & HL3 & D3 & W3 & P3 & K3 & O3 & C3). cbn [lbio lg woken] in *.
  eapply (wp_brelse s3 _ _ _ HB3 b i (f (v b))); [held|left; unfold add_block; case_decide; set_solver|]. intros t4 HB4 D4 W4 P4.
  assert (disk t4 = disk (lbio s)) as D by congruence. apply event_post_quiet; [done| |done|simpl; congruence]. split; simpl; rewrite ?D; try done.
  - exists (<[b := f (v b)]> v). split; [by rewrite !delete_insert_eq, delete_empty in HB4|]. intros c Hcl.
    destruct (decide (c = b)) as [->|]; [rewrite !fn_lookup_insert; by rewrite Hv|rewrite !fn_lookup_insert_ne by done; by apply Hv].
  - split_and!; [congruence|congruence|lia|lia].
Qed.

Lemma commit_event s s1 p :
  INV s p → lg s1 = lg s ∨ (∃ o c, lg s1 = Log (start (lg s)) (lsize (lg s)) o c (ldev (lg s)) (lh (lg s))) → lbio s1 = lbio s →
  let p' := Contract (current p) (current p) [] 0 in
  wp commit (λ _ s', (∀ s2, lbio s2 = lbio s' → lhd st sz [] (lg s2) → outstanding (lg s2) = 0 → committing (lg s2) = 0 → event_post s p p' s2) ∧
     lg s' = set_lhn 0 (lg s1) ∧ lhd st sz [] (lg s')) s1.
Proof.
  intros HI Hlg Hbio p'. pose proof HI as [HL (v & HB & Hv) [Hl Hn] Hd (Ho & Hc & Hk)].
  assert (lhd st sz (modified p) (lg s1)) as HL1 by (destruct Hlg as [->|(o & c & ->)]; [done|]; destruct HL; by split).
  rewrite <-Hbio in HB. eapply wp_mono; [|by apply (commit_ok _ _ _ s1 v HL1 HB)]. intros [] s' (HB' & D' & W' & P' & K' & G').
  set (ws := commit_writes _ _ _ _) in *. rewrite Hbio in D', W'. assert (lhd st sz [] (lg s')) as HL' by (rewrite G'; by eapply set_lhn_lhd).
  split; [|done]. intros s2 E2 HL2 Ho2 Hc2.
  assert (∀ b, (b ∉ modified p) → dread (disk (lbio s)) b = v b) as Hsame.
  { intros b Hb. rewrite <-Hbio. apply (bc_disk _ _ _ _ HB); [set_solver|apply lookup_empty]. }
  pose proof (commit_prefix st sz _ _ HL1 (dread (disk (lbio s))) v Hl Hn Hsame) as Hpre. fold ws in Hpre.
  destruct (Hpre (length ws)) as (Hok' & _ & Hend). destruct (Hend ltac:(lia)) as [Hn' Hag']. rewrite firstn_all in Hok', Hn', Hag'.
  assert (agree st sz (dread (disk (lbio s'))) v) as Hd'.
  { intros b Hb. rewrite D', dread_apply. by apply Hag'. }
  split.
  - split; rewrite ?E2; try done.
    + exists (vapply ws v). split; [done|]. intros b Hb. change (current p') with (current p). rewrite <-(Hv b Hb), <-(bc_disk _ _ _ _ HB' b); [by apply Hd'|set_solver|apply lookup_empty].
    + rewrite D', dread_apply. split; [apply Hok'|done].
    + by rewrite Hd', Hv.
  - exists ws. rewrite E2. split_and!; [done|done|]. intros k. destruct (Hpre k) as (Hok & Hor & _).
    assert (∀ b, logical st (dread (apply_writes (take k ws) (disk (lbio s)))) b = logical st (vapply (take k ws) (dread (disk (lbio s)))) b) as El
      by (intros b; apply logical_ext; intros c; apply dread_apply).
    destruct Hor as [Hor|Hor]; [left|right]; (split; [by rewrite dread_apply|]); intros b Hb; rewrite El, Hor by done.
    + by apply Hd.
    + by apply Hv.
Qed.

Lemma end_op_ok s p p' : INV s p → contract_step EEnd p = Some p' → wp end_op (λ _, event_post s p p') s.
Proof.
  intros HI. pose proof HI as [HL Hv Hh Hd (Ho & Hc & Hk)]. simpl. destruct (Z.ltb_spec (calls p) 1) as [|Hge]; [done|].
  unfold end_op. intros Hstep. apply wp_bind, wp_modify, wp_bind, wp_gets. cbn [lg lbio woken committing outstanding set_outstanding].
  rewrite Hc, Ho, s32_id by lia. simpl negb. cbv iota. destruct (Z.eqb_spec (calls p) 1) as [E|Hne]; injection Hstep as <-.
  - rewrite E. simpl Z.eqb. cbv iota. apply wp_bind, wp_modify. cbn [lg lbio woken].
    apply wp_bind. eapply wp_mono; [|apply (commit_event s _ p HI); [right; by eexists _, _|done]].
    intros [] s' (Hpost & G' & HL'). apply wp_bind, wp_modify, wp_modify. apply Hpost; cbn [lg lbio woken]; [done| | |done].
    + destruct HL'. by split.
    + by rewrite G'.
  - rewrite (proj2 (Z.eqb_neq _ _)) by lia. apply wp_modify. apply event_post_quiet; [done| |done|done].
    split; simpl; try done; [|lia]. destruct HL. by split.
Qed.

Lemma event_ok s p p' e : INV s p → contract_step e p = Some p' → wp (exec_event e) (λ _, event_post s p p') s.
Proof. destruct e; simpl exec_event; [apply begin_op_ok|apply update_ok|apply end_op_ok]. Qed.
End contract.

(** ** Booting and crashing *)

(** The state of the kernel when it starts on the disk [d]. *)
Definition log0 : log := Log 0 0 0 0 0 (Logheader 0 (replicate (Z.to_nat LOGSIZE) 0)).
Definition fresh (d : gmap Z (list Z)) (pid : Z) : lst := Lst (bcache0 d pid) log0 0.

Definition boot (st sz : Z) : M lst unit := bio binit;; initlog ROOTDEV st sz.

(** The kernel boots on [d] and crashes after some of the writes of recovery. *)
Definition recovery_crash (st sz pid : Z) (d d' : gmap Z (list Z)) : Prop :=
  ∃ s k, boot st sz (fresh d pid) = Ok tt s ∧ d' = apply_writes (take k (writes (lbio s))) d.

(** However often recovery crashes, it ends with contents that satisfy [Q]. *)
Definition recovers (st sz pid : Z) (d : gmap Z (list Z)) (Q : (Z → list Z) → Prop) : Prop :=
  ∀ d', rtc (recovery_crash st sz pid) d d' → wp (boot st sz) (λ _ s, Q (dread (disk (lbio s)))) (fresh d' pid).

Section runs.
Context (st sz pid : Z) (Hgeo : 0 ≤ st ∧ 0 < sz ≤ LOGSIZE ∧ st + sz < 2 ^ 31).

Definition start_of (d : gmap Z (list Z)) : contract := Contract (logical st (dread d)) (logical st (dread d)) [] 0.

Lemma boot_ok d :
  hdr_ok st sz (dread d st) →
  wp (boot st sz) (λ _ s, INV st sz s (start_of d) ∧ disk (lbio s) = apply_writes (writes (lbio s)) d ∧
                          ∀ k, holds st sz (apply_writes (take k (writes (lbio s))) d) (start_of d)) (fresh d pid).
Proof.
  intros Hok. unfold boot. apply wp_bind, wp_zoom. eapply wp_mono; [|apply binit_ok]. intros [] t (HB & D & W & P).
  unfold initlog. simpl Z.leb. cbv iota. unfold LOGSIZE, MAXOPBLOCKS in Hgeo. do 3 apply wp_bind, wp_modify. cbn [lbio lg woken fresh]. rewrite !s32_id by lia.
  eapply wp_mono; [|apply (recover_ok st sz _ (dread d)); [|exact HB|done]].
  2:{ split; simpl; try done. unfold LOGSIZE, MAXOPBLOCKS. lia. }
  intros [] s' (lb & HB' & D' & W' & P' & K' & G' & HL'). cbn [lbio lg woken] in *. rewrite D in D'. rewrite W in W'. simpl in W'.
  set (ws := recover_writes st (dread d) lb) in *. pose proof (recover_prefix st sz (dread d) lb Hok) as Hpre. fold ws in Hpre.
  destruct (Hpre (length ws)) as (Hok' & Hag' & Hend). specialize (Hend ltac:(lia)). rewrite firstn_all in Hok', Hag', Hend.
  rewrite (logical_clean st (vapply ws (dread d))) in Hag' by done. split_and!.
  - split; rewrite ?D'; try done.
    + by exists (vapply ws (dread d)).
    + rewrite dread_apply. split; [apply Hok'|done].
    + intros b Hb. rewrite dread_apply. by apply Hag'.
    + rewrite G'. done.
  - by rewrite D', W'.
  - intros k. rewrite W'. destruct (Hpre k) as (Hk1 & Hk2 & _). split; [by rewrite dread_apply|]. intros b Hb.
    rewrite (logical_ext st _ (vapply (take k ws) (dread d))) by (intros c; apply dread_apply). by apply Hk2.
Qed.

(** Recovery from a disk that stands for [p] ends with the contents of [p]. *)
Lemma holds_recovers d p : holds st sz d p → recovers st sz pid d (λ v, agree st sz v (durable p)).
Proof.
  intros Hh d' Hcr. assert (holds st sz d' p) as [Hok Hag].
  { induction Hcr as [|d d1 d2 (s & k & Hrun & ->) _ IH]; [done|]. apply IH. destruct Hh as [Hok Hag].
    destruct (wp_run _ _ _ _ _ (boot_ok d Hok) Hrun) as (_ & _ & Hk). destruct (Hk k) as [Hok1 Hag1]. split; [done|]. by rewrite Hag1. }
  eapply wp_mono; [|by apply boot_ok]. intros [] s ([_ _ _ Hd _] & _ & _). by rewrite Hd.
Qed.

Definition run (es : list event) : M lst unit := boot st sz;; forM es exec_event.

Lemma contract_run_snoc es e p :
  contract_run st sz (es ++ [e]) p = match contract_run st sz es p with Some q => contract_step st sz e q | None => None end.
Proof.
  revert p. induction es as [|e' es IH]; intros p; simpl; [by destruct (contract_step st sz e p)|]. by destruct (contract_step st sz e' p).
Qed.

Lemma contract_run_snoc_inv es e p p' :
  contract_run st sz (es ++ [e]) p = Some p' → ∃ q, contract_run st sz es p = Some q ∧ contract_step st sz e q = Some p'.
Proof. rewrite contract_run_snoc. destruct (contract_run st sz es p) as [q|]; [|done]. by exists q. Qed.

Lemma forM_snoc {S A} (l : list A) x (body : A → M S unit) s : forM (l ++ [x]) body s = (forM l body;; body x) s.
Proof.
  revert s. induction l as [|y l IH]; intros s; simpl.
  - unfold mbind, M_bind, mret, M_ret. by destruct (body x s) as [[] ?| | |].
  - unfold mbind, M_bind in *. by destruct (body y s) as [[] s'| | |].
Qed.

Lemma run_snoc es e s0 s : run es s0 = Ok tt s → run (es ++ [e]) s0 = exec_event e s.
Proof.
  unfold run. generalize (boot st sz). intros m. unfold mbind at 1 2, M_bind at 1 2. destruct (m s0) as [[] s1| | |]; try discriminate.
  intros H. rewrite forM_snoc. unfold mbind, M_bind. by rewrite H.
Qed.

(** The contents of a crashed run, after the first [k] of its writes. *)
Definition crash_ok (d : gmap Z (list Z)) (es : list event) (k : nat) (s : lst) : Prop :=
  ∃ j q, (j ≤ length es)%nat ∧ contract_run st sz (take j es) (start_of d) = Some q ∧
    holds st sz (apply_writes (take k (writes (lbio s))) d) q ∧
    ∀ m sm, run (take m es) (fresh d pid) = Ok tt sm → (length (writes (lbio sm)) ≤ k)%nat → (m ≤ length es)%nat → (m ≤ j)%nat.

Lemma crash_ok_snoc d es e q p s1 s2 ws k :
  contract_run st sz es (start_of d) = Some q → contract_step st sz e q = Some p → 
  run es (fresh d pid) = Ok tt s1 → run (es ++ [e]) (fresh d pid) = Ok tt s2 → INV st sz s2 p →
  disk (lbio s1) = apply_writes (writes (lbio s1)) d → disk (lbio s2) = apply_writes (writes (lbio s2)) d →
  writes (lbio s2) = writes (lbio s1) ++ ws →
  (∀ k, holds st sz (apply_writes (take k ws) (disk (lbio s1))) q ∨ holds st sz (apply_writes (take k ws) (disk (lbio s1))) p) →
  (∀ k, crash_ok d es k s1) → crash_ok d (es ++ [e]) k s2.
Proof.
  intros Eq Estep Erun1 Erun2 HI HD1 HD2 HW Hpre Hk.
  assert (contract_run st sz (es ++ [e]) (start_of d) = Some p) as Ep by (by rewrite contract_run_snoc, Eq).
  assert (∀ m sm, run (take m (es ++ [e])) (fresh d pid) = Ok tt sm → (m ≤ length (es ++ [e]))%nat → m = length (es ++ [e]) → sm = s2) as Hlast.
  { intros m sm Hm _ ->. rewrite firstn_all in Hm. congruence. }
  rewrite length_app in Hlast. simpl in Hlast.
  destruct (decide (length (writes (lbio s2)) ≤ k)%nat) as [Hfull|Hpart].
  { exists (length (es ++ [e])), p. rewrite firstn_all, take_ge by done. split_and!; [done|done|rewrite <-HD2; by apply INV_holds|done]. }
  destruct (decide (k ≤ length (writes (lbio s1)))%nat) as [Hold|Hnew].
  - destruct (Hk k) as (j & r & Hj & Hr & Hh & Hdur). exists j, r. rewrite length_app. simpl. split_and!; [lia| | |].
    + by rewrite take_app_le by lia.
    + by rewrite HW, take_app_le by lia.
    + intros m sm Hm Hlen Hle. destruct (decide (m = length es + 1)%nat) as [Em|Hne].
      * rewrite (Hlast m sm) in Hlen by (done || lia). lia.
      * rewrite take_app_le in Hm by lia. apply (Hdur m sm); [done|done|lia].
  - assert (apply_writes (take k (writes (lbio s2))) d = apply_writes (take (k - length (writes (lbio s1))) ws) (disk (lbio s1))) as E.
    { rewrite HW, take_app, (take_ge (writes (lbio s1))), apply_writes_app, HD1 by lia. done. }
    destruct (Hpre (k - length (writes (lbio s1)))%nat) as [Hh|Hh]; rewrite <-E in Hh.
    + exists (length es), q. rewrite length_app, take_app_length. simpl. split_and!; [lia|done|done|].
      intros m sm Hm Hlen Hle. destruct (decide (m = length es + 1)%nat) as [Em|Hne]; [|lia]. rewrite (Hlast m sm) in Hlen by (done || lia). lia.
    + exists (length (es ++ [e])), p. rewrite firstn_all. split_and!; [done|done|done|]. intros. done.
Qed.

Lemma run_ok d es p :
  hdr_ok st sz (dread d st) → contract_run st sz es (start_of d) = Some p →
  wp (run es) (λ _ s, INV st sz s p ∧ disk (lbio s) = apply_writes (writes (lbio s)) d ∧ ∀ k, crash_ok d es k s) (fresh d pid).
Proof.
  intros Hok. revert p. induction es as [|e es IH] using rev_ind; intros p.
  - intros [= <-]. unfold run. simpl. apply wp_bind. eapply wp_mono; [|by apply boot_ok]. intros [] s (HI & HD & Hk). apply wp_ret.
    split_and!; [done|done|]. intros k. exists 0%nat, (start_of d). split_and!; [done|done|apply Hk|simpl; lia].
  - intros (q & Eq & Hstep)%contract_run_snoc_inv.
    destruct (proj1 (wp_ok _ _ _) (IH q Eq)) as ([] & s1 & Erun & HI & HD & Hk).
    destruct (proj1 (wp_ok _ _ _) (event_ok st sz _ _ _ e HI Hstep)) as ([] & s2 & Eev & HI2 & ws & HW & HD2 & Hpre).
    assert (run (es ++ [e]) (fresh d pid) = Ok tt s2) as Erun2 by (rewrite (run_snoc _ _ _ _ Erun); exact Eev).
    assert (disk (lbio s2) = apply_writes (writes (lbio s2)) d) as HD2' by (rewrite HW, apply_writes_app, HD2, HD; done).
    apply (proj2 (wp_ok _ _ _)). exists tt, s2. split; [exact Erun2|].
    split; [exact HI2|]. split; [exact HD2'|]. intros k. eapply crash_ok_snoc; eassumption.
Qed.
End runs.

(** ** Theorems *)

(** C1. The log makes groups of file system calls atomic and durable.  Calls
    that keep to the limits of the log run to the end without a panic.  If the
    machine stops after any number [k] of the writes made to the disk, and stops
    again any number of times during recovery, the recovery that completes leaves
    the blocks outside of the log with the contents of the last moment, among the
    first [j] events, at which no call was in progress; and no event that had
    ended before the crash is lost: when the first [m] events had made at most [k]
    writes, [m] is at most [j]. *)
Theorem log_crash_safe st sz pid d es p :
  0 ≤ st ∧ 0 < sz ≤ LOGSIZE ∧ st + sz < 2 ^ 31 → hdr_ok st sz (dread d st) →
  contract_run st sz es (start_of st d) = Some p →
  wp (run st sz es) (λ _ s, ∀ k, ∃ j q,
    (j ≤ length es)%nat ∧ contract_run st sz (take j es) (start_of st d) = Some q ∧
    recovers st sz pid (apply_writes (take k (writes (lbio s))) d) (λ v, agree st sz v (durable q)) ∧
    ∀ m sm, run st sz (take m es) (fresh d pid) = Ok tt sm → (length (writes (lbio sm)) ≤ k)%nat → (m ≤ length es)%nat → (m ≤ j)%nat)
  (fresh d pid).
Proof.
  intros Hgeo Hok Hrun. eapply wp_mono; [|by apply (run_ok st sz pid Hgeo d es p)]. intros [] s (_ & _ & Hk) k.
  destruct (Hk k) as (j & q & Hj & Hq & Hh & Hdur). exists j, q. split_and!; [done|done|by apply holds_recovers|done].
Qed.

(** A disk of zeroes holds no transaction. *)
Lemma hdr_ok_zero st sz : 0 < sz → hdr_ok st sz (dread ∅ st).
Proof.
  intros Hsz. assert (hdr_n (dread ∅ st) = 0) as Hn by reflexivity.
  split; rewrite ?(hdr_nil _ Hn); [reflexivity|rewrite Hn; lia|constructor|by intros b ?%elem_of_nil].
Qed.

(** Two calls that overlap, and a third one. *)
Definition demo_events : list event :=
  [EBegin; EUpdate 46 (<[0%nat := 1]>); EBegin; EUpdate 47 (<[0%nat := 2]>); EEnd; EUpdate 46 (<[0%nat := 3]>); EEnd;
   EBegin; EUpdate 47 (<[1%nat := 4]>); EEnd].

Lemma demo_admitted c : ∃ p, contract_run 2 30 demo_events (Contract c c [] 0) = Some p.
Proof. unfold demo_events, contract_run, contract_step. cbn. by eexists. Qed.

Lemma log_crash_safe_witness :
  ∃ p, contract_run 2 30 demo_events (start_of 2 ∅) = Some p ∧
  wp (run 2 30 demo_events) (λ _ s, ∀ k, ∃ j q,
    (j ≤ length demo_events)%nat ∧ contract_run 2 30 (take j demo_events) (start_of 2 ∅) = Some q ∧
    recovers 2 30 1 (apply_writes (take k (writes (lbio s))) ∅) (λ v, agree 2 30 v (durable q)) ∧
    ∀ m sm, run 2 30 (take m demo_events) (fresh ∅ 1) = Ok tt sm → (length (writes (lbio sm)) ≤ k)%nat → (m ≤ length demo_events)%nat → (m ≤ j)%nat)
  (fresh ∅ 1).
Proof.
  destruct (demo_admitted (logical 2 (dread ∅))) as [p Hp]. exists p. split; [exact Hp|].
  apply (log_crash_safe 2 30 1 ∅ demo_events p); [unfold LOGSIZE, MAXOPBLOCKS; lia|apply hdr_ok_zero; lia|exact Hp].
Defined.

(** ** Calls the log cannot hold *)

Section overcommit.
Context (st sz : Z).

(** An update of one more block than the log can hold. *)
Lemma update_panics s p b f :
  INV st sz s p → Z.of_nat (length (modified p)) = sz - 1 → update b f s = Panic "too big a transaction".
Proof.
  intros [HL (v & HB & _) _ _ _] Hfull. pose proof (lhd_pins _ _ _ _ HL) as [Hsz Hmax].
  unfold update. apply wp_panic, (wp_bread s _ _ _ HB); [held|right; rewrite dom_empty_L, union_empty_r_L; lia|]. intros i t1 HB1 _ _ _.
  apply wp_panic. eapply (wp_set_data (Lst t1 _ _) _ _ _ HB1 b i _ f); [held|]. intros t2 _ _ _ _. apply bind_panic.
  unfold log_write, gets, mbind, M_bind. simpl. rewrite (lhd_n _ _ _ _ HL), (lhd_size _ _ _ _ HL), Hfull.
  rewrite (proj2 (Z.leb_le (sz - 1) (sz - 1))) by lia. by rewrite orb_true_r.
Qed.

Lemma contract_updates us p :
  1 ≤ calls p → NoDup (modified p ++ us.*1) → Forall (λ b, 0 ≤ b < 2 ^ 31 ∧ ¬ in_log st sz b) us.*1 →
  Z.of_nat (length (modified p ++ us.*1)) ≤ sz - 1 →
  ∃ p', contract_run st sz ((λ u, EUpdate u.1 u.2) <$> us) p = Some p' ∧ modified p' = modified p ++ us.*1.
Proof.
  revert p. induction us as [|[b f] us IH]; intros p Hc Hnd Hh Hlen; simpl; [exists p; by rewrite app_nil_r|].
  rewrite fmap_cons in Hnd, Hh, Hlen. cbn [fst] in *. inversion Hh as [|? ? [Hb Hl] Hh']; subst. rewrite length_app in Hlen. simpl in Hlen.
  rewrite (proj2 (Z.leb_le 0 b)), (proj2 (Z.ltb_lt b _)), (proj2 (Z.leb_le 1 _)), (proj2 (Z.ltb_lt (Z.of_nat _) _)) by lia.
  assert ((st <=? b) && (b <? st + sz) = false) as -> by (apply not_true_iff_false; rewrite andb_true_iff, Z.leb_le, Z.ltb_lt; unfold in_log in Hl; lia). simpl.
  assert (b ∉ modified p) as Hnew by (apply NoDup_app in Hnd as (_ & Hd & _); intros Hin; apply (Hd b Hin), list_elem_of_here).
  assert (add_block b (modified p) = modified p ++ [b]) as Ea by (unfold add_block; by rewrite decide_False).
  destruct (IH (Contract (<[b := f (current p b)]> (current p)) (durable p) (add_block b (modified p)) (calls p))) as (p' & Hr & Hm);
    cbn [modified calls]; rewrite ?Ea, <-?app_assoc in *; [done|done|done|rewrite length_app; simpl; lia|]. exists p'. split; [exact Hr|]. rewrite Hm. cbn [modified]. by rewrite <-app_assoc.
Qed.

Lemma run_panic es es' msg s0 : run st sz es s0 = Panic msg → run st sz (es ++ es') s0 = Panic msg.
Proof.
  unfold run. generalize (boot st sz). intros m. unfold mbind at 1 2, M_bind at 1 2. destruct (m s0) as [[] s1| | |]; try done.
  revert s1. induction es as [|e es IH]; intros s1; [done|]. simpl. unfold mbind, M_bind in *. destruct (exec_event e s1) as [[] s2| | |]; try done. apply IH.
Qed.
End overcommit.

(** C29. [begin_op] admits calls that [log_write] then refuses.  It counts
    [MAXOPBLOCKS] blocks for each call against [LOGSIZE], but [log_write] panics
    when [log.size - 1] blocks are logged, and [log.size] is at most [LOGSIZE].
    So on every disk, whatever the blocks and the changes are, three calls that
    [begin_op] admits and that keep to their limit panic the kernel as soon as
    together they modify [log.size] distinct blocks. *)
Theorem begin_op_overcommits st sz pid d us :
  0 ≤ st ∧ 0 < sz ≤ LOGSIZE ∧ st + sz < 2 ^ 31 → hdr_ok st sz (dread d st) →
  NoDup us.*1 → Forall (λ b, 0 ≤ b < 2 ^ 31 ∧ ¬ in_log st sz b) us.*1 → sz ≤ Z.of_nat (length us) ≤ 3 * MAXOPBLOCKS →
  (∃ s, run st sz (replicate 3 EBegin) (fresh d pid) = Ok tt s ∧ outstanding (lg s) = 3) ∧
  run st sz (replicate 3 EBegin ++ ((λ u, EUpdate u.1 u.2) <$> us)) (fresh d pid) = Panic "too big a transaction".
Proof.
  intros Hgeo Hok Hnd Hh Hlen. set (k := Z.to_nat (sz - 1)). set (c := logical st (dread d)).
  assert (contract_run st sz (replicate 3 EBegin) (start_of st d) = Some (Contract c c [] 3)) as Hb by reflexivity.
  destruct (proj1 (wp_ok _ _ _) (run_ok st sz pid Hgeo d _ _ Hok Hb)) as ([] & s3 & E3 & [_ _ _ _ (Ho & _)] & _). split; [exists s3; split; [exact E3|exact Ho]|].
  destruct (lookup_lt_is_Some_2 us k) as [[b f] Hu]; [unfold k; lia|]. rewrite <-(take_drop_middle us k _ Hu) in Hnd, Hh |- *. rewrite fmap_app in Hnd, Hh.
  apply NoDup_app in Hnd as (Hnd & _). apply Forall_app in Hh as [Hh _].
  destruct (contract_updates st sz (take k us) (Contract c c [] 3)) as (p & Hp & Hm); [simpl; lia|exact Hnd|exact Hh|simpl; rewrite length_fmap, length_take; unfold k; lia|].
  assert (contract_run st sz (replicate 3 EBegin ++ ((λ u, EUpdate u.1 u.2) <$> take k us)) (start_of st d) = Some p) as Hrun by exact Hp.
  destruct (proj1 (wp_ok _ _ _) (run_ok st sz pid Hgeo d _ _ Hok Hrun)) as ([] & s & Es & HI & _).
  rewrite fmap_app, fmap_cons, cons_middle, !app_assoc. apply run_panic. rewrite (run_snoc st sz _ _ _ _ Es).
  apply (update_panics st sz s p b f HI). rewrite Hm. simpl. rewrite length_fmap, length_take. unfold k. lia.
Qed.

Lemma begin_op_overcommits_witness : let us := (λ b, (b, id)) <$> seqZ 100 30 in
  (∃ s, run 2 LOGSIZE (replicate 3 EBegin) (fresh ∅ 1) = Ok tt s ∧ outstanding (lg s) = 3) ∧
  run 2 LOGSIZE (replicate 3 EBegin ++ ((λ u, EUpdate u.1 u.2) <$> us)) (fresh ∅ 1) = Panic "too big a transaction".
Proof.
  intros us. apply (begin_op_overcommits 2 LOGSIZE 1 ∅ us).
  - unfold LOGSIZE, MAXOPBLOCKS. lia.
  - apply hdr_ok_zero. reflexivity.
  - unfold us. rewrite <-list_fmap_compose. apply NoDup_fmap_2; [intros x y E; exact E|apply NoDup_seqZ].
  - unfold us. rewrite <-list_fmap_compose. apply Forall_fmap, Forall_forall. intros b Hb%elem_of_seqZ. unfold in_log, LOGSIZE, MAXOPBLOCKS. simpl. lia.
  - vm_compute. split; discriminate.
Defined.
