(* ===== verification/Fs.v ===== *)
(** * The file system (kernel/fs.c, kernel/fs.h)

    Blocks, inodes, file contents, directories and paths, over the log and the
    buffer cache.  A process runs one file system call at a time; the locks of
    the inodes are sleep locks with their holder. *)

From S2P Require Import Prelude Machine Sync Bytes Bio Log.

(** ** On-disk format (fs.h) *)

Definition ROOTINO : Z := 1.
Definition FSMAGIC : Z := 0x10203040.
Definition NDIRECT : Z := 12.
Definition NINDIRECT : Z := BSIZE / 4.
Definition MAXFILE : Z := NDIRECT + NINDIRECT.
Definition IPB : Z := BSIZE / 64.
Definition BPB : Z := BSIZE * 8.
Definition DIRSIZ : Z := 14.
Definition T_DIR : Z := 1.
Definition T_FILE : Z := 2.
Definition T_DEVICE : Z := 3.

Record superblock := Superblock {
  sb_magic : Z; sb_size : Z; sb_nblocks : Z; sb_ninodes : Z; sb_nlog : Z; sb_logstart : Z; sb_inodestart : Z; sb_bmapstart : Z
}.

Definition IBLOCK (i : Z) (sb : superblock) : Z := u32 (i / IPB + sb_inodestart sb).
Definition BBLOCK (b : Z) (sb : superblock) : Z := u32 (b / BPB + sb_bmapstart sb).

(** [struct dinode], 64 bytes: its fields at the offset [off] of a block. *)
Record dinode := Dinode { d_type : Z; d_major : Z; d_minor : Z; d_nlink : Z; d_size : Z; d_addrs : list Z }.

Definition get_dinode (off : Z) (d : list Z) : dinode :=
  Dinode (s16 (get16 off d)) (s16 (get16 (off + 2) d)) (s16 (get16 (off + 4) d)) (s16 (get16 (off + 6) d)) (get32 (off + 8) d)
    ((λ i, get32 (off + 12 + 4 * i) d) <$> seqZ 0 (NDIRECT + 1)).

Definition put_addrs (off : Z) (addrs : list Z) (d : list Z) : list Z :=
  foldl (λ d i, put32 (off + 12 + 4 * i) (addrs !!! Z.to_nat i) d) d (seqZ 0 (NDIRECT + 1)).

Definition put_dinode (off : Z) (i : dinode) (d : list Z) : list Z :=
  put_addrs off (d_addrs i) (put32 (off + 8) (d_size i) (put16 (off + 6) (u16 (d_nlink i)) (put16 (off + 4) (u16 (d_minor i))
    (put16 (off + 2) (u16 (d_major i)) (put16 off (u16 (d_type i)) d))))).

(** ** In-memory state *)

(** [struct inode] (file.h). *)
Record inode := Inode { i_dev : Z; i_inum : Z; i_ref : Z; i_lock : sleeplock; i_valid : Z; i_disk : dinode }.

#[export] Instance dinode_inhabited : Inhabited dinode := populate (Dinode 0 0 0 0 0 []).
#[export] Instance inode_inhabited : Inhabited inode := populate (Inode 0 0 0 (Sleeplock 0 0) 0 inhabitant).

(** What file system calls need from the address space of the process:
    [copyout] and [copyin] with the page table of the process.  A failing
    [copyin] may have delivered the first bytes. *)
Class UserMem (U : Type) := {
  um_copyout : Z → list Z → U → Z * U;
  um_copyin : Z → Z → U → Z * list Z
}.

Class UserMemLaws (U : Type) `{!UserMem U} := {
  um_out : ∀ a bs u, (um_copyout a bs u).1 = 0 ∨ (um_copyout a bs u).1 = -1;
  um_in : ∀ a n u, (um_copyin a n u).1 = 0 ∧ length (um_copyin a n u).2 = Z.to_nat n ∨
                   (um_copyin a n u).1 = -1 ∧ (length (um_copyin a n u).2 <= Z.to_nat n)%nat;
  um_bytes : ∀ a n u, byte_list (um_copyin a n u).2;
  (** Copying in two steps. *)
  um_out_nil : ∀ a u, um_copyout a [] u = (0, u);
  um_out_app : ∀ a bs bs' u, um_copyout (u64 a) (bs ++ bs') u =
    let '(r, u') := um_copyout (u64 a) bs u in
    if r =? 0 then um_copyout (u64 (a + Z.of_nat (length bs))) bs' u' else (r, u');
  um_in_nil : ∀ a u, um_copyin a 0 u = (0, []);
  um_in_app : ∀ a n n' u, 0 ≤ n → 0 ≤ n' → um_copyin (u64 a) (n + n') u =
    let '(r, bs) := um_copyin (u64 a) n u in
    if r =? 0 then let '(r', bs') := um_copyin (u64 (a + n)) n' u in (r', bs ++ bs') else (r, bs)
}.

Section fs.
Context {U : Type} `{!UserMem U}.

(** The log, the superblock, the inode table, the current directory of the
    process (an index in the table), what [printf] printed, user memory. *)
Record fsys := Fsys { flog : lst; fsb : superblock; itable : list inode; cwd : nat; printed : list string; umem : U }.

Definition set_flog (l : lst) (s : fsys) : fsys := Fsys l (fsb s) (itable s) (cwd s) (printed s) (umem s).
Definition set_fsb (x : superblock) (s : fsys) : fsys := Fsys (flog s) x (itable s) (cwd s) (printed s) (umem s).
Definition set_itable (t : list inode) (s : fsys) : fsys := Fsys (flog s) (fsb s) t (cwd s) (printed s) (umem s).
Definition set_umem (u : U) (s : fsys) : fsys := Fsys (flog s) (fsb s) (itable s) (cwd s) (printed s) u.
Definition printf (m : string) : M fsys unit := modify (λ s, Fsys (flog s) (fsb s) (itable s) (cwd s) (printed s ++ [m]) (umem s)).

Definition lift {A} (m : M lst A) : M fsys A := zoom flog set_flog m.

(** The calls of the lower layers, as the code of this file makes them. *)
Definition bread (dev b : Z) : M fsys nat := lift (bio (Bio.bread dev b)).
Definition brelse (bp : nat) : M fsys unit := lift (bio (Bio.brelse bp)).
Definition log_write (bp : nat) : M fsys unit := lift (Log.log_write bp).
Definition data (bp : nat) : M fsys (list Z) := lift (data_of bp).
Definition modify_data (bp : nat) (f : list Z → list Z) : M fsys unit := lift (bio (bupd bp (λ x, set_data (f (bdata x)) x))).

Definition iat (ip : nat) : M fsys inode := gets (λ s, itable s !!! ip).
Definition iupd (ip : nat) (f : inode → inode) : M fsys unit := modify (λ s, set_itable (alter f ip (itable s)) s).
Definition set_i_dev v i := Inode v (i_inum i) (i_ref i) (i_lock i) (i_valid i) (i_disk i).
Definition set_i_inum v i := Inode (i_dev i) v (i_ref i) (i_lock i) (i_valid i) (i_disk i).
Definition set_i_ref v i := Inode (i_dev i) (i_inum i) v (i_lock i) (i_valid i) (i_disk i).
Definition set_i_lock v i := Inode (i_dev i) (i_inum i) (i_ref i) v (i_valid i) (i_disk i).
Definition set_i_valid v i := Inode (i_dev i) (i_inum i) (i_ref i) (i_lock i) v (i_disk i).
Definition set_i_disk v i := Inode (i_dev i) (i_inum i) (i_ref i) (i_lock i) (i_valid i) v.
Definition set_d_type v d := Dinode v (d_major d) (d_minor d) (d_nlink d) (d_size d) (d_addrs d).
Definition set_d_size v d := Dinode (d_type d) (d_major d) (d_minor d) (d_nlink d) v (d_addrs d).
Definition set_d_addr (k v : Z) d := Dinode (d_type d) (d_major d) (d_minor d) (d_nlink d) (d_size d) (<[Z.to_nat k := v]> (d_addrs d)).
Definition addr_of (i : inode) (k : Z) : Z := d_addrs (i_disk i) !!! Z.to_nat k.

(** Code of the sleep lock of inode [ip]. *)
Definition with_ilock {A} (ip : nat) (m : M (mon sleeplock) A) : M fsys A :=
  zoom (λ s, Mon (i_lock (itable s !!! ip)) false) (λ k s, set_itable (alter (set_i_lock (obj k)) ip (itable s)) s) m.

(** ** Superblock and blocks *)

Definition decode_sb (d : list Z) : superblock :=
  Superblock (get32 0 d) (get32 4 d) (get32 8 d) (get32 12 d) (get32 16 d) (get32 20 d) (get32 24 d) (get32 28 d).

Definition readsb (dev : Z) : M fsys superblock :=
  bp ← bread dev 1;
  d ← data bp;
  brelse bp;;
  mret (decode_sb d).

Definition fsinit (dev : Z) : M fsys unit :=
  x ← readsb dev;
  modify (set_fsb x);;
  if negb (sb_magic x =? FSMAGIC) then panic "invalid file system"
  else lift (initlog dev (sb_logstart x) (sb_nlog x)).

Definition bzero (dev bno : Z) : M fsys unit :=
  bp ← bread dev bno;
  modify_data bp (λ _, zero_block);;
  log_write bp;;
  brelse bp.

(** The bit of block [bi] in a bitmap block. *)
Definition bit_mask (bi : Z) : Z := Z.shiftl 1 (bi mod 8).
Definition bit_set (bi : Z) (d : list Z) : bool := negb (Z.land (byte_at d (bi / 8)) (bit_mask bi) =? 0).
Definition mark (bi : Z) (d : list Z) : list Z := <[Z.to_nat (bi / 8) := u8 (Z.lor (byte_at d (bi / 8)) (bit_mask bi))]> d.
Definition unmark (bi : Z) (d : list Z) : list Z :=
  <[Z.to_nat (bi / 8) := u8 (Z.land (byte_at d (bi / 8)) (Z.lnot (bit_mask bi)))]> d.

(** The inner loop of [balloc] from [bi], for [n] bits at most. *)
Fixpoint find_free (n : nat) (d : list Z) (b size bi : Z) : option Z :=
  match n with
  | O => None
  | S n' =>
      if (bi <? BPB) && (b + bi <? size) then
        if bit_set bi d then find_free n' d b size (bi + 1) else Some bi
      else None
  end.

Definition balloc_body (dev b : Z) : M fsys (Z + Z) :=
  x ← gets fsb;
  if b <? sb_size x then
    bp ← bread dev (BBLOCK b x);
    d ← data bp;
    match find_free (S (Z.to_nat BPB)) d b (sb_size x) 0 with
    | Some bi =>
        modify_data bp (mark bi);;
        log_write bp;;
        brelse bp;;
        bzero dev (b + bi);;
        mret (inr (b + bi))
    | None => brelse bp;; mret (inl (b + BPB))
    end
  else printf "balloc: out of blocks";; mret (inr 0).

(** [balloc(dev)]; [sb.size] is at most 2^31, so [b] does not overflow. *)
Definition balloc (dev : Z) : M fsys Z :=
  x ← gets fsb;
  iterM (S (Z.to_nat (sb_size x / BPB + 1))) (balloc_body dev) 0.

Definition bfree (dev b : Z) : M fsys unit :=
  x ← gets fsb;
  bp ← bread dev (BBLOCK b x);
  d ← data bp;
  if bit_set (b mod BPB) d then
    modify_data bp (unmark (b mod BPB));;
    log_write bp;;
    brelse bp
  else panic "freeing free block".

(** ** Inodes *)

Definition iinit : M fsys unit := forM (seq 0 NINODE) (λ i, iupd i (set_i_lock initsleeplock)).

(** The loop of [iget]: the entry of the inode, if any, and the first free
    one. *)
Fixpoint iget_scan (t : list inode) (ip : nat) (dev inum : Z) (empty : option nat) : option nat * option nat :=
  match t with
  | [] => (None, empty)
  | i :: t' =>
      if (0 <? i_ref i) && (i_dev i =? dev) && (i_inum i =? inum) then (Some ip, empty)
      else iget_scan t' (S ip) dev inum
             (match empty with None => if i_ref i =? 0 then Some ip else None | Some e => Some e end)
  end.

Definition iget (dev inum : Z) : M fsys nat :=
  t ← gets itable;
  match iget_scan t 0 dev inum None with
  | (Some ip, _) => iupd ip (λ i, set_i_ref (s32 (i_ref i + 1)) i);; mret ip
  | (None, None) => panic "iget: no inodes"
  | (None, Some ip) =>
      iupd ip (set_i_dev dev);;
      iupd ip (set_i_inum inum);;
      iupd ip (set_i_ref 1);;
      iupd ip (set_i_valid 0);;
      mret ip
  end.

Definition ialloc_body (dev type inum : Z) : M fsys (Z + option nat) :=
  x ← gets fsb;
  if inum <? sb_ninodes x then
    bp ← bread dev (IBLOCK inum x);
    d ← data bp;
    if d_type (get_dinode (64 * (inum mod IPB)) d) =? 0 then
      modify_data bp (put_dinode (64 * (inum mod IPB)) (Dinode type 0 0 0 0 (replicate 13 0)));;
      log_write bp;;
      brelse bp;;
      ip ← iget dev inum;
      mret (inr (Some ip))
    else brelse bp;; mret (inl (inum + 1))
  else printf "ialloc: no inodes";; mret (inr None).

Definition ialloc (dev type : Z) : M fsys (option nat) :=
  x ← gets fsb;
  iterM (S (Z.to_nat (sb_ninodes x))) (ialloc_body dev type) 1.

Definition iupdate (ip : nat) : M fsys unit :=
  i ← iat ip;
  x ← gets fsb;
  bp ← bread (i_dev i) (IBLOCK (i_inum i) x);
  modify_data bp (put_dinode (64 * (i_inum i mod IPB)) (i_disk i));;
  log_write bp;;
  brelse bp.

Definition idup (ip : nat) : M fsys nat := iupd ip (λ i, set_i_ref (s32 (i_ref i + 1)) i);; mret ip.

(** [ilock(ip)]; pointers to inodes are indices in the table, never null. *)
Definition ilock (ip : nat) : M fsys unit :=
  pid ← gets (λ s, mypid (lbio (flog s)));
  i ← iat ip;
  if i_ref i <? 1 then panic "ilock"
  else
    with_ilock ip (acquiresleep pid);;
    i ← iat ip;
    if i_valid i =? 0 then
      x ← gets fsb;
      bp ← bread (i_dev i) (IBLOCK (i_inum i) x);
      d ← data bp;
      iupd ip (set_i_disk (get_dinode (64 * (i_inum i mod IPB)) d));;
      brelse bp;;
      iupd ip (set_i_valid 1);;
      i ← iat ip;
      if d_type (i_disk i) =? 0 then panic "ilock: no type" else mret tt
    else mret tt.

Definition iunlock (ip : nat) : M fsys unit :=
  pid ← gets (λ s, mypid (lbio (flog s)));
  i ← iat ip;
  if negb (holdingsleep pid (i_lock i)) || (i_ref i <? 1) then panic "iunlock"
  else with_ilock ip releasesleep.

(** ** Contents of inodes *)

Definition set_addr (ip : nat) (k v : Z) : M fsys unit := iupd ip (λ i, set_i_disk (set_d_addr k v (i_disk i)) i).

Definition bmap (ip : nat) (bn : Z) : M fsys Z :=
  i ← iat ip;
  if bn <? NDIRECT then
    if addr_of i bn =? 0 then
      addr ← balloc (i_dev i);
      if addr =? 0 then mret 0 else set_addr ip bn addr;; mret addr
    else mret (addr_of i bn)
  else
    let bn := bn - NDIRECT in
    if bn <? NINDIRECT then
      addr ← (if addr_of i NDIRECT =? 0 then
                addr ← balloc (i_dev i);
                if addr =? 0 then mret 0 else set_addr ip NDIRECT addr;; mret addr
              else mret (addr_of i NDIRECT));
      if addr =? 0 then mret 0
      else
        bp ← bread (i_dev i) addr;
        a ← data bp;
        addr ← (if get32 (4 * bn) a =? 0 then
                  addr ← balloc (i_dev i);
                  (if negb (addr =? 0) then modify_data bp (put32 (4 * bn) addr);; log_write bp else mret tt);;
                  mret addr
                else mret (get32 (4 * bn) a));
        brelse bp;;
        mret addr
    else panic "bmap: out of range".

Definition itrunc (ip : nat) : M fsys unit :=
  forM (seqZ 0 NDIRECT) (λ k,
    i ← iat ip;
    if negb (addr_of i k =? 0) then bfree (i_dev i) (addr_of i k);; set_addr ip k 0 else mret tt);;
  i ← iat ip;
  (if negb (addr_of i NDIRECT =? 0) then
     bp ← bread (i_dev i) (addr_of i NDIRECT);
     a ← data bp;
     forM (seqZ 0 NINDIRECT) (λ j,
       if negb (get32 (4 * j) a =? 0) then bfree (i_dev i) (get32 (4 * j) a) else mret tt);;
     brelse bp;;
     bfree (i_dev i) (addr_of i NDIRECT);;
     set_addr ip NDIRECT 0
   else mret tt);;
  iupd ip (λ i, set_i_disk (set_d_size 0 (i_disk i)) i);;
  iupdate ip.

Definition iput (ip : nat) : M fsys unit :=
  pid ← gets (λ s, mypid (lbio (flog s)));
  i ← iat ip;
  (if (i_ref i =? 1) && negb (i_valid i =? 0) && (d_nlink (i_disk i) =? 0) then
     with_ilock ip (acquiresleep pid);;
     itrunc ip;;
     iupd ip (λ i, set_i_disk (set_d_type 0 (i_disk i)) i);;
     iupdate ip;;
     iupd ip (set_i_valid 0);;
     with_ilock ip releasesleep
   else mret tt);;
  iupd ip (λ i, set_i_ref (s32 (i_ref i - 1)) i).

Definition iunlockput (ip : nat) : M fsys unit := iunlock ip;; iput ip.

(** [struct stat]. *)
Record stat := Stat { st_dev : Z; st_ino : Z; st_type : Z; st_nlink : Z; st_size : Z }.

Definition stati (ip : nat) : M fsys stat :=
  i ← iat ip;
  mret (Stat (s32 (i_dev i)) (i_inum i) (d_type (i_disk i)) (d_nlink (i_disk i)) (d_size (i_disk i))).

(** [either_copyout] and [either_copyin] (kernel/proc.c): the other side is a
    user address, or a buffer of the kernel, whose bytes are the result of a read
    and the argument of a write. *)
Inductive target := ToKernel | ToUser (a : Z).
Inductive source := FromKernel (bs : list Z) | FromUser (a : Z).

Definition either_copyout (t : target) (done : Z) (bs : list Z) : M fsys (Z * list Z) :=
  match t with
  | ToKernel => mret (0, bs)
  | ToUser a =>
      s ← getS;
      let '(r, u) := um_copyout (u64 (a + done)) bs (umem s) in
      putS (set_umem u s);; mret (r, [])
  end.

Definition either_copyin (t : source) (done n : Z) : M fsys (Z * list Z) :=
  match t with
  | FromKernel bs => mret (0, take (Z.to_nat n) (drop (Z.to_nat done) bs))
  | FromUser a => s ← getS; mret (um_copyin (u64 (a + done)) n (umem s))
  end.

(** [m] bytes of a block from [o], and a block with bytes [bs] stored at [o]. *)
Definition slice (o m : Z) (d : list Z) : list Z := take (Z.to_nat m) (drop (Z.to_nat o) d).
Definition splice (o : Z) (bs d : list Z) : list Z := take (Z.to_nat o) d ++ bs ++ drop (Z.to_nat o + length bs) d.

(** The loop of [readi]; [acc] are the bytes copied to a kernel buffer. *)
Definition readi_body (ip : nat) (t : target) (n : Z) (x : Z * Z * list Z) : M fsys ((Z * Z * list Z) + (Z * list Z)) :=
  let '(tot, off, acc) := x in
  if tot <? n then
    addr ← bmap ip (off / BSIZE);
    if addr =? 0 then mret (inr (tot, acc))
    else
      i ← iat ip;
      bp ← bread (i_dev i) addr;
      let m := Z.min (n - tot) (BSIZE - off mod BSIZE) in
      d ← data bp;
      r ← either_copyout t tot (slice (off mod BSIZE) m d);
      brelse bp;;
      if r.1 =? -1 then mret (inr (u32 (-1), acc ++ r.2))
      else mret (inl (tot + m, off + m, acc ++ r.2))
  else mret (inr (tot, acc)).

(** [readi(ip, user_dst, dst, off, n)]: its result, and what it copied to a
    kernel buffer. *)
Definition readi (ip : nat) (t : target) (off n : Z) : M fsys (Z * list Z) :=
  i ← iat ip;
  if (d_size (i_disk i) <? off) || (u32 (off + n) <? off) then mret (0, [])
  else
    let n := if d_size (i_disk i) <? u32 (off + n) then d_size (i_disk i) - off else n in
    r ← iterM (S (S (Z.to_nat (n / BSIZE + 1)))) (readi_body ip t n) (0, off, []);
    mret (s32 r.1, r.2).

Definition writei_body (ip : nat) (t : source) (n : Z) (x : Z * Z) : M fsys ((Z * Z) + (Z * Z)) :=
  let '(tot, off) := x in
  if tot <? n then
    addr ← bmap ip (off / BSIZE);
    if addr =? 0 then mret (inr (tot, off))
    else
      i ← iat ip;
      bp ← bread (i_dev i) addr;
      let m := Z.min (n - tot) (BSIZE - off mod BSIZE) in
      r ← either_copyin t tot m;
      modify_data bp (splice (off mod BSIZE) r.2);;
      if r.1 =? -1 then brelse bp;; mret (inr (tot, off))
      else log_write bp;; brelse bp;; mret (inl (tot + m, off + m))
  else mret (inr (tot, off)).

Definition writei (ip : nat) (t : source) (off n : Z) : M fsys Z :=
  i ← iat ip;
  if (d_size (i_disk i) <? off) || (u32 (off + n) <? off) then mret (-1)
  else if MAXFILE * BSIZE <? u32 (off + n) then mret (-1)
  else
    r ← iterM (S (S (Z.to_nat (n / BSIZE + 1)))) (writei_body ip t n) (0, off);
    i ← iat ip;
    (if d_size (i_disk i) <? r.2 then iupd ip (λ i, set_i_disk (set_d_size r.2 (i_disk i)) i) else mret tt);;
    iupdate ip;;
    mret (s32 r.1).

(** ** Directories *)

(** C strings are lists of bytes; the end of the list reads as 0. *)
Fixpoint strncmp_bytes (n : nat) (i : Z) (s t : list Z) : Z :=
  match n with
  | O => 0
  | S n' => if negb (byte_at s i =? 0) && (byte_at s i =? byte_at t i) then strncmp_bytes n' (i + 1) s t
            else byte_at s i - byte_at t i
  end.

Fixpoint strncpy_bytes (n : nat) (t : list Z) : list Z :=
  match n with
  | O => []
  | S n' => match t with
            | [] => replicate n 0
            | c :: t' => if c =? 0 then replicate n 0 else c :: strncpy_bytes n' t'
            end
  end.

Definition namecmp (s t : list Z) : Z := strncmp_bytes (Z.to_nat DIRSIZ) 0 s t.

(** [struct dirent]: [inum] and [name]. *)
Definition de_inum (de : list Z) : Z := get16 0 de.
Definition de_name (de : list Z) : list Z := drop 2 de.
Definition mk_dirent (inum : Z) (name : list Z) : list Z := put16 0 (u16 inum) (0 :: 0 :: strncpy_bytes (Z.to_nat DIRSIZ) name).

Definition read_dirent (dp : nat) (off : Z) (msg : string) : M fsys (list Z) :=
  r ← readi dp ToKernel off 16;
  if negb (r.1 =? 16) then panic msg else mret r.2.

Definition dirlookup_body (dp : nat) (name : list Z) (off : Z) : M fsys (Z + option (nat * Z)) :=
  i ← iat dp;
  if off <? d_size (i_disk i) then
    de ← read_dirent dp off "dirlookup read";
    if de_inum de =? 0 then mret (inl (u32 (off + 16)))
    else if namecmp name (de_name de) =? 0 then
      ip ← iget (i_dev i) (de_inum de);
      mret (inr (Some (ip, off)))
    else mret (inl (u32 (off + 16)))
  else mret (inr None).

(** [dirlookup(dp, name, poff)]: the inode and the offset of its entry. *)
Definition dirlookup (dp : nat) (name : list Z) : M fsys (option (nat * Z)) :=
  i ← iat dp;
  if negb (d_type (i_disk i) =? T_DIR) then panic "dirlookup not DIR"
  else iterM (S (Z.to_nat (d_size (i_disk i) / 16 + 1))) (dirlookup_body dp name) 0.

Definition dirlink_body (dp : nat) (off : Z) : M fsys (Z + Z) :=
  i ← iat dp;
  if off <? d_size (i_disk i) then
    de ← read_dirent dp off "dirlink read";
    if de_inum de =? 0 then mret (inr off) else mret (inl (off + 16))
  else mret (inr off).

Definition dirlink (dp : nat) (name : list Z) (inum : Z) : M fsys Z :=
  r ← dirlookup dp name;
  match r with
  | Some (ip, _) => iput ip;; mret (-1)
  | None =>
      i ← iat dp;
      off ← iterM (S (Z.to_nat (d_size (i_disk i) / 16 + 1))) (dirlink_body dp) 0;
      r ← writei dp (FromKernel (mk_dirent inum name)) off 16;
      if negb (r =? 16) then mret (-1) else mret 0
  end.

(** ** Paths *)

Definition slash : Z := 47.

Fixpoint skip_slashes (path : list Z) : list Z :=
  match path with c :: path' => if c =? slash then skip_slashes path' else path | [] => [] end.

(** The characters of [path] up to the next slash or the end, and the rest. *)
Fixpoint span_elem (path : list Z) : list Z * list Z :=
  match path with
  | c :: path' => if (c =? slash) || (c =? 0) then ([], path) else let '(e, r) := span_elem path' in (c :: e, r)
  | [] => ([], [])
  end.

(** [skipelem(path, name)]: the rest of the path and the new contents of the
    buffer [name] of [DIRSIZ] bytes; [None] if there is no element. *)
Definition skipelem (path name : list Z) : option (list Z * list Z) :=
  let path := skip_slashes path in
  if byte_at path 0 =? 0 then None
  else
    let '(e, rest) := span_elem path in
    let len := Z.of_nat (length e) in
    let name' := if DIRSIZ <=? len then take (Z.to_nat DIRSIZ) e
                 else <[Z.to_nat len := 0]> (e ++ drop (Z.to_nat len) name) in
    Some (skip_slashes rest, name').

Definition namex_body (nameiparent : bool) (x : nat * list Z * list Z) : M fsys ((nat * list Z * list Z) + (option nat * list Z)) :=
  let '(ip, path, name) := x in
  match skipelem path name with
  | None =>
      if nameiparent then iput ip;; mret (inr (None, name)) else mret (inr (Some ip, name))
  | Some (path, name) =>
      ilock ip;;
      i ← iat ip;
      if negb (d_type (i_disk i) =? T_DIR) then iunlockput ip;; mret (inr (None, name))
      else if nameiparent && (byte_at path 0 =? 0) then iunlock ip;; mret (inr (Some ip, name))
      else
        next ← dirlookup ip name;
        match next with
        | None => iunlockput ip;; mret (inr (None, name))
        | Some (next, _) => iunlockput ip;; mret (inl (next, path, name))
        end
  end.

(** [namex(path, nameiparent, name)]: the inode and the contents of [name]. *)
Definition namex (path : list Z) (nameiparent : bool) (name : list Z) : M fsys (option nat * list Z) :=
  ip ← (if byte_at path 0 =? slash then iget ROOTDEV ROOTINO else c ← gets cwd; idup c);
  iterM (S (length path)) (namex_body nameiparent) (ip, path, name).

Definition namei (path : list Z) : M fsys (option nat) :=
  r ← namex path false (replicate (Z.to_nat DIRSIZ) 0);
  mret r.1.

Definition nameiparent (path name : list Z) : M fsys (option nat * list Z) := namex path true name.
End fs.
