(* ===== verification/Fsrules.v ===== *)
(** * Blocks of the file system inside a transaction

    Rules for the calls the file system makes to the cache and the log, and the
    block allocator: [bzero], [balloc], [bfree]. *)

From stdpp Require Import functions.
From S2P Require Import Prelude Machine Sync Bytes Bio Log Fs.

(** ** The state of a transaction *)

(** What does not change while a call runs: the place of the log, the disk and
    the writes made to it, the process, the calls in progress. *)
Record txenv := Txenv { te_start : Z; te_size : Z; te_disk : gmap Z (list Z); te_writes : list (Z * list Z); te_pid : Z; te_calls : Z; te_committing : Z }.

Section tx.
Context {U : Type} `{!UserMem U} (e : txenv).
Notation fsys := (fsys (U := U)).

(** The call sees the contents [v]; the blocks [bl] are logged; the buffers [hd]
    are held. *)
Record TX (s : fsys) (v : Z → list Z) (bl : list Z) (hd : gmap Z (nat * list Z)) : Prop := {
  tx_bc : BC (lbio (flog s)) v (list_to_set bl) hd;
  tx_lhd : lhd (te_start e) (te_size e) bl (lg (flog s));
  tx_clean : ∀ b, (b ∉ bl) → dread (te_disk e) b = v b;
  tx_disk : disk (lbio (flog s)) = te_disk e;
  tx_writes : writes (lbio (flog s)) = te_writes e;
  tx_pid : mypid (lbio (flog s)) = te_pid e;
  tx_calls : outstanding (lg (flog s)) = te_calls e ∧ 1 ≤ te_calls e;
  tx_committing : committing (lg (flog s)) = te_committing e
}.

Lemma wp_lift {A} (m : M lst A) (Q : A → fsys → Prop) s : wp m (λ a l, Q a (set_flog l s)) (flog s) → wp (lift m) Q s.
Proof. apply wp_zoom. Qed.

Section rules.
Context (s : fsys) (v : Z → list Z) (bl : list Z) (hd : gmap Z (nat * list Z)) (HT : TX s v bl hd).

(** A block outside of the log. *)
Definition home (b : Z) : Prop := 0 ≤ b < 2 ^ 31 ∧ ¬ in_log (te_start e) (te_size e) b.

Lemma wp_fs_bread b (Q : nat → fsys → Prop) :
  hd !! b = None → (length bl + size hd < NBUF)%nat →
  (∀ i l, TX (set_flog l s) v bl (<[b := (i, v b)]> hd) → Q i (set_flog l s)) → wp (bread ROOTDEV b) Q s.
Proof.
  destruct HT as [HB HL Hc Hd Hw Hp Ho Hcm]. intros Hb Hroom HQ. apply wp_lift.
  apply (wp_bread (flog s) v (list_to_set bl) hd HB); [done| |].
  - right. rewrite size_union_alt, size_list_to_set by apply HL.
    pose proof (size_dom hd) as Hsd. pose proof (subseteq_size (dom hd ∖ list_to_set bl) (dom hd) ltac:(set_solver)). lia.
  - intros i t' HB' D' W' P'. apply HQ. split; simpl; try done; try congruence.
Qed.

Lemma wp_fs_data b i x (Q : list Z → fsys → Prop) : hd !! b = Some (i, x) → Q x s → wp (data i) Q s.
Proof.
  intros Hb HQ. apply wp_lift. apply (wp_data_of _ _ _ _ (tx_bc _ _ _ _ HT) b i x); [done|]. by destruct s.
Qed.

Lemma wp_fs_modify b i x f (Q : unit → fsys → Prop) :
  hd !! b = Some (i, x) → (∀ l, TX (set_flog l s) v bl (<[b := (i, f x)]> hd) → Q tt (set_flog l s)) → wp (modify_data i f) Q s.
Proof.
  destruct HT as [HB HL Hc Hd Hw Hp Ho Hcm]. intros Hb HQ. apply wp_lift. apply (wp_set_data _ _ _ _ HB b i x f); [done|].
  intros t' HB' D' W' P'. apply HQ. split; simpl; try done; congruence.
Qed.

Lemma wp_fs_log_write b i x (Q : unit → fsys → Prop) :
  hd !! b = Some (i, x) → home b → Z.of_nat (length bl) < te_size e - 1 →
  (∀ l, TX (set_flog l s) v (add_block b bl) hd → Q tt (set_flog l s)) → wp (Fs.log_write i) Q s.
Proof.
  destruct HT as [HB HL Hc Hd Hw Hp [Ho Ho1] Hcm]. intros Hb [Hr Hl] Hroom HQ. apply wp_lift.
  eapply wp_mono; [|apply (log_write_ok _ _ _ _ _ _ b i x HL HB Hb Hr Hl Hroom); lia].
  intros [] l (HB' & HL' & D' & W' & P' & _ & O' & C'). apply HQ. split; simpl; try done; try congruence.
  - intros c Hc'. apply Hc. unfold add_block in Hc'. case_decide; set_solver.
  - split; congruence.
Qed.

Lemma wp_fs_brelse b i x (Q : unit → fsys → Prop) :
  hd !! b = Some (i, x) → b ∈ bl ∨ x = v b →
  (∀ l, TX (set_flog l s) (<[b := x]> v) bl (delete b hd) → Q tt (set_flog l s)) → wp (brelse i) Q s.
Proof.
  destruct HT as [HB HL Hc Hd Hw Hp Ho Hcm]. intros Hb Hx HQ. apply wp_lift.
  assert (b ∈ bl ∨ dread (te_disk e) b = x) as Hx'.
  { destruct (decide (b ∈ bl)) as [|Hn]; [by left|]. right. rewrite Hc by done. destruct Hx; [done|congruence]. }
  apply (wp_brelse _ _ _ _ HB b i x); [done| |].
  - rewrite Hd. destruct Hx'; [left; set_solver|by right].
  - intros t' HB' D' W' P'. apply HQ. split; simpl; try done; try congruence. intros c Hcn.
    destruct (decide (c = b)) as [->|]; [rewrite fn_lookup_insert; by destruct Hx'|]. rewrite fn_lookup_insert_ne by done. by apply Hc.
Qed.
End rules.

Lemma TX_ext s v v' bl hd : (∀ b, v b = v' b) → TX s v bl hd → TX s v' bl hd.
Proof.
  intros E [HB HL Hc Hd Hw Hp Ho Hcm]. split; try done; [by eapply BC_ext|]. intros b Hb. rewrite <-E. by apply Hc.
Qed.

(** The state outside of the log does not matter. *)
Lemma TX_frame s s' v bl hd : flog s' = flog s → TX s v bl hd → TX s' v bl hd.
Proof. intros E []. split; rewrite ?E; done. Qed.

(** Releasing a buffer that was only read. *)
Lemma wp_fs_brelse_same s v bl hd b i (Q : unit → fsys → Prop) :
  TX s v bl (<[b := (i, v b)]> hd) → hd !! b = None → (∀ l, TX (set_flog l s) v bl hd → Q tt (set_flog l s)) → wp (brelse i) Q s.
Proof.
  intros HT Hb HQ. eapply (wp_fs_brelse _ _ _ _ HT b); [apply lookup_insert_eq|by right|]. intros l HT'. apply HQ.
  rewrite delete_insert_eq, delete_id in HT' by done. eapply TX_ext; [|exact HT']. intros c.
  destruct (decide (c = b)) as [->|]; [by rewrite fn_lookup_insert|by rewrite fn_lookup_insert_ne].
Qed.

(** Changing a held block through the log, as the code does. *)
Lemma wp_fs_update {A} s v bl hd b i x f (k : M fsys A) Q :
  TX s v bl (<[b := (i, x)]> hd) → hd !! b = None → home b → Z.of_nat (length bl) < te_size e - 1 →
  (∀ l, TX (set_flog l s) (<[b := f x]> v) (add_block b bl) hd → wp k Q (set_flog l s)) →
  wp (modify_data i f;; Fs.log_write i;; brelse i;; k) Q s.
Proof.
  intros HT Hb Hh Hr HQ. apply wp_bind. eapply (wp_fs_modify _ _ _ _ HT b); [apply lookup_insert_eq|]. intros l1 H1.
  apply wp_bind. eapply (wp_fs_log_write _ _ _ _ H1 b); [apply lookup_insert_eq|done|done|]. intros l2 H2.
  apply wp_bind. eapply (wp_fs_brelse _ _ _ _ H2 b); [apply lookup_insert_eq|left; unfold add_block; case_decide; set_solver|].
  intros l3 H3. apply (HQ l3). by rewrite !delete_insert_eq, delete_id in H3.
Qed.

Lemma wp_ret_r {S} (m : M S unit) (Q : unit → S → Prop) (s : S) : wp (m;; mret tt) Q s → wp m Q s.
Proof. intros H. apply wp_bind_inv in H. eapply wp_mono; [|exact H]. by intros [] ?. Qed.

Lemma wp_fs_update_end s v bl hd b i x f Q :
  TX s v bl (<[b := (i, x)]> hd) → hd !! b = None → home b → Z.of_nat (length bl) < te_size e - 1 →
  (∀ l, TX (set_flog l s) (<[b := f x]> v) (add_block b bl) hd → Q tt (set_flog l s)) →
  wp (modify_data i f;; Fs.log_write i;; brelse i) Q s.
Proof.
  intros HT Hb Hh Hr HQ. apply wp_ret_r. assert (∀ m1 m2 m3 : M fsys unit, ∀ s', ((m1;; m2;; m3);; mret tt) s' = (m1;; m2;; m3;; mret tt) s') as Has.
  { intros. unfold mbind, M_bind. destruct (m1 s'); try done. by destruct (m2 s0). }
  unfold wp. rewrite Has. eapply (wp_fs_update _ _ _ _ b i x f _ _ HT); [done|done|done|]. intros l Hl. apply wp_ret. by apply HQ.
Qed.

(** ** The bitmap *)

Lemma bit_set_testbit bi d : 0 ≤ bi → bit_set bi d = Z.testbit (byte_at d (bi / 8)) (bi mod 8).
Proof.
  intros Hbi. unfold bit_set, bit_mask. rewrite Z.shiftl_1_l. assert (0 ≤ bi mod 8) as Hm by (apply Z.mod_pos_bound; lia).
  destruct (Z.testbit (byte_at d (bi / 8)) (bi mod 8)) eqn:Et.
  - apply negb_true_iff, Z.eqb_neq. intros E. apply (f_equal (λ x, Z.testbit x (bi mod 8))) in E.
    rewrite Z.land_spec, Z.pow2_bits_true, Z.bits_0, Et in E by done. done.
  - apply negb_false_iff, Z.eqb_eq. apply Z.bits_inj'. intros k Hk. rewrite Z.land_spec, Z.bits_0, Z.pow2_bits_eqb by done.
    destruct (Z.eqb_spec (bi mod 8) k) as [<-|]; [by rewrite Et|]. by rewrite andb_false_r.
Qed.

Lemma bit_set_update bi c d (f : Z → bool → bool) x :
  0 ≤ bi → 0 ≤ c → bi / 8 < Z.of_nat (length d) →
  (∀ k, 0 ≤ k < 8 → Z.testbit x k = f k (Z.testbit (byte_at d (bi / 8)) k)) →
  bit_set c (<[Z.to_nat (bi / 8) := u8 x]> d) = if decide (c / 8 = bi / 8) then f (c mod 8) (bit_set c d) else bit_set c d.
Proof.
  intros Hbi Hc Hlen Hf. rewrite !bit_set_testbit by done. assert (0 ≤ bi / 8 ∧ 0 ≤ c / 8) as [? ?] by (split; apply Z.div_pos; lia).
  assert (0 ≤ c mod 8 < 8) as Hm by (apply Z.mod_pos_bound; lia). rewrite byte_at_insert, Z2Nat.id by lia. case_decide as E.
  - rewrite E. unfold u8. rewrite Z.mod_pow2_bits_low by lia. by apply Hf.
  - done.
Qed.

Lemma bit_set_mark bi c d :
  0 ≤ bi → 0 ≤ c → bi / 8 < Z.of_nat (length d) → bit_set c (mark bi d) = if decide (c = bi) then true else bit_set c d.
Proof.
  intros Hbi Hc Hlen. unfold mark. rewrite (bit_set_update bi c d (λ k x, if decide (k = bi mod 8) then true else x)); try done.
  - repeat case_decide; try done; zdm.
  - intros k Hk. unfold bit_mask. rewrite Z.lor_spec, Z.shiftl_1_l. pose proof (Z.mod_pos_bound bi 8).
    rewrite Z.pow2_bits_eqb by lia. destruct (Z.eqb_spec (bi mod 8) k) as [->|]; [by rewrite orb_true_r, decide_True by done|].
    by rewrite orb_false_r, decide_False by congruence.
Qed.

Lemma bit_set_unmark bi c d :
  0 ≤ bi → 0 ≤ c → bi / 8 < Z.of_nat (length d) → bit_set c (unmark bi d) = if decide (c = bi) then false else bit_set c d.
Proof.
  intros Hbi Hc Hlen. unfold unmark. rewrite (bit_set_update bi c d (λ k x, if decide (k = bi mod 8) then false else x)); try done.
  - repeat case_decide; try done; zdm.
  - intros k Hk. unfold bit_mask. rewrite Z.land_spec, Z.shiftl_1_l, Z.lnot_spec by lia. pose proof (Z.mod_pos_bound bi 8).
    rewrite Z.pow2_bits_eqb by lia. destruct (Z.eqb_spec (bi mod 8) k) as [->|]; [by rewrite andb_false_r, decide_True by done|].
    by rewrite andb_true_r, decide_False by congruence.
Qed.

(** The first clear bit. *)
Lemma find_free_spec n d b size bi :
  match find_free n d b size bi with
  | Some c => bi ≤ c < BPB ∧ b + c < size ∧ bit_set c d = false ∧ ∀ k, bi ≤ k < c → bit_set k d = true
  | None => ∀ k, bi ≤ k < bi + Z.of_nat n → k < BPB → b + k < size → bit_set k d = true
  end.
Proof.
  revert bi. induction n as [|n IH]; intros bi; simpl; [intros; lia|].
  destruct (Z.ltb_spec bi BPB) as [H1|H1]; simpl; [|intros; lia]. destruct (Z.ltb_spec (b + bi) size) as [H2|H2]; [|intros; lia].
  destruct (bit_set bi d) eqn:E.
  - specialize (IH (bi + 1)). destruct (find_free n d b size (bi + 1)) as [c|].
    + destruct IH as (Hc & Hs & Hb & Hk). split_and!; [lia|lia|done|done|]. intros k Hk'. destruct (decide (k = bi)) as [->|]; [done|]. apply Hk. lia.
    + intros k Hk H3 H4. destruct (decide (k = bi)) as [->|]; [done|]. apply IH; lia.
  - split_and!; [lia|done|done|done|lia].
Qed.

(** ** The layout of the disk *)

(** The first block of data. *)
Definition datastart (sb : superblock) : Z := sb_bmapstart sb + sb_size sb / BPB + 1.

Record sb_ok (sb : superblock) : Prop := {
  so_log : sb_logstart sb = te_start e ∧ sb_nlog sb = te_size e;
  so_inodes : te_start e + te_size e ≤ sb_inodestart sb ∧ 2 ≤ te_start e ∧ 0 < te_size e ∧ 0 ≤ sb_ninodes sb;
  so_bmap : sb_inodestart sb + sb_ninodes sb / IPB + 1 ≤ sb_bmapstart sb;
  so_data : datastart sb ≤ sb_size sb < 2 ^ 31
}.

Section layout.
Context (sb : superblock) (Hsb : sb_ok sb).

Lemma BBLOCK_range b : 0 ≤ b < sb_size sb → BBLOCK b sb = b / BPB + sb_bmapstart sb ∧ sb_bmapstart sb ≤ BBLOCK b sb < datastart sb ∧ home (BBLOCK b sb).
Proof.
  destruct Hsb as [[H1 H2] [H3 H4] H5 H6]. unfold datastart, BPB, IPB, BSIZE in *. change (1024 / 64) with 16 in *. change (1024 * 8) with 8192 in *. intros Hb. assert (BBLOCK b sb = b / 8192 + sb_bmapstart sb) as E.
  { unfold BBLOCK, BPB, BSIZE. change (1024 * 8) with 8192. apply u32_small. zdm. }
  rewrite E. split; [done|]. split; [zdm|]. split; [zdm|]. unfold in_log. zdm.
Qed.

Lemma IBLOCK_range i : 0 ≤ i < sb_ninodes sb → IBLOCK i sb = i / IPB + sb_inodestart sb ∧ sb_inodestart sb ≤ IBLOCK i sb < sb_bmapstart sb ∧ home (IBLOCK i sb).
Proof.
  destruct Hsb as [[H1 H2] [H3 H4] H5 H6]. unfold datastart, BPB, IPB, BSIZE in *. intros Hi. change (1024 / 64) with 16 in *. change (1024 * 8) with 8192 in *.
  assert (IBLOCK i sb = i / 16 + sb_inodestart sb) as E. { unfold IBLOCK, IPB, BSIZE. change (1024 / 64) with 16. apply u32_small. zdm. }
  rewrite E. split; [done|]. split; [zdm|]. split; [zdm|]. unfold in_log. zdm.
Qed.

Lemma data_home b : datastart sb ≤ b < sb_size sb → home b.
Proof.
  destruct Hsb as [[H1 H2] [H3 H4] H5 H6]. unfold datastart, BPB, IPB, BSIZE in *. change (1024 / 64) with 16 in *. change (1024 * 8) with 8192 in *. intros Hb. split; [zdm|]. unfold in_log. zdm.
Qed.

Lemma datastart_pos : 2 < datastart sb.
Proof.
  destruct Hsb as [[H1 H2] [H3 H4] H5 H6]. unfold datastart, BPB, IPB, BSIZE in *. change (1024 / 64) with 16 in *. change (1024 * 8) with 8192 in *. zdm.
Qed.
End layout.

(** Every block is 1024 bytes, and the blocks of metadata are marked in use. *)
Definition blocks_ok (v : Z → list Z) : Prop := ∀ b, length (v b) = Z.to_nat BSIZE ∧ byte_list (v b).

Definition used (sb : superblock) (v : Z → list Z) (b : Z) : bool := bit_set (b mod BPB) (v (BBLOCK b sb)).

Record FSV (sb : superblock) (v : Z → list Z) : Prop := {
  fv_blocks : blocks_ok v;
  fv_meta : ∀ b, 0 ≤ b < datastart sb → used sb v b = true
}.

(** ** Allocation of blocks *)

(** Space for [k] more blocks in the log and in the cache. *)
Definition room (bl : list Z) (hd : gmap Z (nat * list Z)) (k : Z) : Prop := Z.of_nat (length bl) + Z.of_nat (size hd) + k < te_size e.

Lemma room_bufs s v bl hd k : TX s v bl hd → room bl hd k → 0 ≤ k → (length bl + size hd < NBUF)%nat ∧ Z.of_nat (length bl) + k < te_size e.
Proof.
  intros HT Hr Hk. destruct (lhd_geo _ _ _ _ (tx_lhd _ _ _ _ HT)) as (_ & Hs & _). unfold room, LOGSIZE, MAXOPBLOCKS, NBUF in *. lia.
Qed.

Lemma length_add_block b bl : (length bl ≤ length (add_block b bl) ≤ length bl + 1)%nat.
Proof. unfold add_block. case_decide; rewrite ?length_app; simpl; lia. Qed.

Lemma elem_of_add_block b c bl : c ∈ add_block b bl ↔ c = b ∨ c ∈ bl.
Proof. unfold add_block. case_decide; set_solver. Qed.

Lemma length_mark bi d : length (mark bi d) = length d.
Proof. apply length_insert. Qed.

Lemma byte_list_mark bi d : byte_list d → byte_list (mark bi d).
Proof. intros Hd. apply Forall_insert; [done|]. unfold u8. apply Z.mod_pos_bound. lia. Qed.

Lemma byte_list_unmark bi d : byte_list d → byte_list (unmark bi d).
Proof. intros Hd. apply Forall_insert; [done|]. unfold u8. apply Z.mod_pos_bound. lia. Qed.

Lemma zero_block_ok : length zero_block = Z.to_nat BSIZE ∧ byte_list zero_block.
Proof. split; [apply length_replicate|]. apply Forall_replicate. lia. Qed.

Lemma blocks_ok_insert v b x : blocks_ok v → length x = Z.to_nat BSIZE → byte_list x → blocks_ok (<[b := x]> v).
Proof. intros Hv Hl Hx c. destruct (decide (c = b)) as [->|]; [by rewrite fn_lookup_insert|by rewrite fn_lookup_insert_ne]. Qed.

Lemma bzero_ok s v bl hd b (Q : unit → fsys → Prop) :
  TX s v bl hd → hd !! b = None → home b → room bl hd 1 →
  (∀ l, TX (set_flog l s) (<[b := zero_block]> v) (add_block b bl) hd → Q tt (set_flog l s)) → wp (bzero ROOTDEV b) Q s.
Proof.
  intros HT Hb Hh Hr HQ. destruct (room_bufs _ _ _ _ _ HT Hr) as [R1 R2]; [lia|]. unfold bzero.
  apply wp_bind, (wp_fs_bread _ _ _ _ HT); [done|done|]. intros i l1 H1.
  eapply (wp_fs_update_end _ _ _ _ b i _ (λ _, zero_block) _ H1); [done|done|lia|]. intros l2 H2. by apply (HQ l2).
Qed.

Section balloc.
Context (sb : superblock) (Hsb : sb_ok sb) (s : fsys) (v : Z → list Z) (bl : list Z) (hd : gmap Z (nat * list Z)).
Context (HT : TX s v bl hd) (Hfsb : fsb s = sb) (HV : FSV sb v) (Hr : room bl hd 2).
Context (Hheld : ∀ b x, hd !! b = Some x → datastart sb ≤ b ∧ used sb v b = true).

(** The contents after block [r] is taken. *)
Definition taken (r : Z) : Z → list Z := <[r := zero_block]> (<[BBLOCK r sb := mark (r mod BPB) (v (BBLOCK r sb))]> v).

Lemma bitmap_free_hold b : 0 ≤ b < sb_size sb → hd !! BBLOCK b sb = None.
Proof.
  intros Hb. destruct (BBLOCK_range sb Hsb b Hb) as (_ & H2 & _). destruct (hd !! BBLOCK b sb) as [x|] eqn:E; [|done].
  destruct (Hheld _ _ E) as [? _]. lia.
Qed.

Lemma bits_bound b x : x = BBLOCK b sb → (b mod BPB) / 8 < Z.of_nat (length (v x)).
Proof. intros _. rewrite (proj1 (fv_blocks _ _ HV x)). unfold BPB, BSIZE. zdm. Qed.

Lemma taken_used r c : datastart sb ≤ r < sb_size sb → 0 ≤ c < sb_size sb → used sb (taken r) c = if decide (c = r) then true else used sb v c.
Proof.
  intros Hr' Hc. destruct (BBLOCK_range sb Hsb c Hc) as (E1 & H2 & _). destruct (BBLOCK_range sb Hsb r) as (E2 & _ & _); [pose proof (datastart_pos sb Hsb); lia|].
  unfold used, taken. rewrite fn_lookup_insert_ne by lia. destruct (decide (BBLOCK r sb = BBLOCK c sb)) as [E|Hne].
  - rewrite <-E, fn_lookup_insert, bit_set_mark; [|unfold BPB, BSIZE; zdm|unfold BPB, BSIZE; zdm|by apply bits_bound]. unfold BPB, BSIZE in *. repeat case_decide; try done; [zdm|congruence].
  - rewrite fn_lookup_insert_ne by done. rewrite decide_False; [done|congruence].
Qed.

Lemma taken_ok r : datastart sb ≤ r < sb_size sb → FSV sb (taken r).
Proof.
  intros Hr'. split.
  - apply blocks_ok_insert; [|apply zero_block_ok|apply zero_block_ok]. destruct (fv_blocks _ _ HV (BBLOCK r sb)).
    apply blocks_ok_insert; [apply HV|by rewrite length_mark|by apply byte_list_mark].
  - intros b Hb. rewrite taken_used by (pose proof (so_data _ Hsb); lia). case_decide; [done|]. by apply HV.
Qed.

Definition balloc_post (r : Z) (s' : fsys) : Prop :=
  (r = 0 ∧ (∀ b, 0 ≤ b < sb_size sb → used sb v b = true) ∧
    ∃ l, TX (set_flog l s) v bl hd ∧ s' = Fsys (flog (set_flog l s)) (fsb s) (itable s) (cwd s) (printed s ++ ["balloc: out of blocks"]) (umem s)) ∨
  (datastart sb ≤ r < sb_size sb ∧ used sb v r = false ∧
    ∃ l, s' = set_flog l s ∧ TX s' (taken r) (add_block r (add_block (BBLOCK r sb) bl)) hd).

Lemma balloc_ok : wp (balloc ROOTDEV) balloc_post s.
Proof.
  unfold balloc. apply wp_bind, wp_gets. rewrite Hfsb. pose proof (so_data _ Hsb) as Hsize. pose proof (datastart_pos sb Hsb) as Hds.
  destruct (room_bufs _ _ _ _ _ HT Hr) as [R1 R2]; [lia|].
  apply (wp_iter (λ b s', ∃ l, s' = set_flog l s ∧ TX s' v bl hd ∧ 0 ≤ b ∧ b mod BPB = 0 ∧ b / BPB ≤ sb_size sb / BPB + 1 ∧ ∀ c, 0 ≤ c < b → c < sb_size sb → used sb v c = true)
                 (λ b _, Z.to_nat (sb_size sb / BPB + 1 - b / BPB))).
  2:{ exists (flog s). assert (set_flog (flog s) s = s) as -> by (by destruct s). split_and!; [done|done|done|done|unfold BPB, BSIZE in *; zdm|lia]. }
  2:{ unfold BPB, BSIZE in *. change (0 / _) with 0. lia. }
  intros b s1 (l1 & -> & H1 & Hb0 & Hbm & Hbq & Hprev). unfold balloc_body. apply wp_bind, wp_gets. cbn [fsb set_flog]. rewrite Hfsb.
  destruct (Z.ltb_spec b (sb_size sb)) as [Hlt|Hge].
  2:{ apply wp_bind, wp_modify, wp_ret. left. split; [done|]. split; [intros c Hc; apply Hprev; lia|]. exists l1. done. }
  destruct (BBLOCK_range sb Hsb b ltac:(lia)) as (Eb & Hbr & Hbh).
  apply wp_bind, (wp_fs_bread _ _ _ _ H1); [by apply bitmap_free_hold|done|]. intros i l2 H2.
  apply wp_bind. eapply (wp_fs_data _ _ _ _ H2 (BBLOCK b sb)); [apply lookup_insert_eq|].
  pose proof (find_free_spec (S (Z.to_nat BPB)) (v (BBLOCK b sb)) b (sb_size sb) 0) as Hff.
  assert (∀ k, 0 ≤ k < BPB → b + k < sb_size sb → used sb v (b + k) = bit_set k (v (BBLOCK b sb))) as Hused.
  { intros k Hk Hks. destruct (BBLOCK_range sb Hsb (b + k) ltac:(lia)) as (Ek & _ & _). unfold used. unfold BPB, BSIZE in *.
    assert (BBLOCK (b + k) sb = BBLOCK b sb) as -> by (rewrite Ek, Eb; zdm). f_equal. zdm. }
  destruct (find_free _ _ _ _ _) as [c|].
  - destruct Hff as (Hc & Hcs & Hfree & _). rewrite <-Hused in Hfree by lia.
    assert (datastart sb ≤ b + c) as Hdata. { destruct (decide (datastart sb ≤ b + c)); [done|]. rewrite (fv_meta _ _ HV) in Hfree by lia. done. }
    assert (BBLOCK (b + c) sb = BBLOCK b sb) as Ebc. { destruct (BBLOCK_range sb Hsb (b + c) ltac:(lia)) as (-> & _). rewrite Eb. unfold BPB, BSIZE in *. zdm. }
    assert (c = (b + c) mod BPB) as Ec by (unfold BPB, BSIZE in *; zdm).
    eapply (wp_fs_update _ _ _ _ (BBLOCK b sb) i _ (mark c) _ _ H2); [by apply bitmap_free_hold|done|lia|]. intros l3 H3.
    pose proof (length_add_block (BBLOCK b sb) bl) as Hlen.
    apply wp_bind. eapply (bzero_ok _ _ _ _ (b + c) _ H3).
    + destruct (hd !! (b + c)) as [x|] eqn:E; [|done]. destruct (Hheld _ _ E) as [_ Hu]. congruence.
    + by apply (data_home sb Hsb).
    + unfold room in *. lia.
    + intros l4 H4. apply wp_ret. right. split; [lia|]. split; [done|]. exists l4. split; [done|]. unfold taken. rewrite Ebc, <-Ec. exact H4.
  - apply wp_bind. eapply wp_fs_brelse_same; [exact H2|by apply bitmap_free_hold|]. intros l3 H3. apply wp_ret.
    assert (∀ c, 0 ≤ c < b + BPB → c < sb_size sb → used sb v c = true) as Hall.
    { intros c Hc Hcs. destruct (decide (c < b)); [apply Hprev; lia|]. replace c with (b + (c - b)) by lia. rewrite Hused by lia. apply Hff; lia. }
    split.
    + exists l3. split_and!; [done|done|unfold BPB, BSIZE; lia|unfold BPB, BSIZE in *; zdm|unfold BPB, BSIZE in *; zdm|done].
    + unfold BPB, BSIZE in *. zdm.
Qed.
End balloc.

Section bfree.
Context (sb : superblock) (Hsb : sb_ok sb) (s : fsys) (v : Z → list Z) (bl : list Z) (hd : gmap Z (nat * list Z)).
Context (HT : TX s v bl hd) (Hfsb : fsb s = sb) (HV : FSV sb v) (Hr : room bl hd 1).
Context (Hheld : ∀ b x, hd !! b = Some x → datastart sb ≤ b).

(** The contents after block [r] is freed. *)
Definition freed (r : Z) : Z → list Z := <[BBLOCK r sb := unmark (r mod BPB) (v (BBLOCK r sb))]> v.

Lemma freed_used r c : datastart sb ≤ r < sb_size sb → 0 ≤ c < sb_size sb → used sb (freed r) c = if decide (c = r) then false else used sb v c.
Proof.
  intros Hr' Hc. destruct (BBLOCK_range sb Hsb c Hc) as (E1 & H2 & _). destruct (BBLOCK_range sb Hsb r) as (E2 & _ & _); [pose proof (datastart_pos sb Hsb); lia|].
  unfold used, freed. destruct (decide (BBLOCK r sb = BBLOCK c sb)) as [E|Hne].
  - rewrite <-E, fn_lookup_insert, bit_set_unmark; [|unfold BPB, BSIZE; zdm|unfold BPB, BSIZE; zdm|by apply (bits_bound sb v HV)].
    unfold BPB, BSIZE in *. repeat case_decide; try done; [zdm|congruence].
  - rewrite fn_lookup_insert_ne by done. rewrite decide_False; [done|congruence].
Qed.

Lemma freed_ok r : datastart sb ≤ r < sb_size sb → FSV sb (freed r).
Proof.
  intros Hr'. split.
  - destruct (fv_blocks _ _ HV (BBLOCK r sb)). apply blocks_ok_insert; [apply HV|unfold unmark; by rewrite length_insert|by apply byte_list_unmark].
  - intros b Hb. rewrite freed_used by (pose proof (so_data _ Hsb); lia). rewrite decide_False by lia. by apply HV.
Qed.

Lemma bfree_ok b (Q : unit → fsys → Prop) :
  datastart sb ≤ b < sb_size sb → used sb v b = true →
  (∀ l, TX (set_flog l s) (freed b) (add_block (BBLOCK b sb) bl) hd → Q tt (set_flog l s)) → wp (bfree ROOTDEV b) Q s.
Proof.
  intros Hb Hu HQ. pose proof (datastart_pos sb Hsb). destruct (BBLOCK_range sb Hsb b ltac:(lia)) as (Eb & Hbr & Hbh).
  assert (hd !! BBLOCK b sb = None) as Hnh. { destruct (hd !! BBLOCK b sb) as [x|] eqn:E; [|done]. apply Hheld in E. lia. }
  destruct (room_bufs _ _ _ _ _ HT Hr) as [R1 R2]; [lia|]. unfold bfree. apply wp_bind, wp_gets. rewrite Hfsb.
  apply wp_bind, (wp_fs_bread _ _ _ _ HT); [done|done|]. intros i l1 H1.
  apply wp_bind. eapply (wp_fs_data _ _ _ _ H1 (BBLOCK b sb)); [apply lookup_insert_eq|]. unfold used in Hu. rewrite Hu.
  eapply (wp_fs_update_end _ _ _ _ (BBLOCK b sb) i _ (unmark (b mod BPB)) _ H1); [done|done|lia|]. intros l2 H2. by apply (HQ l2).
Qed.
End bfree.
End tx.
