(* ===== verification/Fsfile.v ===== *)
(** * Files: the contents of an inode

    An inode and the blocks it refers to are read as a function from positions
    to bytes ([content]).  [bmap], [readi] and [writei] are specified on it. *)

From stdpp Require Import functions.
From S2P Require Import Prelude Machine Sync Bytes Bio Log Fs Fsrules.

(** ** Inodes on disk *)

Record dinode_ok (x : dinode) : Prop := {
  dk_type : - 2 ^ 15 ≤ d_type x < 2 ^ 15;
  dk_major : - 2 ^ 15 ≤ d_major x < 2 ^ 15;
  dk_minor : - 2 ^ 15 ≤ d_minor x < 2 ^ 15;
  dk_nlink : - 2 ^ 15 ≤ d_nlink x < 2 ^ 15;
  dk_size : 0 ≤ d_size x < 2 ^ 32;
  dk_len : length (d_addrs x) = 13%nat;
  dk_addrs : ∀ i, 0 ≤ d_addrs x !!! i < 2 ^ 32
}.

Lemma put_dinode_props off x d :
  0 ≤ off → off + 64 ≤ Z.of_nat (length d) →
  length (put_dinode off x d) = length d ∧ (byte_list d → byte_list (put_dinode off x d)) ∧
  ∀ j, 0 ≤ j → j < off ∨ off + 64 ≤ j → byte_at (put_dinode off x d) j = byte_at d j.
Proof.
  intros Ho Hd. unfold put_dinode, put_addrs. set (d1 := put32 _ _ _). assert (length d1 = length d) as Hl by (unfold d1, put16, put32; by rewrite !length_put_le).
  destruct (put32_array (off + 12) (λ i, d_addrs x !!! Z.to_nat i) 13 d1) as (H1 & H2 & _ & H4); [lia|lia|].
  change (Z.of_nat 13) with (NDIRECT + 1) in *. split_and!.
  - by rewrite H1.
  - intros Hb. apply H4. unfold d1, put16, put32. by do 5 apply byte_list_put.
  - intros j Hj Hout. rewrite H2 by (unfold NDIRECT in *; lia). unfold d1, put16, put32.
    rewrite !byte_at_put_le by (rewrite ?length_put_le; lia). by rewrite !decide_False by lia.
Qed.

(** [ilock] reads what [iupdate] wrote. *)
Lemma get_put_dinode off x d : 0 ≤ off → off + 64 ≤ Z.of_nat (length d) → dinode_ok x → get_dinode off (put_dinode off x d) = x.
Proof.
  intros Ho Hd [Ht Hma Hmi Hn Hs Hl Ha]. unfold put_dinode, put_addrs. set (d1 := put32 _ _ _).
  assert (length d1 = length d) as Hl1 by (unfold d1, put16, put32; by rewrite !length_put_le).
  destruct (put32_array (off + 12) (λ i, d_addrs x !!! Z.to_nat i) 13 d1) as (H1 & H2 & H3 & _); [lia|lia|].
  change (Z.of_nat 13) with (NDIRECT + 1) in *. set (d2 := foldl _ _ _) in *.
  assert (∀ m o, off ≤ o → o + Z.of_nat m ≤ off + 12 → get_le m o d2 = get_le m o d1) as Hlow.
  { intros m o Ho' Hm. apply get_le_ext. intros i Hi. apply H2; lia. }
  destruct x as [t ma mi n sz ad]. cbn [d_type d_major d_minor d_nlink d_size d_addrs] in *. unfold get_dinode. f_equal.
  1-4: unfold get16; rewrite Hlow by lia; unfold d1, put16, put32; rewrite ?(get_put_ne) by (rewrite ?length_put_le; lia); rewrite get_put_eq by (rewrite ?length_put_le; lia);
       unfold u16; change (256 ^ Z.of_nat 2) with (2 ^ 16); rewrite Z.mod_mod by lia; by apply s16_u16.
  - unfold get32. rewrite Hlow by lia. unfold d1, put32. rewrite get_put_eq by (unfold put16; rewrite ?length_put_le; lia).
    apply Z.mod_small. exact Hs.
  - apply list_eq. intros i. rewrite list_lookup_fmap. destruct (decide (i < 13)%nat) as [Hi|Hi].
    + rewrite lookup_seqZ_lt by (unfold NDIRECT; lia). simpl. rewrite Z.add_0_l, H3 by (unfold NDIRECT; lia). rewrite Nat2Z.id, Z.mod_small by apply Ha.
      rewrite list_lookup_lookup_total_lt by lia. done.
    + rewrite lookup_seqZ_ge by (unfold NDIRECT; lia). symmetry. apply lookup_ge_None. lia.
Qed.

Lemma get_put_dinode_ne off off' x d :
  0 ≤ off → 0 ≤ off' → off + 64 ≤ Z.of_nat (length d) → off + 64 ≤ off' ∨ off' + 64 ≤ off → get_dinode off' (put_dinode off x d) = get_dinode off' d.
Proof.
  intros Ho Ho' Hd Hout. destruct (put_dinode_props off x d Ho Hd) as (_ & _ & Hb). unfold get_dinode, get16, get32.
  assert (∀ m o, off' ≤ o → o + Z.of_nat m ≤ off' + 64 → get_le m o (put_dinode off x d) = get_le m o d) as E.
  { intros m o H1 H2. apply get_le_ext. intros i Hi. apply Hb; lia. }
  rewrite !E by lia. f_equal. apply list_fmap_ext. intros k i [-> Hi]%lookup_seqZ. apply E; unfold NDIRECT in *; lia.
Qed.

(** ** The blocks of a file *)

Definition A (x : dinode) (k : Z) : Z := d_addrs x !!! Z.to_nat k.
Definition ind (x : dinode) : Z := A x NDIRECT.

(** Block [bn] of the file, 0 if it has none. *)
Definition fblk (v : Z → list Z) (x : dinode) (bn : Z) : Z :=
  if bn <? NDIRECT then A x bn else if ind x =? 0 then 0 else get32 (4 * (bn - NDIRECT)) (v (ind x)).

(** Byte [k] of the file. *)
Definition content (v : Z → list Z) (x : dinode) (k : Z) : Z :=
  if fblk v x (k / BSIZE) =? 0 then 0 else byte_at (v (fblk v x (k / BSIZE))) (k mod BSIZE).

(** Same file, up to its addresses. *)
Definition same_meta (x x' : dinode) : Prop :=
  d_type x' = d_type x ∧ d_major x' = d_major x ∧ d_minor x' = d_minor x ∧ d_nlink x' = d_nlink x ∧ d_size x' = d_size x.

Section files.
Context (e : txenv) (sb : superblock) (Hsb : sb_ok e sb).

Definition isdata (b : Z) : Prop := datastart sb ≤ b < sb_size sb.
Definition bitmap (b : Z) : Prop := sb_bmapstart sb ≤ b < datastart sb.

(** The blocks of the file are distinct data blocks marked in use. *)
Record IOK (v : Z → list Z) (x : dinode) : Prop := {
  io_dinode : dinode_ok x;
  io_blk : ∀ bn, 0 ≤ bn < MAXFILE → fblk v x bn ≠ 0 → isdata (fblk v x bn) ∧ used sb v (fblk v x bn) = true;
  io_ind : ind x ≠ 0 → isdata (ind x) ∧ used sb v (ind x) = true;
  io_inj : ∀ bn bn', 0 ≤ bn < MAXFILE → 0 ≤ bn' < MAXFILE → fblk v x bn ≠ 0 → fblk v x bn = fblk v x bn' → bn = bn';
  io_ind_ne : ∀ bn, 0 ≤ bn < MAXFILE → fblk v x bn ≠ 0 → fblk v x bn ≠ ind x
}.

Definition owns (v : Z → list Z) (x : dinode) (b : Z) : Prop := b ≠ 0 ∧ (b = ind x ∨ ∃ bn, 0 ≤ bn < MAXFILE ∧ b = fblk v x bn).

(** [v', x'] come from [v, x] by taking free blocks for the file and writing its
    blocks; nothing else in use changes, but the bitmap. *)
Record ext (v : Z → list Z) (x : dinode) (v' : Z → list Z) (x' : dinode) : Prop := {
  ext_meta : same_meta x x';
  ext_ind : ind x ≠ 0 → ind x' = ind x;
  ext_keep : ∀ bn, 0 ≤ bn < MAXFILE → fblk v x bn ≠ 0 → fblk v' x' bn = fblk v x bn;
  ext_used : ∀ b, 0 ≤ b < sb_size sb → used sb v b = true → used sb v' b = true;
  ext_frame : ∀ b, 0 ≤ b < sb_size sb → used sb v b = true → ¬ bitmap b → ¬ owns v x b → v' b = v b;
  ext_own : ∀ b, owns v' x' b → owns v x b ∨ used sb v b = false;
  ext_ok : IOK v' x';
  ext_fsv : FSV sb v'
}.

Lemma ext_refl v x : IOK v x → FSV sb v → ext v x v x.
Proof. intros H1 H2. split; try done. by left. Qed.

Lemma owns_data v x b : IOK v x → owns v x b → isdata b ∧ used sb v b = true.
Proof. intros [_ Hb Hi _ _] [H0 [->|(bn & Hbn & ->)]]; [by apply Hi|by apply Hb]. Qed.

Lemma ext_trans v x v1 x1 v2 x2 : IOK v x → ext v x v1 x1 → ext v1 x1 v2 x2 → ext v x v2 x2.
Proof.
  intros HI [M1 N1 K1 U1 F1 O1 I1 V1] [M2 N2 K2 U2 F2 O2 I2 V2]. split; try done.
  - unfold same_meta in *. intuition congruence.
  - intros H0. rewrite <-(N1 H0). apply N2. by rewrite (N1 H0).
  - intros bn Hbn H0. rewrite <-(K1 bn Hbn H0). apply K2; [done|]. by rewrite (K1 bn Hbn H0).
  - intros b Hb Hu. apply U2; [done|]. by apply U1.
  - intros b Hb Hu Hbm Hn. rewrite <-(F1 b Hb Hu Hbm Hn). apply F2; [done|by apply U1|done|]. intros [Ho|Ho]%O1; [done|congruence].
  - intros b Ho. destruct (owns_data _ _ _ I2 Ho) as [Hd _]. destruct (O2 _ Ho) as [Ho1|Hu1]; [by apply O1|]. right.
    destruct (used sb v b) eqn:E; [|done]. rewrite U1 in Hu1; [done| |done]. pose proof (datastart_pos e sb Hsb). unfold isdata in Hd. lia.
Qed.

Lemma isdata_range b : isdata b → 0 ≤ b < sb_size sb ∧ ¬ bitmap b ∧ b ≠ 0.
Proof. unfold isdata, bitmap. pose proof (datastart_pos e sb Hsb). lia. Qed.

(** ** Taking a block *)

Section take.
Context (v : Z → list Z) (x : dinode) (r : Z) (HI : IOK v x) (HV : FSV sb v) (Hr : isdata r) (Hfree : used sb v r = false).

(** What [balloc] leaves, perhaps with an entry of the indirect block set. *)
Record took (v' : Z → list Z) : Prop := {
  tk_zero : v' r = zero_block;
  tk_used : ∀ c, 0 ≤ c < sb_size sb → used sb v' c = if decide (c = r) then true else used sb v c;
  tk_frame : ∀ c, c ≠ r → ¬ bitmap c → c ≠ ind x ∨ ind x = 0 → v' c = v c;
  tk_fsv : FSV sb v'
}.

Lemma r_new : r ≠ 0 ∧ r ≠ ind x ∧ ∀ bn, 0 ≤ bn < MAXFILE → fblk v x bn ≠ r.
Proof.
  pose proof (datastart_pos e sb Hsb). unfold isdata in Hr. split_and!; [lia| |].
  - intros E. destruct (io_ind _ _ HI) as [_ Hu]; [lia|]. congruence.
  - intros bn Hbn E. destruct (io_blk _ _ HI bn Hbn) as [_ Hu]; [lia|]. congruence.
Qed.

(** The block becomes block [bn] of the file. *)
Lemma take_data v' x' bn :
  took v' → 0 ≤ bn < MAXFILE → fblk v x bn = 0 → dinode_ok x' → same_meta x x' → ind x' = ind x →
  (∀ k, 0 ≤ k < MAXFILE → fblk v' x' k = if decide (k = bn) then r else fblk v x k) →
  ext v x v' x' ∧ ∀ k, 0 ≤ k < MAXFILE * BSIZE → content v' x' k = content v x k.
Proof.
  intros [Hz Hu Hf HV'] Hbn H0 Hdk Hm Hind Hb. destruct r_new as (Hr0 & Hri & Hrb). pose proof (isdata_range _ Hr) as (Hrr & _ & _).
  assert (IOK v' x') as HI'.
  { split; [done| | | |].
    - intros k Hk. rewrite Hb by done. case_decide; intros Hne; [split; [done|]; rewrite Hu by done; by rewrite decide_True|].
      destruct (io_blk _ _ HI k Hk Hne) as [Hd Hus]. split; [done|]. rewrite Hu by (by apply isdata_range). case_decide; [done|done].
    - rewrite Hind. intros Hne. destruct (io_ind _ _ HI Hne) as [Hd Hus]. split; [done|]. rewrite Hu by (by apply isdata_range). by rewrite Hus; case_decide.
    - intros k k' Hk Hk'. rewrite !Hb by done. repeat case_decide; subst; intros; try done; [by destruct (Hrb k')|by destruct (Hrb k)|]. by apply (io_inj _ _ HI).
    - intros k Hk. rewrite Hb, Hind by done. case_decide; [done|]. by apply (io_ind_ne _ _ HI). }
  split.
  - split; try done.
    + intros k Hk Hne. rewrite Hb by done. rewrite decide_False; [done|]. intros ->. done.
    + intros b Hb' Hus. rewrite Hu by done. by case_decide.
    + intros b Hb' Hus Hbm Hno. apply Hf; [congruence|done|]. destruct (decide (ind x = 0)) as [E|E]; [by right|left]. intros ->. apply Hno. split; [done|by left].
    + intros b [Hne [->|(k & Hk & ->)]]; [left; split; [done|by left; rewrite Hind]|]. rewrite Hb in * by done. case_decide; [by right|].
      left. split; [done|]. right. by exists k.
  - intros k Hk. unfold content. assert (0 ≤ k / BSIZE < MAXFILE) as Hq by (unfold BSIZE in *; zdm). rewrite Hb by done. case_decide as E.
    + rewrite E, H0. rewrite (proj2 (Z.eqb_neq _ _)) by done. rewrite Hz. simpl Z.eqb. cbv iota. apply byte_at_replicate.
    + destruct (Z.eqb_spec (fblk v x (k / BSIZE)) 0) as [|Hne]; [done|]. destruct (io_blk _ _ HI _ Hq Hne) as [Hd _].
      f_equal. apply Hf; [by apply Hrb|by apply isdata_range|left; by apply (io_ind_ne _ _ HI)].
Qed.

(** The block becomes the indirect block of the file. *)
Lemma take_ind v' x' :
  took v' → ind x = 0 → dinode_ok x' → same_meta x x' → ind x' = r → (∀ k, 0 ≤ k < MAXFILE → fblk v' x' k = fblk v x k) →
  ext v x v' x' ∧ ∀ k, 0 ≤ k < MAXFILE * BSIZE → content v' x' k = content v x k.
Proof.
  intros [Hz Hu Hf HV'] H0 Hdk Hm Hind Hb. destruct r_new as (Hr0 & Hri & Hrb). pose proof (isdata_range _ Hr) as (Hrr & _ & _).
  assert (IOK v' x') as HI'.
  { split; [done| | | |].
    - intros k Hk. rewrite Hb by done. intros Hne. destruct (io_blk _ _ HI k Hk Hne) as [Hd Hus]. split; [done|].
      rewrite Hu by (by apply isdata_range). by rewrite Hus; case_decide.
    - rewrite Hind. intros _. split; [done|]. by rewrite Hu, decide_True by done.
    - intros k k' Hk Hk'. rewrite !Hb by done. by apply (io_inj _ _ HI).
    - intros k Hk. rewrite Hb, Hind by done. intros _. by apply Hrb. }
  split.
  - split; try done.
    + intros k Hk _. by apply Hb.
    + intros b Hb' Hus. rewrite Hu by done. by case_decide.
    + intros b Hb' Hus Hbm Hno. apply Hf; [congruence|done|by right].
    + intros b [Hne [->|(k & Hk & ->)]]; [right; by rewrite Hind|]. rewrite Hb in * by done. left. split; [done|]. right. by exists k.
  - intros k Hk. unfold content. assert (0 ≤ k / BSIZE < MAXFILE) as Hq by (unfold BSIZE in *; zdm). rewrite Hb by done.
    destruct (Z.eqb_spec (fblk v x (k / BSIZE)) 0) as [|Hne]; [done|]. destruct (io_blk _ _ HI _ Hq Hne) as [Hd _].
    f_equal. apply Hf; [by apply Hrb|by apply isdata_range|by right].
Qed.

Lemma taken_frame c : c ≠ r → ¬ bitmap c → taken sb v r c = v c.
Proof.
  intros Hc Hb. pose proof (isdata_range _ Hr) as (Hrr & _ & _). destruct (BBLOCK_range e sb Hsb r Hrr) as (_ & Hbr & _).
  unfold taken. rewrite fn_lookup_insert_ne by done. rewrite fn_lookup_insert_ne; [done|]. intros E. apply Hb. unfold bitmap. lia.
Qed.

Lemma taken_took : took (taken sb v r).
Proof.
  pose proof (isdata_range _ Hr) as (Hrr & Hnb & _). destruct (BBLOCK_range e sb Hsb r Hrr) as (_ & Hbr & _). split.
  - apply fn_lookup_insert.
  - intros c Hc. by apply (taken_used e sb Hsb).
  - intros c Hc Hb _. by apply taken_frame.
  - by apply (taken_ok e sb Hsb).
Qed.

(** The entry [bn] of the indirect block is set to the block taken. *)
Lemma took_entry off : ind x ≠ 0 → took (<[ind x := put32 off r (v (ind x))]> (taken sb v r)).
Proof.
  intros Hne. destruct taken_took as [Hz Hu Hf HV']. destruct r_new as (_ & Hri & _). destruct (io_ind _ _ HI Hne) as [Hd _].
  pose proof (isdata_range _ Hd) as (_ & Hnb & _).
  assert (∀ c, 0 ≤ c < sb_size sb → used sb (<[ind x := put32 off r (v (ind x))]> (taken sb v r)) c = used sb (taken sb v r) c) as Hus.
  { intros c Hc. unfold used. rewrite fn_lookup_insert_ne; [done|]. destruct (BBLOCK_range e sb Hsb c Hc) as (_ & Hbr & _). intros E. apply Hnb. unfold bitmap. lia. }
  split.
  - by rewrite fn_lookup_insert_ne.
  - intros c Hc. rewrite Hus by done. by apply Hu.
  - intros c Hc Hb Hi. rewrite fn_lookup_insert_ne by (destruct Hi; congruence). by apply Hf.
  - destruct HV' as [Hblk Hmeta]. split.
    + destruct (fv_blocks _ _ HV (ind x)). apply blocks_ok_insert; [done|by unfold put32; rewrite length_put_le|by apply byte_list_put].
    + intros b Hb. rewrite Hus by (pose proof (so_data _ _ Hsb); lia). by apply Hmeta.
Qed.

Lemma ind_kept : ind x ≠ 0 → taken sb v r (ind x) = v (ind x).
Proof. intros Hne. apply taken_frame; [by destruct r_new as (_ & ? & _); congruence|]. destruct (io_ind _ _ HI Hne) as [Hd _]. by apply isdata_range. Qed.
End take.

(** ** Writing a block *)

Lemma write_block v x bn y :
  IOK v x → FSV sb v → 0 ≤ bn < MAXFILE → fblk v x bn ≠ 0 → length y = Z.to_nat BSIZE → byte_list y →
  let v' := <[fblk v x bn := y]> v in
  ext v x v' x ∧ ∀ k, 0 ≤ k < MAXFILE * BSIZE → content v' x k = if decide (k / BSIZE = bn) then byte_at y (k mod BSIZE) else content v x k.
Proof.
  intros HI HV Hbn Hne Hy1 Hy2 v'. destruct (io_blk _ _ HI bn Hbn Hne) as [Hd Hus]. pose proof (isdata_range _ Hd) as (Hr & Hnb & _).
  assert (∀ k, 0 ≤ k < MAXFILE → fblk v' x k = fblk v x k) as Hb.
  { intros k Hk. unfold fblk, v'. repeat case_match; try done. rewrite fn_lookup_insert_ne; [done|]. intros E. by apply (io_ind_ne _ _ HI bn Hbn Hne). }
  assert (∀ c, 0 ≤ c < sb_size sb → used sb v' c = used sb v c) as Hu.
  { intros c Hc. unfold used, v'. rewrite fn_lookup_insert_ne; [done|]. destruct (BBLOCK_range e sb Hsb c Hc) as (_ & Hbr & _). intros E. apply Hnb. unfold bitmap. lia. }
  assert (IOK v' x) as HI'.
  { destruct HI as [H1 H2 H3 H4 H5]. split; [done| | | |].
    - intros k Hk. rewrite Hb by done. intros Hk0. destruct (H2 k Hk Hk0) as [Hdk ?]. split; [done|]. by rewrite Hu by (by apply isdata_range).
    - intros Hi. destruct (H3 Hi) as [Hdi ?]. split; [done|]. by rewrite Hu by (by apply isdata_range).
    - intros k k' Hk Hk'. rewrite !Hb by done. by apply H4.
    - intros k Hk. rewrite Hb by done. by apply H5. }
  split; [split; try done|].
  - by intros k Hk _; apply Hb.
  - intros b Hb' Hu'. by rewrite Hu.
  - intros b Hb' Hu' _ Hno. unfold v'. apply fn_lookup_insert_ne. intros E. apply Hno. rewrite <-E. split; [done|]. right. by exists bn.
  - intros b [H0 [->|(k & Hk & ->)]]; left; [split; [done|by left]|]. rewrite Hb in * by done. split; [done|]. right. by exists k.
  - split; [by apply blocks_ok_insert; [apply HV|..]|]. intros b Hb'. rewrite Hu by (pose proof (so_data _ _ Hsb); lia). by apply HV.
  - intros k Hk. unfold content. assert (0 ≤ k / BSIZE < MAXFILE) as Hq by (unfold BSIZE in *; zdm). rewrite Hb by done. case_decide as E.
    + rewrite E, (proj2 (Z.eqb_neq _ _)) by done. unfold v'. by rewrite fn_lookup_insert.
    + destruct (Z.eqb_spec (fblk v x (k / BSIZE)) 0) as [|Hk0]; [done|]. unfold v'. rewrite fn_lookup_insert_ne; [done|].
      intros E2. apply E. by apply (io_inj _ _ HI).
Qed.

(** ** Addresses of an inode *)

Lemma A_set k r x j : length (d_addrs x) = 13%nat → 0 ≤ k < 13 → 0 ≤ j → A (set_d_addr k r x) j = if decide (j = k) then r else A x j.
Proof.
  intros Hl Hk Hj. unfold A, set_d_addr. simpl. case_decide as E; [subst j; apply list_lookup_total_insert_eq; lia|]. apply list_lookup_total_insert_ne. lia.
Qed.

Lemma dinode_ok_set k r x : dinode_ok x → 0 ≤ r < 2 ^ 32 → dinode_ok (set_d_addr k r x).
Proof.
  intros [H1 H2 H3 H4 H5 Hl Ha] Hr. split; simpl; try done; [by rewrite length_insert|]. intros i.
  destruct (decide (i = Z.to_nat k)) as [->|]; [|by rewrite list_lookup_total_insert_ne].
  destruct (decide (Z.to_nat k < length (d_addrs x))%nat); [by rewrite list_lookup_total_insert_eq|]. rewrite list_insert_ge by lia. apply Ha.
Qed.

Lemma same_meta_set k r x : same_meta x (set_d_addr k r x).
Proof. done. Qed.

Section allocate.
Context (v : Z → list Z) (x : dinode) (r : Z) (HI : IOK v x) (HV : FSV sb v) (Hr : isdata r) (Hfree : used sb v r = false).

Lemma r_range : 0 ≤ r < 2 ^ 32.
Proof. pose proof (isdata_range _ Hr) as [? _]. pose proof (so_data _ _ Hsb). lia. Qed.

Lemma alloc_direct bn :
  0 ≤ bn < NDIRECT → A x bn = 0 → let v' := taken sb v r in let x' := set_d_addr bn r x in
  ext v x v' x' ∧ (∀ k, 0 ≤ k < MAXFILE * BSIZE → content v' x' k = content v x k) ∧ fblk v' x' bn = r.
Proof.
  intros Hbn H0 v' x'. pose proof (dk_len _ (io_dinode _ _ HI)) as Hl. unfold NDIRECT in Hbn.
  assert (∀ k, 0 ≤ k < MAXFILE → fblk v' x' k = if decide (k = bn) then r else fblk v x k) as Hb.
  { intros k Hk. unfold fblk, ind, x', NDIRECT in *. rewrite !A_set by lia. rewrite (decide_False (P := 12 = bn)) by lia.
    destruct (Z.ltb_spec k 12); [done|]. rewrite decide_False by lia. destruct (Z.eqb_spec (A x 12) 0); [done|]. f_equal. by apply (ind_kept v x r HI Hr Hfree). }
  destruct (take_data v x r HI Hr Hfree v' x' bn) as [H1 H2].
  - by apply taken_took.
  - unfold MAXFILE, NDIRECT, NINDIRECT, BSIZE. zdm.
  - unfold fblk, NDIRECT. by rewrite (proj2 (Z.ltb_lt _ _)) by lia.
  - apply dinode_ok_set; [apply HI|apply r_range].
  - done.
  - unfold ind, x', NDIRECT. rewrite A_set by lia. by rewrite decide_False by lia.
  - done.
  - split_and!; [done|done|]. rewrite Hb by (unfold MAXFILE, NDIRECT, NINDIRECT, BSIZE; zdm). by rewrite decide_True.
Qed.

Lemma alloc_ind :
  ind x = 0 → let v' := taken sb v r in let x' := set_d_addr NDIRECT r x in
  ext v x v' x' ∧ (∀ k, 0 ≤ k < MAXFILE * BSIZE → content v' x' k = content v x k) ∧ ind x' = r ∧ v' r = zero_block.
Proof.
  intros H0 v' x'. pose proof (dk_len _ (io_dinode _ _ HI)) as Hl. assert (ind x' = r) as Hi.
  { unfold ind, x', NDIRECT. rewrite A_set by lia. by rewrite decide_True. }
  assert (v' r = zero_block) as Hz by (by apply (tk_zero v x r v'), taken_took).
  destruct (take_ind v x r HI Hr Hfree v' x') as [H1 H2]; [by apply taken_took|done|apply dinode_ok_set; [apply HI|apply r_range]|done|done| |done].
  intros k Hk. unfold fblk. rewrite Hi, H0. simpl Z.eqb. cbv iota. destruct (Z.ltb_spec k NDIRECT) as [Hlt|Hge].
  - unfold x'. rewrite A_set by (unfold NDIRECT; lia). by rewrite decide_False by lia.
  - case_match; [done|]. rewrite Hz. unfold get32, zero_block, BSIZE, MAXFILE, NINDIRECT in *. change (Z.to_nat 1024) with 1024%nat.
    assert (∀ n o, 0 ≤ o → get_le n o (replicate 1024 0) = 0) as Hg; [|apply Hg; lia].
    induction n as [|n IH]; intros o Ho; [done|]. cbn [get_le]. by rewrite IH, byte_at_replicate by lia.
Qed.

Lemma alloc_entry bn :
  NDIRECT ≤ bn < MAXFILE → ind x ≠ 0 → fblk v x bn = 0 → let v' := <[ind x := put32 (4 * (bn - NDIRECT)) r (v (ind x))]> (taken sb v r) in
  ext v x v' x ∧ (∀ k, 0 ≤ k < MAXFILE * BSIZE → content v' x k = content v x k) ∧ fblk v' x bn = r.
Proof.
  intros Hbn Hne H0 v'. pose proof (fv_blocks _ _ HV (ind x)) as [Hlen _].
  assert (∀ k, 0 ≤ k < MAXFILE → fblk v' x k = if decide (k = bn) then r else fblk v x k) as Hb.
  { intros k Hk. unfold fblk, v', MAXFILE, NINDIRECT, NDIRECT, BSIZE in *. change (1024 / 4) with 256 in *.
    destruct (Z.ltb_spec k 12); [by rewrite decide_False by lia|]. rewrite (proj2 (Z.eqb_neq _ _)), fn_lookup_insert by done.
    case_decide as E; [subst k; rewrite get_put32 by lia; apply u32_small, r_range|]. unfold get32, put32. by rewrite get_put_ne by lia. }
  destruct (take_data v x r HI Hr Hfree v' x bn) as [H1 H2]; try done.
  - by apply took_entry.
  - unfold NDIRECT in *. lia.
  - apply HI.
  - split_and!; [done|done|]. rewrite Hb by (unfold NDIRECT in *; lia). by rewrite decide_True.
Qed.
End allocate.
End files.

(** ** [bmap] *)

Section bmap.
Context {U : Type} `{!UserMem U} (e : txenv) (sb : superblock) (Hsb : sb_ok e sb) (ip : nat).
Notation fsys := (fsys (U := U)).
Notation TX := (TX e).
Notation IOK := (IOK sb).
Notation ext := (ext sb).

(** The inode [ip] is on the root device and holds [x]. *)
Definition inode_at (s : fsys) (x : dinode) : Prop := ∃ i, itable s !! ip = Some i ∧ i_dev i = ROOTDEV ∧ i_disk i = x.

(** The call changed the inode to [x'], and may have printed. *)
Record moved (s s' : fsys) (x' : dinode) : Prop := {
  mv_fsb : fsb s' = fsb s;
  mv_cwd : cwd s' = cwd s;
  mv_umem : umem s' = umem s;
  mv_itable : itable s' = alter (set_i_disk x') ip (itable s)
}.

Lemma moved_inode s s' x x' : inode_at s x → moved s s' x' → inode_at s' x'.
Proof.
  intros (i & Hi & Hd & Hx) [_ _ _ Ht]. exists (set_i_disk x' i). split_and!; [|done|done]. rewrite Ht, list_lookup_alter_eq, Hi. done.
Qed.

Lemma moved_refl s s' x : inode_at s x → fsb s' = fsb s → cwd s' = cwd s → umem s' = umem s → itable s' = itable s → moved s s' x.
Proof.
  intros (i & Hi & _ & Hx) E1 E2 E3 E4. split; [done..|]. rewrite E4. symmetry. apply list_alter_id_at with i; [done|].
  destruct i. simpl in *. by subst.
Qed.

Lemma moved_trans s s1 s2 x1 x2 : moved s s1 x1 → moved s1 s2 x2 → moved s s2 x2.
Proof.
  intros [A1 B1 C1 D1] [A2 B2 C2 D2]. split; try congruence. by rewrite D2, D1, <-list_alter_compose.
Qed.

Lemma wp_iat s x (Q : inode → fsys → Prop) : inode_at s x → (∀ i, i_dev i = ROOTDEV → i_disk i = x → itable s !! ip = Some i → Q i s) → wp (iat ip) Q s.
Proof. intros (i & Hi & Hd & Hx) HQ. apply wp_gets. rewrite (lookup_total_Some _ _ _ Hi). by apply HQ. Qed.

Lemma wp_set_addr s x k r (Q : unit → fsys → Prop) :
  inode_at s x → (∀ s', flog s' = flog s → moved s s' (set_d_addr k r x) → Q tt s') → wp (set_addr ip k r) Q s.
Proof.
  intros (i & Hi & Hd & Hx) HQ. apply wp_modify. apply HQ; [done|]. split; try done. simpl. apply list_alter_ext_at with i; [done|]. by rewrite Hx.
Qed.

(** The file took blocks; its contents are the same. *)
Definition grown (s : fsys) (v : Z → list Z) (x : dinode) (bl : list Z) (r : Z) (s' : fsys) (v' : Z → list Z) (x' : dinode) (bl' : list Z) : Prop :=
  TX s' v' bl' ∅ ∧ moved s s' x' ∧ ext v x v' x' ∧ (∀ k, 0 ≤ k < MAXFILE * BSIZE → content v' x' k = content v x k) ∧
  ∀ b, b ∈ bl' → b ∈ bl ∨ bitmap sb b ∨ b ≠ 0 ∧ (b = ind x' ∨ b = r).

Definition full (v : Z → list Z) : Prop := ∀ b, 0 ≤ b < sb_size sb → used sb v b = true.

Section call.
Context (s : fsys) (v : Z → list Z) (x : dinode) (bl : list Z).
Context (HT : TX s v bl ∅) (Hfsb : fsb s = sb) (Hino : inode_at s x) (HV : FSV sb v) (HI : IOK v x).

Lemma grown_refl r s' l : TX (set_flog l s) v bl ∅ → s' = set_flog l s ∨ s' = Fsys l (fsb s) (itable s) (cwd s) (printed s ++ ["balloc: out of blocks"]) (umem s) →
  grown s v x bl r s' v x bl.
Proof.
  intros HT' Hs'. split_and!; [|by apply moved_refl; destruct Hs' as [->| ->]|by apply (ext_refl sb)|done|by left].
  eapply TX_frame; [|exact HT']. by destruct Hs' as [->| ->].
Qed.

Lemma bitmap_BBLOCK r : isdata sb r → bitmap sb (BBLOCK r sb).
Proof. intros Hr. destruct (isdata_range e sb Hsb r Hr) as (Hrr & _). destruct (BBLOCK_range e sb Hsb r Hrr) as (_ & ? & _). done. Qed.

Lemma bmap_direct bn :
  room e bl ∅ 2 → 0 ≤ bn < NDIRECT →
  wp (bmap ip bn) (λ r s', ∃ v' x' bl', grown s v x bl r s' v' x' bl' ∧ (r ≠ 0 → fblk v' x' bn = r) ∧ (r = 0 → full v') ∧
    (fblk v x bn ≠ 0 → r = fblk v x bn ∧ v' = v ∧ x' = x ∧ bl' = bl ∧ ∃ l, s' = set_flog l s)) s.
Proof.
  intros Hroom Hbn. unfold bmap. apply wp_bind, (wp_iat s x); [done|]. intros i Hdev Hdisk Hi. rewrite (proj2 (Z.ltb_lt _ _)) by lia.
  assert (addr_of i bn = A x bn) as -> by (unfold addr_of, A; by rewrite Hdisk). assert (fblk v x bn = A x bn) as Eb by (unfold fblk; by rewrite (proj2 (Z.ltb_lt _ _)) by lia).
  destruct (Z.eqb_spec (A x bn) 0) as [H0|Hne].
  - rewrite Hdev. apply wp_bind. eapply wp_mono; [|apply (balloc_ok e sb Hsb s v bl ∅ HT Hfsb HV Hroom); intros b y; by rewrite lookup_empty].
    intros r s' [(-> & Hfull & l & HT' & ->)|(Hr & Hfree & l & -> & HT')]; cbn beta.
    + apply wp_ret. exists v, x, bl. split_and!; [by eapply grown_refl; [exact HT'|right]|done|done|by rewrite Eb].
    + pose proof (isdata_range e sb Hsb r Hr) as (_ & _ & Hr0). rewrite (proj2 (Z.eqb_neq _ _)) by done. apply wp_bind.
      apply (wp_set_addr (set_flog l s) x); [done|]. intros s1 Hf Hmv. apply wp_ret. destruct (alloc_direct e sb Hsb v x r HI HV Hr Hfree bn Hbn H0) as (Hx & Hc & Hfb).
      eexists _, _, _. split_and!; [split_and!|done|done|by rewrite Eb].
      * eapply TX_frame; [exact Hf|exact HT'].
      * destruct Hmv. by split.
      * done.
      * done.
      * intros b. rewrite !elem_of_add_block. intros [->|[->|Hb]]; [right; right; split; [done|by right]|right; left; by apply bitmap_BBLOCK|by left].
  - apply wp_ret. exists v, x, bl. split_and!; [|done|done|intros _; split_and!; try done; exists (flog s); by destruct s]. eapply (grown_refl _ _ (flog s)); [|left]; by destruct s.
Qed.

(** The indirect block. *)
Lemma bmap_ind i :
  i_dev i = ROOTDEV → i_disk i = x → room e bl ∅ 2 →
  wp (if addr_of i NDIRECT =? 0 then
        addr ← balloc (i_dev i);
        if addr =? 0 then mret 0 else set_addr ip NDIRECT addr;; mret addr
      else mret (addr_of i NDIRECT))
    (λ r s', ∃ v' x' bl', grown s v x bl 0 s' v' x' bl' ∧ r = ind x' ∧ (r = 0 → full v') ∧ (length bl' ≤ length bl + 2)%nat ∧
       (ind x ≠ 0 → v' = v ∧ x' = x ∧ bl' = bl ∧ s' = s)) s.
Proof.
  intros Hdev Hdisk Hroom. assert (addr_of i NDIRECT = ind x) as -> by (unfold addr_of, ind, A; by rewrite Hdisk).
  destruct (Z.eqb_spec (ind x) 0) as [H0|Hne].
  - rewrite Hdev. apply wp_bind. eapply wp_mono; [|apply (balloc_ok e sb Hsb s v bl ∅ HT Hfsb HV Hroom); intros b y; by rewrite lookup_empty].
    intros r s' [(-> & Hfull & l & HT' & ->)|(Hr & Hfree & l & -> & HT')]; cbn beta.
    + apply wp_ret. exists v, x, bl. split_and!; [by eapply grown_refl; [exact HT'|right]|done|done|lia|done].
    + pose proof (isdata_range e sb Hsb r Hr) as (_ & _ & Hr0). rewrite (proj2 (Z.eqb_neq _ _)) by done. apply wp_bind.
      apply (wp_set_addr (set_flog l s) x); [done|]. intros s1 Hf Hmv. apply wp_ret. destruct (alloc_ind e sb Hsb v x r HI HV Hr Hfree H0) as (Hx & Hc & Hi & _).
      eexists _, _, _. split_and!; [split_and!|done|done| |done].
      * eapply TX_frame; [exact Hf|exact HT'].
      * destruct Hmv. by split.
      * done.
      * done.
      * intros b. rewrite !elem_of_add_block, Hi. intros [->|[->|Hb]]; [right; right; split; [done|by left]|right; left; by apply bitmap_BBLOCK|by left].
      * pose proof (length_add_block r (add_block (BBLOCK r sb) bl)). pose proof (length_add_block (BBLOCK r sb) bl). lia.
  - apply wp_ret. exists v, x, bl. split_and!; [|done|done|lia|done]. eapply (grown_refl _ _ (flog s)); [|left]; by destruct s.
Qed.

(** The entry of the indirect block. *)
Lemma bmap_entry bn :
  room e bl ∅ 4 → NDIRECT ≤ bn < MAXFILE → ind x ≠ 0 →
  wp (bp ← bread ROOTDEV (ind x);
      a ← data bp;
      addr ← (if get32 (4 * (bn - NDIRECT)) a =? 0 then
                addr ← balloc ROOTDEV;
                (if negb (addr =? 0) then modify_data bp (put32 (4 * (bn - NDIRECT)) addr);; Fs.log_write bp else mret tt);;
                mret addr
              else mret (get32 (4 * (bn - NDIRECT)) a));
      brelse bp;;
      mret addr)
    (λ r s', ∃ v' bl', grown s v x bl r s' v' x bl' ∧ (r ≠ 0 → fblk v' x bn = r) ∧ (r = 0 → full v') ∧
      (fblk v x bn ≠ 0 → r = fblk v x bn ∧ v' = v ∧ bl' = bl ∧ ∃ l, s' = set_flog l s)) s.
Proof.
  intros Hroom Hbn Hne. destruct (io_ind _ _ _ HI Hne) as [Hd Hu]. destruct (isdata_range e sb Hsb _ Hd) as (Hrg & Hnb & _).
  assert (home e (ind x)) as Hhome by (by apply (data_home e sb Hsb)).
  destruct (room_bufs _ _ _ _ _ _ HT Hroom) as [R1 R2]; [lia|].
  assert (fblk v x bn = get32 (4 * (bn - NDIRECT)) (v (ind x))) as Eb by (unfold fblk; rewrite (proj2 (Z.ltb_ge _ _)), (proj2 (Z.eqb_neq _ _)) by (done || lia); done).
  apply wp_bind, (wp_fs_bread e _ _ _ _ HT); [apply lookup_empty|done|]. intros j l1 H1.
  apply wp_bind. eapply (wp_fs_data e _ _ _ _ H1 (ind x)); [apply lookup_insert_eq|]. rewrite <-Eb.
  destruct (Z.eqb_spec (fblk v x bn) 0) as [H0|Hn0].
  2:{ apply wp_bind, wp_ret, wp_bind. eapply wp_fs_brelse_same; [exact H1|apply lookup_empty|]. intros l2 H2. apply wp_ret.
      exists v, bl. split_and!; [by eapply grown_refl; [exact H2|left]|done|done|intros _; split_and!; try done; by exists l2]. }
  apply wp_bind, wp_bind. eapply wp_mono; [|eapply (balloc_ok e sb Hsb _ v bl _ H1 Hfsb HV)].
  2:{ unfold room in *. rewrite map_size_insert_None, map_size_empty by apply lookup_empty. rewrite map_size_empty in Hroom. lia. }
  2:{ intros b y. destruct (decide (b = ind x)) as [->|]; [intros _; split; [apply Hd|done]|]. rewrite lookup_insert_ne, lookup_empty by congruence. done. }
  intros r s' [(-> & Hfull & l & HT' & ->)|(Hr & Hfree & l & -> & HT')]; cbn beta.
  - simpl negb. cbv iota. apply wp_bind, wp_ret, wp_ret, wp_bind.
    set (s1 := Fsys _ _ _ _ _ _). assert (TX s1 v bl (<[ind x := (j, v (ind x))]> ∅)) as HT1 by (eapply TX_frame; [|exact HT']; done).
    eapply wp_fs_brelse_same; [exact HT1|apply lookup_empty|]. intros l2 H2. apply wp_ret.
    exists v, bl. split_and!; [|done|done|done]. eapply (grown_refl _ _ l2); [|by right]. eapply TX_frame; [|exact H2]. done.
  - destruct (isdata_range e sb Hsb r Hr) as (_ & _ & Hr0). rewrite (proj2 (Z.eqb_neq _ _)) by done. simpl negb. cbv iota.
    pose proof (length_add_block r (add_block (BBLOCK r sb) bl)) as La. pose proof (length_add_block (BBLOCK r sb) bl) as Lb.
    apply wp_bind, wp_bind. eapply (wp_fs_modify e _ _ _ _ HT' (ind x)); [apply lookup_insert_eq|]. intros l2 H2.
    eapply (wp_fs_log_write e _ _ _ _ H2 (ind x)); [apply lookup_insert_eq|done|lia|]. intros l3 H3. apply wp_ret, wp_bind.
    eapply (wp_fs_brelse e _ _ _ _ H3 (ind x)); [apply lookup_insert_eq|left; apply elem_of_add_block; by left|]. intros l4 H4. apply wp_ret.
    rewrite !delete_insert_eq, delete_id in H4 by apply lookup_empty.
    destruct (alloc_entry e sb Hsb v x r HI HV Hr Hfree bn Hbn Hne H0) as (Hx & Hc & Hfb).
    eexists _, _. split_and!; [split_and!; [exact H4|by apply moved_refl|exact Hx|exact Hc|]|done|done|done].
    intros b. rewrite !elem_of_add_block. intros [->|[->|[->|Hb]]]; [|right; right; split; [done|by right]|right; left; by apply bitmap_BBLOCK|by left].
    right. right. split; [done|by left].
Qed.
End call.

(** [bmap] returns block [bn] of the file, which takes a free block if it has
    none; 0 means that no block is free. *)
Lemma bmap_ok s v x bl bn :
  TX s v bl ∅ → fsb s = sb → inode_at s x → FSV sb v → IOK v x → room e bl ∅ 6 → 0 ≤ bn < MAXFILE →
  wp (bmap ip bn) (λ r s', ∃ v' x' bl', grown s v x bl r s' v' x' bl' ∧ (r ≠ 0 → fblk v' x' bn = r) ∧ (r = 0 → full v') ∧
    (fblk v x bn ≠ 0 → r = fblk v x bn ∧ v' = v ∧ x' = x ∧ bl' = bl ∧ ∃ l, s' = set_flog l s)) s.
Proof.
  intros HT Hfsb Hino HV HI Hroom Hbn. destruct (Z.ltb_spec bn NDIRECT) as [Hlt|Hge].
  { apply bmap_direct; try done; [unfold room in *; lia|lia]. }
  unfold bmap. apply wp_bind, (wp_iat s x); [done|]. intros i Hdev Hdisk Hi. rewrite (proj2 (Z.ltb_ge _ _)) by lia. cbv zeta.
  rewrite (proj2 (Z.ltb_lt _ _)) by (unfold MAXFILE in *; lia).
  apply wp_bind. eapply wp_mono; [|apply (bmap_ind s v x bl HT Hfsb Hino HV HI i Hdev Hdisk); unfold room in *; lia].
  intros a s1 (v1 & x1 & bl1 & (HT1 & Hm1 & Hx1 & Hc1 & Hb1) & -> & Hfull & Hlen & Hsame). cbn beta.
  destruct (Z.eqb_spec (ind x1) 0) as [H0|Hne].
  - apply wp_ret. exists v1, x1, bl1. split_and!; [done|done|by intros; apply Hfull|]. intros Hf. exfalso. apply Hf. unfold fblk.
    rewrite (proj2 (Z.ltb_ge _ _)) by lia. destruct (Z.eqb_spec (ind x) 0) as [|Hn]; [done|]. destruct (Hsame Hn) as (_ & E & _). congruence.
  - rewrite Hdev. eapply wp_mono; [|apply (bmap_entry s1 v1 x1 bl1 HT1); [by rewrite (mv_fsb _ _ _ Hm1)|by eapply moved_inode|apply Hx1|apply Hx1|unfold room in *; lia|lia|done]].
    intros r s2 (v2 & bl2 & (HT2 & Hm2 & Hx2 & Hc2 & Hb2) & Hr1 & Hr2 & Hr3). exists v2, x1, bl2. split_and!; [split_and!|done|done|].
    + done.
    + by eapply moved_trans.
    + by eapply (ext_trans e sb Hsb v x v1 x1).
    + intros k Hk. by rewrite Hc2, Hc1.
    + intros b [Hb|[Hb|Hb]]%Hb2; [|by right; left|by right; right]. destruct (Hb1 _ Hb) as [?|[?|[Hb0 [->|?]]]]; [by left|by right; left| |done].
      right. right. split; [done|by left].
    + intros Hf. destruct (decide (ind x = 0)) as [E|E].
      * exfalso. apply Hf. unfold fblk. rewrite (proj2 (Z.ltb_ge _ _)), E by lia. done.
      * destruct (Hsame E) as (-> & -> & -> & ->). destruct (Hr3 Hf) as (? & ? & ? & ?). done.
Qed.

(** ** [readi] *)

(** [m] bytes of the file from [off]. *)
Definition fbytes (v : Z → list Z) (x : dinode) (off m : Z) : list Z := (λ k, content v x (off + k)) <$> seqZ 0 m.

Lemma length_fbytes v x off m : length (fbytes v x off m) = Z.to_nat m.
Proof. unfold fbytes. by rewrite length_fmap, length_seqZ. Qed.

Lemma fbytes_app v x off m m' : 0 ≤ m → 0 ≤ m' → fbytes v x off (m + m') = fbytes v x off m ++ fbytes v x (off + m) m'.
Proof.
  intros Hm Hm'. unfold fbytes. rewrite seqZ_app, fmap_app by done. f_equal. rewrite Z.add_0_l.
  replace (seqZ m m') with (Z.add m <$> seqZ 0 m') by (rewrite fmap_add_seqZ; f_equal; lia). rewrite <-list_fmap_compose.
  apply list_fmap_ext. intros i k _. simpl. f_equal. lia.
Qed.

Lemma slice_fbytes v x off m :
  0 ≤ off → 0 ≤ m → off mod BSIZE + m ≤ BSIZE → fblk v x (off / BSIZE) ≠ 0 → length (v (fblk v x (off / BSIZE))) = Z.to_nat BSIZE →
  slice (off mod BSIZE) m (v (fblk v x (off / BSIZE))) = fbytes v x off m.
Proof.
  intros Ho Hm Hb Hne Hlen. unfold slice, fbytes. unfold BSIZE in *. apply list_eq. intros i. rewrite list_lookup_fmap.
  assert (0 ≤ off mod 1024) by zdm. destruct (decide (Z.of_nat i < m)) as [Hi|Hi].
  - rewrite lookup_seqZ_lt, lookup_take_lt, lookup_drop by lia. simpl. rewrite ?Z.add_0_l. unfold content, BSIZE.
    assert ((off + Z.of_nat i) / 1024 = off / 1024 ∧ (off + Z.of_nat i) mod 1024 = off mod 1024 + Z.of_nat i) as [-> ->] by zdm.
    rewrite (proj2 (Z.eqb_neq _ _)) by done. unfold byte_at. rewrite Z2Nat.inj_add, Nat2Z.id by lia.
    destruct (v (fblk v x (off / 1024)) !! (Z.to_nat (off mod 1024) + i)%nat) as [y|] eqn:E; [done|]. apply lookup_ge_None in E. lia.
  - rewrite lookup_seqZ_ge, lookup_take_ge by lia. done.
Qed.

(** Bytes given to the target of a read: its status, what a kernel buffer
    receives, and user memory. *)
Definition deliver (t : target) (bs : list Z) (u : U) : Z * list Z * U :=
  match t with ToKernel => (0, bs, u) | ToUser a => let '(r, u') := um_copyout (u64 a) bs u in (r, [], u') end.

Definition shift (t : target) (k : Z) : target := match t with ToKernel => ToKernel | ToUser a => ToUser (a + k) end.

Lemma deliver_nil `{!UserMemLaws U} t u : deliver t [] u = (0, [], u).
Proof. destruct t as [|a]; simpl; [done|]. by rewrite um_out_nil. Qed.

Lemma deliver_app `{!UserMemLaws U} t bs bs' u acc u' :
  deliver t bs u = (0, acc, u') →
  deliver t (bs ++ bs') u = let '(r, acc', u'') := deliver (shift t (Z.of_nat (length bs))) bs' u' in (r, acc ++ acc', u'').
Proof.
  destruct t as [|a]; simpl; [by intros [= <- <-]|]. rewrite um_out_app. destruct (um_copyout (u64 a) bs u) as [r u1]. intros [= -> <- <-]. simpl.
  by destruct (um_copyout (u64 (a + Z.of_nat (length bs))) bs' u1).
Qed.

Lemma deliver_fail `{!UserMemLaws U} t bs bs' u acc u' : deliver t bs u = (-1, acc, u') → deliver t (bs ++ bs') u = (-1, acc, u').
Proof.
  destruct t as [|a]; simpl; [done|]. rewrite um_out_app. destruct (um_copyout (u64 a) bs u) as [r u1]. by intros [= -> <- <-].
Qed.

Lemma deliver_status `{!UserMemLaws U} t bs u : (deliver t bs u).1.1 = 0 ∨ (deliver t bs u).1.1 = -1.
Proof.
  destruct t as [|a]; simpl; [by left|]. pose proof (um_out (u64 a) bs u) as H. by destruct (um_copyout (u64 a) bs u).
Qed.

Lemma wp_either_copyout t k bs (Q : Z * list Z → fsys → Prop) s :
  (let '(r, acc, u) := deliver (shift t k) bs (umem s) in Q (r, acc) (set_umem u s)) → wp (either_copyout t k bs) Q s.
Proof.
  destruct t as [|a]; simpl; intros HQ; [apply wp_ret; by destruct s|]. unfold either_copyout. apply wp_bind, wp_get.
  destruct (um_copyout (u64 (a + k)) bs (umem s)) as [r u]. apply wp_bind, wp_put, wp_ret. done.
Qed.

(** A file: every block below its size is there. *)
Record file_ok (v : Z → list Z) (x : dinode) : Prop := {
  fk_iok : IOK v x;
  fk_size : d_size x ≤ MAXFILE * BSIZE;
  fk_alloc : ∀ bn, 0 ≤ bn → bn * BSIZE < d_size x → fblk v x bn ≠ 0
}.

(** The bytes [readi] has to deliver. *)
Definition readable (x : dinode) (off n : Z) : Z :=
  if (d_size x <? off) || (2 ^ 32 <=? off + n) then 0 else Z.min n (d_size x - off).

Definition read_post (s : fsys) (v : Z → list Z) (x : dinode) (bl : list Z) (t : target) (off m : Z) (r : Z * list Z) (s' : fsys) : Prop :=
  ∃ l st acc u, deliver t (fbytes v x off m) (umem s) = (st, acc, u) ∧ r = (if st =? -1 then -1 else m, acc) ∧
    s' = set_umem u (set_flog l s) ∧ TX s' v bl ∅.

Section readi.
Context `{!UserMemLaws U} (s : fsys) (v : Z → list Z) (x : dinode) (bl : list Z).
Context (HT : TX s v bl ∅) (Hfsb : fsb s = sb) (Hino : inode_at s x) (HV : FSV sb v) (HF : file_ok v x) (Hroom : room e bl ∅ 6).
Context (t : target) (off n : Z) (Hoff : 0 ≤ off) (Hn : 0 ≤ n) (Hend : off + n ≤ d_size x).

Definition read_inv (y : Z * Z * list Z) (s' : fsys) : Prop :=
  let '(tot, o, acc) := y in
  o = off + tot ∧ 0 ≤ tot ≤ n ∧ ∃ l u, deliver t (fbytes v x off tot) (umem s) = (0, acc, u) ∧ s' = set_umem u (set_flog l s) ∧ TX s' v bl ∅.

(** Blocks still to be visited. *)
Definition blocks_left (o tot : Z) : nat := if tot <? n then Z.to_nat ((off + n - 1) / BSIZE - o / BSIZE + 1) else 0.

Lemma blocks_left_step tot m :
  0 ≤ tot < n → m = Z.min (n - tot) (BSIZE - (off + tot) mod BSIZE) → (blocks_left (off + tot + m) (tot + m) < blocks_left (off + tot) tot)%nat.
Proof.
  intros Htot ->. unfold blocks_left, BSIZE. rewrite (proj2 (Z.ltb_lt tot n)) by lia. destruct (Z.ltb_spec (tot + Z.min (n - tot) (1024 - (off + tot) mod 1024)) n); zdm.
Qed.

Lemma readi_step y s1 :
  read_inv y s1 →
  wp (readi_body ip t n y) (λ r s', match r with
    | inl y' => read_inv y' s' ∧ (blocks_left y'.1.2 y'.1.1 < blocks_left y.1.2 y.1.1)%nat
    | inr (tot, acc) => read_post s v x bl t off n (s32 tot, acc) s' end) s1.
Proof.
  destruct y as [[tot o] acc]. intros (-> & Htot & l1 & u1 & Hdel & -> & H1). unfold readi_body. destruct HF as [HI Hsz Hal].
  assert (MAXFILE * BSIZE = 274432) as Emax by done.
  destruct (Z.ltb_spec tot n) as [Hlt|Hge].
  2:{ apply wp_ret. assert (tot = n) as -> by lia. exists l1, 0, acc, u1. split_and!; [done|by rewrite s32_id by lia|done|done]. }
  set (bn := (off + tot) / BSIZE). assert (fblk v x bn ≠ 0 ∧ 0 ≤ bn < MAXFILE) as [Hne Hbn].
  { assert (0 ≤ bn < MAXFILE) as Hb by (unfold bn, BSIZE in *; change MAXFILE with 268; zdm). split; [|done]. apply Hal; [lia|]. unfold bn, BSIZE in *. zdm. }
  apply wp_bind. eapply wp_mono; [|apply (bmap_ok (set_umem u1 (set_flog l1 s)) v x bl bn); try done].
  intros a s2 (v' & x' & bl' & (HT2 & _ & _ & _ & _) & _ & _ & Hs). destruct (Hs Hne) as (-> & -> & -> & -> & l2 & ->). cbn beta.
  rewrite (proj2 (Z.eqb_neq _ _)) by done. apply wp_bind, (wp_iat _ x); [done|]. intros i Hdev _ _. rewrite Hdev.
  destruct (room_bufs _ _ _ _ _ _ HT2 Hroom) as [R1 _]; [lia|].
  apply wp_bind, (wp_fs_bread e _ _ _ _ HT2); [apply lookup_empty|done|]. intros j l3 H3.
  apply wp_bind. eapply (wp_fs_data e _ _ _ _ H3); [apply lookup_insert_eq|]. set (m := Z.min (n - tot) (BSIZE - (off + tot) mod BSIZE)).
  assert (0 < m ∧ (off + tot) mod BSIZE + m ≤ BSIZE ∧ tot + m ≤ n) as (Hm0 & Hm & Hmn) by (unfold m, BSIZE; zdm).
  unfold bn. rewrite slice_fbytes; [|lia|lia|done|done|apply HV]. fold bn.
  apply wp_bind, wp_either_copyout. destruct (deliver (shift t tot) _ _) as [[r acc'] u2] eqn:Ed.
  assert (deliver t (fbytes v x off (tot + m)) (umem s) = (r, acc ++ acc', u2)) as Edel.
  { rewrite fbytes_app by lia. rewrite (deliver_app _ _ _ _ _ _ Hdel), length_fbytes, Z2Nat.id by lia. simpl in Ed. by rewrite Ed. }
  apply wp_bind. set (s3 := set_umem u2 _). assert (TX s3 v bl (<[fblk v x bn := (j, v (fblk v x bn))]> ∅)) as HT3 by (by eapply TX_frame; [|exact H3]).
  eapply wp_fs_brelse_same; [exact HT3|apply lookup_empty|]. intros l4 H4. cbn [fst snd].
  destruct (deliver_status t (fbytes v x off (tot + m)) (umem s)) as [E|E]; rewrite Edel in E; simpl in E; subst r; cbn [Z.eqb]; apply wp_ret.
  - split; [|cbn [fst snd]; apply blocks_left_step; [lia|done]]. split; [lia|]. split; [lia|]. exists l4, u2. split_and!; [done|done|done].
  - exists l4, (-1), (acc ++ acc'), u2. split_and!; [|by rewrite s32_u32|done|done].
    replace n with (tot + m + (n - (tot + m))) by lia. rewrite fbytes_app by lia. by apply deliver_fail.
Qed.
End readi.

(** [readi] delivers the bytes of the file from [off], at most [n] and within the
    size of the file. *)
Lemma readi_ok `{!UserMemLaws U} s v x bl t off n :
  TX s v bl ∅ → fsb s = sb → inode_at s x → FSV sb v → file_ok v x → room e bl ∅ 6 → 0 ≤ off < 2 ^ 32 → 0 ≤ n < 2 ^ 32 →
  wp (readi ip t off n) (read_post s v x bl t off (readable x off n)) s.
Proof.
  intros HT Hfsb Hino HV HF Hroom Hoff Hn. unfold readi. apply wp_bind, (wp_iat s x); [done|]. intros i _ Hdisk _. rewrite Hdisk.
  pose proof (dk_size _ (io_dinode _ _ _ (fk_iok _ _ HF))) as Hsz. unfold readable.
  assert ((u32 (off + n) <? off) = (2 ^ 32 <=? off + n)) as ->.
  { unfold u32. destruct (Z.leb_spec (2 ^ 32) (off + n)) as [H|H]; [apply Z.ltb_lt|apply Z.ltb_ge]; zdm. }
  destruct (Z.ltb_spec (d_size x) off) as [Hgt|Hle]; simpl orb; cbv iota.
  { apply wp_ret. exists (flog s), 0, [], (umem s). split_and!; [apply deliver_nil|done|by destruct s|by destruct s]. }
  destruct (Z.leb_spec (2 ^ 32) (off + n)) as [Hov|Hov].
  { apply wp_ret. exists (flog s), 0, [], (umem s). split_and!; [apply deliver_nil|done|by destruct s|by destruct s]. }
  rewrite u32_small by lia. replace (if d_size x <? off + n then d_size x - off else n) with (Z.min n (d_size x - off)) by (destruct (Z.ltb_spec (d_size x) (off + n)); lia).
  set (m := Z.min n (d_size x - off)). apply wp_bind.
  apply (wp_iter (read_inv s v x bl t off m) (λ y _, blocks_left off m y.1.2 y.1.1)).
  - intros y s1 Hy. eapply wp_mono; [|apply (readi_step s v x bl Hfsb Hino HV HF Hroom t off m); [lia|lia|lia|exact Hy]].
    intros [y'|[tot acc]] s2; [done|]. intros Hp. apply wp_ret. exact Hp.
  - split; [lia|]. split; [lia|]. exists (flog s), (umem s). split_and!; [apply deliver_nil|by destruct s|by destruct s].
  - cbn [fst snd]. unfold blocks_left, BSIZE. destruct (0 <? m); zdm.
Qed.

(** ** [iupdate] *)

Definition inum_at (s : fsys) (inum : Z) : Prop := ∃ i, itable s !! ip = Some i ∧ i_inum i = inum.

Lemma moved_inum s s' x' inum : inum_at s inum → moved s s' x' → inum_at s' inum.
Proof.
  intros (i & Hi & Hn) [_ _ _ Ht]. exists (set_i_disk x' i). split; [|done]. by rewrite Ht, list_lookup_alter_eq, Hi.
Qed.

(** The inode [inum] on disk. *)
Definition dinode_at (v : Z → list Z) (inum : Z) : dinode := get_dinode (64 * (inum mod IPB)) (v (IBLOCK inum sb)).

(** The contents once the inode [inum] is stored. *)
Definition stored (v : Z → list Z) (inum : Z) (x : dinode) : Z → list Z :=
  <[IBLOCK inum sb := put_dinode (64 * (inum mod IPB)) x (v (IBLOCK inum sb))]> v.

Section stored.
Context (v : Z → list Z) (inum : Z) (x : dinode) (HV : FSV sb v) (Hinum : 0 ≤ inum < sb_ninodes sb).

Lemma slot_bound i : 0 ≤ i → 0 ≤ 64 * (i mod IPB) ∧ 64 * (i mod IPB) + 64 ≤ BSIZE.
Proof. intros Hi. unfold IPB, BSIZE. change (1024 / 64) with 16. zdm. Qed.

Lemma inode_block : ¬ bitmap sb (IBLOCK inum sb) ∧ ¬ isdata sb (IBLOCK inum sb) ∧ 0 ≤ IBLOCK inum sb < datastart sb.
Proof.
  destruct (IBLOCK_range e sb Hsb inum Hinum) as (_ & Hr & Hh & _). unfold bitmap, isdata.
  assert (sb_bmapstart sb < datastart sb); [|lia]. unfold datastart. pose proof (so_data _ _ Hsb). unfold datastart, BPB, BSIZE in *. zdm.
Qed.

Lemma stored_ne b : b ≠ IBLOCK inum sb → stored v inum x b = v b.
Proof. intros Hb. unfold stored. by rewrite fn_lookup_insert_ne. Qed.

Lemma stored_used b : 0 ≤ b < sb_size sb → used sb (stored v inum x) b = used sb v b.
Proof.
  intros Hb. unfold used. rewrite stored_ne; [done|]. destruct (BBLOCK_range e sb Hsb b Hb) as (_ & Hr & _). destruct inode_block as [Hn _]. unfold bitmap in Hn. lia.
Qed.

Lemma stored_ok : FSV sb (stored v inum x).
Proof.
  destruct (slot_bound inum) as [Ho1 Ho2]; [lia|]. destruct (fv_blocks _ _ HV (IBLOCK inum sb)) as [Hl Hb]. split.
  - destruct (put_dinode_props (64 * (inum mod IPB)) x (v (IBLOCK inum sb))) as (H1 & H2 & _); [done|lia|].
    apply blocks_ok_insert; [apply HV|by rewrite H1|by apply H2].
  - intros b Hb'. rewrite stored_used by (pose proof (so_data _ _ Hsb); lia). by apply HV.
Qed.

Lemma stored_fblk y bn : IOK v y → 0 ≤ bn < MAXFILE → fblk (stored v inum x) y bn = fblk v y bn.
Proof.
  intros HI Hbn. unfold fblk. repeat case_match; try done. rewrite stored_ne; [done|]. intros E. destruct inode_block as (_ & Hd & _).
  apply Hd. rewrite <-E. apply (io_ind _ _ _ HI). by apply Z.eqb_neq.
Qed.

Lemma stored_iok y : IOK v y → IOK (stored v inum x) y ∧ ∀ k, 0 ≤ k < MAXFILE * BSIZE → content (stored v inum x) y k = content v y k.
Proof.
  intros HI. pose proof (stored_fblk y) as Hb. destruct inode_block as (_ & Hd & _). pose proof HI as [H1 H2 H3 H4 H5]. split; [split; [done| | | |]|].
  - intros k Hk. rewrite Hb by done. intros Hk0. destruct (H2 k Hk Hk0) as [Hdk ?]. split; [done|]. by rewrite stored_used by (by apply (isdata_range e sb Hsb)).
  - intros Hi. destruct (H3 Hi) as [Hdi ?]. split; [done|]. by rewrite stored_used by (by apply (isdata_range e sb Hsb)).
  - intros k k' Hk Hk'. rewrite !Hb by done. by apply H4.
  - intros k Hk. rewrite Hb by done. by apply H5.
  - intros k Hk. unfold content. assert (0 ≤ k / BSIZE < MAXFILE) as Hq by (unfold BSIZE in *; zdm). rewrite Hb by done.
    destruct (Z.eqb_spec (fblk v y (k / BSIZE)) 0) as [|Hne]; [done|]. rewrite stored_ne; [done|]. intros E. apply Hd. rewrite <-E. by apply H2.
Qed.

Lemma stored_dinode i : dinode_ok x → 0 ≤ i < sb_ninodes sb → dinode_at (stored v inum x) i = if decide (i = inum) then x else dinode_at v i.
Proof.
  intros Hx Hi. destruct (slot_bound inum) as [Ho1 Ho2]; [lia|]. destruct (slot_bound i) as [Hi1 Hi2]; [lia|]. destruct (fv_blocks _ _ HV (IBLOCK inum sb)) as [Hl _].
  unfold dinode_at, stored. destruct (decide (IBLOCK inum sb = IBLOCK i sb)) as [E|E].
  - rewrite <-E, fn_lookup_insert. case_decide as Ei; [subst i; apply get_put_dinode; [done|lia|done]|]. apply get_put_dinode_ne; [done|done|lia|].
    destruct (IBLOCK_range e sb Hsb inum Hinum) as (E1 & _). destruct (IBLOCK_range e sb Hsb i Hi) as (E2 & _). unfold IPB, BSIZE in *. change (1024 / 64) with 16 in *. zdm.
  - rewrite fn_lookup_insert_ne by done. rewrite decide_False; [done|]. congruence.
Qed.
End stored.

Lemma iupdate_ok s v x bl inum (Q : unit → fsys → Prop) :
  TX s v bl ∅ → fsb s = sb → inode_at s x → inum_at s inum → 0 ≤ inum < sb_ninodes sb → room e bl ∅ 1 →
  (∀ l, TX (set_flog l s) (stored v inum x) (add_block (IBLOCK inum sb) bl) ∅ → Q tt (set_flog l s)) → wp (iupdate ip) Q s.
Proof.
  intros HT Hfsb Hino (i' & Hi' & Hnum) Hr Hroom HQ. unfold iupdate. apply wp_bind, (wp_iat s x); [done|]. intros i Hdev Hdisk Hi.
  assert (i' = i) as -> by congruence. apply wp_bind, wp_gets. rewrite Hdev, Hdisk, Hnum, Hfsb.
  destruct (room_bufs _ _ _ _ _ _ HT Hroom) as [R1 R2]; [lia|]. destruct (IBLOCK_range e sb Hsb inum Hr) as (_ & _ & Hh).
  apply wp_bind, (wp_fs_bread e _ _ _ _ HT); [apply lookup_empty|done|]. intros j l1 H1.
  eapply (wp_fs_update_end e _ _ _ _ (IBLOCK inum sb) j _ _ _ H1); [apply lookup_empty|done|lia|]. intros l2 H2. by apply (HQ l2).
Qed.
End bmap.
