(* ===== verification/Fswrite.v ===== *)
(** * Writing files: [writei]

    [writei] stores bytes in a file, taking blocks as needed, and stores the
    inode.  Its effect is stated on the contents of the file; every other block
    in use keeps its contents. *)

From stdpp Require Import functions.
From S2P Require Import Prelude Machine Sync Bytes Bio Log Fs Fsrules Fsfile.

(** ** Bytes stored in a block *)

Lemma length_splice o bs d : 0 ≤ o → o + Z.of_nat (length bs) ≤ Z.of_nat (length d) → length (splice o bs d) = length d.
Proof. intros Ho Hl. unfold splice. rewrite !length_app, length_take, length_drop. lia. Qed.

Lemma byte_list_splice o bs d : byte_list bs → byte_list d → byte_list (splice o bs d).
Proof. intros Hb Hd. unfold splice. apply Forall_app. split; [by apply Forall_take|]. apply Forall_app. split; [done|by apply Forall_drop]. Qed.

Lemma byte_at_splice o bs d k :
  0 ≤ o → o + Z.of_nat (length bs) ≤ Z.of_nat (length d) → 0 ≤ k →
  byte_at (splice o bs d) k = if decide (o ≤ k < o + Z.of_nat (length bs)) then byte_at bs (k - o) else byte_at d k.
Proof.
  intros Ho Hl Hk. unfold byte_at, splice. assert (length (take (Z.to_nat o) d) = Z.to_nat o) as Ht by (rewrite length_take; lia). case_decide as E.
  - rewrite lookup_app_r by lia. rewrite Ht, lookup_app_l by lia. do 2 f_equal. lia.
  - destruct (decide (k < o)).
    + rewrite lookup_app_l by lia. by rewrite lookup_take_lt by lia.
    + rewrite !lookup_app_r by (rewrite ?Ht; lia). rewrite lookup_drop, Ht. do 2 f_equal. lia.
Qed.

(** ** The source of a write *)

Section fetch.
Context {U : Type} `{!UserMem U}.

(** The first [n] bytes of the source. *)
Definition fetch (t : source) (n : Z) (u : U) : Z * list Z :=
  match t with FromKernel bs => (0, take (Z.to_nat n) bs) | FromUser a => um_copyin (u64 a) n u end.

Definition sshift (t : source) (k : Z) : source :=
  match t with FromKernel bs => FromKernel (drop (Z.to_nat k) bs) | FromUser a => FromUser (a + k) end.

Lemma fetch_split `{!UserMemLaws U} t n n' u bs :
  0 ≤ n → 0 ≤ n' → length bs = Z.to_nat (n + n') → fetch t (n + n') u = (0, bs) →
  fetch t n u = (0, take (Z.to_nat n) bs) ∧ fetch (sshift t n) n' u = (0, drop (Z.to_nat n) bs).
Proof.
  intros Hn Hn' Hlen. destruct t as [ks|a]; simpl.
  - intros [= <-]. rewrite take_take, Nat.min_l by lia. rewrite skipn_firstn_comm. split; [done|]. do 2 f_equal. lia.
  - rewrite um_in_app by done. destruct (um_in (u64 a) n u) as [[Hr Hl]|[Hr _]]; destruct (um_copyin (u64 a) n u) as [r b1]; simpl in *; subst r; [|done].
    simpl. destruct (um_copyin (u64 (a + n)) n' u) as [r' b2]. intros [= -> <-]. rewrite take_app_length', drop_app_length' by done. done.
Qed.

Lemma wp_either_copyin t k n (Q : Z * list Z → fsys (U := U) → Prop) s : Q (fetch (sshift t k) n (umem s)) s → wp (either_copyin t k n) Q s.
Proof. destruct t as [bs|a]; simpl; intros HQ; [by apply wp_ret|]. by apply wp_bind, wp_get, wp_ret. Qed.
End fetch.

(** ** The loop *)

Section writei.
Context {U : Type} `{!UserMem U} `{!UserMemLaws U} (e : txenv) (sb : superblock) (Hsb : sb_ok e sb) (ip : nat).
Notation fsys := (fsys (U := U)).
Notation TX := (TX e).

(** Blocks a write of [n] bytes at [off] touches. *)
Definition nblk (off n : Z) : Z := if 0 <? n then (off + n - 1) / BSIZE - off / BSIZE + 1 else 0.
Definition nbitmap : Z := datastart sb - sb_bmapstart sb.

Context (s : fsys) (v : Z → list Z) (x : dinode) (bl : list Z).
Context (HT : TX s v bl ∅) (Hfsb : fsb s = sb) (Hino : inode_at ip s x) (HV : FSV sb v) (HF : file_ok sb v x).
Context (t : source) (off n : Z) (bs : list Z).
Context (Hoff : 0 ≤ off ≤ d_size x) (Hn : 0 ≤ n) (Hend : off + n ≤ MAXFILE * BSIZE).
Context (Hfetch : fetch t n (umem s) = (0, bs)) (Hlen : length bs = Z.to_nat n) (Hbytes : byte_list bs).
Context (Hroom : Z.of_nat (length bl) + nbitmap + nblk off n + 8 < te_size e).

(** Block [bn] holds bytes among the first [tot] of the write. *)
Definition touched (tot bn : Z) : Prop := 0 < tot ∧ off / BSIZE ≤ bn ∧ bn * BSIZE < off + tot.

(** The first [tot] bytes are written. *)
Record wrote (tot : Z) (s' : fsys) (v' : Z → list Z) (x' : dinode) (bl' : list Z) : Prop := {
  wr_tx : TX s' v' bl' ∅;
  wr_moved : moved ip s s' x';
  wr_ext : ext sb v x v' x';
  wr_content : ∀ k, 0 ≤ k < MAXFILE * BSIZE → content v' x' k = if decide (off ≤ k < off + tot) then byte_at bs (k - off) else content v x k;
  wr_alloc : ∀ bn, touched tot bn → fblk v' x' bn ≠ 0;
  wr_log : ∀ b, b ∈ bl' → b ∈ bl ∨ bitmap sb b ∨ b ≠ 0 ∧ b = ind x' ∨ ∃ bn, touched tot bn ∧ b = fblk v' x' bn
}.

Lemma nbitmap_pos : 1 ≤ nbitmap.
Proof. clear - Hsb. unfold nbitmap, datastart. pose proof (so_data _ _ Hsb) as H. pose proof (datastart_pos e sb Hsb). unfold datastart, BPB, BSIZE in *. zdm. Qed.

(** How many blocks can have been logged. *)
Lemma log_count tot v' x' bl' :
  0 ≤ tot ≤ n → NoDup bl' →
  (∀ b, b ∈ bl' → b ∈ bl ∨ bitmap sb b ∨ b ≠ 0 ∧ b = ind x' ∨ ∃ bn, touched tot bn ∧ b = fblk v' x' bn) →
  Z.of_nat (length bl') ≤ Z.of_nat (length bl) + nbitmap + nblk off n + 1.
Proof.
  intros Htot Hnd Hlog. pose proof nbitmap_pos as Hnb.
  assert (0 ≤ nblk off n) as Hnk by (unfold nblk, BSIZE; destruct (Z.ltb_spec 0 n); [zdm|lia]).
  set (L := bl ++ seqZ (sb_bmapstart sb) nbitmap ++ [ind x'] ++ (fblk v' x' <$> seqZ (off / BSIZE) (nblk off n))).
  assert (bl' ⊆+ L) as Hsub.
  { apply NoDup_submseteq; [done|]. intros b Hb. unfold L. rewrite !elem_of_app, elem_of_seqZ, list_elem_of_singleton, list_elem_of_fmap.
    destruct (Hlog b Hb) as [?|[Hbm|[[_ ->]|(bn & (H0 & H1 & H2) & ->)]]]; [by left|right; left; unfold bitmap, nbitmap in *; lia|by right; right; left|].
    right. right. right. exists bn. split; [done|]. apply elem_of_seqZ. unfold nblk, BSIZE in *. rewrite (proj2 (Z.ltb_lt 0 n)); zdm. }
  apply submseteq_length in Hsub. unfold L in Hsub. rewrite !length_app, length_fmap, !length_seqZ in Hsub. simpl in Hsub. lia.
Qed.

Lemma count_room tot (s' : fsys) v' x' bl' :
  0 ≤ tot ≤ n → TX s' v' bl' ∅ →
  (∀ b, b ∈ bl' → b ∈ bl ∨ bitmap sb b ∨ b ≠ 0 ∧ b = ind x' ∨ ∃ bn, touched tot bn ∧ b = fblk v' x' bn) → room e bl' ∅ 6.
Proof.
  intros Htot HT' Hlog. pose proof (log_count _ _ _ _ Htot (lhd_nodup _ _ _ _ (tx_lhd _ _ _ _ _ HT')) Hlog).
  unfold room. rewrite map_size_empty. lia.
Qed.

Lemma fetch_chunk tot m : 0 ≤ tot → 0 ≤ m → tot + m ≤ n → fetch (sshift t tot) m (umem s) = (0, take (Z.to_nat m) (drop (Z.to_nat tot) bs)).
Proof.
  intros Htot Hm Hmn. destruct (fetch_split t tot (n - tot) (umem s) bs) as [_ H]; [lia|lia|rewrite Hlen; f_equal; lia|by replace (tot + (n - tot)) with n by lia|].
  destruct (fetch_split (sshift t tot) m (n - tot - m) (umem s) (drop (Z.to_nat tot) bs)) as [H' _]; [lia|lia|rewrite length_drop; lia| |done].
  by replace (m + (n - tot - m)) with (n - tot) by lia.
Qed.

(** A block of the file is there, the copy into it remains. *)
Lemma wrote_block tot m s1 v1 x1 bl1 l :
  0 ≤ tot → 0 < m → tot + m ≤ n → (off + tot) mod BSIZE + m ≤ BSIZE →
  moved ip s s1 x1 → ext sb v x v1 x1 →
  (∀ k, 0 ≤ k < MAXFILE * BSIZE → content v1 x1 k = if decide (off ≤ k < off + tot) then byte_at bs (k - off) else content v x k) →
  (∀ bn, touched tot bn → fblk v1 x1 bn ≠ 0) → fblk v1 x1 ((off + tot) / BSIZE) ≠ 0 →
  (∀ b, b ∈ bl1 → b ∈ bl ∨ bitmap sb b ∨ b ≠ 0 ∧ b = ind x1 ∨ ∃ bn, touched (tot + m) bn ∧ b = fblk v1 x1 bn) →
  let a := fblk v1 x1 ((off + tot) / BSIZE) in
  let y := splice ((off + tot) mod BSIZE) (take (Z.to_nat m) (drop (Z.to_nat tot) bs)) (v1 a) in
  TX (set_flog l s1) (<[a := y]> v1) (add_block a bl1) ∅ →
  wrote (tot + m) (set_flog l s1) (<[a := y]> v1) x1 (add_block a bl1).
Proof.
  intros Htot Hm Hmn Hb Hmv Hx Hc Hal Ha0 Hlog a y HT'. set (bn := (off + tot) / BSIZE) in *. assert (MAXFILE * BSIZE = 274432) as Emax by done.
  assert (0 ≤ bn < MAXFILE) as Hbn by (unfold bn, BSIZE in *; change MAXFILE with 268; zdm).
  assert (touched (tot + m) bn) as Htb by (unfold touched, bn, BSIZE in *; zdm).
  assert (∀ k, touched (tot + m) k → fblk v1 x1 k ≠ 0 ∧ 0 ≤ k < MAXFILE) as Hall.
  { intros k (H0 & H1 & H2). split; [|unfold BSIZE in *; change MAXFILE with 268; zdm]. destruct (decide (k = bn)) as [->|Hne]; [done|].
    apply Hal. unfold touched, bn, BSIZE in *. zdm. }
  set (ch := take (Z.to_nat m) (drop (Z.to_nat tot) bs)) in *. assert (length ch = Z.to_nat m) as Hch by (unfold ch; rewrite length_take, length_drop; lia).
  destruct (fv_blocks _ _ (ext_fsv _ _ _ _ _ Hx) a) as [Hla Hba]. assert (0 ≤ (off + tot) mod BSIZE) as Ho by (unfold BSIZE; zdm).
  destruct (write_block e sb Hsb v1 x1 bn y) as [Hx2 Hc2]; [apply Hx|apply Hx|done|done| | |].
  { unfold y. rewrite length_splice by lia. done. }
  { unfold y. apply byte_list_splice; [|done]. unfold ch. by apply Forall_take, Forall_drop. }
  fold a in Hx2, Hc2. split; [done|by destruct Hmv; split|by eapply (ext_trans e sb Hsb); [apply HF|exact Hx|]| | |].
  - intros k Hk. rewrite Hc2 by done. case_decide as Ek.
    + unfold y. rewrite byte_at_splice by (try lia; unfold BSIZE; zdm). rewrite Hch. case_decide as Ein.
      * rewrite decide_True by (unfold bn, BSIZE in *; zdm). unfold ch, byte_at. rewrite lookup_take_lt, lookup_drop by (unfold bn, BSIZE in *; zdm).
        do 2 f_equal. unfold bn, BSIZE in *. zdm.
      * assert (content v1 x1 k = byte_at (v1 a) (k mod BSIZE)) as <- by (unfold content; rewrite Ek; rewrite (proj2 (Z.eqb_neq _ _)) by done; done).
        rewrite Hc by done. repeat case_decide; try done; unfold bn, BSIZE in *; zdm.
    + rewrite Hc by done. repeat case_decide; try done; unfold bn, BSIZE in *; zdm.
  - intros k Hk. destruct (Hall k Hk) as [Hk0 Hkr]. by rewrite (ext_keep _ _ _ _ _ Hx2).
  - intros b. rewrite elem_of_add_block. intros [->|Hb1]; [right; right; right; exists bn; split; [done|]|].
    + symmetry. by apply (ext_keep _ _ _ _ _ Hx2).
    + destruct (Hlog b Hb1) as [?|[?|[?|(k & Hk & ->)]]]; [by left|by right; left|by right; right; left|]. right. right. right. exists k. split; [done|].
      destruct (Hall k Hk) as [Hk0 Hkr]. symmetry. by apply (ext_keep _ _ _ _ _ Hx2).
Qed.

Definition write_left (o tot : Z) : nat := if tot <? n then Z.to_nat ((off + n - 1) / BSIZE - o / BSIZE + 1) else 0.

Lemma writei_step tot s1 :
  0 ≤ tot ≤ n → (∃ v1 x1 bl1, wrote tot s1 v1 x1 bl1) →
  wp (writei_body ip t n (tot, off + tot)) (λ r s2, match r with
    | inl (tot', o') => o' = off + tot' ∧ 0 ≤ tot' ≤ n ∧ (∃ v2 x2 bl2, wrote tot' s2 v2 x2 bl2) ∧ (write_left o' tot' < write_left (off + tot) tot)%nat
    | inr (k, o') => o' = off + k ∧ 0 ≤ k ≤ n ∧ ∃ v2 x2 bl2, wrote k s2 v2 x2 bl2 ∧ (k < n → full sb v2)
    end) s1.
Proof.
  intros Htot (v1 & x1 & bl1 & Hw). pose proof Hw as [HT1 Hm1 Hx1 Hc1 Ha1 Hl1]. unfold writei_body. assert (MAXFILE * BSIZE = 274432) as Emax by done.
  destruct (Z.ltb_spec tot n) as [Hlt|Hge].
  2:{ apply wp_ret. split_and!; [done|lia|lia|]. exists v1, x1, bl1. split; [done|lia]. }
  set (bn := (off + tot) / BSIZE). assert (0 ≤ bn < MAXFILE) as Hbn by (unfold bn, BSIZE in *; change MAXFILE with 268; zdm).
  apply wp_bind. eapply wp_mono; [|apply (bmap_ok e sb Hsb ip s1 v1 x1 bl1 bn HT1); [by rewrite (mv_fsb _ _ _ _ Hm1)|by eapply moved_inode|apply Hx1|apply Hx1|by eapply count_room|done]].
  intros a s2 (v2 & x2 & bl2 & (HT2 & Hm2 & Hx2 & Hc2 & Hb2) & Hr1 & Hr2 & Hr3). cbn beta.
  assert (moved ip s s2 x2) as Hm by (by eapply moved_trans). assert (ext sb v x v2 x2) as Hx by (by eapply (ext_trans e sb Hsb); [apply HF| |]).
  assert (∀ k, touched tot k → fblk v1 x1 k ≠ 0 ∧ fblk v2 x2 k = fblk v1 x1 k) as Hk.
  { intros k Hk. split; [by apply Ha1|]. apply (ext_keep _ _ _ _ _ Hx2); [|by apply Ha1]. unfold touched, BSIZE in *. change MAXFILE with 268. zdm. }
  assert (∀ k, 0 ≤ k < MAXFILE * BSIZE → content v2 x2 k = if decide (off ≤ k < off + tot) then byte_at bs (k - off) else content v x k) as Hc
    by (intros k Hkr; rewrite Hc2 by done; by apply Hc1).
  assert (∀ k, touched tot k → fblk v2 x2 k ≠ 0) as Hal by (intros k Hkt; destruct (Hk k Hkt) as [? ->]; done).
  assert (∀ b, b ∈ bl2 → b ∈ bl ∨ bitmap sb b ∨ b ≠ 0 ∧ b = ind x2 ∨ (b ≠ 0 ∧ b = a) ∨ ∃ bn, touched tot bn ∧ b = fblk v2 x2 bn) as Hlog.
  { intros b [Hb|[Hb|[Hb0 [->| ->]]]]%Hb2; [|by right; left|by right; right; left|by right; right; right; left].
    destruct (Hl1 b Hb) as [?|[?|[[Hb0 ->]|(k & Hkt & ->)]]]; [by left|by right; left| |].
    - right. right. left. split; [done|]. symmetry. by apply (ext_ind _ _ _ _ _ Hx2).
    - right. right. right. right. exists k. split; [done|]. symmetry. by apply Hk. }
  destruct (Z.eqb_spec a 0) as [H0|Hne].
  { apply wp_ret. split_and!; [done|lia|lia|]. exists v2, x2, bl2. split; [|by intros _; apply Hr2]. split; try done.
    intros b Hb. destruct (Hlog b Hb) as [?|[?|[?|[[? ?]|?]]]]; [by left|by right; left|by right; right; left|congruence|by right; right; right]. }
  specialize (Hr1 Hne). apply wp_bind, (wp_iat ip s2 x2); [by eapply moved_inode; [|exact Hm]|]. intros i Hdev _ _. rewrite Hdev.
  set (m := Z.min (n - tot) (BSIZE - (off + tot) mod BSIZE)).
  assert (0 < m ∧ (off + tot) mod BSIZE + m ≤ BSIZE ∧ tot + m ≤ n) as (Hm0 & Hmb & Hmn) by (unfold m, BSIZE; zdm).
  assert (∀ b, b ∈ bl2 → b ∈ bl ∨ bitmap sb b ∨ b ≠ 0 ∧ b = ind x2 ∨ ∃ bn, touched (tot + m) bn ∧ b = fblk v2 x2 bn) as Hlog2.
  { intros b Hb. destruct (Hlog b Hb) as [?|[?|[?|[[_ ->]|(k & Hkt & ->)]]]]; [by left|by right; left|by right; right; left| |]; right; right; right.
    - exists bn. split; [unfold touched, bn, BSIZE in *; zdm|done].
    - exists k. split; [unfold touched in *; lia|done]. }
  assert (room e bl2 ∅ 6) as Hroom2 by (eapply (count_room (tot + m)); [lia|exact HT2|exact Hlog2]).
  destruct (room_bufs _ _ _ _ _ _ HT2 Hroom2) as [R1 R2]; [lia|].
  apply wp_bind, (wp_fs_bread e _ _ _ _ HT2); [apply lookup_empty|done|]. intros j l3 H3.
  apply wp_bind, wp_either_copyin. cbn [umem set_flog]. rewrite (mv_umem _ _ _ _ Hm), (fetch_chunk tot m) by lia. cbn [fst snd Z.eqb].
  assert (home e a) as Hh. { apply (data_home e sb Hsb). rewrite <-Hr1 in Hne |- *. by apply (io_blk _ _ _ (ext_ok _ _ _ _ _ Hx2)). }
  eapply (wp_fs_update e _ _ _ _ a j _ _ _ _ H3); [apply lookup_empty|done|lia|]. intros l4 H4. apply wp_ret. split_and!; [lia|lia|lia| |].
  - rewrite <-Hr1 in H4, Hne. eexists _, _, _. eapply (wrote_block tot m s2); [lia|done|done|done|done|done|done|done|exact Hne|exact Hlog2|exact H4].
  - unfold write_left, BSIZE. rewrite (proj2 (Z.ltb_lt tot n)) by lia. unfold m, BSIZE. destruct (Z.ltb_spec (tot + Z.min (n - tot) (1024 - (off + tot) mod 1024)) n); zdm.
Qed.

(** What [writei] leaves when [k] bytes are written to inode [inum]. *)
Record written (inum k : Z) (s' : fsys) (v' : Z → list Z) (x' : dinode) (bl' : list Z) : Prop := {
  wn_tx : TX s' v' bl' ∅;
  wn_moved : moved ip s s' x';
  wn_fsv : FSV sb v';
  wn_file : file_ok sb v' x';
  wn_size : d_size x' = Z.max (d_size x) (off + k);
  wn_type : d_type x' = d_type x ∧ d_nlink x' = d_nlink x;
  wn_content : ∀ j, 0 ≤ j < MAXFILE * BSIZE → content v' x' j = if decide (off ≤ j < off + k) then byte_at bs (j - off) else content v x j;
  wn_disk : dinode_at sb v' inum = x';
  wn_others : ∀ i, 0 ≤ i < sb_ninodes sb → i ≠ inum → dinode_at sb v' i = dinode_at sb v i;
  wn_frame : ∀ b, 0 ≤ b < sb_size sb → used sb v b = true → ¬ bitmap sb b → ¬ owns v x b → b ≠ IBLOCK inum sb → v' b = v b;
  wn_used : ∀ b, 0 ≤ b < sb_size sb → used sb v b = true → used sb v' b = true;
  wn_fresh : ∀ b, owns v' x' b → owns v x b ∨ used sb v b = false;
  wn_log : Z.of_nat (length bl') ≤ Z.of_nat (length bl) + nbitmap + nblk off n + 2
}.

Lemma fblk_size v1 x1 z bn : fblk v1 (set_d_size z x1) bn = fblk v1 x1 bn.
Proof. done. Qed.

Lemma iok_size v1 x1 z : 0 ≤ z < 2 ^ 32 → IOK sb v1 x1 → IOK sb v1 (set_d_size z x1).
Proof. intros Hz [[H1 H2 H3 H4 H5 H6 H7] Hb Hi Hj Hk]. split; try done. Qed.

(** The inode with its new size. *)
Lemma wrote_file k s1 v1 x1 bl1 :
  0 ≤ k ≤ n → wrote k s1 v1 x1 bl1 → let z := Z.max (d_size x) (off + k) in file_ok sb v1 (set_d_size z x1) ∧ d_size x1 = d_size x.
Proof.
  intros Hk [_ _ Hx _ Hal _] z. destruct HF as [HI Hsz Hfull]. assert (MAXFILE * BSIZE = 274432) as Emax by done.
  destruct (ext_meta _ _ _ _ _ Hx) as (_ & _ & _ & _ & Es). split; [|done]. split.
  - apply iok_size; [unfold z; lia|apply Hx].
  - simpl. unfold z. lia.
  - intros bn Hbn. simpl. intros Hlt. rewrite fblk_size. destruct (decide (bn * BSIZE < d_size x)) as [Hold|Hnew].
    + rewrite (ext_keep _ _ _ _ _ Hx); [by apply Hfull| |by apply Hfull]. unfold BSIZE in *. change MAXFILE with 268. lia.
    + apply Hal. unfold touched, z, BSIZE in *. zdm.
Qed.

Lemma wrote_written inum k s1 v1 x1 bl1 s2 :
  0 ≤ k ≤ n → 0 ≤ inum < sb_ninodes sb → wrote k s1 v1 x1 bl1 → let x' := set_d_size (Z.max (d_size x) (off + k)) x1 in
  moved ip s s2 x' → TX s2 (stored sb v1 inum x') (add_block (IBLOCK inum sb) bl1) ∅ →
  written inum k s2 (stored sb v1 inum x') x' (add_block (IBLOCK inum sb) bl1).
Proof.
  intros Hk Hin Hw x' Hm2 HT2. destruct (wrote_file _ _ _ _ _ Hk Hw) as [HF1 Es]. pose proof Hw as [HT1 Hm1 Hx1 Hc1 Ha1 Hl1]. fold x' in HF1.
  pose proof (ext_fsv _ _ _ _ _ Hx1) as HV1. pose proof (fk_iok _ _ _ HF1) as HI1.
  destruct (stored_iok e sb Hsb v1 inum x' Hin x' HI1) as [HI2 Hc2]. pose proof (stored_fblk e sb Hsb v1 inum x' Hin x') as Hb2.
  destruct (inode_block e sb Hsb inum Hin) as (Hnb & Hnd & Hrange). destruct (ext_meta _ _ _ _ _ Hx1) as (Et & _ & _ & En & _).
  pose proof (so_data _ _ Hsb) as Hsize. split; try done.
  - by apply (stored_ok e sb Hsb).
  - destruct HF1 as [_ F2 F3]. split; [done|done|]. intros bn Hbn Hlt. rewrite Hb2; [by apply F3|done|]. simpl in F2, Hlt. unfold BSIZE in *. change MAXFILE with 268 in *. lia.
  - intros j Hj. rewrite Hc2 by done. rewrite <-Hc1 by done. done.
  - rewrite (stored_dinode e sb Hsb) by (done || apply HI1). by rewrite decide_True.
  - intros i Hi Hne. rewrite (stored_dinode e sb Hsb) by (done || apply HI1). rewrite decide_False by done. unfold dinode_at. f_equal.
    destruct (IBLOCK_range e sb Hsb i Hi) as (_ & Hr & _). destruct (inode_block e sb Hsb i Hi) as (Hnb' & Hnd' & Hrange').
    apply (ext_frame _ _ _ _ _ Hx1); [lia|by apply HV; lia|done|]. intros Ho. by apply Hnd', (owns_data sb v x _ (fk_iok _ _ _ HF) Ho).
  - intros b Hb Hu Hbm Hno Hne. rewrite stored_ne by done. by apply (ext_frame _ _ _ _ _ Hx1).
  - intros b Hb Hu. rewrite (stored_used e sb Hsb) by done. by apply (ext_used _ _ _ _ _ Hx1).
  - intros b [Hb0 Hb]. apply (ext_own _ _ _ _ _ Hx1). split; [done|]. destruct Hb as [->|(bn & Hbn & ->)]; [by left|]. right. exists bn. split; [done|]. by apply Hb2.
  - pose proof (log_count _ _ _ _ Hk (lhd_nodup _ _ _ _ (tx_lhd _ _ _ _ _ HT1)) Hl1). pose proof (length_add_block (IBLOCK inum sb) bl1). lia.
Qed.

Lemma writei_ok inum :
  inum_at ip s inum → 0 ≤ inum < sb_ninodes sb →
  wp (writei ip t off n) (λ r s', ∃ k v' x' bl', r = k ∧ 0 ≤ k ≤ n ∧ written inum k s' v' x' bl' ∧ (k < n → full sb v')) s.
Proof.
  intros Hnum Hin. assert (MAXFILE * BSIZE = 274432) as Emax by done. unfold writei. apply wp_bind, (wp_iat ip s x); [done|]. intros i _ Hdisk _. rewrite Hdisk.
  rewrite (proj2 (Z.ltb_ge (d_size x) off)), u32_small, (proj2 (Z.ltb_ge _ off)), Emax, (proj2 (Z.ltb_ge _ _)) by lia. simpl orb. cbv iota.
  apply wp_bind. apply (wp_iter (λ y s1, y.2 = off + y.1 ∧ 0 ≤ y.1 ≤ n ∧ ∃ v1 x1 bl1, wrote y.1 s1 v1 x1 bl1) (λ y _, write_left y.2 y.1)).
  - intros [tot o] s1. cbn [fst snd]. intros (-> & Htot & Hw). eapply wp_mono; [|by apply (writei_step tot s1 Htot Hw)].
    intros [[tot' o']|[k o']] s2; cbn [fst snd]; [intros (H1 & H2 & H3 & H4); split; [split; [exact H1|split; [exact H2|exact H3]]|exact H4]|]. intros (-> & Hk & v2 & x2 & bl2 & Hw2 & Hfull).
    destruct (wrote_file _ _ _ _ _ Hk Hw2) as [HF2 Es]. pose proof (wr_moved _ _ _ _ _ Hw2) as Hm2.
    apply wp_bind, (wp_iat ip s2 x2); [by eapply moved_inode|]. intros i' _ Hdisk' _. rewrite Hdisk'.
    set (z := Z.max (d_size x) (off + k)). apply wp_bind.
    apply (wp_mono _ (λ _ s3, flog s3 = flog s2 ∧ moved ip s2 s3 (set_d_size z x2))).
    2:{ rewrite Es. unfold z. destruct (Z.ltb_spec (d_size x) (off + k)) as [Hlt|Hge].
        - apply wp_modify. split; [done|]. split; try done. simpl. rewrite Z.max_r by lia. destruct (moved_inode _ _ _ _ _ Hino Hm2) as (i2 & Hi2 & _ & Hd2).
          apply list_alter_ext_at with i2; [done|]. by rewrite Hd2.
        - apply wp_ret. split; [done|]. apply moved_refl; try done. rewrite Z.max_l, <-Es by lia.
          assert (set_d_size (d_size x2) x2 = x2) as -> by (by destruct x2). by eapply moved_inode. }
    intros [] s3 [Hf3 Hm3]. assert (moved ip s s3 (set_d_size z x2)) as Hm by (by eapply moved_trans).
    assert (TX s3 v2 bl2 ∅) as HT3 by (eapply TX_frame; [exact Hf3|apply Hw2]).
    apply wp_bind. eapply (iupdate_ok e sb Hsb ip s3 v2 (set_d_size z x2) bl2 inum); [done|by rewrite (mv_fsb _ _ _ _ Hm)|by eapply moved_inode|by eapply moved_inum|done| |].
    { assert (room e bl2 ∅ 6) as Hr by (eapply (count_room k); [done|apply Hw2|apply Hw2]). unfold room in *. lia. }
    intros l4 H4. apply wp_ret. cbn [fst]. rewrite s32_id by lia. eexists k, _, _, _. split_and!; [done|lia|lia| |].
    + eapply (wrote_written inum k); [done|done|exact Hw2| |exact H4]. by destruct Hm.
    + intros Hlt b Hb. rewrite (stored_used e sb Hsb) by done. by apply Hfull.
  - cbn [fst snd]. split; [lia|]. split; [lia|]. exists v, x, bl. split; [done|by apply moved_refl|by apply (ext_refl sb); [apply HF|]| | |by left].
    + intros k Hk. by rewrite decide_False by lia.
    + intros bn (? & _). lia.
  - cbn [fst snd]. unfold write_left, BSIZE. destruct (0 <? n); zdm.
Qed.
End writei.
