(* ===== verification/Fsdir.v ===== *)
(** * Directories: [dirlookup] and [dirlink]

    A directory is a file of 16-byte entries.  [entries] reads it as a list of
    inode numbers and names; [find_name] is the lookup in that list. *)

From stdpp Require Import functions.
From S2P Require Import Prelude Machine Sync Bytes Bio Log Fs Fsrules Fsfile Fswrite.

(** ** Names *)

Lemma strncmp_ext n i s t t' : (∀ j, i ≤ j < i + Z.of_nat n → byte_at t j = byte_at t' j) → strncmp_bytes n i s t = strncmp_bytes n i s t'.
Proof.
  revert i. induction n as [|n IH]; intros i H; simpl; [done|]. rewrite <-(H i) by lia. case_match; [|done]. apply IH. intros j Hj. apply H. lia.
Qed.

Lemma strncmp_eq n i s t : strncmp_bytes n i s t = 0 ↔ ∀ j, i ≤ j < i + Z.of_nat n → (∀ k, i ≤ k < j → byte_at s k ≠ 0) → byte_at s j = byte_at t j.
Proof.
  revert i. induction n as [|n IH]; intros i; simpl; [split; [lia|done]|].
  destruct (Z.eqb_spec (byte_at s i) 0) as [E0|E0]; simpl.
  { split; [intros H j Hj Hk; destruct (decide (j = i)) as [->|]; [lia|]; exfalso; apply (Hk i); [lia|done]|].
    intros H. specialize (H i ltac:(lia)). rewrite H; [lia|]. intros; lia. }
  destruct (Z.eqb_spec (byte_at s i) (byte_at t i)) as [E|E].
  - rewrite IH. split.
    + intros H j Hj Hk. destruct (decide (j = i)) as [->|]; [done|]. apply H; [lia|]. intros k Hk'. apply Hk. lia.
    + intros H j Hj Hk. apply H; [lia|]. intros k Hk'. destruct (decide (k = i)) as [->|]; [done|]. apply Hk. lia.
  - split; [lia|]. intros H. exfalso. apply E. apply (H i); [lia|]. intros; lia.
Qed.

Lemma length_strncpy n t : length (strncpy_bytes n t) = n.
Proof. revert t. induction n as [|n IH]; intros [|c t]; simpl; [done|done|by rewrite length_replicate|]. destruct (c =? 0); simpl; [by rewrite length_replicate|by rewrite IH]. Qed.

(** The copy agrees with the name up to its end, and is 0 after it. *)
Lemma byte_at_strncpy n t j :
  0 ≤ j < Z.of_nat n → (∀ k, 0 ≤ k < j → byte_at t k ≠ 0) → byte_at (strncpy_bytes n t) j = byte_at t j.
Proof.
  revert t j. induction n as [|n IH]; intros t j Hj Hk; [lia|]. destruct t as [|c t]; simpl strncpy_bytes.
  { change (0 :: replicate n 0) with (replicate (S n) 0). rewrite byte_at_replicate. unfold byte_at. by rewrite lookup_nil. }
  destruct (Z.eqb_spec c 0) as [->|Hc].
  - change (0 :: replicate n 0) with (replicate (S n) 0). rewrite byte_at_replicate. destruct (decide (j = 0)) as [->|]; [done|]. exfalso. apply (Hk 0); [lia|done].
  - destruct (decide (j = 0)) as [->|Hne]; [done|]. unfold byte_at. replace (Z.to_nat j) with (S (Z.to_nat (j - 1))) by lia. simpl. apply (IH t (j - 1)); [lia|].
    intros k Hk'. specialize (Hk (k + 1) ltac:(lia)). unfold byte_at in *. by replace (Z.to_nat (k + 1)) with (S (Z.to_nat k)) in Hk by lia.
Qed.

(** Comparing with a stored name is comparing with the name. *)
Lemma namecmp_strncpy s t : namecmp s (strncpy_bytes (Z.to_nat DIRSIZ) t) = 0 ↔ namecmp s t = 0.
Proof.
  unfold namecmp. rewrite !strncmp_eq. change (Z.of_nat (Z.to_nat DIRSIZ)) with 14. rewrite Z.add_0_l. set (u := strncpy_bytes _ t).
  assert (∀ j, 0 ≤ j < 14 → (∀ k, 0 ≤ k < j → byte_at t k ≠ 0) → byte_at u j = byte_at t j) as Hu by (intros; by apply byte_at_strncpy).
  split; intros H j [Hj0 Hj1] Hs.
  - revert j Hj0 Hj1 Hs. apply (well_founded_induction (Z.lt_wf 0) (λ j, 0 ≤ j → j < 14 → (∀ k, 0 ≤ k < j → byte_at s k ≠ 0) → byte_at s j = byte_at t j)).
    intros j IH Hj0 Hj1 Hs. rewrite H by (done || lia). apply Hu; [lia|]. intros k Hk. rewrite <-IH; [by apply Hs|lia|lia|lia|]. intros; apply Hs; lia.
  - rewrite H by (done || lia). symmetry. apply Hu; [lia|]. intros k Hk. rewrite <-H; [by apply Hs|lia|]. intros; apply Hs; lia.
Qed.

Lemma namecmp_refl s : namecmp s s = 0.
Proof. unfold namecmp. by apply strncmp_eq. Qed.

(** ** The inode table *)

(** An inode has at most one entry in use. *)
Definition table_ok (t : list inode) : Prop :=
  ∀ k k' i i', t !! k = Some i → t !! k' = Some i' → 0 < i_ref i → 0 < i_ref i' → i_dev i = i_dev i' → i_inum i = i_inum i' → k = k'.

Definition holds_inode (dev inum : Z) (i : inode) : Prop := 0 < i_ref i ∧ i_dev i = dev ∧ i_inum i = inum.

Lemma iget_scan_spec t ip dev inum empty :
  match iget_scan t ip dev inum empty with
  | (Some k, _) => ∃ j i, k = (ip + j)%nat ∧ t !! j = Some i ∧ holds_inode dev inum i
  | (None, r) => (∀ j i, t !! j = Some i → ¬ holds_inode dev inum i) ∧
      match r with
      | Some k => empty = Some k ∨ empty = None ∧ ∃ j i, k = (ip + j)%nat ∧ t !! j = Some i ∧ i_ref i = 0
      | None => empty = None ∧ ∀ j i, t !! j = Some i → i_ref i ≠ 0
      end
  end.
Proof.
  revert ip empty. induction t as [|i t IH]; intros ip empty; simpl.
  { split; [by intros [] ?|]. destruct empty as [k|]; [by left|]. split; [done|by intros [] ?]. }
  destruct ((0 <? i_ref i) && (i_dev i =? dev) && (i_inum i =? inum)) eqn:E.
  { rewrite !andb_true_iff, Z.ltb_lt, !Z.eqb_eq in E. exists 0%nat, i. split; [lia|]. split; [done|]. unfold holds_inode. tauto. }
  assert (¬ holds_inode dev inum i) as Hn.
  { intros (H1 & H2 & H3). rewrite (proj2 (Z.ltb_lt _ _)), (proj2 (Z.eqb_eq _ _)), (proj2 (Z.eqb_eq _ _)) in E by done. done. }
  set (empty' := match empty with None => if i_ref i =? 0 then Some ip else None | Some e => Some e end). specialize (IH (S ip) empty').
  destruct (iget_scan t (S ip) dev inum empty') as [[k|] r].
  - destruct IH as (j & i' & -> & Hj & Hi). exists (S j), i'. split; [lia|done].
  - destruct IH as [Hall Hr]. split; [intros [|j] i' Hj; [simpl in Hj; congruence|by eapply Hall]|]. destruct r as [k|].
    + destruct Hr as [He|[He (j & i' & -> & Hj & Hi)]].
      * unfold empty' in He. destruct empty as [e0|]; [by left|]. destruct (Z.eqb_spec (i_ref i) 0) as [E0|]; [|done]. injection He as <-.
        right. split; [done|]. exists 0%nat, i. split; [lia|done].
      * right. unfold empty' in He. destruct empty; [done|]. split; [done|]. exists (S j), i'. split; [lia|done].
    + destruct Hr as [He Hall']. unfold empty' in He. destruct empty; [done|]. destruct (Z.eqb_spec (i_ref i) 0); [done|]. split; [done|].
      intros [|j] i' Hj; [simpl in Hj; congruence|by eapply Hall'].
Qed.

Section iget.
Context {U : Type} `{!UserMem U}.
Notation fsys := (fsys (U := U)).

(** The table after [iget]: one more reference to the inode, at [k]. *)
Record got (dev inum : Z) (t t' : list inode) (k : nat) : Prop := {
  got_len : length t' = length t;
  got_entry : ∃ i', t' !! k = Some i' ∧ holds_inode dev inum i' ∧
    (∃ i, t !! k = Some i ∧ (holds_inode dev inum i ∧ i' = set_i_ref (i_ref i + 1) i ∨ i_ref i = 0 ∧ i_ref i' = 1 ∧ i_valid i' = 0));
  got_others : ∀ j, j ≠ k → t' !! j = t !! j;
  got_table : table_ok t'
}.

Lemma got_found dev inum t j i :
  table_ok t → (∀ j i, t !! j = Some i → 0 ≤ i_ref i < 2 ^ 31 - 1) → t !! j = Some i → holds_inode dev inum i →
  got dev inum t (alter (λ i, set_i_ref (s32 (i_ref i + 1)) i) j t) j.
Proof.
  intros Ht Hrefs Hj Hi. pose proof (Hrefs _ _ Hj) as Hb. set (i' := set_i_ref (i_ref i + 1) i). destruct Hi as (H1 & H2 & H3).
  assert (∀ a ia, alter (λ i, set_i_ref (s32 (i_ref i + 1)) i) j t !! a = Some ia → a = j ∧ ia = i' ∨ a ≠ j ∧ t !! a = Some ia) as Hlk.
  { intros a ia. rewrite list_lookup_alter. case_decide; [subst; rewrite Hj; simpl; rewrite s32_id by lia; intros [= <-]; by left|by right]. }
  split; [by rewrite length_alter| | |].
  - exists i'. split; [rewrite list_lookup_alter_eq, Hj; simpl; by rewrite s32_id by lia|]. split; [unfold holds_inode; simpl; lia|]. exists i. split; [done|]. by left.
  - intros a Hne. by rewrite list_lookup_alter_ne.
  - intros a b ia ib [[-> ->]|[Ha Hia]]%Hlk [[-> ->]|[Hb' Hib]]%Hlk Hra Hrb Hd Hn; [done|by apply (Ht j b i ib)|by apply (Ht a j ia i)|by eapply Ht].
Qed.

Definition has_room (dev inum : Z) (t : list inode) : Prop := ∃ j i, t !! j = Some i ∧ (holds_inode dev inum i ∨ i_ref i = 0).

Lemma iget_ok s dev inum (Q : nat → fsys → Prop) :
  table_ok (itable s) → has_room dev inum (itable s) → (∀ j i, itable s !! j = Some i → 0 ≤ i_ref i < 2 ^ 31 - 1) →
  (∀ k t', got dev inum (itable s) t' k → Q k (set_itable t' s)) → wp (iget dev inum) Q s.
Proof.
  intros Ht (j0 & i0 & Hj0 & Hr0) Hrefs HQ. unfold iget. apply wp_bind, wp_gets.
  pose proof (iget_scan_spec (itable s) 0 dev inum None) as Hs. destruct (iget_scan (itable s) 0 dev inum None) as [[k|] [k'|]].
  1,2: destruct Hs as (j & i & -> & Hj & Hi); simpl; apply wp_bind, wp_modify, wp_ret; apply HQ; by apply (got_found _ _ _ _ i).
  - destruct Hs as [Hnone [?|[_ (j & i & -> & Hj & Hi)]]]; [done|]. simpl. do 4 apply wp_bind, wp_modify. apply wp_ret. cbn [itable set_itable].
    rewrite <-!list_alter_compose. set (i' := set_i_valid 0 (set_i_ref 1 (set_i_inum inum (set_i_dev dev i)))). apply HQ.
    assert (∀ a ia, alter (set_i_valid 0 ∘ set_i_ref 1 ∘ set_i_inum inum ∘ set_i_dev dev) j (itable s) !! a = Some ia → a = j ∧ ia = i' ∨ a ≠ j ∧ itable s !! a = Some ia) as Hlk.
    { intros a ia. rewrite list_lookup_alter. case_decide; [subst; rewrite Hj; simpl; intros [= <-]; by left|by right]. }
    split; [by rewrite length_alter| | |].
    + exists i'. split; [by rewrite list_lookup_alter_eq, Hj|]. split; [done|]. exists i. split; [done|]. by right.
    + intros a Hne. by rewrite list_lookup_alter_ne.
    + intros a b ia ib [[-> ->]|[Ha Hia]]%Hlk [[-> ->]|[Hb Hib]]%Hlk Hra Hrb Hd Hn; [done| | |by eapply Ht].
      * exfalso. by apply (Hnone b ib).
      * exfalso. by apply (Hnone a ia).
  - exfalso. destruct Hs as [Hnone [_ Hall]]. destruct Hr0 as [H|H]; [by apply (Hnone j0 i0)|by apply (Hall j0 i0)].
Qed.
End iget.

(** ** Entries *)

Definition entry (v : Z → list Z) (x : dinode) (j : Z) : list Z := fbytes v x (16 * j) 16.

(** The first of the [n] entries from [j] that is in use with this name: its
    index and its inode number. *)
Fixpoint find_from (n : nat) (v : Z → list Z) (x : dinode) (name : list Z) (j : Z) : option (Z * Z) :=
  match n with
  | O => None
  | S n' => let de := entry v x j in
            if negb (de_inum de =? 0) && (namecmp name (de_name de) =? 0) then Some (j, de_inum de) else find_from n' v x name (j + 1)
  end.

Definition find_name (v : Z → list Z) (x : dinode) (name : list Z) : option (Z * Z) := find_from (Z.to_nat (d_size x / 16)) v x name 0.

Lemma find_from_app n m v x name j :
  find_from (n + m) v x name j = match find_from n v x name j with Some r => Some r | None => find_from m v x name (j + Z.of_nat n) end.
Proof.
  revert j. induction n as [|n IH]; intros j; simpl; [by rewrite Z.add_0_r|]. case_match; [done|]. rewrite IH.
  by replace (j + 1 + Z.of_nat n) with (j + Z.of_nat (S n)) by lia.
Qed.

Lemma find_from_ext n v x v' x' name j :
  (∀ k, j ≤ k < j + Z.of_nat n → entry v' x' k = entry v x k) → find_from n v' x' name j = find_from n v x name j.
Proof.
  revert j. induction n as [|n IH]; intros j H; simpl; [done|]. rewrite H by lia. case_match; [done|]. apply IH. intros k Hk. apply H. lia.
Qed.

Lemma find_from_none n v x name j :
  find_from n v x name j = None ↔ ∀ k, j ≤ k < j + Z.of_nat n → de_inum (entry v x k) = 0 ∨ namecmp name (de_name (entry v x k)) ≠ 0.
Proof.
  revert j. induction n as [|n IH]; intros j; simpl; [split; [lia|done]|].
  destruct (Z.eqb_spec (de_inum (entry v x j)) 0) as [E|E]; simpl.
  - rewrite IH. split; intros H k Hk; [destruct (decide (k = j)) as [->|]; [by left|]|]; apply H; lia.
  - destruct (Z.eqb_spec (namecmp name (de_name (entry v x j))) 0) as [E2|E2].
    + split; [done|]. intros H. destruct (H j); [lia|done|done].
    + rewrite IH. split; intros H k Hk; [destruct (decide (k = j)) as [->|]; [by right|]|]; apply H; lia.
Qed.

Section dirs.
Context {U : Type} `{!UserMem U} `{!UserMemLaws U} (e : txenv) (sb : superblock) (Hsb : sb_ok e sb) (dp : nat).
Notation fsys := (fsys (U := U)).
Notation TX := (TX e).

Record dir_ok (v : Z → list Z) (x : dinode) : Prop := {
  dr_file : file_ok sb v x;
  dr_type : d_type x = T_DIR;
  dr_size : d_size x mod 16 = 0
}.

Section lookup.
Context (s : fsys) (v : Z → list Z) (x : dinode) (bl : list Z).
Context (HT : TX s v bl ∅) (Hfsb : fsb s = sb) (Hino : inode_at dp s x) (HV : FSV sb v) (HD : dir_ok v x) (Hroom : room e bl ∅ 6).

Lemma read_dirent_ok off msg (Q : list Z → fsys → Prop) l :
  TX (set_flog l s) v bl ∅ → 0 ≤ off → off + 16 ≤ d_size x →
  (∀ l', TX (set_flog l' s) v bl ∅ → Q (fbytes v x off 16) (set_flog l' s)) → wp (read_dirent dp off msg) Q (set_flog l s).
Proof.
  intros HT1 Hoff Hend HQ. pose proof (dk_size _ (io_dinode _ _ _ (fk_iok _ _ _ (dr_file _ _ HD)))) as Hsz. unfold read_dirent. apply wp_bind.
  eapply wp_mono; [|apply (readi_ok e sb Hsb dp (set_flog l s) v x bl ToKernel off 16); [done|done|done|done|apply HD|done|lia|lia]].
  pose proof (fk_size _ _ _ (dr_file _ _ HD)) as Hm. assert (MAXFILE * BSIZE = 274432) as Emax by done.
  assert (readable x off 16 = 16) as Er.
  { unfold readable. rewrite (proj2 (Z.ltb_ge _ _)), (proj2 (Z.leb_gt _ _)) by lia. simpl. lia. }
  rewrite Er. intros r s1 (l1 & st & acc & u & Hdel & -> & -> & HT2). simpl in Hdel. injection Hdel as <- <- <-. simpl. apply wp_ret.
  apply (HQ l1). done.
Qed.

Context (Ht : table_ok (itable s)) (Hfree : ∃ k i, itable s !! k = Some i ∧ i_ref i = 0).
Context (Hrefs : ∀ k i, itable s !! k = Some i → 0 ≤ i_ref i < 2 ^ 31 - 1).

Definition lookup_post (name : list Z) (r : option (nat * Z)) (s' : fsys) : Prop :=
  match find_name v x name with
  | None => r = None ∧ ∃ l, s' = set_flog l s ∧ TX s' v bl ∅
  | Some (j, inum) => ∃ k t' l, r = Some (k, 16 * j) ∧ got ROOTDEV inum (itable s) t' k ∧ s' = set_itable t' (set_flog l s) ∧ TX s' v bl ∅
  end.

(** [dirlookup] is the lookup in the list of entries, followed by [iget]. *)
Lemma dirlookup_ok name : wp (dirlookup dp name) (lookup_post name) s.
Proof.
  unfold dirlookup. apply wp_bind, (wp_iat dp s x); [done|]. intros i0 _ Hdisk _. rewrite Hdisk, (dr_type _ _ HD). simpl negb. cbv iota.
  pose proof (dr_size _ _ HD) as H16. pose proof (dk_size _ (io_dinode _ _ _ (fk_iok _ _ _ (dr_file _ _ HD)))) as Hsz.
  pose proof (fk_size _ _ _ (dr_file _ _ HD)) as Hm. assert (MAXFILE * BSIZE = 274432) as Emax by done.
  set (N := d_size x / 16). assert (0 ≤ N) as HN by (unfold N; zdm). assert (d_size x = 16 * N) as EN by (unfold N; zdm).
  apply (wp_iter (λ off s1, ∃ j l, off = 16 * j ∧ 0 ≤ j ≤ N ∧ find_from (Z.to_nat j) v x name 0 = None ∧ s1 = set_flog l s ∧ TX s1 v bl ∅)
                 (λ off _, Z.to_nat (N - off / 16))).
  2:{ exists 0, (flog s). assert (set_flog (flog s) s = s) as -> by (by destruct s). split_and!; done. }
  2:{ change (0 / 16) with 0. lia. }
  intros off s1 (j & l & -> & Hj & Hnone & -> & HT1). unfold dirlookup_body. apply wp_bind, (wp_iat dp _ x); [done|]. intros i Hdev Hdisk' _. rewrite Hdisk', EN.
  destruct (Z.ltb_spec (16 * j) (16 * N)) as [Hlt|Hge].
  2:{ apply wp_ret. assert (j = N) as -> by lia. unfold lookup_post, find_name. fold N. rewrite Hnone. split; [done|]. by exists l. }
  apply wp_bind. apply read_dirent_ok; [done|lia|lia|]. intros l1 HT2. fold (entry v x j).
  assert (find_from (Z.to_nat N) v x name 0 = find_from (Z.to_nat (N - j)) v x name j) as Ef.
  { replace (Z.to_nat N) with (Z.to_nat j + Z.to_nat (N - j))%nat by lia. rewrite find_from_app, Hnone. f_equal. lia. }
  destruct (Z.to_nat (N - j)) as [|m] eqn:Em; [lia|]. simpl in Ef.
  assert (∀ l2, negb (de_inum (entry v x j) =? 0) && (namecmp name (de_name (entry v x j)) =? 0) = false → TX (set_flog l2 s) v bl ∅ →
    (∃ j' l', u32 (16 * j + 16) = 16 * j' ∧ 0 ≤ j' ≤ N ∧ find_from (Z.to_nat j') v x name 0 = None ∧ set_flog l2 s = set_flog l' s ∧ TX (set_flog l2 s) v bl ∅) ∧
    (Z.to_nat (N - u32 (16 * j + 16) / 16) < S m)%nat) as Hnext.
  { intros l2 Hf HT3. rewrite u32_small by lia. split; [|zdm]. exists (j + 1), l2. split_and!; [lia|lia|lia| |done|done].
    rewrite Z2Nat.inj_add, find_from_app, Hnone, Z.add_0_l, Z2Nat.id by lia. change (Z.to_nat 1) with 1%nat. cbn [find_from]. by rewrite Hf. }
  assert (16 * j / 16 = j) as Ej by zdm.
  destruct (Z.eqb_spec (de_inum (entry v x j)) 0) as [E0|E0]; simpl in *.
  { apply wp_ret. rewrite Ej, Em. by apply (Hnext l1). }
  destruct (Z.eqb_spec (namecmp name (de_name (entry v x j))) 0) as [E1|E1].
  - rewrite Hdev. apply wp_bind. apply iget_ok; [done| |done|].
    + destruct Hfree as (k & i' & Hk & Hr). exists k, i'. split; [done|by right].
    + intros k t' Hgot. apply wp_ret. unfold lookup_post, find_name. fold N. rewrite Ef. exists k, t', l1. split_and!; [done|done|done|]. eapply TX_frame; [|exact HT2]; done.
  - apply wp_ret. rewrite Ej, Em. by apply (Hnext l1).
Qed.
End lookup.

(** The inode a lookup gives: none, or an entry of the table with this number. *)
Definition answers (o : option Z) (q : option (nat * Z)) (s' : fsys) : Prop :=
  match o with
  | None => q = None
  | Some inum => ∃ k off i, q = Some (k, off) ∧ itable s' !! k = Some i ∧ holds_inode ROOTDEV inum i
  end.

Lemma dirlookup_answers s v x bl name :
  TX s v bl ∅ → fsb s = sb → inode_at dp s x → FSV sb v → dir_ok v x → room e bl ∅ 6 →
  table_ok (itable s) → (∃ k i, itable s !! k = Some i ∧ i_ref i = 0) → (∀ k i, itable s !! k = Some i → 0 ≤ i_ref i < 2 ^ 31 - 1) →
  wp (dirlookup dp name) (answers (snd <$> find_name v x name)) s.
Proof.
  intros HT Hfsb Hino HV HD Hr Ht Hfree Hrefs. eapply wp_mono; [|by apply (dirlookup_ok s v x bl HT Hfsb Hino HV HD Hr Ht Hfree Hrefs)].
  intros q s'. unfold lookup_post, answers. destruct (find_name v x name) as [[j inum]|]; simpl; [|by intros [-> _]].
  intros (k & t' & l & -> & Hg & -> & _). destruct (got_entry _ _ _ _ _ Hg) as (i' & Hk & Hi & _). by exists k, (16 * j), i'.
Qed.

(** ** [dirlink] *)

Lemma length_mk_dirent inum name : length (mk_dirent inum name) = 16%nat.
Proof. unfold mk_dirent, put16. rewrite length_put_le. cbn [length]. by rewrite length_strncpy. Qed.

Lemma byte_list_strncpy n t : byte_list t → byte_list (strncpy_bytes n t).
Proof.
  revert t. induction n as [|n IH]; intros t Ht; simpl; [constructor|].
  destruct t as [|c t]; [apply (Forall_replicate _ (S n)); lia|]. apply Forall_cons in Ht as [Hc Ht].
  destruct (c =? 0); [apply (Forall_replicate _ (S n)); lia|]. constructor; [done|by apply IH].
Qed.

Lemma mk_dirent_bytes inum name : byte_list name → byte_list (mk_dirent inum name).
Proof. intros Hn. apply byte_list_put. constructor; [lia|]. constructor; [lia|]. by apply byte_list_strncpy. Qed.

Lemma de_inum_mk inum name : de_inum (mk_dirent inum name) = u16 inum.
Proof.
  unfold de_inum, mk_dirent. rewrite get_put16 by (cbn [length]; rewrite ?length_strncpy; lia). unfold u16. by rewrite Z.mod_mod.
Qed.

Lemma de_name_mk inum name : de_name (mk_dirent inum name) = strncpy_bytes (Z.to_nat DIRSIZ) name.
Proof. done. Qed.

Section link.
Context (s : fsys) (v : Z → list Z) (x : dinode) (bl : list Z).
Context (HT : TX s v bl ∅) (Hfsb : fsb s = sb) (Hino : inode_at dp s x) (HV : FSV sb v) (HD : dir_ok v x).

(** The first free entry, or the end. *)
Lemma dirlink_slot (Hroom : room e bl ∅ 6) :
  wp (iterM (S (Z.to_nat (d_size x / 16 + 1))) (dirlink_body dp) 0)
     (λ off s', ∃ j l, off = 16 * j ∧ 0 ≤ j ≤ d_size x / 16 ∧ (j < d_size x / 16 → de_inum (entry v x j) = 0) ∧ s' = set_flog l s ∧ TX s' v bl ∅) s.
Proof.
  pose proof (dr_size _ _ HD) as H16. pose proof (dk_size _ (io_dinode _ _ _ (fk_iok _ _ _ (dr_file _ _ HD)))) as Hsz.
  set (N := d_size x / 16). assert (0 ≤ N) as HN by (unfold N; zdm). assert (d_size x = 16 * N) as EN by (unfold N; zdm).
  apply (wp_iter (λ off s1, ∃ j l, off = 16 * j ∧ 0 ≤ j ≤ N ∧ s1 = set_flog l s ∧ TX s1 v bl ∅) (λ off _, Z.to_nat (N - off / 16))).
  2:{ exists 0, (flog s). assert (set_flog (flog s) s = s) as -> by (by destruct s). split_and!; done. }
  2:{ change (0 / 16) with 0. lia. }
  intros off s1 (j & l & -> & Hj & -> & HT1). unfold dirlink_body. apply wp_bind, (wp_iat dp _ x); [done|]. intros i _ Hdisk _. rewrite Hdisk, EN.
  destruct (Z.ltb_spec (16 * j) (16 * N)) as [Hlt|Hge].
  2:{ apply wp_ret. exists j, l. split_and!; [done|lia|lia|lia|done|done]. }
  apply wp_bind. apply (read_dirent_ok s v x bl Hfsb Hino HV HD Hroom); [done|lia|lia|]. intros l1 HT2. fold (entry v x j).
  destruct (Z.eqb_spec (de_inum (entry v x j)) 0) as [E0|E0]; apply wp_ret.
  - exists j, l1. split_and!; [done|lia|lia|done|done|done].
  - split; [|zdm]. exists (j + 1), l1. split_and!; [lia|lia|lia|done|done].
Qed.

(** The directory with the entry [j] written. *)
Lemma linked_dir name inum inum0 s' v' x' bl' j :
  0 ≤ j ≤ d_size x / 16 → 16 * j + 16 ≤ MAXFILE * BSIZE →
  written e sb dp s v x bl (16 * j) 16 (mk_dirent inum name) inum0 16 s' v' x' bl' →
  dir_ok v' x' ∧ entry v' x' j = mk_dirent inum name ∧ (∀ k, 0 ≤ k < d_size x / 16 → k ≠ j → entry v' x' k = entry v x k) ∧
  d_size x' / 16 = Z.max (d_size x / 16) (j + 1).
Proof.
  intros Hj Hmax [HT' Hmv HV' HF' Hsz [Hty _] Hc _ _ _ _ _ _]. pose proof (dr_size _ _ HD) as H16.
  pose proof (fk_size _ _ _ (dr_file _ _ HD)) as Hm. split_and!.
  - split; [done|rewrite Hty; apply (dr_type _ _ HD)|]. rewrite Hsz. zdm.
  - apply list_eq. intros i. unfold entry, fbytes. rewrite list_lookup_fmap. destruct (decide (i < 16)%nat) as [Hi|Hi].
    + rewrite lookup_seqZ_lt by lia. simpl. rewrite ?Z.add_0_l. rewrite Hc, decide_True by lia.
      destruct (lookup_lt_is_Some_2 (mk_dirent inum name) i) as [y Hy]; [by rewrite length_mk_dirent|].
      rewrite Hy. unfold byte_at. replace (Z.to_nat (16 * j + Z.of_nat i - 16 * j)) with i by lia. by rewrite Hy.
    + rewrite lookup_seqZ_ge by lia. simpl. symmetry. apply lookup_ge_None. rewrite length_mk_dirent. lia.
  - intros k Hk Hne. unfold entry, fbytes. apply list_fmap_ext. intros i y [-> Hy]%lookup_seqZ. rewrite Hc, decide_False by (zdm). done.
  - rewrite Hsz. zdm.
Qed.

(** After the link the name is found, and other names as before. *)
Lemma linked_find name inum inum0 s' v' x' bl' j :
  0 ≤ j ≤ d_size x / 16 → 16 * j + 16 ≤ MAXFILE * BSIZE → (j < d_size x / 16 → de_inum (entry v x j) = 0) →
  find_name v x name = None → u16 inum ≠ 0 →
  written e sb dp s v x bl (16 * j) 16 (mk_dirent inum name) inum0 16 s' v' x' bl' →
  find_name v' x' name = Some (j, u16 inum) ∧ ∀ name', namecmp name' name ≠ 0 → find_name v' x' name' = find_name v x name'.
Proof.
  intros Hj Hmax Hslot Hnone Hin Hw. destruct (linked_dir _ _ _ _ _ _ _ _ Hj Hmax Hw) as (_ & Ej & Eo & Hsz).
  unfold find_name in *. set (N := d_size x / 16) in *. rewrite Hsz. assert (∀ nm, find_from (Z.to_nat j) v' x' nm 0 = find_from (Z.to_nat j) v x nm 0) as Epre.
  { intros nm. apply find_from_ext. intros k Hk. apply Eo; lia. }
  replace (Z.to_nat (Z.max N (j + 1))) with (Z.to_nat j + S (Z.to_nat (Z.max N (j + 1) - j - 1)))%nat by lia. split.
  - rewrite find_from_app, Epre. assert (find_from (Z.to_nat j) v x name 0 = None) as ->.
    { rewrite find_from_none in Hnone |- *. intros k Hk. apply Hnone. lia. }
    rewrite Z.add_0_l, Z2Nat.id by lia. cbn [find_from]. rewrite Ej, de_inum_mk, de_name_mk, (proj2 (Z.eqb_neq _ _)) by done.
    rewrite (proj2 (Z.eqb_eq _ _)) by (apply namecmp_strncpy, namecmp_refl). done.
  - intros name' Hne. rewrite find_from_app, Epre.
    assert (∀ m, find_from (S m) v' x' name' (0 + Z.of_nat (Z.to_nat j)) = find_from m v' x' name' (j + 1)) as Eskip.
    { intros m. rewrite Z.add_0_l, Z2Nat.id by lia. cbn [find_from]. rewrite Ej, de_name_mk, (proj2 (Z.eqb_neq (namecmp _ _) 0)), andb_false_r; [done|].
      by rewrite namecmp_strncpy. }
    rewrite Eskip. destruct (decide (j < N)) as [Hlt|Hge].
    + rewrite Z.max_l by lia. replace (Z.to_nat N) with (Z.to_nat j + S (Z.to_nat (N - j - 1)))%nat by lia. rewrite find_from_app.
      case_match; [done|]. rewrite Z.add_0_l, Z2Nat.id by lia. cbn [find_from]. rewrite (Hslot Hlt). simpl. apply find_from_ext. intros k Hk. apply Eo; lia.
    + assert (j = N) as -> by lia. rewrite Z.max_r by lia. replace (Z.to_nat (N + 1 - N - 1)) with 0%nat by lia. simpl. by case_match.
Qed.
End link.

(** Dropping a reference that is not the last one, or of an inode not read. *)
Lemma iput_drop s k i (Q : unit → fsys → Prop) :
  itable s !! k = Some i → 2 ≤ i_ref i ∨ i_valid i = 0 →
  Q tt (set_itable (alter (λ i, set_i_ref (s32 (i_ref i - 1)) i) k (itable s)) s) → wp (iput k) Q s.
Proof.
  intros Hk Hi HQ. unfold iput. apply wp_bind, wp_gets, wp_bind, wp_gets. rewrite (lookup_total_Some _ _ _ Hk).
  assert ((i_ref i =? 1) && negb (i_valid i =? 0) && (d_nlink (i_disk i) =? 0) = false) as ->.
  { destruct Hi as [Hi|Hi]; [by rewrite (proj2 (Z.eqb_neq _ _)) by lia|]. rewrite Hi. simpl. by rewrite andb_false_r. }
  by apply wp_bind, wp_ret, wp_modify.
Qed.

(** The contents of an inode do not matter for the table. *)
Lemma table_ok_disk t k y : table_ok t → table_ok (alter (set_i_disk y) k t).
Proof.
  intros Ht a b ia ib. rewrite !list_lookup_alter. repeat case_decide; subst; rewrite ?fmap_Some; intros H1 H2.
  - done.
  - destruct H1 as (i1 & H1 & ->). intros. by apply (Ht a b i1 ib).
  - destruct H2 as (i2 & H2 & ->). intros. by apply (Ht a b ia i2).
  - by apply Ht.
Qed.

Section dirlink.
Context (s : fsys) (v : Z → list Z) (x : dinode) (bl : list Z) (inum0 : Z).
Context (HT : TX s v bl ∅) (Hfsb : fsb s = sb) (Hino : inode_at dp s x) (Hnum : inum_at dp s inum0) (Hr0 : 0 ≤ inum0 < sb_ninodes sb).
Context (HV : FSV sb v) (HD : dir_ok v x) (Hmax : d_size x + 16 ≤ MAXFILE * BSIZE).
Context (Hroom : Z.of_nat (length bl) + nbitmap sb + 9 < te_size e).
Context (Ht : table_ok (itable s)) (Hfree : ∃ k i, itable s !! k = Some i ∧ i_ref i = 0).
Context (Hrefs : ∀ k i, itable s !! k = Some i → 0 ≤ i_ref i < 2 ^ 31 - 1).

Lemma dirlink_ok name inum :
  byte_list name → u16 inum ≠ 0 →
  wp (dirlink dp name inum) (λ r s', match find_name v x name with
    | Some _ => r = -1 ∧ TX s' v bl ∅
    | None =>
        ∃ v' x' bl', TX s' v' bl' ∅ ∧ inode_at dp s' x' ∧ FSV sb v' ∧
          (r = 0 ∧ dir_ok v' x' ∧ wp (dirlookup dp name) (answers (Some (u16 inum))) s' ∧
             (∀ name', namecmp name' name ≠ 0 → wp (dirlookup dp name') (answers (snd <$> find_name v x name')) s')
           ∨ r = -1 ∧ full sb v')
    end) s.
Proof.
  intros Hnb Hin. assert (room e bl ∅ 6) as Hr by (pose proof (nbitmap_pos e sb Hsb); unfold room; rewrite map_size_empty; lia).
  unfold dirlink. apply wp_bind. eapply wp_mono; [|apply (dirlookup_ok s v x bl HT Hfsb Hino HV HD Hr Ht Hfree Hrefs name)]. unfold lookup_post.
  destruct (find_name v x name) as [[j inum']|] eqn:Ef.
  - intros r s1 (k & t' & l & -> & Hg & -> & HT1). destruct (got_entry _ _ _ _ _ Hg) as (i' & Hk & _ & i & _ & Hi). cbn beta iota.
    apply wp_bind. eapply (iput_drop _ k i'); [done| |].
    { destruct Hi as [[(H1 & _ & _) ->]|(_ & _ & Hv)]; [left; simpl; lia|by right]. }
    apply wp_ret. split; [done|]. by eapply TX_frame; [|exact HT1].
  - intros r s1 (-> & l & -> & HT1). apply wp_bind, (wp_iat dp _ x); [done|]. intros i1 _ Hdisk1 _. rewrite Hdisk1.
    apply wp_bind. eapply wp_mono; [|apply (dirlink_slot (set_flog l s) v x bl HT1 Hfsb Hino HV HD Hr)].
    intros off s2 (j & l2 & -> & Hj & Hslot & -> & HT2). pose proof (dr_size _ _ HD) as H16. pose proof (length_mk_dirent inum name) as Hlen.
    assert (16 * j + 16 ≤ MAXFILE * BSIZE) as Hm by zdm. assert (nblk (16 * j) 16 = 1) as En by (unfold nblk, BSIZE; simpl; zdm).
    apply wp_bind. eapply wp_mono; [|apply (writei_ok e sb Hsb dp (set_flog l2 (set_flog l s)) v x bl HT2 Hfsb Hino HV (dr_file _ _ HD) (FromKernel (mk_dirent inum name)) (16 * j) 16 (mk_dirent inum name)) with (inum := inum0)]; [|zdm|lia|lia| |done|by apply mk_dirent_bytes|lia|done|done].
    2:{ unfold fetch. rewrite take_ge by (rewrite Hlen; lia). done. }
    intros r s3 (k & v' & x' & bl' & -> & Hk & Hw & Hfull).
    destruct (Z.eqb_spec k 16) as [->|Hne]; simpl negb; cbv iota; apply wp_ret; exists v', x', bl'.
    + split_and!; [apply Hw|by eapply moved_inode; [|apply Hw]|apply Hw|]. left. split; [done|].
      destruct (linked_dir _ v x bl HD _ _ _ _ _ _ _ _ Hj Hm Hw) as (Hd & _). destruct (linked_find _ v x bl HD _ _ _ _ _ _ _ _ Hj Hm Hslot Ef Hin Hw) as [F1 F2].
      pose proof (wn_moved _ _ _ _ _ _ _ _ _ _ _ _ _ _ _ _ Hw) as Hmv. pose proof (mv_itable _ _ _ _ Hmv) as Et. cbn [itable set_flog] in Et.
      assert (∀ nm, wp (dirlookup dp nm) (answers (snd <$> find_name v' x' nm)) s3) as Hlook.
      { intros nm. eapply dirlookup_answers; [apply Hw|by rewrite (mv_fsb _ _ _ _ Hmv)|by eapply moved_inode; [|exact Hmv]|apply Hw|done| |rewrite Et..].
        - unfold room. rewrite map_size_empty. pose proof (wn_log _ _ _ _ _ _ _ _ _ _ _ _ _ _ _ _ Hw). lia.
        - by apply table_ok_disk.
        - destruct Hfree as (k0 & i0 & Hk0 & Hz0). exists k0. rewrite list_lookup_alter. case_decide; [subst; rewrite Hk0; by eexists|by exists i0].
        - intros k0 i0. rewrite list_lookup_alter. case_decide; [|by apply Hrefs]. intros (i' & Hi' & ->)%fmap_Some. exact (Hrefs _ _ Hi'). }
      split_and!; [done|specialize (Hlook name); by rewrite F1 in Hlook|]. intros nm Hnm. rewrite <-F2 by done. apply Hlook.
    + split_and!; [apply Hw|by eapply moved_inode; [|apply Hw]|apply Hw|]. right. split; [done|]. apply Hfull. lia.
Qed.
End dirlink.
End dirs.
