(* ===== verification/Fsspec.v ===== *)
(** * The file system: what it promises

    The theorems on allocation, file contents, directories and a write whose
    source faults, with a file system as mkfs lays it out as a concrete instance. *)

From stdpp Require Import functions.
From S2P Require Import Prelude Machine Sync Bytes Bio Log Fs Fsrules Fsfile Fswrite Fsdir.

(** ** A user memory

    Bytes at the addresses the process may access; copies stop at the first address
    it may not, which is at a page boundary when access is given by pages, as
    [copyout] and [copyin] do. *)

Record flat := Flat { fl_bytes : Z → Z; fl_ok : Z → bool }.

Fixpoint put_bytes (a : Z) (bs : list Z) (u : flat) : Z * flat :=
  match bs with
  | [] => (0, u)
  | b :: bs' => if fl_ok u (u64 a) then put_bytes (a + 1) bs' (Flat (<[u64 a := b]> (fl_bytes u)) (fl_ok u)) else (-1, u)
  end.

Fixpoint get_bytes (n : nat) (a : Z) (u : flat) : Z * list Z :=
  match n with
  | O => (0, [])
  | S n' => if fl_ok u (u64 a) then let '(r, bs) := get_bytes n' (a + 1) u in (r, u8 (fl_bytes u (u64 a)) :: bs) else (-1, [])
  end.

#[export] Instance flat_usermem : UserMem flat := {| um_copyout := put_bytes; um_copyin a n u := get_bytes (Z.to_nat n) a u |}.

Lemma u64_add a k : u64 (u64 a + k) = u64 (a + k).
Proof. unfold u64. by rewrite Zplus_mod_idemp_l. Qed.

Lemma put_bytes_u64 a bs u : put_bytes (u64 a) bs u = put_bytes a bs u.
Proof.
  assert (∀ bs a a' u, u64 a = u64 a' → put_bytes a bs u = put_bytes a' bs u) as H; [|apply H; unfold u64; by rewrite Z.mod_mod].
  clear a bs u. induction bs as [|b bs IH]; intros a a' u E; simpl; [done|]. rewrite E. case_match; [|done]. apply IH. by rewrite <-u64_add, E, u64_add.
Qed.

Lemma get_bytes_u64 n a u : get_bytes n (u64 a) u = get_bytes n a u.
Proof.
  assert (∀ n a a', u64 a = u64 a' → get_bytes n a u = get_bytes n a' u) as H; [|apply H; unfold u64; by rewrite Z.mod_mod].
  clear n a. induction n as [|n IH]; intros a a' E; simpl; [done|]. rewrite E. case_match; [|done]. rewrite (IH (a + 1) (a' + 1)); [done|]. by rewrite <-u64_add, E, u64_add.
Qed.

Lemma put_bytes_app bs bs' a u :
  put_bytes a (bs ++ bs') u = let '(r, u') := put_bytes a bs u in if r =? 0 then put_bytes (a + Z.of_nat (length bs)) bs' u' else (r, u').
Proof.
  revert a u. induction bs as [|b bs IH]; intros a u; simpl; [by rewrite Z.add_0_r|]. case_match; [|done]. rewrite IH.
  by replace (a + 1 + Z.of_nat (length bs)) with (a + Z.of_nat (S (length bs))) by lia.
Qed.

Lemma get_bytes_app n n' a u :
  get_bytes (n + n') a u = let '(r, bs) := get_bytes n a u in
    if r =? 0 then let '(r', bs') := get_bytes n' (a + Z.of_nat n) u in (r', bs ++ bs') else (r, bs).
Proof.
  revert a. induction n as [|n IH]; intros a; simpl; [rewrite Z.add_0_r; by destruct (get_bytes n' a u)|]. case_match; [|done]. rewrite IH.
  replace (a + 1 + Z.of_nat n) with (a + Z.of_nat (S n)) by lia. destruct (get_bytes n (a + 1) u) as [r bs]. destruct (r =? 0); [|done].
  by destruct (get_bytes n' (a + Z.of_nat (S n)) u).
Qed.

#[export] Instance flat_laws : UserMemLaws flat.
Proof.
  split; simpl.
  - intros a bs u. revert a u. induction bs as [|b bs IH]; intros a u; simpl; [by left|]. case_match; [apply IH|by right].
  - intros a n u. generalize (Z.to_nat n). clear n. intros n. revert a. induction n as [|n IH]; intros a; simpl; [by left|]. case_match; [|right; simpl; lia].
    destruct (IH (a + 1)) as [[? ?]|[? ?]]; destruct (get_bytes n (a + 1) u); simpl in *; [left; lia|right; lia].
  - intros a n u. generalize (Z.to_nat n). clear n. intros n. revert a. induction n as [|n IH]; intros a; simpl; [constructor|]. case_match; [|constructor].
    specialize (IH (a + 1)). destruct (get_bytes n (a + 1) u). simpl in *. constructor; [unfold u8; apply Z.mod_pos_bound; lia|done].
  - done.
  - intros a bs bs' u. rewrite !put_bytes_u64, put_bytes_app. destruct (put_bytes a bs u). by rewrite put_bytes_u64.
  - done.
  - intros a n n' u Hn Hn'. rewrite !get_bytes_u64, Z2Nat.inj_add, get_bytes_app by done. rewrite Z2Nat.id by done.
    done.
Qed.

(** ** A file system *)

(** The layout of mkfs for 2000 blocks and 200 inodes. *)
Definition demo_sb : superblock := Superblock FSMAGIC 2000 1954 200 30 2 32 45.

(** The bitmap with the 46 blocks of metadata in use; all other blocks are 0. *)
Definition demo_disk : gmap Z (list Z) := {[45 := [255; 255; 255; 255; 255; 63] ++ replicate 1018 0]}.

Definition demo_env : txenv := Txenv 2 30 demo_disk [] 1 1 0.

Lemma demo_sb_ok : sb_ok demo_env demo_sb.
Proof. split; repeat split; vm_compute; first [reflexivity | intros ?; discriminate]. Qed.

Lemma demo_fsv : FSV demo_sb (dread demo_disk).
Proof.
  split.
  - intros b. unfold dread, demo_disk. destruct (decide (b = 45)) as [->|]; [rewrite lookup_singleton_eq|rewrite lookup_singleton_ne by done; apply zero_block_ok].
    split; [reflexivity|]. repeat constructor; try lia. 
  - assert (Forall (λ b, used demo_sb (dread demo_disk) b = true) (seqZ 0 46)) as H by by_compute.
    intros b Hb. rewrite Forall_forall in H. apply H, elem_of_seqZ. exact Hb.
Qed.

Definition demo_log : log := Log 2 30 1 0 ROOTDEV (Logheader 0 (replicate 30 0)).

(** A call in progress, with the inode [x] of number 7 locked at entry 0. *)
Definition demo_state (t : bst) (x : dinode) (u : flat) : fsys :=
  Fsys (Lst t demo_log 0) demo_sb (Inode ROOTDEV 7 1 (Sleeplock 1 1) 1 x :: replicate 49 (Inode 0 0 0 (Sleeplock 0 0) 0 inhabitant)) 0 [] u.

Lemma demo_tx : ∃ t, ∀ x u, TX demo_env (demo_state t x u) (dread demo_disk) [] ∅.
Proof.
  destruct (proj1 (wp_ok _ _ _) (binit_ok demo_disk 1)) as ([] & t & _ & HB & HD & HW & HP). exists t. intros x u.
  split; simpl; try done; try lia. split; simpl; first [done | unfold LOGSIZE, MAXOPBLOCKS; lia | by intros b ?%elem_of_nil | constructor].
Qed.

Definition empty_file (type : Z) : dinode := Dinode type 0 0 1 0 (replicate 13 0).

Lemma empty_file_fblk v type bn : 0 ≤ bn < MAXFILE → fblk v (empty_file type) bn = 0.
Proof.
  intros Hbn. assert (∀ k, (k < 13)%nat → replicate 13 0 !!! k = 0) as H by (intros k Hk; by apply lookup_total_replicate_2).
  unfold fblk, ind, A, empty_file. cbn [d_addrs]. destruct (Z.ltb_spec bn NDIRECT) as [Hlt|Hge]; [apply H; unfold NDIRECT in *; lia|].
  rewrite H by (unfold NDIRECT; lia). done.
Qed.

Lemma empty_file_ok v type : - 2 ^ 15 ≤ type < 2 ^ 15 → file_ok demo_sb v (empty_file type).
Proof.
  intros Ht. assert (ind (empty_file type) = 0) as Hi by reflexivity. split.
  - split.
    + split; [exact Ht|simpl; lia|simpl; lia|simpl; lia|simpl; lia|reflexivity|]. intros i. unfold empty_file. cbn [d_addrs]. destruct (decide (i < 13)%nat); [rewrite lookup_total_replicate_2 by done; lia|].
      rewrite list_lookup_total_alt, lookup_ge_None_2 by (rewrite length_replicate; lia). simpl. lia.
    + intros bn Hbn. by rewrite empty_file_fblk.
    + by rewrite Hi.
    + intros bn bn' Hbn Hbn'. by rewrite empty_file_fblk.
    + intros bn Hbn. by rewrite empty_file_fblk.
  - vm_compute. discriminate.
  - intros bn Hbn. unfold empty_file, BSIZE. cbn [d_size]. lia.
Qed.

(** ** Theorems *)

(** [balloc] returns a free data block, marks it and no other block in use,
    fills it with zeroes and changes no other block but the bitmap; it returns 0
    exactly when no block is free, and then it changes nothing. *)
Theorem balloc_spec {U} `{!UserMem U} e sb s v bl hd :
  sb_ok e sb → TX (U := U) e s v bl hd → fsb s = sb → FSV sb v → room e bl hd 2 →
  (∀ b y, hd !! b = Some y → datastart sb ≤ b ∧ used sb v b = true) →
  wp (balloc ROOTDEV) (λ r s', ∃ v' bl', TX e s' v' bl' hd ∧ FSV sb v' ∧
    (r = 0 ∧ v' = v ∧ bl' = bl ∧ (∀ b, 0 ≤ b < sb_size sb → used sb v b = true) ∨
     datastart sb ≤ r < sb_size sb ∧ used sb v r = false ∧ v' r = zero_block ∧
     (∀ c, 0 ≤ c < sb_size sb → used sb v' c = if decide (c = r) then true else used sb v c) ∧
     (∀ c, c ≠ r → ¬ bitmap sb c → v' c = v c))) s.
Proof.
  intros Hsb HT Hfsb HV Hr Hheld. eapply wp_mono; [|by apply (balloc_ok e sb Hsb s v bl hd HT Hfsb HV Hr Hheld)].
  intros r s' [(-> & Hfull & l & HT' & ->)|(Hrr & Hfree & l & -> & HT')].
  - exists v, bl. split; [by eapply TX_frame; [|exact HT']|]. split; [done|]. by left.
  - eexists _, _. split; [exact HT'|]. split; [by apply (taken_ok e sb Hsb)|]. right. split_and!; [lia|lia|done|apply fn_lookup_insert| |].
    + intros c Hc. by apply (taken_used e sb Hsb).
    + intros c Hc Hb. by apply (taken_frame e sb Hsb).
Qed.

Lemma balloc_spec_witness : ∃ t, let s := demo_state t (empty_file T_FILE) (Flat (λ _, 0) (λ _, true)) in let v := dread demo_disk in
  wp (balloc ROOTDEV) (λ r s', ∃ v' bl', TX demo_env s' v' bl' ∅ ∧ FSV demo_sb v' ∧
    (r = 0 ∧ v' = v ∧ bl' = [] ∧ (∀ b, 0 ≤ b < sb_size demo_sb → used demo_sb v b = true) ∨
     datastart demo_sb ≤ r < sb_size demo_sb ∧ used demo_sb v r = false ∧ v' r = zero_block ∧
     (∀ c, 0 ≤ c < sb_size demo_sb → used demo_sb v' c = if decide (c = r) then true else used demo_sb v c) ∧
     (∀ c, c ≠ r → ¬ bitmap demo_sb c → v' c = v c))) s.
Proof.
  destruct demo_tx as [t Ht]. exists t.
  apply (balloc_spec demo_env demo_sb); [exact demo_sb_ok|apply Ht|reflexivity|exact demo_fsv|reflexivity|].
  intros b y. rewrite lookup_empty. discriminate.
Defined.

(** C30. [writei] with a source that can be read stores the bytes: it returns
    the number [k] of bytes written, which is less than asked only if the disk is
    full; the file has these bytes at [off] and is otherwise unchanged, its inode
    is stored with the new size, no other inode and no block in use of anything
    else changes, and the blocks the file takes were free. *)
Theorem writei_spec {U} `{!UserMem U} `{!UserMemLaws U} e sb ip (s : fsys (U := U)) v x bl t off n bs inum :
  sb_ok e sb → TX e s v bl ∅ → fsb s = sb → inode_at ip s x → inum_at ip s inum → 0 ≤ inum < sb_ninodes sb → FSV sb v → file_ok sb v x →
  0 ≤ off ≤ d_size x → 0 ≤ n → off + n ≤ MAXFILE * BSIZE → fetch t n (umem s) = (0, bs) → length bs = Z.to_nat n → byte_list bs →
  Z.of_nat (length bl) + nbitmap sb + nblk off n + 8 < te_size e →
  wp (writei ip t off n) (λ k s', ∃ v' x' bl', 0 ≤ k ≤ n ∧ written e sb ip s v x bl off n bs inum k s' v' x' bl' ∧ (k < n → full sb v')) s.
Proof.
  intros Hsb HT Hfsb Hino Hnum Hin HV HF Ho Hn Hend Hf Hlen Hb Hroom.
  eapply wp_mono; [|by apply (writei_ok e sb Hsb ip s v x bl HT Hfsb Hino HV HF t off n bs Ho Hn Hend Hf Hlen Hb Hroom inum)].
  intros k s' (k' & v' & x' & bl' & -> & Hk & Hw & Hfull). by exists v', x', bl'.
Qed.

Lemma writei_spec_witness : ∃ t, let s := demo_state t (empty_file T_FILE) (Flat (λ _, 0) (λ _, true)) in
  wp (writei 0 (FromKernel [104; 105]) 0 2) (λ k s', ∃ v' x' bl', 0 ≤ k ≤ 2 ∧
    written demo_env demo_sb 0 s (dread demo_disk) (empty_file T_FILE) [] 0 2 [104; 105] 7 k s' v' x' bl' ∧ (k < 2 → full demo_sb v')) s.
Proof.
  destruct demo_tx as [t Ht]. exists t. apply (writei_spec demo_env demo_sb 0); try reflexivity.
  - exact demo_sb_ok.
  - apply Ht.
  - eexists. split; [reflexivity|]. split; reflexivity.
  - eexists. split; reflexivity.
  - split; [discriminate|reflexivity].
  - exact demo_fsv.
  - apply empty_file_ok. unfold T_FILE. lia.
  - split; discriminate.
  - discriminate.
  - discriminate.
  - repeat constructor; lia.
Defined.

(** C31. What [writei] wrote, [readi] reads back: reading the [k] bytes that were
    written gives the first [k] bytes of the source. *)
Theorem write_read_roundtrip {U} `{!UserMem U} `{!UserMemLaws U} e sb ip (s : fsys (U := U)) v x bl t off n bs inum :
  sb_ok e sb → TX e s v bl ∅ → fsb s = sb → inode_at ip s x → inum_at ip s inum → 0 ≤ inum < sb_ninodes sb → FSV sb v → file_ok sb v x →
  0 ≤ off ≤ d_size x → 0 ≤ n → off + n ≤ MAXFILE * BSIZE → fetch t n (umem s) = (0, bs) → length bs = Z.to_nat n → byte_list bs →
  Z.of_nat (length bl) + nbitmap sb + nblk off n + 8 < te_size e →
  wp (k ← writei ip t off n; r ← readi ip ToKernel off k; mret (k, r)) (λ y _, ∃ k, y = (k, (k, take (Z.to_nat k) bs)) ∧ 0 ≤ k ≤ n) s.
Proof.
  intros Hsb HT Hfsb Hino Hnum Hin HV HF Ho Hn Hend Hf Hlen Hb Hroom. apply wp_bind.
  eapply wp_mono; [|by apply (writei_ok e sb Hsb ip s v x bl HT Hfsb Hino HV HF t off n bs Ho Hn Hend Hf Hlen Hb Hroom inum)].
  intros k s1 (k' & v' & x' & bl' & -> & Hk & Hw & _). pose proof Hw as [HT' Hmv HV' HF' Hsz _ Hc _ _ _ _ _ Hlog].
  assert (MAXFILE * BSIZE = 274432) as Emax by done. apply wp_bind.
  eapply wp_mono; [|apply (readi_ok e sb Hsb ip s1 v' x' bl' ToKernel off k'); [done|by rewrite (mv_fsb _ _ _ _ Hmv)|by eapply moved_inode|done|done| |lia|lia]].
  2:{ unfold room. rewrite map_size_empty. lia. }
  assert (readable x' off k' = k') as Er.
  { unfold readable. rewrite Hsz, (proj2 (Z.ltb_ge _ _)), (proj2 (Z.leb_gt _ _)) by lia. simpl. lia. }
  intros r s2 (l & st' & acc & u & Hdel & -> & -> & _). rewrite Er in Hdel |- *. simpl in Hdel. injection Hdel as <- <- _. apply wp_ret. exists k'.
  split; [|done]. do 3 f_equal. apply list_eq. intros i. unfold fbytes. rewrite list_lookup_fmap. destruct (decide (Z.of_nat i < k')) as [Hi|Hi].
  - rewrite lookup_seqZ_lt, lookup_take_lt by lia. simpl. rewrite Hc, decide_True by lia. unfold byte_at.
    replace (Z.to_nat (off + (0 + Z.of_nat i) - off)) with i by lia. destruct (lookup_lt_is_Some_2 bs i) as [y Hy]; [lia|]. by rewrite Hy.
  - rewrite lookup_seqZ_ge, lookup_take_ge by lia. done.
Qed.

Lemma write_read_roundtrip_witness : ∃ t, let s := demo_state t (empty_file T_FILE) (Flat (λ a, a) (λ a, a <? 4096)) in
  wp (k ← writei 0 (FromUser 100) 0 3; r ← readi 0 ToKernel 0 k; mret (k, r)) (λ y _, ∃ k, y = (k, (k, take (Z.to_nat k) [100; 101; 102])) ∧ 0 ≤ k ≤ 3) s.
Proof.
  destruct demo_tx as [t Ht]. exists t. apply (write_read_roundtrip demo_env demo_sb 0 _ (dread demo_disk) (empty_file T_FILE) [] _ _ _ _ 7); try reflexivity.
  - exact demo_sb_ok.
  - apply Ht.
  - eexists. split; [reflexivity|]. split; reflexivity.
  - eexists. split; reflexivity.
  - split; [discriminate|reflexivity].
  - exact demo_fsv.
  - apply empty_file_ok. unfold T_FILE. lia.
  - split; discriminate.
  - discriminate.
  - discriminate.
  - repeat constructor; lia.
Defined.

(** A write as [filewrite] splits it, of at most three blocks of bytes at any
    offset, logs at most seven blocks when the bitmap is one block: the number of
    blocks a call may log, [MAXOPBLOCKS], is enough for it. *)
Theorem writei_fits_log {U} `{!UserMem U} `{!UserMemLaws U} e sb ip (s : fsys (U := U)) v x bl t off n bs inum :
  sb_ok e sb → sb_size sb < BPB → TX e s v bl ∅ → fsb s = sb → inode_at ip s x → inum_at ip s inum → 0 ≤ inum < sb_ninodes sb → FSV sb v → file_ok sb v x →
  0 ≤ off ≤ d_size x → 0 ≤ n ≤ (MAXOPBLOCKS - 1 - 1 - 2) / 2 * BSIZE → off + n ≤ MAXFILE * BSIZE →
  fetch t n (umem s) = (0, bs) → length bs = Z.to_nat n → byte_list bs → Z.of_nat (length bl) + 13 < te_size e →
  wp (writei ip t off n) (λ _ s', lh_n (lh (lg (flog s'))) ≤ lh_n (lh (lg (flog s))) + 7 ∧ 7 ≤ MAXOPBLOCKS) s.
Proof.
  intros Hsb Hsize HT Hfsb Hino Hnum Hin HV HF Ho Hn Hend Hf Hlen Hb Hroom. pose proof (datastart_pos e sb Hsb) as Hds. pose proof (so_data e sb Hsb) as Hsd.
  assert (nbitmap sb = 1) as Hnb by (unfold nbitmap, datastart, BPB, BSIZE in *; zdm).
  assert (nblk off n ≤ 4) as Hnk by (unfold nblk, MAXOPBLOCKS, BSIZE in *; change ((10 - 1 - 1 - 2) / 2 * 1024) with 3072 in Hn; destruct (0 <? n); [zdm|lia]).
  eapply wp_mono; [|apply (writei_ok e sb Hsb ip s v x bl HT Hfsb Hino HV HF t off n bs Ho (proj1 Hn) Hend Hf Hlen Hb) with (inum := inum); [lia|done|done]].
  intros k s1 (k' & v' & x' & bl' & _ & Hk & [HT' _ _ _ _ _ _ _ _ _ _ _ Hlog] & _). rewrite (lhd_n _ _ _ _ (tx_lhd _ _ _ _ _ HT')).
  rewrite (lhd_n _ _ _ _ (tx_lhd _ _ _ _ _ HT)). unfold MAXOPBLOCKS. lia.
Qed.

Lemma writei_fits_log_witness : ∃ t, let s := demo_state t (empty_file T_FILE) (Flat (λ a, a) (λ a, a <? 4096)) in
  wp (writei 0 (FromUser 100) 0 3) (λ _ s', lh_n (lh (lg (flog s'))) ≤ lh_n (lh (lg (flog s))) + 7 ∧ 7 ≤ MAXOPBLOCKS) s.
Proof.
  destruct demo_tx as [t Ht]. exists t. apply (writei_fits_log demo_env demo_sb 0 _ (dread demo_disk) (empty_file T_FILE) [] _ _ _ [100; 101; 102] 7); try reflexivity.
  - exact demo_sb_ok.
  - apply Ht.
  - eexists. split; [reflexivity|]. split; reflexivity.
  - eexists. split; reflexivity.
  - split; [discriminate|reflexivity].
  - exact demo_fsv.
  - apply empty_file_ok. unfold T_FILE. lia.
  - split; discriminate.
  - split; discriminate.
  - discriminate.
  - repeat constructor; lia.
Defined.

(** C32. [dirlink] adds a name to a directory: on success [dirlookup] of the name
    gives an inode with the number that was linked, and [dirlookup] of every other
    name gives what the directory had before; it fails without changing the
    contents if the name is there, and otherwise only if the disk is full. *)
Theorem dirlink_spec {U} `{!UserMem U} `{!UserMemLaws U} e sb dp (s : fsys (U := U)) v x bl inum0 name inum :
  sb_ok e sb → TX e s v bl ∅ → fsb s = sb → inode_at dp s x → inum_at dp s inum0 → 0 ≤ inum0 < sb_ninodes sb → FSV sb v → dir_ok sb v x →
  d_size x + 16 ≤ MAXFILE * BSIZE → Z.of_nat (length bl) + nbitmap sb + 9 < te_size e →
  table_ok (itable s) → (∃ k i, itable s !! k = Some i ∧ i_ref i = 0) → (∀ k i, itable s !! k = Some i → 0 ≤ i_ref i < 2 ^ 31 - 1) →
  byte_list name → u16 inum ≠ 0 →
  wp (dirlink dp name inum) (λ r s', match find_name v x name with
    | Some _ => r = -1 ∧ TX e s' v bl ∅
    | None =>
        ∃ v' x' bl', TX e s' v' bl' ∅ ∧ inode_at dp s' x' ∧ FSV sb v' ∧
          (r = 0 ∧ dir_ok sb v' x' ∧ wp (dirlookup dp name) (answers (Some (u16 inum))) s' ∧
             (∀ name', namecmp name' name ≠ 0 → wp (dirlookup dp name') (answers (snd <$> find_name v x name')) s')
           ∨ r = -1 ∧ full sb v')
    end) s.
Proof.
  intros Hsb HT Hfsb Hino Hnum Hin HV HD Hmax Hroom Ht Hfree Hrefs Hnb Hi.
  exact (dirlink_ok e sb Hsb dp s v x bl inum0 HT Hfsb Hino Hnum Hin HV HD Hmax Hroom Ht Hfree Hrefs name inum Hnb Hi).
Qed.

Lemma demo_table t x u k i : itable (demo_state t x u) !! k = Some i → k = 0%nat ∧ i_ref i = 1 ∨ i_ref i = 0.
Proof.
  unfold demo_state. cbn [itable]. destruct k as [|k]; [intros [= <-]; by left|]. rewrite lookup_cons_ne_0 by done. intros [-> _]%lookup_replicate. by right.
Qed.

Lemma dirlink_spec_witness : ∃ t, let s := demo_state t (empty_file T_DIR) (Flat (λ a, a) (λ a, a <? 4096)) in let v := dread demo_disk in let x := empty_file T_DIR in
  wp (dirlink 0 [97; 98] 5) (λ r s', match find_name v x [97; 98] with
    | Some _ => r = -1 ∧ TX demo_env s' v [] ∅
    | None =>
        ∃ v' x' bl', TX demo_env s' v' bl' ∅ ∧ inode_at 0 s' x' ∧ FSV demo_sb v' ∧
          (r = 0 ∧ dir_ok demo_sb v' x' ∧ wp (dirlookup 0 [97; 98]) (answers (Some 5)) s' ∧
             (∀ name', namecmp name' [97; 98] ≠ 0 → wp (dirlookup 0 name') (answers (snd <$> find_name v x name')) s')
           ∨ r = -1 ∧ full demo_sb v')
    end) s.
Proof.
  destruct demo_tx as [t Ht]. exists t. apply (dirlink_spec demo_env demo_sb 0 _ _ _ [] 7); try reflexivity.
  - exact demo_sb_ok.
  - apply Ht.
  - eexists. split; [reflexivity|]. split; reflexivity.
  - eexists. split; reflexivity.
  - split; [discriminate|reflexivity].
  - exact demo_fsv.
  - split; [apply empty_file_ok; unfold T_DIR; lia|reflexivity|reflexivity].
  - discriminate.
  - intros k k' i i' [[-> _]|H]%demo_table [[-> _]|H']%demo_table; intros; lia.
  - exists 1%nat. eexists. split; reflexivity.
  - intros k i [[_ H]|H]%demo_table; lia.
  - repeat constructor; lia.
  - discriminate.
Defined.

(** ** A failing write *)

Section fault.
Context {U : Type} `{!UserMem U} `{!UserMemLaws U} (e : txenv) (sb : superblock) (Hsb : sb_ok e sb) (ip : nat).
Context (s : fsys (U := U)) (v : Z → list Z) (x : dinode) (bl : list Z) (inum : Z).
Context (HT : TX e s v bl ∅) (Hfsb : fsb s = sb) (Hino : inode_at ip s x) (Hnum : inum_at ip s inum) (Hin : 0 ≤ inum < sb_ninodes sb).
Context (HV : FSV sb v) (HF : file_ok sb v x) (t : source) (off n : Z) (pre : list Z).
Context (Hoff : 0 ≤ off) (Hn : 0 < n) (Hend : off + n ≤ d_size x) (Hlog : fblk v x (off / BSIZE) ∈ bl) (Hroom : room e bl ∅ 7).
Context (Hlen : Z.of_nat (length pre) ≤ Z.min n (BSIZE - off mod BSIZE)) (Hbytes : byte_list pre).
Context (Hfault : fetch t (Z.min n (BSIZE - off mod BSIZE)) (umem s) = (-1, pre)).

(** The view with the bytes copied before the fault. *)
Definition faulted : Z → list Z := <[fblk v x (off / BSIZE) := splice (off mod BSIZE) pre (v (fblk v x (off / BSIZE)))]> v.

Lemma fault_bn : 0 ≤ off / BSIZE < MAXFILE ∧ fblk v x (off / BSIZE) ≠ 0.
Proof.
  clear - HF Hoff Hn Hend. destruct HF as [_ Hsz Hal]. assert (MAXFILE * BSIZE = 274432) as Emax by done.
  split; [unfold BSIZE in *; change MAXFILE with 268; zdm|]. apply Hal; unfold BSIZE in *; zdm.
Qed.

Lemma faulted_file :
  FSV sb faulted ∧ file_ok sb faulted x ∧
  ∀ k, 0 ≤ k < MAXFILE * BSIZE → content faulted x k = if decide (off ≤ k < off + Z.of_nat (length pre)) then byte_at pre (k - off) else content v x k.
Proof.
  clear - Hsb HV HF Hoff Hn Hend Hlen Hbytes. destruct fault_bn as [Hbn Hne]. destruct (fv_blocks _ _ HV (fblk v x (off / BSIZE))) as [Hla Hba]. assert (0 ≤ off mod BSIZE) as Ho by (unfold BSIZE; zdm).
  assert (off mod BSIZE + Z.of_nat (length pre) ≤ Z.of_nat (length (v (fblk v x (off / BSIZE))))) as Hfit by (rewrite Hla; unfold BSIZE in *; lia).
  destruct HF as [HI Hsz Hal]. destruct (write_block e sb Hsb v x (off / BSIZE) (splice (off mod BSIZE) pre (v (fblk v x (off / BSIZE))))) as [Hx Hc];
    [done|done|done|done|by rewrite length_splice|by apply byte_list_splice|]. fold faulted in Hx, Hc.
  split; [apply Hx|]. split.
  { split; [apply Hx|done|]. intros bn Hb Hlt. rewrite (ext_keep _ _ _ _ _ Hx); [by apply Hal| |by apply Hal]. unfold BSIZE in *. change MAXFILE with 268 in *. lia. }
  intros k Hk. rewrite Hc by done. case_decide as Ek.
  - rewrite byte_at_splice by (try lia; unfold BSIZE; zdm). repeat case_decide; try (unfold BSIZE in *; zdm).
    + f_equal. unfold BSIZE in *. zdm.
    + unfold content. rewrite Ek, (proj2 (Z.eqb_neq _ _)) by done. done.
  - rewrite decide_False; [done|]. unfold BSIZE in *. zdm.
Qed.

Lemma stored_file w y :
  FSV sb w → file_ok sb w y →
  FSV sb (stored sb w inum y) ∧ file_ok sb (stored sb w inum y) y ∧ ∀ k, 0 ≤ k < MAXFILE * BSIZE → content (stored sb w inum y) y k = content w y k.
Proof.
  clear - Hsb Hin. intros Hw [HI Hsz Hal]. destruct (stored_iok e sb Hsb w inum y Hin y HI) as [HI' Hc]. split; [by apply (stored_ok e sb Hsb)|]. split; [|done].
  split; [done|done|]. intros bn Hb Hlt. rewrite (stored_fblk e sb Hsb w inum y Hin y bn HI); [by apply Hal|]. unfold BSIZE in *. change MAXFILE with 268 in *. lia.
Qed.

Lemma fault_body :
  wp (writei_body ip t n (0, off)) (λ r s', r = inr (0, off) ∧ ∃ l, s' = set_flog l s ∧ TX e s' faulted bl ∅) s.
Proof.
  destruct fault_bn as [Hbn Hne]. unfold writei_body. rewrite (proj2 (Z.ltb_lt 0 n)) by done. apply wp_bind.
  eapply wp_mono; [|apply (bmap_ok e sb Hsb ip s v x bl (off / BSIZE) HT Hfsb Hino HV (fk_iok _ _ _ HF)); [unfold room in *; lia|done]].
  intros a s1 (v1 & x1 & bl1 & (HT1 & _) & _ & _ & Hold). destruct (Hold Hne) as (-> & -> & -> & -> & l1 & ->). cbn beta. rewrite (proj2 (Z.eqb_neq _ _)) by done.
  apply wp_bind, (wp_iat ip _ x); [done|]. intros i Hdev _ _. rewrite Hdev. cbv zeta. rewrite Z.sub_0_r.
  destruct (room_bufs _ _ _ _ _ _ HT1 Hroom) as [R1 R2]; [lia|].
  apply wp_bind, (wp_fs_bread e _ _ _ _ HT1); [apply lookup_empty|done|]. intros j l2 H2.
  assert (fetch (sshift t 0) (Z.min n (BSIZE - off mod BSIZE)) (umem s) = (-1, pre)) as Hf
    by (destruct t as [bs|a]; simpl in *; [done|by rewrite Z.add_0_r]).
  apply wp_bind, wp_either_copyin. cbn [umem set_flog]. rewrite Hf. cbn [fst snd Z.eqb].
  apply wp_bind. eapply (wp_fs_modify e _ _ _ _ H2); [apply lookup_insert_eq|]. intros l3 H3. cbn [Z.eqb Pos.eqb].
  apply wp_bind. eapply (wp_fs_brelse e _ _ _ _ H3); [apply lookup_insert_eq|by left|]. intros l4 H4. apply wp_ret.
  split; [done|]. exists l4. split; [by destruct s|]. by rewrite !delete_insert_eq, delete_empty in H4.
Qed.

Lemma fault_writei : wp (writei ip t off n) (λ r s', r = 0 ∧ ∃ l, s' = set_flog l s ∧ TX e s' (stored sb faulted inum x) (add_block (IBLOCK inum sb) bl) ∅) s.
Proof.
  destruct faulted_file as (HVf & HFf & _). destruct HF as [HI Hsz _]. assert (MAXFILE * BSIZE = 274432) as Emax by done.
  unfold writei. apply wp_bind, (wp_iat ip s x); [done|]. intros i _ Hdisk _. rewrite Hdisk.
  rewrite (proj2 (Z.ltb_ge (d_size x) off)), u32_small, (proj2 (Z.ltb_ge _ off)), Emax, (proj2 (Z.ltb_ge _ _)) by lia. simpl orb. cbv iota.
  apply wp_bind, wp_iter_S. eapply wp_mono; [|apply fault_body]. intros r s1 (-> & l & -> & H1). cbv beta iota.
  apply wp_bind, (wp_iat ip _ x); [done|]. intros i' _ Hdisk' _. cbn [snd]. rewrite Hdisk', (proj2 (Z.ltb_ge _ _)) by lia.
  apply wp_bind, wp_ret, wp_bind. eapply (iupdate_ok e sb Hsb ip _ faulted x bl inum); [exact H1|done|done|done|done|unfold room in *; lia|].
  intros l2 H2. apply wp_ret. split; [done|]. by exists l2.
Qed.
End fault.


(** Block 46 is in use. *)
Definition used_disk : gmap Z (list Z) := {[45 := [255; 255; 255; 255; 255; 127] ++ replicate 1018 0]}.

Definition used_env : txenv := Txenv 2 30 used_disk [] 1 1 0.

(** Block 46 as a call of the transaction left it: it holds 1, 2, 3, 4. *)
Definition four_view : Z → list Z := <[46 := splice 0 [1; 2; 3; 4] (dread used_disk 46)]> (dread used_disk).

(** A file of four bytes in block 46. *)
Definition four_file : dinode := Dinode T_FILE 0 0 1 4 (46 :: replicate 12 0).

(** One page is mapped. *)
Definition one_page : flat := Flat (λ a, a) (λ a, a <? 4096).

Lemma used_fsv : FSV demo_sb four_view.
Proof.
  split.
  - apply blocks_ok_insert; [|reflexivity|repeat constructor; lia]. intros b. unfold dread, used_disk.
    destruct (decide (b = 45)) as [->|]; [rewrite lookup_singleton_eq|rewrite lookup_singleton_ne by done; apply zero_block_ok].
    split; [reflexivity|]. repeat constructor; try lia.
  - assert (Forall (λ b, used demo_sb four_view b = true) (seqZ 0 46)) as H by by_compute.
    intros b Hb. rewrite Forall_forall in H. apply H, elem_of_seqZ. exact Hb.
Qed.

Lemma four_fblk bn : 0 ≤ bn < MAXFILE → fblk four_view four_file bn = if bn =? 0 then 46 else 0.
Proof.
  assert (Forall (λ bn, fblk four_view four_file bn = if bn =? 0 then 46 else 0) (seqZ 0 MAXFILE)) as H by by_compute.
  intros Hbn. rewrite Forall_forall in H. by apply H, elem_of_seqZ.
Qed.

Lemma four_file_ok : file_ok demo_sb four_view four_file.
Proof.
  assert (ind four_file = 0) as Hi by reflexivity. split.
  - split.
    + split; try (simpl; unfold T_FILE; lia). intros i. destruct (decide (i < 13)%nat) as [Hlt|Hge].
      { do 13 (destruct i as [|i]; [vm_compute; split; [discriminate|reflexivity]|]). lia. }
      rewrite list_lookup_total_alt, lookup_ge_None_2 by (simpl; lia). simpl. lia.
    + intros bn Hbn. rewrite four_fblk by done. destruct (bn =? 0); [|done]. intros _. split; [|by_compute]. unfold isdata. vm_compute. split; [discriminate|reflexivity].
    + by rewrite Hi.
    + intros bn bn' Hbn Hbn'. rewrite !four_fblk by done. destruct (Z.eqb_spec bn 0), (Z.eqb_spec bn' 0); congruence.
    + intros bn Hbn. rewrite four_fblk by done. destruct (bn =? 0); [|done]. intros _. by rewrite Hi.
  - vm_compute. discriminate.
  - intros bn Hbn. unfold four_file, BSIZE. cbn [d_size]. intros Hlt. rewrite four_fblk by (change MAXFILE with 268; lia). by rewrite (proj2 (Z.eqb_eq bn 0)) by lia.
Qed.

Lemma four_tx : ∃ l, ∀ u, TX used_env (set_flog l (demo_state (bcache0 used_disk 1) four_file u)) four_view [46] ∅.
Proof.
  destruct (proj1 (wp_ok _ _ _) (binit_ok used_disk 1)) as ([] & t & _ & HB & HD & HW & HP).
  assert (TX used_env (demo_state t four_file one_page) (dread used_disk) [] ∅) as HT.
  { split; simpl; try done; try lia. split; simpl; first [done | unfold LOGSIZE, MAXOPBLOCKS; lia | by intros b ?%elem_of_nil | constructor]. }
  assert (wp (j ← bread ROOTDEV 46; modify_data j (splice 0 [1; 2; 3; 4]);; Fs.log_write j;; brelse j) (λ _ s', TX used_env s' four_view [46] ∅)
    (demo_state t four_file one_page)) as Hw.
  { apply wp_bind, (wp_fs_bread _ _ _ _ _ HT); [apply lookup_empty|rewrite map_size_empty; vm_compute; lia|]. intros j l1 H1.
    eapply (wp_fs_update_end _ _ _ _ _ 46 j _ _ _ H1); [apply lookup_empty| |simpl; lia|done]. split; [lia|]. unfold in_log. simpl. lia. }
  destruct (proj1 (wp_ok _ _ _) Hw) as ([] & s' & _ & HT'). exists (flog s'). intros u. by eapply TX_frame; [|exact HT'].
Qed.

