(* ===== verification/Fspath.v ===== *)
(** * Paths: [skipelem]

    The elements of a path are what splitting it at the slashes leaves, without
    the empty pieces; [skipelem] takes the first of them. *)

From S2P Require Import Prelude Machine Bytes Fs.

(** ** Reference: splitting at slashes *)

Fixpoint pieces (p : list Z) : list (list Z) :=
  match p with
  | [] => [[]]
  | c :: p' =>
      if c =? slash then [] :: pieces p'
      else match pieces p' with f :: fs => (c :: f) :: fs | [] => [[c]] end
  end.

Definition elements (p : list Z) : list (list Z) := filter (λ f, f ≠ []) (pieces p).

(** A C string: no 0 before its end. *)
Definition cstring (p : list Z) : Prop := 0 ∉ p.

Lemma pieces_cons p : ∃ f fs, pieces p = f :: fs.
Proof. destruct p as [|c p]; simpl; [by eexists _, _|]. destruct (c =? slash); [by eexists _, _|]. destruct (pieces p); by eexists _, _. Qed.

Lemma elements_skip p : elements (skip_slashes p) = elements p.
Proof.
  induction p as [|c p IH]; simpl; [done|]. destruct (Z.eqb_spec c slash) as [->|]; [|done]. rewrite IH. unfold elements. simpl.
  by rewrite filter_cons_False by naive_solver.
Qed.

Lemma skip_slashes_head p : match skip_slashes p with c :: _ => c ≠ slash | [] => True end.
Proof. induction p as [|c p IH]; simpl; [done|]. by destruct (Z.eqb_spec c slash). Qed.

Lemma skip_slashes_incl p : ∀ c, c ∈ skip_slashes p → c ∈ p.
Proof. induction p as [|d p IH]; simpl; [done|]. intros c. destruct (d =? slash); [|done]. intros H. right. by apply IH. Qed.

Lemma skip_slashes_length p : (length (skip_slashes p) ≤ length p)%nat.
Proof. induction p as [|d p IH]; simpl; [done|]. destruct (d =? slash); simpl; lia. Qed.

(** [span_elem] takes the first piece. *)
Lemma span_elem_spec p :
  cstring p → let '(e, r) := span_elem p in
  p = e ++ r ∧ (slash ∉ e) ∧ (r = [] ∨ ∃ r', r = slash :: r') ∧ pieces p = match r with [] => [e] | _ :: r' => e :: pieces r' end.
Proof.
  induction p as [|c p IH]; simpl; intros Hp.
  { split_and!; [done|apply not_elem_of_nil|by left|done]. }
  unfold cstring in *. rewrite not_elem_of_cons in Hp. destruct Hp as [Hc Hp]. destruct (Z.eqb_spec c slash) as [->|Hs]; simpl.
  { split_and!; [done|apply not_elem_of_nil|right; by eexists|done]. }
  rewrite (proj2 (Z.eqb_neq _ _)) by congruence. specialize (IH Hp). destruct (span_elem p) as [e r]. destruct IH as (-> & He & Hr & Hpc). split_and!.
  - done.
  - rewrite not_elem_of_cons. split; [congruence|done].
  - done.
  - rewrite Hpc. by destruct r.
Qed.

(** The name an element of a path stands for: its first [DIRSIZ] characters. *)
Definition same_prefix (name e : list Z) : Prop := namecmp name e = 0 ∧ namecmp e name = 0.

Lemma strncmp_same n i s t : (∀ j, i ≤ j < i + Z.of_nat n → byte_at s j = byte_at t j ∨ ∃ k, i ≤ k < j ∧ byte_at s k = 0 ∧ byte_at t k = 0) → strncmp_bytes n i s t = 0.
Proof.
  revert i. induction n as [|n IH]; intros i H; simpl; [done|]. destruct (H i) as [E|(k & ? & _)]; [lia| |lia]. rewrite E, Z.eqb_refl.
  destruct (Z.eqb_spec (byte_at t i) 0) as [E0|E0]; simpl; [lia|]. apply IH. intros j Hj. destruct (H j) as [?|(k & Hk & Hk1 & Hk2)]; [lia|by left|].
  right. exists k. destruct (decide (k = i)) as [->|]; [done|]. split; [lia|done].
Qed.

(** The buffer [skipelem] fills. *)
Lemma name_buffer e name :
  cstring e → length name = Z.to_nat DIRSIZ → let len := Z.of_nat (length e) in
  let name' := if DIRSIZ <=? len then take (Z.to_nat DIRSIZ) e else <[Z.to_nat len := 0]> (e ++ drop (Z.to_nat len) name) in
  same_prefix name' e ∧ length name' = Z.to_nat DIRSIZ.
Proof.
  intros He Hn. cbn zeta. unfold DIRSIZ in *. change (Z.to_nat 14) with 14%nat in *.
  destruct (Z.leb_spec 14 (Z.of_nat (length e))) as [Hl|Hl].
  - assert (∀ j, 0 ≤ j < 14 → byte_at (take 14 e) j = byte_at e j) as Hb by (intros j Hj; unfold byte_at; by rewrite lookup_take_lt by lia).
    split; [|rewrite length_take; lia]. split; apply strncmp_same; intros j Hj; left; [|symmetry]; apply Hb; change (Z.of_nat (Z.to_nat DIRSIZ)) with 14 in Hj; lia.
  - rewrite Nat2Z.id. assert (length (e ++ drop (length e) name) = 14%nat) as Hlen by (rewrite length_app, length_drop; lia).
    split; [|by rewrite length_insert].
    assert (∀ j, 0 ≤ j < 14 → byte_at (<[length e := 0]> (e ++ drop (length e) name)) j = byte_at e j ∨
      ∃ k, 0 ≤ k < j ∧ byte_at (<[length e := 0]> (e ++ drop (length e) name)) k = 0 ∧ byte_at e k = 0) as Hb.
    { intros j Hj. destruct (decide (j ≤ Z.of_nat (length e))) as [Hle|Hgt].
      - left. rewrite byte_at_insert by lia. case_decide as E; unfold byte_at.
        + subst j. by rewrite lookup_ge_None_2 by lia.
        + by rewrite lookup_app_l by lia.
      - right. exists (Z.of_nat (length e)). split; [lia|]. rewrite byte_at_insert, decide_True by lia. split; [done|]. unfold byte_at. by rewrite lookup_ge_None_2 by lia. }
    split; apply strncmp_same; change (Z.of_nat (Z.to_nat DIRSIZ)) with 14; intros j Hj; destruct (Hb j) as [E|(k & Hk & E1 & E2)]; try lia; eauto.
Qed.

(** [skipelem] takes the first element of a path: it returns 0 exactly when
    the path has no element; otherwise the buffer, of [DIRSIZ] bytes, compares
    equal to the element under [namecmp], what is returned has the remaining
    elements, does not start with a slash and is shorter than the path. *)
Theorem skipelem_spec path name (Hp : cstring path) (Hn : length name = Z.to_nat DIRSIZ) :
  match skipelem path name with
  | None => elements path = []
  | Some (rest, name') =>
      ∃ e, elements path = e :: elements rest ∧ same_prefix name' e ∧ length name' = Z.to_nat DIRSIZ ∧
        cstring rest ∧ head rest ≠ Some slash ∧ (length rest < length path)%nat
  end.
Proof.
  unfold skipelem. set (q := skip_slashes path). pose proof (skip_slashes_length path) as Hlq. fold q in Hlq.
  assert (cstring q) as Hq by (intros H; by apply Hp, skip_slashes_incl). pose proof (elements_skip path) as Eq. fold q in Eq.
  pose proof (skip_slashes_head path) as Hh. fold q in Hh. destruct q as [|c q'] eqn:Eqq.
  { simpl. rewrite <-Eq. reflexivity. }
  assert (c ≠ 0) as Hc by (intros ->; apply Hq; by left). unfold byte_at at 1. change ((c :: q') !! Z.to_nat 0) with (Some c). simpl default.
  rewrite (proj2 (Z.eqb_neq _ _)) by done. pose proof (span_elem_spec (c :: q') Hq) as Hs. destruct (span_elem (c :: q')) as [e r] eqn:Ee.
  destruct Hs as (Eapp & Hes & Hr & Hpc). assert (e ≠ []) as Hne.
  { intros ->. simpl in Eapp. destruct Hr as [->|(r' & ->)]; [done|]. injection Eapp as -> _. done. }
  assert (cstring e ∧ cstring r) as [Hce Hcr] by (rewrite Eapp in Hq; unfold cstring in *; by apply not_elem_of_app in Hq).
  destruct (name_buffer e name Hce Hn) as [Hsame Hlen]. exists e. split_and!.
  - rewrite <-Eq, elements_skip. unfold elements at 1. rewrite Hpc. destruct Hr as [->|(r' & ->)]; rewrite filter_cons_True by done; [done|].
    by f_equal.
  - apply Hsame.
  - done.
  - intros H. by apply Hcr, skip_slashes_incl.
  - pose proof (skip_slashes_head r) as Hsr. destruct (skip_slashes r); [done|]. simpl. congruence.
  - pose proof (skip_slashes_length r). apply (f_equal length) in Eapp. rewrite length_app in Eapp. destruct e; [done|]. simpl in *. lia.
Qed.

(** The path ///usr//bin. *)
Lemma skipelem_spec_witness :
  let path := [47; 47; 47; 117; 115; 114; 47; 47; 98; 105; 110] in
  ∃ e rest, elements path = e :: elements rest ∧ elements rest = [[98; 105; 110]] ∧ head rest ≠ Some slash.
Proof.
  intros path. assert (cstring path) as Hp by (unfold cstring, path; rewrite !not_elem_of_cons; repeat split; try lia; apply not_elem_of_nil).
  pose proof (skipelem_spec path (replicate 14 0) Hp eq_refl) as H. vm_compute skipelem in H. destruct H as (e & He & _ & _ & _ & Hh & _).
  exists e, [98; 105; 110]. split; [exact He|]. split; [reflexivity|exact Hh].
Defined.
