(* ===== verification/Grep.v ===== *)
(** * grep (user/grep.c)

    The matcher for [^ . * $] and the loop that cuts what it reads into lines.
    Strings are lists of bytes without 0; the system call [read] is the oracle of
    how many bytes each call returns. *)

From S2P Require Import Prelude.

Definition caret : Z := 94.
Definition star : Z := 42.
Definition dollar : Z := 36.
Definition dot : Z := 46.
Definition newline : Z := 10.

(** ** The matcher *)

Fixpoint matchstar (here : list Z → bool) (c : Z) (text : list Z) : bool :=
  here text || match text with
               | a :: text' => ((a =? c) || (c =? dot)) && matchstar here c text'
               | [] => false
               end.

Fixpoint matchhere (re : list Z) (text : list Z) : bool :=
  match re with
  | [] => true
  | c :: re' =>
      let other :=
        if (c =? dollar) && match re' with [] => true | _ => false end then match text with [] => true | _ => false end
        else match text with a :: text' => ((c =? dot) || (c =? a)) && matchhere re' text' | [] => false end in
      match re' with
      | s :: re'' => if s =? star then matchstar (matchhere re'') c text else other
      | [] => other
      end
  end.

(** The loop of [match] over the positions of the text. *)
Fixpoint match_any (re : list Z) (text : list Z) : bool :=
  matchhere re text || match text with _ :: text' => match_any re text' | [] => false end.

Definition match_re (re text : list Z) : bool :=
  match re with c :: re' => if c =? caret then matchhere re' text else match_any re text | [] => match_any re text end.

(** ** Lines *)

(** [strchr(p, c)] on the bytes of [p] up to its 0: the position found. *)
Fixpoint strchr (s : list Z) (c : Z) : option nat :=
  match s with
  | [] => None
  | a :: s' => if a =? 0 then None else if a =? c then Some 0%nat else option_map S (strchr s' c)
  end.

(** The inner loop on the bytes [p] of the buffer: what is printed, and what is
    left. *)
Fixpoint grep_lines (fuel : nat) (pattern p : list Z) : list Z * list Z :=
  match fuel with
  | O => ([], p)
  | S fuel' =>
      match strchr p newline with
      | Some q =>
          let '(out, rest) := grep_lines fuel' pattern (drop (S q) p) in
          ((if match_re pattern (take q p) then take (S q) p else []) ++ out, rest)
      | None => ([], p)
      end
  end.

Definition bufsize : nat := 1024.

(** [read(fd, buf, k)]: at most [k] bytes, at most [S c], none at the end. *)
Definition read (c k : nat) (inp : list Z) : list Z * list Z :=
  let n := (k `min` length inp `min` S c)%nat in (take n inp, drop n inp).

(** [grep]: [oracle] says how many bytes the reads return, [buf] holds what is
    left of the buffer; the result is what is written to the output. *)
Fixpoint grep (fuel : nat) (oracle : nat → nat) (pattern : list Z) (buf inp : list Z) : list Z :=
  match fuel with
  | O => []
  | S fuel' =>
      let '(got, inp') := read (oracle fuel') (bufsize - length buf - 1) inp in
      match got with
      | [] => []
      | _ => let '(out, rest) := grep_lines (S (length (buf ++ got))) pattern (buf ++ got) in
             out ++ grep fuel' oracle pattern rest inp'
      end
  end.

(** ** The language of a pattern *)

Inductive item := One (c : Z) | Many (c : Z) | Eol.

Fixpoint parse (re : list Z) : list item :=
  match re with
  | [] => []
  | c :: re' =>
      let other := if (c =? dollar) && match re' with [] => true | _ => false end then [Eol] else One c :: parse re' in
      match re' with s :: re'' => if s =? star then Many c :: parse re'' else other | [] => other end
  end.

Definition accepts (c a : Z) : Prop := c = dot ∨ c = a.

(** The items match the string [s] where [rest] follows it. *)
Fixpoint denotes (its : list item) (s rest : list Z) : Prop :=
  match its with
  | [] => s = []
  | One c :: its' => ∃ a s', s = a :: s' ∧ accepts c a ∧ denotes its' s' rest
  | Many c :: its' => ∃ s1 s2, s = s1 ++ s2 ∧ Forall (accepts c) s1 ∧ denotes its' s2 rest
  | Eol :: its' => s = [] ∧ rest = [] ∧ denotes its' [] rest
  end.

Definition found_here (its : list item) (text : list Z) : Prop := ∃ s rest, text = s ++ rest ∧ denotes its s rest.

Definition found (re text : list Z) : Prop :=
  match re with
  | c :: re' => if decide (c = caret) then found_here (parse re') text else ∃ pre post, text = pre ++ post ∧ found_here (parse re) post
  | [] => True
  end.

Lemma accepts_spec c a : (c =? dot) || (c =? a) = true ↔ accepts c a.
Proof. by rewrite orb_true_iff, !Z.eqb_eq. Qed.

Lemma matchstar_spec here c text : matchstar here c text = true ↔ ∃ s1 s2, text = s1 ++ s2 ∧ Forall (accepts c) s1 ∧ here s2 = true.
Proof.
  induction text as [|a text IH]; simpl; rewrite orb_true_iff.
  - split; [intros [H|?]; [by exists [], []|done]|]. intros (s1 & s2 & H & _ & Hh). left. symmetry in H. apply app_eq_nil in H as [-> ->]. done.
  - rewrite andb_true_iff, IH, orb_comm, (Z.eqb_sym a c), accepts_spec. split.
    + intros [H|(Ha & s1 & s2 & -> & Hs & Hh)]; [by exists [], (a :: text)|]. exists (a :: s1), s2. split; [done|]. split; [by constructor|done].
    + intros ([|b s1] & s2 & E & Hs & Hh); simpl in E; [left; by rewrite E|]. injection E as -> ->. apply Forall_cons in Hs as [Hb Hs]. right. split; [done|]. by exists s1, s2.
Qed.

(** Every case of [parse] and [matchhere], on patterns of growing length. *)
Lemma matchhere_spec re text : matchhere re text = true ↔ found_here (parse re) text.
Proof.
  remember (length re) as n eqn:En. revert re text En. induction n as [n IH] using lt_wf_ind. intros re text ->.
  assert (Hone : ∀ c re', re = c :: re' →
    match text with a :: text' => ((c =? dot) || (c =? a)) && matchhere re' text' | [] => false end = true ↔
    found_here (One c :: parse re') text).
  { intros c re' ->. destruct text as [|a text]; [split; [done|]; by intros (s & rest & E & a & s' & -> & _)|].
    rewrite andb_true_iff, accepts_spec, (IH (length re') ltac:(simpl; lia) re' text eq_refl). split.
    - intros (Ha & s & rest & -> & Hd). exists (a :: s), rest. split; [done|]. by exists a, s.
    - intros (s & rest & E & b & s' & -> & Ha & Hd). injection E as -> ->. split; [done|]. by exists s', rest. }
  destruct re as [|c re']; [split; [intros _; by exists [], text|done]|].
  destruct re' as [|s re''].
  - simpl. destruct (c =? dollar) eqn:E; simpl; [|by apply (Hone c [])].
    destruct text as [|a text]; (split; [intros ?; try done; by exists [], []|]).
    + done.
    + intros (s & rest & E' & -> & -> & _). done.
  - cbn [matchhere parse]. destruct (s =? star) eqn:Es.
    + rewrite matchstar_spec. split.
      * intros (s1 & s2 & -> & Hs & Hh). apply (IH (length re'') ltac:(simpl; lia) re'' s2 eq_refl) in Hh as (u & rest & -> & Hd).
        exists (s1 ++ u), rest. split; [by rewrite app_assoc|]. by exists s1, u.
      * intros (u & rest & -> & s1 & s2 & -> & Hs & Hd). exists s1, (s2 ++ rest). split; [by rewrite app_assoc|]. split; [done|].
        apply (IH (length re'') ltac:(simpl; lia) re'' _ eq_refl). by exists s2, rest.
    + rewrite andb_false_r. apply (Hone c (s :: re'')). done.
Qed.

Lemma match_any_spec re text : match_any re text = true ↔ ∃ pre post, text = pre ++ post ∧ matchhere re post = true.
Proof.
  induction text as [|a text IH]; simpl; rewrite orb_true_iff.
  - split; [intros [H|?]; [by exists [], []|done]|]. intros (pre & post & E & H). symmetry in E. apply app_eq_nil in E as [-> ->]. by left.
  - rewrite IH. split.
    + intros [H|(pre & post & -> & H)]; [by exists [], (a :: text)|by exists (a :: pre), post].
    + intros ([|b pre] & post & E & H); simpl in E; [left; by rewrite E|]. injection E as -> ->. right. by exists pre, post.
Qed.

(** C34. The matcher decides whether the text has a substring in the language of the
    pattern (at its start, after a caret): it always returns, and the answer is
    the declarative one. *)
Theorem match_re_spec re text : match_re re text = true ↔ found re text.
Proof.
  destruct re as [|c re']; [split; [done|intros _; simpl; by destruct text]|]. unfold match_re, found.
  destruct (Z.eqb_spec c caret) as [->|Hc]; [rewrite decide_True by done; apply matchhere_spec|]. rewrite decide_False by done.
  rewrite match_any_spec. split; intros (pre & post & E & H); exists pre, post; (split; [done|]); by apply matchhere_spec.
Qed.

(** ** The lines of the input *)

(** The complete lines of [s], without their newlines. *)
Fixpoint lines_from (cur s : list Z) : list (list Z) :=
  match s with
  | [] => []
  | a :: s' => if a =? newline then cur :: lines_from [] s' else lines_from (cur ++ [a]) s'
  end.

Definition lines (s : list Z) : list (list Z) := lines_from [] s.

Definition selected (pattern : list Z) (ls : list (list Z)) : list Z :=
  concat (map (λ l, l ++ [newline]) (filter (λ l, match_re pattern l = true) ls)).

(** What follows the last newline. *)
Fixpoint tail_from (cur s : list Z) : list Z :=
  match s with
  | [] => cur
  | a :: s' => if a =? newline then tail_from [] s' else tail_from (cur ++ [a]) s'
  end.

Definition text_ok (s : list Z) : Prop := Forall (λ a, a ≠ 0) s.

(** No line of [s] (the last one included) is longer than the buffer allows:
    1022 bytes and the newline. *)
Fixpoint short_from (k : nat) (s : list Z) : Prop :=
  match s with
  | [] => (k < bufsize - 1)%nat
  | a :: s' => (k < bufsize - 1)%nat ∧ (if a =? newline then short_from 0 s' else short_from (S k) s')
  end.

Lemma strchr_spec s c : text_ok s → strchr s c = None ∧ c ∉ s ∨
  ∃ a b, s = a ++ c :: b ∧ c ∉ a ∧ strchr s c = Some (length a).
Proof.
  induction s as [|x s IH]; intros Hs; [left; split; [done|apply not_elem_of_nil]|].
  apply Forall_cons in Hs as [Hx Hs]. cbn [strchr]. destruct (Z.eqb_spec x 0) as [|_]; [done|].
  destruct (Z.eqb_spec x c) as [->|Hc]; [right; exists [], s; split; [done|]; split; [apply not_elem_of_nil|done]|].
  destruct (IH Hs) as [[-> H]|(a & b & -> & H & ->)]; [left|right; exists (x :: a), b; split; [done|]]; (split; [try done|]); try done; rewrite not_elem_of_cons; split; congruence.
Qed.

Lemma lines_from_clean cur s : newline ∉ s → lines_from cur s = [] ∧ tail_from cur s = cur ++ s.
Proof.
  revert cur. induction s as [|x s IH]; intros cur H; [by rewrite app_nil_r|]. apply not_elem_of_cons in H as [Hx H].
  simpl. destruct (Z.eqb_spec x newline) as [->|_]; [done|]. destruct (IH (cur ++ [x]) H) as [-> ->]. by rewrite <- app_assoc.
Qed.

Lemma lines_from_app cur s t : lines_from cur (s ++ t) = lines_from cur s ++ lines_from (tail_from cur s) t.
Proof. revert cur. induction s as [|x s IH]; intros cur; [done|]. simpl. destruct (x =? newline); by rewrite IH. Qed.

Lemma tail_from_app cur s t : tail_from cur (s ++ t) = tail_from (tail_from cur s) t.
Proof. revert cur. induction s as [|x s IH]; intros cur; [done|]. simpl. destruct (x =? newline); by rewrite IH. Qed.

Lemma selected_app p a b : selected p (a ++ b) = selected p a ++ selected p b.
Proof. unfold selected. by rewrite filter_app, map_app, concat_app. Qed.

(** The inner loop prints the selected lines and leaves the incomplete one. *)
Lemma grep_lines_spec fuel p b : text_ok b → (length b < fuel)%nat →
  grep_lines fuel p b = (selected p (lines b), tail_from [] b).
Proof.
  revert b. induction fuel as [|fuel IH]; intros b Hb Hf; [lia|]. cbn [grep_lines].
  destruct (strchr_spec b newline Hb) as [[-> H]|(a & r & -> & Ha & ->)].
  - unfold lines. by destruct (lines_from_clean [] b H) as [-> ->].
  - apply Forall_app in Hb as [_ Hr]. apply Forall_cons in Hr as [_ Hr]. rewrite length_app in Hf. simpl in Hf.
    replace (drop (S (length a)) (a ++ newline :: r)) with r by (rewrite drop_app, drop_ge by lia; by replace (S (length a) - length a)%nat with 1%nat by lia).
    rewrite (IH r Hr) by lia. rewrite take_app_length.
    replace (take (S (length a)) (a ++ newline :: r)) with (a ++ [newline]) by (rewrite take_app, take_ge by lia; by replace (S (length a) - length a)%nat with 1%nat by lia).
    unfold lines at 2. rewrite lines_from_app. destruct (lines_from_clean [] a Ha) as [-> ->]. cbn [lines_from app]. rewrite Z.eqb_refl.
    f_equal; [|replace (tail_from [] (a ++ newline :: r)) with (tail_from [] r); [done|]].
    + change (a :: lines_from [] r) with ([a] ++ lines r). rewrite selected_app. f_equal. unfold selected. rewrite filter_cons. destruct (match_re p a) eqn:E; [rewrite decide_True by done; simpl; by rewrite app_nil_r|by rewrite decide_False].
    + by rewrite tail_from_app.
Qed.

Lemma tail_from_clean cur s : newline ∉ cur → newline ∉ tail_from cur s.
Proof.
  revert cur. induction s as [|x s IH]; intros cur H; [done|]. simpl. destruct (Z.eqb_spec x newline); apply IH; [apply not_elem_of_nil|].
  rewrite elem_of_app, list_elem_of_singleton. intros [?|?]; congruence.
Qed.

Lemma tail_from_ok cur s : text_ok cur → text_ok s → text_ok (tail_from cur s).
Proof.
  revert cur. induction s as [|x s IH]; intros cur H Hs; [done|]. apply Forall_cons in Hs as [Hx Hs]. simpl. destruct (x =? newline); apply IH; try done; [constructor|].
  apply Forall_app. split; [done|by constructor].
Qed.

Lemma short_from_app cur s t : short_from (length cur) (s ++ t) → short_from (length (tail_from cur s)) t.
Proof.
  revert cur. induction s as [|x s IH]; intros cur H; [done|]. cbn [app short_from] in H. destruct H as [_ H]. simpl.
  destruct (x =? newline); apply IH; [done|]. by rewrite length_app, Nat.add_comm.
Qed.

Lemma short_from_pos k s : short_from k s → (k < bufsize - 1)%nat.
Proof. destruct s; simpl; [done|tauto]. Qed.

Lemma grep_from fuel oracle p buf inp : newline ∉ buf → text_ok buf → text_ok inp →
  short_from (length buf) inp → (length inp < fuel)%nat →
  grep fuel oracle p buf inp = selected p (lines_from buf inp).
Proof.
  revert buf inp. induction fuel as [|fuel IH]; intros buf inp Hn Hb Hi Hs Hf; [lia|]. pose proof (short_from_pos _ _ Hs) as Hk.
  cbn [grep]. unfold read. set (n := (_ `min` _ `min` _)%nat).
  destruct inp as [|x inp]; [unfold n; cbn [length]; by rewrite Nat.min_0_r, Nat.min_0_l|].
  assert (Hn0 : (0 < n)%nat) by (unfold n; cbn [length]; unfold bufsize in *; lia).
  pose proof (take_drop n (x :: inp)) as Etd. set (got := take n (x :: inp)) in *. set (inp' := drop n (x :: inp)) in *.
  assert (Hlen : (length inp' < fuel)%nat) by (unfold inp'; rewrite length_drop; cbn [length] in *; lia).
  assert (Hgot : match got with [] => False | _ => True end) by (unfold got; by destruct n; [lia|]).
  rewrite <- Etd in Hi, Hs |- *. apply Forall_app in Hi as [Hg Hi]. clearbody got inp'.
  destruct (lines_from_clean [] buf Hn) as [El Et].
  rewrite (grep_lines_spec (S (length (buf ++ got))) p (buf ++ got)) by (try lia; by apply Forall_app).
  assert (Etail : tail_from [] (buf ++ got) = tail_from buf got) by (rewrite tail_from_app, Et; done).
  assert (Elines : lines (buf ++ got) = lines_from buf got) by (unfold lines; rewrite lines_from_app, El, Et; done).
  rewrite lines_from_app, selected_app, Etail, Elines. destruct got as [|g got]; [done|]. f_equal.
  apply IH; [by apply tail_from_clean|by apply tail_from_ok|done|by apply short_from_app|done].
Qed.

(** C35. For an input without NUL bytes whose lines, the unfinished last one
    included, have at most 1022 bytes: however the reads split the input, grep
    prints exactly the complete lines that the pattern matches, in order; the bytes
    after the last newline are never matched. *)
Theorem grep_spec oracle pattern inp : text_ok inp → short_from 0 inp →
  grep (S (length inp)) oracle pattern [] inp = selected pattern (lines inp).
Proof. intros Hi Hs. apply grep_from; [apply not_elem_of_nil|constructor|done|done|lia]. Qed.

(** For a.c on the lines xabc, b, a.c and an unfinished one, read three bytes at a
    time. *)
Lemma grep_spec_witness : grep (S 17) (λ _, 2%nat) [97; 46; 99] [] [120; 97; 98; 99; 10; 98; 10; 97; 46; 99; 10; 97; 98; 99; 97; 98; 99] =
  selected [97; 46; 99] (lines [120; 97; 98; 99; 10; 98; 10; 97; 46; 99; 10; 97; 98; 99; 97; 98; 99]).
Proof. apply (grep_spec (λ _, 2%nat) [97; 46; 99] [120; 97; 98; 99; 10; 98; 10; 97; 46; 99; 10; 97; 98; 99; 97; 98; 99]); [repeat constructor; done|vm_compute; repeat split; lia]. Defined.

Lemma grep_full fuel oracle p buf t rest : newline ∉ buf ++ t → text_ok (buf ++ t) → (length (buf ++ t) = bufsize - 1)%nat →
  grep fuel oracle p buf (t ++ rest) = [].
Proof.
  revert buf t. induction fuel as [|fuel IH]; intros buf t Hn Ho Hl; [done|]. cbn [grep]. unfold read. set (n := (_ `min` _ `min` _)%nat).
  rewrite length_app in Hl. assert (Hnt : (n ≤ length t)%nat) by (unfold n; lia).
  rewrite take_app_le, drop_app_le by done. rewrite <- (take_drop n t) in Hn, Ho. rewrite app_assoc in Hn, Ho.
  pose proof Ho as Ho1. apply Forall_app in Ho1 as [Ho1 _].
  assert (Hn1 : newline ∉ buf ++ take n t) by (intros ?; apply Hn, elem_of_app; by left).
  rewrite grep_lines_spec by (try done; lia). unfold lines. destruct (lines_from_clean [] _ Hn1) as [-> ->]. cbn [app].
  destruct (take n t) eqn:Et; [done|]. cbn [selected filter list_filter map concat app]. rewrite <- Et in *. apply IH; [done|done|].
  rewrite <- app_assoc, take_drop, length_app. done.
Qed.

(** A line that fills the buffer (1023 bytes without a newline) makes the next
    read ask for 0 bytes: grep takes that for the end of the input, and neither
    this line nor any line after it is ever printed. *)
Theorem grep_stops_at_long_line fuel oracle pattern long rest : newline ∉ long → text_ok long → (length long = 1023)%nat →
  grep fuel oracle pattern [] (long ++ rest) = [].
Proof. intros Hn Ho Hl. by apply grep_full. Qed.

(** A long line of a, then the line b, searched for b: nothing is printed. *)
Lemma grep_stops_at_long_line_witness : match_re [98] [98] = true ∧ grep 2000 (λ _, 99%nat) [98] [] (replicate 1023 97 ++ [10; 98; 10]) = [].
Proof.
  split; [reflexivity|]. apply (grep_stops_at_long_line 2000 (λ _, 99%nat) [98] (replicate 1023 97) [10; 98; 10]);
    [by apply (bool_decide_unpack _); vm_compute|by apply (bool_decide_unpack (Forall _ _)); vm_compute|reflexivity].
Defined.
