(* ===== verification/Umalloc.v ===== *)
(** * The user-level memory allocator (user/umalloc.c)

    Memory is a map from the addresses of [Header] cells (in units of a header,
    16 bytes) to their contents; free blocks form a ring of headers through the
    static [base]. The system call [sbrk] is an interface. *)

From stdpp Require Import functions sorting.
From S2P Require Import Prelude.

Record header := Header { ptr : Z; size : Z }.

(** [sbrk(n)] returns the address of [n] new bytes, or -1. *)
Class Sbrk := {
  os : Type;
  brk_of : os → Z;
  sbrk : Z → os → Z * os;
}.

(** New memory lies above everything obtained before, is aligned when the
    requests are, and the process stays below 64 gigabytes. *)
Class SbrkLaws `{Sbrk} := {
  sbrk_fail : ∀ n o o', brk_of o ≤ 2 ^ 36 → 0 < n < 2 ^ 31 → n mod 16 = 0 → sbrk n o = (-1, o') → brk_of o ≤ brk_of o' ≤ 2 ^ 36;
  sbrk_ok : ∀ n o p o', brk_of o ≤ 2 ^ 36 → 0 < n < 2 ^ 31 → n mod 16 = 0 → sbrk n o = (p, o') → p ≠ -1 →
    p mod 16 = 0 ∧ 0 < p ∧ brk_of o ≤ p ∧ p + n ≤ brk_of o' ∧ brk_of o' ≤ 2 ^ 36;
}.

Section umalloc.
Context `{Sbrk}.

(** [base]: the address of the static header. *)
Variable base : Z.

Record ust := UST { cells : Z → header; freep : Z; proc : os }.

Definition set_ptr (p q : Z) (s : ust) : ust := UST (<[p := Header q (size (cells s p))]> (cells s)) (freep s) (proc s).
Definition set_size (p n : Z) (s : ust) : ust := UST (<[p := Header (ptr (cells s p)) n]> (cells s)) (freep s) (proc s).
Definition set_freep (p : Z) (s : ust) : ust := UST (cells s) p (proc s).
Definition set_proc (o : os) (s : ust) : ust := UST (cells s) (freep s) o.

Definition ptr_of (p : Z) : M ust Z := gets (λ s, ptr (cells s p)).
Definition size_of (p : Z) : M ust Z := gets (λ s, size (cells s p)).

(** The two tests of the loop of [free]. *)
Definition between (h : Z → header) (bp p : Z) : bool := (p <? bp) && (bp <? ptr (h p)).
Definition at_end (h : Z → header) (bp p : Z) : bool := (ptr (h p) <=? p) && ((p <? bp) || (bp <? ptr (h p))).

Definition free_body (bp p : Z) : M ust (Z + Z) :=
  h ← gets cells;
  if between h bp p then mret (inr p) else if at_end h bp p then mret (inr p) else mret (inl (ptr (h p))).

Definition free (fuel : nat) (ap : Z) : M ust unit :=
  let bp := ap - 1 in
  p0 ← gets freep;
  p ← iterM fuel (free_body bp) p0;
  q ← ptr_of p; n ← size_of bp;
  (if bp + n =? q then
     m ← size_of q; modify (set_size bp (u32 (n + m)));;
     r ← ptr_of q; modify (set_ptr bp r)
   else modify (set_ptr bp q));;
  k ← size_of p;
  (if p + k =? bp then
     m ← size_of bp; modify (set_size p (u32 (k + m)));;
     r ← ptr_of bp; modify (set_ptr p r)
   else modify (set_ptr p bp));;
  modify (set_freep p).

Definition morecore (fuel : nat) (nu : Z) : M ust Z :=
  let nu := if nu <? 4096 then 4096 else nu in
  s ← getS;
  let '(p, o) := sbrk (s32 (u64 (nu * 16))) (proc s) in
  modify (set_proc o);;
  if p =? -1 then mret 0 else
  let hp := p / 16 in
  modify (set_size hp nu);;
  free fuel (hp + 1);;
  gets freep.

Definition malloc_body (fuel : nat) (nunits : Z) (pp : Z * Z) : M ust (Z * Z + Z) :=
  let '(prevp, p) := pp in
  n ← size_of p;
  if nunits <=? n then
    (if n =? nunits then
       q ← ptr_of p; modify (set_ptr prevp q);; modify (set_freep prevp);; mret (inr (p + 1))
     else
       let p' := p + (n - nunits) in
       modify (set_size p (n - nunits));; modify (set_size p' nunits);; modify (set_freep prevp);; mret (inr (p' + 1)))
  else
    fp ← gets freep;
    if p =? fp then
      p' ← morecore fuel nunits;
      if p' =? 0 then mret (inr 0) else q ← ptr_of p'; mret (inl (p', q))
    else q ← ptr_of p; mret (inl (p, q)).

Definition units (nbytes : Z) : Z := u32 ((nbytes + 16 - 1) / 16 + 1).

Definition malloc (fuel : nat) (nbytes : Z) : M ust Z :=
  let nunits := units nbytes in
  prevp ← gets freep;
  (if prevp =? 0 then modify (set_freep base);; modify (set_ptr base base);; modify (set_size base 0) else mret tt);;
  let prevp := if prevp =? 0 then base else prevp in
  p ← ptr_of prevp;
  iterM fuel (malloc_body fuel nunits) (prevp, p).

End umalloc.
Arguments UST {_} _ _ _.
Arguments cells {_} _ _.
Arguments freep {_} _.
Arguments proc {_} _.

(** ** The ring of free blocks *)

(** The address of the first block of [l], or [e]. *)
Definition start (l : list (Z * Z)) (e : Z) : Z := match l with [] => e | (q, _) :: _ => q end.

(** The blocks of [l] (address and size) are linked in order and lead to [e]. *)
Fixpoint seg (h : Z → header) (l : list (Z * Z)) (e : Z) : Prop :=
  match l with
  | [] => True
  | (q, n) :: l' => size (h q) = n ∧ ptr (h q) = start l' e ∧ seg h l' e
  end.

(** [x] ends before [y] begins, and they do not touch. *)
Definition apart (x y : Z * Z) : Prop := x.1 + x.2 < y.1.

Definition disjoint_blocks (x y : Z * Z) : Prop := x.1 + x.2 ≤ y.1 ∨ y.1 + y.2 ≤ x.1.

Lemma start_app l1 l2 e : start (l1 ++ l2) e = start l1 (start l2 e).
Proof. by destruct l1 as [|[]]. Qed.

Lemma seg_app h l1 l2 e : seg h (l1 ++ l2) e ↔ seg h l1 (start l2 e) ∧ seg h l2 e.
Proof. induction l1 as [|[q n] l1 IH]; simpl; [tauto|]. rewrite IH, start_app. tauto. Qed.

Lemma seg_frame h h' l e : (∀ q, q ∈ l.*1 → h' q = h q) → seg h l e → seg h' l e.
Proof.
  induction l as [|[q n] l IH]; [done|]. intros Hq (Hs & Hp & Hl). rewrite fmap_cons in Hq. cbn [fst] in Hq. cbn [seg].
  rewrite (Hq q) by constructor. split; [done|]. split; [done|]. apply IH; [|done]. intros r Hr. apply Hq. by constructor.
Qed.

Lemma seg_lookup h l e k q n : seg h l e → l !! k = Some (q, n) →
  size (h q) = n ∧ ptr (h q) = match l !! S k with Some (r, _) => r | None => e end.
Proof.
  intros Hl Hk. rewrite <- (take_drop_middle l k (q, n) Hk) in Hl. apply seg_app in Hl as [_ (Hs & Hp & _)]. split; [done|].
  rewrite Hp. unfold start. replace (l !! S k) with (drop (S k) l !! 0%nat) by (by rewrite lookup_drop, Nat.add_0_r). by destruct (drop (S k) l) as [|[]].
Qed.

Section ring.
Variables (h : Z → header) (base : Z) (nodes : list (Z * Z)).
Hypothesis Hseg : seg h nodes base.
Hypothesis Hsort : StronglySorted apart nodes.
Hypothesis Hbase : nodes !! 0%nat = Some (base, 0).
Hypothesis Hpos : ∀ q n, (q, n) ∈ nodes → 0 ≤ n.

(** Positions on the ring. *)
Definition next (k : nat) : nat := if decide (S k = length nodes) then 0%nat else S k.
Definition dist (k j : nat) : nat := if decide (k ≤ j)%nat then (j - k)%nat else (length nodes - k + j)%nat.

Lemma dist_next k j : (k < length nodes)%nat → (j < length nodes)%nat → k ≠ j → S (dist (next k) j) = dist k j.
Proof. intros Hk Hj Hne. unfold dist, next. repeat case_decide; lia. Qed.

Lemma dist_lt k j : (k < length nodes)%nat → (j < length nodes)%nat → (dist k j < length nodes)%nat.
Proof. unfold dist. case_decide; lia. Qed.

Lemma ring_next k q n : nodes !! k = Some (q, n) → size (h q) = n ∧ ∃ m, nodes !! next k = Some (ptr (h q), m).
Proof.
  intros Hk. destruct (seg_lookup h nodes base k q n Hseg Hk) as [Hs Hp]. split; [done|]. unfold next. pose proof (lookup_lt_Some _ _ _ Hk).
  case_decide as E; [rewrite E, lookup_ge_None_2 in Hp by lia; rewrite Hp; by exists 0|].
  destruct (lookup_lt_is_Some_2 nodes (S k)) as [[r m] Hr]; [lia|]. rewrite Hr in Hp. exists m. by rewrite Hr, Hp.
Qed.

Lemma sorted_lookup (l : list (Z * Z)) i j x y : StronglySorted apart l → (i < j)%nat → l !! i = Some x → l !! j = Some y → apart x y.
Proof.
  intros Hl. revert i j. induction Hl as [|z l Hl IH Hz]; intros i j Hij Hi Hj; [done|].
  destruct j as [|j]; [lia|]. destruct i as [|i]; [injection Hi as <-; rewrite Forall_lookup in Hz; by apply (Hz j)|]. apply (IH i j); [lia|done|done].
Qed.

Lemma nodes_order i j p n q m : nodes !! i = Some (p, n) → nodes !! j = Some (q, m) → (i < j)%nat ↔ p < q.
Proof.
  intros Hi Hj. pose proof (Hpos p n ltac:(by eapply list_elem_of_lookup_2)). pose proof (Hpos q m ltac:(by eapply list_elem_of_lookup_2)).
  destruct (lt_eq_lt_dec i j) as [[Hlt| ->]|Hlt].
  - pose proof (sorted_lookup _ _ _ _ _ Hsort Hlt Hi Hj) as Ha. unfold apart in Ha. simpl in Ha. lia.
  - rewrite Hi in Hj. injection Hj as -> ->. lia.
  - pose proof (sorted_lookup _ _ _ _ _ Hsort Hlt Hj Hi) as Ha. unfold apart in Ha. simpl in Ha. lia.
Qed.

(** The place of a new block [bp] on the ring: after the node at [i]. *)
Definition place (bp : Z) (i : nat) : Prop :=
  ∃ t k, nodes !! i = Some (t, k) ∧ t < bp ∧ ∀ j q m, (i < j)%nat → nodes !! j = Some (q, m) → bp < q.

Lemma place_exists bp : base < bp → (∀ q n, (q, n) ∈ nodes → q ≠ bp) → ∃ i, place bp i.
Proof.
  intros Hb Hne. assert (H : ∀ k : nat, (k < length nodes)%nat → (∀ j q m, (k < j)%nat → nodes !! j = Some (q, m) → bp < q) → ∃ i, place bp i).
  { induction k as [|k IH]; intros Hk Hgt; destruct (lookup_lt_is_Some_2 nodes _ Hk) as [[t n] Ht].
    - exists 0%nat, t, n. split; [done|]. split; [|done]. rewrite Hbase in Ht. injection Ht as <- <-. done.
    - destruct (decide (t < bp)) as [Hlt|Hge]; [by exists (S k), t, n|]. apply IH; [lia|]. intros j q m Hj Hq.
      destruct (decide (j = S k)) as [->|]; [|apply (Hgt j q m); [lia|done]]. rewrite Ht in Hq. injection Hq as <- <-.
      specialize (Hne t n ltac:(by eapply list_elem_of_lookup_2)). lia. }
  pose proof (lookup_lt_Some _ _ _ Hbase). apply (H (length nodes - 1)%nat); [lia|]. intros j q m Hj Hq. apply lookup_lt_Some in Hq. lia.
Qed.

(** The loop of [free] stops exactly there. *)
Lemma stops_iff bp i k p n : place bp i → base < bp → nodes !! k = Some (p, n) → between h bp p || at_end h bp p = true ↔ k = i.
Proof.
  intros (t & kt & Hi & Ht & Hgt) Hb Hk. destruct (ring_next k p n Hk) as (_ & m & Hn). pose proof (lookup_lt_Some _ _ _ Hk) as Hkl. pose proof (lookup_lt_Some _ _ _ Hi) as Hil.
  unfold between, at_end. rewrite orb_true_iff, !andb_true_iff, orb_true_iff, Z.leb_le, !Z.ltb_lt.
  pose proof (nodes_order k i p n t kt Hk Hi) as O1. pose proof (nodes_order i k t kt p n Hi Hk) as O2. unfold next in Hn. case_decide as E.
  - rewrite Hbase in Hn. injection Hn as En _. rewrite <- En in *. pose proof (nodes_order k 0 p n base 0 Hk Hbase) as O3.
    destruct (decide (k = i)) as [->|Hne]; [split; [done|intros _; assert (t = p) as -> by congruence; lia]|].
    split; [|done]. pose proof (Hgt k p n ltac:(lia) Hk). lia.
  - pose proof (nodes_order k (S k) p n _ m Hk Hn) as O3. pose proof (nodes_order i (S k) t kt _ m Hi Hn) as O4.
    destruct (decide (k = i)) as [->|Hne].
    + pose proof (Hgt (S i) _ m ltac:(lia) Hn). assert (t = p) as -> by congruence. split; [done|intros _; lia].
    + split; [|done]. destruct (decide (k < i)%nat).
      * pose proof (nodes_order (S k) i _ m t kt Hn Hi) as O5. destruct (decide (S k = i)) as [Ei|]; [rewrite <- Ei, Hn in Hi; injection Hi as Ei1 _; lia|]. lia.
      * pose proof (Hgt k p n ltac:(lia) Hk). lia.
Qed.
End ring.

(** ** The heap: allocated and free blocks *)

(** [al] are the blocks in the hands of the program, [nodes] the ring. *)
Record WF (base lim : Z) (al : gmap Z Z) (nodes : list (Z * Z)) : Prop := {
  W_sort : StronglySorted apart nodes;
  W_base : nodes !! 0%nat = Some (base, 0);
  W_size : ∀ q n, (q, n) ∈ nodes → 0 ≤ n ∧ base ≤ q ∧ (base < q → 0 < n) ∧ 16 * (q + n) ≤ lim;
  W_al : ∀ a n, al !! a = Some n → 0 < n ∧ base < a ∧ 16 * (a + n) ≤ lim;
  W_fa : ∀ q m a n, (q, m) ∈ nodes → al !! a = Some n → disjoint_blocks (q, m) (a, n);
  W_aa : ∀ a n b m, al !! a = Some n → al !! b = Some m → a ≠ b → disjoint_blocks (a, n) (b, m);
}.

Section wf.
Variables (base lim : Z).

Lemma base_app (l1 l2 l2' : list (Z * Z)) t k : (l1 ++ (t, k) :: l2) !! 0%nat = Some (base, 0) →
  (l1 ++ (t, k) :: l2') !! 0%nat = Some (base, 0).
Proof. by destruct l1. Qed.

(** The block [bp] swallows the free block right after it. *)
Lemma WF_merge_right al l1 t k l2 bp n m : WF base lim al (l1 ++ (t, k) :: (bp + n, m) :: l2) → al !! bp = Some n → t < bp →
  WF base lim (<[bp := n + m]> al) (l1 ++ (t, k) :: l2).
Proof.
  intros [Hs Hb Hz Ha Hfa Haa] Hbp Ht. pose proof (Hz (bp + n) m ltac:(set_solver)) as Hm. pose proof (Ha bp n Hbp) as Hn.
  assert (Hsub : ∀ x, x ∈ l1 ++ (t, k) :: l2 → x ∈ l1 ++ (t, k) :: (bp + n, m) :: l2) by (intros ?; set_solver).
  assert (Hap : ∀ q m', (q, m') ∈ l1 ++ (t, k) :: l2 → q + m' < bp + n ∨ bp + n + m < q).
  { intros q m' Hq. apply StronglySorted_app in Hs as (H12 & _ & H2). apply elem_of_app in Hq as [Hq|Hq].
    - left. pose proof (H12 (q, m') (bp + n, m) Hq ltac:(set_solver)) as Hx. unfold apart in Hx. simpl in *. lia.
    - apply StronglySorted_inv in H2 as [H2 Ht2]. apply Forall_cons in Ht2 as [Ht2 _]. apply StronglySorted_inv in H2 as [_ H2]. apply elem_of_cons in Hq as [Hq|Hq].
      + left. injection Hq as -> ->. unfold apart in Ht2. simpl in *. lia.
      + right. rewrite Forall_forall in H2. specialize (H2 _ Hq). unfold apart in H2. simpl in *. lia. }
  split.
  - apply StronglySorted_app in Hs as (H12 & H1 & H2). apply StronglySorted_app. split; [intros x y Hx Hy; apply H12; set_solver|]. split; [done|].
    apply StronglySorted_inv in H2 as [H2 Hf]. apply Forall_cons in Hf as [_ Hf]. apply StronglySorted_inv in H2 as [H2 _]. by constructor.
  - by eapply base_app.
  - intros q m' Hq. by apply Hz, Hsub.
  - intros a m' Hl. apply lookup_insert_Some in Hl as [[<- <-]|[Hne Hl]]; [lia|by apply Ha].
  - intros q m' a n' Hq Hl. apply lookup_insert_Some in Hl as [[<- <-]|[Hne Hl]]; [|apply Hfa; [by apply Hsub|done]].
    pose proof (Hfa q m' bp n (Hsub _ Hq) Hbp) as H1. pose proof (Hap q m' Hq) as H2. pose proof (Hz q m' (Hsub _ Hq)). unfold disjoint_blocks in *. simpl in *. lia.
  - intros a n' b m' H1 H2 Hne.
    assert (Hx : ∀ c r, c ≠ bp → al !! c = Some r → disjoint_blocks (bp, n + m) (c, r)).
    { intros c r Hc Hl. pose proof (Haa bp n c r Hbp Hl ltac:(congruence)) as D1. pose proof (Hfa (bp + n) m c r ltac:(set_solver) Hl) as D2. pose proof (Ha c r Hl).
      unfold disjoint_blocks in *. simpl in *. lia. }
    apply lookup_insert_Some in H1 as [[<- <-]|[N1 H1]]; apply lookup_insert_Some in H2 as [[<- <-]|[N2 H2]]; [done|by apply Hx| |by apply Haa].
    destruct (Hx a n' ltac:(congruence) H1); [by right|by left].
Qed.

(** The free block right before [bp] swallows it. *)
Lemma WF_merge_left al l1 t k l2 n : WF base lim al (l1 ++ (t, k) :: l2) → al !! (t + k) = Some n →
  (∀ x, x ∈ l2 → t + k + n < x.1) → WF base lim (delete (t + k) al) (l1 ++ (t, k + n) :: l2).
Proof.
  intros [Hs Hb Hz Ha Hfa Haa] Hbp Hr. pose proof (Ha _ _ Hbp) as Hn. pose proof (Hz t k ltac:(set_solver)) as Hk.
  assert (Hcase : ∀ x, x ∈ l1 ++ (t, k + n) :: l2 → x = (t, k + n) ∨ x ∈ l1 ++ (t, k) :: l2) by (intros ?; set_solver).
  split.
  - apply StronglySorted_app in Hs as (H12 & H1 & H2). apply StronglySorted_inv in H2 as [H2 Hf]. apply StronglySorted_app. split; [|split; [done|]].
    + intros x y Hx Hy. apply elem_of_cons in Hy as [->|Hy]; [|apply H12; set_solver]. apply (H12 x (t, k) Hx). set_solver.
    + constructor; [done|]. apply Forall_forall. intros x Hx. specialize (Hr x Hx). unfold apart. simpl. lia.
  - destruct l1; [|done]. simpl in Hb. injection Hb as -> ->. lia.
  - intros q m Hq. destruct (Hcase _ Hq) as [E|Hq']; [injection E as -> ->; lia|by apply Hz].
  - intros a m Hl. apply lookup_delete_Some in Hl as [_ Hl]. by apply Ha.
  - intros q m a n' Hq Hl. apply lookup_delete_Some in Hl as [Hne Hl]. destruct (Hcase _ Hq) as [E|Hq']; [|by apply Hfa].
    injection E as -> ->. pose proof (Hfa t k a n' ltac:(set_solver) Hl) as D1. pose proof (Haa (t + k) n a n' Hbp Hl Hne) as D2. pose proof (Ha _ _ Hl).
    unfold disjoint_blocks in *. simpl in *. lia.
  - intros a n' b m H1 H2. apply lookup_delete_Some in H1 as [_ H1], H2 as [_ H2]. by apply Haa.
Qed.

(** [bp] becomes a free block of its own. *)
Lemma WF_insert al l1 t k l2 bp n : WF base lim al (l1 ++ (t, k) :: l2) → al !! bp = Some n → t + k < bp →
  (∀ x, x ∈ l2 → bp + n < x.1) → WF base lim (delete bp al) (l1 ++ (t, k) :: (bp, n) :: l2).
Proof.
  intros [Hs Hb Hz Ha Hfa Haa] Hbp Ht Hr. pose proof (Ha _ _ Hbp) as Hn. pose proof (Hz t k ltac:(set_solver)) as Hk.
  assert (Hcase : ∀ x, x ∈ l1 ++ (t, k) :: (bp, n) :: l2 → x = (bp, n) ∨ x ∈ l1 ++ (t, k) :: l2) by (intros ?; set_solver).
  split.
  - apply StronglySorted_app in Hs as (H12 & H1 & H2). apply StronglySorted_inv in H2 as [H2 Hf]. apply StronglySorted_app. split; [|split; [done|]].
    + intros x y Hx Hy. pose proof (H12 x (t, k) Hx ltac:(set_solver)) as Hxt. apply elem_of_cons in Hy as [->|Hy]; [done|].
      apply elem_of_cons in Hy as [->|Hy]; [unfold apart in *; simpl in *; lia|apply H12; set_solver].
    + constructor; [constructor; [done|]|constructor; [done|done]]. apply Forall_forall. intros x Hx. by apply Hr.
  - by eapply base_app.
  - intros q m Hq. destruct (Hcase _ Hq) as [E|Hq']; [injection E as -> ->; lia|by apply Hz].
  - intros a m Hl. apply lookup_delete_Some in Hl as [_ Hl]. by apply Ha.
  - intros q m a n' Hq Hl. apply lookup_delete_Some in Hl as [Hne Hl]. destruct (Hcase _ Hq) as [E|Hq']; [|by apply Hfa].
    injection E as -> ->. by apply Haa.
  - intros a n' b m H1 H2. apply lookup_delete_Some in H1 as [_ H1], H2 as [_ H2]. by apply Haa.
Qed.

(** The ring loses the end of a block, or a whole block. *)
Lemma WF_split al l1 q n l2 u : WF base lim al (l1 ++ (q, n) :: l2) → 0 < u < n →
  WF base lim (<[q + (n - u) := u]> al) (l1 ++ (q, n - u) :: l2).
Proof.
  intros [Hs Hb Hz Ha Hfa Haa] Hu. pose proof (Hz q n ltac:(set_solver)) as Hn.
  assert (Hcase : ∀ x, x ∈ l1 ++ (q, n - u) :: l2 → x = (q, n - u) ∨ x ∈ l1 ∨ x ∈ l2) by (intros ?; set_solver).
  apply StronglySorted_app in Hs as (H12 & H1 & H2). apply StronglySorted_inv in H2 as [H2 Hf]. rewrite Forall_forall in Hf.
  assert (Hnew : ∀ c r, al !! c = Some r → disjoint_blocks (q + (n - u), u) (c, r)).
  { intros c r Hl. pose proof (Hfa q n c r ltac:(set_solver) Hl). pose proof (Ha _ _ Hl). unfold disjoint_blocks in *. simpl in *. lia. }
  assert (Hother : ∀ x, x ∈ l1 ∨ x ∈ l2 → x ∈ l1 ++ (q, n) :: l2) by (intros ?; set_solver).
  split.
  - apply StronglySorted_app. split; [|split; [done|constructor; [done|]]].
    + intros x y Hx Hy. apply elem_of_cons in Hy as [->|Hy]; [apply (H12 x (q, n) Hx); set_solver|apply H12; set_solver].
    + apply Forall_forall. intros x Hx. specialize (Hf x Hx). unfold apart in *. simpl in *. lia.
  - destruct l1; [|done]. simpl in Hb. injection Hb as -> ->. lia.
  - intros q' m Hq. destruct (Hcase _ Hq) as [E|Hq']; [injection E as -> ->; lia|by apply Hz, Hother].
  - intros a m Hl. apply lookup_insert_Some in Hl as [[<- <-]|[_ Hl]]; [|by apply Ha]. destruct l1; [simpl in Hb; injection Hb as -> ->; lia|]. lia.
  - intros q' m a n' Hq Hl. apply lookup_insert_Some in Hl as [[<- <-]|[_ Hl]].
    + destruct (Hcase _ Hq) as [E|[Hq'|Hq']]; [injection E as -> ->; left; simpl; lia| |].
      * left. pose proof (H12 _ (q, n) Hq' ltac:(set_solver)) as D. unfold apart in D. simpl in *. lia.
      * right. pose proof (Hf _ Hq') as D. unfold apart in D. simpl in *. lia.
    + destruct (Hcase _ Hq) as [E|Hq']; [|apply Hfa; [by apply Hother|done]]. injection E as -> ->.
      pose proof (Hfa q n a n' ltac:(set_solver) Hl). pose proof (Ha _ _ Hl). unfold disjoint_blocks in *. simpl in *. lia.
  - intros a n' b m L1 L2 Hne. apply lookup_insert_Some in L1 as [[<- <-]|[N1 L1]]; apply lookup_insert_Some in L2 as [[<- <-]|[N2 L2]]; [done|by apply Hnew| |by apply Haa].
    destruct (Hnew a n' L1); [by right|by left].
Qed.

Lemma WF_take al l1 q n l2 : WF base lim al (l1 ++ (q, n) :: l2) → 0 < n → l1 ≠ [] → WF base lim (<[q := n]> al) (l1 ++ l2).
Proof.
  intros [Hs Hb Hz Ha Hfa Haa] Hn Hl1. pose proof (Hz q n ltac:(set_solver)) as Hq.
  apply StronglySorted_app in Hs as (H12 & H1 & H2). apply StronglySorted_inv in H2 as [H2 Hf]. rewrite Forall_forall in Hf.
  assert (Hother : ∀ x, x ∈ l1 ++ l2 → x ∈ l1 ++ (q, n) :: l2) by (intros ?; set_solver).
  assert (Hnew : ∀ c r, al !! c = Some r → disjoint_blocks (q, n) (c, r)) by (intros c r Hl; apply Hfa; [set_solver|done]).
  destruct l1 as [|[b0 n0] l1]; [done|]. simpl in Hb. injection Hb as -> ->.
  assert (Hbq : base < q). { pose proof (H12 (base, 0) (q, n) ltac:(set_solver) ltac:(set_solver)) as D. unfold apart in D. simpl in D. lia. }
  split.
  - apply StronglySorted_app. split; [intros x y Hx Hy; apply H12; set_solver|done].
  - done.
  - intros q' m Hq'. by apply Hz, Hother.
  - intros a m Hl. apply lookup_insert_Some in Hl as [[<- <-]|[_ Hl]]; [lia|by apply Ha].
  - intros q' m a n' Hq' Hl. apply lookup_insert_Some in Hl as [[<- <-]|[_ Hl]]; [|apply Hfa; [by apply Hother|done]].
    apply elem_of_app in Hq' as [Hq'|Hq']; [left|right].
    + pose proof (H12 _ (q, n) Hq' ltac:(set_solver)) as D. unfold apart in D. simpl in *. lia.
    + pose proof (Hf _ Hq') as D. unfold apart in D. simpl in *. lia.
  - intros a n' b m L1 L2 Hne. apply lookup_insert_Some in L1 as [[<- <-]|[N1 L1]]; apply lookup_insert_Some in L2 as [[<- <-]|[N2 L2]]; [done|by apply Hnew| |by apply Haa].
    destruct (Hnew a n' L1); [by right|by left].
Qed.

(** New memory from the system. *)
Lemma WF_grow lim' al nodes a n : WF base lim al nodes → lim ≤ 16 * a → 0 < n → base < a → 16 * (a + n) ≤ lim' →
  WF base lim' (<[a := n]> al) nodes.
Proof.
  intros [Hs Hb Hz Ha Hfa Haa] Hl Hn Hba Hl'. split; try done.
  - intros q m Hq. specialize (Hz q m Hq). lia.
  - intros b m L. apply lookup_insert_Some in L as [[<- <-]|[_ L]]; [lia|]. specialize (Ha _ _ L). lia.
  - intros q m b n' Hq L. apply lookup_insert_Some in L as [[<- <-]|[_ L]]; [|by apply Hfa]. specialize (Hz q m Hq). left. simpl. lia.
  - intros b n' c m L1 L2 Hne. apply lookup_insert_Some in L1 as [[<- <-]|[N1 L1]]; apply lookup_insert_Some in L2 as [[<- <-]|[N2 L2]]; [done| | |by apply Haa];
      [specialize (Ha _ _ L2); right|specialize (Ha _ _ L1); left]; simpl; lia.
Qed.
End wf.

Section heap.
Context `{SbrkLaws}.
Variable base : Z.
Hypothesis Hbase0 : 0 < base.

Record HEAP (s : ust) (al : gmap Z Z) (nodes : list (Z * Z)) : Prop := {
  H_wf : WF base (brk_of (proc s)) al nodes;
  H_seg : seg (cells s) nodes base;
  H_al : ∀ a n, al !! a = Some n → size (cells s a) = n;
  H_freep : ∃ k n, nodes !! k = Some (freep s, n);
  H_brk : 16 * (base + 1) ≤ brk_of (proc s) ≤ 2 ^ 36;
}.

(** The program's own data: every cell of its blocks. *)
Definition keeps (al : gmap Z Z) (s s' : ust) : Prop :=
  ∀ a n x, al !! a = Some n → a ≤ x < a + n → cells s' x = cells s x.

(** The cells of [s'] are those of [s] but for [p], which holds [v]. *)
Definition cell_set (s s' : ust) (p : Z) (v : header) : Prop :=
  (∀ x, cells s' x = if decide (x = p) then v else cells s x) ∧ freep s' = freep s ∧ proc s' = proc s.

Lemma search_ok s al nodes bp fuel : HEAP s al nodes → base < bp → (∀ q n, (q, n) ∈ nodes → q ≠ bp) → (length nodes ≤ fuel)%nat →
  wp (iterM fuel (free_body bp) (freep s)) (λ p s', s' = s ∧ ∃ i k, place nodes bp i ∧ nodes !! i = Some (p, k)) s.
Proof.
  intros HH Hb Hne Hf. destruct HH as [Hw Hg _ (k & n & Hk) _]. pose proof (lookup_lt_Some _ _ _ Hk) as Hkl.
  destruct (place_exists base nodes (W_base _ _ _ _ Hw) bp Hb Hne) as [i Hi]. pose proof Hi as (t & kt & Ht & _). pose proof (lookup_lt_Some _ _ _ Ht) as Hil.
  apply (wp_iter_bound (λ m p s', s' = s ∧ ∃ k n, nodes !! k = Some (p, n) ∧ m = dist nodes k i) _ _ fuel (dist nodes k i)); [|by eauto|pose proof (dist_lt nodes k i Hkl Hil); lia].
  clear k n Hk Hkl. intros m p s' (-> & k & n & Hk & ->). pose proof (lookup_lt_Some _ _ _ Hk) as Hkl.
  assert (Hst := stops_iff (cells s) base nodes Hg (W_sort _ _ _ _ Hw) (W_base _ _ _ _ Hw) ltac:(intros ???; by eapply (W_size _ _ _ _ Hw)) bp i k p n Hi Hb Hk).
  unfold free_body. apply wp_bind, wp_gets. destruct (between (cells s) bp p) eqn:E1; [apply wp_ret; split; [done|]; exists i, n; rewrite <- (proj1 Hst eq_refl) at 2; done|].
  destruct (at_end (cells s) bp p) eqn:E2; [apply wp_ret; split; [done|]; exists i, n; rewrite <- (proj1 Hst eq_refl) at 2; done|].
  apply wp_ret. destruct (ring_next (cells s) base nodes Hg (W_base _ _ _ _ Hw) k p n Hk) as (_ & m & Hn).
  assert (Hki : k ≠ i) by (intros E; apply Hst in E; done).
  exists (dist nodes (next nodes k) i). pose proof (dist_next nodes k i Hkl Hil Hki). split; [lia|]. split; [done|]. by exists (next nodes k), m.
Qed.

(** Merging with the block on the right. *)
Lemma merge_right_ok s al l1 t k l2 bp n :
  WF base (brk_of (proc s)) al (l1 ++ (t, k) :: l2) → seg (cells s) l2 base → brk_of (proc s) ≤ 2 ^ 36 →
  al !! bp = Some n → size (cells s bp) = n → t < bp → (∀ x, x ∈ l2 → bp < x.1) →
  wp (if bp + n =? start l2 base then
        m ← size_of (start l2 base); modify (set_size bp (u32 (n + m)));;
        r ← ptr_of (start l2 base); modify (set_ptr bp r)
      else modify (set_ptr bp (start l2 base)))
    (λ _ s1, ∃ n' l2', cell_set s s1 bp (Header (start l2' base) n') ∧ n ≤ n' ∧
       WF base (brk_of (proc s)) (<[bp := n']> al) (l1 ++ (t, k) :: l2') ∧ seg (cells s) l2' base ∧
       (∀ x, x ∈ l2' → bp + n' < x.1) ∧ (length l2' ≤ length l2)%nat) s.
Proof.
  intros Hw Hg Hbr Hbp Hsz Ht Hgt. pose proof (W_al _ _ _ _ Hw _ _ Hbp) as Hn.
  destruct (Z.eqb_spec (bp + n) (start l2 base)) as [E|E].
  - destruct l2 as [|[q m] l2]; simpl in E; [lia|]. subst q. destruct Hg as (Hsq & Hpq & Hg).
    pose proof (W_size _ _ _ _ Hw (bp + n) m ltac:(set_solver)) as Hm. pose proof (WF_merge_right base _ al l1 t k l2 bp n m Hw Hbp Ht) as Hw'.
    apply wp_bind, wp_gets, wp_bind, wp_modify, wp_bind, wp_gets, wp_modify. cbn [start].
    rewrite Hsq. replace (u32 (n + m)) with (n + m) by (unfold u32; rewrite Z.mod_small; lia).
    exists (n + m), l2. split; [|split; [lia|split; [done|split; [done|split; [|simpl; lia]]]]].
    + split; [|done]. intros x. cbn [set_ptr set_size cells]. unfold fn_insert, insert.
      destruct (decide (x = bp)) as [->|Hx]; repeat case_decide; try lia; cbn [size ptr]; try done; by rewrite Hpq.
    + destruct Hw as [Hs _ _ _ _ _]. apply StronglySorted_app in Hs as (_ & _ & H2). apply StronglySorted_inv in H2 as [H2 _]. apply StronglySorted_inv in H2 as [_ H2].
      rewrite Forall_forall in H2. intros x Hx. specialize (H2 x Hx). unfold apart in H2. simpl in H2. lia.
  - apply wp_modify. exists n, l2. rewrite insert_id by done. split; [|split; [lia|split; [done|split; [done|split; [|lia]]]]].
    + split; [|done]. intros x. cbn [set_ptr cells]. unfold fn_insert, insert. repeat case_decide; congruence.
    + intros x Hx. destruct l2 as [|[q m] l2]; [set_solver|]. simpl in E.
      pose proof (W_fa _ _ _ _ Hw q m bp n ltac:(set_solver) Hbp) as D. pose proof (Hgt (q, m) ltac:(set_solver)) as Hq. pose proof (W_size _ _ _ _ Hw q m ltac:(set_solver)).
      apply elem_of_cons in Hx as [->|Hx]; [unfold disjoint_blocks in D; simpl in *; lia|].
      destruct Hw as [Hs _ _ _ _ _]. apply StronglySorted_app in Hs as (_ & _ & H2). apply StronglySorted_inv in H2 as [H2 _]. apply StronglySorted_inv in H2 as [_ H2].
      rewrite Forall_forall in H2. specialize (H2 x Hx). unfold apart, disjoint_blocks in *. simpl in *. lia.
Qed.

(** A change at one node leaves the links of the others. *)
Lemma seg_around lim al l1 q n l2 h h' e e' : WF base lim al (l1 ++ (q, n) :: l2) → (∀ x, x ≠ q → h' x = h x) →
  seg h l1 e → seg h l2 e' → seg h' l1 e ∧ seg h' l2 e'.
Proof.
  intros Hw Hh S1 S2. destruct (proj1 (StronglySorted_app _ _ _) (W_sort _ _ _ _ Hw)) as (H12 & _ & H2).
  apply StronglySorted_inv in H2 as [_ H2]. rewrite Forall_forall in H2. pose proof (W_size _ _ _ _ Hw q n ltac:(set_solver)) as Hn.
  split; (eapply seg_frame; [|eassumption]); intros x Hx; apply list_elem_of_fmap in Hx as ([x' m] & -> & Hx); apply Hh; cbn [fst]; intros ->.
  - pose proof (H12 (q, m) (q, n) Hx ltac:(set_solver)) as D. pose proof (W_size _ _ _ _ Hw q m ltac:(set_solver)). unfold apart in D. simpl in D. lia.
  - specialize (H2 _ Hx). unfold apart in H2. simpl in H2. lia.
Qed.

(** Merging with the block on the left, or linking the block after it. *)
Lemma merge_left_ok s al l1 t k l2 bp n :
  WF base (brk_of (proc s)) al (l1 ++ (t, k) :: l2) → seg (cells s) l1 t → seg (cells s) l2 base → size (cells s t) = k → brk_of (proc s) ≤ 2 ^ 36 →
  al !! bp = Some n → cells s bp = Header (start l2 base) n → t < bp → (∀ x, x ∈ l2 → bp + n < x.1) →
  wp (if t + k =? bp then
        m ← size_of bp; modify (set_size t (u32 (k + m)));;
        r ← ptr_of bp; modify (set_ptr t r)
      else modify (set_ptr t bp))
    (λ _ s1, ∃ nodes', (∃ v, cell_set s s1 t v) ∧ WF base (brk_of (proc s)) (delete bp al) nodes' ∧ seg (cells s1) nodes' base ∧
       (length nodes' ≤ S (length (l1 ++ (t, k) :: l2)))%nat ∧
       ∃ i m, nodes' !! i = Some (t, m) ∧ (n ≤ m ∨ ∃ q m', nodes' !! S i = Some (q, m') ∧ n ≤ m')) s.
Proof.
  intros Hw Hg1 Hg2 Hst Hbr Hbp Hcell Ht Hgt. pose proof (W_al _ _ _ _ Hw _ _ Hbp) as Hn. pose proof (W_size _ _ _ _ Hw t k ltac:(set_solver)) as Hk.
  assert (Hfr : ∀ s1 v, cell_set s s1 t v → seg (cells s1) l1 t ∧ seg (cells s1) l2 base).
  { intros s1 v [Hc _]. apply (seg_around (brk_of (proc s)) al l1 t k l2 (cells s)); try done. intros x Hx. by rewrite Hc, decide_False. }
  destruct (Z.eqb_spec (t + k) bp) as [E|E].
  - apply wp_bind, wp_gets, wp_bind, wp_modify, wp_bind, wp_gets, wp_modify. rewrite Hcell. cbn [size].
    replace (u32 (k + n)) with (k + n) by (unfold u32; rewrite Z.mod_small; lia).
    match goal with |- context [set_ptr _ _ ?s1] => set (s2 := set_ptr _ _ s1) end.
    assert (Hc : cell_set s s2 t (Header (start l2 base) (k + n))).
    { split; [|done]. intros x. unfold s2. cbn [set_ptr set_size cells]. unfold fn_insert, insert. repeat case_decide; subst; try lia; cbn [size ptr]; rewrite ?Hcell; done. }
    clearbody s2. exists (l1 ++ (t, k + n) :: l2). split; [by eexists|]. subst bp. split; [by apply WF_merge_left|]. destruct (Hfr _ _ Hc) as [F1 F2].
    split; [apply seg_app; cbn [seg start]; rewrite (proj1 Hc), decide_True by done; done|]. rewrite !length_app. cbn [length]. split; [lia|].
    exists (length l1), (k + n). rewrite lookup_app_r, Nat.sub_diag by lia. split; [done|left; lia].
  - apply wp_modify. match goal with |- context [set_ptr _ _ ?s1] => set (s2 := set_ptr _ _ s1) end.
    assert (Hc : cell_set s s2 t (Header bp k)).
    { split; [|done]. intros x. unfold s2. cbn [set_ptr cells]. unfold fn_insert, insert. repeat case_decide; congruence. }
    clearbody s2. exists (l1 ++ (t, k) :: (bp, n) :: l2). split; [by eexists|]. destruct (Hfr _ _ Hc) as [F1 F2].
    pose proof (W_fa _ _ _ _ Hw t k bp n ltac:(set_solver) Hbp) as D. unfold disjoint_blocks in D. simpl in D.
    split; [apply WF_insert; try done; lia|].
    split; [apply seg_app; cbn [seg start]; rewrite !(proj1 Hc), decide_True, decide_False, Hcell by (done || lia); done|].
    rewrite !length_app. cbn [length]. split; [lia|]. exists (length l1), k. rewrite !lookup_app_r by lia. rewrite Nat.sub_diag, Nat.sub_succ_l, Nat.sub_diag by lia.
    split; [done|]. right. by exists bp, n.
Qed.

(** A block of [n] units is at [freep] or right after it. *)
Definition avail (n : Z) (s : ust) (nodes : list (Z * Z)) : Prop :=
  ∃ i m, nodes !! i = Some (freep s, m) ∧ (n ≤ m ∨ ∃ q m', nodes !! S i = Some (q, m') ∧ n ≤ m').

Lemma node_outside lim al nodes q m a n x : WF base lim al nodes → (q, m) ∈ nodes → al !! a = Some n → a ≤ x < a + n → x ≠ q.
Proof.
  intros Hw Hq Ha Hx ->. pose proof (W_fa _ _ _ _ Hw q m a n Hq Ha) as D. pose proof (W_al _ _ _ _ Hw a n Ha). pose proof (W_size _ _ _ _ Hw q m Hq).
  unfold disjoint_blocks in D. simpl in D. lia.
Qed.

Lemma free_ok s al nodes bp n fuel : HEAP s al nodes → al !! bp = Some n → (length nodes ≤ fuel)%nat →
  wp (free fuel (bp + 1)) (λ _ s', ∃ nodes', HEAP s' (delete bp al) nodes' ∧ (length nodes' ≤ S (length nodes))%nat ∧
    proc s' = proc s ∧ keeps (delete bp al) s s' ∧ avail n s' nodes') s.
Proof.
  intros HH Hbp Hf. pose proof HH as [Hw Hg Hal Hfp Hbr]. pose proof (W_al _ _ _ _ Hw _ _ Hbp) as Hn.
  unfold free. replace (bp + 1 - 1) with bp by lia. apply wp_bind, wp_gets, wp_bind.
  eapply wp_mono; [|apply (search_ok s al nodes bp fuel HH); [lia| |done]]; [|intros q m Hq ->; exact (node_outside _ _ _ bp m bp n bp Hw Hq Hbp ltac:(lia) eq_refl)].
  intros t s0 (-> & i & k & (t' & k' & Ht' & Htb & Hgt) & Ht). rewrite Ht in Ht'. injection Ht' as <- <-.
  assert (El := take_drop_middle nodes i (t, k) Ht). set (l1 := take i nodes) in *. set (l2 := drop (S i) nodes) in *.
  assert (Hgt2 : ∀ x, x ∈ l2 → bp < x.1).
  { intros [q m] Hx. apply list_elem_of_lookup_1 in Hx as [j Hj]. unfold l2 in Hj. rewrite lookup_drop in Hj. apply (Hgt (S i + j)%nat q m ltac:(lia) Hj). }
  clearbody l1 l2. clear Hgt Ht. subst nodes. pose proof (proj1 (seg_app _ _ _ _) Hg) as (Hg1 & Hst & Hpt & Hg2). cbn [start] in Hg1.
  apply wp_bind, wp_gets, wp_bind, wp_gets, wp_bind. rewrite Hpt, (Hal _ _ Hbp).
  eapply wp_mono; [|apply (merge_right_ok s al l1 t k l2 bp n); try done; [lia|by apply Hal]].
  intros _ s1 (n' & l2' & [Hc1 [Hfp1 Hpr1]] & Hnn & Hw1 & Hg2' & Hgt' & Hlen').
  assert (Hout : ∀ q m, (q, m) ∈ l1 ++ (t, k) :: l2' → bp ≠ q) by (intros q m Hq; apply (node_outside _ _ _ q m bp n' bp Hw1 Hq); [apply lookup_insert_eq|lia]).
  assert (Hfr : ∀ l e, (∀ x, x ∈ l → x ∈ l1 ++ (t, k) :: l2') → seg (cells s) l e → seg (cells s1) l e).
  { intros l e Hin. apply seg_frame. intros q Hq. apply list_elem_of_fmap in Hq as ([q' m] & -> & Hq). rewrite Hc1, decide_False; [done|]. cbn [fst]. intros ->. by apply (Hout bp m (Hin _ Hq)). }
  assert (Hst1 : size (cells s1 t) = k) by (rewrite Hc1, decide_False; [done|lia]).
  apply wp_bind, wp_gets, wp_bind. rewrite Hst1. rewrite <- Hpr1 in Hw1.
  eapply wp_mono; [|apply (merge_left_ok s1 (<[bp := n']> al) l1 t k l2' bp n' Hw1); try done; [apply Hfr; [set_solver|done]|apply Hfr; [set_solver|done]|rewrite Hpr1; lia|apply lookup_insert_eq|by rewrite Hc1, decide_True]].
  intros _ s2 (nodes' & (v & [Hc2 [Hfp2 Hpr2]]) & Hw2 & Hg' & Hln & j & m & Hj & Hav). apply wp_modify.
  rewrite delete_insert_eq in Hw2. exists nodes'. cbn [set_freep proc cells freep] in *.
  split; [|split; [rewrite !length_app in *; cbn [length] in *; lia|split; [cbn; congruence|split]]].
  - split; cbn; [by rewrite Hpr2|done| |by exists j, m|rewrite Hpr2, Hpr1; lia].
    intros a m' Ha. rewrite Hc2, Hc1. pose proof Ha as Ha'. apply lookup_delete_Some in Ha as [Hne Ha]. pose proof (W_al _ _ _ _ Hw _ _ Ha). rewrite (decide_False (P := a = bp)) by congruence.
    rewrite decide_False; [by apply Hal|]. apply (node_outside _ _ _ t k a m' a Hw); [set_solver|done|lia].
  - intros a m' x Ha Hx. cbn. apply lookup_delete_Some in Ha as [Hne Ha]. rewrite Hc2, Hc1.
    rewrite (decide_False (P := x = t)) by (apply (node_outside _ _ _ t k a m' x Hw); [set_solver|done|done]). rewrite decide_False; [done|]. intros ->.
    pose proof (W_aa _ _ _ _ Hw bp n a m' Hbp Ha Hne) as D. unfold disjoint_blocks in D. simpl in D. lia.
  - exists j, m. cbn. split; [done|]. destruct Hav as [?|(q & m' & Hq & ?)]; [left; lia|right; exists q, m'; split; [done|lia]].
Qed.

Lemma ukeeps_refl al s : keeps al s s.
Proof. done. Qed.

Lemma ukeeps_trans al s1 s2 s3 : keeps al s1 s2 → keeps al s2 s3 → keeps al s1 s3.
Proof. intros H1 H2 a n x Ha Hx. by rewrite (H2 a n x Ha Hx), (H1 a n x Ha Hx). Qed.

(** [morecore]: a block of at least [nu] units joins the ring, or nothing changes. *)
Lemma morecore_ok s al nodes nu fuel : HEAP s al nodes → 0 < nu < 2 ^ 27 → (length nodes ≤ fuel)%nat →
  wp (morecore fuel nu) (λ r s',
    r = 0 ∧ HEAP s' al nodes ∧ cells s' = cells s ∨
    r = freep s' ∧ ∃ nodes', HEAP s' al nodes' ∧ (length nodes' ≤ S (length nodes))%nat ∧ keeps al s s' ∧ avail nu s' nodes') s.
Proof.
  intros [Hw Hg Hal Hfp Hbr] Hnu Hf. unfold morecore. set (nu' := if nu <? 4096 then 4096 else nu).
  assert (Hnu' : nu ≤ nu' < 2 ^ 27) by (unfold nu'; destruct (Z.ltb_spec nu 4096); lia). clearbody nu'.
  apply wp_bind, wp_get. replace (s32 (u64 (nu' * 16))) with (16 * nu') by (unfold u64; rewrite Z.mod_small by lia; rewrite s32_id; lia).
  assert (Hmod : (16 * nu') mod 16 = 0) by (rewrite Z.mul_comm; by apply Z.mod_mul).
  destruct (sbrk (16 * nu') (proc s)) as [p o] eqn:Es. apply wp_bind, wp_modify. destruct (Z.eqb_spec p (-1)) as [->|Hp].
  - apply wp_ret. left. split; [done|]. split; [|done]. pose proof (sbrk_fail (16 * nu') (proc s) o ltac:(lia) ltac:(lia) Hmod Es) as Hl.
    destruct Hw as [W1 W2 W3 W4 W5 W6]. split; cbn; [|done|done|done|lia].
    split; try done; [intros q n Hq; specialize (W3 q n Hq); lia|intros a n Ha; specialize (W4 a n Ha); lia].
  - destruct (sbrk_ok (16 * nu') (proc s) p o ltac:(lia) ltac:(lia) Hmod Es Hp) as (Ha & Hp0 & Hlo & Hhi & Hmax). set (hp := p / 16).
    assert (Ehp : p = 16 * hp) by (unfold hp; zdm). clearbody hp. subst p.
    assert (Hnone : al !! hp = None). { destruct (al !! hp) eqn:E; [|done]. pose proof (W_al _ _ _ _ Hw _ _ E). lia. }
    assert (Hnq : ∀ q n, (q, n) ∈ nodes → q ≠ hp) by (intros q n Hq ->; pose proof (W_size _ _ _ _ Hw _ _ Hq); lia).
    apply wp_bind, wp_modify. match goal with |- wp _ _ ?st => set (s1 := st) end.
    assert (Hc1 : ∀ x, x ≠ hp → cells s1 x = cells s x) by (intros x Hx; unfold s1; cbn; unfold fn_insert, insert; by rewrite decide_False).
    assert (HH1 : HEAP s1 (<[hp := nu']> al) nodes).
    { split; [apply (WF_grow base (brk_of (proc s)) _ al nodes hp nu' Hw); cbn; lia| | |done|cbn; lia].
      - apply (seg_frame (cells s)); [|done]. intros q Hq. apply list_elem_of_fmap in Hq as ([q' m] & -> & Hq). apply Hc1. by apply (Hnq q' m).
      - intros a n L. apply lookup_insert_Some in L as [[<- <-]|[Hne L]]; [|rewrite Hc1 by done; by apply Hal]. unfold s1. cbn. unfold fn_insert, insert. by rewrite decide_True. }
    apply wp_bind. eapply wp_mono; [|apply (free_ok s1 _ nodes hp nu' fuel HH1); [apply lookup_insert_eq|done]].
    intros _ s2 (nodes' & HH2 & Hlen & Hpr & Hk & Hav). apply wp_gets. right. split; [done|]. rewrite delete_insert_id in HH2, Hk by done.
    exists nodes'. split; [done|]. split; [done|]. split.
    + intros a n x L Hx. rewrite (Hk a n x L Hx). apply Hc1. pose proof (W_al _ _ _ _ Hw _ _ L). lia.
    + destruct Hav as (i & m & Hi & Hav). exists i, m. split; [done|]. destruct Hav as [?|(q & m' & Hq & ?)]; [left; lia|right; exists q, m'; split; [done|lia]].
Qed.

(** What [malloc] promises: the block [a] of [n] units is new. *)
Definition allocated (s : ust) (al : gmap Z Z) (n a : Z) (s' : ust) (len : nat) : Prop :=
  al !! a = None ∧ ∃ nodes', HEAP s' (<[a := n]> al) nodes' ∧ (length nodes' ≤ len)%nat ∧ keeps al s s'.

(** Taking the whole block [p] that follows [prevp]. *)
Lemma take_ok s al l1 prevp np p n l2 : HEAP s al (l1 ++ (prevp, np) :: (p, n) :: l2) → 0 < n →
  wp (q ← ptr_of p; modify (set_ptr prevp q);; modify (set_freep prevp);; mret (inr (p + 1)))
    (λ r s', ∃ a, r = @inr (Z * Z) Z (a + 1) ∧ allocated s al n a s' (length (l1 ++ (prevp, np) :: (p, n) :: l2))) s.
Proof.
  intros [Hw Hg Hal Hfp Hbr] Hn. pose proof (proj1 (seg_app _ _ _ _) Hg) as (Hg1 & Hsv & Hpv & Hsp & Hpp & Hg2). cbn [start] in *.
  assert (Hw' : WF base (brk_of (proc s)) al ((l1 ++ [(prevp, np)]) ++ (p, n) :: l2)) by (by rewrite <- app_assoc).
  assert (W := WF_take base _ al _ p n l2 Hw' ltac:(lia) ltac:(by destruct l1)). rewrite <- app_assoc in W. cbn [app] in W.
  apply wp_bind, wp_gets, wp_bind, wp_modify, wp_bind, wp_modify, wp_ret. exists p. split; [done|]. rewrite Hpp.
  match goal with |- allocated _ _ _ _ ?st _ => set (s1 := st) end.
  assert (Hc1 : ∀ x, cells s1 x = if decide (x = prevp) then Header (start l2 base) np else cells s x).
  { intros x. unfold s1. cbn. unfold fn_insert, insert. repeat case_decide; congruence. }
  assert (Hout : ∀ b m x, <[p := n]> al !! b = Some m → b ≤ x < b + m → x ≠ prevp) by (intros b m x; apply (node_outside _ _ _ prevp np b m x W); set_solver).
  destruct (seg_around _ _ l1 prevp np l2 (cells s) (cells s1) prevp base W) as [F1 F2]; [intros x Hx; by rewrite Hc1, decide_False|done|done|].
  assert (Hnone : al !! p = None).
  { destruct (al !! p) eqn:E; [|done]. exfalso. apply (node_outside _ _ _ p n p z p Hw ltac:(set_solver) E); [|done]. pose proof (W_al _ _ _ _ Hw _ _ E). lia. }
  split; [done|]. exists (l1 ++ (prevp, np) :: l2). split; [|split; [rewrite !length_app; cbn [length]; lia|]].
  - split; [done| | |exists (length l1), np; by rewrite lookup_app_r, Nat.sub_diag by lia|done].
    + apply seg_app. cbn [seg start]. by rewrite Hc1, decide_True.
    + intros b m L. pose proof (W_al _ _ _ _ W _ _ L). rewrite Hc1, decide_False by (apply (Hout b m b L); lia).
      apply lookup_insert_Some in L as [[<- <-]|[Hb L]]; [done|by apply Hal].
  - intros b m x L Hx. rewrite Hc1, decide_False; [done|]. apply (Hout b m x); [|done]. rewrite lookup_insert_ne; [done|congruence].
Qed.

(** Taking the last [u] units of the block [p]. *)
Lemma split_ok s al l1 prevp np p n l2 u : HEAP s al (l1 ++ (prevp, np) :: (p, n) :: l2) → 0 < u < n →
  wp (modify (set_size p (n - u));; modify (set_size (p + (n - u)) u);; modify (set_freep prevp);; mret (inr (p + (n - u) + 1)))
    (λ r s', ∃ a, r = @inr (Z * Z) Z (a + 1) ∧ allocated s al u a s' (length (l1 ++ (prevp, np) :: (p, n) :: l2))) s.
Proof.
  intros [Hw Hg Hal Hfp Hbr] Hu.
  assert (Hw' : WF base (brk_of (proc s)) al ((l1 ++ [(prevp, np)]) ++ (p, n) :: l2)) by (by rewrite <- app_assoc).
  assert (W := WF_split base _ al _ p n l2 u Hw' Hu). set (a := p + (n - u)) in *.
  assert (Hg' : seg (cells s) ((l1 ++ [(prevp, np)]) ++ (p, n) :: l2) base) by (by rewrite <- app_assoc).
  apply seg_app in Hg' as (Hg1 & Hsp & Hpp & Hg2). cbn [start] in Hg1.
  apply wp_bind, wp_modify, wp_bind, wp_modify, wp_bind, wp_modify, wp_ret. exists a. split; [done|].
  match goal with |- allocated _ _ _ _ ?st _ => set (s1 := st) end.
  assert (Hc1 : ∀ x, x ≠ p → x ≠ a → cells s1 x = cells s x) by (intros x H1 H2; unfold s1; cbn; unfold fn_insert, insert; by rewrite !decide_False).
  assert (Hcp : size (cells s1 p) = n - u ∧ ptr (cells s1 p) = ptr (cells s p)).
  { assert (p ≠ a) by (unfold a; lia). unfold s1. cbn [set_freep set_size cells]. unfold fn_insert, insert. repeat case_decide; try congruence. split; reflexivity. }
  assert (Hca : size (cells s1 a) = u) by (unfold s1; cbn; unfold fn_insert, insert; by rewrite decide_True).
  assert (Hnone : ∀ b m x, al !! b = Some m → b ≤ x < b + m → x ≠ p ∧ x ≠ a).
  { intros b m x L Hx. pose proof (W_fa _ _ _ _ Hw p n b m ltac:(set_solver) L) as D. unfold disjoint_blocks in D. simpl in D. unfold a. lia. }
  assert (Hfr : ∀ l e, (∀ x, x ∈ l → x ∈ (l1 ++ [(prevp, np)]) ++ (p, n) :: l2 ∧ x.1 ≠ p) → seg (cells s) l e → seg (cells s1) l e).
  { intros l e Hin. apply seg_frame. intros q Hq. apply list_elem_of_fmap in Hq as ([q' m] & -> & Hq). destruct (Hin _ Hq) as [Hi Hp]. cbn [fst] in *. apply Hc1; [done|].
    assert (Ha : (q', m) ∈ (l1 ++ [(prevp, np)]) ++ (p, n - u) :: l2) by (assert ((q', m) ≠ (p, n)) by congruence; set_solver).
    intros ->. apply (node_outside _ _ _ a m a u a W Ha); [apply lookup_insert_eq|lia|done]. }
  destruct (proj1 (StronglySorted_app _ _ _) (W_sort _ _ _ _ Hw')) as (H12 & _ & H2). apply StronglySorted_inv in H2 as [_ H2]. rewrite Forall_forall in H2.
  assert (Hal1 : ∀ b m, al !! b = Some m → cells s1 b = cells s b) by (intros b m L; pose proof (W_al _ _ _ _ Hw _ _ L); destruct (Hnone b m b L); [lia|]; by apply Hc1).
  split; [destruct (al !! a) eqn:E; [|done]; pose proof (W_al _ _ _ _ Hw _ _ E); destruct (Hnone _ _ a E); [lia|done]|].
  exists (l1 ++ (prevp, np) :: (p, n - u) :: l2). split; [|split; [rewrite !length_app; cbn [length]; lia|]].
  - rewrite <- app_assoc in W. split; [done| | |exists (length l1), np; by rewrite lookup_app_r, Nat.sub_diag by lia|done].
    + change ((prevp, np) :: (p, n - u) :: l2) with ([(prevp, np)] ++ (p, n - u) :: l2). rewrite app_assoc. apply seg_app. cbn [seg start]. destruct Hcp as [-> ->].
      split; [apply Hfr; [|done]|split; [done|split; [done|apply Hfr; [|done]]]]; intros [q m] Hx; (split; [set_solver|]); cbn [fst]; intros ->.
      * pose proof (H12 _ (p, n) Hx ltac:(set_solver)) as D. pose proof (W_size _ _ _ _ Hw' p m ltac:(set_solver)). unfold apart in D. simpl in D. lia.
      * pose proof (H2 _ Hx) as D. unfold apart in D. simpl in D. lia.
    + intros b m L. apply lookup_insert_Some in L as [[<- <-]|[Hb L]]; [done|]. rewrite (Hal1 _ _ L). by apply Hal.
  - intros b m x L Hx. destruct (Hnone b m x L Hx). by apply Hc1.
Qed.

(** The search of [malloc]: either it has not reached [freep] yet, or a block
    that is large enough is ahead, before [freep] or at it. *)
Definition searching (s0 : ust) (al : gmap Z Z) (len : nat) (u : Z) (m : nat) (pp : Z * Z) (s : ust) : Prop :=
  ∃ nodes kv np n, HEAP s al nodes ∧ keeps al s0 s ∧ nodes !! kv = Some (pp.1, np) ∧ nodes !! next nodes kv = Some (pp.2, n) ∧
    ((length nodes ≤ len)%nat ∧ (∃ j nf, nodes !! j = Some (freep s, nf) ∧ m = (dist nodes (next nodes kv) j + len + 3)%nat) ∨
     (length nodes ≤ S len)%nat ∧ ∃ j t nt, nodes !! j = Some (t, nt) ∧ u ≤ nt ∧ (next nodes kv = j ∨ t = freep s) ∧ m = dist nodes (next nodes kv) j).

Definition result (s0 : ust) (al : gmap Z Z) (len : nat) (u : Z) (r : Z) (s : ust) : Prop :=
  r = 0 ∧ (∃ nodes, HEAP s al nodes ∧ (length nodes ≤ len)%nat ∧ keeps al s0 s) ∨ ∃ a, r = a + 1 ∧ allocated s0 al u a s len.

Lemma allocated_from s0 s al u a s' len len' : keeps al s0 s → allocated s al u a s' len → (len ≤ len')%nat → allocated s0 al u a s' len'.
Proof. intros Hk (Hn & nodes & HH & Hl & Hk') Hle. split; [done|]. exists nodes. split; [done|]. split; [lia|]. by eapply ukeeps_trans. Qed.

Lemma next_lt nodes k : (k < length nodes)%nat → (next nodes k < length nodes)%nat.
Proof. unfold next. case_decide; lia. Qed.

Lemma node_eq lim al nodes i j p n m : WF base lim al nodes → nodes !! i = Some (p, n) → nodes !! j = Some (p, m) → i = j.
Proof.
  intros Hw Hi Hj. pose proof (nodes_order nodes (W_sort _ _ _ _ Hw)) as O. assert (Hp : ∀ q n, (q, n) ∈ nodes → 0 ≤ n) by (intros q k Hq; apply (W_size _ _ _ _ Hw q k Hq)).
  pose proof (O Hp i j p n p m Hi Hj). pose proof (O Hp j i p m p n Hj Hi). lia.
Qed.

Lemma malloc_step_found s0 s al len u fuel m pp : searching s0 al len u m pp s → 0 < u → u ≤ size (cells s pp.2) →
  wp (malloc_body fuel u pp) (λ r s', match r with inl _ => False | inr b => result s0 al (S len) u b s' end) s.
Proof.
  destruct pp as [prevp p]. intros (nodes & kv & np & n & HH & Hk & Hkv & Hp & Hph) Hu Hs. cbn [fst snd] in *. pose proof HH as [Hw Hg _ _ _].
  destruct (ring_next (cells s) base nodes Hg (W_base _ _ _ _ Hw) _ p n Hp) as [Hsz _]. unfold malloc_body. apply wp_bind, wp_gets. rewrite Hsz in *.
  rewrite (proj2 (Z.leb_le u n)) by done.
  assert (Hnx : next nodes kv = S kv). { unfold next in *. case_decide; [|done]. rewrite (W_base _ _ _ _ Hw) in Hp. injection Hp as _ <-. lia. } rewrite Hnx in Hp.
  assert (El := take_drop_middle nodes kv _ Hkv). rewrite (drop_S nodes (p, n) (S kv) Hp) in El.
  assert (Hlen : (length nodes ≤ S len)%nat) by (destruct Hph as [[? _]|[? _]]; lia). rewrite <- El in HH, Hlen.
  destruct (Z.eqb_spec n u) as [->|Hne]; (eapply wp_mono; [|first [apply (take_ok s al _ prevp np p u _ HH); lia|apply (split_ok s al _ prevp np p n _ u HH); lia]]);
    intros r s' (a & -> & Ha); right; exists a; (split; [done|]); by eapply allocated_from.
Qed.

Lemma malloc_body_ok s0 s al len u fuel m pp : searching s0 al len u m pp s → 0 < u < 2 ^ 27 → (S len ≤ fuel)%nat →
  wp (malloc_body fuel u pp) (λ r s', match r with
    | inl pp' => ∃ m', (m' < m)%nat ∧ searching s0 al len u m' pp' s'
    | inr b => result s0 al (S len) u b s' end) s.
Proof.
  intros HI Hu Hf. destruct (decide (u ≤ size (cells s pp.2))) as [Hbig|Hsmall].
  { eapply wp_mono; [|apply (malloc_step_found s0 s al len u fuel m pp HI ltac:(lia) Hbig)]. intros [?|b] s'; done. }
  destruct HI as (nodes & kv & np & n & HH & Hk & Hkv & Hp & Hph). destruct pp as [prevp p]. cbn [fst snd] in *. pose proof HH as [Hw Hg _ _ _].
  destruct (ring_next (cells s) base nodes Hg (W_base _ _ _ _ Hw) _ p n Hp) as (Hsz & n' & Hnn). rewrite Hsz in Hsmall. pose proof (lookup_lt_Some _ _ _ Hp) as Hpl.
  unfold malloc_body. apply wp_bind, wp_gets. rewrite Hsz, (proj2 (Z.leb_gt u n)) by lia. apply wp_bind, wp_gets.
  destruct (Z.eqb_spec p (freep s)) as [->|Hpf].
  - destruct Hph as [[Hlen (j & nf & Hj & ->)]|[_ (j & t & nt & Hj & Hnt & Hor & _)]].
    2:{ exfalso. assert (next nodes kv = j) as <- by (destruct Hor as [?| ->]; [done|by eapply node_eq]). rewrite Hp in Hj. injection Hj as _ <-. lia. }
    apply wp_bind. eapply wp_mono; [|apply (morecore_ok s al nodes u fuel HH Hu); lia].
    intros r s1 [(-> & HH1 & Ec)|(-> & nodes1 & HH1 & Hl1 & Hk1 & Hav)].
    + apply wp_ret. left. split; [done|]. exists nodes. split; [done|]. split; [lia|]. eapply ukeeps_trans; [done|]. intros a m x _ _. by rewrite Ec.
    + pose proof HH1 as [Hw1 Hg1 _ _ _]. destruct Hav as (i & mi & Hi & Hav). pose proof (W_size _ _ _ _ Hw1 (freep s1) mi ltac:(by eapply list_elem_of_lookup_2)).
      rewrite (proj2 (Z.eqb_neq _ _)) by lia. apply wp_bind, wp_gets, wp_ret.
      destruct (ring_next (cells s1) base nodes1 Hg1 (W_base _ _ _ _ Hw1) i _ mi Hi) as (_ & mn & Hn). pose proof (lookup_lt_Some _ _ _ Hi) as Hil. pose proof (next_lt _ _ Hil) as Hnl.
      assert (Ht : ∃ j t nt, nodes1 !! j = Some (t, nt) ∧ u ≤ nt ∧ (next nodes1 i = j ∨ t = freep s1)).
      { destruct Hav as [?|(q & m' & Hq & ?)]; [by exists i, (freep s1), mi; auto|]. exists (S i), q, m'. split; [done|]. split; [done|]. left. unfold next. apply lookup_lt_Some in Hq. case_decide; [lia|done]. }
      destruct Ht as (j1 & t & nt & Ht & Hnt & Hor). exists (dist nodes1 (next nodes1 i) j1). pose proof (dist_lt nodes1 _ j1 Hnl ltac:(by eapply lookup_lt_Some)).
      split; [lia|]. exists nodes1, i, mi, mn. split; [done|]. split; [by eapply ukeeps_trans|]. split; [done|]. split; [done|]. right. split; [lia|]. by exists j1, t, nt.
  - apply wp_bind, wp_gets, wp_ret.
    assert (Hstep : ∀ j, (j < length nodes)%nat → next nodes kv ≠ j → S (dist nodes (next nodes (next nodes kv)) j) = dist nodes (next nodes kv) j) by (intros; by apply dist_next).
    destruct Hph as [[Hlen (j & nf & Hj & ->)]|[Hlen (j & t & nt & Hj & Hnt & Hor & ->)]]; pose proof (lookup_lt_Some _ _ _ Hj) as Hjl.
    + assert (Hne : next nodes kv ≠ j) by (intros <-; rewrite Hp in Hj; by injection Hj as -> _). specialize (Hstep j Hjl Hne).
      exists (dist nodes (next nodes (next nodes kv)) j + len + 3)%nat. split; [lia|]. exists nodes, (next nodes kv), n, n'. repeat (split; [done|]). left. split; [done|]. by exists j, nf.
    + assert (Hne : next nodes kv ≠ j) by (intros <-; rewrite Hp in Hj; injection Hj as _ <-; lia). specialize (Hstep j Hjl Hne).
      exists (dist nodes (next nodes (next nodes kv)) j). split; [lia|]. exists nodes, (next nodes kv), n, n'. repeat (split; [done|]). right. split; [done|]. exists j, t, nt. destruct Hor as [?|?]; [done|auto].
Qed.

(** The heap with at most [len] nodes on the ring, or before the first call. *)
Definition heap_ok (s : ust) (al : gmap Z Z) (len : nat) : Prop :=
  (freep s = 0 ∧ al = ∅ ∧ 16 * (base + 1) ≤ brk_of (proc s) ≤ 2 ^ 36 ∧ (1 ≤ len)%nat) ∨ ∃ nodes, HEAP s al nodes ∧ (length nodes ≤ len)%nat.

(** The largest request whose size in bytes, header included, is an int. *)
Definition max_request : Z := 2 ^ 31 - 32.

Lemma units_enough nb : 0 ≤ nb ≤ max_request → nb ≤ 16 * (units nb - 1) ∧ 0 < units nb < 2 ^ 27.
Proof. unfold max_request, units, u32. intros Hb. rewrite Z.mod_small; [|split]; zdm. Qed.

Lemma malloc_loop_ok s al nodes u fuel len : HEAP s al nodes → (length nodes ≤ len)%nat → 0 < u < 2 ^ 27 → (2 * len + 4 ≤ fuel)%nat →
  wp (p ← ptr_of (freep s); iterM fuel (malloc_body fuel u) (freep s, p)) (result s al (S len) u) s.
Proof.
  intros HH Hlen Hu Hf. apply wp_bind, wp_gets. pose proof HH as [Hw Hg _ (j & nf & Hj) _]. pose proof (lookup_lt_Some _ _ _ Hj) as Hjl.
  destruct (ring_next (cells s) base nodes Hg (W_base _ _ _ _ Hw) _ _ _ Hj) as (_ & n & Hn). pose proof (dist_lt nodes _ j (next_lt _ _ Hjl) Hjl) as Hd.
  apply (wp_iter_bound (searching s al len u) _ _ fuel (dist nodes (next nodes j) j + len + 3)%nat); [|exists nodes, j, nf, n; repeat (split; [done|]); left; split; [done|by exists j, nf]|lia].
  intros m pp s' HI. by apply malloc_body_ok; [|lia|lia].
Qed.

Lemma malloc_ok s al len nb fuel : heap_ok s al len → 0 ≤ nb ≤ max_request → (2 * len + 4 ≤ fuel)%nat →
  wp (malloc base fuel nb) (λ r s', keeps al s s' ∧
    (r = 0 ∧ heap_ok s' al (S len) ∨ ∃ a, r = a + 1 ∧ al !! a = None ∧ heap_ok s' (<[a := units nb]> al) (S len))) s.
Proof.
  intros Hh Hnb Hf. destruct (units_enough nb Hnb) as [_ Hu].
  assert (Hres : ∀ s0 r s', keeps al s s0 → result s0 al (S len) (units nb) r s' →
    keeps al s s' ∧ (r = 0 ∧ heap_ok s' al (S len) ∨ ∃ a, r = a + 1 ∧ al !! a = None ∧ heap_ok s' (<[a := units nb]> al) (S len))).
  { intros s0 r s' Hk [(-> & nodes & HH & Hl & Hk')|(a & -> & Hn & nodes & HH & Hl & Hk')]; (split; [by eapply ukeeps_trans|]).
    - left. split; [done|]. right. by exists nodes.
    - right. exists a. split; [done|]. split; [done|]. right. by exists nodes. }
  unfold malloc. apply wp_bind, wp_gets. destruct Hh as [(E & -> & Hbr & Hlen)|(nodes & HH & Hlen)].
  - rewrite E. cbn [Z.eqb]. apply wp_bind, wp_bind, wp_modify, wp_bind, wp_modify, wp_modify. match goal with |- wp _ _ ?st => set (s1 := st) end.
    eapply wp_mono; [|apply (malloc_loop_ok s1 ∅ [(base, 0)] (units nb) fuel len); [|done|done|done]]; [intros r s'; by apply (Hres s1)|].
    split; [split|..]; cbn; try done.
    + repeat constructor.
    + intros q n Hq. apply list_elem_of_singleton in Hq. injection Hq as -> ->. lia.
    + unfold fn_insert, insert. by rewrite !decide_True.
    + by exists 0%nat, 0.
  - pose proof HH as [Hw _ _ (k & n & Hk) _]. pose proof (W_size _ _ _ _ Hw _ _ (list_elem_of_lookup_2 _ _ _ Hk)).
    rewrite (proj2 (Z.eqb_neq (freep s) 0)) by lia. apply wp_bind, wp_ret.
    eapply wp_mono; [|apply (malloc_loop_ok s al nodes (units nb) fuel len HH Hlen Hu Hf)]. intros r s'. by apply Hres.
Qed.

(** ** Programs *)

(** What a program does with its heap. Pointers are those of the data, one header
    past the block. *)
Inductive uop := OMalloc (nbytes : Z) | OFree (p : Z) | OWrite (p off : Z) (v : header).

(** [live]: the requested size of each live block, by the address of its header;
    [data]: what the program last wrote to its cells. *)
Record client := Client { heap : ust; live : gmap Z Z; data : gmap Z header }.

Definition store (x : Z) (v : header) (s : ust) : ust := UST (<[x := v]> (cells s)) (freep s) (proc s).

(** A program frees live blocks and writes inside live blocks only: other frees
    and writes are skipped. *)
Definition exec (fuel : nat) (c : client) (o : uop) : option client :=
  match o with
  | OMalloc nb =>
      match malloc base fuel nb (heap c) with
      | Ok r h => Some (if r =? 0 then Client h (live c) (data c) else Client h (<[r - 1 := nb]> (live c)) (data c))
      | _ => None
      end
  | OFree p =>
      match live c !! (p - 1) with
      | Some nb =>
          match free fuel p (heap c) with
          | Ok _ h => Some (Client h (delete (p - 1) (live c)) (filter (λ xv, ¬ (p - 1 ≤ xv.1 < p - 1 + units nb)) (data c)))
          | _ => None
          end
      | None => Some c
      end
  | OWrite p off v =>
      match live c !! (p - 1) with
      | Some nb => if bool_decide (0 ≤ off < units nb - 1) then Some (Client (store (p + off) v (heap c)) (live c) (<[p + off := v]> (data c))) else Some c
      | None => Some c
      end
  end.

(** The requests of the program are at most [max_request] bytes. *)
Definition small (o : uop) : Prop := match o with OMalloc nb => 0 ≤ nb ≤ max_request | _ => True end.

Fixpoint run (fuel : nat) (ops : list uop) (c : client) : option client :=
  match ops with [] => Some c | o :: ops' => c' ← exec fuel c o; run fuel ops' c' end.

Record client_ok (c : client) (len : nat) : Prop := {
  C_heap : heap_ok (heap c) (units <$> live c) len;
  C_live : ∀ a nb, live c !! a = Some nb → 0 ≤ nb ≤ max_request;
  C_data : ∀ x v, data c !! x = Some v → cells (heap c) x = v ∧ ∃ a nb, live c !! a = Some nb ∧ a < x < a + units nb;
}.

(** The allocator never touches a live block, and the program never touches the
    ring. *)
Lemma store_ok s al len a n x v : heap_ok s al len → al !! a = Some n → a < x < a + n → heap_ok (store x v s) al len.
Proof.
  intros [(_ & -> & _)|(nodes & [Hw Hg Hal Hfp Hbr] & Hl)] Ha Hx; [done|]. right. exists nodes. split; [|done].
  assert (Hc : ∀ y, y ≠ x → cells (store x v s) y = cells s y) by (intros y Hy; cbn; unfold fn_insert, insert; by rewrite decide_False).
  split; cbn [store proc freep]; try done.
  - apply (seg_frame (cells s)); [|done]. intros q Hq. apply list_elem_of_fmap in Hq as ([q' m] & -> & Hq). apply Hc. cbn [fst]. intros ->.
    by apply (node_outside _ _ _ x m a n x Hw Hq Ha); [lia|].
  - intros b m Hb. rewrite Hc; [by apply Hal|]. intros ->. destruct (decide (x = a)) as [->|Hne]; [lia|].
    pose proof (W_aa _ _ _ _ Hw x m a n Hb Ha Hne) as D. pose proof (W_al _ _ _ _ Hw _ _ Hb). unfold disjoint_blocks in D. simpl in D. lia.
Qed.

Lemma data_keeps c s' : (∀ x v, data c !! x = Some v → cells (heap c) x = v ∧ ∃ a nb, live c !! a = Some nb ∧ a < x < a + units nb) →
  keeps (units <$> live c) (heap c) s' → ∀ x v, data c !! x = Some v → cells s' x = v ∧ ∃ a nb, live c !! a = Some nb ∧ a < x < a + units nb.
Proof.
  intros Hd Hk x v Hx. destruct (Hd x v Hx) as [<- (a & nb & Ha & Hr)]. split; [|by exists a, nb].
  apply (Hk a (units nb)); [by rewrite lookup_fmap, Ha|lia].
Qed.

Lemma live_disjoint c len a nb b mb : client_ok c len → live c !! a = Some nb → live c !! b = Some mb → a ≠ b →
  disjoint_blocks (a, units nb) (b, units mb).
Proof.
  intros [Hh _ _] Ha Hb Hne. destruct Hh as [(_ & E & _)|(nodes & [Hw _ _ _ _] & _)].
  - apply (f_equal (lookup a)) in E. rewrite lookup_fmap, Ha, lookup_empty in E. done.
  - apply (W_aa _ _ _ _ Hw); rewrite ?lookup_fmap, ?Ha, ?Hb; done.
Qed.

Lemma exec_ok fuel c o len : small o → client_ok c len → (2 * len + 4 ≤ fuel)%nat → ∃ c', exec fuel c o = Some c' ∧ client_ok c' (S len).
Proof.
  intros Ho HC Hf. pose proof HC as [Hh Hl Hd].
  assert (HS : client_ok c (S len)).
  { split; [|done|done]. destruct Hh as [(?&?&?&?)|(nodes & ? & ?)]; [left; repeat split; try done; lia|right; exists nodes; split; [done|lia]]. }
  destruct o as [nb|p|p off v]; cbn [exec].
  - cbn in Ho. rename Ho into Hnb. destruct (proj1 (wp_ok _ _ _) (malloc_ok _ _ len nb fuel Hh Hnb Hf)) as (r & h & -> & Hk & Hr).
    eexists. split; [done|]. destruct Hr as [(-> & Hh')|(a & -> & Hn & Hh')].
    + split; cbn; [done|done|]. by apply data_keeps.
    + assert (Ha : 0 < a). { destruct Hh' as [(_ & E & _)|(nodes & [Hw _ _ _ _] & _)]; [by apply insert_non_empty in E|]. pose proof (W_al _ _ _ _ Hw _ _ (lookup_insert_eq _ _ _)). lia. }
      rewrite (proj2 (Z.eqb_neq (a + 1) 0)) by lia. replace (a + 1 - 1) with a by lia. rewrite lookup_fmap, fmap_None in Hn. split; cbn.
      * by rewrite fmap_insert.
      * intros b mb Hb. apply lookup_insert_Some in Hb as [[<- <-]|[_ Hb]]; [done|by apply (Hl b)].
      * intros x v Hx. destruct (data_keeps c h Hd Hk x v Hx) as [? (b & mb & Hb & Hr)]. split; [done|]. exists b, mb. split; [|done]. rewrite lookup_insert_ne by congruence. done.
  - destruct (live c !! (p - 1)) as [nb|] eqn:Ep; [|by exists c]. destruct Hh as [(_ & E & _)|(nodes & HH & Hlen)].
    { apply (f_equal (lookup (p - 1))) in E. rewrite lookup_fmap, Ep, lookup_empty in E. done. }
    assert (Hal : (units <$> live c) !! (p - 1) = Some (units nb)) by (by rewrite lookup_fmap, Ep).
    destruct (proj1 (wp_ok _ _ _) (free_ok _ _ nodes (p - 1) _ fuel HH Hal ltac:(lia))) as (r & h & Er & nodes' & HH' & Hlen' & _ & Hk & _).
    replace (p - 1 + 1) with p in Er by lia. rewrite Er. eexists. split; [done|]. rewrite <- fmap_delete in HH', Hk. split; cbn.
    + right. exists nodes'. split; [done|lia].
    + intros b mb Hb. apply lookup_delete_Some in Hb as [_ Hb]. by apply (Hl b).
    + intros x v Hx. apply map_lookup_filter_Some in Hx as [Hx Hout]. cbn [fst] in Hout. destruct (Hd x v Hx) as [<- (b & mb & Hb & Hr)].
      destruct (decide (b = p - 1)) as [->|Hne]; [rewrite Ep in Hb; injection Hb as <-; lia|].
      assert (Hb' : delete (p - 1) (live c) !! b = Some mb) by (by rewrite lookup_delete_ne). split; [|by exists b, mb].
      apply (Hk b (units mb)); [by rewrite lookup_fmap, Hb'|lia].
  - destruct (live c !! (p - 1)) as [nb|] eqn:Ep; [|by exists c]. case_bool_decide as Hoff; [|by exists c]. eexists. split; [done|].
    destruct HS as [Hh' _ _]. split; cbn; [|done|].
    + apply (store_ok _ _ _ (p - 1) (units nb)); [done|by rewrite lookup_fmap, Ep|lia].
    + intros x w Hx. unfold fn_insert, insert at 1. apply lookup_insert_Some in Hx as [[<- <-]|[Hne Hx]].
      * rewrite decide_True by done. split; [done|]. exists (p - 1), nb. split; [done|lia].
      * rewrite decide_False by done. by apply Hd.
Qed.

Lemma urun_ok fuel ops c len : Forall small ops → client_ok c len → (2 * (length ops + len) + 4 ≤ fuel)%nat → ∃ c', run fuel ops c = Some c' ∧ client_ok c' (length ops + len).
Proof.
  revert c len. induction ops as [|o ops IH]; intros c len Hops HC Hf; [by exists c|]. apply Forall_cons in Hops as [Ho Hops]. cbn [length] in Hf. cbn [run].
  destruct (exec_ok fuel c o len Ho HC) as (c1 & -> & HC1); [lia|]. destruct (IH c1 (S len) Hops HC1) as (c2 & E2 & HC2); [lia|]. exists c2. split; [done|].
  by replace (length (o :: ops) + len)%nat with (length ops + S len)%nat by (cbn [length]; lia).
Qed.

(** C6. For every program that asks for at most [max_request] = 2^31 - 32 bytes at a
    time, frees live blocks and writes inside live blocks, with fewer than 64
    gigabytes of memory: every call returns (the searches of the ring terminate),
    the data areas of live blocks hold the requested bytes, are disjoint and lie in
    memory obtained from the system, and every cell the program wrote keeps its
    value until the block is freed. *)
Theorem umalloc_safe ops s : Forall small ops → freep s = 0 → 16 * (base + 1) ≤ brk_of (proc s) ≤ 2 ^ 36 →
  ∃ c, run (2 * length ops + 6) ops (Client s ∅ ∅) = Some c ∧
    (∀ a nb, live c !! a = Some nb → base < a ∧ 16 * (a + 1) + nb ≤ brk_of (proc (heap c))) ∧
    (∀ a nb b mb, live c !! a = Some nb → live c !! b = Some mb → a ≠ b →
       16 * (a + 1) + nb ≤ 16 * b ∨ 16 * (b + 1) + mb ≤ 16 * a) ∧
    ∀ x v, data c !! x = Some v → cells (heap c) x = v.
Proof.
  intros Hops Hs Hbr. destruct (urun_ok (2 * length ops + 6) ops (Client s ∅ ∅) 1 Hops) as (c & -> & HC); [|lia|].
  { split; cbn; [left; by rewrite fmap_empty| |]; intros ??; by rewrite lookup_empty. }
  exists c. split; [done|]. split; [|split].
  - intros a nb Ha. destruct (units_enough nb (C_live _ _ HC _ _ Ha)) as [Hu _]. destruct (C_heap _ _ HC) as [(_ & E & _)|(nodes & [Hw _ _ _ _] & _)].
    + apply (f_equal (lookup a)) in E. rewrite lookup_fmap, Ha, lookup_empty in E. done.
    + pose proof (W_al _ _ _ _ Hw a (units nb) ltac:(by rewrite lookup_fmap, Ha)). lia.
  - intros a nb b mb Ha Hb Hne. pose proof (live_disjoint c _ a nb b mb HC Ha Hb Hne) as D. unfold disjoint_blocks in D. simpl in D.
    destruct (units_enough nb (C_live _ _ HC _ _ Ha)), (units_enough mb (C_live _ _ HC _ _ Hb)). lia.
  - intros x v Hx. by apply (C_data _ _ HC).
Qed.

End heap.

(** ** A system for the examples *)

(** The break in units of 16 bytes, below a limit. *)
Definition flat_limit : Z := 2 ^ 27.

#[export] Instance flat_sbrk : Sbrk := {|
  os := Z;
  brk_of b := 16 * b;
  sbrk n b := if bool_decide (0 < b ∧ 16 * b + n ≤ flat_limit) then (16 * b, b + (n + 15) / 16) else (-1, b);
|}.

#[export] Instance flat_laws : SbrkLaws.
Proof.
  split; cbn; intros n b.
  - intros o' Hb Hn Hm. case_bool_decide as Hc; intros E; [exfalso; apply (f_equal fst) in E; cbn in E; lia|injection E as <-; lia].
  - intros p o' Hb Hn Hm. case_bool_decide as Hc; intros E Hp; injection E as <- <-; [|done]. unfold flat_limit in Hc. zdm.
Qed.

Definition fresh_heap : ust := UST (λ _, Header 0 0) 0 100.

(** Two blocks, one of them written, freed and allocated again. *)
Lemma umalloc_safe_witness : ∃ c, run 50 (2 * 5 + 6) [OMalloc 100; OMalloc 40; OWrite (100 + 4096 - 8 + 1) 0 (Header 7 9); OFree (100 + 4096 - 8 - 4 + 1); OMalloc 24] (Client fresh_heap ∅ ∅) = Some c ∧
    (∀ a nb, live c !! a = Some nb → 50 < a ∧ 16 * (a + 1) + nb ≤ brk_of (proc (heap c))) ∧
    (∀ a nb b mb, live c !! a = Some nb → live c !! b = Some mb → a ≠ b →
       16 * (a + 1) + nb ≤ 16 * b ∨ 16 * (b + 1) + mb ≤ 16 * a) ∧
    ∀ x v, data c !! x = Some v → cells (heap c) x = v.
Proof.
  apply (umalloc_safe 50 ltac:(lia) [OMalloc 100; OMalloc 40; OWrite (100 + 4096 - 8 + 1) 0 (Header 7 9); OFree (100 + 4096 - 8 - 4 + 1); OMalloc 24] fresh_heap); [|reflexivity|cbn; lia].
  repeat (constructor; [unfold small, max_request; lia || exact I|]). constructor.
Defined.

(** [morecore] on a ring with the static header only, when [sbrk] returns [16 * hp]:
    the ring has a second block of the size asked for. *)
Lemma morecore_first `{Sbrk} base fuel (s : ust) nu hp o :
  cells s base = Header base 0 → freep s = base → 4096 ≤ nu → base < hp → 0 ≤ hp → sbrk (s32 (u64 (nu * 16))) (proc s) = (16 * hp, o) →
  wp (morecore (S fuel) nu) (λ r s', r = base ∧ freep s' = base ∧ proc s' = o ∧ cells s' base = Header hp 0 ∧ cells s' hp = Header base nu) s.
Proof.
  intros Hc Hf Hnu Hlt Hpos Hsb. assert (Hup : ∀ (f : Z → header) x v y, <[x := v]> f y = if decide (x = y) then v else f y) by done.
  unfold morecore. rewrite (proj2 (Z.ltb_ge _ _)) by lia. apply wp_bind, wp_get. cbn beta. rewrite Hsb. apply wp_bind, wp_modify.
  rewrite (proj2 (Z.eqb_neq (16 * hp) (-1))) by lia. replace (16 * hp / 16) with hp by zdm.
  apply wp_bind, wp_modify. set (s1 := set_size hp nu (set_proc o s)).
  assert (E1 : cells s1 base = Header base 0) by (cbn; rewrite Hup, decide_False by lia; done).
  assert (E2 : cells s1 hp = Header (ptr (cells s hp)) nu) by (cbn; rewrite Hup, decide_True by done; done).
  assert (E3 : freep s1 = base ∧ proc s1 = o) by done. clearbody s1. destruct E3 as [E3 E4].
  apply wp_bind. unfold free. replace (hp + 1 - 1) with hp by lia. apply wp_bind, wp_gets. rewrite E3. apply wp_bind, wp_iter_S.
  unfold free_body, between, at_end. apply wp_bind, wp_gets. rewrite E1. cbn [ptr size].
  rewrite (proj2 (Z.ltb_lt base hp)), (proj2 (Z.ltb_ge hp base)), (proj2 (Z.leb_le base base)) by lia. cbn [andb orb]. apply wp_ret.
  apply wp_bind, wp_gets, wp_bind, wp_gets. rewrite E1, E2. cbn [ptr size]. rewrite (proj2 (Z.eqb_neq (hp + nu) base)) by lia.
  apply wp_bind, wp_modify, wp_bind, wp_gets. set (s2 := set_ptr hp base s1).
  assert (F1 : cells s2 base = Header base 0) by (cbn; rewrite Hup, decide_False by lia; done).
  assert (F2 : cells s2 hp = Header base nu) by (cbn; rewrite Hup, decide_True by done; by rewrite E2).
  assert (F4 : proc s2 = o) by done. clearbody s2. rewrite F1. cbn [size]. rewrite (proj2 (Z.eqb_neq (base + 0) hp)) by lia.
  apply wp_bind, wp_modify, wp_modify, wp_gets. split; [done|]. split; [done|]. split; [done|]. cbn. rewrite !Hup, decide_True, decide_False by (done || lia).
  by rewrite F1, F2.
Qed.

(** C36. A request of more than [max_request] bytes on a fresh heap: [morecore]
    multiplies the number of units by 16 and passes the product to [sbrk] as an
    int, which wraps to at most 16 and is mostly negative.  Whenever that [sbrk]
    returns an address, whatever its value, and moves the break by no more than
    it was asked for, [malloc] succeeds: it returns a pointer to [nb] bytes none
    of which lies below the break. *)
Theorem malloc_int_overflow `{Sbrk} base fuel (s : ust) nb p o
    (Hs : freep s = 0) (Hnb : max_request < nb < 2 ^ 32) (Hfuel : (3 ≤ fuel)%nat) (Hbase : 0 < base)
    (Hp : p mod 16 = 0 ∧ 16 * (base + 1) ≤ p)
    (Hsb : sbrk (16 * units nb - 2 ^ 32) (proc s) = (p, o)) (Hbrk : brk_of o ≤ p + Z.max 0 (16 * units nb - 2 ^ 32)) :
  wp (malloc base fuel nb) (λ r s', r = p / 16 + 1 ∧ r ≠ 0 ∧ brk_of (proc s') ≤ 16 * r) s.
Proof.
  unfold max_request in Hnb. assert (Hu : units nb = (nb + 15) / 16 + 1) by (unfold units, u32; rewrite Z.mod_small; zdm).
  set (hp := p / 16) in *. assert (Hhp : base < hp ∧ 16 * hp = p) by (unfold hp; zdm).
  assert (Hn : 2 ^ 27 ≤ units nb ≤ 2 ^ 28 + 1) by (rewrite Hu; zdm).
  assert (Earg : s32 (u64 (units nb * 16)) = 16 * units nb - 2 ^ 32) by (unfold s32, u64; zdm).
  assert (Hup : ∀ (f : Z → header) x v y, <[x := v]> f y = if decide (x = y) then v else f y) by done.
  destruct fuel as [|[|[|fuel]]]; [lia..|]. unfold malloc. apply wp_bind, wp_gets. rewrite Hs. cbn [Z.eqb].
  apply wp_bind, wp_bind, wp_modify, wp_bind, wp_modify, wp_modify. match goal with |- wp _ _ ?st => set (s1 := st) end.
  assert (E1 : cells s1 base = Header base 0) by (cbn; rewrite !Hup, !decide_True by done; done).
  assert (E3 : freep s1 = base ∧ proc s1 = proc s) by done. clearbody s1. destruct E3 as [E3 E4].
  apply wp_bind, wp_gets. rewrite E1. cbn [ptr]. apply wp_iter_S. unfold malloc_body at 1. apply wp_bind, wp_gets. rewrite E1. cbn [size].
  rewrite (proj2 (Z.leb_gt _ _)) by lia. apply wp_bind, wp_gets. rewrite E3, (proj2 (Z.eqb_eq _ _)) by done. apply wp_bind.
  eapply wp_mono; [|apply (morecore_first base (S (S fuel)) s1 (units nb) hp o); [done|done|lia|lia|lia|by rewrite E4, Earg, Hsb, (proj2 Hhp)]].
  intros r s2 (-> & F1 & F2 & F3 & F4). rewrite (proj2 (Z.eqb_neq base 0)) by lia. apply wp_bind, wp_gets, wp_ret. rewrite F3. cbn [ptr].
  apply wp_iter_S. unfold malloc_body. apply wp_bind, wp_gets. rewrite F4. cbn [size]. rewrite (proj2 (Z.leb_le _ _)), (proj2 (Z.eqb_eq _ _)) by lia.
  apply wp_bind, wp_gets, wp_bind, wp_modify, wp_bind, wp_modify, wp_ret. split; [done|]. split; [lia|]. cbn. rewrite F2. lia.
Qed.

(** 4294967295 bytes: the break moves by 16. *)
Lemma malloc_int_overflow_witness :
  wp (malloc 50 3 (2 ^ 32 - 1)) (λ r s', r = 101 ∧ r ≠ 0 ∧ brk_of (proc s') ≤ 16 * r) fresh_heap.
Proof.
  apply (malloc_int_overflow 50 3 fresh_heap (2 ^ 32 - 1) 1600 101); [reflexivity|split; reflexivity|lia|lia|split; [reflexivity|lia]|vm_compute; reflexivity|vm_compute; discriminate].
Defined.
