(* ===== verification/Shparse.v ===== *)
(** * The parser of the shell (user/sh.c)

    The line is a buffer of bytes ended by a 0; a pointer into it is a position.
    The command nodes the parser allocates and links are the cells of a store.
    [panic] prints its message and exits: it is the [Panic] outcome. *)

From S2P Require Import Prelude.

Definition MAXARGS : nat := 10.

(** ** Command nodes *)

Inductive node :=
| NExec (argv eargv : list (option nat))
| NRedir (cmd file efile : nat) (mode fd : Z)
| NPipe (left right : nat)
| NList (left right : nat)
| NBack (cmd : nat).

(** [ps] is the pointer that the functions advance, [es] the end of the line. *)
Record shst := SH { buf : list Z; es : nat; ps : nat; nodes : list node }.

Definition set_ps (p : nat) (s : shst) : shst := SH (buf s) (es s) p (nodes s).
Definition set_buf (b : list Z) (s : shst) : shst := SH b (es s) (ps s) (nodes s).
Definition set_nodes (l : list node) (s : shst) : shst := SH (buf s) (es s) (ps s) l.

Definition deref (b : list Z) (i : nat) : Z := default 0 (b !! i).

(** A new node. *)
Definition alloc (n : node) : M shst nat :=
  s ← getS; putS (set_nodes (nodes s ++ [n]) s);; mret (length (nodes s)).

Definition execcmd : M shst nat := alloc (NExec (replicate MAXARGS None) (replicate MAXARGS None)).
Definition redircmd (subcmd file efile : nat) (mode fd : Z) : M shst nat := alloc (NRedir subcmd file efile mode fd).
Definition pipecmd (left right : nat) : M shst nat := alloc (NPipe left right).
Definition listcmd (left right : nat) : M shst nat := alloc (NList left right).
Definition backcmd (subcmd : nat) : M shst nat := alloc (NBack subcmd).

(** ** Tokens *)

Definition strchr (l : list Z) (c : Z) : bool := existsb (Z.eqb c) l.

Definition whitespace : list Z := [32; 9; 13; 10; 11].

(** less, bar, greater, ampersand, semicolon and the parentheses *)
Definition symbols : list Z := [60; 124; 62; 38; 59; 40; 41].

Definition c_less : Z := 60.
Definition c_bar : Z := 124.
Definition c_greater : Z := 62.
Definition c_amp : Z := 38.
Definition c_semi : Z := 59.
Definition c_open : Z := 40.
Definition c_close : Z := 41.
Definition c_plus : Z := 43.
Definition c_a : Z := 97.

(** [while(s < es && p( *s)) s++], with [n = es - s]. *)
Fixpoint skip_while (p : Z → bool) (b : list Z) (n s : nat) : nat :=
  match n with
  | O => s
  | S n' => if p (deref b s) then skip_while p b n' (S s) else s
  end.

Definition skip_white (b : list Z) (e s : nat) : nat := skip_while (strchr whitespace) b (e - s) s.

Definition skip_word (b : list Z) (e s : nat) : nat :=
  skip_while (λ c, negb (strchr whitespace c) && negb (strchr symbols c)) b (e - s) s.

(** The token type and the positions of its start and of its end. *)
Definition gettoken : M shst (Z * nat * nat) :=
  st ← getS;
  let b := buf st in
  let q := skip_white b (es st) (ps st) in
  let c := deref b q in
  let '(ret, eq) :=
    if c =? 0 then (c, q)
    else if existsb (Z.eqb c) [c_bar; c_open; c_close; c_semi; c_amp; c_less] then (c, S q)
    else if c =? c_greater then (if deref b (S q) =? c_greater then (c_plus, S (S q)) else (c, S q))
    else (c_a, skip_word b (es st) q) in
  putS (set_ps (skip_white b (es st) eq) st);;
  mret (ret, q, eq).

Definition peek (toks : list Z) : M shst bool :=
  st ← getS;
  let s := skip_white (buf st) (es st) (ps st) in
  putS (set_ps s st);;
  mret (negb (deref (buf st) s =? 0) && strchr toks (deref (buf st) s)).

(** ** The parser *)

Definition O_RDONLY : Z := 0.
Definition O_WRONLY : Z := 1.
Definition O_CREATE : Z := 512.
Definition O_TRUNC : Z := 1024.

Definition redirs_body (cmd : nat) : M shst (nat + nat) :=
  more ← peek [c_less; c_greater];
  if (more : bool) then
    t ← gettoken; f ← gettoken;
    let '(tok, _, _) := t in
    let '(a, q, eq) := f in
    if negb (a =? c_a) then panic "missing file for redirection" else
    if tok =? c_less then c ← redircmd cmd q eq O_RDONLY 0; mret (inl c)
    else if tok =? c_greater then c ← redircmd cmd q eq (Z.lor (Z.lor O_WRONLY O_CREATE) O_TRUNC) 1; mret (inl c)
    else if tok =? c_plus then c ← redircmd cmd q eq (Z.lor O_WRONLY O_CREATE) 1; mret (inl c)
    else mret (inl cmd)
  else mret (inr cmd).

Definition parseredirs (cmd : nat) : M shst nat :=
  e ← gets es; iterM (S e) redirs_body cmd.

(** [cmd->argv[argc] = q; cmd->eargv[argc] = eq]. *)
Definition set_arg (cmd argc : nat) (q eq : option nat) : M shst unit :=
  s ← getS;
  match nodes s !! cmd with
  | Some (NExec argv eargv) => putS (set_nodes (<[cmd := NExec (<[argc := q]> argv) (<[argc := eq]> eargv)]> (nodes s)) s)
  | _ => mret tt
  end.

(** The loop variables are [ret] and [argc]. *)
Definition exec_body (cmd : nat) (st : nat * nat) : M shst (nat * nat + nat * nat) :=
  let '(ret, argc) := st in
  stop ← peek [c_bar; c_close; c_amp; c_semi];
  if (stop : bool) then mret (inr (ret, argc)) else
  t ← gettoken;
  let '(tok, q, eq) := t in
  if tok =? 0 then mret (inr (ret, argc)) else
  if negb (tok =? c_a) then panic "syntax" else
  set_arg cmd argc (Some q) (Some eq);;
  let argc := S argc in
  if bool_decide (MAXARGS ≤ argc)%nat then panic "too many args" else
  ret ← parseredirs ret;
  mret (inl (ret, argc)).

Definition back_body (cmd : nat) : M shst (nat + nat) :=
  more ← peek [c_amp];
  if (more : bool) then gettoken;; c ← backcmd cmd; mret (inl c) else mret (inr cmd).

Fixpoint parseline (n : nat) : M shst nat :=
  match n with
  | O => λ _, NoFuel
  | S n' =>
      cmd ← parsepipe n';
      e ← gets es;
      cmd ← iterM (S e) back_body cmd;
      seq ← peek [c_semi];
      if (seq : bool) then gettoken;; rest ← parseline n'; listcmd cmd rest else mret cmd
  end
with parsepipe (n : nat) : M shst nat :=
  match n with
  | O => λ _, NoFuel
  | S n' =>
      cmd ← parseexec n';
      more ← peek [c_bar];
      if (more : bool) then gettoken;; rest ← parsepipe n'; pipecmd cmd rest else mret cmd
  end
with parseexec (n : nat) : M shst nat :=
  match n with
  | O => λ _, NoFuel
  | S n' =>
      blk ← peek [c_open];
      if (blk : bool) then parseblock n' else
      cmd ← execcmd;
      ret ← parseredirs cmd;
      e ← gets es;
      r ← iterM (S e) (exec_body cmd) (ret, 0%nat);
      let '(ret, argc) := r in
      set_arg cmd argc None None;;
      mret ret
  end
with parseblock (n : nat) : M shst nat :=
  match n with
  | O => λ _, NoFuel
  | S n' =>
      open ← peek [c_open];
      if negb open then panic "parseblock" else
      gettoken;;
      cmd ← parseline n';
      close ← peek [c_close];
      if negb close then panic "syntax - missing )" else
      gettoken;;
      parseredirs cmd
  end.

(** [for(i=0; ecmd->argv[i]; i++) *ecmd->eargv[i] = 0]. *)
Fixpoint nul_args (argv eargv : list (option nat)) (b : list Z) : list Z :=
  match argv, eargv with
  | Some _ :: argv', Some e :: eargv' => nul_args argv' eargv' (<[e := 0]> b)
  | _, _ => b
  end.

Fixpoint nulterminate (n : nat) (cmd : nat) : M shst unit :=
  match n with
  | O => λ _, NoFuel
  | S n' =>
      s ← getS;
      match nodes s !! cmd with
      | Some (NExec argv eargv) => putS (set_buf (nul_args argv eargv (buf s)) s)
      | Some (NRedir c _ efile _ _) => nulterminate n' c;; modify (λ s, set_buf (<[efile := 0]> (buf s)) s)
      | Some (NPipe l r) | Some (NList l r) => nulterminate n' l;; nulterminate n' r
      | Some (NBack c) => nulterminate n' c
      | None => mret tt
      end
  end.

(** The recursion of the parser goes through at most four functions per token. *)
Definition parsecmd : M shst nat :=
  s ← getS;
  cmd ← parseline (4 * S (es s));
  peek [];;
  s ← getS;
  if negb (bool_decide (ps s = es s)) then panic "syntax" else
  nulterminate (S (length (nodes s))) cmd;;
  mret cmd.

(** The state in which the shell parses the line [s]. *)
Definition shstart (s : list Z) : shst := SH (s ++ [0]) (length s) 0 [].
