(* ===== verification/Shspec.v ===== *)
(** * The grammar of the shell, and the parser against it

    A lexer and a grammar for command lines that do not mention the buffer, the
    positions or the node store; the parser of Shparse accepts exactly the lines
    of the grammar, and builds the commands they mean. *)

From S2P Require Import Prelude Shparse.

(** ** Tokens *)

Inductive tok := TWord (w : list Z) | TSym (c : Z).

#[export] Instance tok_eq_dec : EqDecision tok.
Proof. solve_decision. Defined.

Definition white (c : Z) : bool := strchr whitespace c.
Definition sym (c : Z) : bool := strchr symbols c.
Definition wordc (c : Z) : bool := negb (white c) && negb (sym c).

Definition flush (cur : list Z) : list tok := match cur with [] => [] | _ => [TWord cur] end.

(** The tokens of a line, character by character; two greater signs are one
    token. *)
Fixpoint lex (cur s : list Z) : list tok :=
  match s with
  | [] => flush cur
  | c :: s' =>
      if white c then flush cur ++ lex [] s'
      else if c =? c_greater then
        flush cur ++ match s' with
                     | d :: s'' => if d =? c_greater then TSym c_plus :: lex [] s'' else TSym c :: lex [] s'
                     | [] => [TSym c]
                     end
      else if sym c then flush cur ++ TSym c :: lex [] s'
      else lex (cur ++ [c]) s'
  end.

Lemma lex_white u v : Forall (λ c, white c = true) u → lex [] (u ++ v) = lex [] v.
Proof. induction 1 as [|c u Hc _ IH]; [done|]. cbn [app lex]. by rewrite Hc. Qed.

Lemma wordc_inv c : wordc c = true → white c = false ∧ sym c = false ∧ c ≠ c_greater.
Proof.
  unfold wordc. rewrite andb_true_iff, !negb_true_iff. intros [Hw Hs]. split; [done|]. split; [done|]. intros ->. by vm_compute in Hs.
Qed.

Lemma lex_word cur w v : Forall (λ c, wordc c = true) w → match v with [] => True | d :: _ => wordc d = false end →
  cur ++ w ≠ [] → lex cur (w ++ v) = TWord (cur ++ w) :: lex [] v.
Proof.
  intros Hw Hv. revert cur. induction Hw as [|c w Hc _ IH]; intros cur Hne.
  - rewrite app_nil_r in *. assert (Hfl : flush cur = [TWord cur]) by (by destruct cur). destruct v as [|d v]; [done|].
    cbn [app lex]. rewrite Hfl. unfold wordc in Hv. destruct (white d) eqn:Hd; [done|]. destruct (d =? c_greater); [done|].
    by destruct (sym d).
  - destruct (wordc_inv c Hc) as (H1 & H2 & H3). cbn [app lex]. rewrite H1, H2, (proj2 (Z.eqb_neq _ _) H3).
    rewrite IH by (by destruct cur). by rewrite <- app_assoc.
Qed.

(** ** The grammar *)

Inductive rop := RIn | ROut | RApp.
Inductive redir := Rd (op : rop) (file : list Z).
Inductive item := IWord (w : list Z) | IRedir (r : redir).

(** A line is a pipeline, ampersands, and possibly a semicolon and a line; a
    pipeline is made of blocks in parentheses and of simple commands, whose words
    and redirections come in any order. *)
Inductive line := LineEnd (p : pipe) (back : nat) | LineSeq (p : pipe) (back : nat) (l : line)
with pipe := PipeEnd (e : exec) | PipeSeq (e : exec) (p : pipe)
with exec := Block (l : line) (rs : list redir) | Simple (its : list item).

Scheme line_ind' := Induction for line Sort Prop
with pipe_ind' := Induction for pipe Sort Prop
with exec_ind' := Induction for exec Sort Prop.
Combined Scheme syntax_ind from line_ind', pipe_ind', exec_ind'.

Definition op_sym (o : rop) : Z := match o with RIn => c_less | ROut => c_greater | RApp => c_plus end.

Definition print_redir (r : redir) : list tok := let '(Rd o f) := r in [TSym (op_sym o); TWord f].
Definition print_item (i : item) : list tok := match i with IWord w => [TWord w] | IRedir r => print_redir r end.

Fixpoint print_line (l : line) : list tok :=
  match l with
  | LineEnd p k => print_pipe p ++ replicate k (TSym c_amp)
  | LineSeq p k l' => print_pipe p ++ replicate k (TSym c_amp) ++ TSym c_semi :: print_line l'
  end
with print_pipe (p : pipe) : list tok :=
  match p with
  | PipeEnd e => print_exec e
  | PipeSeq e p' => print_exec e ++ TSym c_bar :: print_pipe p'
  end
with print_exec (e : exec) : list tok :=
  match e with
  | Block l rs => TSym c_open :: print_line l ++ TSym c_close :: concat (map print_redir rs)
  | Simple its => concat (map print_item its)
  end.

Definition words (its : list item) : list (list Z) := omap (λ i, match i with IWord w => Some w | _ => None end) its.
Definition redirs (its : list item) : list redir := omap (λ i, match i with IRedir r => Some r | _ => None end) its.

(** Every simple command has fewer than [MAXARGS] words. *)
Fixpoint args_line (l : line) : Prop :=
  match l with LineEnd p _ => args_pipe p | LineSeq p _ l' => args_pipe p ∧ args_line l' end
with args_pipe (p : pipe) : Prop :=
  match p with PipeEnd e => args_exec e | PipeSeq e p' => args_exec e ∧ args_pipe p' end
with args_exec (e : exec) : Prop :=
  match e with Block l _ => args_line l | Simple its => (length (words its) < MAXARGS)%nat end.

(** ** What a line means *)

Inductive cmd :=
| Exec (argv : list (list Z))
| Redir (c : cmd) (file : list Z) (mode fd : Z)
| Pipe (left right : cmd)
| List (left right : cmd)
| Back (c : cmd).

Definition wrap (c : cmd) (r : redir) : cmd :=
  match r with
  | Rd RIn f => Redir c f O_RDONLY 0
  | Rd ROut f => Redir c f (Z.lor (Z.lor O_WRONLY O_CREATE) O_TRUNC) 1
  | Rd RApp f => Redir c f (Z.lor O_WRONLY O_CREATE) 1
  end.

Fixpoint sem_line (l : line) : cmd :=
  match l with
  | LineEnd p k => Nat.iter k Back (sem_pipe p)
  | LineSeq p k l' => List (Nat.iter k Back (sem_pipe p)) (sem_line l')
  end
with sem_pipe (p : pipe) : cmd :=
  match p with PipeEnd e => sem_exec e | PipeSeq e p' => Pipe (sem_exec e) (sem_pipe p') end
with sem_exec (e : exec) : cmd :=
  match e with
  | Block l rs => foldl wrap (sem_line l) rs
  | Simple its => foldl wrap (Exec (words its)) (redirs its)
  end.

(** ** A parser of token lists *)

Inductive res (A : Type) := RFuel | RErr (msg : string) | ROk (a : A).
Arguments RFuel {A}.
Arguments RErr {A} msg.
Arguments ROk {A} a.

#[export] Instance res_bind : MBind res := λ A B f r, match r with RFuel => RFuel | RErr m => RErr m | ROk a => f a end.

Definition op_of (c : Z) : option rop :=
  if c =? c_less then Some RIn else if c =? c_greater then Some ROut else if c =? c_plus then Some RApp else None.

Fixpoint predirs (ts : list tok) : res (list redir * list tok) :=
  match ts with
  | TSym c :: ts1 =>
      match op_of c with
      | Some o =>
          match ts1 with
          | TWord f :: ts2 => r ← predirs ts2; ROk (Rd o f :: r.1, r.2)
          | _ => RErr "missing file for redirection"
          end
      | None => ROk ([], ts)
      end
  | _ => ROk ([], ts)
  end.

Fixpoint pitems (argc : nat) (ts : list tok) : res (list item * list tok) :=
  match ts with
  | [] => ROk ([], [])
  | TWord w :: ts1 =>
      if bool_decide (MAXARGS ≤ S argc)%nat then RErr "too many args"
      else r ← pitems (S argc) ts1; ROk (IWord w :: r.1, r.2)
  | TSym c :: ts1 =>
      match op_of c with
      | Some o =>
          match ts1 with
          | TWord f :: ts2 => r ← pitems argc ts2; ROk (IRedir (Rd o f) :: r.1, r.2)
          | _ => RErr "missing file for redirection"
          end
      | None => if strchr [c_bar; c_close; c_amp; c_semi] c then ROk ([], ts) else RErr "syntax"
      end
  end.

Fixpoint pamps (ts : list tok) : nat * list tok :=
  match ts with TSym c :: ts1 => if c =? c_amp then let r := pamps ts1 in (S r.1, r.2) else (0%nat, ts) | _ => (0%nat, ts) end.

Definition tail_of (ts : list tok) : list tok := match ts with _ :: ts1 => ts1 | [] => [] end.

Definition starts (c : Z) (ts : list tok) : bool := match ts with TSym d :: _ => d =? c | _ => false end.

Fixpoint pline (n : nat) (ts : list tok) : res (line * list tok) :=
  match n with
  | O => RFuel
  | S n' =>
      r ← ppipe n' ts;
      let a := pamps r.2 in
      if starts c_semi a.2 then q ← pline n' (tail_of a.2); ROk (LineSeq r.1 a.1 q.1, q.2) else ROk (LineEnd r.1 a.1, a.2)
  end
with ppipe (n : nat) (ts : list tok) : res (pipe * list tok) :=
  match n with
  | O => RFuel
  | S n' =>
      r ← pexec n' ts;
      if starts c_bar r.2 then q ← ppipe n' (tail_of r.2); ROk (PipeSeq r.1 q.1, q.2) else ROk (PipeEnd r.1, r.2)
  end
with pexec (n : nat) (ts : list tok) : res (exec * list tok) :=
  match n with
  | O => RFuel
  | S n' =>
      if starts c_open ts then pblock n' ts else r ← pitems 0 ts; ROk (Simple r.1, r.2)
  end
with pblock (n : nat) (ts : list tok) : res (exec * list tok) :=
  match n with
  | O => RFuel
  | S n' =>
      if starts c_open ts then
        r ← pline n' (tail_of ts);
        if starts c_close r.2 then q ← predirs (tail_of r.2); ROk (Block r.1 q.1, q.2) else RErr "syntax - missing )"
      else RErr "parseblock"
  end.

(** *** It accepts only what the grammar prints *)

Lemma op_of_inv c o : op_of c = Some o → c = op_sym o.
Proof.
  unfold op_of. destruct (Z.eqb_spec c c_less) as [->|]; [by injection 1 as <-|]. destruct (Z.eqb_spec c c_greater) as [->|]; [by injection 1 as <-|].
  destruct (Z.eqb_spec c c_plus) as [->|]; [by injection 1 as <-|done].
Qed.

Lemma op_of_sym o : op_of (op_sym o) = Some o.
Proof. by destruct o. Qed.

Lemma res_bind_ok {A B} (r : res A) (f : A → res B) b : (a ← r; f a) = ROk b → ∃ a, r = ROk a ∧ f a = ROk b.
Proof. destruct r; cbn; [done|done|eauto]. Qed.

Lemma predirs_sound ts rs ts' : predirs ts = ROk (rs, ts') → ts = concat (map print_redir rs) ++ ts'.
Proof.
  revert rs. induction ts as [ts IH] using (induction_ltof1 _ length). unfold ltof in IH. intros rs.
  destruct ts as [|[w|c] ts]; cbn [predirs]; [by intros [= <- <-]|by intros [= <- <-]|].
  destruct (op_of c) as [o|] eqn:Eo; [|by intros [= <- <-]]. apply op_of_inv in Eo as ->.
  destruct ts as [|[f|d] ts]; [done| |done]. intros ([rs1 ts1] & E & [= <- <-])%res_bind_ok.
  rewrite (IH ts ltac:(simpl; lia) rs1 E). done.
Qed.

Lemma pitems_sound argc ts its ts' : (argc < MAXARGS)%nat → pitems argc ts = ROk (its, ts') →
  ts = concat (map print_item its) ++ ts' ∧ (argc + length (words its) < MAXARGS)%nat.
Proof.
  revert argc its. induction ts as [ts IH] using (induction_ltof1 _ length). unfold ltof in IH. intros argc its Ha.
  destruct ts as [|[w|c] ts]; cbn [pitems]; [intros [= <- <-]; split; [done|simpl; lia]| |].
  - case_bool_decide as Hm; [done|]. intros ([its1 ts1] & E & [= <- <-])%res_bind_ok.
    destruct (IH ts ltac:(simpl; lia) (S argc) its1 ltac:(lia) E) as [-> Hw]. split; [done|]. simpl. lia.
  - destruct (op_of c) as [o|] eqn:Eo.
    + apply op_of_inv in Eo as ->. destruct ts as [|[f|d] ts]; [done| |done]. intros ([its1 ts1] & E & [= <- <-])%res_bind_ok.
      destruct (IH ts ltac:(simpl; lia) argc its1 Ha E) as [-> Hw]. done.
    + destruct (strchr _ c); [|done]. intros [= <- <-]. split; [done|]. simpl. lia.
Qed.

Lemma pamps_sound ts : ts = replicate (pamps ts).1 (TSym c_amp) ++ (pamps ts).2.
Proof.
  induction ts as [|[w|c] ts IH]; [done|done|]. cbn [pamps]. destruct (Z.eqb_spec c c_amp) as [->|]; [|done]. cbn. by rewrite <- IH.
Qed.

Lemma starts_inv c ts : starts c ts = true → ts = TSym c :: tail_of ts.
Proof. destruct ts as [|[w|d] ts]; [done|done|]. simpl. by intros ->%Z.eqb_eq. Qed.

Lemma parse_sound n :
  (∀ ts l ts', pline n ts = ROk (l, ts') → ts = print_line l ++ ts' ∧ args_line l) ∧
  (∀ ts p ts', ppipe n ts = ROk (p, ts') → ts = print_pipe p ++ ts' ∧ args_pipe p) ∧
  (∀ ts e ts', pexec n ts = ROk (e, ts') → ts = print_exec e ++ ts' ∧ args_exec e) ∧
  (∀ ts e ts', pblock n ts = ROk (e, ts') → ts = print_exec e ++ ts' ∧ args_exec e).
Proof.
  induction n as [|n (IHl & IHp & IHe & IHb)]; [done|]. split; [|split; [|split]]; intros ts t ts'; cbn [pline ppipe pexec pblock].
  - intros ([p ts1] & Ep & H)%res_bind_ok. apply IHp in Ep as [-> Ha]. cbn [fst snd] in H. rewrite (pamps_sound ts1). destruct (pamps ts1) as [k ts2]. cbn [fst snd] in *.
    destruct (starts c_semi ts2) eqn:Es; [|injection H as <- <-; cbn [print_line args_line]; by rewrite app_assoc].
    apply res_bind_ok in H as ([l ts3] & El & [= <- <-]). apply IHl in El as [Et Hl]. rewrite (starts_inv _ _ Es), Et. cbn [print_line args_line].
    split; [by rewrite <- !app_assoc, <- app_comm_cons|done].
  - intros ([e ts1] & Ee & H)%res_bind_ok. apply IHe in Ee as [-> Ha]. cbn [fst snd] in H. destruct (starts c_bar ts1) eqn:Es; [|by injection H as <- <-].
    apply res_bind_ok in H as ([p ts3] & Ep & [= <- <-]). apply IHp in Ep as [Et Hp]. rewrite (starts_inv _ _ Es), Et. cbn [print_pipe args_pipe].
    split; [by rewrite <- !app_assoc, <- app_comm_cons|done].
  - destruct (starts c_open ts); [apply IHb|]. intros ([its ts1] & Ei & [= <- <-])%res_bind_ok. apply pitems_sound in Ei as [-> Ha]; [done|unfold MAXARGS; lia].
  - destruct (starts c_open ts) eqn:Es; [|done]. intros ([l ts1] & El & H)%res_bind_ok. apply IHl in El as [Et Ha]. cbn [fst snd] in H.
    destruct (starts c_close ts1) eqn:Ec; [|done]. apply res_bind_ok in H as ([rs ts2] & Er & [= <- <-]). apply predirs_sound in Er.
    rewrite (starts_inv _ _ Es), Et, (starts_inv _ _ Ec), Er. cbn [print_exec args_exec]. split; [|done]. cbn [tail_of]. by rewrite <- app_comm_cons, <- app_assoc, <- app_comm_cons.
Qed.

(** *** It accepts everything the grammar prints *)

Definition stops (ts : list tok) : Prop :=
  match ts with [] => True | TSym c :: _ => strchr [c_bar; c_close; c_amp; c_semi] c = true | _ => False end.

Lemma stops_op c ts : stops (TSym c :: ts) → op_of c = None.
Proof.
  cbn. unfold c_bar, c_close, c_amp, c_semi, op_of, c_less, c_greater, c_plus.
  destruct (Z.eqb_spec c 60) as [->|]; [done|]. destruct (Z.eqb_spec c 62) as [->|]; [done|]. destruct (Z.eqb_spec c 43) as [->|]; done.
Qed.

Lemma predirs_complete rs rest : stops rest → predirs (concat (map print_redir rs) ++ rest) = ROk (rs, rest).
Proof.
  intros Hr. induction rs as [|[o f] rs IH]; [|cbn; rewrite op_of_sym, IH; done].
  destruct rest as [|[w|c] rest]; [done|done|]. cbn [map concat app predirs]. by rewrite (stops_op c rest).
Qed.

Lemma pitems_complete argc its rest : stops rest → (argc + length (words its) < MAXARGS)%nat →
  pitems argc (concat (map print_item its) ++ rest) = ROk (its, rest).
Proof.
  intros Hr. revert argc. induction its as [|[w|[o f]] its IH]; intros argc Ha.
  - destruct rest as [|[w|c] rest]; [done|done|]. cbn [map concat app pitems]. rewrite (stops_op c rest) by done. cbn in Hr |- *. by rewrite Hr.
  - change (words (IWord w :: its)) with (w :: words its) in Ha. cbn [length] in Ha. cbn [map concat app pitems print_item]. rewrite bool_decide_false by lia. rewrite IH by lia. done.
  - cbn [map concat app pitems print_item print_redir]. rewrite op_of_sym, IH by done. done.
Qed.

Lemma pamps_complete k ts : starts c_amp ts = false → pamps (replicate k (TSym c_amp) ++ ts) = (k, ts).
Proof.
  intros Hs. induction k as [|k IH]; [|cbn [replicate app pamps]; rewrite Z.eqb_refl, IH; done].
  destruct ts as [|[w|c] ts]; [done|done|]. cbn in *. by rewrite Hs.
Qed.

Lemma items_start its rest : stops rest → starts c_open (concat (map print_item its) ++ rest) = false.
Proof.
  intros Hr. destruct its as [|[w|[o f]] its]; [|done|by destruct o]. destruct rest as [|[w|c] rest]; [done|done|].
  cbn in *. destruct (Z.eqb_spec c c_open) as [->|]; [by vm_compute in Hr|done].
Qed.

Definition closes (ts : list tok) : Prop := match ts with [] => True | TSym c :: _ => c = c_close | _ => False end.

Lemma closes_stops ts : closes ts → stops ts.
Proof. destruct ts as [|[w|c] ts]; [done|done|]. by intros ->. Qed.

Lemma closes_starts c ts : closes ts → c_close ≠ c → starts c ts = false.
Proof. destruct ts as [|[w|d] ts]; [done|done|]. cbn. intros -> Hc. by apply Z.eqb_neq. Qed.

Lemma amps_stops k rest : stops rest → stops (replicate k (TSym c_amp) ++ rest).
Proof. by destruct k. Qed.

Lemma parse_complete :
  (∀ l n rest, args_line l → closes rest → (4 * length (print_line l) + 4 ≤ n)%nat → pline n (print_line l ++ rest) = ROk (l, rest)) ∧
  (∀ p n rest, args_pipe p → stops rest → starts c_bar rest = false → (4 * length (print_pipe p) + 3 ≤ n)%nat → ppipe n (print_pipe p ++ rest) = ROk (p, rest)) ∧
  (∀ e n rest, args_exec e → stops rest → (4 * length (print_exec e) + 2 ≤ n)%nat → pexec n (print_exec e ++ rest) = ROk (e, rest)).
Proof.
  apply syntax_ind.
  - intros p IH k [|n] rest Ha Hr Hn; [lia|]. cbn [print_line args_line] in *. rewrite length_app in Hn. cbn [pline]. rewrite <- app_assoc, IH; [|done|by apply amps_stops, closes_stops| |lia].
    + cbn [mbind res_bind fst snd]. rewrite pamps_complete by (by apply closes_starts). cbn [fst snd]. by rewrite closes_starts.
    + destruct k; [by apply closes_starts|done].
  - intros p IH k l IHl [|n] rest [Hp Hl] Hr Hn; [lia|]. cbn [print_line] in *. rewrite !length_app in Hn. cbn [length] in Hn. cbn [pline].
    rewrite <- !app_assoc, <- app_comm_cons, IH; [|done|by apply amps_stops|by destruct k|lia]. cbn [mbind res_bind fst snd]. rewrite pamps_complete by done. cbn [fst snd starts tail_of].
    rewrite Z.eqb_refl, IHl by (done || lia). done.
  - intros e IH [|n] rest Ha Hr Hb Hn; [lia|]. cbn [print_pipe args_pipe] in *. cbn [ppipe]. rewrite IH by (done || lia). cbn [mbind res_bind fst snd]. by rewrite Hb.
  - intros e IH p IHp [|n] rest [He Hp] Hr Hb Hn; [lia|]. cbn [print_pipe] in *. rewrite !length_app in Hn. cbn [length] in Hn. cbn [ppipe].
    rewrite <- !app_assoc, <- app_comm_cons, IH by (done || lia). cbn [mbind res_bind fst snd starts tail_of]. rewrite Z.eqb_refl, IHp by (done || lia). done.
  - intros l IH rs [|[|n]] rest Ha Hr Hn; [lia|lia|]. cbn [print_exec args_exec] in *. cbn [length] in Hn. rewrite length_app in Hn. cbn [length] in Hn. cbn [pexec pblock].
    rewrite <- app_comm_cons. cbn [starts tail_of]. rewrite Z.eqb_refl, <- app_assoc, <- app_comm_cons, IH by (done || lia). cbn [mbind res_bind fst snd starts tail_of].
    rewrite Z.eqb_refl, predirs_complete by done. done.
  - intros its [|n] rest Ha Hr Hn; [lia|]. cbn [print_exec args_exec] in *. cbn [pexec]. rewrite items_start, pitems_complete by done. done.
Qed.

(** *** Four units of fuel per token are enough *)

Lemma predirs_fuel ts : predirs ts ≠ RFuel.
Proof.
  induction ts as [ts IH] using (induction_ltof1 _ length). unfold ltof in IH. destruct ts as [|[w|c] ts]; [done|done|]. cbn [predirs].
  destruct (op_of c); [|done]. destruct ts as [|[f|d] ts]; [done| |done]. specialize (IH ts ltac:(simpl; lia)). by destruct (predirs ts).
Qed.

Lemma pitems_fuel argc ts : pitems argc ts ≠ RFuel.
Proof.
  revert argc. induction ts as [ts IH] using (induction_ltof1 _ length). unfold ltof in IH. intros argc. destruct ts as [|[w|c] ts]; [done| |]; cbn [pitems].
  - case_bool_decide; [done|]. specialize (IH ts ltac:(simpl; lia) (S argc)). by destruct (pitems (S argc) ts).
  - destruct (op_of c); [|by destruct (strchr _ c)]. destruct ts as [|[f|d] ts]; [done| |done]. specialize (IH ts ltac:(simpl; lia) argc). by destruct (pitems argc ts).
Qed.

Lemma res_bind_fuel {A B} (r : res A) (f : A → res B) : r ≠ RFuel → (∀ a, r = ROk a → f a ≠ RFuel) → (a ← r; f a) ≠ RFuel.
Proof. destruct r; cbn; [done|done|]. eauto. Qed.

Lemma parse_fuel n : ∀ ts,
  ((4 * length ts + 4 ≤ n)%nat → pline n ts ≠ RFuel) ∧ ((4 * length ts + 3 ≤ n)%nat → ppipe n ts ≠ RFuel) ∧
  ((4 * length ts + 2 ≤ n)%nat → pexec n ts ≠ RFuel) ∧ ((4 * length ts + 1 ≤ n)%nat → pblock n ts ≠ RFuel).
Proof.
  induction n as [|n IH]; intros ts; [repeat split; lia|]. destruct (parse_sound n) as (SL & SP & SE & SB).
  assert (Hlen : ∀ (a b c : list tok), a = b ++ c → (length c ≤ length a)%nat) by (intros a b c ->; rewrite length_app; lia).
  assert (Htl : ∀ c ts, starts c ts = true → S (length (tail_of ts)) = length ts) by (intros c [|[w|d] ts']; done).
  split; [|split; [|split]]; intros Hn; cbn [pline ppipe pexec pblock].
  - apply res_bind_fuel; [apply IH; lia|]. intros [p ts1] Ep. apply SP in Ep as [Ep _]. apply Hlen in Ep. cbn [fst snd]. pose proof (Hlen _ _ _ (pamps_sound ts1)).
    destruct (starts c_semi (pamps ts1).2) eqn:Es; [|done]. pose proof (Htl _ _ Es). apply res_bind_fuel; [apply IH; lia|done].
  - apply res_bind_fuel; [apply IH; lia|]. intros [e ts1] Ee. apply SE in Ee as [Ee _]. apply Hlen in Ee. cbn [fst snd].
    destruct (starts c_bar ts1) eqn:Es; [|done]. pose proof (Htl _ _ Es). apply res_bind_fuel; [apply IH; lia|done].
  - destruct (starts c_open ts); [apply IH; lia|]. apply res_bind_fuel; [apply pitems_fuel|done].
  - destruct (starts c_open ts) eqn:Es; [|done]. pose proof (Htl _ _ Es). apply res_bind_fuel; [apply IH; lia|]. intros [l ts1] _. cbn [fst snd].
    destruct (starts c_close ts1); [|done]. apply res_bind_fuel; [apply predirs_fuel|done].
Qed.

(** ** Commands in the node store *)

(** The node [c] of the store [l] is the command [t]; [W q e w] says that the
    pointers [q] and [e] delimit the word [w]. *)
Fixpoint denotes (W : nat → nat → list Z → Prop) (l : list node) (c : nat) (t : cmd) : Prop :=
  match t with
  | Exec ws => (length ws < MAXARGS)%nat ∧ ∃ qs es, Forall3 W qs es ws ∧
      l !! c = Some (NExec ((Some <$> qs) ++ replicate (MAXARGS - length ws) None) ((Some <$> es) ++ replicate (MAXARGS - length ws) None))
  | Redir t' f mode fd => ∃ c' q e, l !! c = Some (NRedir c' q e mode fd) ∧ (c' < c)%nat ∧ W q e f ∧ denotes W l c' t'
  | Pipe t1 t2 => ∃ c1 c2, l !! c = Some (NPipe c1 c2) ∧ (c1 < c)%nat ∧ (c2 < c)%nat ∧ denotes W l c1 t1 ∧ denotes W l c2 t2
  | List t1 t2 => ∃ c1 c2, l !! c = Some (NList c1 c2) ∧ (c1 < c)%nat ∧ (c2 < c)%nat ∧ denotes W l c1 t1 ∧ denotes W l c2 t2
  | Back t' => ∃ c', l !! c = Some (NBack c') ∧ (c' < c)%nat ∧ denotes W l c' t'
  end.

Definition extends (l l' : list node) : Prop := ∀ i n, l !! i = Some n → l' !! i = Some n.

Lemma extends_refl l : extends l l.
Proof. by intros i n. Qed.

Lemma extends_trans l1 l2 l3 : extends l1 l2 → extends l2 l3 → extends l1 l3.
Proof. intros H1 H2 i n Hi. by apply H2, H1. Qed.

Lemma extends_app l k : extends l (l ++ k).
Proof. intros i n Hi. by apply lookup_app_l_Some. Qed.

Lemma denotes_mono W W' l l' c t : (∀ q e w, W q e w → W' q e w) → extends l l' → denotes W l c t → denotes W' l' c t.
Proof.
  intros HW Hl. revert c. induction t as [ws|t IH f mode fd|t1 IH1 t2 IH2|t1 IH1 t2 IH2|t IH]; intros c; cbn [denotes].
  - intros (Hn & qs & es & H3 & Hc). split; [done|]. exists qs, es. split; [|by apply Hl]. by apply (Forall3_impl W W' _ _ _ H3).
  - intros (c' & q & e & Hc & Hlt & Hw & Hd). exists c', q, e. split; [by apply Hl|]. split; [done|]. split; [by apply HW|by apply IH].
  - intros (c1 & c2 & Hc & L1 & L2 & D1 & D2). exists c1, c2. split; [by apply Hl|]. repeat split; auto.
  - intros (c1 & c2 & Hc & L1 & L2 & D1 & D2). exists c1, c2. split; [by apply Hl|]. repeat split; auto.
  - intros (c' & Hc & Hlt & Hd). exists c'. split; [by apply Hl|]. repeat split; auto.
Qed.

Definition redir_mode (o : rop) : Z :=
  match o with RIn => O_RDONLY | ROut => Z.lor (Z.lor O_WRONLY O_CREATE) O_TRUNC | RApp => Z.lor O_WRONLY O_CREATE end.
Definition redir_fd (o : rop) : Z := match o with RIn => 0 | _ => 1 end.

(** [c] is [x] inside the redirections [rs], the first one innermost. *)
Fixpoint wraps (W : nat → nat → list Z → Prop) (l : list node) (x : nat) (rs : list redir) (c : nat) : Prop :=
  match rs with
  | [] => c = x
  | Rd o f :: rs' => ∃ c1 q e, l !! c1 = Some (NRedir x q e (redir_mode o) (redir_fd o)) ∧ (x < c1)%nat ∧ W q e f ∧ wraps W l c1 rs' c
  end.

Lemma wraps_mono W l l' x rs c : (∀ i x' q e m fd, l !! i = Some (NRedir x' q e m fd) → l' !! i = Some (NRedir x' q e m fd)) → wraps W l x rs c → wraps W l' x rs c.
Proof.
  intros Hl. revert x. induction rs as [|[o f] rs IH]; intros x; [done|]. intros (c1 & q & e & Hc & Hlt & Hw & Hr). exists c1, q, e. split; [by apply Hl|]. auto.
Qed.

Lemma wraps_app W l x rs rs' c : wraps W l x (rs ++ rs') c ↔ ∃ y, wraps W l x rs y ∧ wraps W l y rs' c.
Proof.
  revert x. induction rs as [|[o f] rs IH]; intros x; cbn [app wraps].
  - split; [by exists x|]. by intros (y & -> & H).
  - setoid_rewrite IH. split.
    + intros (c1 & q & e & Hc & Hlt & Hw & y & H1 & H2). exists y. split; [|done]. by exists c1, q, e.
    + intros (y & (c1 & q & e & Hc & Hlt & Hw & H1) & H2). exists c1, q, e. split; [done|]. split; [done|]. split; [done|]. by exists y.
Qed.

Lemma wraps_denotes W l x rs c t : wraps W l x rs c → denotes W l x t → denotes W l c (foldl wrap t rs).
Proof.
  revert x t. induction rs as [|[o f] rs IH]; intros x t; [by intros ->|]. intros (c1 & q & e & Hc & Hlt & Hw & Hr) Hd. cbn [foldl].
  apply (IH c1 _ Hr). destruct o; cbn; by exists x, q, e.
Qed.

(** ** Simulation of the token parser *)

(** Running [m] from [st] ends as [r] says; a result satisfies [Q]. *)
Definition simulates {A B} (m : M shst A) (st : shst) (r : res B) (Q : B → A → shst → Prop) : Prop :=
  match r with RFuel => m st = NoFuel | RErr msg => m st = Panic msg | ROk b => wp m (Q b) st end.

Lemma sim_bind {A A' B B'} (m : M shst A) (k : A → M shst A') st (r : res B) (f : B → res B') Q Q' :
  simulates m st r Q → (∀ b a st', r = ROk b → Q b a st' → simulates (k a) st' (f b) Q') → simulates (a ← m; k a) st (b ← r; f b) Q'.
Proof.
  intros Hm Hk. destruct r as [|msg|b]; unfold simulates in Hm; unfold mbind at 2, res_bind; [unfold simulates, mbind, M_bind; by rewrite Hm|unfold simulates, mbind, M_bind; by rewrite Hm|].
  destruct (proj1 (wp_ok _ _ _) Hm) as (a & st' & E & HQ). specialize (Hk b a st' eq_refl HQ). unfold simulates in *. unfold wp, mbind, M_bind in *. rewrite E. done.
Qed.

Lemma sim_step {A A' B} (m : M shst A) (k : A → M shst A') st (r : res B) P Q :
  wp m P st → (∀ a st', P a st' → simulates (k a) st' r Q) → simulates (a ← m; k a) st r Q.
Proof.
  intros Hm Hk. destruct (proj1 (wp_ok _ _ _) Hm) as (a & st' & E & HP). specialize (Hk a st' HP). unfold simulates in *. unfold wp, mbind, M_bind in *. by rewrite E.
Qed.

Lemma sim_mono {A B} (m : M shst A) st (r : res B) (Q Q' : B → A → shst → Prop) :
  (∀ b a st', Q b a st' → Q' b a st') → simulates m st r Q → simulates m st r Q'.
Proof. intros H. destruct r; [done|done|]. apply wp_mono. eauto. Qed.

Lemma sim_assoc {A A' A'' B} (m : M shst A) (f : A → M shst A') (g : A' → M shst A'') st (r : res B) Q :
  simulates (a ← m; b ← f a; g b) st r Q → simulates (b ← (a ← m; f a); g b) st r Q.
Proof. unfold simulates, wp, mbind, M_bind. by destruct (m st). Qed.

Lemma sim_iter {A A' B} n (body : A → M shst (A + A')) a st (r : res B) Q :
  simulates (x ← body a; match x with inl a' => iterM n body a' | inr b => mret b end) st r Q → simulates (iterM (S n) body a) st r Q.
Proof. done. Qed.

Lemma sim_ret {A B} (a : A) st (b : B) (Q : B → A → shst → Prop) : Q b a st → simulates (mret a) st (ROk b) Q.
Proof. done. Qed.

Lemma sim_map {A B B'} (m : M shst A) st (r : res B) (g : B → B') (Q : B → A → shst → Prop) (Q' : B' → A → shst → Prop) :
  simulates m st r Q → (∀ b a st', Q b a st' → Q' (g b) a st') → simulates m st (b ← r; ROk (g b)) Q'.
Proof. intros Hm HQ. destruct r; [done|done|]. eapply wp_mono; [|exact Hm]. eauto. Qed.

Lemma extends_length l l' : extends l l' → (length l ≤ length l')%nat.
Proof.
  intros He. destruct (decide (length l ≤ length l')%nat); [done|]. destruct (lookup_lt_is_Some_2 l (length l')) as [m Hm]; [lia|].
  apply He, lookup_lt_Some in Hm. lia.
Qed.

Lemma length_lex cur s : (length (lex cur s) ≤ length s + length (flush cur))%nat.
Proof.
  revert cur. induction s as [s IH] using (induction_ltof1 _ length). unfold ltof in IH. intros cur. destruct s as [|c s]; [done|]. cbn [lex].
  pose proof (IH s ltac:(simpl; lia) []) as IH1. cbn [flush length] in IH1.
  destruct (white c); [rewrite length_app; cbn [length]; lia|]. destruct (c =? c_greater).
  - rewrite length_app. destruct s as [|d s]; [cbn; lia|]. destruct (d =? c_greater); [|cbn [length] in *; lia].
    pose proof (IH s ltac:(simpl; lia) []). cbn [flush length] in *. lia.
  - destruct (sym c); [rewrite length_app; cbn [length]; lia|]. pose proof (IH s ltac:(simpl; lia) (cur ++ [c])) as H. cbn [length].
    assert (length (flush (cur ++ [c])) = 1)%nat by (by destruct cur). lia.
Qed.

(** ** Positions *)

Section line.
Variable s : list Z.
Hypothesis Htext : Forall (λ c, c ≠ 0) s.

Lemma deref_line p : deref (s ++ [0]) p = default 0 (s !! p).
Proof.
  unfold deref. destruct (decide (p < length s)%nat); [by rewrite lookup_app_l|]. rewrite lookup_app_r, (lookup_ge_None_2 s) by lia.
  destruct (p - length s)%nat as [|[|]]; done.
Qed.

Lemma deref_drop p : deref (s ++ [0]) p = match drop p s with c :: _ => c | [] => 0 end.
Proof.
  rewrite deref_line. replace (s !! p) with (drop p s !! 0%nat) by (by rewrite lookup_drop, Nat.add_0_r). by destruct (drop p s).
Qed.

Lemma skip_while_spec f p : (p ≤ length s)%nat → ∃ u v, drop p s = u ++ v ∧ Forall (λ c, f c = true) u ∧
  match v with [] => True | d :: _ => f d = false end ∧ skip_while f (s ++ [0]) (length s - p) p = (p + length u)%nat.
Proof.
  intros Hp. remember (length s - p)%nat as n eqn:En. revert p Hp En. induction n as [|n IH]; intros p Hp En; cbn [skip_while].
  - exists [], []. rewrite drop_ge by lia. split; [done|]. split; [done|]. split; [done|]. simpl. lia.
  - rewrite deref_drop. destruct (drop p s) as [|c r] eqn:Ed; [apply (f_equal length) in Ed; rewrite length_drop in Ed; simpl in Ed; lia|].
    assert (Er : drop (S p) s = r) by (replace (S p) with (p + 1)%nat by lia; by rewrite <- drop_drop, Ed).
    destruct (f c) eqn:Hc; [|exists [], (c :: r); cbn [length]; rewrite Nat.add_0_r; done].
    destruct (IH (S p)) as (u & v & E & Hu & Hv & ->); [lia|lia|]. exists (c :: u), v. rewrite Er in E. split; [by rewrite E|]. split; [by constructor|]. split; [done|]. simpl. lia.
Qed.

Lemma drop_skip p u v : drop p s = u ++ v → drop (p + length u) s = v ∧ (p ≤ length s → p + length u ≤ length s)%nat.
Proof.
  intros E. rewrite <- drop_drop, E, drop_app_length. split; [done|]. intros Hp. apply (f_equal length) in E. rewrite length_drop, length_app in E. lia.
Qed.

Lemma skip_white_spec p : (p ≤ length s)%nat → let p' := skip_white (s ++ [0]) (length s) p in
  (p ≤ p' ≤ length s)%nat ∧ lex [] (drop p' s) = lex [] (drop p s) ∧ match drop p' s with [] => True | d :: _ => white d = false end.
Proof.
  intros Hp p'. destruct (skip_while_spec white p Hp) as (u & v & E & Hu & Hv & Es).
  assert (Ep : p' = (p + length u)%nat) by exact Es. clearbody p'. subst p'. destruct (drop_skip p u v E) as [-> Hl]. split; [lia|]. split; [by rewrite E, lex_white|done].
Qed.

(** The words of a command, as positions in the line. *)
Definition word (q e : nat) (w : list Z) : Prop :=
  take (e - q) (drop q s) = w ∧ (q ≤ e ≤ length s)%nat ∧ Forall (λ c, wordc c = true) w ∧
  match drop e s with [] => True | d :: _ => wordc d = false end.

(** The parser is at a position whose remaining tokens are [ts], with the store
    [l]. *)
Definition at_toks (ts : list tok) (l : list node) (st : shst) : Prop :=
  buf st = s ++ [0] ∧ es st = length s ∧ (ps st ≤ length s)%nat ∧ nodes st = l ∧ lex [] (drop (ps st) s) = ts.

Definition head_is (toks : list Z) (ts : list tok) : bool :=
  match ts with TSym c :: _ => strchr toks (if c =? c_plus then c_greater else c) | _ => false end.

Lemma peek_ok toks ts l st (Q : bool → shst → Prop) : (∀ c, c ∈ toks → sym c = true) → at_toks ts l st →
  (∀ st', at_toks ts l st' → Q (head_is toks ts) st') → wp (peek toks) Q st.
Proof.
  intros Hsy (Hb & He & Hp & Hl & Ht) HQ. unfold peek. apply wp_bind, wp_get, wp_bind, wp_put, wp_ret. rewrite Hb, He.
  destruct (skip_white_spec (ps st) Hp) as (Hr & Hlex & Hnw). set (p' := skip_white _ _ _) in *. rewrite Ht in Hlex.
  assert (E : negb (deref (s ++ [0]) p' =? 0) && strchr toks (deref (s ++ [0]) p') = head_is toks ts).
  { rewrite deref_drop, <- Hlex. destruct (drop p' s) as [|c r] eqn:Ed; [done|].
    assert (Hc0 : c ≠ 0). { rewrite Forall_forall in Htext. apply Htext. rewrite <- (take_drop p' s), Ed. apply elem_of_app. right. constructor. }
    rewrite (proj2 (Z.eqb_neq _ _) Hc0). cbn [negb andb lex]. rewrite Hnw. cbn [flush app].
    destruct (Z.eqb_spec c c_greater) as [->|Hg]; [destruct r as [|d r]; [done|]; by destruct (d =? c_greater)|].
    destruct (sym c) eqn:Hs; [cbn [head_is]; destruct (Z.eqb_spec c c_plus) as [->|]; [by vm_compute in Hs|done]|].
    assert (Ht' : strchr toks c = false). { apply not_true_is_false. intros [x [Hx E%Z.eqb_eq]]%existsb_exists. subst x. apply list_elem_of_In in Hx. rewrite (Hsy c Hx) in Hs. done. }
    rewrite Ht'. symmetry. destruct (skip_while_spec wordc p' ltac:(lia)) as (u & v & E & Hu & Hv & _). rewrite Ed in E.
    destruct u as [|c' u]; [simpl in E; subst v; unfold wordc in Hv; rewrite Hnw, Hs in Hv; done|]. injection E as <- ->. apply Forall_cons in Hu as [_ Hu].
    rewrite (lex_word [c] u v Hu Hv ltac:(done)). done. }
  rewrite E. apply HQ. repeat split; cbn; try done; lia.
Qed.

(** What [gettoken] returns for each kind of token. *)
Definition token_ok (ts : list tok) (r : Z * nat * nat) (ts' : list tok) : Prop :=
  match ts with
  | [] => r.1.1 = 0 ∧ ts' = []
  | TSym c :: ts1 => r.1.1 = c ∧ ts' = ts1 ∧ c ≠ c_a ∧ c ≠ 0
  | TWord w :: ts1 => r.1.1 = c_a ∧ ts' = ts1 ∧ word r.1.2 r.2 w
  end.

Lemma sym_cases c : sym c = existsb (Z.eqb c) [c_bar; c_open; c_close; c_semi; c_amp; c_less] || (c =? c_greater).
Proof.
  unfold sym, strchr, symbols, c_bar, c_open, c_close, c_semi, c_amp, c_less, c_greater. cbn [existsb].
  destruct (c =? 60), (c =? 124), (c =? 62), (c =? 38), (c =? 59), (c =? 40), (c =? 41); reflexivity.
Qed.

Lemma at_pos p l st : at_toks (lex [] (drop (ps st) s)) l st → (p ≤ length s)%nat →
  at_toks (lex [] (drop p s)) l (set_ps (skip_white (s ++ [0]) (length s) p) st).
Proof.
  intros (Hb & He & _ & Hl & _) Hp. destruct (skip_white_spec p Hp) as (Hr & Hlex & _). repeat split; cbn; try done. lia.
Qed.

Lemma gettoken_ok ts l st (Q : Z * nat * nat → shst → Prop) : at_toks ts l st →
  (∀ r ts' st', token_ok ts r ts' → at_toks ts' l st' → Q r st') → wp gettoken Q st.
Proof.
  intros Hat HQ. pose proof Hat as (Hb & He & Hp & Hl & Ht). rewrite <- Ht in Hat. unfold gettoken. apply wp_bind, wp_get. cbv zeta. rewrite Hb, He.
  destruct (skip_white_spec (ps st) Hp) as (Hr & Hlex & Hnw). set (q := skip_white _ _ (ps st)) in *. clearbody q. rewrite Ht in Hlex.
  assert (Hend : ∀ ret eq, (eq ≤ length s)%nat → token_ok ts (ret, q, eq) (lex [] (drop eq s)) →
    wp (putS (set_ps (skip_white (s ++ [0]) (length s) eq) st);; mret (ret, q, eq)) Q st).
  { intros ret eq Heq Hok. apply wp_bind, wp_put, wp_ret. apply (HQ _ _ _ Hok). by apply at_pos. }
  rewrite deref_drop. destruct (drop q s) as [|c r] eqn:Ed.
  { apply Hend; [lia|]. rewrite <- Hlex, Ed. done. }
  assert (Hc0 : c ≠ 0). { rewrite Forall_forall in Htext. apply Htext. rewrite <- (take_drop q s), Ed. apply elem_of_app. right. constructor. }
  rewrite (proj2 (Z.eqb_neq _ _) Hc0). destruct (drop_skip q [c] r Ed) as [Er Hql]. cbn [length] in Er, Hql. replace (q + 1)%nat with (S q) in Er, Hql by lia.
  cbn [lex] in Hlex. rewrite Hnw in Hlex. cbn [flush app] in Hlex. pose proof (sym_cases c) as Hsc. destruct (existsb (Z.eqb c) _) eqn:Ex.
  - assert (Hg : c ≠ c_greater) by (intros ->; by vm_compute in Ex). rewrite (proj2 (Z.eqb_neq _ _) Hg) in Hlex. cbn [orb] in Hsc. rewrite Hsc in Hlex.
    apply Hend; [lia|]. rewrite <- Hlex, Er. cbn. repeat split; try done. intros ->. by vm_compute in Ex.
  - destruct (Z.eqb_spec c c_greater) as [->|Hg].
    + rewrite deref_drop, Er. destruct r as [|d r]; [apply Hend; [lia|]; rewrite <- Hlex, Er; done|]. destruct (Z.eqb_spec d c_greater) as [->|Hd].
      * destruct (drop_skip (S q) [c_greater] r Er) as [Er2 Hl2]. cbn [length] in Er2, Hl2. replace (S q + 1)%nat with (S (S q)) in Er2, Hl2 by lia.
        apply Hend; [lia|]. rewrite <- Hlex, Er2. done.
      * apply Hend; [lia|]. rewrite <- Hlex, Er. done.
    + cbn [orb] in Hsc. rewrite Hsc in Hlex.
      destruct (skip_while_spec wordc q ltac:(lia)) as (u & v & E & Hu & Hv & Es). assert (Ew : skip_word (s ++ [0]) (length s) q = (q + length u)%nat) by exact Es.
      rewrite Ew. destruct (drop_skip q u v E) as [Ev Hl2]. apply Hend; [lia|]. rewrite Ed in E.
      destruct u as [|c' u]; [simpl in E; subst v; unfold wordc in Hv; rewrite Hnw, Hsc in Hv; done|]. injection E as <- ->.
      assert (Hu' := Hu). apply Forall_cons in Hu' as [_ Hu']. rewrite (lex_word [c] u v Hu' Hv ltac:(done)) in Hlex. rewrite <- Hlex, Ev. cbn.
      cbn [length] in *. split; [done|]. split; [done|]. split; [|split; [lia|split; [done|by rewrite Ev]]].
      rewrite Ed. replace (q + S (length u) - q)%nat with (length (c :: u)) by (cbn; lia). change (c :: u ++ v) with ((c :: u) ++ v). by rewrite take_app_length.
Qed.

(** *** The loops *)

Lemma at_length ts l st : at_toks ts l st → (length ts ≤ length s)%nat.
Proof. intros (_ & _ & _ & _ & <-). pose proof (length_lex [] (drop (ps st) s)). cbn [flush length] in *. rewrite length_drop in *. lia. Qed.

Lemma alloc_ok n ts l st : at_toks ts l st → wp (alloc n) (λ c st', c = length l ∧ at_toks ts (l ++ [n]) st') st.
Proof. intros (Hb & He & Hp & Hl & Ht). apply wp_bind, wp_get, wp_bind, wp_put, wp_ret. rewrite Hl. done. Qed.

Lemma syms_ok toks : forallb sym toks = true → ∀ c, c ∈ toks → sym c = true.
Proof. rewrite forallb_forall. intros H c Hc. by apply H, list_elem_of_In. Qed.

Lemma sim_peek {A B} toks (k : bool → M shst A) ts l st (r : res B) Q : forallb sym toks = true → at_toks ts l st →
  (∀ st', at_toks ts l st' → simulates (k (head_is toks ts)) st' r Q) → simulates (b ← peek toks; k b) st r Q.
Proof.
  intros Hs Hat Hk. eapply (sim_step _ _ _ _ (λ b st', b = head_is toks ts ∧ at_toks ts l st')); [|intros ? st' [-> H]; by apply Hk].
  apply (peek_ok toks ts l); [by apply syms_ok|done|done].
Qed.

Lemma sim_gettoken {A B} (k : Z * nat * nat → M shst A) ts l st (r : res B) Q : at_toks ts l st →
  (∀ t ts' st', token_ok ts t ts' → at_toks ts' l st' → simulates (k t) st' r Q) → simulates (t ← gettoken; k t) st r Q.
Proof.
  intros Hat Hk. eapply (sim_step _ _ _ _ (λ t st', ∃ ts', token_ok ts t ts' ∧ at_toks ts' l st')); [|intros t st' (ts' & H1 & H2); by eapply Hk].
  apply (gettoken_ok ts l); [done|]. eauto.
Qed.

Lemma sim_alloc {A B} n (k : nat → M shst A) ts l st (r : res B) Q : at_toks ts l st →
  (∀ st', at_toks ts (l ++ [n]) st' → simulates (k (length l)) st' r Q) → simulates (c ← alloc n; k c) st r Q.
Proof. intros Hat Hk. eapply sim_step; [by apply (alloc_ok n ts l)|]. intros c st' [-> H]. by apply Hk. Qed.

Lemma head_is_op c ts : head_is [c_less; c_greater] (TSym c :: ts) = match op_of c with Some _ => true | None => false end.
Proof.
  cbn. unfold op_of. destruct (Z.eqb_spec c c_plus) as [->|]; [done|]. destruct (c =? c_less), (c =? c_greater); done.
Qed.

(** The result of parsing [t] and leaving [ts']: a node of a larger store. *)
Definition parsed {T} (sem : T → cmd) (l : list node) (r : T * list tok) (c : nat) (st : shst) : Prop :=
  ∃ l', extends l l' ∧ at_toks r.2 l' st ∧ (c < length l')%nat ∧ denotes word l' c (sem r.1).

Definition wrapped (x : nat) (l : list node) (r : list redir * list tok) (c : nat) (st : shst) : Prop :=
  ∃ l', extends l l' ∧ at_toks r.2 l' st ∧ (c < length l')%nat ∧ wraps word l' x r.1 c.

Lemma redirs_sim n x ts l st : at_toks ts l st → (x < length l)%nat → (length ts < n)%nat →
  simulates (iterM n redirs_body x) st (predirs ts) (wrapped x l).
Proof.
  revert x ts l st. induction n as [|n IH]; intros x ts l st Hat Hx Hn; [lia|]. apply sim_iter. unfold redirs_body.
  apply sim_assoc, (sim_peek _ _ ts l); [done|done|]. clear st Hat. intros st Hat.
  assert (Hnone : wrapped x l ([], ts) x st) by (exists l; split; [apply extends_refl|done]).
  destruct ts as [|[w|c] ts]; [by apply sim_ret|by apply sim_ret|]. rewrite head_is_op. cbn [predirs].
  destruct (op_of c) as [o|] eqn:Eo; [|by apply sim_ret]. apply op_of_inv in Eo as ->. clear Hnone.
  apply sim_assoc, (sim_gettoken _ _ _ _ _ _ Hat). clear st Hat. intros [[tk q0] e0] ts1 st (Htk & -> & _ & _) Hat. cbn [fst snd] in Htk. subst tk.
  apply sim_assoc, (sim_gettoken _ _ _ _ _ _ Hat). clear st Hat. intros [[a q] e] ts2 st Htok Hat.
  destruct ts as [|[f|d] ts]; cbn in Htok; [by destruct Htok as [-> ->]| |destruct Htok as (-> & -> & Hca & _); by rewrite (proj2 (Z.eqb_neq _ _) Hca)].
  destruct Htok as (-> & -> & Hw). rewrite Z.eqb_refl. cbn [negb].
  assert (Hgo : ∀ st', at_toks ts (l ++ [NRedir x q e (redir_mode o) (redir_fd o)]) st' →
    simulates (iterM n redirs_body (length l)) st' (r ← predirs ts; ROk (Rd o f :: r.1, r.2)) (wrapped x l)).
  { intros st' Hat'. eapply sim_map; [apply (IH _ _ _ _ Hat'); [rewrite length_app; simpl; lia|cbn [length] in Hn; lia]|].
    intros [rs ts'] c st2 (l' & He & Hat2 & Hc & Hwr). cbn [fst snd] in *. exists l'. split; [eapply extends_trans; [apply extends_app|done]|]. split; [done|]. split; [done|].
    exists (length l), q, e. split; [apply He; rewrite lookup_app_r, Nat.sub_diag by lia; done|done]. }
  destruct o; cbn [op_sym]; apply sim_assoc, (sim_alloc _ _ ts l); done.
Qed.

(** The command being built: the exec node [x] holds the words [ws] so far, [ret]
    is [x] inside the redirections [rs]. *)
Record building (l0 : list node) (x : nat) (rs : list redir) (ws : list (list Z)) (ret : nat) (l : list node) : Prop := {
  B_ext : extends l0 l;
  B_new : l0 !! x = None;
  B_ret : (ret < length l)%nat;
  B_wrap : wraps word l x rs ret;
  B_exec : denotes word l x (Exec ws);
}.

Lemma arg_insert (qs : list nat) q k : length qs = k → (k < MAXARGS)%nat →
  <[k := Some q]> ((Some <$> qs) ++ replicate (MAXARGS - k) None) = (Some <$> (qs ++ [q])) ++ replicate (MAXARGS - S k) None.
Proof.
  intros <- Hlt. rewrite insert_app_r_alt by (rewrite length_fmap; lia). rewrite length_fmap, Nat.sub_diag.
  replace (MAXARGS - length qs)%nat with (S (MAXARGS - S (length qs))) by lia. cbn [replicate]. rewrite fmap_app, <- app_assoc. done.
Qed.

Lemma Forall3_lengths {A B C} (P : A → B → C → Prop) l k k' : Forall3 P l k k' → length l = length k' ∧ length k = length k'.
Proof. induction 1 as [|x y z l k k' _ _ [IH1 IH2]]; cbn; [done|lia]. Qed.

Lemma set_arg_ok l0 x rs ws ret l q e w ts st : at_toks ts l st → building l0 x rs ws ret l → word q e w →
  wp (set_arg x (length ws) (Some q) (Some e)) (λ _ st', ∃ l', at_toks ts l' st' ∧
    ((S (length ws) < MAXARGS)%nat → building l0 x rs (ws ++ [w]) ret l')) st.
Proof.
  intros (Hb & He & Hp & Hl & Ht) [Bx Bn Br Bw (Hlt & qs & es & H3 & Hx)] Hw. destruct (Forall3_lengths _ _ _ _ H3) as [L1 L2].
  unfold set_arg. apply wp_bind, wp_get. rewrite Hl, Hx. apply wp_put. rewrite !arg_insert by done. eexists (<[x := _]> l). split; [done|]. intros Hlt'. split.
  - intros i n Hi. rewrite list_lookup_insert_ne; [by apply Bx|]. intros ->. congruence.
  - done.
  - by rewrite length_insert.
  - eapply wraps_mono; [|done]. intros i x' q' e' m fd Hi. rewrite list_lookup_insert_ne; [done|]. intros ->. congruence.
  - cbn [denotes]. rewrite length_app. cbn [length]. replace (length ws + 1)%nat with (S (length ws)) by lia. split; [done|]. exists (qs ++ [q]), (es ++ [e]).
    split; [apply Forall3_app; [done|constructor; [done|constructor]]|]. apply list_lookup_insert_eq. by apply lookup_lt_Some in Hx.
Qed.

Lemma parseredirs_sim x ts l st : at_toks ts l st → (x < length l)%nat → simulates (parseredirs x) st (predirs ts) (wrapped x l).
Proof.
  intros Hat Hx. unfold parseredirs. eapply (sim_step _ _ _ _ (λ e st', e = length s ∧ st' = st)); [apply wp_gets; by destruct Hat as (_ & -> & _)|].
  intros e st' [-> ->]. apply redirs_sim; [done|done|]. pose proof (at_length _ _ _ Hat). lia.
Qed.

Lemma building_redirs l0 x rs ws ret l rs' ts' ret' st : building l0 x rs ws ret l → wrapped ret l (rs', ts') ret' st →
  ∃ l', at_toks ts' l' st ∧ building l0 x (rs ++ rs') ws ret' l'.
Proof.
  intros [Bx Bn Br Bw Be] (l' & He & Hat & Hc & Hw). exists l'. split; [done|]. split; [by eapply extends_trans|done|done| |by eapply denotes_mono].
  apply wraps_app. exists ret. split; [|done]. eapply wraps_mono; [|done]. eauto.
Qed.

(** The first redirections are items. *)
Lemma pitems_redirs argc ts : pitems argc ts = (p ← predirs ts; r ← pitems argc p.2; ROk (map IRedir p.1 ++ r.1, r.2)).
Proof.
  assert (Hid : ∀ r : res (list item * list tok), r = (p ← r; ROk ([] ++ p.1, p.2))) by (by intros [| |[]]).
  induction ts as [ts IH] using (induction_ltof1 _ length). unfold ltof in IH. destruct ts as [|[w|c] ts]; [done|exact (Hid _)|]. cbn [predirs].
  destruct (op_of c) as [o|] eqn:Eo; [|cbn [mbind res_bind fst snd map]; exact (Hid _)]. cbn [pitems]. rewrite Eo.
  destruct ts as [|[f|d] ts]; [done| |done]. rewrite (IH ts ltac:(simpl; lia)). destruct (predirs ts) as [| |[rs ts']]; [done|done|]. cbn. by destruct (pitems argc ts').
Qed.

Lemma predirs_rest ts rs ts' : predirs ts = ROk (rs, ts') → predirs ts' = ROk ([], ts').
Proof.
  revert rs. induction ts as [ts IH] using (induction_ltof1 _ length). unfold ltof in IH. intros rs.
  destruct ts as [|[w|c] ts]; cbn [predirs]; [by intros [= <- <-]|by intros [= <- <-]|].
  destruct (op_of c) as [o|] eqn:Eo; [|intros [= <- <-]; cbn [predirs]; by rewrite Eo].
  destruct ts as [|[f|d] ts]; [done| |done]. intros ([rs1 ts1] & E & [= <- <-])%res_bind_ok. by apply (IH ts ltac:(simpl; lia) rs1).
Qed.

Definition built (l0 : list node) (x : nat) (rs : list redir) (ws : list (list Z)) (r : list item * list tok) (p : nat * nat) (st : shst) : Prop :=
  p.2 = length (ws ++ words r.1) ∧ ∃ l', at_toks r.2 l' st ∧ building l0 x (rs ++ redirs r.1) (ws ++ words r.1) p.1 l'.

Lemma words_redirs rs its : words (map IRedir rs ++ its) = words its ∧ redirs (map IRedir rs ++ its) = rs ++ redirs its.
Proof. induction rs as [|r rs [IH1 IH2]]; [done|]. split; [exact IH1|]. cbn. f_equal. exact IH2. Qed.

(** The loop of parseexec, and the redirections before it. *)
Lemma exec_loop_sim n : ∀ ts l st l0 x rs ws ret, at_toks ts l st → building l0 x rs ws ret l → (length ts < n)%nat →
  (predirs ts = ROk ([], ts) → simulates (iterM n (exec_body x) (ret, length ws)) st (pitems (length ws) ts) (built l0 x rs ws)).
Proof.
  induction n as [|n IH]; intros ts l st l0 x rs ws ret Hat HB Hn Hop; [lia|].
  apply sim_iter. cbn [exec_body]. apply sim_assoc, (sim_peek _ _ ts l); [done|done|]. clear st Hat. intros st Hat.
  assert (Hnone : ∀ st', at_toks ts l st' → built l0 x rs ws ([], ts) (ret, length ws) st') by (intros st' Hat'; split; cbn; rewrite app_nil_r; [done|]; exists l; rewrite app_nil_r; done).
  destruct ts as [|[w|c] ts].
  - cbn [head_is]. apply sim_assoc, (sim_gettoken _ _ _ _ _ _ Hat). intros [[tk q] e] ts' st' [Htk ->] Hat'. cbn in Htk. subst tk. apply sim_ret. by apply Hnone.
  - cbn [head_is]. apply sim_assoc, (sim_gettoken _ _ _ _ _ _ Hat). intros [[tk q] e] ts' st' (Htk & -> & Hw) Hat'. cbn [fst snd] in *. subst tk. cbn [Z.eqb negb].
    apply sim_assoc. eapply sim_step; [apply (set_arg_ok l0 x rs ws ret l q e w ts st' Hat' HB Hw)|]. intros _ st1 (l1 & Hat1 & HB1).
    cbn [pitems]. case_bool_decide as Hm; [done|]. specialize (HB1 ltac:(lia)). apply sim_assoc.
    assert (El : S (length ws) = length (ws ++ [w])) by (rewrite length_app; simpl; lia). rewrite El.
    eapply (sim_map _ _ _ _ (built l0 x rs (ws ++ [w]))).
    + rewrite pitems_redirs. eapply sim_bind; [apply (parseredirs_sim ret ts l1 st1 Hat1); apply HB1|].
      intros [rs' ts'] ret' st2 Ep Hwr. destruct (building_redirs _ _ _ _ _ _ _ _ _ _ HB1 Hwr) as (l2 & Hat2 & HB2). cbn [fst snd]. pose proof (predirs_sound _ _ _ Ep) as Es. apply predirs_rest in Ep.
      eapply sim_map; [apply (IH ts' l2 st2 l0 x (rs ++ rs') (ws ++ [w]) ret' Hat2 HB2); [|done]|].
      * apply (f_equal length) in Es. rewrite length_app in Es. cbn [length] in Hn. lia.
      * intros [its ts2] p st3 [Hp (l3 & Hat3 & HB3)]. cbn [fst snd] in *. destruct (words_redirs rs' its) as [E1 E2]. split; cbn [fst snd]; rewrite E1; [done|]. exists l3. split; [done|]. rewrite E2, app_assoc. done.
    + intros [its ts2] p st3 [Hp (l3 & Hat3 & HB3)]. cbn [fst snd] in *. change (words (IWord w :: its)) with (w :: words its). change (redirs (IWord w :: its)) with (redirs its).
      split; cbn [fst snd]; change (words (IWord w :: its)) with (w :: words its); rewrite (app_assoc ws [w] (words its) : ws ++ w :: words its = _); [done|]. by exists l3.
  - cbn [predirs] in Hop. destruct (op_of c) as [o|] eqn:Eo; [exfalso; destruct ts as [|[f|d] ts]; [done|destruct (predirs ts) as [| |[]]; cbn in Hop; congruence|done]|].
    assert (Hh : head_is [c_bar; c_close; c_amp; c_semi] (TSym c :: ts) = strchr [c_bar; c_close; c_amp; c_semi] c) by (cbn [head_is]; destruct (Z.eqb_spec c c_plus) as [->|]; done).
    rewrite Hh. cbn [pitems]. rewrite Eo. destruct (strchr _ c); [by apply sim_ret, Hnone|].
    apply sim_assoc, (sim_gettoken _ _ _ _ _ _ Hat). intros [[tk q] e] ts' st' (Htk & -> & Hca & Hc0) Hat'. cbn [fst snd] in *. subst tk.
    rewrite (proj2 (Z.eqb_neq _ _) Hc0), (proj2 (Z.eqb_neq _ _) Hca). done.
Qed.

Lemma head_is_starts c ts : c ≠ c_greater → c ≠ c_plus → head_is [c] ts = starts c ts.
Proof.
  intros H1 H2. destruct ts as [|[w|d] ts]; [done|done|]. cbn. rewrite orb_false_r. destruct (Z.eqb_spec d c_plus) as [->|]; [|done].
  rewrite (proj2 (Z.eqb_neq _ _)) by congruence. symmetry. apply Z.eqb_neq. congruence.
Qed.

(** A token that [peek] has seen is consumed. *)
Lemma sim_skip {A B} c (k : Z * nat * nat → M shst A) ts l st (r : res B) Q : at_toks ts l st → starts c ts = true →
  (∀ t st', at_toks (tail_of ts) l st' → simulates (k t) st' r Q) → simulates (t ← gettoken; k t) st r Q.
Proof.
  intros Hat Hs Hk. rewrite (starts_inv _ _ Hs) in Hat. apply (sim_gettoken _ _ _ _ _ _ Hat). intros t ts' st' (_ & -> & _) Hat'. by apply Hk.
Qed.

Lemma amps_sim n c t ts l st : at_toks ts l st → (c < length l)%nat → denotes word l c t → (length ts < n)%nat →
  simulates (iterM n back_body c) st (ROk (pamps ts)) (parsed (λ k, Nat.iter k Back t) l).
Proof.
  revert c t ts l st. induction n as [|n IH]; intros c t ts l st Hat Hc Hd Hn; [lia|]. apply sim_iter. unfold back_body.
  apply sim_assoc, (sim_peek _ _ ts l); [done|done|]. clear st Hat. intros st Hat. rewrite head_is_starts by done.
  destruct (starts c_amp ts) eqn:Es.
  - apply sim_assoc, (sim_skip c_amp _ ts l); [done|done|]. intros _ st1 Hat1. apply sim_assoc, (sim_alloc _ _ _ _ _ _ _ Hat1). intros st2 Hat2.
    rewrite (starts_inv _ _ Es). cbn [pamps tail_of]. rewrite Z.eqb_refl. set (ts1 := tail_of ts) in *.
    assert (Hl : (length ts1 < n)%nat) by (rewrite (starts_inv _ _ Es) in Hn; cbn [length] in Hn; fold ts1 in Hn; lia).
    eapply (sim_map _ _ (ROk (pamps ts1)) (λ r, (S r.1, r.2))); [apply (IH (length l) (Back t) ts1 _ st2 Hat2); [rewrite length_app; simpl; lia| |done]|].
    + exists c. split; [by rewrite lookup_app_r, Nat.sub_diag by lia|]. split; [done|]. eapply denotes_mono; [done|apply extends_app|done].
    + intros [k ts'] c' st' (l' & He & Hat' & Hc' & Hd'). exists l'. split; [eapply extends_trans; [apply extends_app|done]|]. split; [done|]. split; [done|].
      cbn [fst snd]. rewrite Nat.iter_succ_r. done.
  - assert (Ep : pamps ts = (0%nat, ts)) by (destruct ts as [|[w|d] ts]; [done|done|]; cbn [pamps starts] in *; by rewrite Es). rewrite Ep.
    apply sim_ret. exists l. split; [apply extends_refl|done].
Qed.

Lemma set_none l0 x rs ws ret l ts st : at_toks ts l st → building l0 x rs ws ret l → wp (set_arg x (length ws) None None) (λ _ st', at_toks ts l st') st.
Proof.
  intros (Hb & He & Hp & Hl & Ht) [_ _ _ _ (Hlt & qs & es & H3 & Hx)]. destruct (Forall3_lengths _ _ _ _ H3) as [L1 L2].
  unfold set_arg. apply wp_bind, wp_get. rewrite Hl, Hx. apply wp_put.
  assert (Hid : ∀ vs : list nat, length vs = length ws → <[length ws := None]> ((Some <$> vs) ++ replicate (MAXARGS - length ws) None) = (Some <$> vs) ++ replicate (MAXARGS - length ws) None).
  { intros vs Hv. apply list_insert_id. rewrite lookup_app_r by (rewrite length_fmap; lia). apply lookup_replicate. rewrite length_fmap. split; [done|lia]. }
  rewrite !Hid by done. rewrite list_insert_id by done. done.
Qed.

Lemma simple_sim ts l st : at_toks ts l st →
  simulates (cmd ← execcmd; ret ← parseredirs cmd; e ← gets es; r ← iterM (S e) (exec_body cmd) (ret, 0%nat);
             let '(ret, argc) := r in set_arg cmd argc None None;; mret ret) st
    (r ← pitems 0 ts; ROk (Simple r.1, r.2)) (parsed sem_exec l).
Proof.
  intros Hat. unfold execcmd. apply (sim_alloc _ _ _ _ _ _ _ Hat). clear st Hat. intros st Hat. set (x := length l) in *. set (l1 := l ++ _) in *.
  assert (HB : building l x [] [] x l1).
  { split; [apply extends_app|by apply lookup_ge_None_2|unfold l1; rewrite length_app; simpl; lia|done|]. split; [unfold MAXARGS; simpl; lia|]. exists [], [].
    split; [constructor|]. unfold l1. rewrite lookup_app_r by lia. by rewrite Nat.sub_diag. }
  rewrite pitems_redirs.
  assert (Eb : ∀ (p : res (list redir * list tok)) (f : list redir * list tok → res (list item * list tok)),
    (r ← (a ← p; f a); ROk (Simple r.1, r.2)) = (a ← p; r ← f a; ROk (Simple r.1, r.2))) by (by intros [| |]). rewrite Eb. clear Eb.
  eapply sim_bind; [apply (parseredirs_sim x ts l1 st Hat); apply HB|]. intros [rs ts'] ret st1 Ep Hwr. apply predirs_rest in Ep. cbn [fst snd].
  destruct (building_redirs _ _ _ _ _ _ _ _ _ _ HB Hwr) as (l2 & Hat2 & HB2). cbn [app] in HB2.
  eapply (sim_step _ _ _ _ (λ e st', e = length s ∧ st' = st1)); [apply wp_gets; by destruct Hat2 as (_ & -> & _)|]. intros e st' [-> ->].
  assert (Eb : ∀ (p : res (list item * list tok)), (r ← (a ← p; ROk (map IRedir rs ++ a.1, a.2)); ROk (Simple r.1, r.2)) = (a ← p; ROk (Simple (map IRedir rs ++ a.1), a.2))) by (by intros [| |]). rewrite Eb. clear Eb.
  eapply sim_bind; [apply (exec_loop_sim (S (length s)) ts' l2 st1 l x rs [] ret Hat2 HB2); [|done]; pose proof (at_length _ _ _ Hat2); lia|].
  intros [its ts2] [ret' argc] st2 _ [Hargc (l3 & Hat3 & HB3)]. cbn [fst snd app] in *. subst argc.
  eapply (sim_step _ _ _ _ (λ _ st', at_toks ts2 l3 st')); [by eapply set_none|]. intros _ st3 Hat4. apply sim_ret. exists l3. split; [apply HB3|]. split; [done|]. split; [apply HB3|].
  cbn [sem_exec fst]. destruct (words_redirs rs its) as [-> ->]. eapply wraps_denotes; [apply HB3|apply HB3].
Qed.

Definition line_sim (n : nat) : Prop := ∀ ts l st, at_toks ts l st → simulates (parseline n) st (pline n ts) (parsed sem_line l).
Definition pipe_sim (n : nat) : Prop := ∀ ts l st, at_toks ts l st → simulates (parsepipe n) st (ppipe n ts) (parsed sem_pipe l).
Definition exec_sim (n : nat) : Prop := ∀ ts l st, at_toks ts l st → simulates (parseexec n) st (pexec n ts) (parsed sem_exec l).
Definition block_sim (n : nat) : Prop := ∀ ts l st, at_toks ts l st → simulates (parseblock n) st (pblock n ts) (parsed sem_exec l).

Lemma line_step n : line_sim n → pipe_sim n → line_sim (S n).
Proof.
  intros IHl IHp ts l st Hat. cbn [parseline pline]. eapply sim_bind; [by apply IHp|]. intros [p ts1] c st1 _ (l1 & E1 & Hat1 & Hc1 & Hd1). cbn [fst snd] in *.
  eapply (sim_step _ _ _ _ (λ e st', e = length s ∧ st' = st1)); [apply wp_gets; by destruct Hat1 as (_ & -> & _)|]. intros e st' [-> ->].
  eapply sim_step; [apply (amps_sim (S (length s)) c (sem_pipe p) ts1 l1 st1 Hat1 Hc1 Hd1); pose proof (at_length _ _ _ Hat1); lia|].
  intros c2 st2 (l2 & E2 & Hat2 & Hc2 & Hd2). destruct (pamps ts1) as [k ts2]. cbn [fst snd] in *.
  apply (sim_peek _ _ ts2 l2); [done|done|]. clear st2 Hat2. intros st2 Hat2. rewrite head_is_starts by done. destruct (starts c_semi ts2) eqn:Es.
  - apply (sim_skip c_semi _ ts2 l2); [done|done|]. intros _ st3 Hat3. eapply sim_bind; [by apply IHl|]. intros [l' ts4] c4 st4 _ (l4 & E4 & Hat4 & Hc4 & Hd4). cbn [fst snd] in *.
    eapply wp_mono; [|by apply (alloc_ok _ ts4 l4)]. intros c5 st5 [-> Hat5]. pose proof (extends_length _ _ E4).
    exists (l4 ++ [NList c2 c4]). split; [do 3 (eapply extends_trans; [eassumption|]); apply extends_app|]. split; [done|]. split; [rewrite length_app; simpl; lia|].
    exists c2, c4. split; [by rewrite lookup_app_r, Nat.sub_diag by lia|]. split; [lia|]. split; [lia|].
    split; (eapply denotes_mono; [done| |eassumption]); [eapply extends_trans; [done|]|]; apply extends_app.
  - apply sim_ret. exists l2. split; [by eapply extends_trans|done].
Qed.

Lemma pipe_step n : pipe_sim n → exec_sim n → pipe_sim (S n).
Proof.
  intros IHp IHe ts l st Hat. cbn [parsepipe ppipe]. eapply sim_bind; [by apply IHe|]. intros [e ts1] c st1 _ (l1 & E1 & Hat1 & Hc1 & Hd1). cbn [fst snd] in *.
  apply (sim_peek _ _ ts1 l1); [done|done|]. clear st1 Hat1. intros st1 Hat1. rewrite head_is_starts by done. destruct (starts c_bar ts1) eqn:Es.
  - apply (sim_skip c_bar _ ts1 l1); [done|done|]. intros _ st3 Hat3. eapply sim_bind; [by apply IHp|]. intros [p ts4] c4 st4 _ (l4 & E4 & Hat4 & Hc4 & Hd4). cbn [fst snd] in *.
    eapply wp_mono; [|by apply (alloc_ok _ ts4 l4)]. intros c5 st5 [-> Hat5]. pose proof (extends_length _ _ E4).
    exists (l4 ++ [NPipe c c4]). split; [do 2 (eapply extends_trans; [eassumption|]); apply extends_app|]. split; [done|]. split; [rewrite length_app; simpl; lia|].
    exists c, c4. split; [by rewrite lookup_app_r, Nat.sub_diag by lia|]. split; [lia|]. split; [lia|].
    split; (eapply denotes_mono; [done| |eassumption]); [eapply extends_trans; [done|]|]; apply extends_app.
  - apply sim_ret. by exists l1.
Qed.

Lemma block_step n : line_sim n → block_sim (S n).
Proof.
  intros IHl ts l st Hat. cbn [parseblock pblock]. apply (sim_peek _ _ ts l); [done|done|]. clear st Hat. intros st Hat. rewrite head_is_starts by done.
  destruct (starts c_open ts) eqn:Es; [|done]. cbn [negb]. apply (sim_skip c_open _ ts l); [done|done|]. intros _ st1 Hat1.
  eapply sim_bind; [by apply IHl|]. intros [l' ts2] c st2 _ (l2 & E2 & Hat2 & Hc2 & Hd2). cbn [fst snd] in *.
  apply (sim_peek _ _ ts2 l2); [done|done|]. clear st2 Hat2. intros st2 Hat2. rewrite head_is_starts by done. destruct (starts c_close ts2) eqn:Ec; [|done]. cbn [negb].
  apply (sim_skip c_close _ ts2 l2); [done|done|]. intros _ st3 Hat3. eapply sim_map; [by apply (parseredirs_sim c _ l2)|].
  intros [rs ts4] c4 st4 (l4 & E4 & Hat4 & Hc4 & Hw). exists l4. split; [by eapply extends_trans|]. split; [done|]. split; [done|].
  cbn [fst sem_exec]. eapply wraps_denotes; [done|]. by eapply denotes_mono.
Qed.

Lemma parse_sim n : line_sim n ∧ pipe_sim n ∧ exec_sim n ∧ block_sim n.
Proof.
  induction n as [|n (IHl & IHp & IHe & IHb)]; [done|]. split; [by apply line_step|]. split; [by apply pipe_step|]. split; [|by apply block_step].
  intros ts l st Hat. cbn [parseexec pexec]. apply (sim_peek _ _ ts l); [done|done|]. clear st Hat. intros st Hat. rewrite head_is_starts by done.
  destruct (starts c_open ts); [by apply IHb|by apply simple_sim].
Qed.

(** ** Termination of the strings *)

(** The bytes of a string: up to the first 0. *)
Fixpoint take_str (b : list Z) : list Z :=
  match b with c :: b' => if c =? 0 then [] else c :: take_str b' | [] => [] end.

Definition cstr (b : list Z) (q : nat) : list Z := take_str (drop q b).

(** No word has a character at [i]. *)
Definition cut (i : nat) : Prop := match drop i s with [] => True | d :: _ => wordc d = false end.

Definition cut_buf (b : list Z) : Prop :=
  length b = S (length s) ∧ ∀ i, deref b i = deref (s ++ [0]) i ∨ deref b i = 0 ∧ cut i.

Definition keeps0 (b b' : list Z) : Prop := ∀ i, deref b i = 0 → deref b' i = 0.

Definition ended (b : list Z) (q e : nat) (w : list Z) : Prop := word q e w ∧ deref b e = 0.

Lemma cut_insert b q e w : cut_buf b → word q e w → cut_buf (<[e := 0]> b) ∧ keeps0 b (<[e := 0]> b) ∧ deref (<[e := 0]> b) e = 0.
Proof.
  intros [Hl Hb] (_ & Hr & _ & Hc). assert (He : deref (<[e := 0]> b) e = 0) by (unfold deref; by rewrite list_lookup_insert_eq by lia).
  assert (Hne : ∀ i, i ≠ e → deref (<[e := 0]> b) i = deref b i) by (intros i Hi; unfold deref; by rewrite list_lookup_insert_ne by done).
  split; [split|split; [|done]].
  - by rewrite length_insert.
  - intros i. destruct (decide (i = e)) as [->|Hi]; [by right|]. rewrite Hne by done. apply Hb.
  - intros i Hi. destruct (decide (i = e)) as [->|Hie]; [done|]. by rewrite Hne.
Qed.

Lemma nul_args_ok qs es ws m b : Forall3 word qs es ws → cut_buf b →
  let b' := nul_args ((Some <$> qs) ++ replicate (S m) None) ((Some <$> es) ++ replicate (S m) None) b in
  cut_buf b' ∧ keeps0 b b' ∧ Forall3 (ended b') qs es ws.
Proof.
  intros H3. revert b. induction H3 as [|q e w qs es ws Hw _ IH]; intros b Hb; [cbn; split; [done|]; split; [by intros i|constructor]|].
  cbn zeta. cbn [fmap list_fmap app nul_args]. destruct (cut_insert b q e w Hb Hw) as (H1 & H2 & H3). destruct (IH _ H1) as (I1 & I2 & I3).
  split; [done|]. split; [intros i Hi; by apply I2, H2|]. constructor; [split; [done|by apply I2]|done].
Qed.

Lemma ended_mono b b' q e w : keeps0 b b' → ended b q e w → ended b' q e w.
Proof. intros Hk [? ?]. split; [done|by apply Hk]. Qed.

Lemma nulterminate_ok t n c st : denotes word (nodes st) c t → (c < n)%nat → cut_buf (buf st) →
  wp (nulterminate n c) (λ _ st', nodes st' = nodes st ∧ cut_buf (buf st') ∧ keeps0 (buf st) (buf st') ∧ denotes (ended (buf st')) (nodes st) c t) st.
Proof.
  revert n c st. induction t as [ws|t IH f mode fd|t1 IH1 t2 IH2|t1 IH1 t2 IH2|t IH]; intros [|n] c st Hd Hn Hb; try lia; cbn [nulterminate denotes] in *; apply wp_bind, wp_get.
  - destruct Hd as (Hlt & qs & es & H3 & Hc). rewrite Hc. apply wp_put. cbn [set_buf nodes buf]. replace (MAXARGS - length ws)%nat with (S (MAXARGS - length ws - 1)) in * by lia.
    destruct (nul_args_ok qs es ws (MAXARGS - length ws - 1) (buf st) H3 Hb) as (H1 & H2 & H4). split; [done|]. split; [done|]. split; [done|]. split; [done|]. exists qs, es.
    split; [done|]. by replace (MAXARGS - length ws)%nat with (S (MAXARGS - length ws - 1)) by lia.
  - destruct Hd as (c' & q & e & Hc & Hlt & Hw & Hd). rewrite Hc. apply wp_bind. eapply wp_mono; [|apply (IH n c' st Hd); [lia|done]].
    intros _ st1 (N1 & B1 & K1 & D1). apply wp_modify. cbn [set_buf nodes buf]. destruct (cut_insert _ q e f B1 Hw) as (B2 & K2 & E2).
    split; [done|]. split; [done|]. split; [intros i Hi; by apply K2, K1|]. exists c', q, e. split; [done|]. split; [done|]. split; [done|].
    eapply denotes_mono; [|apply extends_refl|exact D1]. intros ???. by apply ended_mono.
  - destruct Hd as (c1 & c2 & Hc & L1 & L2 & D1 & D2). rewrite Hc. apply wp_bind. eapply wp_mono; [|apply (IH1 n c1 st D1); [lia|done]].
    intros _ st1 (N1 & B1 & K1 & D1'). rewrite <- N1 in D2. eapply wp_mono; [|apply (IH2 n c2 st1 D2); [lia|done]]. intros _ st2 (N2 & B2 & K2 & D2'). rewrite N1 in *.
    split; [done|]. split; [done|]. split; [intros i Hi; by apply K2, K1|]. exists c1, c2. repeat (split; [done|]). split; [|done].
    eapply denotes_mono; [|apply extends_refl|exact D1']. intros ???. by apply ended_mono.
  - destruct Hd as (c1 & c2 & Hc & L1 & L2 & D1 & D2). rewrite Hc. apply wp_bind. eapply wp_mono; [|apply (IH1 n c1 st D1); [lia|done]].
    intros _ st1 (N1 & B1 & K1 & D1'). rewrite <- N1 in D2. eapply wp_mono; [|apply (IH2 n c2 st1 D2); [lia|done]]. intros _ st2 (N2 & B2 & K2 & D2'). rewrite N1 in *.
    split; [done|]. split; [done|]. split; [intros i Hi; by apply K2, K1|]. exists c1, c2. repeat (split; [done|]). split; [|done].
    eapply denotes_mono; [|apply extends_refl|exact D1']. intros ???. by apply ended_mono.
  - destruct Hd as (c' & Hc & Hlt & Hd). rewrite Hc. eapply wp_mono; [|apply (IH n c' st Hd); [lia|done]]. intros _ st1 (N1 & B1 & K1 & D1).
    split; [done|]. split; [done|]. split; [done|]. by exists c'.
Qed.

Lemma take_str_spec w b : (∀ i, (i < length w)%nat → b !! i = w !! i) → Forall (λ c, c ≠ 0) w → deref b (length w) = 0 → take_str b = w.
Proof.
  revert b. induction w as [|c w IH]; intros b Hi Hw H0.
  - destruct b as [|d b]; [done|]. cbn in *. by rewrite H0.
  - pose proof (Hi 0%nat ltac:(simpl; lia)) as Hc. destruct b as [|d b]; [done|]. cbn in Hc. injection Hc as ->. apply Forall_cons in Hw as [Hc Hw].
    cbn [take_str]. rewrite (proj2 (Z.eqb_neq _ _) Hc). f_equal. apply IH; [intros i Hlt; apply (Hi (S i)); simpl; lia|done|done].
Qed.

Lemma ended_cstr b q e w : cut_buf b → ended b q e w → cstr b q = w.
Proof.
  intros [Hl Hb] [(Hw & Hr & Hc & _) He]. assert (Elen : length w = (e - q)%nat) by (rewrite <- Hw, length_take, length_drop; lia).
  assert (Hlook : ∀ i, (i < length w)%nat → w !! i = s !! (q + i)%nat) by (intros i Hi; rewrite <- Hw, lookup_take_lt, lookup_drop by lia; done).
  apply take_str_spec.
  - intros i Hi. rewrite lookup_drop, Hlook by done. destruct (lookup_lt_is_Some_2 s (q + i)) as [d Hd]; [lia|]. destruct (lookup_lt_is_Some_2 b (q + i)) as [d' Hd']; [lia|].
    destruct (Hb (q + i)%nat) as [E|[_ Hcut]].
    + rewrite deref_line in E. unfold deref in E. rewrite Hd, Hd' in E. cbn in E. congruence.
    + unfold cut in Hcut. rewrite (drop_S s d _ Hd) in Hcut. rewrite Forall_lookup in Hc. rewrite (Hc i d) in Hcut; [done|]. by rewrite Hlook.
  - apply Forall_forall. intros c Hin. apply list_elem_of_lookup_1 in Hin as [i Hi]. pose proof (lookup_lt_Some _ _ _ Hi) as Hlt. rewrite Hlook in Hi by done. rewrite Forall_lookup in Htext. by eapply Htext.
  - unfold deref in *. rewrite lookup_drop, Elen. by replace (q + (e - q))%nat with e by lia.
Qed.

(** ** The whole line *)

Lemma lex_cur cur r : cur ≠ [] → lex cur r ≠ [].
Proof.
  revert cur. induction r as [|c r IH]; intros cur Hc; cbn [lex]; [by destruct cur|].
  assert (Hf : ∀ ts, flush cur ++ ts ≠ []) by (by destruct cur). destruct (white c); [done|]. destruct (c =? c_greater); [done|]. destruct (sym c); [done|].
  apply IH. by destruct cur.
Qed.

Lemma lex_end r : match r with [] => True | d :: _ => white d = false end → lex [] r = [] → r = [].
Proof.
  destruct r as [|c r]; [done|]. intros Hw. cbn [lex]. rewrite Hw. destruct (c =? c_greater); [destruct r as [|d r]; [done|]; by destruct (d =? c_greater)|].
  destruct (sym c); [done|]. intros E. by apply lex_cur in E.
Qed.

Lemma peek_end ts l st : at_toks ts l st → wp (peek []) (λ _ st', at_toks ts l st' ∧ (ps st' = es st' ↔ ts = [])) st.
Proof.
  intros (Hb & He & Hp & Hl & Ht). unfold peek. apply wp_bind, wp_get, wp_bind, wp_put, wp_ret. rewrite Hb, He.
  destruct (skip_white_spec (ps st) Hp) as (Hr & Hlex & Hnw). set (p' := skip_white _ _ _) in *. rewrite Ht in Hlex. split; [repeat split; cbn; try done; lia|].
  cbn [set_ps ps es]. rewrite He, <- Hlex. split; [intros ->; by rewrite drop_ge|]. intros E. apply (lex_end _ Hnw) in E. apply (f_equal length) in E. rewrite length_drop in E. simpl in E. lia.
Qed.

(** [parsecmd] decides the grammar, and builds the command. *)
Lemma parsecmd_ok : match parsecmd (shstart s) with
  | Ok c st => ∃ l, lex [] s = print_line l ∧ args_line l ∧ denotes (λ q _ w, cstr (buf st) q = w) (nodes st) c (sem_line l)
  | Panic _ => ∀ l, lex [] s = print_line l → ¬ args_line l
  | _ => False
  end.
Proof.
  assert (Hat : at_toks (lex [] s) [] (shstart s)) by (repeat split; cbn; lia || done).
  pose proof (at_length _ _ _ Hat) as Hlen. set (n := (4 * S (length s))%nat).
  assert (Hcomp : ∀ l, lex [] s = print_line l → args_line l → pline n (lex [] s) = ROk (l, [])).
  { intros l E Ha. rewrite E, <- (app_nil_r (print_line l)) at 1. apply parse_complete; [done|done|]. rewrite <- E. unfold n. lia. }
  destruct (parse_sim n) as [Hs _]. specialize (Hs _ _ _ Hat). pose proof (proj1 (parse_fuel n (lex [] s)) ltac:(unfold n; lia)) as Hfuel.
  unfold parsecmd, simulates in *.
  assert (Ebind : ∀ k : nat → M shst nat, (s ← getS; cmd ← parseline (4 * S (es s)); k cmd) (shstart s) = (cmd ← parseline n; k cmd) (shstart s)) by done.
  rewrite Ebind. unfold mbind at 1, M_bind at 1.
  destruct (pline n (lex [] s)) as [|msg|[l ts]] eqn:Ep; [done|rewrite Hs; intros l E Ha; by specialize (Hcomp l E Ha)|].
  destruct (proj1 (wp_ok _ _ _) Hs) as (c & st & -> & l1 & _ & Hat1 & Hc1 & Hd1). cbn [fst snd] in *. apply parse_sound in Ep as [Ets Hargs].
  unfold mbind at 1, M_bind at 1. destruct (proj1 (wp_ok _ _ _) (peek_end ts l1 st Hat1)) as (b & st2 & -> & Hat2 & Hend). unfold mbind at 1, M_bind at 1. cbn [getS].
  case_bool_decide as Hps; cbn [negb].
  - apply Hend in Hps as ->. rewrite app_nil_r in Ets. destruct Hat2 as (Hb2 & _ & _ & Hn2 & _). rewrite <- Hn2 in Hd1, Hc1.
    assert (Hcut : cut_buf (buf st2)) by (rewrite Hb2; split; [rewrite length_app; simpl; lia|by left]).
    unfold mbind at 1, M_bind at 1. destruct (proj1 (wp_ok _ _ _) (nulterminate_ok _ (S (length (nodes st2))) c st2 Hd1 ltac:(lia) Hcut)) as (u & st3 & -> & Hn3 & Hcut3 & _ & Hd3).
    cbn [mret M_ret]. exists l. split; [done|]. split; [done|]. rewrite Hn3. eapply denotes_mono; [|apply extends_refl|exact Hd3]. intros q e w. by apply ended_cstr.
  - cbn [panic]. intros l' E Ha. specialize (Hcomp l' E Ha). injection Hcomp as -> ->. apply Hps. by apply Hend.
Qed.
End line.

(** C9. For every line without a 0 byte: [parsecmd] terminates; it returns exactly for
    the lines of the grammar whose commands have fewer than [MAXARGS] words, and
    then the node it returns is the command the line means, every argument and
    file name a string of the buffer that ends where the word does; on every
    other line it reports an error. *)
Theorem parsecmd_spec s : Forall (λ c, c ≠ 0) s → match parsecmd (shstart s) with
  | Ok c st => ∃ l, lex [] s = print_line l ∧ args_line l ∧ denotes (λ q _ w, cstr (buf st) q = w) (nodes st) c (sem_line l)
  | Panic _ => ∀ l, lex [] s = print_line l → ¬ args_line l
  | _ => False
  end.
Proof. intros Hs. by apply parsecmd_ok. Qed.

(** The line (a;b)>c|d & *)
Lemma parsecmd_spec_witness : match parsecmd (shstart [40; 97; 59; 98; 41; 62; 99; 124; 100; 32; 38]) with
  | Ok c st => ∃ l, lex [] [40; 97; 59; 98; 41; 62; 99; 124; 100; 32; 38] = print_line l ∧ args_line l ∧ denotes (λ q _ w, cstr (buf st) q = w) (nodes st) c (sem_line l)
  | Panic _ => ∀ l, lex [] [40; 97; 59; 98; 41; 62; 99; 124; 100; 32; 38] = print_line l → ¬ args_line l
  | _ => False
  end.
Proof. apply (parsecmd_spec [40; 97; 59; 98; 41; 62; 99; 124; 100; 32; 38]). repeat constructor; discriminate. Defined.
