(* ===== verification/Virtio.v ===== *)
(** * The disk driver (kernel/virtio_disk.c, kernel/virtio.h)

    The descriptor table, the two rings and the bookkeeping of the driver;
    [virtio_disk_rw] cut at the points where it sleeps, and the interrupt
    handler. The device is the other side of the rings, as the virtio
    specification describes it: it fetches the heads the driver publishes and
    completes the chains they start, in any order. Addresses that the driver
    hands to the device are symbolic: a request header, the data of a buffer, a
    status byte. *)

From S2P Require Import Prelude.

Definition NUM : Z := 8.
Definition VRING_DESC_F_NEXT : Z := 1.
Definition VRING_DESC_F_WRITE : Z := 2.
Definition VIRTIO_BLK_T_IN : Z := 0.
Definition VIRTIO_BLK_T_OUT : Z := 1.

Inductive vptr := PNull | POps (i : Z) | PData (b : nat) | PStatus (i : Z).

Record virtq_desc := VDesc { addr : vptr; len : Z; flags : Z; next : Z }.
Record virtio_blk_req := BlkReq { rtype : Z; reserved : Z; sector : Z }.

(** The part of a buffer that the driver uses. *)
Record vbuf := VBuf { blockno : Z; vdata : list Z; bdisk : Z }.

#[export] Instance virtq_desc_inhabited : Inhabited virtq_desc := populate (VDesc PNull 0 0 0).
#[export] Instance blk_req_inhabited : Inhabited virtio_blk_req := populate (BlkReq 0 0 0).
#[export] Instance vbuf_inhabited : Inhabited vbuf := populate (VBuf 0 [] 0).

(** What the driver owns: [free], the descriptor table, the avail ring, how far it
    has looked in the used ring, [info] and [ops]. *)
Record drv := Drv {
  dfree : list Z;
  ddesc : list virtq_desc;
  aidx : Z;
  aring : list Z;
  used_idx : Z;
  info_b : list (option nat);
  info_status : list Z;
  ops : list virtio_blk_req;
}.

(** What the device owns: the used ring, how far it has looked in the avail ring,
    the heads it has fetched and not completed, and the sectors. *)
Record dev := Dev {
  uidx : Z;
  uring : list Z;
  seen : Z;
  pending : list Z;
  media : Z → list Z;
}.

Inductive chan := CFree | CBuf (b : nat).

#[export] Instance chan_eq_dec : EqDecision chan.
Proof. solve_decision. Defined.

Record vst := VST { vdrv : drv; vdev : dev; bufs : list vbuf; woken : list chan }.

Definition upd_drv (f : drv → drv) (s : vst) : vst := VST (f (vdrv s)) (vdev s) (bufs s) (woken s).
Definition set_dfree (v : list Z) (d : drv) : drv := Drv v (ddesc d) (aidx d) (aring d) (used_idx d) (info_b d) (info_status d) (ops d).
Definition set_ddesc (v : list virtq_desc) (d : drv) : drv := Drv (dfree d) v (aidx d) (aring d) (used_idx d) (info_b d) (info_status d) (ops d).
Definition set_avail (i : Z) (r : list Z) (d : drv) : drv := Drv (dfree d) (ddesc d) i r (used_idx d) (info_b d) (info_status d) (ops d).
Definition set_used_idx (v : Z) (d : drv) : drv := Drv (dfree d) (ddesc d) (aidx d) (aring d) v (info_b d) (info_status d) (ops d).
Definition set_info_b (v : list (option nat)) (d : drv) : drv := Drv (dfree d) (ddesc d) (aidx d) (aring d) (used_idx d) v (info_status d) (ops d).
Definition set_info_status (v : list Z) (d : drv) : drv := Drv (dfree d) (ddesc d) (aidx d) (aring d) (used_idx d) (info_b d) v (ops d).
Definition set_ops (v : list virtio_blk_req) (d : drv) : drv := Drv (dfree d) (ddesc d) (aidx d) (aring d) (used_idx d) (info_b d) (info_status d) v.
Definition set_bufs (v : list vbuf) (s : vst) : vst := VST (vdrv s) (vdev s) v (woken s).

Definition vwakeup (c : chan) : M vst unit := modify (λ s, VST (vdrv s) (vdev s) (bufs s) (c :: woken s)).

Definition at_ {A} `{Inhabited A} (l : list A) (i : Z) : A := l !!! Z.to_nat i.
Definition set_at {A} (i : Z) (x : A) (l : list A) : list A := <[Z.to_nat i := x]> l.

(** ** Descriptors *)

Fixpoint first_free (l : list Z) (i : Z) : Z :=
  match l with [] => -1 | x :: l' => if negb (x =? 0) then i else first_free l' (i + 1) end.

Definition alloc_desc : M vst Z :=
  l ← gets (λ s, dfree (vdrv s));
  let i := first_free l 0 in
  if i <? 0 then mret (-1) else
  modify (upd_drv (λ d, set_dfree (set_at i 0 (dfree d)) d));; mret i.

Definition free_desc (i : Z) : M vst unit :=
  if NUM <=? i then panic "free_desc 1" else
  l ← gets (λ s, dfree (vdrv s));
  if negb (at_ l i =? 0) then panic "free_desc 2" else
  modify (upd_drv (λ d, set_ddesc (set_at i (VDesc PNull 0 0 0) (ddesc d)) d));;
  modify (upd_drv (λ d, set_dfree (set_at i 1 (dfree d)) d));;
  vwakeup CFree.

Definition free_chain_body (i : Z) : M vst (Z + unit) :=
  d ← gets (λ s, at_ (ddesc (vdrv s)) i);
  free_desc i;;
  if negb (Z.land (flags d) VRING_DESC_F_NEXT =? 0) then mret (inl (next d)) else mret (inr tt).

(** A chain has at most [NUM] descriptors. *)
Definition free_chain (i : Z) : M vst unit := iterM (S (Z.to_nat NUM)) free_chain_body i.

(** The loop over [idx]: [k] descriptors are missing, [idx] holds those taken; on
    failure they are given back. *)
Fixpoint alloc_loop (k : nat) (idx : list Z) : M vst (option (list Z)) :=
  match k with
  | O => mret (Some idx)
  | S k' =>
      i ← alloc_desc;
      if i <? 0 then forM idx free_desc;; mret None else alloc_loop k' (idx ++ [i])
  end.

Definition alloc3_desc : M vst (option (list Z)) := alloc_loop 3 [].

(** ** Requests *)

Definition BSIZE : Z := 1024.

Definition set_desc (i : Z) (d : virtq_desc) : M vst unit := modify (upd_drv (λ v, set_ddesc (set_at i d (ddesc v)) v)).

(** From the formatting of the descriptors to the notification of the device. *)
Definition submit (b : nat) (write : bool) (i0 i1 i2 : Z) : M vst unit :=
  sec ← gets (λ s, u32 (blockno (bufs s !!! b) * (BSIZE / 512)));
  modify (upd_drv (λ d, set_ops (set_at i0 (BlkReq (if write then VIRTIO_BLK_T_OUT else VIRTIO_BLK_T_IN) 0 sec) (ops d)) d));;
  set_desc i0 (VDesc (POps i0) 16 VRING_DESC_F_NEXT i1);;
  set_desc i1 (VDesc (PData b) BSIZE (Z.lor (if write then 0 else VRING_DESC_F_WRITE) VRING_DESC_F_NEXT) i2);;
  modify (upd_drv (λ d, set_info_status (set_at i0 255 (info_status d)) d));;
  set_desc i2 (VDesc (PStatus i0) 1 VRING_DESC_F_WRITE 0);;
  modify (λ s, set_bufs (alter (λ x, VBuf (blockno x) (vdata x) 1) b (bufs s)) s);;
  modify (upd_drv (λ d, set_info_b (set_at i0 (Some b) (info_b d)) d));;
  modify (upd_drv (λ d, set_avail (aidx d) (set_at (aidx d mod NUM) i0 (aring d)) d));;
  modify (upd_drv (λ d, set_avail (u16 (aidx d + 1)) (aring d) d)).

(** [virtio_disk_rw] up to the submission; without descriptors it sleeps on
    [&disk.free[0]] and starts again when it is woken. *)
Definition rw_submit (b : nat) (write : bool) : M vst (list Z) :=
  r ← alloc3_desc;
  match r with
  | Some [i0; i1; i2] => submit b write i0 i1 i2;; mret [i0; i1; i2]
  | _ => block
  end.

(** The rest, from the test of [b->disk]; it sleeps on [b] until the interrupt. *)
Definition rw_finish (b : nat) (i0 : Z) : M vst unit :=
  f ← gets (λ s, bdisk (bufs s !!! b));
  if f =? 1 then block else
  modify (upd_drv (λ d, set_info_b (set_at i0 None (info_b d)) d));;
  free_chain i0.

(** The pointer to the buffer of a completed request is not checked: a null one is
    an outcome of its own. *)
Definition intr_body (_ : unit) : M vst (unit + unit) :=
  s ← getS;
  if used_idx (vdrv s) =? uidx (vdev s) then mret (inr tt) else
  let id := at_ (uring (vdev s)) (used_idx (vdrv s) mod NUM) in
  if negb (at_ (info_status (vdrv s)) id =? 0) then panic "virtio_disk_intr status" else
  match at_ (info_b (vdrv s)) id with
  | Some b =>
      modify (λ s, set_bufs (alter (λ x, VBuf (blockno x) (vdata x) 0) b (bufs s)) s);;
      vwakeup (CBuf b);;
      modify (upd_drv (λ d, set_used_idx (u16 (used_idx d + 1)) d));;
      mret (inl tt)
  | None => panic "null pointer"
  end.

(** The used ring has [NUM] entries. *)
Definition virtio_disk_intr : M vst unit := iterM (S (Z.to_nat NUM)) intr_body tt.

(** ** The device *)

Definition SECTOR : Z := 512.

(** [n] sectors from [s]. *)
Fixpoint read_sectors (n : nat) (m : Z → list Z) (s : Z) : list Z :=
  match n with O => [] | S n' => m s ++ read_sectors n' m (s + 1) end.

Fixpoint write_sectors (n : nat) (m : Z → list Z) (s : Z) (data : list Z) : Z → list Z :=
  match n with
  | O => m
  | S n' => write_sectors n' (λ x, if x =? s then take (Z.to_nat SECTOR) data else m x) (s + 1) (drop (Z.to_nat SECTOR) data)
  end.

(** The next head of the avail ring. *)
Definition dev_fetch (s : vst) : option vst :=
  let v := vdev s in
  if seen v =? aidx (vdrv s) then None
  else Some (VST (vdrv s) (Dev (uidx v) (uring v) (u16 (seen v + 1)) (pending v ++ [at_ (aring (vdrv s)) (seen v mod NUM)]) (media v)) (bufs s) (woken s)).

(** Completing the chain at [h]: a header the device reads, the data, a status
    byte it writes; [None] when the chain is not a request. *)
Definition dev_complete (h : Z) (s : vst) : option vst :=
  let d := vdrv s in let v := vdev s in
  let d0 := at_ (ddesc d) h in
  let d1 := at_ (ddesc d) (next d0) in
  let d2 := at_ (ddesc d) (next d1) in
  match addr d0, addr d1, addr d2 with
  | POps i, PData b, PStatus j =>
      if bool_decide (flags d0 = VRING_DESC_F_NEXT ∧ len d0 = 16 ∧ len d2 = 1 ∧ flags d2 = VRING_DESC_F_WRITE) then
        let req := at_ (ops d) i in
        let n := Z.to_nat (len d1 / SECTOR) in
        let x := bufs s !!! b in
        let m := if rtype req =? VIRTIO_BLK_T_OUT then write_sectors n (media v) (sector req) (vdata x) else media v in
        let bs := if rtype req =? VIRTIO_BLK_T_OUT then bufs s
                  else <[b := VBuf (blockno x) (read_sectors n (media v) (sector req)) (bdisk x)]> (bufs s) in
        if bool_decide (flags d1 = Z.lor (if rtype req =? VIRTIO_BLK_T_OUT then 0 else VRING_DESC_F_WRITE) VRING_DESC_F_NEXT) then
          Some (VST (set_info_status (set_at j 0 (info_status d)) d)
                    (Dev (u16 (uidx v + 1)) (set_at (uidx v mod NUM) h (uring v)) (seen v) (filter (λ x, x ≠ h) (pending v)) m) bs (woken s))
        else None
      else None
  | _, _, _ => None
  end.
