(* ===== verification/Virtiospec.v ===== *)
(** * The disk driver refines an atomic disk

    Threads that call [virtio_disk_rw], the interrupt handler and the device, in
    any interleaving; a step that wakes threads names those that miss the wakeup. *)

From stdpp Require Import functions.
From S2P Require Import Prelude Virtio.

(** ** The machine *)

(** [TReq]: about to look for descriptors; [TWait]: about to test [b->disk]; the
    list is the local array [idx]. *)
Inductive vthread :=
| TIdle
| TReq (b : nat) (w : bool)
| TSleepFree (b : nat) (w : bool)
| TWait (b : nat) (w : bool) (idx : list Z)
| TSleepBuf (b : nat) (w : bool) (idx : list Z).

Record vmach := VMach { vs : vst; vthr : list vthread; crashed : bool }.

(** Threads asleep on a channel of [l] run again. *)
Definition vwake (l : list chan) (x : vthread) : vthread :=
  match x with
  | TSleepFree b w => if bool_decide (CFree ∈ l) then TReq b w else x
  | TSleepBuf b w idx => if bool_decide (CBuf b ∈ l) then TWait b w idx else x
  | _ => x
  end.

(** The same, but the threads of [miss] do not notice. *)
Definition vwake_some (miss : list nat) (l : list chan) (thr : list vthread) : list vthread :=
  imap (λ t x, if bool_decide (t ∈ miss) then x else vwake l x) thr.

(** After a piece of code: the wakeups it made take effect. *)
Definition settle (s : vst) (thr : list vthread) (miss : list nat) (new : list vthread → list vthread) : vmach :=
  VMach (VST (vdrv s) (vdev s) (bufs s) []) (new (vwake_some miss (woken s) thr)) false.

Definition crash (m : vmach) : vmach := VMach (vs m) (vthr m) true.

Definition uses (b : nat) (x : vthread) : bool :=
  match x with TIdle => false | TReq c _ | TSleepFree c _ | TWait c _ _ | TSleepBuf c _ _ => bool_decide (c = b) end.

(** The caller holds the sleep lock of its buffer: nobody else uses it. *)
Definition unused (m : vmach) (b : nat) : bool := negb (existsb (uses b) (vthr m)) && bool_decide (b < length (bufs (vs m)))%nat.

(** A step; with [miss], the sleepers that miss the wakeups it makes.  [VKill] is
    the effect of [kill] on a sleeper. *)
Inductive vop :=
| VStart (t : nat) (b : nat) (w : bool)
| VRun (t : nat) (miss : list nat)
| VIntr (miss : list nat)
| VKill (t : nat)
| VFetch
| VComplete (h : Z)
| VEnv (b : nat) (bn : Z) (data : list Z).

Definition buf_ok (bn : Z) (data : list Z) : bool := bool_decide (0 ≤ bn < 2 ^ 31 ∧ length data = 1024%nat).

Definition vexec (m : vmach) (o : vop) : vmach :=
  let s := vs m in
  match o with
  | VStart t b w =>
      match vthr m !! t with
      | Some TIdle => if unused m b then VMach s (<[t := TReq b w]> (vthr m)) (crashed m) else m
      | _ => m
      end
  | VRun t miss =>
      match vthr m !! t with
      | Some (TReq b w) =>
          match rw_submit b w s with
          | Ok idx s' => settle s' (vthr m) miss (<[t := TWait b w idx]>)
          | Blocked s' => settle s' (vthr m) miss (<[t := TSleepFree b w]>)
          | _ => crash m
          end
      | Some (TWait b w idx) =>
          match rw_finish b (idx !!! 0%nat) s with
          | Ok _ s' => settle s' (vthr m) miss (<[t := TIdle]>)
          | Blocked s' => settle s' (vthr m) miss (<[t := TSleepBuf b w idx]>)
          | _ => crash m
          end
      | _ => m
      end
  | VIntr miss => match virtio_disk_intr s with Ok _ s' => settle s' (vthr m) miss id | _ => crash m end
  | VKill t =>
      match vthr m !! t with
      | Some (TSleepFree b w) => VMach s (<[t := TReq b w]> (vthr m)) (crashed m)
      | Some (TSleepBuf b w idx) => VMach s (<[t := TWait b w idx]> (vthr m)) (crashed m)
      | _ => m
      end
  | VFetch => match dev_fetch s with Some s' => VMach s' (vthr m) (crashed m) | None => m end
  | VComplete h =>
      if bool_decide (h ∈ pending (vdev s)) then
        match dev_complete h s with Some s' => VMach s' (vthr m) (crashed m) | None => crash m end
      else m
  | VEnv b bn data =>
      if unused m b && buf_ok bn data then VMach (set_bufs (alter (λ x, VBuf bn data (bdisk x)) b (bufs s)) s) (vthr m) (crashed m) else m
  end.

(** A step in which every sleeper notices its wakeup. *)
Definition lossless (o : vop) : Prop := match o with VRun _ miss | VIntr miss => miss = [] | _ => True end.

(** After [virtio_disk_init]: every descriptor is free, the rings are empty. *)
Definition vst0 (bs : list vbuf) (m : Z → list Z) : vst :=
  VST (Drv (replicate 8 1) (replicate 8 (VDesc PNull 0 0 0)) 0 (replicate 8 0) 0 (replicate 8 None) (replicate 8 0) (replicate 8 (BlkReq 0 0 0)))
      (Dev 0 (replicate 8 0) 0 [] m) bs [].

Definition vmach0 (nt : nat) (bs : list vbuf) (m : Z → list Z) : vmach := VMach (vst0 bs m) (replicate nt TIdle) false.

(** ** The atomic disk *)

Inductive athread := AIdle | APend (b : nat) (w : bool) | ADone (b : nat) (w : bool).

Record adisk := ADisk { amedia : Z → list Z; abufs : list (Z * list Z); athr : list athread }.

Definition block_read (m : Z → list Z) (bn : Z) : list Z := m (2 * bn) ++ m (2 * bn + 1).

Definition block_write (m : Z → list Z) (bn : Z) (data : list Z) : Z → list Z := λ x,
  if x =? 2 * bn + 1 then drop 512 data else if x =? 2 * bn then take 512 data else m x.

(** A request starts, takes effect in one step, and returns after that. *)
Inductive astep (a : adisk) : adisk → Prop :=
| a_start t b w : athr a !! t = Some AIdle → astep a (ADisk (amedia a) (abufs a) (<[t := APend b w]> (athr a)))
| a_read t b bn d : athr a !! t = Some (APend b false) → abufs a !! b = Some (bn, d) →
    astep a (ADisk (amedia a) (<[b := (bn, block_read (amedia a) bn)]> (abufs a)) (<[t := ADone b false]> (athr a)))
| a_write t b bn d m' : athr a !! t = Some (APend b true) → abufs a !! b = Some (bn, d) →
    (∀ x, m' x = block_write (amedia a) bn d x) →
    astep a (ADisk m' (abufs a) (<[t := ADone b true]> (athr a)))
| a_return t b w : athr a !! t = Some (ADone b w) → astep a (ADisk (amedia a) (abufs a) (<[t := AIdle]> (athr a)))
| a_env b bn d : (∀ t w, athr a !! t ≠ Some (APend b w) ∧ athr a !! t ≠ Some (ADone b w)) →
    astep a (ADisk (amedia a) (<[b := (bn, d)]> (abufs a)) (athr a)).

Definition abs_thread (d : drv) (x : vthread) : athread :=
  match x with
  | TIdle => AIdle
  | TReq b w | TSleepFree b w => APend b w
  | TWait b w idx | TSleepBuf b w idx => if at_ (info_status d) (idx !!! 0%nat) =? 0 then ADone b w else APend b w
  end.

Definition abs (m : vmach) : adisk :=
  ADisk (media (vdev (vs m))) ((λ x, (blockno x, vdata x)) <$> bufs (vs m)) (abs_thread (vdrv (vs m)) <$> vthr m).

(** ** The rings *)

(** The entries from [lo] to [hi]. *)
Definition ring_list (ring : list Z) (lo hi : Z) : list Z := (λ k, at_ ring ((lo + k) mod NUM)) <$> seqZ 0 (u16 (hi - lo)).

(** Published and not fetched; completed and not acknowledged. *)
Definition unfetched (s : vst) : list Z := ring_list (aring (vdrv s)) (seen (vdev s)) (aidx (vdrv s)).
Definition unacked (s : vst) : list Z := ring_list (uring (vdev s)) (used_idx (vdrv s)) (uidx (vdev s)).

Lemma length_ring_list ring lo hi : Z.of_nat (length (ring_list ring lo hi)) = u16 (hi - lo).
Proof. unfold ring_list. rewrite length_fmap, length_seqZ. unfold u16. zdm. Qed.

Lemma at_set_eq {A} `{Inhabited A} (l : list A) i x : 0 ≤ i < Z.of_nat (length l) → at_ (set_at i x l) i = x.
Proof. intros Hi. unfold at_, set_at. apply list_lookup_total_insert_eq. lia. Qed.

Lemma at_set_ne {A} `{Inhabited A} (l : list A) i j x : 0 ≤ i → 0 ≤ j → i ≠ j → at_ (set_at i x l) j = at_ l j.
Proof. intros Hi Hj Hne. unfold at_, set_at. apply list_lookup_total_insert_ne. lia. Qed.

Lemma vring_push ring lo hi x : length ring = 8%nat → u16 (hi - lo) < NUM → 0 ≤ hi →
  ring_list (set_at (hi mod NUM) x ring) lo (u16 (hi + 1)) = ring_list ring lo hi ++ [x].
Proof.
  intros Hl Hn Hh. unfold ring_list. assert (E : u16 (u16 (hi + 1) - lo) = u16 (hi - lo) + 1) by (unfold u16, NUM in *; zdm).
  rewrite E. assert (H0 : 0 ≤ u16 (hi - lo)) by (unfold u16; zdm). rewrite (seqZ_app 0 (u16 (hi - lo)) 1), fmap_app by lia. f_equal.
  - apply list_fmap_ext. intros i k Hk. apply lookup_seqZ in Hk as [-> Hk]. apply at_set_ne; [unfold NUM; zdm|unfold NUM; zdm|]. unfold u16, NUM in *. intros Heq. zdm.
  - cbn [seqZ seq]. change (seqZ (0 + u16 (hi - lo)) 1) with [Z.of_nat 0 + (0 + u16 (hi - lo))]. cbn [fmap list_fmap]. f_equal.
    replace ((lo + (Z.of_nat 0 + (0 + u16 (hi - lo)))) mod NUM) with (hi mod NUM) by (unfold u16, NUM; zdm). apply at_set_eq. rewrite Hl. unfold NUM. zdm.
Qed.

Lemma vring_pop ring lo hi : 0 ≤ lo < 2 ^ 16 → 0 ≤ hi < 2 ^ 16 → lo ≠ hi →
  ring_list ring lo hi = at_ ring (lo mod NUM) :: ring_list ring (u16 (lo + 1)) hi.
Proof.
  intros Hlo Hhi Hne. unfold ring_list. assert (E : u16 (hi - lo) = 1 + u16 (hi - u16 (lo + 1))) by (unfold u16; zdm). rewrite E.
  assert (H0 : 0 ≤ u16 (hi - u16 (lo + 1))) by (unfold u16; zdm). rewrite (seqZ_app 0 1) by lia. rewrite fmap_app. change (seqZ 0 1) with [0]. cbn [fmap list_fmap app].
  f_equal; [by rewrite Z.add_0_r|]. replace (seqZ (0 + 1) (u16 (hi - u16 (lo + 1)))) with (Z.add 1 <$> seqZ 0 (u16 (hi - u16 (lo + 1)))) by (rewrite fmap_add_seqZ; done).
  rewrite <- list_fmap_compose. apply list_fmap_ext. intros i k _. cbn. f_equal. unfold u16, NUM. zdm.
Qed.

Lemma vring_empty ring lo : ring_list ring lo lo = [].
Proof. unfold ring_list. by rewrite Z.sub_diag. Qed.

Lemma ring_nil ring lo hi : 0 ≤ lo < 2 ^ 16 → 0 ≤ hi < 2 ^ 16 → ring_list ring lo hi = [] → lo = hi.
Proof. intros Hlo Hhi E. pose proof (length_ring_list ring lo hi) as Hl. rewrite E in Hl. cbn in Hl. unfold u16 in Hl. zdm. Qed.

(** ** Allocation of descriptors *)

Definition mk (s : vst) (F : list Z) (D : list virtq_desc) (W : list chan) : vst :=
  VST (set_ddesc D (set_dfree F (vdrv s))) (vdev s) (bufs s) W.

Lemma mk_id s : mk s (dfree (vdrv s)) (ddesc (vdrv s)) (woken s) = s.
Proof. by destruct s as [[] ? ? ?]. Qed.

Definition nfree (F : list Z) : nat := length (filter (λ x, x ≠ 0) F).

Definition bits (F : list Z) : Prop := length F = 8%nat ∧ ∀ i, 0 ≤ i < NUM → at_ F i = 0 ∨ at_ F i = 1.

Lemma at_lookup {A} `{Inhabited A} (l : list A) i : 0 ≤ i < Z.of_nat (length l) → l !! Z.to_nat i = Some (at_ l i).
Proof. intros Hi. unfold at_. apply list_lookup_lookup_total_lt. lia. Qed.

Lemma first_free_spec l k : 0 ≤ k → (first_free l k = -1 ∧ Forall (λ x, x = 0) l) ∨
  ∃ j : nat, first_free l k = k + Z.of_nat j ∧ (j < length l)%nat ∧ l !!! j ≠ 0.
Proof.
  revert k. induction l as [|x l IH]; intros k Hk; [left; split; [done|constructor]|]. cbn [first_free].
  destruct (Z.eqb_spec x 0) as [->|Hx]; cbn [negb].
  - destruct (IH (k + 1) ltac:(lia)) as [[-> Ha]|(j & -> & Hj & Hn)]; [left; split; [done|by constructor]|]. right. exists (S j). split; [lia|]. cbn. split; [lia|done].
  - right. exists 0%nat. split; [lia|]. cbn. split; [lia|done].
Qed.

Lemma nfree_set F i : 0 ≤ i < Z.of_nat (length F) → at_ F i ≠ 0 → nfree F = S (nfree (set_at i 0 F)).
Proof.
  intros Hi Hn. pose proof (at_lookup F i Hi) as Hl. unfold nfree, set_at.
  rewrite (insert_take_drop F (Z.to_nat i) 0) by lia. rewrite <- (take_drop_middle F (Z.to_nat i) _ Hl) at 1. rewrite !filter_app, !length_app. cbn [filter list_filter].
  rewrite decide_True, decide_False by auto. cbn [length]. lia.
Qed.

Lemma nfree_le (F : list Z) i : 0 ≤ i < Z.of_nat (length F) → (nfree (set_at i 0%Z F) ≤ nfree F)%nat.
Proof.
  intros Hi. destruct (decide (at_ F i = 0)) as [E|E]; [|rewrite (nfree_set F i Hi E); lia]. unfold set_at. rewrite list_insert_id; [done|]. rewrite at_lookup by done. by rewrite E.
Qed.

Lemma nfree_3 (F : list Z) i0 i1 i2 : length F = 8%nat → 0 ≤ i0 < NUM → 0 ≤ i1 < NUM → 0 ≤ i2 < NUM →
  (nfree (set_at i2 0%Z (set_at i1 0%Z (set_at i0 0%Z F))) ≤ nfree F)%nat.
Proof.
  intros Hl H0 H1 H2. unfold NUM in *. etrans; [apply nfree_le; unfold set_at; rewrite !length_insert, Hl; lia|].
  etrans; [apply nfree_le; unfold set_at; rewrite !length_insert, Hl; lia|]. apply nfree_le. lia.
Qed.

Lemma nfree_zero F : Forall (λ x, x = 0) F → nfree F = 0%nat.
Proof. induction 1 as [|x F -> _ IH]; [done|]. unfold nfree in *. cbn. exact IH. Qed.

Lemma bits_set F i x : bits F → 0 ≤ i < NUM → x = 0 ∨ x = 1 → bits (set_at i x F).
Proof.
  intros [Hl Hb] Hi Hx. split; [unfold set_at; by rewrite length_insert|]. intros j Hj. destruct (decide (i = j)) as [->|Hne]; [rewrite at_set_eq; [done|rewrite Hl; unfold NUM in *; lia]|].
  rewrite at_set_ne by lia. by apply Hb.
Qed.

(** One descriptor taken, or none is left. *)
Lemma alloc_desc_ok s F D W : bits F → wp alloc_desc (λ i s',
    (i = -1 ∧ nfree F = 0%nat ∧ s' = mk s F D W) ∨
    (0 ≤ i < NUM ∧ at_ F i = 1 ∧ nfree F = S (nfree (set_at i 0 F)) ∧ s' = mk s (set_at i 0 F) D W)) (mk s F D W).
Proof.
  intros [Hl Hb]. unfold alloc_desc. apply wp_bind, wp_gets. cbn [mk vdrv dfree set_ddesc set_dfree].
  destruct (first_free_spec F 0 ltac:(lia)) as [[-> Ha]|(j & -> & Hj & Hn)]; cbn [Z.ltb Z.compare].
  - apply wp_ret. left. split; [done|]. split; [by apply nfree_zero|done].
  - destruct (Z.ltb_spec (0 + Z.of_nat j) 0); [lia|]. apply wp_bind, wp_modify, wp_ret. right.
    assert (Ha : at_ F (0 + Z.of_nat j) ≠ 0) by (unfold at_; by replace (Z.to_nat (0 + Z.of_nat j)) with j by lia).
    assert (Hr : 0 ≤ 0 + Z.of_nat j < NUM) by (unfold NUM; lia). split; [done|]. split; [destruct (Hb _ Hr); [done|done]|]. split; [apply nfree_set; [lia|done]|done].
Qed.

Lemma free_desc_ok s F D W i : bits F → 0 ≤ i < NUM → at_ F i = 0 →
  wp (free_desc i) (λ _ s', s' = mk s (set_at i 1 F) (set_at i (VDesc PNull 0 0 0) D) (CFree :: W)) (mk s F D W).
Proof.
  intros [Hl Hb] Hi H0. unfold free_desc. rewrite (proj2 (Z.leb_gt NUM i)) by lia. apply wp_bind, wp_gets. cbn [mk vdrv dfree set_ddesc set_dfree].
  rewrite H0. cbn [Z.eqb negb]. apply wp_bind, wp_modify, wp_bind, wp_modify, wp_modify. done.
Qed.

(** [D'] differs from [D] only where [F] says the descriptor is free. *)
Definition free_only (F : list Z) (D D' : list virtq_desc) : Prop :=
  length D' = length D ∧ ∀ i, 0 ≤ i < NUM → at_ F i = 0 → at_ D' i = at_ D i.

Lemma set_back F i : bits F → 0 ≤ i < NUM → at_ F i = 1 → set_at i 1 (set_at i 0 F) = F.
Proof.
  intros [Hl _] Hi H1. unfold set_at. rewrite list_insert_insert_eq. apply list_insert_id. rewrite at_lookup by (rewrite Hl; unfold NUM in *; lia). by rewrite H1.
Qed.

Lemma set_swap {A} i j (x y : A) l : 0 ≤ i → 0 ≤ j → i ≠ j → set_at i x (set_at j y l) = set_at j y (set_at i x l).
Proof. intros Hi Hj Hne. unfold set_at. apply list_insert_insert_ne. lia. Qed.

Lemma free_only_set F D i d : 0 ≤ i → at_ F i = 1 → free_only F D (set_at i d D).
Proof. intros Hi H1. split; [unfold set_at; by rewrite length_insert|]. intros j Hj H0. apply at_set_ne; [lia|lia|]. intros ->. congruence. Qed.

Lemma free_only_trans F D1 D2 D3 : free_only F D1 D2 → free_only F D2 D3 → free_only F D1 D3.
Proof. intros [L1 H1] [L2 H2]. split; [congruence|]. intros i Hi H0. by rewrite H2, H1. Qed.

Lemma alloc3_ok s F D : bits F → wp alloc3_desc (λ r s', match r with
    | None => (nfree F < 3)%nat ∧ ∃ D' W', s' = mk s F D' W' ∧ free_only F D D' ∧ ∀ b, CBuf b ∉ W'
    | Some idx => ∃ i0 i1 i2, idx = [i0; i1; i2] ∧ 0 ≤ i0 < NUM ∧ 0 ≤ i1 < NUM ∧ 0 ≤ i2 < NUM ∧ i0 ≠ i1 ∧ i0 ≠ i2 ∧ i1 ≠ i2 ∧
        at_ F i0 = 1 ∧ at_ F i1 = 1 ∧ at_ F i2 = 1 ∧ s' = mk s (set_at i2 0 (set_at i1 0 (set_at i0 0 F))) D []
    end) (mk s F D []).
Proof.
  intros Hb. pose proof Hb as [Hl _]. unfold alloc3_desc. cbn [alloc_loop app].
  apply wp_bind. eapply wp_mono; [|by apply alloc_desc_ok]. intros i0 s1 [(-> & Hn & ->)|(R0 & A0 & N0 & ->)].
  { cbn. apply wp_ret. split; [lia|]. exists D, []. split; [done|]. split; [done|]. intros b. apply not_elem_of_nil. }
  rewrite (proj2 (Z.ltb_ge i0 0)) by lia. assert (B0 : bits (set_at i0 0 F)) by (apply bits_set; auto).
  assert (E0 : at_ (set_at i0 0 F) i0 = 0) by (apply at_set_eq; rewrite Hl; unfold NUM in *; lia).
  apply wp_bind. eapply wp_mono; [|by apply alloc_desc_ok]. intros i1 s2 [(-> & Hn & ->)|(R1 & A1 & N1 & ->)].
  { cbn [Z.ltb Z.compare forM]. apply wp_bind, wp_bind. eapply wp_mono; [|by apply free_desc_ok]. intros _ ? ->. apply wp_ret, wp_ret. split; [lia|].
    rewrite set_back by done. eexists _, _. split; [done|]. split; [by apply free_only_set; [lia|]|]. set_solver. }
  rewrite (proj2 (Z.ltb_ge i1 0)) by lia. assert (i0 ≠ i1) by (intros ->; lia). rewrite at_set_ne in A1 by lia.
  assert (B1 : bits (set_at i1 0 (set_at i0 0 F))) by (apply bits_set; auto).
  assert (E1 : at_ (set_at i1 0 (set_at i0 0 F)) i1 = 0) by (apply at_set_eq; unfold set_at; rewrite length_insert, Hl; unfold NUM in *; lia).
  apply wp_bind. eapply wp_mono; [|by apply alloc_desc_ok]. intros i2 s3 [(-> & Hn & ->)|(R2 & A2 & N2 & ->)].
  { cbn [Z.ltb Z.compare forM]. apply wp_bind, wp_bind. eapply wp_mono; [|apply free_desc_ok; [done|done|by rewrite at_set_ne by lia]]. intros _ ? ->.
    rewrite set_swap, set_back by (done || lia).
    assert (B1' : bits (set_at i1 0 F)) by (apply bits_set; auto). apply wp_bind. eapply wp_mono; [|apply free_desc_ok; [done|done|apply at_set_eq; rewrite Hl; unfold NUM in *; lia]]. intros _ ? ->.
    apply wp_ret, wp_ret. split; [lia|]. rewrite set_back by done. eexists _, _. split; [done|].
    split; [eapply free_only_trans; apply free_only_set; done || lia|]. set_solver. }
  rewrite (proj2 (Z.ltb_ge i2 0)) by lia. apply wp_ret.
  assert (i1 ≠ i2) by (intros ->; lia). rewrite at_set_ne in A2 by lia. assert (i0 ≠ i2) by (intros ->; lia). rewrite at_set_ne in A2 by lia.
  exists i0, i1, i2. repeat (split; [done|]). done.
Qed.

(** ** The invariant of the driver and the device *)

(** A request in flight: its buffer, its direction, its three descriptors. *)
Record vreq := VReq { rbuf : nat; rwrite : bool; head : Z; mid : Z; last : Z }.

Definition owns (r : vreq) (i : Z) : Prop := i = head r ∨ i = mid r ∨ i = last r.

Definition queue (s : vst) : list Z := unfetched s ++ pending (vdev s) ++ unacked s.

Definition status_of (s : vst) (r : vreq) : Z := at_ (info_status (vdrv s)) (head r).
Definition disk_flag (s : vst) (b : nat) : Z := bdisk (bufs s !!! b).

Record req_ok (s : vst) (r : vreq) : Prop := {
  R_range : ∀ i, owns r i → 0 ≤ i < NUM;
  R_distinct : head r ≠ mid r ∧ head r ≠ last r ∧ mid r ≠ last r;
  R_taken : ∀ i, owns r i → at_ (dfree (vdrv s)) i = 0;
  R_head : at_ (ddesc (vdrv s)) (head r) = VDesc (POps (head r)) 16 VRING_DESC_F_NEXT (mid r);
  R_mid : at_ (ddesc (vdrv s)) (mid r) = VDesc (PData (rbuf r)) BSIZE (Z.lor (if rwrite r then 0 else VRING_DESC_F_WRITE) VRING_DESC_F_NEXT) (last r);
  R_last : at_ (ddesc (vdrv s)) (last r) = VDesc (PStatus (head r)) 1 VRING_DESC_F_WRITE 0;
  R_ops : at_ (ops (vdrv s)) (head r) = BlkReq (if rwrite r then VIRTIO_BLK_T_OUT else VIRTIO_BLK_T_IN) 0 (2 * blockno (bufs s !!! rbuf r));
  R_info : at_ (info_b (vdrv s)) (head r) = Some (rbuf r);
  R_buf : (rbuf r < length (bufs s))%nat;
}.

(** Published or being processed; completed; acknowledged by the interrupt. *)
Inductive phase (s : vst) (r : vreq) : Prop :=
| ph_queued : head r ∈ unfetched s ++ pending (vdev s) → status_of s r = 255 → disk_flag s (rbuf r) = 1 → phase s r
| ph_done : head r ∈ unacked s → status_of s r = 0 → disk_flag s (rbuf r) = 1 → phase s r
| ph_acked : head r ∉ queue s → status_of s r = 0 → disk_flag s (rbuf r) = 0 → phase s r.

Record lens (s : vst) : Prop := {
  L_desc : length (ddesc (vdrv s)) = 8%nat;
  L_aring : length (aring (vdrv s)) = 8%nat;
  L_uring : length (uring (vdev s)) = 8%nat;
  L_info : length (info_b (vdrv s)) = 8%nat;
  L_status : length (info_status (vdrv s)) = 8%nat;
  L_ops : length (ops (vdrv s)) = 8%nat;
  L_idx : 0 ≤ aidx (vdrv s) < 2 ^ 16 ∧ 0 ≤ seen (vdev s) < 2 ^ 16 ∧ 0 ≤ used_idx (vdrv s) < 2 ^ 16 ∧ 0 ≤ uidx (vdev s) < 2 ^ 16;
}.

(** [R t] is the request of the thread [t]. *)
Record VS (s : vst) (R : nat → option vreq) : Prop := {
  S_bits : bits (dfree (vdrv s));
  S_len : lens s;
  S_bufs : ∀ b x, bufs s !! b = Some x → 0 ≤ blockno x < 2 ^ 31 ∧ length (vdata x) = 1024%nat;
  S_req : ∀ t r, R t = Some r → req_ok s r ∧ phase s r;
  S_disj : ∀ t t' r r', R t = Some r → R t' = Some r' → t ≠ t' → rbuf r ≠ rbuf r' ∧ ∀ i, owns r i → ¬ owns r' i;
  S_queue : ∀ h, h ∈ queue s → ∃ t r, R t = Some r ∧ head r = h;
  S_nodup : NoDup (queue s);
  S_leak : ∀ i, 0 ≤ i < NUM → at_ (dfree (vdrv s)) i = 0 → ∃ t r, R t = Some r ∧ owns r i;
  S_media : ∀ x, length (media (vdev s) x) = 512%nat;
}.

(** The contents of buffers and disk, and the status of the requests, are the
    same. *)
Definition same_view (R : nat → option vreq) (s s' : vst) : Prop :=
  media (vdev s') = media (vdev s) ∧ ((λ x, (blockno x, vdata x)) <$> bufs s') = ((λ x, (blockno x, vdata x)) <$> bufs s) ∧
  ∀ t r, R t = Some r → status_of s' r = status_of s r.

Lemma head_owned r : owns r (head r).
Proof. by left. Qed.

Lemma heads_short (l : list Z) : NoDup l → (∀ h, h ∈ l → 0 ≤ h < NUM) → (length l ≤ 8)%nat.
Proof.
  intros Hn Hr. rewrite <- (length_fmap Z.to_nat l). apply NoDup_length_bound.
  - apply NoDup_fmap_2_strong; [|done]. intros x y Hx Hy E. pose proof (Hr x Hx). pose proof (Hr y Hy). lia.
  - apply Forall_forall. intros n Hin. apply list_elem_of_fmap in Hin as (h & -> & Hh). specialize (Hr h Hh). unfold NUM in Hr. lia.
Qed.

Lemma queue_range s R h : VS s R → h ∈ queue s → 0 ≤ h < NUM ∧ at_ (dfree (vdrv s)) h = 0.
Proof.
  intros HV Hh. destruct (S_queue _ _ HV h Hh) as (t & r & Hr & <-). destruct (S_req _ _ HV t r Hr) as [Hok _].
  split; [apply (R_range _ _ Hok), head_owned|apply (R_taken _ _ Hok), head_owned].
Qed.

Lemma elem_mid {A} (x y : A) l1 l2 : x ∈ (l1 ++ [y]) ++ l2 ↔ x = y ∨ x ∈ l1 ++ l2.
Proof. rewrite !elem_of_app, list_elem_of_singleton. tauto. Qed.

Lemma disk_flag_alter s b b' f : b' ≠ b → (alter f b (bufs s)) !!! b' = bufs s !!! b'.
Proof. intros Hne. by apply list_lookup_total_alter_ne. Qed.

Lemma view_alter (f : vbuf → vbuf) b (l : list vbuf) : (∀ x, blockno (f x) = blockno x ∧ vdata (f x) = vdata x) →
  ((λ x, (blockno x, vdata x)) <$> alter f b l) = ((λ x, (blockno x, vdata x)) <$> l).
Proof.
  intros Hf. revert b. induction l as [|x l IH]; intros b; [done|]. destruct b as [|b]; cbn; [destruct (Hf x) as [-> ->]; done|]. f_equal. apply IH.
Qed.

(** *** A new request *)

Section submit.
Variables (s : vst) (R : nat → option vreq) (t b : nat) (w : bool) (i0 i1 i2 : Z).
Hypothesis HV : VS s R.
Hypothesis Ht : R t = None.
Hypothesis Hb : (b < length (bufs s))%nat.
Hypothesis Hun : ∀ t r, R t = Some r → rbuf r ≠ b.
Hypothesis R0 : 0 ≤ i0 < NUM.
Hypothesis R1 : 0 ≤ i1 < NUM.
Hypothesis R2 : 0 ≤ i2 < NUM.
Hypothesis N01 : i0 ≠ i1.
Hypothesis N02 : i0 ≠ i2.
Hypothesis N12 : i1 ≠ i2.
Hypothesis F0 : at_ (dfree (vdrv s)) i0 = 1.
Hypothesis F1 : at_ (dfree (vdrv s)) i1 = 1.
Hypothesis F2 : at_ (dfree (vdrv s)) i2 = 1.

Let d := vdrv s.
Let new := VReq b w i0 i1 i2.

Definition submitted : vst := VST
  (Drv (set_at i2 0 (set_at i1 0 (set_at i0 0 (dfree d))))
    (set_at i2 (VDesc (PStatus i0) 1 VRING_DESC_F_WRITE 0)
      (set_at i1 (VDesc (PData b) BSIZE (Z.lor (if w then 0 else VRING_DESC_F_WRITE) VRING_DESC_F_NEXT) i2)
        (set_at i0 (VDesc (POps i0) 16 VRING_DESC_F_NEXT i1) (ddesc d))))
    (u16 (aidx d + 1)) (set_at (aidx d mod NUM) i0 (aring d)) (used_idx d) (set_at i0 (Some b) (info_b d)) (set_at i0 255 (info_status d))
    (set_at i0 (BlkReq (if w then VIRTIO_BLK_T_OUT else VIRTIO_BLK_T_IN) 0 (u32 (blockno (bufs s !!! b) * (BSIZE / 512)))) (ops d)))
  (vdev s) (alter (λ x, VBuf (blockno x) (vdata x) 1) b (bufs s)) [].

Lemma submit_eq : submit b w i0 i1 i2 (mk s (set_at i2 0 (set_at i1 0 (set_at i0 0 (dfree d)))) (ddesc d) []) = Ok tt submitted.
Proof. reflexivity. Qed.

Lemma old_apart t' r i : R t' = Some r → owns r i → i ≠ i0 ∧ i ≠ i1 ∧ i ≠ i2 ∧ 0 ≤ i < NUM.
Proof.
  intros Hr Hi. destruct (S_req _ _ HV t' r Hr) as [Hok _]. pose proof (R_taken _ _ Hok i Hi). pose proof (R_range _ _ Hok i Hi).
  repeat split; try (intros ->); lia || congruence.
Qed.

Lemma queue_room : (length (queue s) < 8)%nat.
Proof.
  assert (length (i0 :: queue s) ≤ 8)%nat; [|cbn in *; lia]. apply heads_short.
  - constructor; [|apply (S_nodup _ _ HV)]. intros Hin. apply (queue_range s R) in Hin as [_ Hin]; [|done]. congruence.
  - intros h Hh. apply elem_of_cons in Hh as [->|Hh]; [done|]. by apply (queue_range s R).
Qed.

Lemma submitted_unfetched : unfetched submitted = unfetched s ++ [i0].
Proof.
  destruct (S_len _ _ HV) as [_ L2 _ _ _ _ (I1 & _)]. pose proof queue_room as Hq. unfold queue, unfetched in *. rewrite !length_app in Hq. cbn [submitted vdrv vdev aring aidx].
  apply vring_push; [done| |lia]. pose proof (length_ring_list (aring (vdrv s)) (seen (vdev s)) (aidx (vdrv s))). unfold NUM. unfold d. lia.
Qed.

Lemma submitted_queue : queue submitted ≡ₚ i0 :: queue s.
Proof.
  unfold queue. rewrite submitted_unfetched. change (unacked submitted) with (unacked s). change (pending (vdev submitted)) with (pending (vdev s)).
  rewrite <- !app_assoc. cbn [app]. by rewrite <- Permutation_middle.
Qed.

Lemma submitted_buf b' : blockno (bufs submitted !!! b') = blockno (bufs s !!! b') ∧ (b' ≠ b → disk_flag submitted b' = disk_flag s b').
Proof.
  cbn [submitted bufs]. split.
  - destruct (decide (b' = b)) as [->|Hne]; [by rewrite list_lookup_total_alter_eq|by rewrite list_lookup_total_alter_ne].
  - intros Hne. unfold disk_flag. cbn [submitted bufs]. by rewrite list_lookup_total_alter_ne.
Qed.

Lemma submitted_old t' r : R t' = Some r → req_ok submitted r ∧ phase submitted r.
Proof.
  intros Hr. destruct (S_req _ _ HV t' r Hr) as [[Q1 Q2 Q3 Q4 Q5 Q6 Q7 Q8 Q9] Hph].
  assert (Ho : ∀ {A} `{Inhabited A} i (x y z : A) l, owns r i → at_ (set_at i2 x (set_at i1 y (set_at i0 z l))) i = at_ l i).
  { intros A ? i x y z l Hi. destruct (old_apart t' r i Hr Hi) as (? & ? & ? & ?). rewrite !at_set_ne by lia. done. }
  assert (Hh : ∀ {A} `{Inhabited A} (x : A) l, at_ (set_at i0 x l) (head r) = at_ l (head r)).
  { intros A ? x l. destruct (old_apart t' r _ Hr (head_owned r)) as (? & ? & ? & ?). rewrite at_set_ne by lia. done. }
  destruct (submitted_buf (rbuf r)) as [Hbn Hfl]. specialize (Hfl (Hun _ _ Hr)). split.
  - split; cbn [submitted vdrv vdev dfree ddesc ops info_b]; try done.
    + intros i Hi. rewrite Ho by done. by apply Q3.
    + rewrite Ho by apply head_owned. done.
    + rewrite Ho by (right; left; done). done.
    + rewrite Ho by (right; right; done). done.
    + rewrite Hh. unfold d. rewrite Q7. by rewrite Hbn.
    + by rewrite Hh.
    + cbn [submitted bufs]. by rewrite length_alter.
  - assert (Est : status_of submitted r = status_of s r) by (unfold status_of; cbn [submitted vdrv info_status]; apply Hh).
    destruct Hph as [P1 P2 P3|P1 P2 P3|P1 P2 P3].
    + apply ph_queued; [|by rewrite Est|by rewrite Hfl]. rewrite submitted_unfetched. apply elem_mid. right. exact P1.
    + apply ph_done; [exact P1|by rewrite Est|by rewrite Hfl].
    + apply ph_acked; [|by rewrite Est|by rewrite Hfl]. rewrite submitted_queue. apply not_elem_of_cons. split; [|done].
      destruct (old_apart t' r _ Hr (head_owned r)) as (? & _). done.
Qed.

Lemma submitted_new : req_ok submitted new ∧ phase submitted new.
Proof.
  destruct (S_len _ _ HV) as [L1 L2 L3 L4 L5 L6 _]. pose proof (S_bits _ _ HV) as [Lf _].
  assert (Hs : ∀ {A} i (x : A) l, length (set_at i x l) = length l) by (intros; unfold set_at; apply length_insert).
  assert (Hsec : u32 (blockno (bufs s !!! b) * (BSIZE / 512)) = 2 * blockno (bufs s !!! b)).
  { destruct (lookup_lt_is_Some_2 _ _ Hb) as [x Hx]. rewrite (lookup_total_Some _ _ _ Hx). destruct (S_bufs _ _ HV b x Hx) as [Hbn _]. change (BSIZE / 512) with 2. unfold u32. rewrite Z.mod_small; lia. }
  assert (H8 : Z.of_nat 8 = NUM) by done. unfold d in *. split.
  - split; cbn [submitted vdrv vdev dfree ddesc ops info_b head mid last rbuf rwrite new]; unfold d.
    + intros i [->|[->| ->]]; done.
    + done.
    + intros i [->|[->| ->]]; cbn [new head mid last]; [rewrite 2!at_set_ne by lia|rewrite at_set_ne by lia|]; apply at_set_eq; rewrite ?Hs, Lf; lia.
    + rewrite 2!at_set_ne by lia. apply at_set_eq. rewrite L1. lia.
    + rewrite at_set_ne by lia. apply at_set_eq. rewrite Hs, L1. lia.
    + apply at_set_eq. rewrite !Hs, L1. lia.
    + rewrite at_set_eq by (rewrite L6; lia). rewrite Hsec. destruct (submitted_buf b) as [-> _]. done.
    + apply at_set_eq. rewrite L4. lia.
    + cbn [submitted bufs]. by rewrite length_alter.
  - apply ph_queued.
    + rewrite submitted_unfetched. apply elem_mid. by left.
    + unfold status_of. cbn [submitted vdrv info_status new head]. apply at_set_eq. unfold d. rewrite L5. lia.
    + unfold disk_flag. cbn [submitted bufs new rbuf]. by rewrite list_lookup_total_alter_eq.
Qed.

Lemma submitted_ok : VS submitted (<[t := Some new]> R) ∧ same_view R s submitted.
Proof.
  pose proof HV as [Hbits [L1 L2 L3 L4 L5 L6 (I1 & I2 & I3 & I4)] Hbufs Hreq Hdisj Hqueue Hnd Hleak Hmedia].
  assert (Hs : ∀ {A} i (x : A) l, length (set_at i x l) = length l) by (intros; unfold set_at; apply length_insert).
  assert (Hins : ∀ t' r, <[t := Some new]> R t' = Some r → t' = t ∧ r = new ∨ t' ≠ t ∧ R t' = Some r).
  { intros t' r. unfold insert, fn_insert. case_decide as E; [intros [= <-]; by left|by right]. }
  assert (Hnew : <[t := Some new]> R t = Some new) by (unfold insert, fn_insert; by rewrite decide_True).
  assert (Hkeep : ∀ t' r, R t' = Some r → <[t := Some new]> R t' = Some r) by (intros t' r Hr; unfold insert, fn_insert; rewrite decide_False; [done|congruence]).
  split; [split|split; [done|split; [apply view_alter; done|]]].
  - cbn [submitted vdrv dfree]. repeat apply bits_set; auto.
  - split; cbn [submitted vdrv vdev ddesc aring uring info_b info_status ops aidx used_idx]; unfold d; rewrite ?Hs; try done. unfold u16. zdm.
  - intros b' x Hx. cbn [submitted bufs] in Hx. rewrite list_lookup_alter in Hx. case_decide; [|by apply (Hbufs b')]. apply fmap_Some in Hx as (y & Hy & ->). exact (Hbufs _ y Hy).
  - intros t' r Hr. apply Hins in Hr as [[-> ->]|[_ Hr]]; [apply submitted_new|by apply (submitted_old t')].
  - intros t' t'' r r' Hr Hr' Hne. apply Hins in Hr as [[-> ->]|[_ Hr]]; apply Hins in Hr' as [[-> ->]|[_ Hr']]; [done| | |by apply (Hdisj t' t'')].
    + split; [intros E; by apply (Hun _ _ Hr')|]. intros i Hi Hi'. destruct (old_apart _ _ _ Hr' Hi') as (? & ? & ? & _). destruct Hi as [->|[->| ->]]; done.
    + split; [by apply (Hun _ _ Hr)|]. intros i Hi Hi'. destruct (old_apart _ _ _ Hr Hi) as (? & ? & ? & _). destruct Hi' as [->|[->| ->]]; done.
  - intros h. rewrite submitted_queue. intros Hh. apply elem_of_cons in Hh as [->|Hh]; [by exists t, new|]. destruct (Hqueue h Hh) as (t' & r & Hr & <-). exists t', r. split; [by apply Hkeep|done].
  - rewrite submitted_queue. constructor; [|done]. intros Hin. apply (queue_range s R) in Hin as [_ Hin]; [|done]. congruence.
  - intros i Hi Hz. cbn [submitted vdrv dfree] in Hz. destruct (decide (i = i0 ∨ i = i1 ∨ i = i2)) as [Ho|Ho]; [by exists t, new|].
    assert (i ≠ i0 ∧ i ≠ i1 ∧ i ≠ i2) as (? & ? & ?) by tauto. rewrite !at_set_ne in Hz by lia.
    destruct (Hleak i Hi Hz) as (t' & r & Hr & Hor). exists t', r. split; [by apply Hkeep|done].
  - exact Hmedia.
  - intros t' r Hr. unfold status_of. cbn [submitted vdrv info_status]. destruct (old_apart _ _ _ Hr (head_owned r)) as (? & ? & ? & ?). apply at_set_ne; lia.
Qed.
End submit.

(** *** The end of a request *)

Lemma chain_step s F D W i d n (Q : unit → vst → Prop) : bits F → 0 ≤ i < NUM → at_ F i = 0 → at_ D i = d →
  (if negb (Z.land (flags d) VRING_DESC_F_NEXT =? 0) then
     wp (iterM n free_chain_body (next d)) Q (mk s (set_at i 1 F) (set_at i (VDesc PNull 0 0 0) D) (CFree :: W))
   else Q tt (mk s (set_at i 1 F) (set_at i (VDesc PNull 0 0 0) D) (CFree :: W))) →
  wp (iterM (S n) free_chain_body i) Q (mk s F D W).
Proof.
  intros Hb Hi H0 Hd HQ. cbn [iterM]. apply wp_bind. unfold free_chain_body. apply wp_bind, wp_gets. cbn [mk vdrv set_ddesc ddesc]. rewrite Hd.
  apply wp_bind. eapply wp_mono; [|by apply free_desc_ok]. intros _ s' ->. destruct (negb _); apply wp_ret; exact HQ.
Qed.

Definition chain_freed (s : vst) (r : vreq) : vst :=
  mk (upd_drv (λ d, set_info_b (set_at (head r) None (info_b d)) d) s)
    (set_at (last r) 1 (set_at (mid r) 1 (set_at (head r) 1 (dfree (vdrv s)))))
    (set_at (last r) (VDesc PNull 0 0 0) (set_at (mid r) (VDesc PNull 0 0 0) (set_at (head r) (VDesc PNull 0 0 0) (ddesc (vdrv s)))))
    [CFree; CFree; CFree].

Lemma rw_finish_eq s R t r : VS s R → R t = Some r → woken s = [] →
  rw_finish (rbuf r) (head r) s = if disk_flag s (rbuf r) =? 1 then Blocked s else Ok tt (chain_freed s r).
Proof.
  intros HV Hr Hw. unfold rw_finish, disk_flag. destruct (bdisk (bufs s !!! rbuf r) =? 1) eqn:E; [unfold mbind, M_bind, gets; by rewrite E|].
  assert (Hwp : wp (rw_finish (rbuf r) (head r)) (λ _ s', s' = chain_freed s r) s).
  2:{ destruct (proj1 (wp_ok _ _ _) Hwp) as (u & s' & Es & ->). destruct u. unfold rw_finish in Es. exact Es. }
  unfold rw_finish. apply wp_bind, wp_gets. rewrite E. apply wp_bind, wp_modify. destruct (S_req _ _ HV t r Hr) as [[Q1 (N1 & N2 & N3) Q3 Q4 Q5 Q6 _ _ _] _].
  pose proof (S_bits _ _ HV) as Hb. set (s1 := upd_drv _ s). assert (E1 : s1 = mk s1 (dfree (vdrv s)) (ddesc (vdrv s)) []) by (unfold s1; rewrite <- Hw; by destruct s as [[] ? ? ?]).
  rewrite E1. assert (H0 := Q1 _ (head_owned r)). assert (H1 := Q1 (mid r) (or_intror (or_introl eq_refl))). assert (H2 := Q1 (last r) (or_intror (or_intror eq_refl))).
  unfold free_chain. eapply chain_step; [done|done|apply Q3, head_owned|exact Q4|]. cbn [flags next]. change (negb (Z.land VRING_DESC_F_NEXT VRING_DESC_F_NEXT =? 0)) with true. cbv iota.
  eapply chain_step; [apply bits_set; auto|done|rewrite at_set_ne by lia; apply Q3; right; by left|rewrite at_set_ne by lia; exact Q5|]. cbn [flags next].
  replace (negb (Z.land (Z.lor (if rwrite r then 0 else VRING_DESC_F_WRITE) VRING_DESC_F_NEXT) VRING_DESC_F_NEXT =? 0)) with true by (by destruct (rwrite r)). cbv iota.
  eapply chain_step; [repeat apply bits_set; auto|done|rewrite !at_set_ne by lia; apply Q3; right; by right|rewrite !at_set_ne by lia; exact Q6|]. reflexivity.
Qed.

Lemma chain_freed_ok s R t r : VS s R → R t = Some r → disk_flag s (rbuf r) ≠ 1 →
  VS (chain_freed s r) (<[t := None]> R) ∧ same_view R s (chain_freed s r) ∧ status_of s r = 0.
Proof.
  intros HV Hr Hf. pose proof HV as [Hbits [L1 L2 L3 L4 L5 L6 LI] Hbufs Hreq Hdisj Hqueue Hnd Hleak Hmedia].
  assert (Hs : ∀ {A} i (x : A) l, length (set_at i x l) = length l) by (intros; unfold set_at; apply length_insert).
  destruct (Hreq t r Hr) as [[Q1 (N1 & N2 & N3) Q3 _ _ _ _ _ _] Hph]. assert (H0 := Q1 _ (head_owned r)). assert (H1 := Q1 (mid r) (or_intror (or_introl eq_refl))). assert (H2 := Q1 (last r) (or_intror (or_intror eq_refl))).
  assert (Hacked : head r ∉ queue s ∧ status_of s r = 0) by (destruct Hph; [done|done|done]). destruct Hacked as [Hnq Hst].
  assert (Hins : ∀ t' r', <[t := None]> R t' = Some r' → t' ≠ t ∧ R t' = Some r') by (intros t' r'; unfold insert, fn_insert; case_decide; [done|]; intros; split; [congruence|done]).
  assert (Hkeep : ∀ t' r', R t' = Some r' → t' ≠ t → <[t := None]> R t' = Some r') by (intros t' r' H' Hne; unfold insert, fn_insert; by rewrite decide_False).
  assert (Hap : ∀ t' r' i, <[t := None]> R t' = Some r' → owns r' i → i ≠ head r ∧ i ≠ mid r ∧ i ≠ last r ∧ 0 ≤ i < NUM).
  { intros t' r' i [Hne Hr']%Hins Hi. destruct (Hdisj t' t r' r Hr' Hr Hne) as [_ Hd]. specialize (Hd i Hi). unfold owns in Hd. destruct (Hreq t' r' Hr') as [Hok _]. pose proof (R_range _ _ Hok i Hi). tauto. }
  assert (Hfree : dfree (vdrv (chain_freed s r)) = set_at (last r) 1 (set_at (mid r) 1 (set_at (head r) 1 (dfree (vdrv s))))) by done.
  split; [split|done].
  - rewrite Hfree. repeat apply bits_set; auto.
  - split; cbn [chain_freed mk upd_drv vdrv vdev set_ddesc set_dfree set_info_b ddesc aring uring info_b info_status ops]; rewrite ?Hs; done.
  - exact Hbufs.
  - intros t' r' Hr'. pose proof (Hap t' r') as Ha. destruct (Hins _ _ Hr') as [Hne HR]. destruct (Hreq t' r' HR) as [[P1 P2 P3 P4 P5 P6 P7 P8 P9] P]. split; [|by destruct P; [apply ph_queued|apply ph_done|apply ph_acked]].
    assert (Ho : ∀ {A} `{Inhabited A} i (x y z : A) l, owns r' i → at_ (set_at (last r) x (set_at (mid r) y (set_at (head r) z l))) i = at_ l i).
    { intros A ? i x y z l Hi. destruct (Ha i Hr' Hi) as (? & ? & ? & ?). rewrite !at_set_ne by lia. done. }
    destruct (Ha _ Hr' (head_owned r')) as (? & ? & ? & ?).
    split; cbn [chain_freed mk upd_drv vdrv vdev set_ddesc set_dfree set_info_b dfree ddesc ops info_b]; try done.
    + intros i Hi. rewrite Ho by done. by apply P3.
    + rewrite Ho by apply head_owned. done.
    + rewrite Ho by (right; by left). done.
    + rewrite Ho by (right; by right). done.
    + rewrite at_set_ne by lia. done.
  - intros t1 t2 r1 r2 [_ E1]%Hins [_ E2]%Hins. by apply Hdisj.
  - intros h Hh. destruct (Hqueue h Hh) as (t' & r' & Hr' & <-). exists t', r'. split; [|done]. apply Hkeep; [done|]. intros ->. rewrite Hr in Hr'. injection Hr' as <-. done.
  - done.
  - intros i Hi Hz. rewrite Hfree in Hz. destruct Hbits as [Lf _].
    assert (i ≠ head r ∧ i ≠ mid r ∧ i ≠ last r) as (? & ? & ?).
    { repeat split; intros ->; [rewrite 2!at_set_ne in Hz by lia|rewrite at_set_ne in Hz by lia|]; rewrite at_set_eq in Hz by (rewrite ?Hs, Lf; unfold NUM in *; lia); done. }
    rewrite !at_set_ne in Hz by lia. destruct (Hleak i Hi Hz) as (t' & r' & Hr' & Ho). exists t', r'. split; [|done]. apply Hkeep; [done|]. intros ->. rewrite Hr in Hr'. injection Hr' as <-. unfold owns in Ho. tauto.
  - exact Hmedia.
Qed.

(** *** The interrupt handler *)

Lemma queue_phase s R t r : VS s R → R t = Some r → head r ∈ queue s →
  (head r ∈ unfetched s ++ pending (vdev s) ∧ status_of s r = 255 ∨ head r ∈ unacked s ∧ status_of s r = 0) ∧ disk_flag s (rbuf r) = 1.
Proof. intros HV Hr Hq. destruct (S_req _ _ HV t r Hr) as [_ [P1 P2 P3|P1 P2 P3|P1 P2 P3]]; auto. done. Qed.

Lemma acked_phase s R t r : VS s R → R t = Some r → head r ∈ unacked s → status_of s r = 0 ∧ disk_flag s (rbuf r) = 1.
Proof.
  intros HV Hr Hu. pose proof (S_nodup _ _ HV) as Hn. unfold queue in Hn. rewrite app_assoc in Hn. apply NoDup_app in Hn as (_ & Hn & _).
  destruct (queue_phase s R t r HV Hr) as [[[Hin _]|[_ Hs]] Hf]; [unfold queue; rewrite !elem_of_app; auto| |done]. by apply Hn in Hin.
Qed.

(** The handler's step for the buffer [b] of the oldest entry. *)
Definition ack (b : nat) (s : vst) : vst :=
  VST (set_used_idx (u16 (used_idx (vdrv s) + 1)) (vdrv s)) (vdev s) (alter (λ x, VBuf (blockno x) (vdata x) 0) b (bufs s)) (CBuf b :: woken s).

Lemma ack_unacked s R : VS s R → used_idx (vdrv s) ≠ uidx (vdev s) → ∀ b,
  unacked s = at_ (uring (vdev s)) (used_idx (vdrv s) mod NUM) :: unacked (ack b s).
Proof. intros HV Hne b. destruct (S_len _ _ HV) as [_ _ _ _ _ _ (_ & _ & I3 & I4)]. unfold unacked. by apply vring_pop. Qed.

Lemma ack_ok s R t r : VS s R → R t = Some r → unacked s = head r :: unacked (ack (rbuf r) s) →
  VS (ack (rbuf r) s) R ∧ same_view R s (ack (rbuf r) s).
Proof.
  intros HV Hr Eu. pose proof HV as [Hbits [L1 L2 L3 L4 L5 L6 (I1 & I2 & I3 & I4)] Hbufs Hreq Hdisj Hqueue Hnd Hleak Hmedia].
  set (s' := ack (rbuf r) s) in *.
  assert (Hp : queue s ≡ₚ head r :: queue s') by (unfold queue; rewrite Eu; change (unfetched s') with (unfetched s); change (pending (vdev s')) with (pending (vdev s)); rewrite !app_assoc; symmetry; apply Permutation_middle).
  assert (Hsub : ∀ h, h ∈ queue s ↔ h = head r ∨ h ∈ queue s') by (intros h; rewrite Hp; apply elem_of_cons).
  assert (Hnd' : NoDup (head r :: queue s')) by (by rewrite <- Hp).
  apply NoDup_cons in Hnd' as [Hnq Hnd'].
  assert (Hbn : ∀ b, blockno (bufs s' !!! b) = blockno (bufs s !!! b)).
  { intros b. cbn [s' ack bufs]. destruct (decide (b = rbuf r)) as [->|Hne]; [|by rewrite list_lookup_total_alter_ne]. destruct (Hreq t r Hr) as [Hok _]. rewrite list_lookup_total_alter_eq; [done|apply (R_buf _ _ Hok)]. }
  assert (Hfl : ∀ b, b ≠ rbuf r → disk_flag s' b = disk_flag s b) by (intros b Hne; unfold disk_flag; cbn [s' ack bufs]; by rewrite list_lookup_total_alter_ne).
  split; [split|split; [done|split; [by apply view_alter|done]]]; try done.
  - split; try done. cbn [s' ack vdrv vdev set_used_idx aidx used_idx]. unfold u16. zdm.
  - intros b x Hx. cbn [s' ack bufs] in Hx. rewrite list_lookup_alter in Hx. case_decide; [|by apply (Hbufs b)]. apply fmap_Some in Hx as (y & Hy & ->). exact (Hbufs _ y Hy).
  - intros t' r' Hr'. destruct (Hreq t' r' Hr') as [[P1 P2 P3 P4 P5 P6 P7 P8 P9] P]. split.
    + split; try done; [by rewrite Hbn|cbn [s' ack bufs]; by rewrite length_alter].
    + destruct (decide (t' = t)) as [->|Hne].
      * rewrite Hr in Hr'. injection Hr' as <-. destruct (acked_phase s R t r HV Hr) as [Hst _]; [rewrite Eu; by constructor|]. apply ph_acked; [done|done|].
        unfold disk_flag. cbn [s' ack bufs]. by rewrite list_lookup_total_alter_eq.
      * destruct (Hdisj t' t r' r Hr' Hr Hne) as [Hbb Hoo]. assert (Hhh : head r' ≠ head r) by (intros E; apply (Hoo (head r')); [by left|left; done]).
        destruct P as [A1 A2 A3|A1 A2 A3|A1 A2 A3]; [apply ph_queued|apply ph_done|apply ph_acked]; rewrite ?Hfl by done; try done.
        -- rewrite Eu in A1. by apply elem_of_cons in A1 as [?|?].
        -- intros Hin. apply A1, Hsub. by right.
  - intros h Hh. apply Hqueue, Hsub. by right.
Qed.

Lemma intr_ok s R : VS s R → woken s = [] → wp virtio_disk_intr (λ _ s', VS s' R ∧ same_view R s s' ∧ dfree (vdrv s') = dfree (vdrv s) ∧
  (CFree ∉ woken s') ∧ ∀ b, disk_flag s b = 1 → disk_flag s' b = 1 ∨ CBuf b ∈ woken s') s.
Proof.
  intros HV Hw. unfold virtio_disk_intr.
  apply (wp_iter (λ _ s', VS s' R ∧ same_view R s s' ∧ dfree (vdrv s') = dfree (vdrv s) ∧ (CFree ∉ woken s') ∧ ∀ b, disk_flag s b = 1 → disk_flag s' b = 1 ∨ CBuf b ∈ woken s') (λ _ s', length (unacked s'))).
  - intros [] s1 (HV1 & Hsv & Hdf & Hcf & Hfl). unfold intr_body. apply wp_bind, wp_get. destruct (Z.eqb_spec (used_idx (vdrv s1)) (uidx (vdev s1))) as [E|Hne]; [by apply wp_ret|].
    cbv zeta. set (id := at_ (uring (vdev s1)) (used_idx (vdrv s1) mod NUM)).
    assert (Hin : id ∈ unacked s1) by (rewrite (ack_unacked s1 R HV1 Hne 0%nat); by constructor).
    destruct (S_queue _ _ HV1 id) as (t & r & Hr & Hh); [unfold queue; rewrite !elem_of_app; auto|].
    destruct (acked_phase s1 R t r HV1 Hr) as [Hst _]; [by rewrite Hh|]. unfold status_of in Hst. rewrite Hh in Hst. rewrite Hst. cbn [Z.eqb negb].
    destruct (S_req _ _ HV1 t r Hr) as [Hok _]. pose proof (R_info _ _ Hok) as Hi. rewrite Hh in Hi. rewrite Hi.
    apply wp_bind, wp_modify, wp_bind, wp_modify, wp_bind, wp_modify, wp_ret.
    assert (Eu := ack_unacked s1 R HV1 Hne (rbuf r)). fold id in Eu. rewrite <- Hh in Eu. destruct (ack_ok s1 R t r HV1 Hr Eu) as [HV2 (Sm & Sb & Ss)].
    assert (Hlt : (length (unacked (ack (rbuf r) s1)) < length (unacked s1))%nat) by (apply (f_equal length) in Eu; cbn [length] in Eu; lia).
    split; [|exact Hlt].
    split; [exact HV2|]. split; [destruct Hsv as (Tm & Tb & Ts); split; [done|]; split; [etrans; [exact Sb|done]|intros t' r' Hr'; rewrite <- (Ts t' r' Hr'); by apply (Ss t')]|].
    split; [done|]. split; [intros [?|?]%elem_of_cons; done|]. intros b Hb. destruct (decide (b = rbuf r)) as [->|Hnb]; [right; by constructor|].
    destruct (Hfl b Hb) as [H1|H1]; [left; rewrite <- H1; unfold disk_flag; cbn; by rewrite list_lookup_total_alter_ne|right; by constructor].
  - split; [done|]. split; [done|]. split; [done|]. rewrite Hw. split; [apply not_elem_of_nil|auto].
  - pose proof (heads_short (queue s) (S_nodup _ _ HV) ltac:(intros h Hh; by apply (queue_range s R))) as Hl. unfold queue in Hl. rewrite !length_app in Hl. change (Z.to_nat NUM) with 8%nat. lia.
Qed.

(** *** The device *)

Lemma fetch_ok s s' R : VS s R → dev_fetch s = Some s' →
  VS s' R ∧ same_view R s s' ∧ dfree (vdrv s') = dfree (vdrv s) ∧ woken s' = woken s ∧ bufs s' = bufs s.
Proof.
  intros HV. unfold dev_fetch. destruct (Z.eqb_spec (seen (vdev s)) (aidx (vdrv s))) as [E|Hne]; [done|]. intros [= <-].
  pose proof HV as [Hbits [L1 L2 L3 L4 L5 L6 (I1 & I2 & I3 & I4)] Hbufs Hreq Hdisj Hqueue Hnd Hleak Hmedia].
  match goal with |- VS ?st _ ∧ _ => set (s' := st) end. set (h := at_ (aring (vdrv s)) (seen (vdev s) mod NUM)) in *.
  assert (Eu : unfetched s = h :: unfetched s') by (apply vring_pop; done).
  assert (Hmem : ∀ x, x ∈ unfetched s' ++ pending (vdev s') ↔ x ∈ unfetched s ++ pending (vdev s)) by (intros x; rewrite Eu; cbn [s' vdev pending]; rewrite !elem_of_app, !elem_of_cons; pose proof (not_elem_of_nil x); tauto).
  assert (Hp : queue s ≡ₚ queue s').
  { unfold queue. rewrite Eu. change (unacked s') with (unacked s). cbn [s' vdev pending]. rewrite <- !app_assoc. cbn [app]. rewrite Permutation_middle.
    apply Permutation_app_head. rewrite (Permutation_middle (pending (vdev s)) (unacked s) h). done. }
  split; [split|done]; try done.
  - split; try done. cbn [s' vdev vdrv seen uidx]. unfold u16. zdm.
  - intros t r Hr. destruct (Hreq t r Hr) as [[P1 P2 P3 P4 P5 P6 P7 P8 P9] P]. split; [split; done|]. destruct P as [A1 A2 A3|A1 A2 A3|A1 A2 A3]; [apply ph_queued|apply ph_done|apply ph_acked]; try done.
    + by apply Hmem.
    + by rewrite <- Hp.
  - intros x. rewrite <- Hp. apply Hqueue.
  - by rewrite <- Hp.
Qed.

(** The effect of completing a request. *)
Definition completed (s : vst) (r : vreq) : vst :=
  let x := bufs s !!! rbuf r in
  VST (set_info_status (set_at (head r) 0 (info_status (vdrv s))) (vdrv s))
      (Dev (u16 (uidx (vdev s) + 1)) (set_at (uidx (vdev s) mod NUM) (head r) (uring (vdev s))) (seen (vdev s)) (filter (λ x, x ≠ head r) (pending (vdev s)))
         (if rwrite r then write_sectors 2 (media (vdev s)) (2 * blockno x) (vdata x) else media (vdev s)))
      (if rwrite r then bufs s else <[rbuf r := VBuf (blockno x) (read_sectors 2 (media (vdev s)) (2 * blockno x)) (bdisk x)]> (bufs s)) (woken s).

Lemma complete_eq s R t r : VS s R → R t = Some r → dev_complete (head r) s = Some (completed s r).
Proof.
  intros HV Hr. destruct (S_req _ _ HV t r Hr) as [[_ _ _ Q4 Q5 Q6 Q7 _ _] _]. unfold dev_complete. rewrite Q4. cbn [next addr]. rewrite Q5. cbn [next addr]. rewrite Q6. cbn [addr flags len].
  rewrite bool_decide_true by done. rewrite Q7. cbn [rtype sector]. change (Z.to_nat (BSIZE / SECTOR)) with 2%nat.
  destruct (rwrite r) eqn:Ew; unfold completed; rewrite Ew; cbn [Z.eqb VIRTIO_BLK_T_OUT VIRTIO_BLK_T_IN]; rewrite bool_decide_true by done; done.
Qed.

Lemma filter_out (l : list Z) h : NoDup l → h ∈ l → l ≡ₚ h :: filter (λ x, x ≠ h) l.
Proof.
  intros Hn [k Hk]%elem_of_Permutation. rewrite Hk in Hn. apply NoDup_cons in Hn as [Hnk _]. rewrite Hk at 1. f_equiv. rewrite Hk, filter_cons_False by auto.
  clear Hk. induction k as [|x k IH]; [done|]. apply not_elem_of_cons in Hnk as [Hx Hnk]. rewrite filter_cons_True by done. f_equiv. by apply IH.
Qed.

Lemma length_write_sectors m sec data : (∀ x, length (m x) = 512%nat) → length data = 1024%nat → ∀ x, length (write_sectors 2 m sec data x) = 512%nat.
Proof.
  intros Hm Hd x. cbn [write_sectors]. change (Z.to_nat SECTOR) with 512%nat. destruct (x =? sec + 1); [rewrite length_take, length_drop; lia|]. destruct (x =? sec); [rewrite length_take; lia|done].
Qed.

Section complete.
Variables (s : vst) (R : nat → option vreq) (t : nat) (r : vreq).
Hypothesis HV : VS s R.
Hypothesis Hr : R t = Some r.
Hypothesis Hpend : head r ∈ pending (vdev s).
Let s' := completed s r.

Lemma completed_queue : queue s' ≡ₚ queue s ∧ unacked s' = unacked s ++ [head r].
Proof.
  destruct (S_len _ _ HV) as [_ _ L3 _ _ _ (_ & _ & I3 & I4)]. pose proof (S_nodup _ _ HV) as Hnd. unfold queue in Hnd. apply NoDup_app in Hnd as (_ & _ & Hnd). apply NoDup_app in Hnd as (Hnp & _ & _).
  pose proof (filter_out _ _ Hnp Hpend) as Hp. pose proof (heads_short (queue s) (S_nodup _ _ HV) ltac:(intros h Hh; by apply (queue_range s R))) as Hq.
  assert (Hu : unacked s' = unacked s ++ [head r]).
  { apply (vring_push (uring (vdev s)) (used_idx (vdrv s)) (uidx (vdev s)) (head r) L3); [|lia]. pose proof (length_ring_list (uring (vdev s)) (used_idx (vdrv s)) (uidx (vdev s))) as Hl.
    apply Permutation_length in Hp. unfold queue, unacked in Hq. rewrite !length_app in Hq. cbn [length] in Hp. unfold NUM. lia. }
  split; [|done]. unfold queue. rewrite Hu. change (unfetched s') with (unfetched s). cbn [s' completed vdev pending]. apply Permutation_app_head. rewrite Hp at 2. cbn [app].
  rewrite app_assoc. rewrite <- Permutation_cons_append. done.
Qed.

Lemma completed_flag b : blockno (bufs s' !!! b) = blockno (bufs s !!! b) ∧ disk_flag s' b = disk_flag s b.
Proof.
  destruct (S_req _ _ HV t r Hr) as [Hok _]. pose proof (R_buf _ _ Hok) as Hb. unfold disk_flag. cbn [s' completed bufs]. destruct (rwrite r); [done|].
  destruct (decide (b = rbuf r)) as [->|Hne]; [by rewrite list_lookup_total_insert_eq|by rewrite list_lookup_total_insert_ne].
Qed.

Lemma completed_status : status_of s' r = 0 ∧ ∀ t' r', R t' = Some r' → t' ≠ t → head r' ≠ head r ∧ status_of s' r' = status_of s r'.
Proof.
  destruct (S_req _ _ HV t r Hr) as [Hok _]. pose proof (R_range _ _ Hok _ (head_owned r)) as H0. destruct (S_len _ _ HV) as [_ _ _ _ L5 _ _]. unfold status_of. cbn [s' completed vdrv set_info_status info_status].
  split; [apply at_set_eq; rewrite L5; unfold NUM in *; lia|]. intros t' r' Hr' Hne. destruct (S_disj _ _ HV t' t r' r Hr' Hr Hne) as [_ Hd].
  assert (Hh : head r' ≠ head r) by (intros E; apply (Hd (head r')); [by left|by left]). split; [done|]. destruct (S_req _ _ HV t' r' Hr') as [Hok' _]. pose proof (R_range _ _ Hok' _ (head_owned r')).
  apply at_set_ne; [lia|lia|done].
Qed.

Lemma completed_ok : VS s' R.
Proof.
  pose proof HV as [Hbits [L1 L2 L3 L4 L5 L6 (I1 & I2 & I3 & I4)] Hbufs Hreq Hdisj Hqueue Hnd Hleak Hmedia].
  assert (Hs : ∀ {A} i (x : A) l, length (set_at i x l) = length l) by (intros; unfold set_at; apply length_insert).
  destruct completed_queue as [Hp Hu]. destruct completed_status as [Hst Hoth]. destruct (Hreq t r Hr) as [Hok _]. destruct (lookup_lt_is_Some_2 _ _ (R_buf _ _ Hok)) as [x Hx].
  destruct (Hbufs _ _ Hx) as [Hbn Hlen]. assert (Ex : bufs s !!! rbuf r = x) by (by apply lookup_total_Some).
  split; try done.
  - split; try done; cbn [s' completed vdrv vdev uring info_status set_info_status uidx]; rewrite ?Hs; try done. cbn. unfold u16. zdm.
  - intros b y Hy. cbn [s' completed bufs] in Hy. rewrite Ex in Hy. destruct (rwrite r); [by apply (Hbufs b)|]. apply list_lookup_insert_Some in Hy as [(_ & <- & _)|[_ Hy]]; [|by apply (Hbufs b)].
    cbn [blockno vdata read_sectors]. split; [done|]. rewrite app_nil_r, length_app, !Hmedia. done.
  - intros t' r' Hr'. destruct (Hreq t' r' Hr') as [[P1 P2 P3 P4 P5 P6 P7 P8 P9] P]. split.
    + split; try done; [by rewrite (proj1 (completed_flag _))|]. cbn [s' completed bufs]. destruct (rwrite r); [done|by rewrite length_insert].
    + destruct (decide (t' = t)) as [->|Hne].
      * rewrite Hr in Hr'. injection Hr' as <-. apply ph_done; [rewrite Hu; apply elem_of_app; right; by constructor|done|]. rewrite (proj2 (completed_flag _)).
        apply (queue_phase s R t r HV Hr). unfold queue. rewrite !elem_of_app. auto.
      * destruct (Hoth t' r' Hr' Hne) as [Hhh Hss]. destruct P as [A1 A2 A3|A1 A2 A3|A1 A2 A3]; [apply ph_queued|apply ph_done|apply ph_acked]; rewrite ?Hss, ?(proj2 (completed_flag _)); try done.
        -- apply elem_of_app in A1 as [A1|A1]; apply elem_of_app; [by left|right]. apply list_elem_of_filter. done.
        -- rewrite Hu. apply elem_of_app. by left.
        -- by rewrite Hp.
  - intros h. rewrite Hp. apply Hqueue.
  - by rewrite Hp.
  - cbn [s' completed vdev media]. destruct (rwrite r); [|done]. rewrite Ex. by apply length_write_sectors.
Qed.
End complete.

(** ** The invariant of the machine *)

Definition flight (x : vthread) : option vreq :=
  match x with TWait b w [i0; i1; i2] | TSleepBuf b w [i0; i1; i2] => Some (VReq b w i0 i1 i2) | _ => None end.

Definition flights (thr : list vthread) : nat → option vreq := λ t, thr !! t ≫= flight.

(** A thread with local array [idx] has a request; one asleep has something to
    wait for, unless wakeups may be missed. *)
Definition thread_ok (lossy : bool) (s : vst) (x : vthread) : Prop :=
  match x with
  | TIdle | TReq _ _ => True
  | TSleepFree _ _ => lossy = false → (nfree (dfree (vdrv s)) < 3)%nat
  | TWait _ _ _ => flight x ≠ None
  | TSleepBuf b _ _ => flight x ≠ None ∧ (lossy = false → disk_flag s b = 1)
  end.

Record VI (lossy : bool) (m : vmach) : Prop := {
  M_vs : VS (vs m) (flights (vthr m));
  M_woken : woken (vs m) = [];
  M_buf : ∀ t x b, vthr m !! t = Some x → uses b x = true → (b < length (bufs (vs m)))%nat;
  M_excl : ∀ t t' x x' b, vthr m !! t = Some x → vthr m !! t' = Some x' → uses b x = true → uses b x' = true → t = t';
  M_thr : ∀ t x, vthr m !! t = Some x → thread_ok lossy (vs m) x;
  M_ok : crashed m = false;
}.

Lemma VS_ext s s' R R' : vdrv s' = vdrv s → vdev s' = vdev s → bufs s' = bufs s → (∀ t, R' t = R t) → VS s R → VS s' R'.
Proof.
  destruct s as [d v b w], s' as [d' v' b' w']. cbn. intros -> -> -> HR [H1 [L1 L2 L3 L4 L5 L6 L7] H3 H4 H5 H6 H7 H8 H9]. split; try done.
  - intros t r Hr. rewrite HR in Hr. destruct (H4 t r Hr) as [[Q1 Q2 Q3 Q4 Q5 Q6 Q7 Q8 Q9] P]. split; [by split|]. destruct P; [by apply ph_queued|by apply ph_done|by apply ph_acked].
  - intros t t' r r' Hr Hr'. rewrite HR in Hr, Hr'. by apply H5.
  - intros h Hh. destruct (H6 h Hh) as (t & r & Hr & E). exists t, r. by rewrite HR.
  - intros i Hi Hz. destruct (H8 i Hi Hz) as (t & r & Hr & E). exists t, r. by rewrite HR.
Qed.

Lemma flight_wake W x : flight (vwake W x) = flight x.
Proof. destruct x; cbn; try done; by case_bool_decide. Qed.

Lemma uses_wake W b x : uses b (vwake W x) = uses b x.
Proof. destruct x; cbn; try done; by case_bool_decide. Qed.

Lemma flight_uses x r : flight x = Some r → uses (rbuf r) x = true.
Proof. destruct x as [| | |b w [|? [|? [|? []]]]|b w [|? [|? [|? []]]]]; cbn; try done; intros [= <-]; cbn; by apply bool_decide_true. Qed.

(** What a thread looks like depends on its status only, asleep or not. *)
Lemma abs_keep lossy s s' x : thread_ok lossy s x → (∀ r, flight x = Some r → status_of s' r = status_of s r) →
  abs_thread (vdrv s') x = abs_thread (vdrv s) x.
Proof.
  assert (Hidx : ∀ b w idx (r : vreq), flight (TWait b w idx) = Some r → idx !!! 0%nat = head r).
  { intros b w idx r. destruct idx as [|? [|? [|? []]]]; cbn; try done. by intros [= <-]. }
  unfold status_of. destruct x as [| |b w|b w idx|b w idx]; cbn [thread_ok]; try done.
  - intros Hne Hs. destruct (flight (TWait b w idx)) as [r|] eqn:E; [|done]. cbn [abs_thread]. rewrite (Hidx b w idx r E), (Hs r eq_refl). done.
  - intros [Hne _] Hs. change (flight (TSleepBuf b w idx)) with (flight (TWait b w idx)) in *. destruct (flight (TWait b w idx)) as [r|] eqn:E; [|done].
    cbn [abs_thread]. rewrite (Hidx b w idx r E), (Hs r eq_refl). done.
Qed.

Lemma abs_vwake d W x : abs_thread d (vwake W x) = abs_thread d x.
Proof. destruct x; cbn [vwake]; try done; by case_bool_decide. Qed.

Lemma vwake_some_lookup miss W thr t : vwake_some miss W thr !! t = (λ x, if bool_decide (t ∈ miss) then x else vwake W x) <$> thr !! t.
Proof. apply list_lookup_imap. Qed.

Section settle.
Variables (lossy : bool) (miss : list nat) (m : vmach) (t : nat) (y : vthread) (s' : vst).
Hypothesis Hmiss : lossy = false → miss = [].
Hypothesis HM : VI lossy m.
Hypothesis Hvs : VS s' (<[t := flight y]> (flights (vthr m))).
Hypothesis Hview : same_view (flights (vthr m)) (vs m) s'.
Hypothesis Hlen : length (bufs s') = length (bufs (vs m)).
Hypothesis Hy : thread_ok lossy s' y.
Hypothesis Huse : ∀ b, uses b y = true → ∃ x, vthr m !! t = Some x ∧ uses b x = true.
Hypothesis Hfree : CFree ∈ woken s' ∨ (nfree (dfree (vdrv s')) ≤ nfree (dfree (vdrv (vs m))))%nat.
Hypothesis Hflag : ∀ t' x b, t' ≠ t → vthr m !! t' = Some x → uses b x = true → disk_flag (vs m) b = 1 → disk_flag s' b = 1 ∨ CBuf b ∈ woken s'.

Lemma settled t' x : <[t := y]> (vwake_some miss (woken s') (vthr m)) !! t' = Some x →
  t' = t ∧ x = y ∧ is_Some (vthr m !! t) ∨
  t' ≠ t ∧ ∃ z, vthr m !! t' = Some z ∧ (x = vwake (woken s') z ∨ lossy = true ∧ x = z).
Proof.
  intros Hx. apply list_lookup_insert_Some in Hx as [(-> & <- & Hl)|[Hne Hx]].
  - left. split; [done|]. split; [done|]. unfold vwake_some in Hl. rewrite length_imap in Hl. by apply lookup_lt_is_Some_2.
  - right. split; [congruence|]. rewrite vwake_some_lookup in Hx. apply fmap_Some in Hx as (z & Hz & ->). exists z. split; [done|].
    case_bool_decide as Hin; [|by left]. right. split; [|done]. destruct lossy; [done|]. rewrite (Hmiss eq_refl) in Hin. by apply not_elem_of_nil in Hin.
Qed.

(** The uses and the requests of the threads do not depend on who is asleep. *)
Lemma settled_uses t' x b : <[t := y]> (vwake_some miss (woken s') (vthr m)) !! t' = Some x → uses b x = true → ∃ z, vthr m !! t' = Some z ∧ uses b z = true.
Proof.
  intros Hx Hb. apply settled in Hx as [(-> & -> & _)|(_ & z & Hz & [->|[_ ->]])]; [by apply Huse| |by exists z]. rewrite uses_wake in Hb. by exists z.
Qed.

Lemma settled_flights t' : flights (<[t := y]> (vwake_some miss (woken s') (vthr m))) t' = <[t := flight y]> (flights (vthr m)) t'.
Proof.
  assert (El : length (vwake_some miss (woken s') (vthr m)) = length (vthr m)) by apply length_imap.
  unfold flights, insert at 2, fn_insert. case_decide as E.
  - subst t'. destruct (decide (t < length (vthr m))%nat) as [Hl|Hl]; [by rewrite list_lookup_insert_eq by (by rewrite El)|].
    rewrite list_insert_ge by (rewrite El; lia). rewrite lookup_ge_None_2 by (rewrite El; lia). cbn.
    assert (Hn : vthr m !! t = None) by (apply lookup_ge_None_2; lia). destruct (flight y) as [r|] eqn:Ef; [|done].
    apply flight_uses in Ef. apply Huse in Ef as (x & Hx & _). congruence.
  - rewrite list_lookup_insert_ne by done. rewrite vwake_some_lookup. destruct (vthr m !! t'); cbn; [|done]. case_bool_decide; [done|apply flight_wake].
Qed.

Lemma settle_inv : VI lossy (settle s' (vthr m) miss (<[t := y]>)).
Proof.
  split; cbn [settle vs vthr crashed woken bufs]; try done.
  - eapply VS_ext; [..|exact Hvs]; try done. apply settled_flights.
  - intros t' x b Hx Hb. destruct (settled_uses t' x b Hx Hb) as (z & Hz & Hbz). rewrite Hlen. by apply (M_buf _ _ HM t' z b).
  - intros t1 t2 x1 x2 b H1 H2 B1 B2. destruct (settled_uses t1 x1 b H1 B1) as (z1 & Z1 & C1). destruct (settled_uses t2 x2 b H2 B2) as (z2 & Z2 & C2). by apply (M_excl _ _ HM t1 t2 z1 z2 b).
  - intros t' x Hx. apply settled in Hx as [(-> & -> & _)|(Hne & z & Hz & Hx)]; [by destruct y|]. pose proof (M_thr _ _ HM t' z Hz) as Hz'.
    destruct Hx as [->|[El ->]]; [|clear - El Hz'; destruct z; cbn [thread_ok] in *; try done; [by rewrite El|split; [apply Hz'|by rewrite El]]].
    destruct z as [| |b w|b w idx|b w idx]; cbn [vwake]; try done.
    + case_bool_decide; [done|]. cbn [thread_ok vdrv] in *. intros El. specialize (Hz' El). destruct Hfree; [done|lia].
    + destruct Hz' as [Hfl Hd]. case_bool_decide; [done|]. split; [done|]. cbn. intros El.
      destruct (Hflag t' _ b Hne Hz) as [?|?]; [by apply bool_decide_true|by apply Hd|done|done].
Qed.

Lemma settle_abs :  abs (settle s' (vthr m) miss (<[t := y]>)) = ADisk (amedia (abs m)) (abufs (abs m)) (<[t := abs_thread (vdrv s') y]> (athr (abs m))).
Proof.
  clear Hvs Hlen Hy Huse Hfree Hflag. destruct Hview as (Em & Eb & Es). unfold abs. cbn [settle vs vthr vdev vdrv bufs amedia abufs athr]. f_equal; [done|done|].
  rewrite list_fmap_insert. apply list_eq. intros t'. assert (El : length (vwake_some miss (woken s') (vthr m)) = length (vthr m)) by apply length_imap.
  destruct (decide (t' = t)) as [->|Hne].
  - destruct (decide (t < length (vthr m))%nat); [by rewrite !list_lookup_insert_eq by (by rewrite ?length_fmap, ?El)|]. rewrite !list_insert_ge by (rewrite ?length_fmap, ?El; lia).
    rewrite !lookup_ge_None_2 by (rewrite ?length_fmap, ?El; lia). done.
  - rewrite !list_lookup_insert_ne by done. rewrite !list_lookup_fmap, vwake_some_lookup. destruct (vthr m !! t') as [x|] eqn:Ex; [|done]. cbn. f_equal.
    clear - HM Es Ex. transitivity (abs_thread (vdrv s') x); [case_bool_decide; [done|apply abs_vwake]|].
    apply (abs_keep lossy (vs m)); [by apply (M_thr _ _ HM t')|]. intros r Hr. apply (Es t'). unfold flights. by rewrite Ex.
Qed.
End settle.

(** Steps that change nothing in the buffers or on the disk but the thread [t],
    which looks the same. *)
Lemma settle_quiet lossy miss m t x y s' : VI lossy m → vthr m !! t = Some x → abs_thread (vdrv s') y = abs_thread (vdrv (vs m)) x → same_view (flights (vthr m)) (vs m) s' →
  abs (settle s' (vthr m) miss (<[t := y]>)) = abs m.
Proof.
  intros HM Hx Hy Hv. rewrite (settle_abs lossy miss m t y s' HM Hv), Hy. destruct (abs m) as [a b c] eqn:Ea. cbn [amedia abufs athr]. f_equal. apply list_insert_id.
  assert (Ec : c = abs_thread (vdrv (vs m)) <$> vthr m) by (unfold abs in Ea; by injection Ea). rewrite Ec, list_lookup_fmap, Hx. done.
Qed.

Definition refines (lossy : bool) (m m' : vmach) : Prop := VI lossy m' ∧ (abs m' = abs m ∨ astep (abs m) (abs m')).

Lemma bufs_view_length R s s' : same_view R s s' → length (bufs s') = length (bufs s).
Proof. intros (_ & E & _). apply (f_equal length) in E. by rewrite !length_fmap in E. Qed.

Lemma flights_at thr t x : thr !! t = Some x → flights thr t = flight x.
Proof. intros Hx. unfold flights. by rewrite Hx. Qed.

(** Clearing free descriptors changes nothing. *)
Lemma VS_free_only s R D' W' : VS s R → free_only (dfree (vdrv s)) (ddesc (vdrv s)) D' → VS (mk s (dfree (vdrv s)) D' W') R.
Proof.
  intros [H1 [L1 L2 L3 L4 L5 L6 L7] H3 H4 H5 H6 H7 H8 H9] [Hl Hd]. split; try done.
  - split; try done. cbn. by rewrite Hl.
  - intros t r Hr. destruct (H4 t r Hr) as [[Q1 Q2 Q3 Q4 Q5 Q6 Q7 Q8 Q9] P]. split; [|by destruct P; [apply ph_queued|apply ph_done|apply ph_acked]].
    assert (Ho : ∀ i, owns r i → at_ D' i = at_ (ddesc (vdrv s)) i) by (intros i Hi; apply Hd; [by apply Q1|by apply Q3]).
    split; try done; cbn [mk vdrv set_ddesc set_dfree ddesc]; rewrite Ho; try done; [by left|right; by left|right; by right].
Qed.

Lemma step_submit lossy miss m t b w : (lossy = false → miss = []) → VI lossy m → vthr m !! t = Some (TReq b w) → refines lossy m (vexec m (VRun t miss)).
Proof.
  intros Hmiss HM Ht. cbn [vexec]. rewrite Ht. pose proof (M_vs _ _ HM) as HV. pose proof (M_woken _ _ HM) as Hw.
  assert (Hnone : flights (vthr m) t = None) by (by rewrite (flights_at _ _ _ Ht)).
  assert (Hb : (b < length (bufs (vs m)))%nat) by (apply (M_buf _ _ HM t _ b Ht); by apply bool_decide_true).
  assert (Hun : ∀ t' r, flights (vthr m) t' = Some r → t' ≠ t ∧ rbuf r ≠ b).
  { intros t' r Hr. unfold flights in Hr. destruct (vthr m !! t') as [x|] eqn:Ex; [|done]. cbn in Hr. assert (t' ≠ t) by (intros ->; rewrite Ht in Ex; injection Ex as <-; done). split; [done|].
    intros <-. apply flight_uses in Hr. apply H. apply (M_excl _ _ HM t' t x (TReq (rbuf r) w) (rbuf r) Ex Ht Hr). by apply bool_decide_true. }
  assert (Huse : ∀ y, (∀ c, uses c y = bool_decide (b = c)) → ∀ c, uses c y = true → ∃ x, vthr m !! t = Some x ∧ uses c x = true).
  { intros y Hy c Hc. exists (TReq b w). split; [done|]. rewrite Hy in Hc. exact Hc. }
  pose proof (alloc3_ok (vs m) _ (ddesc (vdrv (vs m))) (S_bits _ _ HV)) as Ha. rewrite <- Hw, mk_id in Ha at 1.
  destruct (proj1 (wp_ok _ _ _) Ha) as (r & s1 & Er & Hpost). unfold rw_submit, mbind, M_bind. rewrite Er. destruct r as [idx|].
  - destruct Hpost as (i0 & i1 & i2 & -> & R0 & R1 & R2 & N01 & N02 & N12 & F0 & F1 & F2 & ->). rewrite submit_eq. cbn [mret M_ret].
    destruct (submitted_ok (vs m) (flights (vthr m)) t b w i0 i1 i2) as [HV' Hview]; try done; [by intros t' r' H'; apply (Hun t' r')|].
    assert (Hs255 : at_ (info_status (vdrv (submitted (vs m) b w i0 i1 i2))) i0 = 255).
    { cbn [submitted vdrv info_status]. apply at_set_eq. destruct (S_len _ _ HV) as [_ _ _ _ L5 _ _]. rewrite L5. unfold NUM in *. lia. }
    split.
    + apply settle_inv; try done; [by rewrite (bufs_view_length _ _ _ Hview)|by apply Huse| |].
      * right. cbn [submitted vdrv dfree]. apply nfree_3; try done. apply (S_bits _ _ HV).
      * intros t' x c Hne Hx Hc Hd. left. rewrite <- Hd. refine (proj2 (submitted_buf (vs m) b w i0 i1 i2 Hb c) _). intros ->. apply Hne. apply (M_excl _ _ HM t' t x (TReq b w) b Hx Ht Hc). by apply bool_decide_true.
    + left. apply (settle_quiet lossy miss m t (TReq b w)); [done|done| |done]. cbn [abs_thread]. change ([i0; i1; i2] !!! 0%nat) with i0. rewrite Hs255. done.
  - destruct Hpost as (Hn & D' & W' & -> & Hfo & Hcb). cbn [block]. pose proof (VS_free_only _ _ D' W' HV Hfo) as HV'. split.
    + apply settle_inv; try done; [|exact (λ _, Hn)|by apply Huse|by right|by left].
      eapply VS_ext; [..|exact HV']; try done. intros t'. unfold insert, fn_insert. case_decide as E; [subst; by rewrite Hnone|done].
    + left. apply (settle_quiet lossy miss m t (TReq b w)); done.
Qed.

Lemma step_finish lossy miss m t b w idx : (lossy = false → miss = []) → VI lossy m → vthr m !! t = Some (TWait b w idx) → refines lossy m (vexec m (VRun t miss)).
Proof.
  intros Hmiss HM Ht. cbn [vexec]. rewrite Ht. pose proof (M_vs _ _ HM) as HV. pose proof (M_woken _ _ HM) as Hw. pose proof (M_thr _ _ HM _ _ Ht) as Hok. cbn [thread_ok] in Hok.
  destruct (flight (TWait b w idx)) as [r|] eqn:Ef; [|done]. assert (Hr : flights (vthr m) t = Some r) by (by rewrite (flights_at _ _ _ Ht)).
  assert (Er : rbuf r = b ∧ rwrite r = w ∧ idx !!! 0%nat = head r) by (destruct idx as [|? [|? [|? []]]]; cbn in Ef; try done; by injection Ef as <-). destruct Er as (Eb & Ewr & Eh).
  rewrite Eh, <- Eb, (rw_finish_eq _ _ t r HV Hr Hw). rewrite Eb.
  assert (Huse : ∀ c, uses c (TSleepBuf b w idx) = true → ∃ x, vthr m !! t = Some x ∧ uses c x = true) by (intros c Hc; by exists (TWait b w idx)).
  destruct (Z.eqb_spec (disk_flag (vs m) b) 1) as [E1|E1].
  - split; [|left; by apply (settle_quiet lossy miss m t (TWait b w idx))]. apply settle_inv; try done; [|split; [cbn [flight]; cbn [flight] in Ef; by rewrite Ef|done]|by right|by left].
    eapply VS_ext; [..|exact HV]; try done. intros t'. unfold insert, fn_insert. case_decide as E; [subst; rewrite Hr; exact Ef|done].
  - destruct (chain_freed_ok _ _ t r HV Hr) as (HV' & Hview & Hst); [by rewrite Eb|]. split.
    + apply settle_inv; try done; [left; by constructor|]. intros t' x c _ _ _ Hd. by left.
    + right. rewrite (settle_abs lossy miss m t TIdle _ HM Hview). apply (a_return (abs m) t b w). cbn [abs athr]. rewrite list_lookup_fmap, Ht. cbn. rewrite Eh. unfold status_of in Hst. by rewrite Hst.
Qed.

Lemma step_intr lossy miss m : (lossy = false → miss = []) → VI lossy m → refines lossy m (vexec m (VIntr miss)).
Proof.
  intros Hmiss HM. cbn [vexec]. pose proof (M_vs _ _ HM) as HV. destruct (proj1 (wp_ok _ _ _) (intr_ok _ _ HV (M_woken _ _ HM))) as (u & s' & -> & HV' & Hview & Hdf & Hcf & Hfl).
  set (t := length (vthr m)). assert (Hnt : vthr m !! t = None) by (by apply lookup_ge_None_2).
  assert (Eid : settle s' (vthr m) miss id = settle s' (vthr m) miss (<[t := TIdle]>)).
  { unfold settle, vwake_some. rewrite list_insert_ge by (by rewrite length_imap). done. }
  rewrite Eid. split.
  - apply settle_inv; try done; [|by apply (bufs_view_length _ _ _ Hview)|right; by rewrite Hdf|intros t' x c _ _ _; apply Hfl].
    eapply VS_ext; [..|exact HV']; try done. intros t'. unfold insert, fn_insert. case_decide as E; [subst t'; unfold flights; by rewrite Hnt|done].
  - left. rewrite (settle_abs lossy miss m t TIdle s' HM Hview). rewrite list_insert_ge; [done|]. cbn. by rewrite length_fmap.
Qed.

(** A sleeper that runs again for another reason. *)
Lemma rethread lossy m t x y : VI lossy m → vthr m !! t = Some x → flight y = flight x → (∀ b, uses b y = uses b x) →
  (∀ d, abs_thread d y = abs_thread d x) → thread_ok lossy (vs m) y → refines lossy m (VMach (vs m) (<[t := y]> (vthr m)) (crashed m)).
Proof.
  intros HM Hx Hf Hu Ha Hy.
  assert (Hc : ∀ t' z, <[t := y]> (vthr m) !! t' = Some z → t' = t ∧ z = y ∨ t' ≠ t ∧ vthr m !! t' = Some z).
  { intros t' z Hz. apply list_lookup_insert_Some in Hz as [(-> & <- & _)|[Hne Hz]]; [by left|right; split; [congruence|done]]. }
  assert (Hc' : ∀ t' z b, <[t := y]> (vthr m) !! t' = Some z → uses b z = true → ∃ z', vthr m !! t' = Some z' ∧ uses b z' = true).
  { intros t' z b [[-> ->]|[_ Hz]]%Hc Hb; [exists x; by rewrite <-Hu|by exists z]. }
  split; [split; cbn [vs vthr crashed]; try apply HM|].
  - eapply VS_ext; [..|apply HM]; try done. intros t'. unfold flights. destruct (decide (t' = t)) as [->|Hne]; [|by rewrite list_lookup_insert_ne].
    rewrite list_lookup_insert_eq by (by eapply lookup_lt_Some). rewrite Hx. exact Hf.
  - intros t' z b Hz Hb. destruct (Hc' t' z b Hz Hb) as (z' & Hz' & Hb'). by apply (M_buf _ _ HM t' z' b).
  - intros t1 t2 x1 x2 b H1 H2 U1 U2. destruct (Hc' t1 x1 b H1 U1) as (z1 & Z1 & C1). destruct (Hc' t2 x2 b H2 U2) as (z2 & Z2 & C2). by apply (M_excl _ _ HM t1 t2 z1 z2 b).
  - intros t' z [[-> ->]|[_ Hz]]%Hc; [done|by apply (M_thr _ _ HM t')].
  - left. unfold abs. cbn [vs vthr]. f_equal. rewrite list_fmap_insert, Ha. apply list_insert_id. by rewrite list_lookup_fmap, Hx.
Qed.

Lemma step_kill lossy m t : VI lossy m → refines lossy m (vexec m (VKill t)).
Proof.
  intros HM. cbn [vexec]. destruct (vthr m !! t) as [x|] eqn:Ht; [|split; [done|by left]].
  destruct x; try (split; [done|by left]); (eapply rethread; [done|exact Ht|done..|]); [done|]. apply (M_thr _ _ HM t _ Ht).
Qed.

(** Steps of the device leave the threads as they are. *)
Lemma device_inv lossy m s' : VI lossy m → VS s' (flights (vthr m)) → woken s' = [] → dfree (vdrv s') = dfree (vdrv (vs m)) → length (bufs s') = length (bufs (vs m)) →
  (∀ b, disk_flag s' b = disk_flag (vs m) b) → VI lossy (VMach s' (vthr m) (crashed m)).
Proof.
  intros HM HV Hw Hdf Hl Hfl. split; cbn [vs vthr crashed]; try done; [rewrite Hl; apply (M_buf _ _ HM)|apply (M_excl _ _ HM)| |apply (M_ok _ _ HM)].
  intros t x Hx. pose proof (M_thr _ _ HM t x Hx) as Hok. destruct x; cbn [thread_ok] in *; rewrite ?Hdf, ?Hfl; done.
Qed.

Lemma step_fetch lossy m : VI lossy m → refines lossy m (vexec m VFetch).
Proof.
  intros HM. cbn [vexec]. destruct (dev_fetch (vs m)) as [s'|] eqn:E; [|split; [done|by left]]. destruct (fetch_ok _ _ _ (M_vs _ _ HM) E) as (HV & (Em & Eb & Es) & Hdf & Hw & Hbufs).
  split; [apply device_inv; try done; [by rewrite Hw, (M_woken _ _ HM)|by rewrite Hbufs|intros b; unfold disk_flag; by rewrite Hbufs]|]. left. unfold abs. cbn [vs vthr]. f_equal; [done|done|].
  apply list_fmap_ext. intros t x Hx. apply (abs_keep lossy (vs m)); [by apply (M_thr _ _ HM t)|intros r Hr; apply (Es t); by rewrite (flights_at _ _ _ Hx)].
Qed.

Lemma step_complete lossy m h : VI lossy m → refines lossy m (vexec m (VComplete h)).
Proof.
  intros HM. cbn [vexec]. case_bool_decide as Hp; [|split; [done|by left]]. pose proof (M_vs _ _ HM) as HV.
  destruct (S_queue _ _ HV h) as (t & r & Hr & <-); [unfold queue; rewrite !elem_of_app; auto|]. rewrite (complete_eq _ _ t r HV Hr).
  pose proof (completed_ok _ _ t r HV Hr Hp) as HV'. destruct (completed_status _ _ t r HV Hr) as [Hst Hoth]. pose proof (completed_flag _ _ t r HV Hr) as Hfl.
  assert (Hlen : length (bufs (completed (vs m) r)) = length (bufs (vs m))) by (cbn [completed bufs]; destruct (rwrite r); [done|by rewrite length_insert]).
  split; [apply device_inv; try done; [by rewrite <- (M_woken _ _ HM)|intros b; apply Hfl]|]. right.
  unfold flights in Hr. destruct (vthr m !! t) as [x|] eqn:Hx; [|done]. cbn in Hr.
  destruct (S_req _ _ HV t r) as [Hok _]; [by unfold flights; rewrite Hx|]. destruct (lookup_lt_is_Some_2 _ _ (R_buf _ _ Hok)) as [xb Hxb].
  assert (Ex : bufs (vs m) !!! rbuf r = xb) by (by apply lookup_total_Some).
  assert (Hst0 : status_of (vs m) r = 255).
  { assert (Hr' : flights (vthr m) t = Some r) by (unfold flights; by rewrite Hx). pose proof (S_nodup _ _ HV) as Hn. unfold queue in Hn.
    destruct (queue_phase _ _ t r HV Hr') as [[[_ E]|[Hu _]] _]; [unfold queue; rewrite !elem_of_app; auto|done|]. apply NoDup_app in Hn as (_ & _ & Hn). apply NoDup_app in Hn as (_ & Hn & _). by apply Hn in Hp. }
  assert (Habs : ∀ d, abs_thread d x = if at_ (info_status d) (head r) =? 0 then ADone (rbuf r) (rwrite r) else APend (rbuf r) (rwrite r)).
  { intros d. destruct x as [| | |b w [|? [|? [|? []]]]|b w [|? [|? [|? []]]]]; cbn in Hr; try done; by injection Hr as <-. }
  assert (Hbef : athr (abs m) !! t = Some (APend (rbuf r) (rwrite r))) by (cbn [abs athr]; rewrite list_lookup_fmap, Hx; cbn; rewrite Habs; unfold status_of in Hst0; by rewrite Hst0).
  assert (Hb : abufs (abs m) !! rbuf r = Some (blockno xb, vdata xb)) by (cbn [abs abufs]; by rewrite list_lookup_fmap, Hxb).
  assert (Hself : abs_thread (vdrv (completed (vs m) r)) x = ADone (rbuf r) (rwrite r)) by (rewrite Habs; unfold status_of in Hst; by rewrite Hst).
  assert (Hthr : abs_thread (vdrv (completed (vs m) r)) <$> vthr m = <[t := ADone (rbuf r) (rwrite r)]> (athr (abs m))).
  { apply list_eq. intros t'. rewrite list_lookup_fmap. destruct (decide (t' = t)) as [->|Hne].
    - rewrite list_lookup_insert_eq by (cbn; rewrite length_fmap; by eapply lookup_lt_Some). rewrite Hx, <- Hself. reflexivity.
    - rewrite list_lookup_insert_ne by done. cbn [abs athr]. rewrite list_lookup_fmap. destruct (vthr m !! t') as [x'|] eqn:Hx'; [|done]. cbn. f_equal.
      apply (abs_keep lossy (vs m) (completed (vs m) r) x'); [by apply (M_thr _ _ HM t')|intros r' Hr'; apply (Hoth t' r'); [by rewrite (flights_at _ _ _ Hx')|done]]. }
  unfold abs at 2. cbn [vs vthr]. rewrite Hthr. destruct (rwrite r) eqn:Ewr; cbn [completed vdev media bufs]; rewrite Ewr, Ex.
  - apply (a_write (abs m) t (rbuf r) (blockno xb) (vdata xb)); [done|done|]. intros y. cbn [write_sectors abs amedia]. unfold block_write. change (Z.to_nat SECTOR) with 512%nat.
    destruct (y =? 2 * blockno xb + 1); [|done]. rewrite take_ge; [done|]. rewrite length_drop. destruct (S_bufs _ _ HV _ _ Hxb). lia.
  - rewrite list_fmap_insert. cbn [blockno vdata read_sectors]. rewrite app_nil_r. apply (a_read (abs m) t (rbuf r) (blockno xb) (vdata xb)); done.
Qed.

Lemma unused_thr m b t x : unused m b = true → vthr m !! t = Some x → uses b x = false.
Proof.
  unfold unused. rewrite andb_true_iff, negb_true_iff. intros [Hu _] Hx. destruct (uses b x) eqn:E; [|done]. exfalso.
  assert (existsb (uses b) (vthr m) = true); [|congruence]. apply existsb_exists. exists x. split; [|done]. by eapply list_elem_of_In, list_elem_of_lookup_2.
Qed.

Lemma step_start lossy m t b w : VI lossy m → refines lossy m (vexec m (VStart t b w)).
Proof.
  intros HM. cbn [vexec]. destruct (vthr m !! t) as [[]|] eqn:Ht; try (split; [done|by left]). destruct (unused m b) eqn:Hu; [|split; [done|by left]].
  assert (Hb : (b < length (bufs (vs m)))%nat) by (unfold unused in Hu; apply andb_true_iff in Hu as [_ Hu]; by apply bool_decide_eq_true in Hu).
  assert (Hc : ∀ t' x, <[t := TReq b w]> (vthr m) !! t' = Some x → t' = t ∧ x = TReq b w ∨ t' ≠ t ∧ vthr m !! t' = Some x).
  { intros t' x Hx. apply list_lookup_insert_Some in Hx as [(-> & <- & _)|[Hne Hx]]; [by left|right; split; [congruence|done]]. }
  split; [split; cbn [vs vthr crashed]; try apply HM|].
  - eapply VS_ext; [..|apply HM]; try done. intros t'. unfold flights. destruct (decide (t' = t)) as [->|Hne]; [|by rewrite list_lookup_insert_ne].
    rewrite list_lookup_insert_eq by (by eapply lookup_lt_Some). by rewrite Ht.
  - intros t' x c [[-> ->]|[_ Hx]]%Hc Huse; [cbn in Huse; apply bool_decide_eq_true in Huse; by subst|by apply (M_buf _ _ HM t' x c)].
  - intros t1 t2 x1 x2 c H1 H2 U1 U2. apply Hc in H1 as [[-> ->]|[N1 H1]]; apply Hc in H2 as [[-> ->]|[N2 H2]]; [done| | |by apply (M_excl _ _ HM t1 t2 x1 x2 c)].
    + cbn in U1. apply bool_decide_eq_true in U1. subst c. by rewrite (unused_thr m b t2 x2 Hu H2) in U2.
    + cbn in U2. apply bool_decide_eq_true in U2. subst c. by rewrite (unused_thr m b t1 x1 Hu H1) in U1.
  - intros t' x [[-> ->]|[_ Hx]]%Hc; [done|by apply (M_thr _ _ HM t')].
  - right. unfold abs. cbn [vs vthr]. rewrite list_fmap_insert. apply (a_start (abs m) t b w). cbn [abs athr]. by rewrite list_lookup_fmap, Ht.
Qed.

Lemma step_env lossy m b bn data : VI lossy m → refines lossy m (vexec m (VEnv b bn data)).
Proof.
  intros HM. cbn [vexec]. destruct (unused m b) eqn:Hu; [|split; [done|by left]]. destruct (buf_ok bn data) eqn:Hok; [|split; [done|by left]]. cbn [andb].
  apply bool_decide_eq_true in Hok. set (s' := set_bufs _ _). pose proof (M_vs _ _ HM) as [H1 H2 H3 H4 H5 H6 H7 H8 H9].
  assert (Hnu : ∀ t x c, vthr m !! t = Some x → uses c x = true → c ≠ b) by (intros t x c Hx Hc ->; by rewrite (unused_thr m b t x Hu Hx) in Hc).
  assert (Hne : ∀ c, c ≠ b → bufs s' !!! c = bufs (vs m) !!! c) by (intros c Hc; cbn [s' set_bufs bufs]; by rewrite list_lookup_total_alter_ne).
  assert (Hrb : ∀ t r, flights (vthr m) t = Some r → rbuf r ≠ b).
  { intros t r Hr. unfold flights in Hr. destruct (vthr m !! t) as [x|] eqn:Hx; [|done]. apply (Hnu t x); [done|by apply flight_uses]. }
  split; [split; cbn [vs vthr crashed]; try apply HM|].
  - split; try done; [by destruct H2| |].
    + intros c x Hx. cbn [s' set_bufs bufs] in Hx. rewrite list_lookup_alter in Hx. case_decide; [|by apply (H3 c)]. apply fmap_Some in Hx as (y & _ & ->). done.
    + intros t r Hr. destruct (H4 t r Hr) as [[Q1 Q2 Q3 Q4 Q5 Q6 Q7 Q8 Q9] P]. pose proof (Hrb t r Hr) as Hn. split.
      * split; try done; [by rewrite Hne|cbn [s' set_bufs bufs]; by rewrite length_alter].
      * destruct P as [A1 A2 A3|A1 A2 A3|A1 A2 A3]; [apply ph_queued|apply ph_done|apply ph_acked]; try done; unfold disk_flag; by rewrite Hne.
  - intros t x c Hx Hc. cbn [s' set_bufs bufs]. rewrite length_alter. by apply (M_buf _ _ HM t x c).
  - intros t x Hx. pose proof (M_thr _ _ HM t x Hx) as Hok'. destruct x as [| | | |c w idx]; try done. destruct Hok' as [? Hd]. split; [done|]. unfold disk_flag. rewrite Hne; [done|].
    apply (Hnu t _ c Hx). by apply bool_decide_true.
  - right. assert (Eb : ((λ x, (blockno x, vdata x)) <$> bufs s') = <[b := (bn, data)]> (abufs (abs m))).
    { apply list_eq. intros c. rewrite list_lookup_fmap. cbn [s' set_bufs bufs]. rewrite list_lookup_alter. cbn [abs abufs].
      assert (Hb : (b < length (bufs (vs m)))%nat) by (unfold unused in Hu; apply andb_true_iff in Hu as [_ Hu]; by apply bool_decide_eq_true in Hu).
      case_decide as E; [subst c; rewrite list_lookup_insert_eq by (by rewrite length_fmap); destruct (lookup_lt_is_Some_2 _ _ Hb) as [x ->]; done|].
      rewrite list_lookup_insert_ne by done. by rewrite list_lookup_fmap. }
    unfold abs at 2. cbn [vs vthr]. rewrite Eb. apply (a_env (abs m) b bn data). intros t w. cbn [abs athr]. rewrite list_lookup_fmap. destruct (vthr m !! t) as [x|] eqn:Hx; [|done]. cbn.
    assert (Hx0 := unused_thr m b t x Hu Hx). destruct x as [| | |c w' idx|c w' idx]; cbn in *; try done; try (destruct (_ =? 0)); split; try done; intros [= -> ->]; by rewrite bool_decide_true in Hx0.
Qed.

Lemma vexec_refines lossy m o : (lossy = false → lossless o) → VI lossy m → refines lossy m (vexec m o).
Proof.
  intros Ho HM. destruct o as [t b w|t miss|miss|t| |h|b bn data];
    [by apply step_start| |by apply step_intr|by apply step_kill|by apply step_fetch|by apply step_complete|by apply step_env].
  destruct (vthr m !! t) as [x|] eqn:Ht; [|cbn [vexec]; rewrite Ht; split; [done|by left]].
  destruct x as [|b w|b w|b w idx|b w idx]; [|by apply (step_submit lossy miss m t b w)| |by apply (step_finish lossy miss m t b w idx)|]; cbn [vexec]; rewrite Ht; (split; [done|by left]).
Qed.

Lemma vexec_run lossy m ops : (lossy = false → Forall lossless ops) → VI lossy m →
  VI lossy (foldl vexec m ops) ∧ rtc astep (abs m) (abs (foldl vexec m ops)).
Proof.
  revert m. induction ops as [|o ops IH]; intros m Ho HM; [split; [done|apply rtc_refl]|]. cbn [foldl].
  destruct (vexec_refines lossy m o) as [HM' Hs]; [intros E; by destruct (proj1 (Forall_cons _ _ _) (Ho E))|done|].
  destruct (IH (vexec m o)) as [HM2 Hr]; [intros E; by destruct (proj1 (Forall_cons _ _ _) (Ho E))|done|].
  split; [done|]. destruct Hs as [E|Hs]; [by rewrite <- E|by eapply rtc_l].
Qed.

Lemma VI_init lossy nt bs m : (∀ b x, bs !! b = Some x → 0 ≤ blockno x < 2 ^ 31 ∧ length (vdata x) = 1024%nat) → (∀ x, length (m x) = 512%nat) → VI lossy (vmach0 nt bs m).
Proof.
  intros Hbs Hm. assert (Hf : ∀ t, flights (vthr (vmach0 nt bs m)) t = None).
  { intros t. unfold flights. cbn [vmach0 vthr]. destruct (replicate nt TIdle !! t) eqn:E; [|done]. by apply lookup_replicate in E as [-> _]. }
  assert (Hidle : ∀ t x, vthr (vmach0 nt bs m) !! t = Some x → x = TIdle) by (intros t x E; cbn [vmach0 vthr] in E; by apply lookup_replicate in E as [-> _]).
  assert (Hq : queue (vs (vmach0 nt bs m)) = []) by reflexivity.
  split; try done; [|intros t x b Hx; by rewrite (Hidle t x Hx)|intros t t' x x' b Hx; by rewrite (Hidle t x Hx)|intros t x Hx; by rewrite (Hidle t x Hx)].
  split; try done.
  - split; [done|]. intros i Hi. right. unfold at_. cbn [vmach0 vs vst0 vdrv dfree]. apply lookup_total_replicate_2. unfold NUM in *. lia.
  - intros t r. by rewrite Hf.
  - intros t t' r r'. by rewrite Hf.
  - intros h. rewrite Hq. intros Hh. by apply not_elem_of_nil in Hh.
  - rewrite Hq. constructor.
  - intros i Hi. unfold at_. cbn [vmach0 vs vst0 vdrv dfree]. rewrite lookup_total_replicate_2; [done|]. unfold NUM in *. lia.
Qed.

(** Free descriptors and taken ones. *)
Lemma nfree_taken F : (nfree F + length (filter (λ i : nat, F !!! i = 0%Z) (seq 0 (length F))) = length F)%nat.
Proof.
  induction F as [|x F IH] using rev_ind; [done|]. rewrite length_app. cbn [length]. rewrite Nat.add_1_r, seq_S, filter_app, length_app. cbn [Nat.add].
  rewrite (list_filter_ext (λ i, (F ++ [x]) !!! i = 0) (λ i, F !!! i = 0) (seq 0 (length F))).
  2:{ intros i Hi. apply elem_of_seq in Hi. rewrite lookup_total_app_l by lia. done. }
  unfold nfree in *. rewrite filter_app, length_app. cbn [filter list_filter]. rewrite lookup_total_app_r, Nat.sub_diag by lia. cbn.
  destruct (decide (x = 0)) as [->|Hx]; [rewrite decide_False by auto; cbn [length]; lia|rewrite decide_True by auto; cbn [length]; lia].
Qed.

(** With fewer than three free descriptors two requests are in flight. *)
Lemma two_in_flight s R : VS s R → (nfree (dfree (vdrv s)) < 3)%nat → ∃ t t' r r', t ≠ t' ∧ R t = Some r ∧ R t' = Some r'.
Proof.
  intros HV Hn. set (F := dfree (vdrv s)) in *. pose proof (S_bits _ _ HV) as [Hl _]. pose proof (nfree_taken F) as Hc. fold F in Hl. rewrite Hl in Hc.
  set (T := filter (λ i : nat, F !!! i = 0) (seq 0 8)) in *.
  assert (Ht : ∀ i, i ∈ T → (i < 8)%nat ∧ ∃ t r, R t = Some r ∧ owns r (Z.of_nat i)).
  { intros i Hi. apply list_elem_of_filter in Hi as [H0 Hi]. apply elem_of_seq in Hi. split; [lia|]. apply (S_leak _ _ HV); [unfold NUM; lia|]. unfold at_. by rewrite Nat2Z.id. }
  assert (Hnd : NoDup T) by (apply NoDup_filter, NoDup_seq).
  destruct T as [|i0 T'] eqn:ET; [cbn in Hc; lia|]. destruct (Ht i0 ltac:(by constructor)) as (_ & t & r & Hr & _).
  destruct (decide (Exists (λ i, ¬ (i = Z.to_nat (head r) ∨ i = Z.to_nat (mid r) ∨ i = Z.to_nat (last r))) (i0 :: T'))) as [Hex|Hall].
  - apply Exists_exists in Hex as (i & Hi & Hno). destruct (Ht i Hi) as (_ & t' & r' & Hr' & Ho). exists t, t', r, r'. split; [|done]. intros <-. rewrite Hr in Hr'. injection Hr' as <-. apply Hno. destruct Ho as [E|[E|E]]; lia.
  - exfalso. assert (Hsub : i0 :: T' ⊆+ [Z.to_nat (head r); Z.to_nat (mid r); Z.to_nat (last r)]).
    { apply NoDup_submseteq; [done|]. intros i Hi. destruct (decide (i = Z.to_nat (head r) ∨ i = Z.to_nat (mid r) ∨ i = Z.to_nat (last r))); [set_solver|]. exfalso. apply Hall, Exists_exists. by exists i. }
    apply submseteq_length in Hsub. cbn [length] in *. lia.
Qed.


