(* ===== verification/Virtioinit.v ===== *)
(** * Initialisation of the disk device (virtio_disk_init of kernel/virtio_disk.c)

    The control registers of the device are an interface: the value of a register
    depends on what has been written so far. *)

From S2P Require Import Prelude Machine Mem Kalloc Virtio.

Definition VIRTIO_MMIO_MAGIC_VALUE : Z := 0x000.
Definition VIRTIO_MMIO_VERSION : Z := 0x004.
Definition VIRTIO_MMIO_DEVICE_ID : Z := 0x008.
Definition VIRTIO_MMIO_VENDOR_ID : Z := 0x00c.
Definition VIRTIO_MMIO_DEVICE_FEATURES : Z := 0x010.
Definition VIRTIO_MMIO_DRIVER_FEATURES : Z := 0x020.
Definition VIRTIO_MMIO_QUEUE_SEL : Z := 0x030.
Definition VIRTIO_MMIO_QUEUE_NUM_MAX : Z := 0x034.
Definition VIRTIO_MMIO_QUEUE_NUM : Z := 0x038.
Definition VIRTIO_MMIO_QUEUE_READY : Z := 0x044.
Definition VIRTIO_MMIO_STATUS : Z := 0x070.
Definition VIRTIO_MMIO_QUEUE_DESC_LOW : Z := 0x080.
Definition VIRTIO_MMIO_QUEUE_DESC_HIGH : Z := 0x084.
Definition VIRTIO_MMIO_DRIVER_DESC_LOW : Z := 0x090.
Definition VIRTIO_MMIO_DRIVER_DESC_HIGH : Z := 0x094.
Definition VIRTIO_MMIO_DEVICE_DESC_LOW : Z := 0x0a0.
Definition VIRTIO_MMIO_DEVICE_DESC_HIGH : Z := 0x0a4.
Definition VIRTIO_CONFIG_S_ACKNOWLEDGE : Z := 1.
Definition VIRTIO_CONFIG_S_DRIVER : Z := 2.
Definition VIRTIO_CONFIG_S_DRIVER_OK : Z := 4.
Definition VIRTIO_CONFIG_S_FEATURES_OK : Z := 8.
Definition VIRTIO_BLK_F_RO : Z := 5.
Definition VIRTIO_BLK_F_SCSI : Z := 7.
Definition VIRTIO_BLK_F_CONFIG_WCE : Z := 11.
Definition VIRTIO_BLK_F_MQ : Z := 12.
Definition VIRTIO_F_ANY_LAYOUT : Z := 27.
Definition VIRTIO_RING_F_INDIRECT_DESC : Z := 28.
Definition VIRTIO_RING_F_EVENT_IDX : Z := 29.

(** The register [r] after the writes so far (register and value, oldest
    first). *)
Class Mmio := mmio_read : list (Z * Z) → Z → Z.

Section init.
Context `{LY : Layout} `{DV : Mmio}.

Record vinit := VInit { km : mst; trace : list (Z * Z); qdesc : Z; qavail : Z; qused : Z; vfree : list Z }.

Definition rreg (r : Z) : M vinit Z := gets (λ s, u32 (mmio_read (trace s) r)).
Definition wreg (r v : Z) : M vinit unit := modify (λ s, VInit (km s) (trace s ++ [(r, u32 v)]) (qdesc s) (qavail s) (qused s) (vfree s)).

Definition on_km {A} (m : M mst A) : M vinit A := zoom km (λ k s, VInit k (trace s) (qdesc s) (qavail s) (qused s) (vfree s)) m.

(** [features &= ~(1 << bit)], on a uint64. *)
Definition clear_bit (features bit : Z) : Z := Z.land features (u64 (Z.lnot (Z.shiftl 1 bit))).

Definition negotiate (features : Z) : Z :=
  foldl clear_bit features [VIRTIO_BLK_F_RO; VIRTIO_BLK_F_SCSI; VIRTIO_BLK_F_CONFIG_WCE; VIRTIO_BLK_F_MQ;
    VIRTIO_F_ANY_LAYOUT; VIRTIO_RING_F_EVENT_IDX; VIRTIO_RING_F_INDIRECT_DESC].

Definition virtio_disk_init : M vinit unit :=
  magic ← rreg VIRTIO_MMIO_MAGIC_VALUE; version ← rreg VIRTIO_MMIO_VERSION;
  device ← rreg VIRTIO_MMIO_DEVICE_ID; vendor ← rreg VIRTIO_MMIO_VENDOR_ID;
  if negb (magic =? 0x74726976) || negb (version =? 2) || negb (device =? 2) || negb (vendor =? 0x554d4551) then
    panic "could not find virtio disk" else
  let status := 0 in
  wreg VIRTIO_MMIO_STATUS status;;
  let status := Z.lor status VIRTIO_CONFIG_S_ACKNOWLEDGE in
  wreg VIRTIO_MMIO_STATUS status;;
  let status := Z.lor status VIRTIO_CONFIG_S_DRIVER in
  wreg VIRTIO_MMIO_STATUS status;;
  features ← rreg VIRTIO_MMIO_DEVICE_FEATURES;
  wreg VIRTIO_MMIO_DRIVER_FEATURES (negotiate features);;
  let status := Z.lor status VIRTIO_CONFIG_S_FEATURES_OK in
  wreg VIRTIO_MMIO_STATUS status;;
  status ← rreg VIRTIO_MMIO_STATUS;
  if Z.land status VIRTIO_CONFIG_S_FEATURES_OK =? 0 then panic "virtio disk FEATURES_OK unset" else
  wreg VIRTIO_MMIO_QUEUE_SEL 0;;
  ready ← rreg VIRTIO_MMIO_QUEUE_READY;
  if negb (ready =? 0) then panic "virtio disk should not be ready" else
  max ← rreg VIRTIO_MMIO_QUEUE_NUM_MAX;
  if max =? 0 then panic "virtio disk has no queue 0" else
  if max <? NUM then panic "virtio disk max queue too short" else
  d ← on_km kalloc; a ← on_km kalloc; u ← on_km kalloc;
  modify (λ s, VInit (km s) (trace s) d a u (vfree s));;
  if (d =? 0) || (a =? 0) || (u =? 0) then panic "virtio disk kalloc" else
  on_km (on_ram (memset d 0 PGSIZE));; on_km (on_ram (memset a 0 PGSIZE));; on_km (on_ram (memset u 0 PGSIZE));;
  wreg VIRTIO_MMIO_QUEUE_NUM NUM;;
  wreg VIRTIO_MMIO_QUEUE_DESC_LOW d;; wreg VIRTIO_MMIO_QUEUE_DESC_HIGH (Z.shiftr d 32);;
  wreg VIRTIO_MMIO_DRIVER_DESC_LOW a;; wreg VIRTIO_MMIO_DRIVER_DESC_HIGH (Z.shiftr a 32);;
  wreg VIRTIO_MMIO_DEVICE_DESC_LOW u;; wreg VIRTIO_MMIO_DEVICE_DESC_HIGH (Z.shiftr u 32);;
  wreg VIRTIO_MMIO_QUEUE_READY 1;;
  forM (seqZ 0 NUM) (λ i, modify (λ s, VInit (km s) (trace s) (qdesc s) (qavail s) (qused s) (set_at i 1 (vfree s))));;
  wreg VIRTIO_MMIO_STATUS (Z.lor status VIRTIO_CONFIG_S_DRIVER_OK).

(** A disk that follows the initialisation sequence of the specification. *)
Record disk_device : Prop := {
  dd_magic : u32 (mmio_read [] VIRTIO_MMIO_MAGIC_VALUE) = 0x74726976;
  dd_version : u32 (mmio_read [] VIRTIO_MMIO_VERSION) = 2;
  dd_device : u32 (mmio_read [] VIRTIO_MMIO_DEVICE_ID) = 2;
  dd_vendor : u32 (mmio_read [] VIRTIO_MMIO_VENDOR_ID) = 0x554d4551;
  dd_status : ∀ tr v, u32 (mmio_read (tr ++ [(VIRTIO_MMIO_STATUS, v)]) VIRTIO_MMIO_STATUS) = v;
  dd_ready : ∀ tr, (VIRTIO_MMIO_QUEUE_READY, 1) ∉ tr → u32 (mmio_read tr VIRTIO_MMIO_QUEUE_READY) = 0;
  dd_max : ∀ tr, NUM ≤ u32 (mmio_read tr VIRTIO_MMIO_QUEUE_NUM_MAX);
}.

(** What the driver tells the device, for the queue pages [d], [a] and [u]. *)
Definition greeting (features d a u : Z) : list (Z * Z) :=
  [(VIRTIO_MMIO_STATUS, 0); (VIRTIO_MMIO_STATUS, 1); (VIRTIO_MMIO_STATUS, 3); (VIRTIO_MMIO_DRIVER_FEATURES, u32 (negotiate features)); (VIRTIO_MMIO_STATUS, 11);
   (VIRTIO_MMIO_QUEUE_SEL, 0); (VIRTIO_MMIO_QUEUE_NUM, NUM); (VIRTIO_MMIO_QUEUE_DESC_LOW, u32 d); (VIRTIO_MMIO_QUEUE_DESC_HIGH, u32 (Z.shiftr d 32));
   (VIRTIO_MMIO_DRIVER_DESC_LOW, u32 a); (VIRTIO_MMIO_DRIVER_DESC_HIGH, u32 (Z.shiftr a 32)); (VIRTIO_MMIO_DEVICE_DESC_LOW, u32 u); (VIRTIO_MMIO_DEVICE_DESC_HIGH, u32 (Z.shiftr u 32));
   (VIRTIO_MMIO_QUEUE_READY, 1); (VIRTIO_MMIO_STATUS, 15)].

Definition tr3 : list (Z * Z) := [(VIRTIO_MMIO_STATUS, 0); (VIRTIO_MMIO_STATUS, 1); (VIRTIO_MMIO_STATUS, 3)].

Lemma on_km_kalloc s p l (Q : Z → vinit → Prop) : FL (km s) (p :: l) →
  (∀ k, FL k l → Q p (VInit k (trace s) (qdesc s) (qavail s) (qused s) (vfree s))) → wp (on_km kalloc) Q s.
Proof.
  intros HF HQ. unfold on_km. apply wp_zoom. eapply wp_mono; [|apply (kalloc_ok _ _ HF)]. intros r k (-> & HF' & _). by apply HQ.
Qed.

Lemma on_km_memset s p l (Q : unit → vinit → Prop) : FL (km s) l → page_ok p → p ∉ l →
  (∀ k, FL k l → ram k = memset p 0 PGSIZE (ram (km s)) → Q tt (VInit k (trace s) (qdesc s) (qavail s) (qused s) (vfree s))) →
  wp (on_km (on_ram (memset p 0 PGSIZE))) Q s.
Proof.
  intros HF Hp Hn HQ. unfold on_km. apply wp_zoom. unfold on_ram. apply wp_modify. apply HQ; [|done].
  eapply FL_only_pages; [done|apply only_pages_memset|by apply Forall_singleton|]. by intros q ->%list_elem_of_singleton.
Qed.

(** The queue pages end up zeroed. *)
Lemma zeroed_pages (m : mem) d a u p i : p ∈ [d; a; u] → 0 ≤ i < PGSIZE →
  rd (memset u 0 PGSIZE (memset a 0 PGSIZE (memset d 0 PGSIZE m))) (p + i) = 0.
Proof.
  intros Hp Hi. rewrite !rd_memset. repeat case_decide; try done.
  apply elem_of_cons in Hp as [->|Hp]; [lia|]. apply elem_of_cons in Hp as [->|Hp]; [lia|]. apply list_elem_of_singleton in Hp as ->. lia.
Qed.

Lemma all_free l : length l = 8%nat → foldl (λ l i, set_at i 1 l) l (seqZ 0 NUM) = replicate 8 1.
Proof. intros Hl. do 9 (destruct l as [|? l]; try discriminate). done. Qed.

Lemma forM_free l' is' s : l' = foldl (λ l i, set_at i 1 l) (vfree s) is' →
  forM is' (λ i, modify (λ s, VInit (km s) (trace s) (qdesc s) (qavail s) (qused s) (set_at i 1 (vfree s)))) s =
  Ok tt (VInit (km s) (trace s) (qdesc s) (qavail s) (qused s) l').
Proof. intros ->. revert s. induction is' as [|i is' IH]; intros s; [by destruct s|]. by apply (IH (VInit _ _ _ _ _ _)). Qed.

(** The negotiated feature set drops exactly the seven features the driver
    cannot handle. *)
Lemma negotiate_testbit f n : 0 ≤ f < 2 ^ 32 → 0 ≤ n →
  Z.testbit (negotiate f) n = Z.testbit f n && negb (bool_decide (n ∈ [5; 7; 11; 12; 27; 28; 29])).
Proof.
  intros Hf Hn. unfold negotiate, clear_bit. cbn [foldl]. rewrite !Z.land_spec.
  destruct (decide (32 ≤ n)) as [Hb|Hb].
  { rewrite (Z.bits_above_log2 f n); [done|lia|]. destruct (decide (f = 0)) as [->|]; [cbn; lia|]. apply Z.log2_lt_pow2; [lia|]. apply Z.lt_le_trans with (2 ^ 32); [lia|]. apply Z.pow_le_mono_r; lia. }
  assert (n ∈ seqZ 0 32) as Hin by (apply elem_of_seqZ; lia). clear Hb Hn Hf. revert n Hin. apply Forall_forall.
  cbn. repeat apply Forall_cons_2; [..|apply Forall_nil_2]; cbn; rewrite ?andb_true_r, ?andb_false_r; done.
Qed.

Local Ltac red_st := cbn [km trace qdesc qavail qused vfree app].

(** Initialising a disk that follows the protocol: the driver returns, it has
    written exactly the greeting, the three queue pages come off the free list
    zeroed, and every descriptor is free. *)
Lemma virtio_disk_init_spec s l d a u : FL (km s) (d :: a :: u :: l) → disk_device → trace s = [] → length (vfree s) = 8%nat →
  wp virtio_disk_init (λ _ s', trace s' = greeting (u32 (mmio_read tr3 VIRTIO_MMIO_DEVICE_FEATURES)) d a u ∧ qdesc s' = d ∧ qavail s' = a ∧ qused s' = u ∧
    vfree s' = replicate 8 1 ∧ FL (km s') l ∧ ∀ p i, p ∈ [d; a; u] → 0 ≤ i < PGSIZE → rd (ram (km s')) (p + i) = 0) s.
Proof.
  intros HF [M1 M2 M3 M4 M5 M6 M7] Ht Hl. unfold virtio_disk_init. repeat (apply wp_bind, wp_gets). rewrite Ht, M1, M2, M3, M4. cbn [Z.eqb Pos.eqb negb orb].
  repeat (apply wp_bind, wp_modify; red_st). rewrite Ht. red_st.
  apply wp_bind, wp_gets. repeat (apply wp_bind, wp_modify; red_st). set (F := u32 (mmio_read _ VIRTIO_MMIO_DEVICE_FEATURES)).
  apply wp_bind, wp_gets. cbn [trace].
  match goal with |- context [mmio_read ?t VIRTIO_MMIO_STATUS] => rewrite (M5 (take 4 t) 11 : u32 (mmio_read t VIRTIO_MMIO_STATUS) = 11) end.
  cbn [Z.land Pos.land VIRTIO_CONFIG_S_FEATURES_OK Z.eqb]. apply wp_bind, wp_modify. red_st. apply wp_bind, wp_gets. red_st.
  rewrite M6 by (rewrite !not_elem_of_cons; repeat split; solve [discriminate | apply not_elem_of_nil]).
  cbn [Z.eqb negb]. apply wp_bind, wp_gets. cbn [trace]. match goal with |- context [mmio_read ?t VIRTIO_MMIO_QUEUE_NUM_MAX] => pose proof (M7 t) as Hm end.
  assert (NUM = 8) as HN by done. rewrite (proj2 (Z.eqb_neq _ 0)) by lia. rewrite (proj2 (Z.ltb_ge _ _)) by lia.
  pose proof (fl_pages _ _ HF) as Hpg. pose proof (fl_nodup _ _ HF) as Hnd. rewrite !Forall_cons in Hpg. destruct Hpg as (Pd & Pa & Pu & _). rewrite !NoDup_cons in Hnd. destruct Hnd as (Nd & Na & Nu & _).
  apply wp_bind. eapply on_km_kalloc; [exact HF|]. intros k1 HF1. red_st. apply wp_bind. eapply on_km_kalloc; [exact HF1|]. intros k2 HF2. red_st.
  apply wp_bind. eapply on_km_kalloc; [exact HF2|]. intros k3 HF3. red_st. apply wp_bind, wp_modify. cbn [km trace vfree].
  rewrite !(proj2 (Z.eqb_neq _ 0)) by (pose proof (page_ok_range d Pd); pose proof (page_ok_range a Pa); pose proof (page_ok_range u Pu); lia). cbn [orb].
  apply wp_bind. eapply on_km_memset; [exact HF3|done|rewrite !not_elem_of_cons in Nd; tauto|]. intros k4 HF4 E4. red_st. apply wp_bind. eapply on_km_memset; [exact HF4|done|rewrite !not_elem_of_cons in Na; tauto|]. intros k5 HF5 E5. red_st.
  apply wp_bind. eapply on_km_memset; [exact HF5|done|done|]. intros k6 HF6 E6. red_st. cbn [km trace qdesc qavail qused vfree] in *.
  do 8 (apply wp_bind, wp_modify; red_st).
  apply wp_bind, wp_ok. eexists _, _. split; [apply forM_free; reflexivity|]. apply wp_modify. cbn [km trace qdesc qavail qused vfree app].
  split; [done|]. split; [done|]. split; [done|]. split; [done|]. split; [by apply all_free|]. split; [done|].
  intros p i Hp Hi. rewrite E6, E5, E4. by apply zeroed_pages.
Qed.
End init.
