(* ===== verification/Format.v ===== *)
(** * Formatted output: what kernel/printf.c and user/printf.c have in common

    The output produced so far and the arguments not yet taken by [va_arg]; the
    conversion of a number to text through a buffer of 16 bytes; and what a
    format means, as a list of directives. *)

From S2P Require Import Prelude.

Definition s64 (x : Z) : Z := (x + 2 ^ 63) mod 2 ^ 64 - 2 ^ 63.

(** An argument is a 64-bit word, or a pointer to the bytes [s] followed by NUL. *)
Inductive varg := VWord (w : Z) | VStr (s : list Z).

Record pf := PF { out : list Z; ap : list varg }.

Definition emit (c : Z) : M pf unit := modify (λ s, PF (out s ++ [c]) (ap s)).

Definition va_next : M pf varg :=
  s ← getS;
  match ap s with [] => panic "no argument left" | a :: l => putS (PF (out s) l);; mret a end.

(** [va_arg(ap, int)], [va_arg(ap, uint64)] and [va_arg] of a string. *)
Definition va_int : M pf Z := a ← va_next; match a with VWord w => mret (s32 w) | VStr _ => panic "not a number" end.
Definition va_uint64 : M pf Z := a ← va_next; match a with VWord w => mret (u64 w) | VStr _ => panic "not a number" end.

Definition null_text : list Z := [40; 110; 117; 108; 108; 41].

Definition va_str : M pf (list Z) :=
  a ← va_next; match a with VStr s => mret s | VWord w => if u64 w =? 0 then mret null_text else panic "wild pointer" end.

(** [for(; *s; s++) putc( *s)]. *)
Fixpoint put_str (s : list Z) : M pf unit :=
  match s with [] => mret tt | c :: s' => if c =? 0 then mret tt else emit c;; put_str s' end.

(** [fmt[i] & 0xff]; the format ends with a NUL. *)
Definition fmt_at (fmt : list Z) (i : nat) : Z := default 0 (fmt !! i).

(** The loop [do { buf[i++] = digits[x % base]; } while((x /= base) != 0)] with
    room for that many more bytes: [None] is a write past the end of [buf]. *)
Fixpoint push_digits (digits : list Z) (base : Z) (room : nat) (x : Z) : option (list Z) :=
  match room with
  | O => None
  | S room' =>
      let c := digits !!! Z.to_nat (x mod base) in
      if x / base =? 0 then Some [c] else cons c <$> push_digits digits base room' (x / base)
  end.

(** The rest of [printint] once the sign is known: the digits, the sign, and the
    buffer printed backwards. *)
Definition print_buf (digits : list Z) (base : Z) (neg : bool) (x : Z) : M pf unit :=
  match push_digits digits base 16 x with
  | None => panic "buf overflow"
  | Some buf =>
      if neg then if (length buf <? 16)%nat then forM (rev (buf ++ [45])) emit else panic "buf overflow"
      else forM (rev buf) emit
  end.

(** ** Numerals *)

(** The digits of [x], most significant first. *)
Fixpoint digs (n : nat) (base x : Z) : list Z :=
  match n with O => [] | S n' => if x <? base then [x] else digs n' base (x / base) ++ [x mod base] end.

Definition digits_of (base x : Z) : list Z := digs (S (Z.to_nat (Z.log2 x))) base x.

Definition value (base : Z) (ds : list Z) : Z := foldl (λ a d, a * base + d) 0 ds.

(** The text of the signed number [v]. *)
Definition numeral (digits : list Z) (base v : Z) : list Z :=
  (if v <? 0 then [45] else []) ++ ((λ d, digits !!! Z.to_nat d) <$> digits_of base (Z.abs v)).

Lemma log2_div base x : 2 ≤ base → base ≤ x → (Z.to_nat (Z.log2 (x / base)) < Z.to_nat (Z.log2 x))%nat.
Proof.
  intros Hb Hx. assert (0 < x / base) as Hp by (apply Z.div_str_pos; lia).
  assert (Z.log2 (x / base) < Z.log2 x); [|pose proof (Z.log2_nonneg (x / base)); lia].
  apply Z.log2_lt_pow2; [done|]. apply Z.div_lt_upper_bound; [lia|].
  pose proof (Z.log2_spec x) as [_ Hs]; [lia|]. rewrite Z.pow_succ_r in Hs by apply Z.log2_nonneg. nia.
Qed.

Lemma digs_fuel base n n' x : 2 ≤ base → 0 ≤ x → (Z.to_nat (Z.log2 x) < n)%nat → (Z.to_nat (Z.log2 x) < n')%nat → digs n base x = digs n' base x.
Proof.
  intros Hb. revert n' x. induction n as [|n IH]; intros [|n'] x Hx H1 H2; try lia. cbn [digs].
  destruct (Z.ltb_spec x base); [done|]. pose proof (log2_div base x Hb ltac:(lia)). rewrite (IH n'); [done|apply Z.div_pos; lia|lia|lia].
Qed.

Lemma digits_of_unfold base x : 2 ≤ base → 0 ≤ x →
  digits_of base x = if x <? base then [x] else digits_of base (x / base) ++ [x mod base].
Proof.
  intros Hb Hx. unfold digits_of at 1. cbn [digs]. destruct (Z.ltb_spec x base); [done|]. f_equal. unfold digits_of.
  pose proof (log2_div base x Hb ltac:(lia)). apply digs_fuel; [done|apply Z.div_pos; lia|lia|lia].
Qed.

(** Induction on the number of digits. *)
Lemma digits_ind base (P : Z → Prop) : 2 ≤ base → (∀ x, 0 ≤ x < base → P x) → (∀ x, base ≤ x → P (x / base) → P x) → ∀ x, 0 ≤ x → P x.
Proof.
  intros Hb H0 H1 x Hx. remember (Z.to_nat (Z.log2 x)) as n eqn:Hn. assert (Z.to_nat (Z.log2 x) ≤ n)%nat as Hle by lia. clear Hn.
  revert x Hx Hle. induction n as [|n IH]; intros x Hx Hle; destruct (decide (x < base)); try (apply H0; lia);
    pose proof (log2_div base x Hb ltac:(lia)); [lia|]. apply H1; [lia|]. apply IH; [apply Z.div_pos; lia|lia].
Qed.

(** A numeral has the value of the number and no leading zero. *)
Lemma digits_of_value base x : 2 ≤ base → 0 ≤ x →
  value base (digits_of base x) = x ∧ Forall (λ d, 0 ≤ d < base) (digits_of base x) ∧
  (x = 0 ∨ ∃ d ds, digits_of base x = d :: ds ∧ d ≠ 0).
Proof.
  intros Hb. revert x. refine (digits_ind base _ Hb _ _).
  - intros x Hx. rewrite digits_of_unfold by lia. rewrite (proj2 (Z.ltb_lt _ _)) by lia. cbn. split; [lia|]. split; [by apply Forall_singleton|].
    destruct (decide (x = 0)); [by left|right]. by exists x, [].
  - intros x Hx (Hv & Hf & Hl). rewrite digits_of_unfold by lia. rewrite (proj2 (Z.ltb_ge _ _)) by lia. split; [|split].
    + unfold value in *. rewrite foldl_app, Hv. cbn [foldl]. pose proof (Z.div_mod x base). lia.
    + apply Forall_app. split; [done|]. apply Forall_singleton. apply Z.mod_pos_bound. lia.
    + right. assert (0 < x / base) by (apply Z.div_str_pos; lia). destruct Hl as [Hl|(d & ds & -> & Hd)]; [lia|]. by exists d, (ds ++ [x mod base]).
Qed.

Lemma push_digits_spec digits base room x : 2 ≤ base → 0 ≤ x →
  push_digits digits base room x =
    if decide (length (digits_of base x) ≤ room)%nat then Some (rev ((λ d, digits !!! Z.to_nat d) <$> digits_of base x)) else None.
Proof.
  intros Hb. revert room. enough (∀ x, 0 ≤ x → ∀ room, push_digits digits base room x =
    if decide (length (digits_of base x) ≤ room)%nat then Some (rev ((λ d, digits !!! Z.to_nat d) <$> digits_of base x)) else None) by auto.
  refine (digits_ind base _ Hb _ _).
  - intros y Hy room. rewrite digits_of_unfold by lia. rewrite (proj2 (Z.ltb_lt _ _)) by lia. destruct room as [|room]; [done|]. cbn.
    rewrite Z.div_small, Z.mod_small by lia. done.
  - intros y Hy IH room. rewrite digits_of_unfold by lia. rewrite (proj2 (Z.ltb_ge _ _)) by lia. rewrite length_app. cbn [length].
    assert (0 < y / base) by (apply Z.div_str_pos; lia). destruct room as [|room]; cbn [push_digits]; [by rewrite decide_False by lia|].
    rewrite (proj2 (Z.eqb_neq _ 0)) by lia. rewrite IH. repeat case_decide; try lia; [|done]. cbn. by rewrite fmap_app, rev_app_distr.
Qed.

Lemma forM_emit l s : forM l emit s = Ok tt (PF (out s ++ l) (ap s)).
Proof.
  revert s. induction l as [|c l IH]; intros s; cbn [forM].
  - rewrite app_nil_r. by destruct s.
  - unfold mbind, M_bind, emit, modify. rewrite IH. cbn. by rewrite <-(assoc_L (++)).
Qed.

(** [print_buf] prints the numeral exactly when it fits the buffer. *)
Lemma print_buf_spec digits base v s : 2 ≤ base →
  print_buf digits base (v <? 0) (Z.abs v) s =
    if decide (length (numeral digits base v) ≤ 16)%nat then Ok tt (PF (out s ++ numeral digits base v) (ap s)) else Panic "buf overflow".
Proof.
  intros Hb. unfold print_buf. rewrite push_digits_spec by lia. unfold numeral. rewrite length_app, length_fmap.
  destruct (Z.ltb_spec v 0); cbn [length].
  - repeat case_decide; try lia; try done.
    + rewrite (proj2 (Nat.ltb_lt _ _)) by (rewrite length_rev, length_fmap; lia). rewrite rev_app_distr, rev_involutive. cbn [rev app]. by rewrite forM_emit.
    + by rewrite (proj2 (Nat.ltb_ge _ _)) by (rewrite length_rev, length_fmap; lia).
  - repeat case_decide; try lia; try done. by rewrite rev_involutive, forM_emit.
Qed.

(** The numeral of a number below [base ^ n] has at most [n] digits. *)
Lemma digits_of_length base n x : 2 ≤ base → 0 ≤ x < base ^ Z.of_nat (S n) → (length (digits_of base x) ≤ S n)%nat.
Proof.
  intros Hb. revert x. induction n as [|n IH]; intros x Hx; rewrite digits_of_unfold by lia.
  - change (Z.of_nat 1) with 1 in Hx. rewrite Z.pow_1_r in Hx. rewrite (proj2 (Z.ltb_lt _ _)) by lia. done.
  - destruct (Z.ltb_spec x base); [cbn; lia|]. rewrite length_app. cbn [length]. enough (length (digits_of base (x / base)) ≤ S n)%nat by lia.
    apply IH. split; [apply Z.div_pos; lia|]. apply Z.div_lt_upper_bound; [lia|]. rewrite <-Z.pow_succ_r, <-Nat2Z.inj_succ by lia. lia.
Qed.

Lemma digits_of_long base n x : 2 ≤ base → base ^ Z.of_nat n ≤ x → (n < length (digits_of base x))%nat.
Proof.
  intros Hb. revert x. induction n as [|n IH]; intros x Hx.
  - cbn in Hx. rewrite digits_of_unfold by lia. destruct (x <? base); [cbn; lia|]. rewrite length_app. cbn. lia.
  - rewrite Nat2Z.inj_succ, Z.pow_succ_r in Hx by lia. assert (0 < base ^ Z.of_nat n) by (apply Z.pow_pos_nonneg; lia).
    rewrite digits_of_unfold by lia. rewrite (proj2 (Z.ltb_ge _ _)) by nia. rewrite length_app. cbn [length].
    specialize (IH (x / base)). assert (base ^ Z.of_nat n ≤ x / base) by (apply Z.div_le_lower_bound; lia). specialize (IH ltac:(lia)). lia.
Qed.

(** The loop of [printptr]: the top four bits of [x], [n] times. *)
Fixpoint print_nibbles (digits : list Z) (n : nat) (x : Z) : M pf unit :=
  match n with
  | O => mret tt
  | S n' => emit (digits !!! Z.to_nat (Z.shiftr x 60));; print_nibbles digits n' (u64 (Z.shiftl x 4))
  end.

(** ** What a format means *)

(** The conversions of numbers, named after the letters that follow the per cent
    sign, and the items of a format. *)
Inductive dir := Dd | Dld | Dlld | Du | Dlu | Dllu | Dx | Dlx | Dllx.
Inductive item := Chr (c : Z) | Num (d : dir) | Ptr | Str | Pct | Unk (c : Z).

Definition show_dir (d : dir) : list Z :=
  match d with
  | Dd => [100] | Dld => [108; 100] | Dlld => [108; 108; 100]
  | Du => [117] | Dlu => [108; 117] | Dllu => [108; 108; 117]
  | Dx => [120] | Dlx => [108; 120] | Dllx => [108; 108; 120]
  end.

Definition dbase (d : dir) : Z := match d with Dx | Dlx | Dllx => 16 | _ => 10 end.

Definition show (it : item) : list Z :=
  match it with
  | Chr c => [c] | Num d => 37 :: show_dir d | Ptr => [37; 112] | Str => [37; 115] | Pct => [37; 37] | Unk c => [37; c]
  end.

(** A character other than the per cent sign; a letter without a meaning. *)
Definition item_ok (it : item) : Prop :=
  match it with
  | Chr c => 0 < c < 256 ∧ c ≠ 37
  | Unk c => 0 < c < 256 ∧ c ∉ [100; 108; 117; 120; 112; 115; 37]
  | _ => True
  end.

Fixpoint cstr (s : list Z) : list Z := match s with [] => [] | c :: s' => if c =? 0 then [] else c :: cstr s' end.

Section render.
Variable digits : list Z.
(** The number a conversion prints for an argument word. *)
Variable conv : dir → Z → Z.

Definition hex64 (x : Z) : list Z := (λ k : nat, digits !!! Z.to_nat (x / 16 ^ (15 - Z.of_nat k) mod 16)) <$> seq 0 16.

(** The text of an item and the arguments that remain; [None] when the argument
    is missing or of the wrong kind, or its numeral exceeds 16 characters. *)
Definition render (it : item) (args : list varg) : option (list Z * list varg) :=
  match it, args with
  | Chr c, _ => Some ([c], args)
  | Pct, _ => Some ([37], args)
  | Unk c, _ => Some ([37; c], args)
  | Num d, VWord w :: args' =>
      let t := numeral digits (dbase d) (conv d w) in if decide (length t ≤ 16)%nat then Some (t, args') else None
  | Ptr, VWord w :: args' => Some (48 :: 120 :: hex64 (u64 w), args')
  | Str, VStr s :: args' => Some (cstr s, args')
  | Str, VWord w :: args' => if u64 w =? 0 then Some (null_text, args') else None
  | _, _ => None
  end.

Fixpoint render_all (its : list item) (args : list varg) : option (list Z * list varg) :=
  match its with
  | [] => Some ([], args)
  | it :: its' =>
      '(t, args1) ← render it args; '(t', args2) ← render_all its' args1; Some (t ++ t', args2)
  end.

(** The text without regard to the buffer, and that each numeral fits into it. *)
Definition text (it : item) (args : list varg) : option (list Z * list varg) :=
  match it, args with
  | Num d, VWord w :: args' => Some (numeral digits (dbase d) (conv d w), args')
  | _, _ => render it args
  end.

Definition fits (it : item) (args : list varg) : Prop :=
  match it, args with Num d, VWord w :: _ => (length (numeral digits (dbase d) (conv d w)) ≤ 16)%nat | _, _ => True end.

Fixpoint text_all (its : list item) (args : list varg) : option (list Z * list varg) :=
  match its with
  | [] => Some ([], args)
  | it :: its' => '(t, args1) ← text it args; '(t', args2) ← text_all its' args1; Some (t ++ t', args2)
  end.

Fixpoint fits_all (its : list item) (args : list varg) : Prop :=
  match its with
  | [] => True
  | it :: its' => fits it args ∧ match text it args with Some (_, args1) => fits_all its' args1 | None => True end
  end.

Lemma text_render it args : fits it args → text it args = render it args.
Proof. destruct it as [| | |d| |], args as [|[w|s] args]; try done. cbn [fits text render]. intros Hf. cbv zeta. by rewrite decide_True. Qed.

Lemma text_render_all its args : fits_all its args → text_all its args = render_all its args.
Proof.
  revert args. induction its as [|it its IH]; intros args; [done|]. intros [Hf Hall]. cbn [text_all render_all]. rewrite <-(text_render it args Hf).
  destruct (text it args) as [[t args1]|]; [|done]. cbn. by rewrite (IH args1 Hall).
Qed.

Lemma print_nibbles_spec n x s : (n ≤ 16)%nat → 0 ≤ x →
  print_nibbles digits n (u64 (x * 16 ^ (16 - Z.of_nat n))) s =
    Ok tt (PF (out s ++ ((λ k : nat, digits !!! Z.to_nat (x / 16 ^ (15 - Z.of_nat k) mod 16)) <$> seq (16 - n) n)) (ap s)).
Proof.
  intros Hn Hx. revert s. induction n as [|n IH]; intros s; cbn [print_nibbles].
  - cbn. rewrite app_nil_r. by destruct s.
  - unfold mbind, M_bind, emit, modify at 1.
    assert (u64 (Z.shiftl (u64 (x * 16 ^ (16 - Z.of_nat (S n)))) 4) = u64 (x * 16 ^ (16 - Z.of_nat n))) as ->.
    { rewrite Z.shiftl_mul_pow2 by lia. unfold u64. rewrite Zmult_mod_idemp_l. f_equal. replace (16 - Z.of_nat n) with (Z.succ (16 - Z.of_nat (S n))) by lia. rewrite Z.pow_succ_r by lia. lia. }
    rewrite IH by lia. cbn [out ap]. f_equal. f_equal. rewrite <-(assoc_L (++)). f_equal.
    replace (seq (16 - S n) (S n)) with ((16 - S n)%nat :: seq (16 - n) n) by (cbn [seq]; f_equal; f_equal; lia). cbn [fmap list_fmap app]. f_equal. f_equal. f_equal.
    rewrite Z.shiftr_div_pow2 by lia. unfold u64. replace (15 - Z.of_nat (16 - S n)) with (Z.of_nat n) by lia.
    set (a := 16 ^ (16 - Z.of_nat (S n))). set (b := 16 ^ Z.of_nat n).
    assert (a * b = 2 ^ 60) as Hab by (unfold a, b; rewrite <-Z.pow_add_r by lia; replace (16 - Z.of_nat (S n) + Z.of_nat n) with 15 by lia; done).
    assert (0 < a ∧ 0 < b) as [Ha Hb] by (split; apply Z.pow_pos_nonneg; lia).
    replace (2 ^ 64) with (2 ^ 60 * 16) by done. rewrite <-Hab, (Z.mul_comm x a), <-(Z.mul_assoc a b 16), Z.mul_mod_distr_l by lia.
    rewrite Z.div_mul_cancel_l by lia. rewrite Z.rem_mul_r by lia. rewrite Z.add_comm, Z.mul_comm, Z.div_add_l by lia. rewrite (Z.div_small (x mod b)); [lia|]. apply Z.mod_pos_bound. lia.
Qed.
End render.

Lemma put_str_spec t s : put_str t s = Ok tt (PF (out s ++ cstr t) (ap s)).
Proof.
  revert s. induction t as [|c t IH]; intros s; cbn [put_str cstr].
  - rewrite app_nil_r. by destruct s.
  - destruct (c =? 0); [rewrite app_nil_r; by destruct s|]. unfold mbind, M_bind, emit, modify. rewrite IH. cbn. by rewrite <-(assoc_L (++)).
Qed.

Lemma fmt_at_app pre l k : fmt_at (pre ++ l) (length pre + k) = fmt_at l k.
Proof. unfold fmt_at. by rewrite lookup_app_r, Nat.add_comm, Nat.add_sub by lia. Qed.

Lemma fmt_at_app0 pre l : fmt_at (pre ++ l) (length pre) = fmt_at l 0.
Proof. by rewrite <-(Nat.add_0_r (length pre)), fmt_at_app. Qed.

Lemma u64_idem w : u64 (u64 w) = u64 w.
Proof. unfold u64. by rewrite Z.mod_mod. Qed.

(** *** Rules for the pieces of a conversion *)

Lemma wp_print_ptr digits w (Q : unit → pf → Prop) s : Q tt (PF (out s ++ 48 :: 120 :: hex64 digits (u64 w)) (ap s)) →
  wp (emit 48;; emit 120;; print_nibbles digits 16 (u64 w)) Q s.
Proof.
  intros HQ. unfold emit. wp_steps. unfold wp. cbn [out ap].
  pose proof (print_nibbles_spec digits 16 (u64 w) (PF ((out s ++ [48]) ++ [120]) (ap s)) ltac:(lia)) as E. change (16 ^ (16 - Z.of_nat 16)) with 1 in E.
  rewrite Z.mul_1_r, u64_idem in E. rewrite E by (unfold u64; apply Z.mod_pos_bound; lia). cbn [out ap]. by rewrite <-!(assoc_L (++)).
Qed.

Lemma wp_va_int w l o (Q : Z → pf → Prop) : Q (s32 w) (PF o l) → wp va_int Q (PF o (VWord w :: l)).
Proof. done. Qed.
Lemma wp_va_uint64 w l o (Q : Z → pf → Prop) : Q (u64 w) (PF o l) → wp va_uint64 Q (PF o (VWord w :: l)).
Proof. done. Qed.
Lemma wp_va_str t l o (Q : list Z → pf → Prop) : Q t (PF o l) → wp va_str Q (PF o (VStr t :: l)).
Proof. done. Qed.
Lemma wp_va_str_null w l o (Q : list Z → pf → Prop) : (u64 w =? 0) = true → Q null_text (PF o l) → wp va_str Q (PF o (VWord w :: l)).
Proof. intros E HQ. unfold va_str. apply wp_bind. change (wp (if u64 w =? 0 then mret null_text else panic "wild pointer") Q (PF o l)). by rewrite E. Qed.
Lemma wp_put_str t (Q : unit → pf → Prop) s : Q tt (PF (out s ++ cstr t) (ap s)) → wp (put_str t) Q s.
Proof. unfold wp. by rewrite put_str_spec. Qed.
