(* ===== verification/Kprintf.v ===== *)
(** * Kernel printf (kernel/printf.c)

    [printf] with its conversions through the buffer of [printint], and the
    [procdump] of kernel/proc.c that uses it. *)

From S2P Require Import Prelude Machine Proc Format.

Definition digits : list Z := [48; 49; 50; 51; 52; 53; 54; 55; 56; 57; 97; 98; 99; 100; 101; 102].

Definition printint (xx base : Z) (sign : bool) : M pf unit :=
  let neg := sign && (xx <? 0) in
  print_buf digits base neg (u64 (if neg then - xx else xx)).

Definition printptr (x : Z) : M pf unit := emit 48;; emit 120;; print_nibbles digits 16 x.

(** One turn of the loop over the format. *)
Definition printf_body (fmt : list Z) (i : nat) : M pf (nat + unit) :=
  let cx := fmt_at fmt i in
  if cx =? 0 then mret (inr tt) else
  if negb (cx =? 37) then emit cx;; mret (inl (i + 1)%nat) else
  let i := (i + 1)%nat in
  let c0 := fmt_at fmt (i + 0) in
  let c1 := if c0 =? 0 then 0 else fmt_at fmt (i + 1) in
  let c2 := if c1 =? 0 then 0 else fmt_at fmt (i + 2) in
  let next i := mret (inl (i + 1)%nat) in
  if c0 =? 100 then v ← va_int; printint v 10 true;; next i
  else if (c0 =? 108) && (c1 =? 100) then v ← va_uint64; printint (s64 v) 10 true;; next (i + 1)%nat
  else if (c0 =? 108) && (c1 =? 108) && (c2 =? 100) then v ← va_uint64; printint (s64 v) 10 true;; next (i + 2)%nat
  else if c0 =? 117 then v ← va_int; printint v 10 false;; next i
  else if (c0 =? 108) && (c1 =? 117) then v ← va_uint64; printint (s64 v) 10 false;; next (i + 1)%nat
  else if (c0 =? 108) && (c1 =? 108) && (c2 =? 117) then v ← va_uint64; printint (s64 v) 10 false;; next (i + 2)%nat
  else if c0 =? 120 then v ← va_int; printint v 16 false;; next i
  else if (c0 =? 108) && (c1 =? 120) then v ← va_uint64; printint (s64 v) 16 false;; next (i + 1)%nat
  else if (c0 =? 108) && (c1 =? 108) && (c2 =? 120) then v ← va_uint64; printint (s64 v) 16 false;; next (i + 2)%nat
  else if c0 =? 112 then v ← va_uint64; printptr v;; next i
  else if c0 =? 115 then s ← va_str; put_str s;; next i
  else if c0 =? 37 then emit 37;; next i
  else if c0 =? 0 then mret (inr tt)
  else emit 37;; emit c0;; next i.

(** The characters passed to [consputc]. *)
Definition printf (fmt : list Z) : M pf unit := iterM (S (length fmt)) (printf_body fmt) 0%nat.

(** A call with its own arguments. *)
Definition printf_with (fmt : list Z) (args : list varg) : M pf unit := modify (λ s, PF (out s) args);; printf fmt.

(** The table [states] of [procdump]. *)
Definition state_name (st : procstate) : list Z :=
  match st with
  | UNUSED => [117; 110; 117; 115; 101; 100]
  | USED => [117; 115; 101; 100]
  | SLEEPING => [115; 108; 101; 101; 112; 32]
  | RUNNABLE => [114; 117; 110; 98; 108; 101]
  | RUNNING => [114; 117; 110; 32; 32; 32]
  | ZOMBIE => [122; 111; 109; 98; 105; 101]
  end.

Definition procdump_one (p : proc) : M pf unit :=
  if decide (state p = UNUSED) then mret tt else
  printf_with [37; 100; 32; 37; 115; 32; 37; 115] [VWord (pid p); VStr (state_name (state p)); VStr (name p)];;
  printf_with [10] [].

Definition procdump (procs : list proc) : M pf unit := printf_with [10] [];; forM procs procdump_one.

(** ** Correctness *)

(** What each conversion prints of its argument; [%u] and [%x] widen a negative
    [int] to 64 bits. *)
Definition conv (d : dir) (w : Z) : Z :=
  match d with
  | Dd => s32 w | Dld | Dlld => s64 w
  | Du | Dx => u64 (s32 w)
  | Dlu | Dllu | Dlx | Dllx => u64 w
  end.

Lemma s64_range x : - 2 ^ 63 ≤ s64 x < 2 ^ 63.
Proof. unfold s64. pose proof (Z.mod_pos_bound (x + 2 ^ 63) (2 ^ 64)). lia. Qed.
Lemma u64_s64 x : u64 (s64 x) = u64 x.
Proof. unfold u64, s64. rewrite <-Zminus_mod_idemp_l, Z.mod_mod, Zminus_mod_idemp_l by lia. f_equal. lia. Qed.
Lemma s64_u64 x : s64 (u64 x) = s64 x.
Proof. unfold u64, s64. by rewrite Zplus_mod_idemp_l. Qed.

Lemma printint_ok xx base sign s : 2 ≤ base → - 2 ^ 63 ≤ xx < 2 ^ 63 →
  printint xx base sign s =
    let t := numeral digits base (if sign then xx else u64 xx) in
    if decide (length t ≤ 16)%nat then Ok tt (PF (out s ++ t) (ap s)) else Panic "buf overflow".
Proof.
  intros Hb Hx. unfold printint. assert (0 ≤ u64 xx) by (unfold u64; apply Z.mod_pos_bound; lia). destruct sign; cbn [andb]; cbv zeta.
  - rewrite <-(print_buf_spec digits base xx s Hb). f_equal. destruct (Z.ltb_spec xx 0); unfold u64; rewrite Z.mod_small by lia; lia.
  - rewrite <-(print_buf_spec digits base (u64 xx) s Hb). rewrite (proj2 (Z.ltb_ge _ _)) by done. by rewrite Z.abs_eq.
Qed.

Lemma wp_printint xx base (sign : bool) (t : list Z) (Q : unit → pf → Prop) (s : pf) : 2 ≤ base → - 2 ^ 63 ≤ xx < 2 ^ 63 →
  t = numeral digits base (if sign then xx else u64 xx) → (length t ≤ 16)%nat → Q tt (PF (out s ++ t) (ap s)) → wp (printint xx base sign) Q s.
Proof. intros Hb Hx -> Ht HQ. unfold wp. rewrite printint_ok by done. cbv zeta. by rewrite decide_True. Qed.

Lemma wp_printptr w (Q : unit → pf → Prop) s : Q tt (PF (out s ++ 48 :: 120 :: hex64 digits (u64 w)) (ap s)) → wp (printptr (u64 w)) Q s.
Proof. apply wp_print_ptr. Qed.

(** One item of the format. *)
Lemma printf_step pre it post o args t rest :
  item_ok it → render digits conv it args = Some (t, rest) →
  wp (printf_body (pre ++ show it ++ post) (length pre))
     (λ r s', r = inl (length pre + length (show it))%nat ∧ s' = PF (o ++ t) rest) (PF o args).
Proof.
  intros Hok Hr. unfold printf_body. cbv zeta. rewrite !fmt_at_app0, <-!Nat.add_assoc, !fmt_at_app.
  destruct it as [c|d| | | |c].
  - destruct Hok as [Hc Hn]. cbn [show app]. change (fmt_at (c :: post) 0) with c.
    rewrite (proj2 (Z.eqb_neq c 0)), (proj2 (Z.eqb_neq c 37)) by lia. cbn [negb]. injection Hr as <- <-. unfold emit. wp_steps. done.
  - cbn [render] in Hr. destruct args as [|[w|] args]; try discriminate Hr. case_decide as Hl; [|done]. injection Hr as <- <-.
    remember (numeral digits (dbase d) (conv d w)) as T eqn:HT.
    destruct d; unfold fmt_at; cbn; apply wp_bind; (apply wp_va_int || apply wp_va_uint64); apply wp_bind; apply (wp_printint _ _ _ T);
      rewrite ?s64_u64, ?u64_s64, ?u64_idem; try done; try (pose proof (s32_range w); lia); try apply s64_range; wp_steps; (split; [f_equal; cbn; lia|done]).
  - cbn [render] in Hr. destruct args as [|[w|] args]; try discriminate Hr. injection Hr as <- <-. unfold fmt_at; cbn -[hex64]. apply wp_bind, wp_va_uint64, wp_bind, wp_printptr. wp_steps. split; [f_equal; lia|done].
  - cbn [render] in Hr. unfold fmt_at; cbn. destruct args as [|[w|s] args]; try discriminate Hr.
    + destruct (u64 w =? 0) eqn:E; [|done]. injection Hr as <- <-. apply wp_bind, wp_va_str_null; [done|]. apply wp_bind, wp_put_str. wp_steps. split; [f_equal; lia|done].
    + injection Hr as <- <-. apply wp_bind, wp_va_str, wp_bind, wp_put_str. wp_steps. split; [f_equal; lia|done].
  - injection Hr as <- <-. unfold fmt_at; cbn. unfold emit. wp_steps. split; [f_equal; lia|done].
  - destruct Hok as [Hc Hn]. rewrite !not_elem_of_cons in Hn. destruct Hn as (? & ? & ? & ? & ? & ? & ? & _). injection Hr as <- <-.
    cbn [show app Nat.add]. change (fmt_at (37 :: c :: post) 0) with 37. change (fmt_at (37 :: c :: post) 1) with c. cbn [Z.eqb Pos.eqb negb].
    rewrite (proj2 (Z.eqb_neq c 0)), (proj2 (Z.eqb_neq c 100)), (proj2 (Z.eqb_neq c 108)), (proj2 (Z.eqb_neq c 117)), (proj2 (Z.eqb_neq c 120)), (proj2 (Z.eqb_neq c 112)), (proj2 (Z.eqb_neq c 115)), (proj2 (Z.eqb_neq c 37)) by lia.
    cbn [andb]. unfold emit. wp_steps. cbn [out ap]. split; [f_equal; lia|by rewrite <-(assoc_L (++))].
Qed.

Lemma printf_end pre (Q : nat + unit → pf → Prop) s : Q (inr tt) s → wp (printf_body (pre ++ []) (length pre)) Q s.
Proof. intros HQ. unfold printf_body. cbv zeta. by rewrite !fmt_at_app0. Qed.

Lemma printf_items its n pre o args t rest : Forall item_ok its → render_all digits conv its args = Some (t, rest) →
  (length (concat (show <$> its)) < n)%nat →
  wp (iterM n (printf_body (pre ++ concat (show <$> its))) (length pre)) (λ _ s', s' = PF (o ++ t) rest) (PF o args).
Proof.
  intros Hok. revert n pre o args t rest. induction Hok as [|it its Hit Hits IH]; intros n pre o args t rest Hr Hn; (destruct n as [|n]; [lia|]); cbn [iterM].
  - cbn in Hr. injection Hr as <- <-. apply wp_bind, printf_end, wp_ret. by rewrite app_nil_r.
  - cbn [render_all] in Hr. apply bind_Some in Hr as ([t1 args1] & H1 & Hr). apply bind_Some in Hr as ([t2 args2] & H2 & [= <- <-]).
    apply wp_bind. cbn [fmap list_fmap concat]. eapply wp_mono; [|by apply printf_step]. intros r s' [-> ->]. cbn beta iota.
    rewrite (assoc_L (++)). replace (length pre + length (show it))%nat with (length (pre ++ show it)) by (by rewrite length_app).
    rewrite (assoc_L (++) o). apply (IH n _ _ _ _ _ H2). cbn in Hn. rewrite length_app in Hn. destruct it as [| []| | | |]; cbn in Hn; lia.
Qed.

(** C37. Kernel [printf] prints what its format says: for every format made of
    characters and conversions, and arguments of the kinds these take whose
    numerals have at most 16 characters, the size of the buffer of [printint], it
    terminates and passes to [consputc] exactly the text of the items in order, each conversion
    taking its own arguments; a numeral has the value of the number it was given
    and no leading zero. *)
Theorem printf_spec its args o t rest
    (Hok : Forall item_ok its) (Hfit : fits_all digits conv its args) (Ht : text_all digits conv its args = Some (t, rest)) :
  printf (concat (show <$> its)) (PF o args) = Ok tt (PF (o ++ t) rest) ∧
  (∀ base x, base = 10 ∨ base = 16 → 0 ≤ x → value base (digits_of base x) = x ∧ (x = 0 ∨ digits_of base x !! 0%nat ≠ Some 0)).
Proof.
  pose proof Ht as Hr. rewrite (text_render_all _ _ _ _ Hfit) in Hr. split.
  - pose proof (printf_items its (S (length (concat (show <$> its)))) [] o args t rest Hok Hr ltac:(lia)) as H. cbn [length app] in H.
    apply wp_ok in H as ([] & s' & E & ->). exact E.
  - intros base x Hb Hx. destruct (digits_of_value base x ltac:(lia) Hx) as (Hv & _ & Hl). split; [done|].
    destruct Hl as [Hl|(d & ds & -> & Hd)]; [by left|right]. cbn. congruence.
Qed.

(** [printf("%d: %s %x%%\n", -42, "sh", 255)]. *)
Lemma printf_spec_witness :
  printf [37; 100; 58; 32; 37; 115; 32; 37; 120; 37; 37; 10] (PF [] [VWord (-42); VStr [115; 104]; VWord 255]) =
    Ok tt (PF [45; 52; 50; 58; 32; 115; 104; 32; 102; 102; 37; 10] []).
Proof.
  refine (proj1 (printf_spec [Num Dd; Chr 58; Chr 32; Str; Chr 32; Num Dx; Pct; Chr 10] [VWord (-42); VStr [115; 104]; VWord 255] [] _ [] _ _ _)).
  - repeat constructor; done.
  - vm_compute. repeat split; lia.
  - vm_compute. reflexivity.
Defined.

(** C38. Every number of at most 16 characters is safe to print; the numeral of a
    negative [int] under [%u], widened to 64 bits, is not: it has 20 digits, and
    [printint] stores them in a buffer of 16. *)
Theorem printf_u_overflow w o args (Hw : s32 w < 0) :
  printf [37; 117] (PF o (VWord w :: args)) = Panic "buf overflow".
Proof.
  assert (2 ^ 63 ≤ u64 (s32 w)) as Hx by (unfold u64; pose proof (s32_range w); rewrite <-(Z.mod_add _ 1), Z.mod_small by lia; lia).
  assert (16 < length (numeral digits 10 (u64 (s32 w))))%nat as Hl.
  { unfold numeral. rewrite (proj2 (Z.ltb_ge _ _)), Z.abs_eq by lia. cbn [app]. rewrite length_fmap. apply digits_of_long; lia. }
  unfold printf. cbn [length iterM]. unfold mbind, M_bind at 1. change (printf_body [37; 117] 0 (PF o (VWord w :: args))) with ((printint (s32 w) 10 false;; mret (inl 2%nat : nat + unit)) (PF o args)).
  unfold mbind, M_bind. rewrite printint_ok by (pose proof (s32_range w); lia). cbv zeta. rewrite decide_False by lia. done.
Qed.

Lemma printf_u_overflow_witness : printf [37; 117] (PF [] [VWord (2 ^ 32 - 1)]) = Panic "buf overflow".
Proof. apply (printf_u_overflow (2 ^ 32 - 1) [] []). by_compute. Defined.

(** *** The process listing *)

Definition dump_line (p : proc) : list Z :=
  numeral digits 10 (pid p) ++ [32] ++ state_name (state p) ++ [32] ++ cstr (name p) ++ [10].

Lemma numeral_int_fits v : - 2 ^ 31 ≤ v < 2 ^ 31 → (length (numeral digits 10 v) ≤ 16)%nat.
Proof.
  intros Hv. unfold numeral. rewrite length_app, length_fmap. pose proof (digits_of_length 10 9 (Z.abs v) ltac:(lia) ltac:(lia)). destruct (v <? 0); cbn [length]; lia.
Qed.

Lemma printf_with_ok fmt its args t rest (Q : unit → pf → Prop) s : fmt = concat (show <$> its) → Forall item_ok its →
  render_all digits conv its args = Some (t, rest) → Q tt (PF (out s ++ t) rest) → wp (printf_with fmt args) Q s.
Proof.
  intros -> Hok Hr HQ. unfold printf_with. apply wp_bind, wp_modify. unfold printf.
  eapply wp_mono; [|apply (printf_items its _ [] (out s) args t rest Hok Hr); lia]. by intros [] s' ->.
Qed.

(** [procdump] lists the slots in use, one line each. *)
Lemma procdump_spec procs s : Forall (λ p, - 2 ^ 31 ≤ pid p < 2 ^ 31) procs →
  wp (procdump procs) (λ _ s', out s' = out s ++ [10] ++ concat (dump_line <$> filter (λ p, state p ≠ UNUSED) procs)) s.
Proof.
  intros Hp. unfold procdump. apply wp_bind. apply (printf_with_ok _ [Chr 10] [] [10] []); [done|by repeat constructor|done|].
  apply (wp_for (λ done s', out s' = out s ++ [10] ++ concat (dump_line <$> filter (λ p, state p ≠ UNUSED) done))); [|cbn; by rewrite ?app_nil_r|auto].
  intros done p todo s1 Hl H1. rewrite filter_app, fmap_app, concat_app. unfold procdump_one. case_decide as Hu.
  - wp_steps. rewrite H1. rewrite filter_cons_False by tauto. cbn. by rewrite app_nil_r.
  - assert (- 2 ^ 31 ≤ pid p < 2 ^ 31) as Hpid by (rewrite Hl, Forall_app, Forall_cons in Hp; tauto).
    apply wp_bind. eapply (printf_with_ok _ [Num Dd; Chr 32; Str; Chr 32; Str]); [done|by repeat constructor| |].
    { cbn [render_all render conv dbase]. rewrite s32_id by done. rewrite decide_True by (by apply numeral_int_fits). cbn -[numeral]. reflexivity. }
    apply (printf_with_ok _ [Chr 10] [] [10] []); [done|by repeat constructor|done|]. cbn [out]. rewrite H1, filter_cons_True by done. rewrite <-!(assoc_L (++)). f_equal. f_equal. f_equal.
    cbn -[numeral cstr]. unfold dump_line. rewrite app_nil_r. assert (cstr (state_name (state p)) = state_name (state p)) as -> by (by destruct (state p)). rewrite <-!(assoc_L (++)). cbn [app]. by rewrite ?app_nil_r, <-?(assoc_L (++)).
Qed.
