(* ===== verification/Uprintf.v ===== *)
(** * The printf of user programs (user/printf.c), and atoi (user/ulib.c)

    [vprintf] writes one byte at a time; [atoi] reads back what it prints. *)

From S2P Require Import Prelude Format.

Definition digits : list Z := [48; 49; 50; 51; 52; 53; 54; 55; 56; 57; 65; 66; 67; 68; 69; 70].

(** [xx] is an [int]. *)
Definition printint (xx base : Z) (sgn : bool) : M pf unit :=
  let neg := sgn && (xx <? 0) in
  print_buf digits base neg (u32 (if neg then - xx else xx)).

Definition printptr (x : Z) : M pf unit := emit 48;; emit 120;; print_nibbles digits 16 x.

(** One turn of the loop, from the index and whether [state] is the per cent
    sign; a [uint64] argument is converted to the [int] parameter of [printint]. *)
Definition vprintf_body (fmt : list Z) (a : nat * bool) : M pf ((nat * bool) + unit) :=
  let '(i, state) := a in
  let c0 := fmt_at fmt i in
  if c0 =? 0 then mret (inr tt) else
  if negb state then
    (if c0 =? 37 then mret (inl ((i + 1)%nat, true)) else emit c0;; mret (inl ((i + 1)%nat, false)))
  else
    let c1 := if c0 =? 0 then 0 else fmt_at fmt (i + 1) in
    let c2 := if c1 =? 0 then 0 else fmt_at fmt (i + 2) in
    let next i := mret (inl ((i + 1)%nat, false)) in
    if c0 =? 100 then v ← va_int; printint v 10 true;; next i
    else if (c0 =? 108) && (c1 =? 100) then v ← va_uint64; printint (s32 v) 10 true;; next (i + 1)%nat
    else if (c0 =? 108) && (c1 =? 108) && (c2 =? 100) then v ← va_uint64; printint (s32 v) 10 true;; next (i + 2)%nat
    else if c0 =? 117 then v ← va_int; printint v 10 false;; next i
    else if (c0 =? 108) && (c1 =? 117) then v ← va_uint64; printint (s32 v) 10 false;; next (i + 1)%nat
    else if (c0 =? 108) && (c1 =? 108) && (c2 =? 117) then v ← va_uint64; printint (s32 v) 10 false;; next (i + 2)%nat
    else if c0 =? 120 then v ← va_int; printint v 16 false;; next i
    else if (c0 =? 108) && (c1 =? 120) then v ← va_uint64; printint (s32 v) 16 false;; next (i + 1)%nat
    else if (c0 =? 108) && (c1 =? 108) && (c2 =? 120) then v ← va_uint64; printint (s32 v) 16 false;; next (i + 2)%nat
    else if c0 =? 112 then v ← va_uint64; printptr v;; next i
    else if c0 =? 115 then s ← va_str; put_str s;; next i
    else if c0 =? 37 then emit 37;; next i
    else emit 37;; emit c0;; next i.

(** The bytes written to the descriptor, one [write] each. *)
Definition vprintf (fmt : list Z) : M pf unit := iterM (S (length fmt)) (vprintf_body fmt) (0%nat, false).

(** [atoi]; [n] is an [int]. *)
Fixpoint atoi_loop (s : list Z) (n : Z) : Z :=
  match s with
  | [] => n
  | c :: s' => if (48 <=? c) && (c <=? 57) then atoi_loop s' (s32 (n * 10 + c - 48)) else n
  end.

Definition atoi (s : list Z) : Z := atoi_loop s 0.

(** ** Correctness *)

(** All numbers are printed through an [int]: the [l] modifiers take a 64-bit
    argument and print its low half. *)
Definition conv (d : dir) (w : Z) : Z := match d with Dd | Dld | Dlld => s32 w | _ => u32 w end.

Lemma s32_u64 w : s32 (u64 w) = s32 w.
Proof. rewrite <-(s32_u32 (u64 w)), <-(s32_u32 w). f_equal. unfold u32, u64. change (2 ^ 64) with (2 ^ 32 * 2 ^ 32). by rewrite Z.rem_mul_r, Z.mul_comm, Z.mod_add, Z.mod_mod by lia. Qed.

Lemma int_range x : - 2 ^ 31 ≤ s32 x < 2 ^ 31.
Proof. unfold s32. pose proof (Z.mod_pos_bound (x + 2 ^ 31) (2 ^ 32)). lia. Qed.

(** Every [int] fits the buffer, in both bases. *)
Lemma numeral_fits base v : 10 ≤ base → - 2 ^ 32 < v < 2 ^ 32 → (length (numeral digits base v) ≤ 16)%nat.
Proof.
  intros Hb Hv. unfold numeral. rewrite length_app, length_fmap.
  assert (10 ^ 10 ≤ base ^ Z.of_nat 10) by (apply Z.pow_le_mono_l; lia). pose proof (digits_of_length base 9 (Z.abs v) ltac:(lia) ltac:(lia)). destruct (v <? 0); cbn [length]; lia.
Qed.

Lemma wp_uprintint xx base (sgn : bool) (t : list Z) (Q : unit → pf → Prop) (s : pf) : 10 ≤ base → - 2 ^ 31 ≤ xx < 2 ^ 31 →
  t = numeral digits base (if sgn then xx else u32 xx) → Q tt (PF (out s ++ t) (ap s)) → wp (printint xx base sgn) Q s.
Proof.
  intros Hb Hx -> HQ. unfold wp, printint. assert (0 ≤ u32 xx < 2 ^ 32) by (unfold u32; apply Z.mod_pos_bound; lia).
  set (v := if sgn then xx else u32 xx) in *. assert (sgn && (xx <? 0) = (v <? 0)) as En.
  { unfold v. destruct sgn; cbn [andb]; [done|]. symmetry. apply Z.ltb_ge. lia. }
  rewrite En. assert (u32 (if v <? 0 then - xx else xx) = Z.abs v) as ->.
  { rewrite <-En. unfold v. destruct sgn; cbn [andb]; [|lia]. destruct (Z.ltb_spec xx 0); unfold u32; rewrite Z.mod_small by lia; lia. }
  rewrite print_buf_spec by lia. rewrite decide_True; [done|]. apply numeral_fits; [done|]. unfold v. destruct sgn; lia.
Qed.

Lemma wp_uprintptr w (Q : unit → pf → Prop) s : Q tt (PF (out s ++ 48 :: 120 :: hex64 digits (u64 w)) (ap s)) → wp (printptr (u64 w)) Q s.
Proof. apply wp_print_ptr. Qed.

Lemma vprintf_end pre st (Q : (nat * bool) + unit → pf → Prop) s : Q (inr tt) s → wp (vprintf_body (pre ++ []) (length pre, st)) Q s.
Proof. intros HQ. unfold vprintf_body. by rewrite !fmt_at_app0. Qed.

Lemma vprintf_chr pre c post (Q : (nat * bool) + unit → pf → Prop) s : item_ok (Chr c) → Q (inl ((length pre + 1)%nat, false)) (PF (out s ++ [c]) (ap s)) →
  wp (vprintf_body (pre ++ c :: post) (length pre, false)) Q s.
Proof.
  intros [Hc Hn] HQ. unfold vprintf_body. rewrite !fmt_at_app0. change (fmt_at (c :: post) 0) with c. cbv zeta.
  rewrite (proj2 (Z.eqb_neq c 0)), (proj2 (Z.eqb_neq c 37)) by lia. cbn [negb]. unfold emit. by wp_steps.
Qed.

Lemma vprintf_pct pre post (Q : (nat * bool) + unit → pf → Prop) s : Q (inl ((length pre + 1)%nat, true)) s →
  wp (vprintf_body (pre ++ 37 :: post) (length pre, false)) Q s.
Proof. intros HQ. unfold vprintf_body. rewrite !fmt_at_app0. done. Qed.

(** The turn after the per cent sign. *)
Lemma vprintf_conv pre it post c conv_ o args t rest : show it = 37 :: c :: conv_ →
  item_ok it → render digits conv it args = Some (t, rest) →
  wp (vprintf_body (pre ++ c :: conv_ ++ post) (length pre, true))
     (λ r s', r = inl ((length pre + S (length conv_))%nat, false) ∧ s' = PF (o ++ t) rest) (PF o args).
Proof.
  intros Hs Hok Hr. unfold vprintf_body. rewrite <-!Nat.add_assoc, !fmt_at_app0, !fmt_at_app. cbv zeta.
  destruct it as [c'|d| | | |c']; [done|..|].
  - cbn [render] in Hr. destruct args as [|[w|] args]; try discriminate Hr. case_decide as Hl; [|discriminate Hr]. injection Hr as <- <-.
    remember (numeral digits (dbase d) (conv d w)) as T eqn:HT.
    destruct d; cbn in Hs; injection Hs as <- <-; unfold fmt_at; cbn; apply wp_bind; (apply wp_va_int || apply wp_va_uint64); apply wp_bind; apply (wp_uprintint _ _ _ T);
      rewrite ?s32_u64, ?u32_s32; try done; try apply int_range; wp_steps; (split; [f_equal; f_equal; cbn; lia|done]).
  - cbn [render] in Hr. destruct args as [|[w|] args]; try discriminate Hr. injection Hr as <- <-. injection Hs as <- <-. unfold fmt_at; cbn -[hex64]. apply wp_bind, wp_va_uint64, wp_bind, wp_uprintptr. wp_steps. done.
  - cbn [render] in Hr. injection Hs as <- <-. unfold fmt_at; cbn. destruct args as [|[w|s] args]; try discriminate Hr.
    + destruct (u64 w =? 0) eqn:E; [|done]. injection Hr as <- <-. apply wp_bind, wp_va_str_null; [done|]. apply wp_bind, wp_put_str. wp_steps. done.
    + injection Hr as <- <-. apply wp_bind, wp_va_str, wp_bind, wp_put_str. wp_steps. done.
  - injection Hr as <- <-. injection Hs as <- <-. unfold fmt_at; cbn. unfold emit. wp_steps. done.
  - destruct Hok as [Hc Hn]. rewrite !not_elem_of_cons in Hn. destruct Hn as (? & ? & ? & ? & ? & ? & ? & _). injection Hr as <- <-. injection Hs as <- <-.
    change (fmt_at (c' :: [] ++ post) 0) with c'. rewrite (proj2 (Z.eqb_neq c' 0)), (proj2 (Z.eqb_neq c' 100)), (proj2 (Z.eqb_neq c' 108)), (proj2 (Z.eqb_neq c' 117)), (proj2 (Z.eqb_neq c' 120)), (proj2 (Z.eqb_neq c' 112)), (proj2 (Z.eqb_neq c' 115)), (proj2 (Z.eqb_neq c' 37)) by lia.
    cbn [andb negb]. unfold emit. wp_steps. cbn [out ap]. split; [done|by rewrite <-(assoc_L (++))].
Qed.

Lemma vprintf_items its n pre o args t rest : Forall item_ok its → render_all digits conv its args = Some (t, rest) →
  (length (concat (show <$> its)) < n)%nat →
  wp (iterM n (vprintf_body (pre ++ concat (show <$> its))) (length pre, false)) (λ _ s', s' = PF (o ++ t) rest) (PF o args).
Proof.
  intros Hok. revert n pre o args t rest. induction Hok as [|it its Hit Hits IH]; intros n pre o args t rest Hr Hn; (destruct n as [|n]; [lia|]); cbn [iterM].
  - cbn in Hr. injection Hr as <- <-. apply wp_bind, vprintf_end, wp_ret. by rewrite app_nil_r.
  - cbn [render_all] in Hr. apply bind_Some in Hr as ([t1 args1] & H1 & Hr). apply bind_Some in Hr as ([t2 args2] & H2 & [= <- <-]).
    cbn [fmap list_fmap concat] in Hn |- *. rewrite length_app in Hn. rewrite (assoc_L (++) o). specialize (IH).
    destruct (show it) as [|x [|c cv]] eqn:Es; [by destruct it as [| []| | | |]|..].
    + destruct it as [y|[]| | | |]; try discriminate Es. injection Es as <-. injection H1 as <- <-. apply wp_bind. apply vprintf_chr; [done|]. cbn beta iota.
      change (y :: concat (show <$> its)) with ([y] ++ concat (show <$> its)). rewrite (assoc_L (++)).
      replace (length pre + 1)%nat with (length (pre ++ [y])) by (by rewrite length_app). apply IH; [done|cbn in Hn; lia].
    + assert (x = 37) as -> by (destruct it as [| []| | | |]; cbn in Es; congruence). cbn in Hn. destruct n as [|n]; [lia|]. cbn [iterM].
      apply wp_bind. cbn [app]. apply vprintf_pct. cbn beta iota. apply wp_bind.
      change (37 :: c :: cv ++ concat (show <$> its)) with ([37] ++ c :: cv ++ concat (show <$> its)). rewrite (assoc_L (++)).
      replace (length pre + 1)%nat with (length (pre ++ [37%Z])) by (by rewrite length_app). eapply wp_mono; [|by eapply (vprintf_conv _ it)].
      intros r s' [-> ->]. cbn beta iota. change (c :: cv ++ concat (show <$> its)) with ((c :: cv) ++ concat (show <$> its)). rewrite (assoc_L (++) (pre ++ [37])).
      replace (length (pre ++ [37%Z]) + S (length cv))%nat with (length ((pre ++ [37]) ++ c :: cv)) by (by rewrite length_app). apply IH; [done|lia].
Qed.

(** The [printf] of user programs writes the text of its format: characters as
    they are, conversions of the arguments in order, numbers as [int]s (in the
    [l] conversions, of the low half of their argument), and its buffer of 16
    bytes is large enough for each of them. *)
Theorem vprintf_spec its args o t rest
    (Hok : Forall item_ok its) (Hr : render_all digits conv its args = Some (t, rest)) :
  vprintf (concat (show <$> its)) (PF o args) = Ok tt (PF (o ++ t) rest) ∧
  (∀ d w, (length (numeral digits (dbase d) (conv d w)) ≤ 16)%nat).
Proof.
  split.
  - pose proof (vprintf_items its (S (length (concat (show <$> its)))) [] o args t rest Hok Hr ltac:(lia)) as H. cbn [length app] in H.
    apply wp_ok in H as ([] & s' & E & ->). exact E.
  - intros d w. apply numeral_fits; [by destruct d|]. pose proof (int_range w). assert (0 ≤ u32 w < 2 ^ 32) by (unfold u32; apply Z.mod_pos_bound; lia). destruct d; cbn [conv]; lia.
Qed.

(** [printf("[%ld %s]", 2^32 + 7, 0)]: the long is cut to its low half. *)
Lemma vprintf_spec_witness :
  vprintf [91; 37; 108; 100; 32; 37; 115; 93] (PF [] [VWord (2 ^ 32 + 7); VWord 0]) =
    Ok tt (PF [91; 55; 32; 40; 110; 117; 108; 108; 41; 93] []).
Proof.
  refine (proj1 (vprintf_spec [Chr 91; Num Dld; Chr 32; Str; Chr 93] [VWord (2 ^ 32 + 7); VWord 0] [] _ [] _ _)).
  - repeat constructor; done.
  - vm_compute. reflexivity.
Defined.

(** *** atoi *)

Lemma digit_char d : 0 ≤ d < 10 → digits !!! Z.to_nat d = 48 + d.
Proof. intros Hd. assert (d ∈ seqZ 0 10) as Hin by (apply elem_of_seqZ; lia). clear Hd. revert d Hin. apply Forall_forall. repeat constructor. Qed.

Lemma atoi_digits ds rest n : Forall (λ d, 0 ≤ d < 10) ds → 0 ≤ n → foldl (λ a d, a * 10 + d) n ds < 2 ^ 31 →
  atoi_loop (((λ d, digits !!! Z.to_nat d) <$> ds) ++ rest) n = atoi_loop rest (foldl (λ a d, a * 10 + d) n ds).
Proof.
  intros Hd. revert n. induction Hd as [|d ds Hd Hds IH]; intros n Hn Hv; [done|]. cbn [foldl] in Hv. cbn [fmap list_fmap app atoi_loop].
  rewrite digit_char by done.
  rewrite (proj2 (Z.leb_le _ _)), (proj2 (Z.leb_le _ _)) by lia. cbn [andb foldl].
  assert (∀ m, 0 ≤ m → m ≤ foldl (λ a d, a * 10 + d) m ds) as Hmono. { clear -Hds. induction Hds as [|e es He Hes IHm]; intros m Hm; cbn [foldl]; [lia|]. specialize (IHm (m * 10 + e)). lia. }
  specialize (Hmono (n * 10 + d)). rewrite s32_id by lia. replace (n * 10 + (48 + d) - 48) with (n * 10 + d) by lia. apply IH; [lia|done].
Qed.

(** [atoi] reads back what [printf] prints: for every non-negative [int] [v], the
    text [printf("%d", v)] writes, followed by anything that is not a digit, is
    converted to [v] again. *)
Theorem atoi_printf_roundtrip v rest (Hv : 0 ≤ v < 2 ^ 31) (Hrest : ∀ c l, rest = c :: l → c < 48 ∨ 57 < c) :
  ∃ t, vprintf [37; 100] (PF [] [VWord v]) = Ok tt (PF t []) ∧ atoi (t ++ rest) = v.
Proof.
  exists (numeral digits 10 v). split.
  - assert (render_all digits conv [Num Dd] [VWord v] = Some (numeral digits 10 v, [])) as Hr.
    { cbn [render_all render conv dbase]. rewrite s32_id by lia. rewrite decide_True by (apply numeral_fits; lia). cbn -[numeral]. by rewrite app_nil_r. }
    apply (vprintf_items [Num Dd] 3 [] [] [VWord v]) in Hr; [|by repeat constructor|cbn; lia]. apply wp_ok in Hr as ([] & s' & E & ->). exact E.
  - destruct (digits_of_value 10 v ltac:(lia) ltac:(lia)) as (Hval & Hd & _). unfold numeral, atoi. rewrite (proj2 (Z.ltb_ge v 0)), Z.abs_eq by lia. cbn [app]. unfold value in Hval.
    rewrite atoi_digits by (try done; lia). rewrite Hval. destruct rest as [|c l]; [done|]. cbn [atoi_loop]. destruct (Hrest c l eq_refl).
    + by rewrite (proj2 (Z.leb_gt _ _)) by lia.
    + rewrite (proj2 (Z.leb_gt c 57)) by lia. by rewrite andb_false_r.
Qed.

Lemma atoi_printf_roundtrip_witness : ∃ t, vprintf [37; 100] (PF [] [VWord 2024]) = Ok tt (PF t []) ∧ atoi (t ++ [32]) = 2024.
Proof. apply (atoi_printf_roundtrip 2024 [32]); [lia|]. intros c l [= <- <-]. lia. Defined.
