(* ===== verification/Ulib.v ===== *)
(** * The library of user programs (user/ulib.c)

    String and memory functions on the memory of the process, and [gets], which
    reads standard input one byte at a time.  [atoi] is with the user [printf];
    [start], [stat] and [ugetpid] only make system calls. *)

From S2P Require Import Prelude Mem.

(** A C string at [s]: its bytes up to the first 0. *)
Definition cstring (m : mem) (s : Z) (l : list Z) : Prop :=
  (∀ k x, l !! k = Some x → rd m (s + Z.of_nat k) = x ∧ x ≠ 0) ∧ rd m (s + Z.of_nat (length l)) = 0.

Fixpoint strcpy (fuel : nat) (s t : Z) (m : mem) : option mem :=
  match fuel with
  | O => None
  | S f => let c := rd m t in let m' := wr s c m in if c =? 0 then Some m' else strcpy f (s + 1) (t + 1) m'
  end.

Fixpoint strcmp (fuel : nat) (p q : Z) (m : mem) : option Z :=
  match fuel with
  | O => None
  | S f => if negb (rd m p =? 0) && (rd m p =? rd m q) then strcmp f (p + 1) (q + 1) m else Some (rd m p - rd m q)
  end.

Fixpoint strlen_from (fuel : nat) (s n : Z) (m : mem) : option Z :=
  match fuel with
  | O => None
  | S f => if rd m (s + n) =? 0 then Some n else strlen_from f s (s32 (n + 1)) m
  end.
Definition strlen (fuel : nat) (s : Z) (m : mem) : option Z := u32 <$> strlen_from fuel s 0 m.

Definition memset (dst c n : Z) (m : mem) : mem := foldl (λ m i, wr (dst + i) c m) m (seqZ 0 n).

Definition memmove (dst src n : Z) (m : mem) : mem :=
  if dst <? src then copy_up (Z.to_nat n) dst src m else copy_down (Z.to_nat n) (dst + n) (src + n) m.

Fixpoint memcmp_from (n : nat) (p1 p2 : Z) (m : mem) : Z :=
  match n with
  | O => 0
  | S n' => if negb (rd m p1 =? rd m p2) then rd m p1 - rd m p2 else memcmp_from n' (p1 + 1) (p2 + 1) m
  end.
Definition memcmp (s1 s2 n : Z) (m : mem) : Z := memcmp_from (Z.to_nat n) s1 s2 m.

(** [n] is unsigned here and an [int] in [memmove]. *)
Definition memcpy (dst src n : Z) (m : mem) : mem := memmove dst src (s32 n) m.

(** Standard input is the bytes still to come; [read] of one byte returns 0 at the
    end. *)
Record gst := Gst { stdin : list Z; gmem : mem }.

Definition gets_body (buf max i : Z) : M gst (Z + Z) :=
  if i + 1 <? max then
    s ← getS;
    match stdin s with
    | [] => mret (inr i)
    | c :: rest =>
        putS (Gst rest (wr (buf + i) c (gmem s)));;
        if (c =? 10) || (c =? 13) then mret (inr (i + 1)) else mret (inl (i + 1))
    end
  else mret (inr i).

Definition gets (buf max : Z) : M gst unit :=
  i ← iterM (S (Z.to_nat (max - 1))) (gets_body buf max) 0;
  modify (λ s, Gst (stdin s) (wr (buf + i) 0 (gmem s))).

(** ** Correctness *)

(** The line at the front of the input, of at most [n] bytes, with its end. *)
Fixpoint line (n : nat) (input : list Z) : list Z :=
  match n, input with
  | S n', c :: rest => c :: (if (c =? 10) || (c =? 13) then [] else line n' rest)
  | _, _ => []
  end.

Definition holds (m : mem) (a : Z) (l : list Z) : Prop := ∀ k x, l !! k = Some x → rd m (a + Z.of_nat k) = x.

Lemma holds_cons m a x l : holds m a (x :: l) ↔ rd m a = x ∧ holds m (a + 1) l.
Proof.
  split.
  - intros H. split; [by rewrite <-(Z.add_0_r a); apply (H 0%nat)|]. intros k y Hk. specialize (H (S k) y Hk). by replace (a + 1 + Z.of_nat k) with (a + Z.of_nat (S k)) by lia.
  - intros [H1 H2] [|k] y Hk; [injection Hk as <-; by rewrite Z.add_0_r|]. specialize (H2 k y Hk). by replace (a + Z.of_nat (S k)) with (a + 1 + Z.of_nat k) by lia.
Qed.

Lemma line_length n input : (length (line n input) ≤ n)%nat.
Proof. revert input. induction n as [|n IH]; intros [|c input]; cbn; try lia. destruct ((c =? 10) || (c =? 13)); cbn; [lia|]. specialize (IH input). lia. Qed.

Lemma gets_loop buf max n i s : Forall (λ c, 0 ≤ c < 256) (stdin s) → 0 ≤ i → i + Z.of_nat n + 1 = max →
  wp (iterM (S n) (gets_body buf max) i) (λ j s', ∃ l, l = line n (stdin s) ∧ stdin s = l ++ stdin s' ∧ j = i + Z.of_nat (length l) ∧
    holds (gmem s') (buf + i) l ∧ ∀ a, ¬ (buf + i ≤ a < buf + j) → rd (gmem s') a = rd (gmem s) a) s.
Proof.
  revert i s. induction n as [|n IH]; intros i s Hf Hi Hm; apply wp_iter_S; unfold gets_body at 1.
  - rewrite (proj2 (Z.ltb_ge _ _)) by lia. wp_steps. exists []. cbn. split; [done|]. split; [done|]. split; [lia|]. split; [by intros k x ?|done].
  - rewrite (proj2 (Z.ltb_lt _ _)) by lia. wp_steps. destruct (stdin s) as [|c rest] eqn:E.
    { wp_steps. exists []. rewrite E. cbn. split; [done|]. split; [done|]. split; [lia|]. split; [by intros k x ?|done]. }
    apply Forall_cons in Hf as [Hc Hf]. wp_steps. set (s1 := Gst rest (wr (buf + i) c (gmem s))). cbn [line]. destruct ((c =? 10) || (c =? 13)) eqn:Ec; wp_steps.
    + exists [c]. cbn. split; [done|]. split; [done|]. split; [lia|]. split; [apply holds_cons; split; [by rewrite rd_wr_eq, u8_id|by intros k x ?]|]. intros a Ha. by rewrite rd_wr_ne by lia.
    + eapply wp_mono; [|apply (IH (i + 1) s1); [done|lia|lia]]. cbn beta. intros j s' (l & -> & Hin & -> & Hh & Hother). cbn [stdin s1] in *.
      exists (c :: line n rest). split; [done|]. split; [cbn; by f_equal|]. split; [cbn [length]; lia|]. split.
      * apply holds_cons. split; [|by replace (buf + i + 1) with (buf + (i + 1)) by lia]. rewrite Hother by lia. cbn. by rewrite rd_wr_eq, u8_id.
      * intros a Ha. cbn [length] in Ha. rewrite Hother by lia. cbn. by rewrite rd_wr_ne by lia.
Qed.

(** [gets] stores the first line of the input, its end included, or what fits
    [max - 1] bytes, followed by a NUL; it takes exactly these bytes from the
    input and writes nothing outside [buf[0..max-1]]. *)
Theorem gets_spec buf max s (Hin : Forall (λ c, 0 ≤ c < 256) (stdin s)) (Hm : 0 < max) :
  wp (gets buf max) (λ _ s', let l := line (Z.to_nat (max - 1)) (stdin s) in
    stdin s = l ++ stdin s' ∧ holds (gmem s') buf (l ++ [0]) ∧ Z.of_nat (length l) < max ∧
    ∀ a, ¬ (buf ≤ a < buf + max) → rd (gmem s') a = rd (gmem s) a) s.
Proof.
  unfold gets. apply wp_bind. eapply wp_mono; [|apply (gets_loop buf max _ 0 s Hin); lia]. cbn beta. intros j s' (l & -> & Hl & -> & Hh & Ho).
  set (l := line _ _) in *. assert (length l ≤ Z.to_nat (max - 1))%nat as Hlen by apply line_length.
  wp_steps. rewrite Z.add_0_r in Hh. cbn. split; [done|]. split; [|split; [lia|]].
  - intros k x Hk. apply lookup_app_Some in Hk as [Hk|[Hge Hk]].
    + rewrite rd_wr_ne; [by apply Hh|]. apply lookup_lt_Some in Hk. lia.
    + apply list_lookup_singleton_Some in Hk as [Hk <-]. replace k with (length l) by lia. by rewrite rd_wr_eq.
  - intros a Ha. rewrite rd_wr_ne by lia. apply Ho. lia.
Qed.

Lemma gets_spec_witness :
  wp (gets 100 5) (λ _ s', stdin s' = [7] ∧ holds (gmem s') 100 [104; 105; 10; 0]) (Gst [104; 105; 10; 7] ∅).
Proof.
  eapply wp_mono; [|apply (gets_spec 100 5 (Gst [104; 105; 10; 7] ∅)); [repeat constructor; done|lia]].
  intros [] s' (H1 & H2 & _). cbn in H1, H2. injection H1 as ->. done.
Defined.

(** *** Strings *)

Lemma cstring_cons m s c l : cstring m s (c :: l) ↔ rd m s = c ∧ c ≠ 0 ∧ cstring m (s + 1) l.
Proof.
  unfold cstring. cbn [length]. split.
  - intros [H1 H2]. destruct (H1 0%nat c eq_refl) as [H3 H4]. rewrite Z.add_0_r in H3. split; [done|]. split; [done|]. split.
    + intros k x Hk. specialize (H1 (S k) x Hk). by replace (s + 1 + Z.of_nat k) with (s + Z.of_nat (S k)) by lia.
    + by replace (s + 1 + Z.of_nat (length l)) with (s + Z.of_nat (S (length l))) by lia.
  - intros (H1 & H2 & H3 & H4). split; [|by replace (s + Z.of_nat (S (length l))) with (s + 1 + Z.of_nat (length l)) by lia].
    intros [|k] x Hk; [injection Hk as <-; by rewrite Z.add_0_r|]. replace (s + Z.of_nat (S k)) with (s + 1 + Z.of_nat k) by lia. by apply H3.
Qed.

Lemma cstring_nil m s : cstring m s [] ↔ rd m s = 0.
Proof. unfold cstring. cbn. rewrite Z.add_0_r. split; [by intros [_ ?]|]. intros H. split; [|done]. by intros k x ?. Qed.

(** The order in which [strcmp] compares. *)
Fixpoint lex (l1 l2 : list Z) : Z :=
  match l1, l2 with
  | [], [] => 0
  | [], c :: _ => - c
  | c :: _, [] => c
  | c1 :: l1', c2 :: l2' => if c1 =? c2 then lex l1' l2' else c1 - c2
  end.

Lemma lex_0 l1 l2 : Forall (λ c, c ≠ 0) l1 → Forall (λ c, c ≠ 0) l2 → lex l1 l2 = 0 ↔ l1 = l2.
Proof.
  intros H1. revert l2. induction H1 as [|c1 l1 Hc1 Hl1 IH]; intros l2 H2; destruct H2 as [|c2 l2 Hc2 Hl2]; cbn; try (split; [lia|done]); [done|].
  destruct (Z.eqb_spec c1 c2) as [->|]; [rewrite IH by done; split; [by intros ->|by intros [= ->]]|]. split; [lia|congruence].
Qed.

Lemma cstring_nonzero m s l : cstring m s l → Forall (λ c, c ≠ 0) l.
Proof. revert s. induction l as [|c l IH]; intros s H; [constructor|]. apply cstring_cons in H as (_ & Hc & H). constructor; [done|by eapply IH]. Qed.

Lemma strcmp_lex m p q l1 l2 fuel : cstring m p l1 → cstring m q l2 → (length l1 < fuel)%nat → strcmp fuel p q m = Some (lex l1 l2).
Proof.
  revert p q l2 fuel. induction l1 as [|c1 l1 IH]; intros p q l2 [|fuel] H1 H2 Hf; cbn [length] in Hf; try lia; cbn [strcmp].
  - apply cstring_nil in H1 as ->. cbn. destruct l2 as [|c2 l2]; [by apply cstring_nil in H2 as ->|]. apply cstring_cons in H2 as (-> & _). done.
  - apply cstring_cons in H1 as (-> & Hc1 & H1). rewrite (proj2 (Z.eqb_neq c1 0)) by done. cbn [negb andb]. destruct l2 as [|c2 l2].
    + apply cstring_nil in H2 as ->. rewrite (proj2 (Z.eqb_neq c1 0)) by done. cbn. f_equal. lia.
    + apply cstring_cons in H2 as (-> & _ & H2). cbn [lex]. destruct (c1 =? c2); [apply IH; [done|done|lia]|done].
Qed.

(** [strcmp] decides equality of two strings and orders them by their first
    difference as unsigned bytes. *)
Theorem strcmp_spec m p q l1 l2 (H1 : cstring m p l1) (H2 : cstring m q l2) :
  strcmp (S (length l1)) p q m = Some (lex l1 l2) ∧ (lex l1 l2 = 0 ↔ l1 = l2).
Proof. split; [by apply strcmp_lex; [..|lia]|]. apply lex_0; by eapply cstring_nonzero. Qed.

(** Copying to a place that does not overlap. *)
Lemma strcpy_spec m s t l fuel : cstring m t l → Forall (λ c, 0 ≤ c < 256) l → (length l < fuel)%nat →
  s + Z.of_nat (length l) < t ∨ t + Z.of_nat (length l) < s →
  ∃ m', strcpy fuel s t m = Some m' ∧ cstring m' s l ∧ ∀ a, ¬ (s ≤ a ≤ s + Z.of_nat (length l)) → rd m' a = rd m a.
Proof.
  intros Hc Hb. revert s t m fuel Hc. induction Hb as [|c l Hc Hl IH]; intros s t m [|fuel] Ht Hf Hd; cbn [length] in *; try lia; cbn [strcpy].
  - apply cstring_nil in Ht as ->. cbn. eexists. split; [done|]. split; [apply cstring_nil; by rewrite rd_wr_eq|]. intros a Ha. rewrite rd_wr_ne; [done|lia].
  - apply cstring_cons in Ht as (-> & Hn & Ht). rewrite (proj2 (Z.eqb_neq c 0)) by done.
    destruct (IH (s + 1) (t + 1) (wr s c m) fuel) as (m' & E & Hs & Ho); [|lia|lia|].
    { destruct Ht as [Ht0 Ht1]. split; [intros k x Hk; rewrite rd_wr_ne; [by apply Ht0|apply lookup_lt_Some in Hk; lia]|rewrite rd_wr_ne; [done|lia]]. }
    exists m'. split; [done|]. split.
    + apply cstring_cons. split; [|done]. rewrite Ho by lia. by rewrite rd_wr_eq, u8_id.
    + intros a Ha. rewrite Ho by lia. rewrite rd_wr_ne by lia. done.
Qed.

(** The two versions of [memmove] test the overlap differently and have the same
    effect. *)
Lemma umemmove_equiv dst src n m a : bytes_ok m → 0 ≤ n → rd (memmove dst src n m) a = rd (Mem.memmove dst src n m) a.
Proof.
  intros Hm Hn. rewrite rd_memmove by done. unfold memmove. destruct (Z.ltb_spec dst src).
  - rewrite rd_copy_up by (try done; lia). by rewrite Z2Nat.id by lia.
  - rewrite rd_copy_down by (try done; lia). rewrite Z2Nat.id by lia. replace (dst + n - n) with dst by lia. case_decide; [|done]. f_equal. lia.
Qed.
