(* ===== verification/Console.v ===== *)
(** * The console and the UART (kernel/console.c, kernel/uart.c)

    The line editor between the keyboard interrupt and [read], the output ring
    between [write] and the transmitter, and the echo path that bypasses it.

    The UART is the environment.  It has received bytes that are not read yet and
    a transmitter that takes what is written to THR and sends it in its own time;
    whenever the driver polls the line status register the device may have moved
    on, by the next entry of a schedule.  The bytes on the line are marked with
    the path they took; the mark is not part of the hardware. *)

From S2P Require Import Prelude Machine Proc Ring Format Kprintf.

Definition BACKSPACE : Z := 0x100.
(** [C(x)]: Control-[x]. *)
Definition CTRL (x : Z) : Z := x - 64.
Definition INPUT_BUF_SIZE : Z := 128.
Definition UART_TX_BUF_SIZE : Z := 32.
Definition LSR_RX_READY : Z := Z.shiftl 1 0.
Definition LSR_TX_IDLE : Z := Z.shiftl 1 5.

(** ** The device *)

Inductive path := Echo | Write.

#[export] Instance path_eq_dec : EqDecision path.
Proof. solve_decision. Defined.

(** What is in the transmitter, what was received and not read, all that went out
    on the line and came in, whether the transmitter asks for more, and the
    schedule: bytes sent and bytes received before the next poll. *)
Record uart := Uart { thr : list (path * Z); rx : list Z; wire : list (path * Z); rcvd : list Z; tx_irq : bool; pace : list (nat * list Z) }.

(** The device sends [k] bytes and receives [arr]. *)
Definition advance (k : nat) (arr : list Z) (u : uart) : uart :=
  Uart (drop k (thr u)) (rx u ++ arr) (wire u ++ take k (thr u)) (rcvd u ++ arr)
       (tx_irq u || negb (bool_decide (thr u = [])) && bool_decide (drop k (thr u) = [])) (pace u).

(** When the schedule is used up the device sends one byte between two polls. *)
Definition poll (u : uart) : uart :=
  match pace u with
  | [] => advance 1 [] u
  | (k, arr) :: p => advance k arr (Uart (thr u) (rx u) (wire u) (rcvd u) (tx_irq u) p)
  end.

Definition lsr (u : uart) : Z :=
  Z.lor (if bool_decide (rx u = []) then 0 else LSR_RX_READY) (if bool_decide (thr u = []) then LSR_TX_IDLE else 0).

(** How a call ends: it returns, or it sleeps with this much left to do. *)
Inductive cres := CRet (r : Z) | CAsleep (dst n : Z).

Section console.
Context {U : Type} {UM : UserMem U}.

(** [cons], the transmit buffer of uart.c, [panicked], the device, the caller's
    memory, the process table, and the wakeups on [&cons.r] and [&uart_tx_r]. *)
Record cst := CST {
  cbuf : list Z; cr : Z; cw : Z; ce : Z;
  tbuf : list Z; tw : Z; tr : Z; panicked : Z;
  hw : uart; cum : U; ptab : list proc; woke_r : bool; woke_t : bool }.

Definition set_cons (b : list Z) (r w e : Z) (s : cst) : cst :=
  CST b r w e (tbuf s) (tw s) (tr s) (panicked s) (hw s) (cum s) (ptab s) (woke_r s) (woke_t s).
Definition set_tx (b : list Z) (w r : Z) (s : cst) : cst :=
  CST (cbuf s) (cr s) (cw s) (ce s) b w r (panicked s) (hw s) (cum s) (ptab s) (woke_r s) (woke_t s).
Definition set_hw (u : uart) (s : cst) : cst :=
  CST (cbuf s) (cr s) (cw s) (ce s) (tbuf s) (tw s) (tr s) (panicked s) u (cum s) (ptab s) (woke_r s) (woke_t s).
Definition set_cum (u : U) (s : cst) : cst :=
  CST (cbuf s) (cr s) (cw s) (ce s) (tbuf s) (tw s) (tr s) (panicked s) (hw s) u (ptab s) (woke_r s) (woke_t s).
Definition wakeup_r : M cst unit :=
  modify (λ s, CST (cbuf s) (cr s) (cw s) (ce s) (tbuf s) (tw s) (tr s) (panicked s) (hw s) (cum s) (ptab s) true (woke_t s)).
Definition wakeup_t : M cst unit :=
  modify (λ s, CST (cbuf s) (cr s) (cw s) (ce s) (tbuf s) (tw s) (tr s) (panicked s) (hw s) (cum s) (ptab s) (woke_r s) true).

Definition on_hw (f : uart → uart) : M cst unit := modify (λ s, set_hw (f (hw s)) s).

(** *** Registers *)

Definition read_lsr : M cst Z := on_hw poll;; gets (λ s, lsr (hw s)).
Definition write_thr (p : path) (c : Z) : M cst unit :=
  on_hw (λ u, Uart (thr u ++ [(p, u8 c)]) (rx u) (wire u) (rcvd u) false (pace u)).
Definition read_isr : M cst unit := on_hw (λ u, Uart (thr u) (rx u) (wire u) (rcvd u) false (pace u)).
Definition read_rhr : M cst Z :=
  c ← gets (λ s, default 0 (rx (hw s) !! 0%nat));
  on_hw (λ u, Uart (thr u) (drop 1 (rx u)) (wire u) (rcvd u) (tx_irq u) (pace u));;
  mret c.

(** *** uart.c *)

(** [for(;;);] *)
Definition spin_forever {A} : M cst A := λ _, NoFuel.

(** [while((ReadReg(LSR) & LSR_TX_IDLE) == 0);] *)
Definition wait_idle (_ : unit) : M cst (unit + unit) :=
  v ← read_lsr; if Z.land v LSR_TX_IDLE =? 0 then mret (inl tt) else mret (inr tt).

Definition uartputc_sync (c : Z) : M cst unit :=
  s ← getS;
  if negb (panicked s =? 0) then spin_forever else
  iterM (S (length (pace (hw s)) + length (thr (hw s)))) wait_idle tt;;
  write_thr Echo c.

Definition uartstart_body (_ : unit) : M cst (unit + unit) :=
  s ← getS;
  if tw s =? tr s then read_isr;; mret (inr tt) else
  v ← read_lsr;
  if Z.land v LSR_TX_IDLE =? 0 then mret (inr tt) else
  s ← getS;
  let c := tbuf s !!! Z.to_nat (tr s mod UART_TX_BUF_SIZE) in
  modify (λ s, set_tx (tbuf s) (tw s) (u64 (tr s + 1)) s);;
  wakeup_t;;
  write_thr Write c;;
  mret (inl tt).

(** The buffer has at most [UART_TX_BUF_SIZE] characters. *)
Definition uartstart : M cst unit := iterM (S (Z.to_nat UART_TX_BUF_SIZE)) uartstart_body tt.

(** [uartputc]; it blocks while the buffer is full, and starts over when woken. *)
Definition uartputc (c : Z) : M cst unit :=
  s ← getS;
  if negb (panicked s =? 0) then spin_forever else
  if tw s =? u64 (tr s + UART_TX_BUF_SIZE) then block else
  modify (λ s, set_tx (<[Z.to_nat (tw s mod UART_TX_BUF_SIZE) := u8 c]> (tbuf s)) (tw s) (tr s) s);;
  modify (λ s, set_tx (tbuf s) (u64 (tw s + 1)) (tr s) s);;
  uartstart.

Definition uartgetc : M cst Z :=
  v ← read_lsr; if negb (Z.land v 1 =? 0) then read_rhr else mret (-1).

(** *** console.c *)

Definition consputc (c : Z) : M cst unit :=
  if c =? BACKSPACE then uartputc_sync 8;; uartputc_sync 32;; uartputc_sync 8 else uartputc_sync c.

(** [procdump()]: what its calls of [printf] print goes through [consputc]. *)
Definition dump : M cst unit :=
  s ← getS;
  match procdump (ptab s) (PF [] []) with
  | Ok _ o => forM (out o) consputc
  | Panic msg => panic msg
  | _ => spin_forever
  end.

(** The loop of the kill character. *)
Definition kill_body (_ : unit) : M cst (unit + unit) :=
  s ← getS;
  if negb (ce s =? cw s) && negb (cbuf s !!! Z.to_nat (u32 (ce s - 1) mod INPUT_BUF_SIZE) =? 10) then
    modify (λ s, set_cons (cbuf s) (cr s) (cw s) (u32 (ce s - 1)) s);;
    consputc BACKSPACE;;
    mret (inl tt)
  else mret (inr tt).

(** The console interrupt handler; its buffer has at most [INPUT_BUF_SIZE]
    characters to kill. *)
Definition consoleintr (c : Z) : M cst unit :=
  if c =? CTRL 80 then dump
  else if c =? CTRL 85 then iterM (S (Z.to_nat INPUT_BUF_SIZE)) kill_body tt
  else if (c =? CTRL 72) || (c =? 0x7f) then
    s ← getS;
    if negb (ce s =? cw s) then
      modify (λ s, set_cons (cbuf s) (cr s) (cw s) (u32 (ce s - 1)) s);;
      consputc BACKSPACE
    else mret tt
  else
    s ← getS;
    if negb (c =? 0) && (u32 (ce s - cr s) <? INPUT_BUF_SIZE) then
      let c := if c =? 13 then 10 else c in
      consputc c;;
      modify (λ s, set_cons (<[Z.to_nat (ce s mod INPUT_BUF_SIZE) := u8 c]> (cbuf s)) (cr s) (cw s) (u32 (ce s + 1)) s);;
      s ← getS;
      if (c =? 10) || (c =? CTRL 68) || (u32 (ce s - cr s) =? INPUT_BUF_SIZE) then
        modify (λ s, set_cons (cbuf s) (cr s) (ce s) (ce s) s);;
        wakeup_r
      else mret tt
    else mret tt.

(** [uartintr]: the input that has arrived, then the output that waits. *)
Definition uartintr_body (_ : unit) : M cst (unit + unit) :=
  c ← uartgetc;
  if c =? -1 then mret (inr tt) else consoleintr c;; mret (inl tt).

Definition arrivals (u : uart) : nat := (length (rx u) + length (concat (snd <$> pace u)))%nat.

Definition uartintr : M cst unit :=
  s ← getS;
  iterM (S (arrivals (hw s))) uartintr_body tt;;
  uartstart.

(** One turn of the loop of [consoleread], from the address and the count that
    are left. *)
Definition consoleread_body (killed : bool) (target : Z) (a : Z * Z) : M cst ((Z * Z) + cres) :=
  let '(dst, n) := a in
  let done n := mret (inr (CRet (s32 (target - n)))) in
  if 0 <? n then
    s ← getS;
    if cr s =? cw s then
      (if killed then mret (inr (CRet (-1))) else mret (inr (CAsleep dst n)))
    else
      let c := cbuf s !!! Z.to_nat (cr s mod INPUT_BUF_SIZE) in
      modify (λ s, set_cons (cbuf s) (u32 (cr s + 1)) (cw s) (ce s) s);;
      if c =? CTRL 68 then
        (if u32 n <? target then modify (λ s, set_cons (cbuf s) (u32 (cr s - 1)) (cw s) (ce s) s) else mret tt);;
        done n
      else
        s ← getS;
        match copyout1 dst c (cum s) with
        | None => done n
        | Some u =>
            modify (set_cum u);;
            if c =? 10 then done (n - 1) else mret (inl (u64 (dst + 1), n - 1))
        end
  else done n.

(** [consoleread], also from where it was woken: [target] is the count of the
    call as an unsigned number. *)
Definition consoleread (killed : bool) (target dst n : Z) : M cst cres :=
  iterM (S (Z.to_nat n)) (consoleread_body killed target) (dst, n).

(** One turn of the loop of [consolewrite]: [None] when the copy fails. *)
Definition consolewrite_body (src n i : Z) : M cst (Z + Z) :=
  if i <? n then
    s ← getS;
    match copyin1 (u64 (src + i)) (cum s) with
    | None => mret (inr i)
    | Some c => uartputc c;; mret (inl (i + 1))
    end
  else mret (inr i).

Definition consolewrite (src n : Z) : M cst Z := iterM (S (Z.to_nat n)) (consolewrite_body src n) 0.
End console.
