(* ===== verification/Consolespec.v ===== *)
(** * The console is a line editor over two byte streams

    What the functions of Console.v do on the sequences their rings hold, and the
    console as a whole: readers, writers, the keyboard and the transmitter in any
    interleaving. *)

From S2P Require Import Prelude Machine Proc Ring Format Kprintf Console.

(** ** The editor *)

(** Lines that a reader can take, and the line being typed. *)
Record editor := Ed { com : list Z; ed : list Z }.

Definition room (a : editor) : bool := (length (com a) + length (ed a) <? 128)%nat.

(** What a character looks like on the screen. *)
Definition echo_of (c : Z) : list Z := if c =? BACKSPACE then [8; 32; 8] else [u8 c].
Definition rubout : list Z := echo_of BACKSPACE.

(** A key: the new state and the echo; [listing] is the answer to Control-P. *)
Definition key (listing : list Z) (c : Z) (a : editor) : editor * list Z :=
  if c =? CTRL 80 then (a, concat (echo_of <$> listing))
  else if c =? CTRL 85 then (Ed (com a) [], concat (replicate (length (ed a)) rubout))
  else if (c =? CTRL 72) || (c =? 127) then
    match ed a with [] => (a, []) | _ => (Ed (com a) (removelast (ed a)), rubout) end
  else if negb (c =? 0) && room a then
    let c := if c =? 13 then 10 else c in
    let e := ed a ++ [u8 c] in
    if (c =? 10) || (c =? CTRL 68) || negb (room (Ed (com a) e)) then (Ed (com a ++ e) [], echo_of c) else (Ed (com a) e, echo_of c)
  else (a, []).

Fixpoint keys_run (listing : list Z) (ks : list Z) (a : editor) : editor * list Z :=
  match ks with
  | [] => (a, [])
  | c :: ks' => let '(a1, e1) := key listing c a in let '(a2, e2) := keys_run listing ks' a1 in (a2, e1 ++ e2)
  end.

(** ** The device *)

Definition arr (u : uart) : list Z := concat (snd <$> pace u).
Definition busy (u : uart) : Prop := thr u ≠ [] ∨ tx_irq u = true.

(** The driver took the bytes [ks] from the receiver and handed [l] to the
    transmitter, and the device went on. *)
Record flow (ks : list Z) (l : list (path * Z)) (u u' : uart) : Prop := {
  fl_out : wire u' ++ thr u' = wire u ++ thr u ++ l;
  fl_in : ∃ a, rx u ++ a = ks ++ rx u' ∧ rcvd u' = rcvd u ++ a ∧ arr u = a ++ arr u';
  fl_pace : (length (pace u') ≤ length (pace u))%nat
}.

(** The same without input, and without losing the transmitter's interrupt. *)
Definition moves (l : list (path * Z)) (u u' : uart) : Prop := flow [] l u u' ∧ (busy u → busy u').

Lemma flow_refl u : flow [] [] u u.
Proof. split; [by rewrite app_nil_r|by exists []; rewrite !app_nil_r|done]. Qed.

Lemma flow_trans k1 k2 l1 l2 u1 u2 u3 : flow k1 l1 u1 u2 → flow k2 l2 u2 u3 → flow (k1 ++ k2) (l1 ++ l2) u1 u3.
Proof.
  intros [O1 (a1 & X1 & R1 & A1) P1] [O2 (a2 & X2 & R2 & A2) P2]. split; [|exists (a1 ++ a2)|lia].
  - rewrite O2, (assoc_L (++)), O1. by rewrite <-!(assoc_L (++)).
  - rewrite R2, R1, A1, A2, (assoc_L (++)), X1, <-!(assoc_L (++)), X2. done.
Qed.

Lemma moves_refl u : moves [] u u.
Proof. split; [apply flow_refl|done]. Qed.

Lemma moves_trans l1 l2 u1 u2 u3 : moves l1 u1 u2 → moves l2 u2 u3 → moves (l1 ++ l2) u1 u3.
Proof. intros [F1 B1] [F2 B2]. split; [exact (flow_trans [] [] _ _ _ _ _ F1 F2)|auto]. Qed.

Lemma moves_poll u : moves [] u (poll u).
Proof.
  unfold poll. destruct (pace u) as [|[k ar] p] eqn:E; (split; [split|]); unfold advance, arr, busy; cbn; rewrite ?E, ?app_nil_r; cbn.
  - by rewrite <-(assoc_L (++)), take_drop.
  - exists []. by rewrite !app_nil_r.
  - done.
  - destruct (thr u) as [|x l]; cbn; [by rewrite orb_false_r|]. intros _. destruct l; cbn; [|by left]. right. by rewrite orb_true_r.
  - by rewrite <-(assoc_L (++)), take_drop.
  - by exists ar.
  - lia.
  - destruct (thr u) as [|x l]; cbn -[drop]; [rewrite drop_nil; cbn; by rewrite orb_false_r|]. intros _. destruct (drop k (x :: l)); cbn -[drop]; [right; by rewrite orb_true_r|by left].
Qed.

(** Handing one more byte to the transmitter. *)
Lemma flow_write ks l u u' x : flow ks l u u' → flow ks (l ++ [x]) u (Uart (thr u' ++ [x]) (rx u') (wire u') (rcvd u') false (pace u')).
Proof. intros [O I P]. split; cbn; [|done|done]. by rewrite (assoc_L (++)), O, <-!(assoc_L (++)). Qed.

Lemma lsr_idle u : (Z.land (lsr u) LSR_TX_IDLE =? 0) = negb (bool_decide (thr u = [])).
Proof. unfold lsr. by do 2 case_bool_decide. Qed.
Lemma lsr_ready u : (Z.land (lsr u) 1 =? 0) = bool_decide (rx u = []).
Proof. unfold lsr. by do 2 case_bool_decide. Qed.

Section spec.
Context {U : Type} {UM : UserMem U}.
Implicit Types s : @cst U.

Lemma set_hw_hw s : set_hw (hw s) s = s.
Proof. by destruct s. Qed.
Lemma set_hw_set_hw u u' s : set_hw u (set_hw u' s) = set_hw u s.
Proof. done. Qed.

Lemma wp_read_lsr (Q : Z → cst → Prop) s : Q (lsr (poll (hw s))) (set_hw (poll (hw s)) s) → wp read_lsr Q s.
Proof. done. Qed.

Lemma wp_read_rhr c rest (Q : Z → cst → Prop) s : rx (hw s) = c :: rest →
  Q c (set_hw (Uart (thr (hw s)) rest (wire (hw s)) (rcvd (hw s)) (tx_irq (hw s)) (pace (hw s))) s) → wp read_rhr Q s.
Proof. intros E HQ. unfold read_rhr, on_hw. wp_steps. by rewrite E. Qed.

(** *** The echo path *)

Lemma uartputc_sync_ok c s (Q : unit → cst → Prop) : panicked s = 0 →
  (∀ u, moves [(Echo, u8 c)] (hw s) u → thr u ≠ [] → Q tt (set_hw u s)) → wp (uartputc_sync c) Q s.
Proof.
  intros Hp HQ. unfold uartputc_sync. wp_steps. rewrite Hp. cbn [Z.eqb negb].
  apply wp_bind. eapply (wp_iter (λ _ s', ∃ u, s' = set_hw u s ∧ moves [] (hw s) u) (λ _ s', (length (pace (hw s')) + length (thr (hw s')))%nat)); [| |cbn; lia].
  - intros [] s' (u & -> & Hm). unfold wait_idle. apply wp_bind, wp_read_lsr. cbn [hw set_hw]. rewrite lsr_idle, set_hw_set_hw.
    assert (moves [] (hw s) (poll u)) as Hm' by (eapply (moves_trans [] []); [done|apply moves_poll]).
    case_bool_decide as Ht; cbn [negb]; wp_steps.
    + unfold write_thr, on_hw. wp_steps. cbn [hw set_hw]. rewrite set_hw_set_hw. apply HQ; cbn; [|by destruct (thr (poll u))].
      destruct Hm' as [F B]. split; [by apply (flow_write [] [])|intros _; left; by destruct (thr (poll u))].
    + split; [by exists (poll u)|]. cbn. unfold poll in *. destruct (pace u) as [|[k ar] p] eqn:E; unfold advance in *; cbn in *; rewrite ?E; cbn.
      * destruct (thr u); cbn in *; [done|]. rewrite drop_0. lia.
      * rewrite length_drop. lia.
  - exists (hw s). rewrite set_hw_hw. split; [done|apply moves_refl].
Qed.

Definition echoed (t : list Z) : list (path * Z) := pair Echo <$> t.

Lemma consputc_ok c s (Q : unit → cst → Prop) : panicked s = 0 →
  (∀ u, moves (echoed (echo_of c)) (hw s) u → thr u ≠ [] → Q tt (set_hw u s)) → wp (consputc c) Q s.
Proof.
  intros Hp HQ. unfold consputc. unfold echo_of in HQ. destruct (c =? BACKSPACE); [|by apply uartputc_sync_ok].
  apply wp_bind, uartputc_sync_ok; [done|]. intros u1 H1 _. apply wp_bind, uartputc_sync_ok; [done|]. intros u2 H2 _.
  apply uartputc_sync_ok; [done|]. intros u3 H3 Ht. cbn [hw set_hw] in *. rewrite !set_hw_set_hw. apply HQ; [|done].
  exact (moves_trans _ _ _ _ _ H1 (moves_trans _ _ _ _ _ H2 H3)).
Qed.

Lemma puts_ok l s (Q : unit → cst → Prop) : panicked s = 0 →
  (∀ u, moves (echoed (concat (echo_of <$> l))) (hw s) u → Q tt (set_hw u s)) → wp (forM l consputc) Q s.
Proof.
  revert s. induction l as [|c l IH]; intros s Hp HQ; cbn [forM].
  - apply wp_ret. rewrite <-(set_hw_hw s). apply HQ, moves_refl.
  - apply wp_bind, consputc_ok; [done|]. intros u Hu _. apply IH; [done|]. intros u' Hu'. rewrite set_hw_set_hw. apply HQ. cbn [fmap list_fmap concat].
    unfold echoed in *. rewrite fmap_app. by eapply moves_trans.
Qed.

(** What Control-P prints. *)
Definition listing (procs : list proc) : list Z := 10 :: concat (dump_line <$> filter (λ p, state p ≠ UNUSED) procs).
Definition pids_ok (procs : list proc) : Prop := Forall (λ p, - 2 ^ 31 ≤ pid p < 2 ^ 31) procs.

Lemma dump_ok s (Q : unit → cst → Prop) : panicked s = 0 → pids_ok (ptab s) →
  (∀ u, moves (echoed (concat (echo_of <$> listing (ptab s)))) (hw s) u → Q tt (set_hw u s)) → wp dump Q s.
Proof.
  intros Hp Hpid HQ. unfold dump. wp_steps. pose proof (procdump_spec (ptab s) (PF [] []) Hpid) as Hd. apply wp_ok in Hd as ([] & o & -> & Ho). rewrite Ho.
  by apply puts_ok.
Qed.

(** *** The input side *)

Lemma in_size : 0 < INPUT_BUF_SIZE < 2 ^ 32.
Proof. done. Qed.
Lemma in_divides : (INPUT_BUF_SIZE | 2 ^ 32).
Proof. by exists (2 ^ 25). Qed.

Record CS s (a : editor) : Prop := {
  cs_ring : rb INPUT_BUF_SIZE 32 (cbuf s) (cr s) (ce s) (com a ++ ed a);
  cs_w : cw s = u32 (cr s + Z.of_nat (length (com a)));
  cs_ed : Forall (λ c, c ≠ 10) (ed a)
}.

Lemma CS_w_e s a : CS s a → ce s = cw s ↔ ed a = [].
Proof.
  intros [[_ Hr Hw Hs _] Hc _]. rewrite length_app in *. rewrite Hw, Hc. unfold u32, INPUT_BUF_SIZE in *. destruct (ed a); cbn [length] in *.
  - by rewrite Nat.add_0_r.
  - split; [|done]. intros E. exfalso. zdm.
Qed.

Lemma CS_count s a : CS s a → u32 (ce s - cr s) = Z.of_nat (length (com a) + length (ed a)).
Proof. intros [Hr _ _]. unfold u32. rewrite (rb_distance _ _ in_size _ _ _ _ Hr). by rewrite length_app. Qed.

(** Removing the last character of the line being typed. *)
Lemma CS_unput s cm e c : CS s (Ed cm (e ++ [c])) →
  cbuf s !!! Z.to_nat (u32 (ce s - 1) mod INPUT_BUF_SIZE) = c ∧ CS (set_cons (cbuf s) (cr s) (cw s) (u32 (ce s - 1)) s) (Ed cm e).
Proof.
  intros [Hr Hw He]. cbn [com ed] in *. rewrite (assoc_L (++)) in Hr. apply (rb_last _ _ in_size in_divides) in Hr as [Hc Hr]. split; [done|].
  split; cbn; [done|done|]. by apply Forall_app in He as [? _].
Qed.

(** Adding one. *)
Lemma CS_put s a c : CS s a → (length (com a) + length (ed a) < 128)%nat → c ≠ 10 →
  CS (set_cons (<[Z.to_nat (ce s mod INPUT_BUF_SIZE) := c]> (cbuf s)) (cr s) (cw s) (u32 (ce s + 1)) s) (Ed (com a) (ed a ++ [c])).
Proof.
  intros [Hr Hw He] Hl Hc. split; cbn.
  - rewrite (assoc_L (++)). apply (rb_push _ _ in_size in_divides); [done|]. rewrite length_app. unfold INPUT_BUF_SIZE. lia.
  - done.
  - apply Forall_app. split; [done|by apply Forall_singleton].
Qed.

(** Committing the line with a last character. *)
Lemma CS_commit s a c : CS s a → (length (com a) + length (ed a) < 128)%nat →
  CS (set_cons (<[Z.to_nat (ce s mod INPUT_BUF_SIZE) := c]> (cbuf s)) (cr s) (u32 (ce s + 1)) (u32 (ce s + 1)) s) (Ed (com a ++ ed a ++ [c]) []).
Proof.
  intros [Hr Hw He] Hl. apply (rb_push _ _ in_size in_divides _ _ _ _ c) in Hr; [|rewrite length_app; unfold INPUT_BUF_SIZE; lia].
  rewrite <-(assoc_L (++)) in Hr. split; cbn; [by rewrite app_nil_r|apply Hr|constructor].
Qed.

(** What the input side leaves alone. *)
Definition same_rest s s' : Prop :=
  tbuf s' = tbuf s ∧ tw s' = tw s ∧ tr s' = tr s ∧ panicked s' = panicked s ∧ cum s' = cum s ∧ ptab s' = ptab s ∧ woke_t s' = woke_t s.

Lemma CS_ext s s' a : cbuf s' = cbuf s → cr s' = cr s → cw s' = cw s → ce s' = ce s → CS s a → CS s' a.
Proof. intros E1 E2 E3 E4 [H1 H2 H3]. split; [by rewrite E1, E2, E4|by rewrite E3, E2|done]. Qed.

(** The effect of input, one key or many: the editor moved to [a'] and echoed
    [e]. *)
Record typed s a e a' s' : Prop := {
  ty_cs : CS s' a';
  ty_out : moves (echoed e) (hw s) (hw s');
  ty_same : same_rest s s';
  ty_woke : woke_r s = true → woke_r s' = true;
  ty_commit : com a' = com a ∨ woke_r s' = true
}.

Lemma typed_refl s a : CS s a → typed s a [] a s.
Proof. intros H. split; [done|apply moves_refl|done|done|by left]. Qed.

Lemma typed_trans s1 s2 s3 a1 a2 a3 e1 e2 : typed s1 a1 e1 a2 s2 → typed s2 a2 e2 a3 s3 → typed s1 a1 (e1 ++ e2) a3 s3.
Proof.
  intros [C1 O1 (?&?&?&?&?&?&?) W1 M1] [C2 O2 (?&?&?&?&?&?&?) W2 M2]. split; [done| |repeat split; congruence|auto|].
  - unfold echoed in *. rewrite fmap_app. by eapply moves_trans.
  - destruct M2 as [->|?]; [|by right]. destruct M1 as [?|?]; [by left|right; auto].
Qed.

Lemma kill_ok s a : CS s a → panicked s = 0 →
  wp (iterM (S (Z.to_nat INPUT_BUF_SIZE)) kill_body tt) (λ _ s', typed s a (concat (replicate (length (ed a)) rubout)) (Ed (com a) []) s') s.
Proof.
  intros HC Hp. eapply (wp_iter_bound (λ m _ s', ∃ e e2, ed a = e ++ e2 ∧ length e = m ∧ typed s a (concat (replicate (length e2) rubout)) (Ed (com a) e) s')) with (m := length (ed a)).
  - intros m [] s' (e & e2 & He & Hm & HT). pose proof (ty_cs _ _ _ _ _ HT) as HC'. pose proof (ty_same _ _ _ _ _ HT) as (_ & _ & _ & Hp' & _).
    unfold kill_body. wp_steps. destruct (decide (e = [])) as [->|Hne].
    + rewrite (proj2 (Z.eqb_eq _ _)) by (by apply (CS_w_e _ _ HC')). cbn [negb andb]. wp_steps. by rewrite He.
    + apply exists_last in Hne as (e' & c & ->). rewrite (proj2 (Z.eqb_neq _ _)) by (rewrite (CS_w_e _ _ HC'); cbn; by destruct e').
      destruct (CS_unput _ _ _ _ HC') as [Hc HC2]. pose proof (cs_ed _ _ HC') as Hed. cbn in Hed. apply Forall_app in Hed as [_ Hed]. rewrite Forall_singleton in Hed.
      rewrite Hc, (proj2 (Z.eqb_neq c 10)) by done. cbn [negb andb]. wp_steps. apply consputc_ok; [cbn; by rewrite Hp', Hp|]. intros u Hu _. wp_steps.
      exists (length e'). split; [rewrite length_app in Hm; cbn in Hm; lia|]. exists e', (c :: e2). split; [by rewrite He, <-(assoc_L (++))|]. split; [done|].
      replace (concat (replicate (length (c :: e2)) rubout)) with (concat (replicate (length e2) rubout) ++ rubout).
      2: { cbn [length]. by rewrite <-Nat.add_1_r, replicate_add, concat_app. }
      eapply typed_trans; [exact HT|]. split; [by eapply CS_ext, HC2|done|done|done|by left].
  - exists (ed a), []. rewrite app_nil_r. split; [done|]. split; [done|]. destruct a. by apply typed_refl.
  - destruct HC as [Hr _ _]. pose proof (rb_size _ _ _ _ _ _ Hr) as Hs. rewrite length_app in Hs. unfold INPUT_BUF_SIZE in *. lia.
Qed.

Lemma consoleintr_ok c s a : CS s a → panicked s = 0 → pids_ok (ptab s) → 0 ≤ c < 256 →
  wp (consoleintr c) (λ _ s', typed s a (key (listing (ptab s)) c a).2 (key (listing (ptab s)) c a).1 s') s.
Proof.
  intros HC Hp Hpid Hb. unfold consoleintr, key. destruct (c =? CTRL 80) eqn:EP.
  { apply dump_ok; [done|done|]. intros u Hu. cbn. split; [by eapply CS_ext, HC|done|done|done|by left]. }
  destruct (c =? CTRL 85) eqn:EU; [by apply kill_ok|]. destruct ((c =? CTRL 72) || (c =? 127)) eqn:EH.
  { wp_steps. destruct (decide (ed a = [])) as [E|E].
    - rewrite E, (proj2 (Z.eqb_eq _ _)) by (by apply (CS_w_e _ _ HC)). cbn [negb]. wp_steps. by apply typed_refl.
    - rewrite (proj2 (Z.eqb_neq _ _)) by (by rewrite (CS_w_e _ _ HC)). cbn [negb]. destruct a as [cm e]. cbn [com ed] in *.
      apply exists_last in E as (e' & x & ->). destruct (CS_unput _ _ _ _ HC) as [_ HC2]. wp_steps. apply consputc_ok; [done|]. intros u Hu _.
      replace (match e' ++ [x] with [] => _ | _ => _ end) with (Ed cm (removelast (e' ++ [x])), rubout) by (by destruct e'). cbn. rewrite removelast_last.
      split; [by eapply CS_ext, HC2|done|done|done|by left]. }
  wp_steps. rewrite (CS_count _ _ HC). unfold room. cbn [com ed].
  destruct (negb (c =? 0)) eqn:E0; cbn [andb]; [|wp_steps; by apply typed_refl].
  destruct (Nat.ltb_spec (length (com a) + length (ed a)) 128) as [Hl|Hl].
  2: { rewrite (proj2 (Z.ltb_ge _ _)) by (unfold INPUT_BUF_SIZE; lia). wp_steps. by apply typed_refl. }
  rewrite (proj2 (Z.ltb_lt _ _)) by (unfold INPUT_BUF_SIZE; lia). set (d := if c =? 13 then 10 else c). assert (u8 d = d) as Hd by (unfold d, u8; destruct (c =? 13); [done|by apply Z.mod_small]).
  wp_steps. apply consputc_ok; [done|]. intros u Hu _. wp_steps. cbn [ce cr set_cons set_hw cbuf cw]. rewrite Hd.
  assert (u32 (u32 (ce s + 1) - cr s) = Z.of_nat (length (com a) + length (ed a) + 1)) as Hcnt.
  { pose proof (rb_push _ _ in_size in_divides _ _ _ _ d (cs_ring _ _ HC)) as Hr. unfold u32. erewrite rb_distance; [|exact in_size|apply Hr; rewrite length_app; unfold INPUT_BUF_SIZE; lia].
    rewrite !length_app. cbn. lia. }
  rewrite Hcnt. assert ((Z.of_nat (length (com a) + length (ed a) + 1) =? INPUT_BUF_SIZE) = negb (length (com a) + length (ed a ++ [d]) <? 128)%nat) as ->.
  { rewrite length_app. cbn [length]. unfold INPUT_BUF_SIZE. destruct (Nat.ltb_spec (length (com a) + (length (ed a) + 1)) 128); cbn [negb]; [apply Z.eqb_neq|apply Z.eqb_eq]; lia. }
  destruct ((d =? 10) || (d =? CTRL 68) || negb (length (com a) + length (ed a ++ [d]) <? 128)%nat) eqn:EC; wp_steps; cbn [fst snd].
  - unfold wakeup_r. wp_steps. split; [eapply CS_ext, (CS_commit s a d HC Hl); done|done|done|done|by right].
  - split; [eapply CS_ext, (CS_put s a d HC Hl); try done|done|done|done|by left]. intros ->. done.
Qed.

(** *** The output side *)

Lemma tx_size : 0 < UART_TX_BUF_SIZE < 2 ^ 64.
Proof. done. Qed.
Lemma tx_divides : (UART_TX_BUF_SIZE | 2 ^ 64).
Proof. by exists (2 ^ 59). Qed.

(** The transmit buffer holds [l]. *)
Definition CT s (l : list Z) : Prop := rb UART_TX_BUF_SIZE 64 (tbuf s) (tr s) (tw s) l.

Definition sends (l : list Z) : list (path * Z) := pair Write <$> l.

(** What the output side leaves alone. *)
Definition same_in s s' : Prop :=
  cbuf s' = cbuf s ∧ cr s' = cr s ∧ cw s' = cw s ∧ ce s' = ce s ∧ panicked s' = panicked s ∧ cum s' = cum s ∧ ptab s' = ptab s ∧ woke_r s' = woke_r s.

(** The transmitter took [sent]; the buffer keeps [rest], and then an interrupt
    is to come. *)
Record started s (sent rest : list Z) s' : Prop := {
  st_ct : CT s' rest;
  st_out : flow [] (sends sent) (hw s) (hw s');
  st_same : same_in s s';
  st_woke : woke_t s = true ∨ sent ≠ [] → woke_t s' = true
}.

Lemma uartstart_ok s l : CT s l → Forall (λ c, 0 ≤ c < 256) l →
  wp uartstart (λ _ s', ∃ sent rest, l = sent ++ rest ∧ started s sent rest s' ∧ (rest ≠ [] → busy (hw s'))) s.
Proof.
  intros HC Hby. unfold uartstart. eapply (wp_iter_bound (λ m _ s', ∃ sent rest, l = sent ++ rest ∧ length rest = m ∧ started s sent rest s')) with (m := length l).
  - intros m [] s' (sent & rest & Hl & Hm & [HC' Hf (?&?&?&?&?&?&?&?) Hw]). unfold uartstart_body. wp_steps. destruct rest as [|x rest].
    + rewrite (proj2 (Z.eqb_eq _ _)) by (symmetry; by apply (rb_empty_iff _ _ tx_size _ _ _ _ HC')). unfold read_isr, on_hw. wp_steps. exists sent, []. split; [done|]. split; [|done].
      split; [done| |by repeat split|done]. destruct Hf as [O I P]. by split.
    + rewrite (proj2 (Z.eqb_neq _ _)) by (intros E; symmetry in E; by apply (rb_empty_iff _ _ tx_size _ _ _ _ HC') in E).
      apply wp_bind, wp_read_lsr. rewrite lsr_idle. pose proof (moves_poll (hw s')) as [Fp Bp]. pose proof (flow_trans _ _ _ _ _ _ _ Hf Fp) as Hf'. rewrite !app_nil_r in Hf'.
      case_bool_decide as Ht; cbn [negb].
      * destruct (rb_pop _ _ tx_size tx_divides _ _ _ _ _ HC') as [Hx HC2]. wp_steps. cbn [tbuf tr set_hw]. rewrite Hx. unfold wakeup_t, write_thr, on_hw. wp_steps. cbn [hw set_hw set_tx].
        exists (length rest). split; [cbn in Hm; lia|]. exists (sent ++ [x]), rest. split; [by rewrite <-(assoc_L (++))|]. split; [done|].
        assert (u8 x = x) as Hu by (unfold u8; apply Z.mod_small; rewrite Hl, Forall_app, Forall_cons in Hby; lia). rewrite Hu.
        split; [exact HC2| |by repeat split|by intros _]. cbn. unfold sends in *. rewrite fmap_app. by apply flow_write.
      * wp_steps. exists sent, (x :: rest). split; [done|]. split; [by split|]. intros _. left. done.
  - exists [], l. split; [done|]. split; [done|]. split; [done|apply flow_refl|done|tauto].
  - pose proof (rb_size _ _ _ _ _ _ HC). unfold UART_TX_BUF_SIZE in *. lia.
Qed.

(** [uartputc] blocks exactly when the buffer is full. *)
Lemma uartputc_full c s l : CT s l → panicked s = 0 → length l = 32%nat → uartputc c s = Blocked s.
Proof.
  intros HC Hp Hl. unfold uartputc, mbind, M_bind, getS. rewrite Hp. cbn [Z.eqb negb].
  rewrite (proj2 (Z.eqb_eq _ _)); [done|]. apply (rb_full_iff _ _ tx_size _ _ _ _ HC). by rewrite Hl.
Qed.

Lemma uartputc_ok c s l : CT s l → panicked s = 0 → length l ≠ 32%nat → Forall (λ c, 0 ≤ c < 256) l →
  wp (uartputc c) (λ _ s', ∃ sent rest, l ++ [u8 c] = sent ++ rest ∧ started s sent rest s' ∧ (rest ≠ [] → busy (hw s'))) s.
Proof.
  intros HC Hp Hl Hby. unfold uartputc. wp_steps. rewrite Hp. cbn [Z.eqb negb].
  pose proof (rb_size _ _ _ _ _ _ HC) as Hs. rewrite (proj2 (Z.eqb_neq _ _)) by (intros E; apply (rb_full_iff _ _ tx_size _ _ _ _ HC) in E; unfold UART_TX_BUF_SIZE in *; lia).
  wp_steps. cbn [tbuf tw tr set_tx]. eapply wp_mono; [|apply (uartstart_ok _ (l ++ [u8 c]))].
  - intros [] s' (sent & rest & Hsr & [H1 H2 H3 H4] & Hb). exists sent, rest. split; [done|]. by split.
  - apply (rb_push _ _ tx_size tx_divides); [done|]. unfold UART_TX_BUF_SIZE in *. lia.
  - apply Forall_app. split; [done|]. apply Forall_singleton. unfold u8. apply Z.mod_pos_bound. lia.
Qed.

(** *** The interrupt handler *)

Lemma keys_run_snoc L ks c a : keys_run L (ks ++ [c]) a =
  ((key L c (keys_run L ks a).1).1, (keys_run L ks a).2 ++ (key L c (keys_run L ks a).1).2).
Proof.
  revert a. induction ks as [|k ks IH]; intros a; cbn [keys_run app].
  - cbn. destruct (key L c a). cbn. by rewrite app_nil_r.
  - destruct (key L k a) as [a1 e1]. rewrite IH. destruct (keys_run L ks a1) as [a2 e2]. cbn. by rewrite <-(assoc_L (++)).
Qed.

(** The keys [ks] were handled. *)
Record handled s a (ks : list Z) s' : Prop := {
  hd_cs : CS s' (keys_run (listing (ptab s)) ks a).1;
  hd_out : flow ks (echoed (keys_run (listing (ptab s)) ks a).2) (hw s) (hw s');
  hd_same : same_rest s s';
  hd_woke : woke_r s = true → woke_r s' = true;
  hd_commit : com (keys_run (listing (ptab s)) ks a).1 = com a ∨ woke_r s' = true
}.

Definition bytes_in (u : uart) : Prop := Forall (λ c, 0 ≤ c < 256) (rx u ++ arr u).

Lemma flow_bytes ks l u u' : flow ks l u u' → bytes_in u → bytes_in u' ∧ Forall (λ c, 0 ≤ c < 256) ks.
Proof.
  intros [_ (a & Hx & _ & Ha) _] Hb. unfold bytes_in in *. rewrite Ha, (assoc_L (++)), Hx, <-(assoc_L (++)), Forall_app in Hb. tauto.
Qed.

Lemma flow_arrivals ks l u u' : flow ks l u u' → arrivals u = (length ks + arrivals u')%nat.
Proof.
  intros [_ (a & Hx & _ & Ha) _]. unfold arrivals, arr in *. rewrite Ha, length_app. apply (f_equal length) in Hx. rewrite !length_app in Hx. lia.
Qed.

Lemma uartintr_loop s a : CS s a → panicked s = 0 → pids_ok (ptab s) → bytes_in (hw s) →
  wp (iterM (S (arrivals (hw s))) uartintr_body tt) (λ _ s', ∃ ks, handled s a ks s') s.
Proof.
  intros HC Hp Hpid Hb. eapply (wp_iter_bound (λ m _ s', ∃ ks, handled s a ks s' ∧ arrivals (hw s') = m)) with (m := arrivals (hw s)); [| |lia].
  - intros m [] s' (ks & HH & Hm). pose proof HH as [HC' Hf (?&?&?&Hp'&?&Hpt&?) Hw Hcm]. unfold uartintr_body, uartgetc.
    apply wp_bind, wp_bind, wp_read_lsr. rewrite lsr_ready. pose proof (moves_poll (hw s')) as [Fp Bp]. set (u := poll (hw s')) in *.
    pose proof (flow_trans _ _ _ _ _ _ _ Hf Fp) as Hf'. rewrite !app_nil_r in Hf'. pose proof (flow_bytes _ _ _ _ Hf' Hb) as [Hbu _].
    destruct (rx u) as [|c rest] eqn:Erx; cbn [bool_decide negb].
    + wp_steps. exists ks. split; [by eapply CS_ext, HC'|done|done|done|done].
    + eapply wp_read_rhr; [exact Erx|]. rewrite set_hw_set_hw. cbn [hw set_hw].
      unfold bytes_in in Hbu. rewrite Erx in Hbu. apply Forall_cons in Hbu as [Hc Hbu]. rewrite (proj2 (Z.eqb_neq c (-1))) by lia. wp_steps.
      set (u1 := Uart (thr u) rest (wire u) (rcvd u) (tx_irq u) (pace u)). assert (flow [c] [] u u1) as Fu.
      { split; cbn; [by rewrite app_nil_r| |done]. exists []. rewrite Erx. by rewrite !app_nil_r. }
      eapply wp_mono; [|apply (consoleintr_ok c (set_hw u1 s') (keys_run (listing (ptab s)) ks a).1); [by eapply CS_ext, HC'|cbn; congruence|cbn; by rewrite Hpt|done]].
      intros [] s2 [HC2 [Fo _] (?&?&?&?&?&?&?) Hw2 Hcm2]. cbn [ptab set_hw hw woke_r panicked tbuf tw tr cum woke_t] in *. rewrite Hpt in *. wp_steps.
      pose proof (flow_trans _ _ _ _ _ _ _ (flow_trans _ _ _ _ _ _ _ Hf' Fu) Fo) as Fall. rewrite !app_nil_r in Fall.
      exists (arrivals (hw s2)). split.
      * pose proof (flow_arrivals _ _ _ _ Fo) as A1. pose proof (flow_arrivals _ _ _ _ Fu) as A2. pose proof (flow_arrivals _ _ _ _ Fp) as A3. fold u in A3. cbn in *. lia.
      * exists (ks ++ [c]). split; [|done]. split; rewrite ?keys_run_snoc; cbn [fst snd]; [done| |repeat split; congruence|auto|].
        -- unfold echoed in *. by rewrite fmap_app.
        -- destruct Hcm2 as [->|?]; [|by right]. destruct Hcm as [?|?]; [by left|right; auto].
  - exists []. split; [|done]. split; cbn; [done|apply flow_refl|done|done|by left].
Qed.

Lemma uartintr_ok s a l : CS s a → CT s l → panicked s = 0 → pids_ok (ptab s) → bytes_in (hw s) → Forall (λ c, 0 ≤ c < 256) l →
  wp uartintr (λ _ s', ∃ ks sent rest, l = sent ++ rest ∧ CS s' (keys_run (listing (ptab s)) ks a).1 ∧ CT s' rest ∧
    flow ks (echoed (keys_run (listing (ptab s)) ks a).2 ++ sends sent) (hw s) (hw s') ∧ (rest ≠ [] → busy (hw s')) ∧
    panicked s' = panicked s ∧ cum s' = cum s ∧ ptab s' = ptab s ∧
    (com (keys_run (listing (ptab s)) ks a).1 = com a ∨ woke_r s' = true) ∧ (sent = [] ∨ woke_t s' = true)) s.
Proof.
  intros HC HT Hp Hpid Hb Hl. unfold uartintr. wp_steps. eapply wp_mono; [|by apply (uartintr_loop s a)].
  intros [] s1 (ks & [HC1 Hf1 (E1 & E2 & E3 & E4 & E5 & E6 & E7) Hw1 Hcm]). eapply wp_mono; [|apply (uartstart_ok s1 l); [unfold CT; by rewrite E1, E2, E3|done]].
  intros [] s2 (sent & rest & -> & [HT2 Hf2 (D1 & D2 & D3 & D4 & D5 & D6 & D7 & D8) Hw2] & Hbusy). exists ks, sent, rest.
  split; [done|]. split; [by eapply CS_ext, HC1|]. split; [done|]. split; [pose proof (flow_trans _ _ _ _ _ _ _ Hf1 Hf2) as Hf; by rewrite app_nil_r in Hf|].
  split; [done|]. split; [congruence|]. split; [congruence|]. split; [congruence|]. split; [rewrite D8; done|]. destruct sent; [by left|right; apply Hw2; by right].
Qed.

(** *** Reading *)

Fixpoint store (u : U) (dst : Z) (l : list Z) : option U :=
  match l with [] => Some u | x :: l' => u' ← copyout1 dst x u; store u' (u64 (dst + 1)) l' end.
Definition after (dst : Z) (l : list Z) : Z := foldl (λ d _, u64 (d + 1)) dst l.

Lemma store_snoc u dst l x u' : store u dst l = Some u' → store u dst (l ++ [x]) = copyout1 (after dst l) x u'.
Proof.
  revert u dst. induction l as [|y l IH]; intros u dst; cbn.
  - intros [= ->]. by destruct (copyout1 dst x u').
  - destruct (copyout1 dst y u) as [u1|]; cbn; [|done]. apply IH.
Qed.

(** The rest of the state of a reader. *)
Definition same_out s s' : Prop :=
  tbuf s' = tbuf s ∧ tw s' = tw s ∧ tr s' = tr s ∧ panicked s' = panicked s ∧ hw s' = hw s ∧ ptab s' = ptab s ∧ woke_r s' = woke_r s ∧ woke_t s' = woke_t s.

(** A reader has stored [got] from the front of the lines; [c'] is left. *)
Record took s a (dst : Z) (got c' : list Z) s' : Prop := {
  tk_com : com a = got ++ c';
  tk_cs : CS s' (Ed c' (ed a));
  tk_mem : store (cum s) dst got = Some (cum s');
  tk_same : same_out s s'
}.

(** How [consoleread] ends: with all it was asked for or a whole line; at an end
    of file, which it leaves for the next call when it has something to return;
    at a fault, with the character lost; killed; or asleep with nothing left to
    read. *)
Definition read_post (killed : bool) (target dst n : Z) s a (r : cres) s' : Prop :=
  ∃ got lost c', com a = got ++ lost ++ c' ∧ CS s' (Ed c' (ed a)) ∧ store (cum s) dst got = Some (cum s') ∧ same_out s s' ∧
  Forall (λ c, c ≠ 4) got ∧ Forall (λ c, c ≠ 10) (removelast got) ∧ Z.of_nat (length got) ≤ Z.max 0 n ∧
  let left := n - Z.of_nat (length got) in
  match r with
  | CAsleep d k => killed = false ∧ lost = [] ∧ c' = [] ∧ d = after dst got ∧ k = left ∧ 0 < k ∧ Forall (λ c, c ≠ 10) got
  | CRet v =>
      (killed = true ∧ v = -1 ∧ lost = [] ∧ c' = []) ∨
      (v = s32 (target - left) ∧
       ((lost = [] ∧ (left ≤ 0 ∨ last got = Some 10)) ∨
        (0 < left ∧ Forall (λ c, c ≠ 10) got ∧ ∃ rest, lost ++ c' = 4 :: rest ∧ lost = if u32 left <? target then [] else [4]) ∨
        (0 < left ∧ Forall (λ c, c ≠ 10) got ∧ ∃ x, lost = [x] ∧ copyout1 (after dst got) x (cum s') = None)))
  end.

Lemma consoleread_ok killed target dst n s a : CS s a → wp (consoleread killed target dst n) (read_post killed target dst n s a) s.
Proof.
  intros HC. unfold consoleread.
  eapply (wp_iter (λ p s', ∃ got c', took s a dst got c' s' ∧ p = (after dst got, n - Z.of_nat (length got)) ∧
    Forall (λ c, c ≠ 4) got ∧ Forall (λ c, c ≠ 10) got ∧ Z.of_nat (length got) ≤ Z.max 0 n) (λ p _, Z.to_nat p.2)); [| |cbn; lia].
  - intros [d k] s1 (got & c1 & [Hcom HC1 Hmem Hsame] & [= -> ->] & H4 & H10 & Hlen). unfold consoleread_body.
    assert (Forall (λ c, c ≠ 10) (removelast got)) as H10'.
    { clear -H10. destruct (decide (got = [])) as [->|Hne]; [constructor|]. apply exists_last in Hne as (g & x & ->). rewrite removelast_last. by apply Forall_app in H10 as [? _]. }
    destruct (Z.ltb_spec 0 (n - Z.of_nat (length got))) as [Hk|Hk].
    2: { wp_steps. exists got, [], c1. do 7 (split; [done|]); cbv zeta. right. split; [done|]. left. split; [done|]. by left. }
    wp_steps. destruct c1 as [|c c1].
    { rewrite (proj2 (Z.eqb_eq _ _)). 2: { rewrite (cs_w _ _ HC1). cbn. rewrite Z.add_0_r. unfold u32. by rewrite Z.mod_small by apply (cs_ring _ _ HC1). }
      destruct killed; wp_steps; exists got, [], []; do 7 (split; [done|]); cbv zeta; [by left|]. by repeat split. }
    pose proof HC1 as [Hring Hw Hed]. cbn [com ed app length] in Hring, Hw, Hed. destruct (rb_pop _ _ in_size in_divides _ _ _ _ _ Hring) as [Hc Hring'].
    rewrite (proj2 (Z.eqb_neq _ _)). 2: { rewrite Hw. pose proof (rb_r _ _ _ _ _ _ Hring). pose proof (rb_size _ _ _ _ _ _ Hring) as Hsz. cbn [length] in Hsz. rewrite length_app in Hsz. unfold u32, INPUT_BUF_SIZE in *. intros E. zdm. }
    rewrite Hc. set (s2 := set_cons (cbuf s1) (u32 (cr s1 + 1)) (cw s1) (ce s1) s1).
    assert (CS s2 (Ed c1 (ed a))) as HC2. { split; cbn; [done| |done]. rewrite Hw. unfold u32. rewrite Zplus_mod_idemp_l. f_equal. lia. }
    wp_steps. change (CTRL 68) with 4. destruct (Z.eqb_spec c 4) as [->|Hc4].
    + destruct (Z.ltb_spec (u32 (n - Z.of_nat (length got))) target) as [Ht|Ht]; wp_steps.
      * exists got, [], (4 :: c1). split; [done|]. split; [|do 5 (split; [done|]); cbv zeta; right; split; [done|]; right; left; split; [done|]; split; [done|]].
        -- eapply CS_ext, HC1; try done. cbn. unfold u32. apply (rb_unpop _ _ _ _ _ _ _ Hring).
        -- exists c1. split; [done|]. by rewrite (proj2 (Z.ltb_lt _ _) Ht).
      * exists got, [4], c1. do 7 (split; [done|]); cbv zeta; right; split; [done|]; right; left; split; [done|]. split; [done|].
        exists c1. split; [done|]. by rewrite (proj2 (Z.ltb_ge _ _) Ht).
    + wp_steps. fold s2. destruct (copyout1 (after dst got) c (cum s2)) as [u'|] eqn:Eu.
      2: { wp_steps. exists got, [c], c1. do 7 (split; [done|]); cbv zeta. right. split; [done|]. right. right. split; [done|]. split; [done|]. by exists c. }
      wp_steps. fold s2. assert (took s a dst (got ++ [c]) c1 (set_cum u' s2)) as HT.
      { split; [by rewrite <-(assoc_L (++))|by eapply CS_ext, HC2|rewrite (store_snoc _ _ _ _ _ Hmem); exact Eu|done]. }
      assert (Forall (λ c, c ≠ 4) (got ++ [c])) as H4' by (apply Forall_app; split; [done|by apply Forall_singleton]).
      assert (Z.of_nat (length (got ++ [c])) = Z.of_nat (length got) + 1) as El by (rewrite length_app; cbn; lia).
      destruct (Z.eqb_spec c 10) as [->|Hc10]; wp_steps.
      * destruct HT as [T1 T2 T3 T4]. exists (got ++ [10]), [], c1. split; [done|]. split; [done|]. split; [done|]. split; [done|]. split; [done|]. split; [by rewrite removelast_last|]. split; [lia|].
        right. rewrite El. split; [f_equal; lia|]. left. split; [done|]. right. by rewrite last_snoc.
      * split; [|cbn; lia]. exists (got ++ [c]), c1. split; [done|]. split; [unfold after; rewrite foldl_app, El; cbn; f_equal; lia|]. split; [done|].
        split; [apply Forall_app; split; [done|by apply Forall_singleton]|lia].
  - exists [], (com a). split; [split; [done|by destruct a|done|done]|]. cbn. split; [f_equal; lia|]. split; [constructor|]. split; [constructor|lia].
Qed.
End spec.
