(* ===== verification/Consolemach.v ===== *)
(** * The console at work: readers, writers, keyboard and transmitter

    Processes call [consoleread] and [consolewrite], sleep and are woken, while
    the device receives, sends and interrupts, in any order; with [lossy] sleepers
    may miss a wakeup. *)

From S2P Require Import Prelude Machine Proc Ring Format Kprintf Console Consolespec.

(** What happened to the input.  A key was handled; a reader found a byte in its
    memory; its call returned 0 at an end of file; its call ended where its memory
    cannot be stored to; it was killed inside the call. *)
Inductive event := EKey (c : Z) | EGot (b : Z) | EEof | EFault | EKilled.

(** What an event does to the editor and what it echoes.  A fault may lose one
    character, and a reader that is killed what it had taken. *)
Inductive estep (L : list Z) : event → editor → editor → list Z → Prop :=
  | e_key c a : estep L (EKey c) a (key L c a).1 (key L c a).2
  | e_got b l t : estep L (EGot b) (Ed (b :: l) t) (Ed l t) []
  | e_eof l t : estep L EEof (Ed (CTRL 68 :: l) t) (Ed l t) []
  | e_fault a : estep L EFault a a []
  | e_lost b l t : estep L EFault (Ed (b :: l) t) (Ed l t) []
  | e_killed l1 l2 t : estep L EKilled (Ed (l1 ++ l2) t) (Ed l2 t) [].

(** The events [es] take the editor from [a] to [a'] and echo [e]. *)
Inductive esteps (L : list Z) : list event → editor → editor → list Z → Prop :=
  | es_nil a : esteps L [] a a []
  | es_cons x es a a1 a2 e1 e2 : estep L x a a1 e1 → esteps L es a1 a2 e2 → esteps L (x :: es) a a2 (e1 ++ e2).

Fixpoint keys_of (es : list event) : list Z :=
  match es with [] => [] | EKey c :: es' => c :: keys_of es' | _ :: es' => keys_of es' end.

(** A process outside the console, asleep in [consoleread], woken there, between
    two characters of [consolewrite], asleep in [uartputc], or woken there. *)
Inductive cthread :=
  | CIdle
  | CRSleep (target dst n : Z) | CRReady (target dst n : Z)
  | CWriting (src n i : Z)
  | CWSleep (src n i c : Z) | CWReady (src n i c : Z).

(** The arguments of a call to [consoleread], at its start or where it goes on:
    the count of the call as an unsigned number, the address and count left. *)
Definition rd_ok (target dst n : Z) : Prop :=
  0 ≤ dst < 2 ^ 64 ∧ ((- 2 ^ 31 ≤ n ≤ 0 ∧ target = u32 n) ∨ (0 < n ≤ target ∧ target < 2 ^ 31)).

Definition cthread_ok (x : cthread) : Prop :=
  match x with
  | CRSleep target dst n | CRReady target dst n => rd_ok target dst n
  | CWSleep _ _ _ c | CWReady _ _ _ c => 0 ≤ c < 256
  | _ => True
  end.

Definition bytes_on (p : path) (l : list (path * Z)) : list Z := snd <$> filter (λ x, x.1 = p) l.

(** The keys already taken from the receiver. *)
Definition processed (u : uart) : list Z := take (length (rcvd u) - length (rx u)) (rcvd u).

Definition sched_ok (p : list (nat * list Z)) : Prop := Forall (λ x, Forall (λ c, 0 ≤ c < 256) x.2) p.

Lemma esteps_app L es1 es2 a1 a2 a3 e1 e2 : esteps L es1 a1 a2 e1 → esteps L es2 a2 a3 e2 → esteps L (es1 ++ es2) a1 a3 (e1 ++ e2).
Proof. intros H1 H2. induction H1; cbn; [done|]. rewrite <-(assoc_L (++)). by econstructor; eauto. Qed.

Lemma esteps_keys L ks a : esteps L (EKey <$> ks) a (keys_run L ks a).1 (keys_run L ks a).2.
Proof.
  revert a. induction ks as [|c ks IH]; intros a; cbn; [constructor|]. specialize (IH (key L c a).1). pose proof (e_key L c a) as Hk.
  destruct (key L c a) as [a1 e1]. cbn in IH, Hk. destruct (keys_run L ks a1) as [a2 e2]. by econstructor.
Qed.

Lemma esteps_got L l c t : esteps L (EGot <$> l) (Ed (l ++ c) t) (Ed c t) [].
Proof. induction l as [|x l IH]; cbn; [constructor|]. apply (es_cons L (EGot x) _ _ (Ed (l ++ c) t) _ [] []); [constructor|done]. Qed.

Lemma esteps_one L x a a' : estep L x a a' [] → esteps L [x] a a' [].
Proof. intros H. apply (es_cons L x [] a a' a' [] []); [done|constructor]. Qed.

Lemma keys_of_app es1 es2 : keys_of (es1 ++ es2) = keys_of es1 ++ keys_of es2.
Proof. induction es1 as [|[] es1 IH]; cbn; [done|by rewrite IH|done..]. Qed.
Lemma keys_of_keys ks : keys_of (EKey <$> ks) = ks.
Proof. induction ks as [|c ks IH]; cbn; [done|by rewrite IH]. Qed.

Lemma bytes_on_app p l1 l2 : bytes_on p (l1 ++ l2) = bytes_on p l1 ++ bytes_on p l2.
Proof. unfold bytes_on. by rewrite filter_app, fmap_app. Qed.
Lemma bytes_on_path p q l : bytes_on p (pair q <$> l) = if decide (q = p) then l else [].
Proof.
  unfold bytes_on. induction l as [|x l IH]; [by case_decide|]. rewrite fmap_cons, filter_cons. cbn [fst]. case_decide; [rewrite fmap_cons|]; by rewrite IH.
Qed.

Section machine.
Context {U : Type} {UM : UserMem U}.
Local Notation cst := (@cst U).

Record cmach := CM { st : cst; cths : list cthread; clog : list event; written : list Z }.

(** The state in which a process with memory [u] runs, the device following the
    schedule [p]; and the state it leaves. *)
Definition enter (u : U) (p : list (nat * list Z)) (s : cst) : cst :=
  CST (cbuf s) (cr s) (cw s) (ce s) (tbuf s) (tw s) (tr s) (panicked s)
      (Uart (thr (hw s)) (rx (hw s)) (wire (hw s)) (rcvd (hw s)) (tx_irq (hw s)) p) u (ptab s) false false.
Definition leave (s : cst) : cst :=
  set_hw (Uart (thr (hw s)) (rx (hw s)) (wire (hw s)) (rcvd (hw s)) (tx_irq (hw s)) []) s.

Definition wake_cthread (wr wt : bool) (t : cthread) : cthread :=
  match t with
  | CRSleep a d n => if wr then CRReady a d n else t
  | CWSleep a n i c => if wt then CWReady a n i c else t
  | _ => t
  end.

Definition lines (s : cst) : list Z := rb_contents INPUT_BUF_SIZE 32 (cbuf s) (cr s) (cw s).
Definition typing (s : cst) : list Z := rb_contents INPUT_BUF_SIZE 32 (cbuf s) (cw s) (ce s).
Definition waiting (s : cst) : list Z := rb_contents UART_TX_BUF_SIZE 64 (tbuf s) (tr s) (tw s).

(** The machine after a call that left [s']: events [es], bytes [ws] accepted. *)
Definition next (m : cmach) (ths : list cthread) (es : list event) (ws : list Z) (s' : cst) : cmach :=
  CM (leave s') ths (clog m ++ es) (written m ++ ws).

(** What the caller of [consoleread] finds in its memory, from the result. *)
Definition saw (u : U) (target dst n : Z) (r : cres) : list event :=
  match r with
  | CAsleep _ k => EGot <$> user_data u dst 0 (n - k)
  | CRet v =>
      if v =? -1 then [EKilled] else
      let left := s32 (target - v) in
      let l := user_data u dst 0 (n - left) in
      (EGot <$> l) ++
      (if (left <=? 0) || bool_decide (last l = Some 10) then []
       else if no_store u (u64 (dst + (n - left))) then [EFault] else if v =? 0 then [EEof] else [])
  end.

(** The threads after a call that left [s']; with [lossy] sleepers may miss it. *)
Definition woken (lossy : bool) (m : cmach) (s' : cst) (ths : list cthread) : Prop :=
  wakes lossy (wake_cthread (woke_r s') (woke_t s')) (cths m) ths.

Inductive cstep (lossy : bool) (m : cmach) : cmach → Prop :=
  | c_read t target dst n killed u p r s' ths :
      (cths m !! t = Some CIdle ∧ target = u32 n ∧ s32 n = n ∧ u64 dst = dst) ∨ cths m !! t = Some (CRReady target dst n) → sched_ok p →
      consoleread killed target dst n (enter u p (st m)) = Ok r s' → woken lossy m s' ths →
      cstep lossy m (next m (<[t := match r with CRet _ => CIdle | CAsleep d k => CRSleep target d k end]> ths) (saw (cum s') target dst n r) [] s')
  | c_open t src n :
      cths m !! t = Some CIdle → cstep lossy m (CM (st m) (<[t := CWriting src n 0]> (cths m)) (clog m) (written m))
  | c_write t src n i c u p i' s' ths :
      cths m !! t = Some (CWriting src n i) → sched_ok p → copyin1 (u64 (src + i)) u = Some c →
      consolewrite_body src n i (enter u p (st m)) = Ok (inl i') s' → woken lossy m s' ths →
      cstep lossy m (next m (<[t := CWriting src n i']> ths) [] [c] s')
  | c_write_end t src n i u p r s' ths :
      cths m !! t = Some (CWriting src n i) → sched_ok p →
      consolewrite_body src n i (enter u p (st m)) = Ok (inr r) s' → woken lossy m s' ths →
      cstep lossy m (next m (<[t := CIdle]> ths) [] [] s')
  | c_write_sleep t src n i c u p s' ths :
      cths m !! t = Some (CWriting src n i) → sched_ok p → copyin1 (u64 (src + i)) u = Some c →
      consolewrite_body src n i (enter u p (st m)) = Blocked s' → woken lossy m s' ths →
      cstep lossy m (next m (<[t := CWSleep src n i c]> ths) [] [] s')
  | c_write_again t src n i c u p s' ths :
      cths m !! t = Some (CWReady src n i c) → sched_ok p → uartputc c (enter u p (st m)) = Ok tt s' → woken lossy m s' ths →
      cstep lossy m (next m (<[t := CWriting src n (i + 1)]> ths) [] [c] s')
  | c_write_back t src n i c u p s' ths :
      cths m !! t = Some (CWReady src n i c) → sched_ok p → uartputc c (enter u p (st m)) = Blocked s' → woken lossy m s' ths →
      cstep lossy m (next m (<[t := CWSleep src n i c]> ths) [] [] s')
  | c_intr u p s' ths :
      sched_ok p → uartintr (enter u p (st m)) = Ok tt s' → woken lossy m s' ths →
      cstep lossy m (next m ths (EKey <$> drop (length (processed (hw (st m)))) (processed (hw s'))) [] s')
  | c_device k a :
      Forall (λ c, 0 ≤ c < 256) a → cstep lossy m (CM (set_hw (advance k a (hw (st m))) (st m)) (cths m) (clog m) (written m))
  | c_kill t x :
      cths m !! t = Some x → cstep lossy m (CM (st m) (<[t := wake_cthread true true x]> (cths m)) (clog m) (written m)).

(** After [consoleinit], with whatever the buffers held. *)
Definition cst0 (u : U) (procs : list proc) (junk1 junk2 : list Z) : cst :=
  CST junk1 0 0 0 junk2 0 0 0 (Uart [] [] [] [] false []) u procs false false.
Definition cmach0 (u : U) (procs : list proc) (junk1 junk2 : list Z) (nt : nat) : cmach :=
  CM (cst0 u procs junk1 junk2) (replicate nt CIdle) [] [].

(** ** The invariant *)

(** The parts of the invariant that concern the state and the logs. *)
Record CI (procs : list proc) (s : cst) (es : list event) (ws : list Z) (a : editor) (l : list Z) : Prop := {
  ci_cs : CS s a;
  ci_ct : CT s l;
  ci_bytes : Forall (λ c, 0 ≤ c < 256) l;
  ci_in : Forall (λ c, 0 ≤ c < 256) (com a ++ ed a);
  ci_run : esteps (listing procs) es (Ed [] []) a (bytes_on Echo (wire (hw s) ++ thr (hw s)));
  ci_written : ws = bytes_on Write (wire (hw s) ++ thr (hw s)) ++ l;
  ci_keys : rcvd (hw s) = keys_of es ++ rx (hw s);
  ci_rx : Forall (λ c, 0 ≤ c < 256) (rx (hw s));
  ci_busy : l ≠ [] → busy (hw s);
  ci_env : panicked s = 0 ∧ ptab s = procs
}.

Record CInv (lossy : bool) (procs : list proc) (m : cmach) (a : editor) (l : list Z) : Prop := {
  cv_ci : CI procs (st m) (clog m) (written m) a l;
  cv_thr : Forall cthread_ok (cths m);
  cv_reader : lossy = false → ∀ t g d n, cths m !! t = Some (CRSleep g d n) → com a = [];
  cv_writer : lossy = false → ∀ t g n i c, cths m !! t = Some (CWSleep g n i c) → length l = 32%nat
}.

(** A call by a process or the interrupt handler: [ks] was read, [e] echoed and
    [sent] handed to the transmitter. *)
Lemma CI_flow procs s es ws a l u p s' ks es' ws' a' e sent rest :
  CI procs s es ws a l → sched_ok p → flow ks (echoed e ++ sends sent) (hw (enter u p s)) (hw s') → CS s' a' → CT s' rest →
  l ++ ws' = sent ++ rest → Forall (λ c, 0 ≤ c < 256) ws' → esteps (listing procs) es' a a' e → Forall (λ c, 0 ≤ c < 256) (com a' ++ ed a') → keys_of es' = ks →
  (rest ≠ [] → busy (hw s')) → panicked s' = panicked s → ptab s' = ptab s → CI procs (leave s') (es ++ es') (ws ++ ws') a' rest.
Proof.
  intros [HC HT Hb Hin Hrun Hwr Hk Hrx Hbusy [Hp Hpt]] Hsched Hf HC' HT' Hl Hw' Hrun' Hin' <- Hbusy' Ep Ept.
  assert (bytes_in (hw (enter u p s))) as Hbi.
  { unfold bytes_in, arr. cbn. apply Forall_app. split; [done|]. unfold sched_ok in Hsched. apply Forall_concat, Forall_fmap. by eapply Forall_impl; [exact Hsched|]. }
  destruct (flow_bytes _ _ _ _ Hf Hbi) as [Hbi' Hks]. destruct Hf as [O (ar & Hx & Hr & Ha) _]. cbn in O, Hx, Hr.
  assert (wire (hw (leave s')) ++ thr (hw (leave s')) = (wire (hw s) ++ thr (hw s)) ++ echoed e ++ sends sent) as O' by (by rewrite <-(assoc_L (++))).
  split.
  - by eapply CS_ext, HC'.
  - exact HT'.
  - assert (Forall (λ c, 0 ≤ c < 256) (sent ++ rest)) as Hall by (rewrite <-Hl; by apply Forall_app). by apply Forall_app in Hall as [_ ?].
  - done.
  - rewrite O', bytes_on_app, (bytes_on_app _ (echoed e)). unfold echoed, sends. rewrite !bytes_on_path. cbn. rewrite app_nil_r. by eapply esteps_app.
  - rewrite Hwr, O', !bytes_on_app. unfold echoed, sends. rewrite !bytes_on_path. cbn. by rewrite <-!(assoc_L (++)), Hl.
  - cbn. rewrite Hr, Hk, keys_of_app, <-!(assoc_L (++)), Hx. done.
  - unfold bytes_in in Hbi'. by apply Forall_app in Hbi' as [? _].
  - exact Hbusy'.
  - cbn. by rewrite Ep, Ept.
Qed.

(** The device on its own. *)
Lemma CI_device procs s es ws a l k ar : CI procs s es ws a l → Forall (λ c, 0 ≤ c < 256) ar → CI procs (set_hw (advance k ar (hw s)) s) es ws a l.
Proof.
  intros [HC HT Hb Hin Hrun Hwr Hk Hrx Hbusy He] Har. assert (wire (advance k ar (hw s)) ++ thr (advance k ar (hw s)) = wire (hw s) ++ thr (hw s)) as O by (cbn; by rewrite <-(assoc_L (++)), take_drop).
  split; cbn [hw set_hw]; rewrite ?O; try done.
  - by eapply CS_ext, HC.
  - cbn. by rewrite Hk, <-(assoc_L (++)).
  - cbn. by apply Forall_app.
  - intros Hl. destruct (Hbusy Hl) as [Ht|Ht]; unfold busy, advance; cbn; [|right; by rewrite Ht]. destruct (drop k (thr (hw s))) eqn:E; [right|by left].
    destruct (thr (hw s)); [done|]. cbn. by rewrite orb_true_r.
Qed.

Lemma CI_lines procs s es ws a l : CI procs s es ws a l → lines s = com a ∧ typing s = ed a ∧ waiting s = l.
Proof.
  intros HCI. pose proof (ci_cs _ _ _ _ _ _ HCI) as [Hr Hw _]. destruct (rb_split _ _ in_size in_divides _ _ _ _ _ Hr) as [H1 H2]. unfold u32 in Hw. rewrite <-Hw in H1, H2.
  split; [exact (rb_contents_eq _ _ in_size _ _ _ _ H1)|]. split; [exact (rb_contents_eq _ _ in_size _ _ _ _ H2)|]. exact (rb_contents_eq _ _ tx_size _ _ _ _ (ci_ct _ _ _ _ _ _ HCI)).
Qed.

Lemma CS_lines s a : CS s a → lines s = com a.
Proof. intros [Hr Hw _]. destruct (rb_split _ _ in_size in_divides _ _ _ _ _ Hr) as [H1 _]. unfold u32 in Hw. rewrite <-Hw in H1. exact (rb_contents_eq _ _ in_size _ _ _ _ H1). Qed.

Lemma CI_processed procs s es ws a l : CI procs s es ws a l → processed (hw s) = keys_of es.
Proof. intros HCI. unfold processed. rewrite (ci_keys _ _ _ _ _ _ HCI), length_app, Nat.add_sub. by rewrite take_app_length. Qed.

Lemma CS_enter u p s a : CS s a → CS (enter u p s) a.
Proof. by apply CS_ext. Qed.

(** *** Threads *)

(** Every thread that was woken or not still has arguments in range. *)
Lemma woken_ok lossy m s' ths : woken lossy m s' ths → Forall cthread_ok (cths m) → Forall cthread_ok ths.
Proof.
  unfold woken. intros Hw Hm. revert Hm. induction Hw as [|y z l l' Hy _ IH]; [done|]. intros [Hc Hl]%Forall_cons. constructor; [|by apply IH].
  destruct Hy as [->|[_ ->]]; [|done]. by destruct y, (woke_r s'), (woke_t s').
Qed.

(** What must hold of a thread that has just gone to sleep. *)
Definition asleep_ok (a : editor) (l : list Z) (x : cthread) : Prop :=
  cthread_ok x ∧ match x with CRSleep _ _ _ => com a = [] | CWSleep _ _ _ _ => length l = 32%nat | _ => True end.

(** After a call: sleepers that are still asleep were not woken. *)
Lemma CInv_next lossy procs m a l a' l' s' ths0 ths es ws :
  CInv lossy procs m a l → woken lossy m s' ths0 → CI procs (leave s') (clog m ++ es) (written m ++ ws) a' l' →
  (∀ i x, ths !! i = Some x → ths0 !! i = Some x ∨ asleep_ok a' l' x) →
  (com a = [] → com a' = [] ∨ woke_r s' = true) → (length l = 32%nat → length l' = 32%nat ∨ woke_t s' = true) →
  CInv lossy procs (next m ths es ws s') a' l'.
Proof.
  intros [_ HO HR HW] Hwk HCI Hths Hr Hw. split; [done|..]; cbn.
  - apply Forall_lookup. intros i x Hx. apply Hths in Hx as [Hx|[Hx _]]; [|done]. exact (Forall_lookup_1 _ _ _ _ (woken_ok _ _ _ _ Hwk HO) Hx).
  - intros -> t g d n Ht. apply Hths in Ht as [Ht|[_ Ht]]; [|done]. destruct (wakes_lookup _ _ _ _ Hwk Ht) as (y & Hy & [Ey|[? _]]); [|done].
    destruct y; cbn in Ey; repeat case_match; try discriminate. simplify_eq. destruct (Hr (HR eq_refl _ _ _ _ Hy)) as [?|?]; [done|congruence].
  - intros -> t g n i c Ht. apply Hths in Ht as [Ht|[_ Ht]]; [|done]. destruct (wakes_lookup _ _ _ _ Hwk Ht) as (y & Hy & [Ey|[? _]]); [|done].
    destruct y; cbn in Ey; repeat case_match; try discriminate. simplify_eq. destruct (Hw (HW eq_refl _ _ _ _ _ Hy)) as [?|?]; [done|congruence].
Qed.

Lemma insert_threads (l : list cthread) t x (P : cthread → Prop) : P x → ∀ i y, <[t := x]> l !! i = Some y → l !! i = Some y ∨ P y.
Proof. intros Hx i y. rewrite list_lookup_insert_Some. naive_solver. Qed.

Lemma enter_facts lossy procs m a l u p : CInv lossy procs m a l →
  CS (enter u p (st m)) a ∧ CT (enter u p (st m)) l ∧ panicked (enter u p (st m)) = 0 ∧ ptab (enter u p (st m)) = procs ∧ Forall (λ c, 0 ≤ c < 256) l.
Proof. intros [HCI _ _ _]. destruct HCI as [HC HT Hb _ _ _ _ _ _ [Hp Hpt]]. by split; [apply CS_enter|]. Qed.

(** A character accepted by [uartputc]. *)
Lemma CInv_put lossy procs m a l u p c s' t x ths : CInv lossy procs m a l → sched_ok p → 0 ≤ c < 256 → uartputc c (enter u p (st m)) = Ok tt s' →
  woken lossy m s' ths → (∀ l', asleep_ok a l' x) → ∃ l', CInv lossy procs (next m (<[t := x]> ths) [] [c] s') a l'.
Proof.
  intros HI Hs Hc Hrun Hwk Hx. destruct (enter_facts _ _ _ _ _ u p HI) as (HC & HT & Hp & Hpt & Hb).
  assert (length l ≠ 32%nat) as Hl by (intros E; rewrite (uartputc_full c _ l HT Hp E) in Hrun; discriminate).
  pose proof (uartputc_ok c _ l HT Hp Hl Hb) as Hwp. apply (wp_run _ _ _ _ _ Hwp) in Hrun as (sent & rest & Hsr & [HT' Hf (E1 & E2 & E3 & E4 & E5 & E6 & E7 & E8) Hw] & Hbusy).
  assert (u8 c = c) as Hu by (unfold u8; by apply Z.mod_small). rewrite Hu in Hsr. pose proof (cv_ci _ _ _ _ _ HI) as HCI.
  exists rest. eapply (CInv_next _ _ _ a l); [done|done| | |by left|].
  - eapply (CI_flow procs (st m) _ _ a l u p s' [] [] [c] a [] sent rest); try done; [by eapply CS_ext, HC|by apply Forall_singleton|constructor|apply HCI].
  - by apply insert_threads.
  - intros E. done.
Qed.

Lemma uartputc_blocked lossy procs m a l u p c s' : CInv lossy procs m a l → uartputc c (enter u p (st m)) = Blocked s' → s' = enter u p (st m) ∧ length l = 32%nat.
Proof.
  intros HI Hrun. destruct (enter_facts _ _ _ _ _ u p HI) as (HC & HT & Hp & Hpt & Hb). destruct (decide (length l = 32%nat)) as [E|E].
  - rewrite (uartputc_full c _ l HT Hp E) in Hrun. by injection Hrun as <-.
  - pose proof (uartputc_ok c _ l HT Hp E Hb) as Hwp. unfold wp in Hwp. by rewrite Hrun in Hwp.
Qed.

(** A call that did nothing but sleep or return. *)
Lemma CInv_idle lossy procs m a l u p t x ths : CInv lossy procs m a l → sched_ok p → asleep_ok a l x → woken lossy m (enter u p (st m)) ths →
  CInv lossy procs (next m (<[t := x]> ths) [] [] (enter u p (st m))) a l.
Proof.
  intros HI Hs Hx Hwk. destruct (enter_facts _ _ _ _ _ u p HI) as (HC & HT & Hp & Hpt & Hb). pose proof (cv_ci _ _ _ _ _ HI) as HCI.
  eapply (CInv_next _ _ _ a l); [done|done| |by apply insert_threads|by left|by left].
  eapply (CI_flow procs (st m) _ _ a l u p _ [] [] [] a [] [] l); try done; [apply flow_refl|by rewrite app_nil_r|constructor|apply HCI|].
  intros Hl. exact (ci_busy _ _ _ _ _ _ HCI Hl).
Qed.

(** [store] goes through the addresses of one buffer. *)
Lemma store_put u dst i l : store u (u64 (dst + i)) l = put_bytes u dst i l.
Proof.
  revert u i. induction l as [|x l IH]; intros u i; cbn; [done|]. destruct (copyout1 _ x u) as [u1|]; cbn; [|done].
  rewrite <-IH. f_equal. unfold u64. rewrite Zplus_mod_idemp_l. f_equal. lia.
Qed.

Lemma after_addr dst i l : after (u64 (dst + i)) l = u64 (dst + (i + Z.of_nat (length l))).
Proof.
  unfold after. revert i. induction l as [|x l IH]; intros i; cbn [foldl length]; [f_equal; lia|].
  replace (u64 (u64 (dst + i) + 1)) with (u64 (dst + (i + 1))); [rewrite IH; f_equal; lia|]. unfold u64. rewrite Zplus_mod_idemp_l. f_equal. lia.
Qed.

Lemma s32_left a b : s32 (a - s32 (a - b)) = s32 b.
Proof. unfold s32. zdm. Qed.

(** What the caller finds accounts for what was taken. *)
Lemma saw_ok L killed target dst n (s s' : cst) a r : rd_ok target dst n → Forall (λ c, 0 ≤ c < 256) (com a) → read_post killed target dst n s a r s' →
  ∃ c', CS s' (Ed c' (ed a)) ∧ (∃ k, com a = k ++ c') ∧ same_out s s' ∧ esteps L (saw (cum s') target dst n r) a (Ed c' (ed a)) [] ∧
  match r with CRet _ => True | CAsleep d k => c' = [] ∧ rd_ok target d k end.
Proof.
  intros [Hdst Hn] Hall (got & lost & c' & Hcom & HC & Hst & Hsame & _ & _ & Hlen & Hr). exists c'. split; [done|]. split; [exists (got ++ lost); by rewrite <-(assoc_L (++))|]. split; [done|].
  assert (u64 (dst + 0) = dst) as E0 by (rewrite Z.add_0_r; unfold u64; by apply Z.mod_small).
  rewrite Hcom in Hall. apply Forall_app in Hall as [Hgot _]. rewrite <-E0, store_put in Hst.
  destruct (put_bytes_there _ _ _ _ _ Hst) as [Hub _]; [lia|lia|done|]. apply user_bytes_data in Hub.
  assert (a = Ed (got ++ lost ++ c') (ed a)) as Ea by (rewrite <-Hcom; by destruct a). rewrite Ea at 1.
  assert (esteps L (EGot <$> got) (Ed (got ++ lost ++ c') (ed a)) (Ed (lost ++ c') (ed a)) []) as HG by apply esteps_got.
  destruct r as [v|d k]; cbn [saw] in *.
  2: { destruct Hr as (_ & -> & -> & -> & -> & Hk & _). replace (n - (n - Z.of_nat (length got))) with (Z.of_nat (length got)) by lia.
       rewrite Hub. split; [done|]. split; [done|]. rewrite <-E0, after_addr. split; [unfold u64; zdm|lia]. }
  split; [|done]. destruct Hr as [(_ & -> & -> & ->)|[Hv Hr]]; [cbn; apply esteps_one; constructor|].
  set (left := n - Z.of_nat (length got)) in *. assert (s32 (target - v) = left) as El by (rewrite Hv, s32_left; apply s32_id; lia).
  assert (0 ≤ v ∧ (0 < left → v = target - left)) as [Hv0 Hvl].
  { destruct Hn as [[Hn ->]|Hn]; [|rewrite Hv, s32_id; lia]. assert (left = n) as -> by lia. split; [|lia]. rewrite Hv. unfold s32, u32. zdm. }
  rewrite El. replace (n - left) with (Z.of_nat (length got)) by lia. rewrite Hub, (proj2 (Z.eqb_neq v (-1))) by lia.
  rewrite <-(app_nil_r (@nil Z)). eapply esteps_app; [exact HG|].
  replace (after dst got) with (u64 (dst + Z.of_nat (length got))) in Hr by (rewrite <-E0 at 2; rewrite after_addr; f_equal; lia).
  assert (Forall (λ c, c ≠ 10) got → 0 < left → (left <=? 0) || bool_decide (last got = Some 10) = false) as Hno.
  { intros H10 Hl. rewrite (proj2 (Z.leb_gt _ _) Hl). cbn. apply bool_decide_eq_false. intros Elast%last_Some_elem_of.
    by apply (proj1 (Forall_forall _ _) H10 10 Elast). }
  destruct Hr as [(-> & Hend)|[(Hl & H10 & rest & Erest & ->)|(Hl & H10 & x & -> & Hf)]].
  - destruct (_ || _) eqn:Eb; [constructor|]. apply orb_false_iff in Eb as [E1 E2]. apply Z.leb_gt in E1. apply bool_decide_eq_false in E2. destruct Hend; [lia|done].
  - rewrite (Hno H10 Hl). replace (u32 left) with left in * by (unfold u32; rewrite Z.mod_small; lia). destruct (Z.ltb_spec left target) as [Ht|Ht].
    + rewrite (proj2 (Z.eqb_neq v 0)) by (rewrite Hvl; lia). destruct (no_store _ _); [apply esteps_one|]; constructor.
    + cbn in Erest. rewrite (proj2 (Z.eqb_eq v 0)) by (rewrite Hvl; lia). destruct (no_store _ _); apply esteps_one; constructor.
  - rewrite (Hno H10 Hl). unfold no_store. rewrite (copyout1_fault _ _ 0 _ Hf). apply esteps_one. constructor.
Qed.

Lemma keys_of_saw u target dst n r : keys_of (saw u target dst n r) = [].
Proof.
  assert (∀ l, keys_of (EGot <$> l) = []) as HG by (by intros l; induction l). destruct r as [v|d k]; cbn; [|apply HG].
  case_match; [done|]. rewrite keys_of_app, HG. by repeat case_match.
Qed.

Lemma rd_start n dst : s32 n = n → u64 dst = dst → rd_ok (u32 n) dst n.
Proof. intros Hn Hd. pose proof (s32_range n). unfold rd_ok, u32. unfold u64 in Hd. split; [zdm|]. destruct (decide (n ≤ 0)); [left; lia|right]. zdm. Qed.

Lemma CInv_read lossy procs m a l u p killed target dst n r s' t ths : CInv lossy procs m a l → sched_ok p → rd_ok target dst n →
  consoleread killed target dst n (enter u p (st m)) = Ok r s' → woken lossy m s' ths →
  ∃ a', CInv lossy procs (next m (<[t := match r with CRet _ => CIdle | CAsleep d k => CRSleep target d k end]> ths) (saw (cum s') target dst n r) [] s') a' l.
Proof.
  intros HI Hs Hrd Hrun Hwk. destruct (enter_facts _ _ _ _ _ u p HI) as (HC & HT & Hp & Hpt & Hb). pose proof (cv_ci _ _ _ _ _ HI) as HCI.
  pose proof (ci_in _ _ _ _ _ _ HCI) as Hin. pose proof (proj1 (proj1 (Forall_app _ _ _) Hin)) as Hin'.
  apply (wp_run _ _ _ _ _ (consoleread_ok killed target dst n _ a HC)), (saw_ok (listing procs) _ _ _ _ _ _ _ _ Hrd Hin') in Hrun
    as (c' & HC' & (k & Ek) & (E1 & E2 & E3 & E4 & E5 & E6 & E7 & E8) & Hsteps & Hr).
  exists (Ed c' (ed a)). eapply (CInv_next _ _ _ a l); [done|done| | | |by left].
  - eapply (CI_flow procs (st m) _ _ a l u p s' [] _ [] _ [] [] l); try done;
      [rewrite E5; apply flow_refl|unfold CT; by rewrite E1, E2, E3|by rewrite app_nil_r| |apply keys_of_saw|].
    + cbn. rewrite Ek in Hin. rewrite <-(assoc_L (++)) in Hin. by apply Forall_app in Hin as [_ ?].
    + rewrite E5. intros Hl. exact (ci_busy _ _ _ _ _ _ HCI Hl).
  - apply insert_threads. destruct r; [done|]. destruct Hr as [-> ?]. done.
  - intros E. left. cbn. rewrite E in Ek. symmetry in Ek. by apply app_nil in Ek as [_ ?].
Qed.

Lemma Forall_removelast {A} (P : A → Prop) (l : list A) : Forall P l → Forall P (removelast l).
Proof. destruct l as [|x l] using rev_ind; [done|]. rewrite removelast_last. by intros [? _]%Forall_app. Qed.

Lemma key_bytes L c a : Forall (λ c, 0 ≤ c < 256) (com a ++ ed a) → Forall (λ c, 0 ≤ c < 256) (com (key L c a).1 ++ ed (key L c a).1).
Proof.
  intros H. pose proof H as [Hc He]%Forall_app. assert (∀ x, 0 ≤ u8 x < 256) as Hu by (intros x; unfold u8; zdm).
  unfold key. repeat case_match; cbn [fst com ed]; rewrite ?app_nil_r; try done; apply Forall_app; split; try done; try (apply Forall_app; split; [done|by apply Forall_singleton]).
  - match goal with E : ed a = _ |- _ => by rewrite E end.
  - by apply Forall_removelast.
Qed.

Lemma keys_bytes L ks a : Forall (λ c, 0 ≤ c < 256) (com a ++ ed a) → Forall (λ c, 0 ≤ c < 256) (com (keys_run L ks a).1 ++ ed (keys_run L ks a).1).
Proof.
  revert a. induction ks as [|c ks IH]; intros a Ha; cbn; [done|]. pose proof (key_bytes L c a Ha) as H1. destruct (key L c a) as [a1 e1].
  specialize (IH a1 H1). by destruct (keys_run L ks a1).
Qed.

Lemma CInv_intr lossy procs m a l u p s' ths : CInv lossy procs m a l → pids_ok procs → sched_ok p → uartintr (enter u p (st m)) = Ok tt s' → woken lossy m s' ths →
  ∃ a' l', CInv lossy procs (next m ths (EKey <$> drop (length (processed (hw (st m)))) (processed (hw s'))) [] s') a' l'.
Proof.
  intros HI Hpid Hs Hrun Hwk. destruct (enter_facts _ _ _ _ _ u p HI) as (HC & HT & Hp & Hpt & Hb). pose proof (cv_ci _ _ _ _ _ HI) as HCI.
  assert (bytes_in (hw (enter u p (st m)))) as Hbi.
  { unfold bytes_in, arr. cbn. apply Forall_app. split; [apply HCI|]. apply Forall_concat, Forall_fmap. by eapply Forall_impl; [exact Hs|]. }
  rewrite <-Hpt in Hpid. apply (wp_run _ _ _ _ _ (uartintr_ok _ a l HC HT Hp Hpid Hbi Hb)) in Hrun as (ks & sent & rest & Hl & HC' & HT' & Hf & Hbusy & E1 & E2 & E3 & Hw1 & Hw2).
  rewrite Hpt in *. assert (drop (length (processed (hw (st m)))) (processed (hw s')) = ks) as ->.
  { rewrite (CI_processed _ _ _ _ _ _ HCI). destruct Hf as [_ (ar & Hx & Hr & _) _]. cbn in Hx, Hr. rewrite (ci_keys _ _ _ _ _ _ HCI), <-(assoc_L (++)), Hx in Hr.
    unfold processed. rewrite Hr, !length_app. replace (_ - _)%nat with (length (keys_of (clog m) ++ ks)) by (rewrite length_app; lia). by rewrite (assoc_L (++)), take_app_length, drop_app_length. }
  exists (keys_run (listing procs) ks a).1, rest. eapply (CInv_next _ _ _ a l); [done|done| |by left| |].
  - eapply (CI_flow procs (st m) _ _ a l u p s' ks _ [] _ _ sent rest); try done;
      [by rewrite app_nil_r|apply esteps_keys|apply keys_bytes, HCI|by rewrite keys_of_keys|by rewrite E3, <-Hpt].
  - intros E. by rewrite E in Hw1.
  - intros E. destruct Hw2 as [->|?]; [left|by right]. cbn in Hl. by subst l.
Qed.

Lemma CInv_step lossy procs m m' a l : pids_ok procs → CInv lossy procs m a l → cstep lossy m m' → ∃ a' l', CInv lossy procs m' a' l'.
Proof.
  intros Hpid HI Hst. pose proof (λ t x, Forall_lookup_1 _ _ t x (cv_thr _ _ _ _ _ HI)) as Hok.
  destruct Hst as [t target dst n killed u p r s' ths Ht Hs Hrun Hwk|t src n Ht|t src n i c u p i' s' ths Ht Hs Hc Hrun Hwk|t src n i u p r s' ths Ht Hs Hrun Hwk
    |t src n i c u p s' ths Ht Hs Hc Hrun Hwk|t src n i c u p s' ths Ht Hs Hrun Hwk|t src n i c u p s' ths Ht Hs Hrun Hwk|u p s' ths Hs Hrun Hwk|k ar Har|t x Ht].
  - assert (rd_ok target dst n) as Hrd by (destruct Ht as [(_ & -> & Hn & Hd)|Ht]; [by apply rd_start|exact (Hok _ _ Ht)]).
    destruct (CInv_read _ _ _ _ _ _ _ _ _ _ _ _ _ t _ HI Hs Hrd Hrun Hwk) as (a' & H). eauto.
  - exists a, l. destruct HI as [H1 H0 H2 H3]. split; [done|by apply Forall_insert|..]; cbn; intros E t0 * Hi; apply list_lookup_insert_Some in Hi as [(_ & [=] & _)|[_ Hi]]; eauto.
  - unfold consolewrite_body in Hrun. destruct (i <? n); [|discriminate]. unfold mbind, M_bind, getS in Hrun. cbn [cum enter] in Hrun. rewrite Hc in Hrun.
    destruct (uartputc c (enter u p (st m))) as [[] s1| | |] eqn:E; try discriminate. injection Hrun as <- <-.
    destruct (CInv_put lossy procs m a l u p c s1 t (CWriting src n (i + 1)) ths HI Hs (copyin1_byte _ _ _ Hc) E Hwk) as (l' & H); [done|]. eauto.
  - exists a, l. assert (s' = enter u p (st m)) as ->; [|by apply CInv_idle]. unfold consolewrite_body in Hrun. destruct (i <? n); [|by injection Hrun as _ <-].
    unfold mbind, M_bind, getS in Hrun. destruct (copyin1 _ _); [|by injection Hrun as _ <-]. by destruct (uartputc z (enter u p (st m))).
  - unfold consolewrite_body in Hrun. destruct (i <? n); [|discriminate]. unfold mbind, M_bind, getS in Hrun. cbn [cum enter] in Hrun. rewrite Hc in Hrun.
    destruct (uartputc c (enter u p (st m))) as [[] s1| |s1|] eqn:E; try discriminate. injection Hrun as <-. destruct (uartputc_blocked _ _ _ _ _ _ _ _ _ HI E) as [-> Hl].
    exists a, l. apply CInv_idle; [done|done|split; [by eapply copyin1_byte|done]|done].
  - destruct (CInv_put lossy procs m a l u p c s' t (CWriting src n (i + 1)) ths HI Hs (Hok _ _ Ht) Hrun Hwk) as (l' & H); [done|]. eauto.
  - destruct (uartputc_blocked _ _ _ _ _ _ _ _ _ HI Hrun) as [-> Hl]. exists a, l. apply CInv_idle; [done|done|split; [exact (Hok _ _ Ht)|done]|done].
  - by eapply CInv_intr.
  - exists a, l. destruct HI as [H1 H0 H2 H3]. split; [by apply CI_device|done..].
  - exists a, l. pose proof (Hok _ _ Ht) as Hx. destruct HI as [H1 H0 H2 H3]. split; [done|..]; cbn.
    + apply Forall_insert; [done|]. by destruct x.
    + intros E t0 g d n Hi. apply list_lookup_insert_Some in Hi as [(-> & Ex & _)|[_ Hi]]; [by destruct x|eauto].
    + intros E t0 g n i c Hi. apply list_lookup_insert_Some in Hi as [(-> & Ex & _)|[_ Hi]]; [by destruct x|eauto].
Qed.

Lemma CInv_reach lossy procs u j1 j2 nt m : pids_ok procs → length j1 = 128%nat → length j2 = 32%nat → rtc (cstep lossy) (cmach0 u procs j1 j2 nt) m → ∃ a l, CInv lossy procs m a l.
Proof.
  intros Hpid H1 H2 Hr. assert (CInv lossy procs (cmach0 u procs j1 j2 nt) (Ed [] []) []) as H0.
  { assert (CS (cst0 u procs j1 j2) (Ed [] [])) as HC by (split; cbn; [by apply (rb_init _ _ in_size)|done|constructor]).
    assert (CT (cst0 u procs j1 j2) []) as HT by (by apply (rb_init _ _ tx_size)).
    split; [split; try done; constructor|..]; cbn.
    - by apply Forall_replicate.
    - intros _ t g d n Ht. by apply lookup_replicate in Ht as [? _].
    - intros _ t g n i c Ht. by apply lookup_replicate in Ht as [? _]. }
  assert (∃ a l, CInv lossy procs (cmach0 u procs j1 j2 nt) a l) as H0' by eauto. clear H0. revert H0'. induction Hr as [m|m m1 m2 Hs Hr IH]; [done|].
  intros (a & l & H0). apply IH. by eapply CInv_step.
Qed.
End machine.


(** The keys h, x, backspace, i and return arrive and are handled; a process reads
    two bytes of the line. *)
Lemma console_run : ∃ m, rtc (cstep (U := list Z) false) (cmach0 [] [] (replicate 128 0) (replicate 32 0) 1) m ∧
  clog m = (EKey <$> [104; 120; 8; 105; 13]) ++ [EGot 104; EGot 105] ∧ lines (st m) = [10] ∧ typing (st m) = [] ∧
  bytes_on Echo (wire (hw (st m)) ++ thr (hw (st m))) = [104; 120; 8; 32; 8; 105; 10].
Proof.
  eexists. split.
  - eapply rtc_l; [apply (c_device _ _ 0 [104; 120; 8; 105; 13]); repeat (apply Forall_cons; split; [lia|]); apply Forall_nil_2|].
    eapply rtc_l; [eapply (c_intr _ _ [] []); [apply Forall_nil_2|vm_compute; reflexivity|apply wakes_all]|].
    eapply rtc_l; [eapply (c_read _ _ 0 2 1 2 false [0; 0; 0; 0] []);
      [left; split; [reflexivity|vm_compute; done]|apply Forall_nil_2|vm_compute; reflexivity|apply wakes_all]|]. apply rtc_refl.
  - vm_compute. done.
Qed.


(** [consoleread] gives a reader at most one line: it stores a prefix of the lines
    that have arrived, in order and up to the count asked for, a newline only at
    its end and never an end-of-file character.  It returns the number of bytes it
    stored when the count is reached, after a newline, at an end of file (taken
    when nothing was stored, left for the next call otherwise) and at a fault of
    the caller's memory, which loses one character; it returns -1 when killed, and
    sleeps only with nothing left to read. *)
Theorem consoleread_spec {U} {UM : UserMem U} killed target dst n (s : @cst U) a (Ha : CS s a) :
  wp (consoleread killed target dst n) (read_post killed target dst n s a) s.
Proof. by apply consoleread_ok. Qed.

Lemma consoleread_spec_witness :
  let s := set_cons ([104; 105; 10; 120] ++ replicate 124 0) 0 3 4 (cst0 [0; 0; 0; 0; 0; 0] [] (replicate 128 0) (replicate 32 0)) in
  wp (consoleread false 5 1 5) (λ r s', r = CRet 3 ∧ cum s' = [0; 104; 105; 10; 0; 0]) s.
Proof.
  intros s. assert (CS s (Ed [104; 105; 10] [120])) as HC.
  { split; [|reflexivity|repeat constructor; done]. split; [reflexivity|cbn; lia|reflexivity|cbn; unfold INPUT_BUF_SIZE; lia|].
    intros k x Hk. do 4 (destruct k as [|k]; [injection Hk as <-; reflexivity|]). discriminate Hk. }
  pose proof (consoleread_spec false 5 1 5 s (Ed [104; 105; 10] [120]) HC) as H. apply wp_ok in H as (r & s' & E & _).
  vm_compute in E. injection E as <- <-. vm_compute. split; reflexivity.
Defined.
