(* ===== verification/Procmem.v ===== *)
(** * Address spaces of processes and who owns which page (kernel/proc.c)

    [proc_pagetable] and [proc_freepagetable]: an address space with the
    trampoline and the trapframe mapped above user memory.  [OWN] says that every
    page belongs to one process, to the kernel or to the free list; the operations
    of [Vm] and [Kalloc] are specified on it, with what they leave alone ([kept]). *)

From S2P Require Import Prelude Machine Mem Kalloc Vm Vmspec Uvm Ucopy.

Section procmem.
Context `{LY : Layout}.

(** [proc_pagetable(p)], with [p->trapframe]. *)
Definition proc_pagetable (trapframe : Z) : M mst Z :=
  pagetable ← uvmcreate;
  if pagetable =? 0 then mret 0 else
  r ← mappages pagetable TRAMPOLINE PGSIZE trampoline (Z.lor PTE_R PTE_X);
  if r <? 0 then uvmfree pagetable 0;; mret 0 else
  r ← mappages pagetable TRAPFRAME PGSIZE trapframe (Z.lor PTE_R PTE_W);
  if r <? 0 then uvmunmap pagetable TRAMPOLINE 1 false;; uvmfree pagetable 0;; mret 0
  else mret pagetable.

Definition proc_freepagetable (pagetable sz : Z) : M mst unit :=
  uvmunmap pagetable TRAMPOLINE 1 false;;
  uvmunmap pagetable TRAPFRAME 1 false;;
  uvmfree pagetable sz.

(** ** The two pages above user memory *)

Definition sys_page (va : Z) : Prop := va = TRAPFRAME ∨ va = TRAMPOLINE.

Lemma sys_page_range va : sys_page va → va mod PGSIZE = 0 ∧ 0 ≤ va ∧ TRAPFRAME ≤ va ∧ va + PGSIZE ≤ MAXVA.
Proof. by intros [->| ->]. Qed.

(** Entries above user memory, after one of these pages was set to [e]. *)
Definition set_sys (old : Z → Z) (va e : Z) (va' : Z) : Z := if decide (va ≤ va' < va + PGSIZE) then e else old va'.

Lemma sys_vpn va va' : sys_page va → va ≤ va' < va + PGSIZE → vpn va' * PGSIZE = va.
Proof. intros Hs Hv. destruct (sys_page_range va Hs) as (Hm & _). unfold vpn, PGSIZE in *. zdm. Qed.

Lemma map_sys s root t l va pa perm : AS s root t l 0 → sys_page va → pa mod PGSIZE = 0 → 0 ≤ pa ≤ PHYSTOP → 0 ≤ perm < 1024 →
  (∀ va', va ≤ va' < va + PGSIZE → has (pte_of (ram s) t va') PTE_V = false) →
  wp (mappages root va PGSIZE pa perm) (λ r s', ∃ t' l', AS s' root t' l' 0 ∧ vframe s t l s' t' l' ∧ (size t' ≤ size t + 2)%nat ∧
    ((r = 0 ∧ ∀ va', TRAPFRAME ≤ va' < MAXVA → pte_of (ram s') t' va' = set_sys (pte_of (ram s) t) va (map_pte pa perm) va') ∨
     (r = -1 ∧ l' = [] ∧ ∀ va', TRAPFRAME ≤ va' < MAXVA → pte_of (ram s') t' va' = pte_of (ram s) t va'))) s.
Proof.
  intros HA Hs Hpa Hpa' Hperm Hfree. destruct (sys_page_range va Hs) as (Hm & Hlo & Hge & Hhi). assert (0 ≤ TRAPFRAME) as HT by done. assert (PGSIZE = 4096) as HP by done.
  eapply wp_mono; [|apply (mappages_ok s root t l va PGSIZE pa perm (as_vm _ _ _ _ _ HA)); try done; try lia]. 2: { unfold PHYSTOP, KERNBASE, PGSIZE in *. lia. }
  intros r s' (k & t' & l' & HV & Hf & Hsz & Hpte & Hr). exists t', l'. change (PGSIZE / PGSIZE) with 1 in Hr, Hsz.
  assert (∀ va', 0 ≤ va' < va → pte_of (ram s') t' va' = pte_of (ram s) t va') as Hlow.
  { intros va' Hv. rewrite Hpte by lia. unfold mapped. rewrite decide_False; [done|lia]. }
  split; [|split; [done|split; [lia|]]].
  - split; [done|by apply HA|lia| |constructor|by intros p ?%elem_of_nil]. intros va' Hv. rewrite Hlow by lia. apply (as_free _ _ _ _ _ HA). lia.
  - destruct Hr as [[-> ->]|(-> & -> & Hk)]; [left; split; [done|]|right; split; [done|]; split; [done|]]; intros va' Hv; rewrite Hpte by lia; unfold mapped, set_sys.
    + rewrite Z.mul_1_l. case_decide; [|done]. f_equal. rewrite (sys_vpn va va' Hs) by lia. lia.
    + assert (k = 0) as -> by lia. by rewrite decide_False by lia.
Qed.

Lemma unmap_sys s root t l n va : AS s root t l n → sys_page va → has (pte_of (ram s) t va) PTE_V = true → PTE_FLAGS (pte_of (ram s) t va) ≠ PTE_V →
  wp (uvmunmap root va 1 false) (λ _ s', ∃ l', AS s' root t l' n ∧ l' ≡ₚ l ∧ only_pages (tpages t) (ram s) (ram s') ∧
    (∀ k, 0 ≤ k < n → upte s' t k = upte s t k) ∧
    ∀ va', TRAPFRAME ≤ va' < MAXVA → pte_of (ram s') t va' = set_sys (pte_of (ram s) t) va 0 va') s.
Proof.
  intros HA Hs Hv Hfl. destruct (sys_page_range va Hs) as (Hm & Hlo & Hge & Hhi). assert (0 ≤ TRAPFRAME) as HT by done. assert (PGSIZE = 4096) as HP by done.
  eapply wp_mono; [|apply (uvmunmap_ok s root t l va 1 false (as_vm _ _ _ _ _ HA)); try done; try lia]. 2: { intros k Hk. replace k with 0 by lia. by rewrite Z.mul_0_l, Z.add_0_r. }
  intros [] s' (l' & HV & Hl & Ho & Hpte). cbn in Hl. exists l'.
  assert (∀ va', 0 ≤ va' < va → pte_of (ram s') t va' = pte_of (ram s) t va') as Hlow.
  { intros va' Hv'. rewrite Hpte by lia. unfold unmapped. rewrite decide_False; [done|lia]. }
  pose proof (as_size _ _ _ _ _ HA) as [Hn Hnhi].
  assert (∀ k, 0 ≤ k < n → upte s' t k = upte s t k) as Hu by (intros k Hk; apply Hlow; lia).
  assert (upages s' t n = upages s t n) as Eu by (by apply upages_ext).
  split; [|split; [done|split; [by rewrite app_nil_r in Ho|split; [done|]]]].
  - destruct HA as [_ _ Hmap Hfree Hnd Hown]. split; try done.
    + intros k Hk. rewrite Hu by done. by apply Hmap.
    + intros va' Hv'. rewrite Hlow by lia. by apply Hfree.
    + by rewrite Eu.
    + rewrite Eu. intros p Hp. rewrite Hl. by apply Hown.
  - intros va' Hv'. rewrite Hpte by lia. unfold unmapped, set_sys. by rewrite Z.mul_1_l.
Qed.

Definition tf_pte (tf : Z) : Z := map_pte tf (Z.lor PTE_R PTE_W).
Definition tramp_pte : Z := map_pte trampoline (Z.lor PTE_R PTE_X).

(** The trapframe and the trampoline are mapped. *)
Definition sysmap (s : mst) (t : gmap (list Z) Z) (tf : Z) : Prop :=
  ∀ va, TRAPFRAME ≤ va < MAXVA → pte_of (ram s) t va = if decide (va < TRAMPOLINE) then tf_pte tf else tramp_pte.

Lemma sys_pte_ok pa perm : pa mod PGSIZE = 0 → 0 ≤ pa ≤ PHYSTOP → 0 ≤ perm < 1024 → Z.lor perm PTE_V ≠ PTE_V →
  has (map_pte pa perm) PTE_V = true ∧ PTE_FLAGS (map_pte pa perm) ≠ PTE_V.
Proof. intros Hm Hr Hp Hne. destruct (map_pte_props pa perm) as (_ & _ & E & ->); [|done|by rewrite E]. split; [|done]. unfold PHYSTOP, KERNBASE in *. lia. Qed.

Lemma tf_pte_ok tf : page_ok tf → has (tf_pte tf) PTE_V = true ∧ PTE_FLAGS (tf_pte tf) ≠ PTE_V.
Proof. intros Htf. pose proof (page_ok_range _ Htf). destruct Htf as [Hm _]. unfold tf_pte. apply sys_pte_ok; [exact Hm|unfold PGSIZE in *; lia|by compute|by compute]. Qed.
Lemma tramp_pte_ok : has tramp_pte PTE_V = true ∧ PTE_FLAGS tramp_pte ≠ PTE_V.
Proof. unfold tramp_pte. apply sys_pte_ok; [apply trampoline_page|apply trampoline_page|by compute|by compute]. Qed.

(** Freeing a page table that maps nothing. *)
Lemma uvmfree_empty s root t l : AS s root t l 0 → (∀ va, TRAPFRAME ≤ va < MAXVA → has (pte_of (ram s) t va) PTE_V = false) →
  wp (uvmfree root 0) (λ _ s', ∃ l', FL s' l' ∧ l' ≡ₚ tpages t ++ l ∧ only_pages (tpages t ++ l) (ram s) (ram s') ∧ bytes_ok (ram s')) s.
Proof. intros HA Hh. by eapply wp_mono; [|apply (uvmfree_ok s root t l 0)]. Qed.

Definition pagetable_post (s : mst) (l : list Z) (tf r : Z) (s' : mst) : Prop :=
  (r ≠ 0 ∧ ∃ t l', AS s' r t l' 0 ∧ sysmap s' t tf ∧ tpages t ++ l' ≡ₚ l ∧ only_pages l (ram s) (ram s') ∧ (length l ≤ length l' + 5)%nat) ∨
  (r = 0 ∧ ∃ l', FL s' l' ∧ l' ≡ₚ l ∧ only_pages l (ram s) (ram s') ∧ bytes_ok (ram s') ∧ (length l ≤ 5)%nat).

Lemma length_tpages (t : gmap (list Z) Z) : length (tpages t) = size t.
Proof. unfold tpages. by rewrite length_fmap, length_map_to_list. Qed.

Lemma proc_pagetable_ok s l tf : FL s l → bytes_ok (ram s) → page_ok tf → wp (proc_pagetable tf) (pagetable_post s l tf) s.
Proof.
  intros HF Hb Htf. pose proof (page_ok_range _ Htf) as Htfr. assert (TRAMPOLINE = TRAPFRAME + PGSIZE ∧ MAXVA = TRAMPOLINE + PGSIZE ∧ PGSIZE = 4096) as (E1 & E2 & E3) by done.
  unfold proc_pagetable. apply wp_bind. eapply wp_mono; [|by apply uvmcreate_ok]. intros root s1. destruct l as [|p l1].
  { intros [-> ->]. wp_steps. right. split; [done|]. exists []. cbn [length]. split; [done|]. split; [done|]. split; [done|]. split; [done|lia]. }
  intros (-> & Hp0 & HA1 & Hpte1 & Ho1). rewrite (proj2 (Z.eqb_neq p 0)) by done.
  assert (only_pages (p :: l1) (ram s) (ram s1)) as Ho1' by (eapply only_pages_mono; [|exact Ho1]; intros q ->%list_elem_of_singleton; by left).
  assert (tpages {[ [] := p ]} = [p]) as Et by (unfold tpages; by rewrite map_to_list_singleton).
  apply wp_bind. eapply wp_mono; [|apply (map_sys s1 p {[ [] := p ]} l1 TRAMPOLINE trampoline (Z.lor PTE_R PTE_X) HA1); [by right|apply trampoline_page|apply trampoline_page|done|intros va' _; by rewrite Hpte1]].
  intros r s2 (t2 & l2 & HA2 & (_ & Hp2 & Ho2) & Hz2 & Hr). rewrite Et in Hp2, Ho2. rewrite map_size_singleton in Hz2.
  pose proof (Permutation_length Hp2) as Hn2. rewrite length_app, length_tpages in Hn2. cbn [app length] in Hn2. pose proof (only_pages_trans _ _ _ _ Ho1' Ho2) as Ho12.
  destruct Hr as [[-> Hpte2]|(-> & El2 & Hpte2)]; cbn [Z.ltb Z.compare].
  2: { apply wp_bind. eapply wp_mono; [|apply (uvmfree_empty s2 p t2 l2 HA2); intros va Hva; by rewrite Hpte2, Hpte1].
    intros [] s3 (l3 & HF3 & Hl3 & Ho3 & Hb3). wp_steps. right. split; [done|]. exists l3. split; [done|]. split; [by rewrite Hl3|]. split; [|split; [done|rewrite El2 in Hn2; cbn [length] in *; lia]].
    eapply only_pages_trans; [exact Ho12|]. eapply only_pages_mono; [|exact Ho3]. intros q. by rewrite Hp2. }
  apply wp_bind. eapply wp_mono; [|apply (map_sys s2 p t2 l2 TRAPFRAME tf (Z.lor PTE_R PTE_W) HA2); [by left|apply Htf|lia|done|]].
  2: { intros va' Hv. rewrite Hpte2 by lia. unfold set_sys. rewrite decide_False by lia. by rewrite Hpte1. }
  intros r s3 (t3 & l3 & HA3 & (_ & Hp3 & Ho3) & Hz3 & Hr). assert (tpages t3 ++ l3 ≡ₚ p :: l1) as Hp3' by (by rewrite Hp3).
  pose proof (Permutation_length Hp3') as Hn3. rewrite length_app, length_tpages in Hn3. cbn [length] in Hn3.
  assert (only_pages (p :: l1) (ram s) (ram s3)) as Ho13 by (eapply only_pages_trans; [exact Ho12|]; eapply only_pages_mono; [|exact Ho3]; intros q; by rewrite Hp2).
  destruct Hr as [[-> Hpte3]|(-> & El3 & Hpte3)]; cbn [Z.ltb Z.compare].
  - wp_steps. left. split; [done|]. exists t3, l3. split; [done|]. split; [|split; [done|split; [done|cbn [length]; lia]]]. intros va Hva. rewrite Hpte3 by done. unfold set_sys.
    repeat case_decide; try lia; [done|]. rewrite Hpte2 by done. unfold set_sys. by rewrite decide_True by lia.
  - apply wp_bind. assert (pte_of (ram s3) t3 TRAMPOLINE = tramp_pte) as Ep by (rewrite Hpte3, Hpte2 by lia; unfold set_sys; by rewrite decide_True by lia).
    eapply wp_mono; [|apply (unmap_sys s3 p t3 l3 0 TRAMPOLINE HA3); [by right|rewrite Ep; apply tramp_pte_ok..]].
    intros [] s4 (l4 & HA4 & Hl4 & Ho4 & _ & Hpte4). apply wp_bind. eapply wp_mono; [|apply (uvmfree_empty s4 p t3 l4 HA4)].
    2: { intros va Hva. rewrite Hpte4 by done. unfold set_sys. case_decide; [done|]. rewrite Hpte3, Hpte2 by done. unfold set_sys. rewrite decide_False by lia. by rewrite Hpte1. }
    intros [] s5 (l5 & HF5 & Hl5 & Ho5 & Hb5). wp_steps. right. split; [done|]. exists l5. split; [done|]. split; [by rewrite Hl5, Hl4|]. split; [|split; [done|rewrite El3 in Hn3; cbn [length] in *; lia]].
    eapply only_pages_trans; [exact Ho13|]. eapply only_pages_trans; [eapply only_pages_mono; [|exact Ho4]|eapply only_pages_mono; [|exact Ho5]].
    + intros q Hq. rewrite <-Hp3'. apply elem_of_app. by left.
    + intros q. by rewrite Hl4, Hp3'.
Qed.

Lemma proc_freepagetable_ok s root t l sz tf : 0 ≤ sz ≤ TRAPFRAME → AS s root t l (npg sz) → sysmap s t tf → page_ok tf →
  wp (proc_freepagetable root sz) (λ _ s', ∃ l', FL s' l' ∧ l' ≡ₚ total s t l (npg sz) ∧
    only_pages (total s t l (npg sz)) (ram s) (ram s') ∧ bytes_ok (ram s')) s.
Proof.
  intros Hsz HA Hsm Htf. assert (TRAMPOLINE = TRAPFRAME + PGSIZE ∧ MAXVA = TRAMPOLINE + PGSIZE ∧ PGSIZE = 4096) as (E1 & E2 & E3) by done.
  unfold proc_freepagetable. apply wp_bind. assert (pte_of (ram s) t TRAMPOLINE = tramp_pte) as Ep by (by rewrite Hsm).
  eapply wp_mono; [|apply (unmap_sys s root t l _ TRAMPOLINE HA); [by right|rewrite Ep; apply tramp_pte_ok..]].
  intros [] s1 (l1 & HA1 & Hl1 & Ho1 & Hu1 & Hpte1). apply wp_bind.
  assert (pte_of (ram s1) t TRAPFRAME = tf_pte tf) as Ep1 by (rewrite Hpte1 by lia; unfold set_sys; rewrite decide_False by lia; by rewrite Hsm).
  eapply wp_mono; [|apply (unmap_sys s1 root t l1 _ TRAPFRAME HA1); [by left|rewrite Ep1; by apply tf_pte_ok..]].
  intros [] s2 (l2 & HA2 & Hl2 & Ho2 & Hu2 & Hpte2).
  assert (upages s2 t (npg sz) = upages s t (npg sz)) as Eu by (apply upages_ext; intros k Hk; by rewrite Hu2, Hu1).
  assert (total s2 t l2 (npg sz) ≡ₚ total s t l (npg sz)) as Etot by (unfold total; by rewrite Eu, Hl2, Hl1).
  eapply wp_mono; [|apply (uvmfree_ok s2 root t l2 sz Hsz HA2)].
  - intros [] s3 (l3 & HF3 & Hl3 & Ho3 & Hb3). exists l3. split; [done|]. split; [by rewrite Hl3|]. split; [|done].
    eapply only_pages_trans; [eapply only_pages_mono; [|exact Ho1]|eapply only_pages_trans; [eapply only_pages_mono; [|exact Ho2]|eapply only_pages_mono; [|exact Ho3]]].
    1,2: intros q Hq; apply elem_of_app; by left. intros q. by rewrite Etot.
  - intros va Hva. rewrite Hpte2 by done. unfold set_sys. case_decide; [done|]. rewrite Hpte1 by done. unfold set_sys. rewrite decide_True by lia. done.
Qed.

(** ** Who owns which page *)

(** An address space: its root, its tables, its trapframe and its number of user
    pages. *)
Record uspace := US { us_root : Z; us_t : gmap (list Z) Z; us_tf : Z; us_n : Z }.

Definition powns (s : mst) (u : uspace) : list Z := us_tf u :: tpages (us_t u) ++ upages s (us_t u) (us_n u).
Definition all_owned (s : mst) (us : list uspace) : list Z := concat (powns s <$> us).

Record SP (s : mst) (l : list Z) (u : uspace) : Prop := {
  sp_as : AS s (us_root u) (us_t u) l (us_n u);
  sp_sys : sysmap s (us_t u) (us_tf u)
}.

(** Every page has one owner: a process, another object of the kernel ([ex]) or
    the free list. *)
Definition pages_of (s : mst) (l : list Z) (us : list uspace) (ex : list Z) : list Z := all_owned s us ++ ex ++ l.

Record OWN (s : mst) (l : list Z) (us : list uspace) (ex : list Z) : Prop := {
  ow_fl : FL s l;
  ow_bytes : bytes_ok (ram s);
  ow_sp : ∀ u, u ∈ us → SP s l u;
  ow_nodup : NoDup (pages_of s l us ex);
  ow_ok : Forall page_ok (pages_of s l us ex)
}.

(** The memory of a process, its page table and its trapframe are as they were. *)
Record kept (s : mst) (u : uspace) (s' : mst) : Prop := {
  kp_pages : powns s' u = powns s u;
  kp_user : same_user s (us_t u) s' (us_t u) (us_n u);
  kp_tf : ∀ i, 0 ≤ i < PGSIZE → rd (ram s') (us_tf u + i) = rd (ram s) (us_tf u + i)
}.

Lemma elem_of_all_owned s us p : p ∈ all_owned s us ↔ ∃ u, u ∈ us ∧ p ∈ powns s u.
Proof.
  induction us as [|u us IH].
  - split; [by intros ?%elem_of_nil|by intros (u & ?%elem_of_nil & _)].
  - change (all_owned s (u :: us)) with (powns s u ++ all_owned s us). rewrite elem_of_app, IH. split.
    + intros [?|(v & ? & ?)]; [exists u|exists v]; split; try done; [by left|by right].
    + intros (v & [->|Hv]%elem_of_cons & Hp); [by left|right; eauto].
Qed.

Lemma all_owned_app s us1 us2 : all_owned s (us1 ++ us2) = all_owned s us1 ++ all_owned s us2.
Proof. unfold all_owned. by rewrite fmap_app, concat_app. Qed.

(** A step that writes only pages [ps] and takes none of [u]'s. *)
Lemma SP_frame_own s l u s' l' ps : SP s l u → FL s' l' → bytes_ok (ram s') → only_pages ps (ram s) (ram s') → Forall page_ok ps →
  (∀ p, p ∈ tpages (us_t u) ++ upages s (us_t u) (us_n u) → (p ∉ ps) ∧ (p ∉ l')) →
  SP s' l' u ∧ same_user s (us_t u) s' (us_t u) (us_n u) ∧ powns s' u = powns s u.
Proof.
  intros [HA Hsm] HF Hb Ho Hps Hd. pose proof HA as [[HP _ _ _] _ _ _ _ Hown].
  assert (∀ q, q ∈ tpages (us_t u) → (q ∉ ps) ∧ (q ∉ l')) as Ht by (intros q Hq; apply Hd, elem_of_app; by left).
  destruct (PT_only_pages (ram s) (ram s') (us_root u) (us_t u) ps HP Ho Hps) as [HP' Hpte]; [intros q Hq Hq'; by apply (proj1 (Ht q Hq'))|].
  destruct (AS_ext s (us_root u) (us_t u) l (us_n u) s' l' ps HA) as (HA' & Hsu & Eu); [|done|done|done| |].
  - split; [done|done|intros p Hp; by apply Ht|done].
  - intros p Hp. apply Hd, elem_of_app. by right.
  - split; [split; [done|]|split; [done|unfold powns; by rewrite Eu]].
    intros va Hva. rewrite Hpte; [by apply Hsm|]. assert (0 ≤ TRAPFRAME) by done. lia.
Qed.

Lemma SP_frame s l u s' l' ps : SP s l u → page_ok (us_tf u) → FL s' l' → bytes_ok (ram s') → only_pages ps (ram s) (ram s') → Forall page_ok ps →
  (∀ p, p ∈ powns s u → (p ∉ ps) ∧ (p ∉ l')) → SP s' l' u ∧ kept s u s'.
Proof.
  intros HS Htf HF Hb Ho Hps Hd. destruct (SP_frame_own s l u s' l' ps HS HF Hb Ho Hps) as (HS' & Hsu & E); [intros p Hp; apply Hd; by right|].
  split; [done|]. split; [done|done|]. intros i Hi. eapply only_pages_byte; [exact Ho| |done|done|done]. apply Hd. by left.
Qed.

(** Replacing the spaces [vs] by [vs'], at the expense of the free list. *)
Lemma OWN_step s l us1 vs us2 ex s' l' vs' ex' :
  OWN s l (us1 ++ vs ++ us2) ex → FL s' l' → bytes_ok (ram s') → (∀ v, v ∈ vs' → SP s' l' v) →
  pages_of s' l' vs' ex' ≡ₚ pages_of s l vs ex → only_pages (pages_of s l vs ex) (ram s) (ram s') →
  OWN s' l' (us1 ++ vs' ++ us2) ex' ∧ (∀ u, u ∈ us1 ++ us2 → kept s u s') ∧
  pages_of s' l' (us1 ++ vs' ++ us2) ex' ≡ₚ pages_of s l (us1 ++ vs ++ us2) ex.
Proof.
  intros [HF0 Hb0 Hsp Hnd Hok] HF Hb Hsp' Hperm Ho.
  assert (Hcomm : ∀ s l vs ex, pages_of s l (us1 ++ vs ++ us2) ex ≡ₚ (all_owned s us1 ++ all_owned s us2) ++ pages_of s l vs ex).
  { intros. unfold pages_of. rewrite !all_owned_app. solve_Permutation. }
  rewrite Hcomm in Hnd, Hok. apply NoDup_app in Hnd as (Hnd1 & Hdis & Hnd2). apply Forall_app in Hok as [Hok1 Hok2].
  assert (∀ u, u ∈ us1 ++ us2 → SP s' l' u ∧ kept s u s') as Hk.
  { intros u Hu. assert (∀ p, p ∈ powns s u → p ∈ all_owned s us1 ++ all_owned s us2) as Hin.
    { intros p Hp. rewrite <-all_owned_app. apply elem_of_all_owned. eauto. }
    eapply SP_frame; [apply (Hsp u); rewrite !elem_of_app in *; tauto| |done|done|exact Ho|done|].
    - rewrite Forall_forall in Hok1. apply Hok1, Hin. by left.
    - intros p Hp. specialize (Hdis p (Hin p Hp)). split; [done|]. intros Hl'. apply Hdis. rewrite <-Hperm. unfold pages_of. rewrite !elem_of_app. tauto. }
  assert (∀ us, (∀ u, u ∈ us → u ∈ us1 ++ us2) → all_owned s' us = all_owned s us) as Esame.
  { intros us Hus. unfold all_owned. f_equal. apply list_fmap_ext. intros i u Hu. apply list_elem_of_lookup_2 in Hu. by destruct (Hk u (Hus u Hu)) as [_ [? _ _]]. }
  assert (pages_of s' l' (us1 ++ vs' ++ us2) ex' ≡ₚ (all_owned s us1 ++ all_owned s us2) ++ pages_of s l vs ex) as Hall.
  { rewrite Hcomm, Hperm. by rewrite (Esame us1), (Esame us2) by (intros u Hu; apply elem_of_app; tauto). }
  split; [split; try done|split; [by intros u Hu; apply Hk|by rewrite Hall, Hcomm]].
  - intros u Hu. rewrite !elem_of_app in Hu. destruct Hu as [Hu|[Hu|Hu]]; [by apply Hk, elem_of_app; left|by apply Hsp'|by apply Hk, elem_of_app; right].
  - rewrite Hall. by apply NoDup_app.
  - rewrite Hall. by apply Forall_app.
Qed.
Lemma kept_refl s u : kept s u s.
Proof. by split. Qed.

Lemma kept_trans s1 s2 s3 u : kept s1 u s2 → kept s2 u s3 → kept s1 u s3.
Proof. intros [H1 H2 H3] [H4 H5 H6]. split; [congruence|by eapply same_user_trans|]. intros i Hi. by rewrite H6, H3. Qed.

Lemma OWN_perm s l us ex ex' : ex ≡ₚ ex' → OWN s l us ex → OWN s l us ex'.
Proof. intros HP [H1 H2 H3 H4 H5]. assert (pages_of s l us ex ≡ₚ pages_of s l us ex') as E by (unfold pages_of; by rewrite HP). split; try done; by rewrite <-E. Qed.

(** A page that goes back to the free list. *)
Lemma kfree_own s l us ex ex' p : OWN s l us ex → p :: ex' ≡ₚ ex →
  wp (kfree p) (λ _ s', OWN s' (p :: l) us ex' ∧ (∀ u, u ∈ us → kept s u s') ∧ pages_of s' (p :: l) us ex' ≡ₚ pages_of s l us ex) s.
Proof.
  intros HO HP. pose proof HO as [HF Hb _ Hnd Hok]. unfold pages_of in Hnd, Hok. rewrite <-HP in Hnd, Hok.
  apply NoDup_app in Hnd as (_ & _ & [Hn _]%NoDup_cons). apply Forall_app in Hok as [_ [Hp _]%Forall_cons].
  eapply wp_mono; [|apply (kfree_ok s l p HF Hp); rewrite elem_of_app in Hn; tauto]. intros [] s' (HF' & Ho & Hb').
  assert (pages_of s' (p :: l) [] ex' ≡ₚ pages_of s l [] ex) as Hpp by (unfold pages_of; cbn; rewrite <-HP; solve_Permutation).
  pose proof (OWN_step s l us [] [] ex s' (p :: l) [] ex') as Hst. cbn [app] in Hst. rewrite !app_nil_r in Hst. apply Hst; try done; [by apply Hb'|by intros v ?%elem_of_nil|].
  eapply only_pages_mono; [|exact Ho]. intros q ->%list_elem_of_singleton. unfold pages_of. cbn. rewrite <-HP. by left.
Qed.

(** ... and one that is taken from it. *)
Lemma kalloc_own s l us ex : OWN s l us ex →
  wp kalloc (λ r s', match l with
    | [] => r = 0 ∧ s' = s
    | p :: l' => r = p ∧ p ≠ 0 ∧ page_ok p ∧ (p ∉ ex) ∧ OWN s' l' us (p :: ex) ∧ (∀ u, u ∈ us → kept s u s') ∧ pages_of s' l' us (p :: ex) ≡ₚ pages_of s l us ex
    end) s.
Proof.
  intros HO. pose proof HO as [HF Hb _ Hnd Hok]. eapply wp_mono; [|apply (kalloc_ok s l HF)]. intros r s'. destruct l as [|p l']; [done|].
  intros (-> & HF' & Ho & Hb' & _). unfold pages_of in Hnd, Hok. apply Forall_app in Hok as [_ [_ [Hp _]%Forall_cons]%Forall_app].
  apply NoDup_app in Hnd as (_ & _ & (_ & Hd & _)%NoDup_app).
  split; [done|]. split; [pose proof (page_ok_range p Hp); destruct Hp as [_ ?]; pose proof kend_range; unfold KERNBASE in *; lia|]. split; [done|].
  split; [intros H; apply (Hd p H); by left|].
  assert (pages_of s' l' [] (p :: ex) ≡ₚ pages_of s (p :: l') [] ex) as Hpp by (unfold pages_of; cbn; solve_Permutation).
  pose proof (OWN_step s (p :: l') us [] [] ex s' l' [] (p :: ex)) as Hst. cbn [app] in Hst. rewrite !app_nil_r in Hst. apply Hst; try done; [by apply Hb'|by intros v ?%elem_of_nil|].
  eapply only_pages_mono; [|exact Ho]. intros q ->%list_elem_of_singleton. unfold pages_of. cbn. apply elem_of_app. right. by left.
Qed.

(** *** Making and freeing an address space *)

Lemma only_pages_sub ps ps' m m' : ps ⊆ ps' → only_pages ps m m' → only_pages ps' m m'.
Proof. intros H. apply only_pages_mono. done. Qed.

Lemma powns_new s r t tf : powns s (US r t tf 0) = tf :: tpages t.
Proof. unfold powns. cbn. by rewrite app_nil_r. Qed.

Lemma proc_pagetable_own s l us1 us2 ex tf : OWN s l (us1 ++ us2) (tf :: ex) →
  wp (proc_pagetable tf) (λ r s', ∃ l', (∀ v, v ∈ us1 ++ us2 → kept s v s') ∧
    ((r ≠ 0 ∧ ∃ t, let us' := us1 ++ [US r t tf 0] ++ us2 in OWN s' l' us' ex ∧ pages_of s' l' us' ex ≡ₚ pages_of s l (us1 ++ us2) (tf :: ex) ∧ (length l ≤ length l' + 5)%nat) ∨
     (r = 0 ∧ OWN s' l' (us1 ++ us2) (tf :: ex) ∧ pages_of s' l' (us1 ++ us2) (tf :: ex) ≡ₚ pages_of s l (us1 ++ us2) (tf :: ex) ∧ (length l ≤ 5)%nat))) s.
Proof.
  intros HO. pose proof HO as [HF Hb _ _ Hok]. apply Forall_app in Hok as [_ [Htf _]%Forall_cons].
  pose proof (OWN_step s l us1 [] us2 (tf :: ex)) as Hst. cbn [app] in Hst.
  eapply wp_mono; [|by apply (proc_pagetable_ok s l tf)]. intros r s' [(Hr & t & l' & HA & Hsm & HP & Ho & Hlen)|(-> & l' & HF' & HP & Ho & Hb' & Hlen)]; exists l'.
  - destruct (Hst s' l' [US r t tf 0] ex HO) as (H1 & H2 & H3); [apply HA|apply HA| | | |split; [done|]; left; split; [done|]; by exists t].
    + by intros v ->%list_elem_of_singleton.
    + unfold pages_of, all_owned. cbn [fmap list_fmap concat]. rewrite powns_new. cbn [app]. rewrite app_nil_r. rewrite <-HP. solve_Permutation.
    + eapply only_pages_sub; [|exact Ho]. unfold pages_of. cbn. set_solver.
  - destruct (Hst s' l' [] (tf :: ex) HO) as (H1 & H2 & H3); [done|done|by intros v ?%elem_of_nil| | |split; [done|]; right; done].
    + unfold pages_of. cbn. by rewrite HP.
    + eapply only_pages_sub; [|exact Ho]. unfold pages_of. cbn. set_solver.
Qed.

Lemma pages_of_mid s l us1 u us2 ex : pages_of s l (us1 ++ [u] ++ us2) ex ≡ₚ (all_owned s (us1 ++ us2) ++ ex) ++ (powns s u ++ l).
Proof. unfold pages_of. rewrite !all_owned_app. unfold all_owned at 2. cbn [fmap list_fmap concat]. rewrite app_nil_r. solve_Permutation. Qed.

Lemma OWN_mine s l us1 u us2 ex : OWN s l (us1 ++ [u] ++ us2) ex →
  NoDup (powns s u ++ l) ∧ Forall page_ok (powns s u ++ l) ∧ (∀ p, p ∈ powns s u ++ l → p ∉ all_owned s (us1 ++ us2)) ∧ SP s l u.
Proof.
  intros [_ _ Hsp Hnd Hok]. rewrite pages_of_mid in Hnd, Hok. apply NoDup_app in Hnd as (_ & Hd & Hnd). apply Forall_app in Hok as [_ Hok].
  split; [done|]. split; [done|]. split; [intros p Hp Hin; apply (Hd p); [by apply elem_of_app; left|done]|]. apply Hsp. rewrite !elem_of_app. right. left. by left.
Qed.

(** [freeproc] gives back the trapframe and then the rest. *)
Lemma free_space_own s l us1 u us2 ex sz : OWN s l (us1 ++ [u] ++ us2) ex → us_n u = npg sz → 0 ≤ sz ≤ TRAPFRAME →
  wp (kfree (us_tf u)) (λ _ s1, wp (proc_freepagetable (us_root u) sz) (λ _ s', ∃ l', OWN s' l' (us1 ++ us2) ex ∧
    (∀ v, v ∈ us1 ++ us2 → kept s v s') ∧ pages_of s' l' (us1 ++ us2) ex ≡ₚ pages_of s l (us1 ++ [u] ++ us2) ex) s1) s.
Proof.
  intros HO Hn Hsz. pose proof HO as [HF Hb Hsp Hnd Hok]. destruct u as [root t tf n]. cbn [us_tf us_root us_n] in *. subst n.
  destruct (OWN_mine _ _ _ _ _ _ HO) as (Hnd1 & Hok1 & _ & HA & Hsm). cbn [us_tf us_root us_n us_t] in *. assert (page_ok tf) as Htf by (by apply Forall_inv in Hok1).
  unfold powns in Hnd1. cbn [us_tf us_t us_n app] in Hnd1. apply NoDup_cons in Hnd1 as [Hfr _]. rewrite !elem_of_app in Hfr.
  eapply wp_mono; [|apply (AS_kfree s root t l (npg sz) tf HA); unfold fresh; tauto]. intros [] s1 (HA1 & Hsu & Eu & Ho1).
  assert (sysmap s1 t tf) as Hsm1 by (intros va Hva; rewrite (su_high _ _ _ _ _ Hsu) by done; by apply Hsm).
  eapply wp_mono; [|apply (proc_freepagetable_ok s1 root t (tf :: l) sz tf Hsz HA1 Hsm1 Htf)]. intros [] s2 (l2 & HF2 & HP2 & Ho2 & Hb2). exists l2.
  unfold total in HP2, Ho2. rewrite Eu in HP2, Ho2.
  pose proof (OWN_step s l us1 [US root t tf (npg sz)] us2 ex s2 l2 [] ex HO HF2 Hb2) as Hst. cbn [app] in Hst. apply Hst; clear Hst.
  - by intros v ?%elem_of_nil.
  - unfold pages_of, all_owned, powns. cbn [fmap list_fmap concat app us_tf us_t us_n]. rewrite HP2, app_nil_r. solve_Permutation.
  - unfold pages_of, all_owned, powns. cbn [fmap list_fmap concat app us_tf us_t us_n].
    eapply only_pages_trans; [eapply only_pages_sub; [|exact Ho1]|eapply only_pages_sub; [|exact Ho2]]; set_solver.
Qed.
(** *** Changing one address space *)

Definition tf_same (s : mst) (tf : Z) (s' : mst) : Prop := ∀ i, 0 ≤ i < PGSIZE → rd (ram s') (tf + i) = rd (ram s) (tf + i).

(** [u] became [u']; the others, and all pages, are as they were. *)
Record changed (s : mst) (l : list Z) (us1 : list uspace) (u : uspace) (us2 : list uspace) (ex : list Z) (s' : mst) (l' : list Z) (u' : uspace) : Prop := {
  ch_own : OWN s' l' (us1 ++ [u'] ++ us2) ex;
  ch_kept : ∀ v, v ∈ us1 ++ us2 → kept s v s';
  ch_pages : pages_of s' l' (us1 ++ [u'] ++ us2) ex ≡ₚ pages_of s l (us1 ++ [u] ++ us2) ex
}.

Lemma changed_trans s1 l1 us1 u1 us2 ex s2 l2 u2 s3 l3 u3 :
  changed s1 l1 us1 u1 us2 ex s2 l2 u2 → changed s2 l2 us1 u2 us2 ex s3 l3 u3 → changed s1 l1 us1 u1 us2 ex s3 l3 u3.
Proof. intros [A1 A2 A3] [B1 B2 B3]. split; [done| |by rewrite B3]. intros v Hv. eapply kept_trans; [by apply A2|by apply B2]. Qed.

Lemma OWN_change s l us1 u us2 ex s' l' u' : OWN s l (us1 ++ [u] ++ us2) ex → SP s' l' u' → powns s' u' ++ l' ≡ₚ powns s u ++ l →
  only_pages (powns s u ++ l) (ram s) (ram s') → changed s l us1 u us2 ex s' l' u'.
Proof.
  intros HO HS HP Ho. pose proof HS as [HA _]. destruct (OWN_step s l us1 [u] us2 ex s' l' [u'] ex HO) as (H1 & H2 & H3); [apply HA|apply HA|by intros v ->%list_elem_of_singleton| | |by split].
  - unfold pages_of, all_owned. cbn [fmap list_fmap concat]. rewrite !app_nil_r. rewrite (Permutation_app_comm ex l'), (Permutation_app_comm ex l), !(assoc_L (++)), HP. done.
  - eapply only_pages_sub; [|exact Ho]. unfold pages_of, all_owned. cbn [fmap list_fmap concat]. rewrite app_nil_r. set_solver.
Qed.

Lemma OWN_evolve s l us1 root t tf n us2 ex s' l' t' n' m : OWN s l (us1 ++ [US root t tf n] ++ us2) ex → AS s' root t' l' n' → evolve m s t l n s' t' l' n' →
  changed s l us1 (US root t tf n) us2 ex s' l' (US root t' tf n') ∧ tf_same s tf s'.
Proof.
  intros HO HA [H1 H2 _ H4]. destruct (OWN_mine _ _ _ _ _ _ HO) as (Hnd & Hok & _ & _ & Hsm). cbn [us_tf us_t us_n us_root] in *. unfold total in *. split.
  - apply OWN_change; [done|split; [done|]| |].
    + intros va Hva. cbn. rewrite (su_high _ _ _ _ _ H1) by done. by apply Hsm.
    + unfold powns. cbn [us_tf us_t us_n app]. rewrite <-!(assoc_L (++)). by rewrite H2.
    + eapply only_pages_sub; [|exact H4]. unfold powns. cbn [us_tf us_t us_n]. set_solver.
  - unfold powns in Hnd, Hok. cbn [us_tf us_t us_n app] in Hnd, Hok. rewrite <-!(assoc_L (++)) in Hnd, Hok. apply NoDup_cons in Hnd as [Hn _]. apply Forall_cons in Hok as [Htf Hok].
    intros i Hi. by eapply only_pages_byte.
Qed.

Lemma uvmalloc_own s l us1 root t tf us2 ex oldsz newsz xperm :
  OWN s l (us1 ++ [US root t tf (npg oldsz)] ++ us2) ex → 0 ≤ oldsz → oldsz ≤ newsz → newsz ≤ TRAPFRAME → 0 < newsz → 0 ≤ xperm < 1024 →
  wp (uvmalloc root oldsz newsz xperm) (λ r s', ∃ t' l', let sz' := if decide (r = 0) then oldsz else newsz in (r = 0 ∨ r = newsz) ∧
    changed s l us1 (US root t tf (npg oldsz)) us2 ex s' l' (US root t' tf (npg sz')) ∧ same_user s t s' t' (npg oldsz) ∧ tf_same s tf s') s.
Proof.
  intros HO H0 Hle Hnew Hpos Hx. destruct (OWN_mine _ _ _ _ _ _ HO) as (_ & _ & _ & HA & _). cbn [us_tf us_t us_n us_root] in HA.
  eapply wp_mono; [|apply (uvmalloc_ok s root t l oldsz newsz xperm H0 Hle Hnew Hx HA)]. intros r s' (t' & l' & [(-> & HA' & Hev & _)|(-> & HA' & Hev & _)]); exists t', l'.
  - rewrite decide_False by lia. destruct (OWN_evolve _ _ _ _ _ _ _ _ _ _ _ _ _ _ HO HA' Hev). split; [by right|]. split; [done|]. split; [apply Hev|done].
  - rewrite decide_True by done. destruct (OWN_evolve _ _ _ _ _ _ _ _ _ _ _ _ _ _ HO HA' Hev). split; [by left|]. split; [done|]. split; [apply Hev|done].
Qed.

Lemma uvmdealloc_own s l us1 root t tf us2 ex oldsz newsz :
  OWN s l (us1 ++ [US root t tf (npg oldsz)] ++ us2) ex → 0 ≤ oldsz ≤ TRAPFRAME → 0 ≤ newsz →
  wp (uvmdealloc root oldsz newsz) (λ r s', ∃ l', r = Z.min oldsz newsz ∧
    changed s l us1 (US root t tf (npg oldsz)) us2 ex s' l' (US root t tf (npg r)) ∧ same_user s t s' t (npg r) ∧ tf_same s tf s') s.
Proof.
  intros HO H0 Hnew. destruct (OWN_mine _ _ _ _ _ _ HO) as (_ & _ & _ & HA & _). cbn [us_tf us_t us_n us_root] in HA.
  eapply wp_mono; [|apply (uvmdealloc_ok s root t l oldsz newsz H0 Hnew HA)]. intros r s' (l' & -> & HA' & Hev). exists l'.
  destruct (OWN_evolve _ _ _ _ _ _ _ _ _ _ _ _ _ _ HO HA' Hev). split; [done|]. split; [done|]. split; [apply Hev|done].
Qed.

Lemma uvmcopy_own s l us1 root t tf us2 ex u sz : OWN s l (us1 ++ [US root t tf 0] ++ us2) ex → u ∈ us1 ++ us2 → us_n u = npg sz → 0 ≤ sz ≤ TRAPFRAME →
  wp (uvmcopy (us_root u) root sz) (λ r s', ∃ t' l', (r = 0 ∨ r = -1) ∧ let n' := if decide (r = 0) then npg sz else 0 in
    changed s l us1 (US root t tf 0) us2 ex s' l' (US root t' tf n') ∧ tf_same s tf s' ∧ (r = 0 → ∀ j, 0 ≤ j < npg sz → copied s (us_t u) s' t' j) ∧ (r = -1 → Z.of_nat (length l) ≤ 3 * npg sz)) s.
Proof.
  intros HO Hu Hn Hsz. destruct (OWN_mine _ _ _ _ _ _ HO) as (_ & _ & Hd & HA & _). cbn [us_tf us_t us_n us_root] in HA.
  destruct (ow_sp _ _ _ _ HO u) as [HAu _]; [rewrite !elem_of_app in *; tauto|]. rewrite Hn in HAu.
  eapply wp_mono; [|apply (uvmcopy_ok s (us_root u) root (us_t u) t l sz Hsz HAu HA)].
  - intros r s' (_ & t' & l' & [(-> & HA' & Hev & Hc)|(-> & HA' & Hev & Hc)]); exists t', l'; destruct (OWN_evolve _ _ _ _ _ _ _ _ _ _ _ _ _ _ HO HA' Hev).
    + split; [by left|]. cbn. done.
    + split; [by right|]. cbn. done.
  - intros p Hp Hin. apply (Hd p); [unfold powns; cbn; set_solver|]. apply elem_of_all_owned. exists u. split; [done|]. unfold powns. right. by rewrite Hn.
Qed.

Lemma upages_one s t : upages s t 1 = [PTE2PA (upte s t 0)].
Proof. exact (upages_snoc s t 0 ltac:(lia)). Qed.

(** [uvmfirst]: the first page holds the program. *)
Lemma uvmfirst_ok s root t l src sz : AS s root t l 0 → 0 ≤ sz < PGSIZE → src + sz ≤ kend → (4 ≤ length l)%nat →
  wp (uvmfirst root src sz) (λ _ s', ∃ t' l', AS s' root t' l' 1 ∧ evolve 0 s t l 0 s' t' l' 1 ∧ (length l ≤ length l' + 3)%nat ∧
    ∀ i, 0 ≤ i < PGSIZE → rd (ram s') (PTE2PA (upte s' t' 0) + i) = if decide (i < sz) then rd (ram s) (src + i) else 0) s.
Proof.
  intros HA Hsz Hsrc Hlen. set (perm := Z.lor (Z.lor (Z.lor PTE_W PTE_R) PTE_X) PTE_U). unfold uvmfirst. destruct (Z.leb_spec PGSIZE sz); [lia|].
  match goal with |- wp _ ?P s => set (Q := P) end.
  assert (wp (p ← kalloc; if p =? 0 then panic "kerneltrap" else on_ram (memset p 0 PGSIZE);; r ← mappages root (0 * PGSIZE) PGSIZE p perm;
    if negb (r =? 0) then kfree p;; panic "kerneltrap" else on_ram (memmove (default 0 (head l)) src sz)) Q s) as Hw.
  { apply (add_page s root t l 0 perm (λ p, memset p 0 PGSIZE) (λ _, 0) HA); [by compute|by compute|by compute| | |].
    - intros p m _ _ Ho Hb. split; [apply only_pages_memset|]. split; [by apply bytes_ok_memset|]. intros i Hi. by rewrite rd_memset, decide_True by lia.
    - intros; lia.
    - intros s1 t1 l1 p HA1 Hev Hz Hup Hp Hg Hhd. rewrite Hhd. change (default 0 (Some p)) with p. apply wp_on_ram. unfold Q. exists t1, l1. change (0 + 1) with 1 in *.
      destruct (map_pte_props p perm (page_ok_pte p Hp) ltac:(by compute)) as (_ & Epa & _). pose proof (vm_bytes _ _ _ _ (as_vm _ _ _ _ _ HA1)) as Hb1.
      assert (upages s1 t1 1 = [p]) as Eu by (by rewrite upages_one, Hup, Epa).
      assert (only_pages [p] (ram s1) (memmove p src sz (ram s1))) as Ho. { intros a Ha. rewrite rd_memmove by (done || lia). rewrite decide_False; [done|]. intros Hr. apply (Ha p); [by apply list_elem_of_singleton|lia]. }
      destruct (AS_write s1 root t1 l1 1 HA1 (memmove p src sz (ram s1))) as [HA2 Hpte]; [by rewrite Eu|apply bytes_ok_memmove; [done|lia]|].
      assert (upte (Mst (memmove p src sz (ram s1)) (freelist s1)) t1 0 = upte s1 t1 0) as Eup by (apply Hpte; lia).
      assert (upages (Mst (memmove p src sz (ram s1)) (freelist s1)) t1 1 = [p]) as Eu2 by (by rewrite upages_one, Eup, Hup, Epa). split; [done|]. split; [|split].
      + destruct Hev as [[_ _ E3] E4 E5 E6]. split; [split; [lia|lia|intros va Hva; assert (0 ≤ TRAPFRAME) by done; rewrite <-E3 by done; apply Hpte; lia]| |done|].
        * rewrite <-E4. unfold total. by rewrite Eu, Eu2.
        * eapply only_pages_trans; [exact E6|]. eapply only_pages_mono; [|exact Ho]. intros q ->%list_elem_of_singleton. rewrite <-E4. unfold total. rewrite Eu, !elem_of_app. right. left. by left.
      + pose proof (Permutation_length (ev_total _ _ _ _ _ _ _ _ _ Hev)) as E. pose proof (length_total s t l 0 ltac:(lia)). pose proof (length_total s1 t1 l1 1 ltac:(lia)). lia.
      + intros i Hi. rewrite Eup, Hup, Epa. cbn [ram]. rewrite rd_memmove by (done || lia). case_decide as Hd; [rewrite decide_True by lia|rewrite decide_False by lia; by apply Hg].
        replace (src + (p + i - p)) with (src + i) by lia. apply (ev_only _ _ _ _ _ _ _ _ _ Hev). intros q Hq. enough (page_ok q) as [_ ?] by lia. pose proof (VM_pages_ok _ _ _ _ (as_vm _ _ _ _ _ HA)) as Hall. rewrite Forall_forall in Hall. by apply Hall. }
  change (0 * PGSIZE) with 0 in Hw. apply wp_bind_inv in Hw. assert (wp kalloc (λ p _, p = default 0 (head l)) s) as Hk.
  { eapply wp_mono; [|apply (kalloc_ok s l), HA]. intros r s1. destruct l; [by intros [-> _]|by intros [-> _]]. }
  apply wp_bind. eapply wp_mono; [|exact (wp_and _ _ _ _ Hw Hk)]. intros p s1 [Hp ->]. destruct (default 0 (head l) =? 0); [done|].
  apply wp_bind_inv in Hp. apply wp_bind. eapply wp_mono; [|exact Hp]. intros [] s2 Hp2. apply wp_bind_inv in Hp2. apply wp_bind. eapply wp_mono; [|exact Hp2].
  intros r s3 Hp3. cbn beta in Hp3. destruct (negb (r =? 0)); [|exact Hp3]. apply wp_bind_inv in Hp3. apply wp_ok in Hp3 as (? & ? & _ & []).
Qed.

Lemma uvmfirst_own s l us1 root t tf us2 ex src sz : OWN s l (us1 ++ [US root t tf 0] ++ us2) ex → 0 ≤ sz < PGSIZE → src + sz ≤ kend → (4 ≤ length l)%nat →
  wp (uvmfirst root src sz) (λ _ s', ∃ t' l', changed s l us1 (US root t tf 0) us2 ex s' l' (US root t' tf 1) ∧ tf_same s tf s' ∧ (length l ≤ length l' + 3)%nat ∧
    ∀ i, 0 ≤ i < PGSIZE → rd (ram s') (PTE2PA (upte s' t' 0) + i) = if decide (i < sz) then rd (ram s) (src + i) else 0) s.
Proof.
  intros HO Hsz Hsrc Hlen. destruct (OWN_mine _ _ _ _ _ _ HO) as (_ & _ & _ & HA & _). cbn [us_tf us_t us_n us_root] in HA.
  eapply wp_mono; [|apply (uvmfirst_ok s root t l src sz HA Hsz Hsrc Hlen)]. intros [] s' (t' & l' & HA' & Hev & Hl & Hb). exists t', l'.
  destruct (OWN_evolve _ _ _ _ _ _ _ _ _ _ _ _ _ _ HO HA' Hev). done.
Qed.

(** A write to the trapframe. *)
Lemma OWN_write_tf s l us1 u us2 ex m' : OWN s l (us1 ++ [u] ++ us2) ex → only_pages [us_tf u] (ram s) m' → bytes_ok m' →
  changed s l us1 u us2 ex (Mst m' (freelist s)) l u ∧ same_user s (us_t u) (Mst m' (freelist s)) (us_t u) (us_n u).
Proof.
  intros HO Ho Hb. destruct (OWN_mine _ _ _ _ _ _ HO) as (Hnd & Hok & _ & HS). unfold powns in Hnd, Hok. cbn [app] in Hnd, Hok.
  apply NoDup_cons in Hnd as [Hn Hnd]. apply Forall_cons in Hok as [Htf Hok].
  assert (FL (Mst m' (freelist s)) l) as HF.
  { eapply (FL_only_pages s); [apply HO|exact Ho|by apply Forall_singleton|]. intros q ->%list_elem_of_singleton. set_solver. }
  destruct (SP_frame_own s l u (Mst m' (freelist s)) l [us_tf u] HS HF Hb Ho) as (HS' & Hsu & E); [by apply Forall_singleton| |].
  - intros p Hp. split; [intros ->%list_elem_of_singleton; set_solver|]. apply NoDup_app in Hnd as (_ & Hd & _). by apply Hd.
  - split; [|done]. apply OWN_change; [done|done|by rewrite E|]. eapply only_pages_sub; [|exact Ho]. unfold powns. set_solver.
Qed.

(** A write to the trapframe and to user memory. *)
Lemma OWN_write_user s l us1 u us2 ex m' : OWN s l (us1 ++ [u] ++ us2) ex → only_pages (us_tf u :: upages s (us_t u) (us_n u)) (ram s) m' → bytes_ok m' →
  changed s l us1 u us2 ex (Mst m' (freelist s)) l u.
Proof.
  intros HO Ho Hb. destruct (OWN_mine _ _ _ _ _ _ HO) as (Hnd & Hok & _ & [HA Hsm]). unfold powns in Hnd, Hok. cbn [app] in Hnd, Hok. rewrite Forall_forall in Hok.
  assert (∀ q, q ∈ us_tf u :: upages s (us_t u) (us_n u) → page_ok q ∧ (q ∉ l) ∧ (q ∉ tpages (us_t u))) as Hps.
  { intros q [->|Hq]%elem_of_cons; [|by apply (as_own _ _ _ _ _ HA)]. apply NoDup_cons in Hnd as [Hn _]. split; [apply Hok; by left|]. rewrite !elem_of_app in Hn. tauto. }
  destruct (AS_write_pages s _ _ l _ HA _ m' Ho Hb Hps) as [HA' Hpte]. apply OWN_change; [done|split; [done|]| |].
  - intros va Hva. cbn [ram]. rewrite Hpte; [by apply Hsm|]. assert (0 ≤ TRAPFRAME) by done. lia.
  - unfold powns. erewrite upages_ext; [done|]. intros j Hj. apply Hpte. unfold PGSIZE. lia.
  - eapply only_pages_sub; [|exact Ho]. unfold powns. set_solver.
Qed.

(** *** Copying to a process *)

Lemma sys_pte_not_user pa perm : pa mod PGSIZE = 0 → 0 ≤ pa ≤ PHYSTOP → 0 ≤ perm < 1024 → Z.land (Z.lor perm PTE_V) PTE_U = 0 → has (map_pte pa perm) PTE_U = false.
Proof.
  intros Hm Hr Hp Hu. destruct (map_pte_props pa perm) as (_ & _ & E & _); [|done|].
  { split; [|done]. unfold PHYSTOP, KERNBASE in *. lia. }
  unfold has. rewrite <-E in Hu. unfold PTE_FLAGS in Hu. rewrite <-Z.land_assoc in Hu. change (Z.land 0x3FF PTE_U) with PTE_U in Hu. by rewrite Hu.
Qed.

Lemma sysmap_not_user s t tf : sysmap s t tf → page_ok tf → ∀ va, TRAPFRAME ≤ va < MAXVA → has (pte_of (ram s) t va) PTE_U = false.
Proof.
  intros Hsm Htf va Hva. rewrite Hsm by done. pose proof (page_ok_range _ Htf) as Hr. destruct Htf as [Hm _]. case_decide; [unfold tf_pte|unfold tramp_pte].
  - apply sys_pte_not_user; [done|unfold PGSIZE in *; lia|by compute|by compute].
  - apply sys_pte_not_user; [apply trampoline_page|apply trampoline_page|by compute|by compute].
Qed.

(** A buffer of the kernel: in its data, or in a page of [ex]. *)
Definition kernel_buf (ex : list Z) (a len : Z) : Prop := a + len ≤ kend ∨ ∃ pg, pg ∈ ex ∧ pg ≤ a ∧ a + len ≤ pg + PGSIZE.

Lemma kernel_buf_apart s l us ex a len : OWN s l us ex → kernel_buf ex a len → apart (all_owned s us ++ l) a len.
Proof.
  intros [_ _ _ Hnd Hok] Hbuf p Hp. assert (pages_of s l us ex ≡ₚ ex ++ (all_owned s us ++ l)) as HP by (unfold pages_of; solve_Permutation). rewrite HP in Hnd, Hok.
  apply NoDup_app in Hnd as (_ & Hd & _). rewrite Forall_forall in Hok. assert (page_ok p) as [Hm [Hk _]] by (apply Hok, elem_of_app; by right).
  destruct Hbuf as [Hb|(pg & Hpg & Hb)]; [right; lia|]. assert (page_ok pg) as [Hm' _] by (apply Hok, elem_of_app; by left). assert (p ≠ pg) as Hne by (intros ->; by apply (Hd pg)).
  unfold PGSIZE in *. zdm.
Qed.

(** A byte the process cannot write: outside its memory, or in a page it may not
    write. *)
Definition unwritable (s : mst) (u : uspace) (va : Z) : Prop := 0 ≤ va < us_n u * PGSIZE → wpage s (us_t u) va = None.

Lemma unwritable_kept s u s' va : kept s u s' → unwritable s' u va → unwritable s u va.
Proof.
  intros Hk Hw Hva. rewrite <-(Hw Hva). pose proof (su_pte _ _ _ _ _ (kp_user _ _ _ Hk) (va / PGSIZE)) as E.
  assert (∀ m, pte_of m (us_t u) va = pte_of m (us_t u) (va / PGSIZE * PGSIZE)) as Hp by (intros m; apply pte_of_page; [lia|unfold PGSIZE in *; zdm|unfold vpn, PGSIZE in *; zdm]).
  unfold wpage, upage. rewrite !Hp. unfold upte in E. rewrite E; [done|]. unfold PGSIZE in *. zdm.
Qed.

Lemma copyout_own s l us1 u us2 ex dstva src len : OWN s l (us1 ++ [u] ++ us2) ex → 0 ≤ dstva < 2 ^ 64 → 0 ≤ len → kernel_buf ex src len →
  wp (copyout (us_root u) dstva src len) (λ r s', changed s l us1 u us2 ex s' l u ∧
    (∀ a k i, kernel_buf ex a k → 0 ≤ i < k → rd (ram s') (a + i) = rd (ram s) (a + i)) ∧
    (∀ va, 0 ≤ va < us_n u * PGSIZE → ¬ (dstva ≤ va < dstva + len) → ubyte s' (us_t u) va = ubyte s (us_t u) va) ∧
    ((r = 0 ∧ ∀ i, 0 ≤ i < len → 0 ≤ dstva + i < us_n u * PGSIZE ∧ ubyte s' (us_t u) (dstva + i) = rd (ram s) (src + i)) ∨
     (r = -1 ∧ ∃ i, 0 ≤ i < len ∧ unwritable s u (dstva + i)))) s.
Proof.
  intros HO Hva Hlen Hsrc. destruct (OWN_mine _ _ _ _ _ _ HO) as (_ & Hok & _ & HA & Hsm). destruct u as [root t tf n]. cbn [us_tf us_t us_n us_root] in *.
  unfold powns in Hok. cbn [us_tf us_t us_n app] in Hok. apply Forall_cons in Hok as [Htf Hok]. apply Forall_app in Hok as [[_ Hok]%Forall_app _].
  pose proof (sysmap_not_user _ _ _ Hsm Htf) as Hsys.
  assert (∀ p, p ∈ upages s t n → p ∈ all_owned s (us1 ++ [US root t tf n] ++ us2) ++ l) as Hown.
  { intros p Hp. apply elem_of_app. left. apply elem_of_all_owned. exists (US root t tf n). split; [rewrite !elem_of_app; right; left; by left|]. unfold powns. cbn [us_tf us_t us_n]. set_solver. }
  assert (apart (upages s t n) src len) as Hap by (intros p Hp; apply (kernel_buf_apart _ _ _ _ _ _ HO Hsrc); by apply Hown).
  eapply wp_mono; [|apply (copyout_ok s root t l n HA Hsys dstva src len Hva Hlen Hap)]. intros r s' (k & HI & Hr).
  assert (upages s' t n = upages s t n) as Eu by (apply upages_ext; intros j Hj; apply HI; unfold PGSIZE; lia).
  assert (∀ i, 0 ≤ i < k → 0 ≤ dstva + i < n * PGSIZE ∧ ∃ p, p ∈ upages s t n ∧ p ≤ uphys s t (dstva + i) < p + PGSIZE) as Hw.
  { intros i Hi. destruct (co_user s root t l n HA Hsys dstva Hva i) as (? & p & Hp & _ & Hin); [lia|by apply (co_perm _ _ _ _ _ _ _ _ _ HI)|eauto]. }
  split; [|split; [|split]].
  - apply OWN_change; [done|split; [apply HI|]| |].
    + intros va Hv. cbn. rewrite (co_pte _ _ _ _ _ _ _ _ _ HI); [by apply Hsm|]. assert (0 ≤ TRAPFRAME) by done. lia.
    + unfold powns. cbn [us_tf us_t us_n]. by rewrite Eu.
    + intros a Ha. apply (co_old _ _ _ _ _ _ _ _ _ HI). intros i Hi ->.
      destruct (Hw i Hi) as (_ & p & Hp & Hin). apply (Ha p); [|done]. unfold powns. cbn [us_tf us_t us_n]. set_solver.
  - intros a k' i Hbuf Hi. apply (co_old _ _ _ _ _ _ _ _ _ HI). intros j Hj E. destruct (Hw j Hj) as (_ & p & Hp & Hin). destruct (kernel_buf_apart _ _ _ _ _ _ HO Hbuf p); [|lia..]. by apply Hown.
  - intros va Hv Hout. unfold ubyte. destruct (same_entries s s' t va) as (_ & _ & ->); [lia|apply HI|]. apply (co_old _ _ _ _ _ _ _ _ _ HI). intros j Hj E. destruct (Hw j Hj) as (Hr' & _).
    apply (uphys_inj s root t l n HA) in E; [|done..]. assert (k ≤ len) by (destruct Hr as [[_ ->]|[_ [? _]]]; lia). lia.
  - destruct Hr as [[-> ->]|(-> & Hk & Hnw)]; [left|right; split; [done|]; exists k; split; [lia|]; by intros _]. split; [done|]. intros i Hi.
    destruct (Hw i Hi) as (Hur & _). split; [exact Hur|]. unfold ubyte.
    destruct (same_entries s s' t (dstva + i)) as (_ & _ & ->); [lia|apply HI|]. by apply (co_new _ _ _ _ _ _ _ _ _ HI).
Qed.
(** What a process sees is as it was. *)
Lemma ubyte_same s t s' n va : same_user s t s' t n → 0 ≤ va < n * PGSIZE → ubyte s' t va = ubyte s t va.
Proof.
  intros [H1 H2 _] Hva. assert (0 ≤ va / PGSIZE < n) as Hk by (unfold PGSIZE in *; zdm). assert (0 ≤ va mod PGSIZE < PGSIZE) as Ho by (apply Z.mod_pos_bound; done).
  assert (∀ m, pte_of m t va = pte_of m t (va / PGSIZE * PGSIZE)) as Hp by (intros m; apply pte_of_page; [lia|unfold PGSIZE in *; lia|unfold vpn, PGSIZE in *; zdm]).
  unfold ubyte, uphys. rewrite !Hp. fold (upte s t (va / PGSIZE)). fold (upte s' t (va / PGSIZE)). rewrite H1 by done. by apply H2.
Qed.

(** The word [w] is at [va] in the memory of a process. *)
Definition word_at (s : mst) (u : uspace) (va w : Z) : Prop :=
  ∀ i, 0 ≤ i < 4 → 0 ≤ va + i < us_n u * PGSIZE ∧ ubyte s (us_t u) (va + i) = u8 (w / 256 ^ i).

(** A write to memory of the kernel. *)
Lemma OWN_buffer s l us ex m' dst len : OWN s l us ex → (∀ a, ¬ (dst ≤ a < dst + len) → rd m' a = rd (ram s) a) → bytes_ok m' → kernel_buf ex dst len →
  let s' := Mst m' (freelist s) in OWN s' l us ex ∧ (∀ u, u ∈ us → kept s u s') ∧ pages_of s' l us ex = pages_of s l us ex.
Proof.
  intros HO Hrd Hb' Hbuf s'. pose proof (kernel_buf_apart _ _ _ _ _ _ HO Hbuf) as Hap. destruct HO as [HF Hb Hsp Hnd Hok].
  assert (∀ p i, p ∈ all_owned s us ++ l → 0 ≤ i < PGSIZE → rd m' (p + i) = rd (ram s) (p + i)) as Hsame by (intros p i Hp Hi; apply Hrd; specialize (Hap p Hp); lia).
  assert (∀ u, u ∈ us → SP s' l u ∧ kept s u s') as Hall.
  { intros u Hu. destruct (Hsp u Hu) as [HA Hsm].
    assert (∀ p, p ∈ powns s u → p ∈ all_owned s us ++ l) as Hin by (intros p Hp; apply elem_of_app; left; apply elem_of_all_owned; eauto).
    destruct (AS_buffer s (us_root u) (us_t u) l (us_n u) HA m' dst len Hrd Hb') as [HA' Hpte].
    { intros p Hp. apply Hap. unfold total in Hp. rewrite (assoc_L (++)) in Hp. apply elem_of_app in Hp as [Hp|Hp]; [apply Hin; by right|apply elem_of_app; by right]. }
    assert (∀ k, 0 ≤ k → upte s' (us_t u) k = upte s (us_t u) k) as Hup by (intros; apply Hpte; unfold PGSIZE; lia).
    assert (0 ≤ TRAPFRAME) as HT by done.
    split; [split; [done|intros va Hva; cbn; rewrite Hpte by lia; by apply Hsm]|]. split.
    - unfold powns. do 2 f_equal. apply upages_ext. intros k Hk. apply Hup. lia.
    - split; [intros k Hk; apply Hup; lia| |intros va Hva; apply Hpte; lia]. intros k i Hk Hi. apply Hsame; [|done]. apply Hin. right. apply elem_of_app. right. apply elem_of_upages. eauto.
    - intros i Hi. apply Hsame; [|done]. apply Hin. by left. }
  assert (all_owned s' us = all_owned s us) as E.
  { unfold all_owned. f_equal. apply list_fmap_ext. intros i u Hu. apply list_elem_of_lookup_2 in Hu. by destruct (Hall u Hu) as [_ [? _ _]]. }
  assert (pages_of s' l us ex = pages_of s l us ex) as E' by (unfold pages_of; by rewrite E).
  split; [|split; [by intros u Hu; apply Hall|done]]. split; [|done|by intros u Hu; apply Hall|by rewrite E'|by rewrite E'].
  destruct HF as [Hc Hp Hn]. split; [|done|done]. eapply chain_ext; [|exact Hc]. intros p Hpl. cbn. apply load64_ext. intros b Hbb. replace b with (p + (b - p)) by lia. apply Hsame; [apply elem_of_app; by right|unfold PGSIZE; lia].
Qed.
End procmem.
