(* ===== verification/Files.v ===== *)
(** * Open files and file descriptors (kernel/file.c, kernel/pipe.c, kernel/sysfile.c)

    The state of the kernel that system calls on processes and descriptors work
    on: physical memory, the process table, the table of open files, the pipes,
    each in the page it was allocated in, and the inode layer.  The inode layer
    is an interface: the operations file.c and proc.c call, and what they do to
    the references the kernel holds. *)

From S2P Require Import Prelude Machine Ring Pipe Proc Runq Sched Mem Kalloc Vm Vmspec Uvm Procmem.

(** ** The inode layer *)

Class InodeOps (L : Type) := {
  begin_op : M L unit;
  end_op : M L unit;
  idup : nat → M L unit;
  iput : nat → M L unit;
  namei : list Z → M L (option nat)
}.

(** [IL s op R]: inode state [s], inside a transaction if [op], with the
    references [R] held, one entry for each. *)
Class InodeLaws (L : Type) `{!InodeOps L} := {
  IL : L → bool → list nat → Prop;
  IL_perm : ∀ s op R R', R ≡ₚ R' → IL s op R → IL s op R';
  begin_op_ok : ∀ s R, IL s false R → wp begin_op (λ _ s', IL s' true R) s;
  end_op_ok : ∀ s R, IL s true R → wp end_op (λ _ s', IL s' false R) s;
  idup_ok : ∀ s op R ip, IL s op R → ip ∈ R → Z.of_nat (length R) < 1000 → wp (idup ip) (λ _ s', IL s' op (ip :: R)) s;
  iput_ok : ∀ s R ip, IL s true (ip :: R) → wp (iput ip) (λ _ s', IL s' true R) s;
  (** The root directory, as long as nothing else is referenced. *)
  namei_root_ok : ∀ s op, IL s op [] → wp (namei [47; 0]) (λ o s', ∃ ip, o = Some ip ∧ IL s' op [ip]) s
}.

(** ** Open files *)

Inductive fdtype := FD_NONE | FD_PIPE | FD_INODE | FD_DEVICE.

#[export] Instance fdtype_eq_dec : EqDecision fdtype.
Proof. solve_decision. Defined.

Record file := File { ftype : fdtype; fref : Z; freadable : Z; fwritable : Z; fpipe : Z; fip : nat; foff : Z; fmajor : Z }.

Definition file0 : file := File FD_NONE 0 0 0 0 0 0 0.
#[export] Instance file_inhabited : Inhabited file := populate file0.
#[export] Instance pipe_inhabited : Inhabited Pipe.pipe := populate (Pipe.pipe_init []).

Definition set_fref (v : Z) (f : file) : file := File (ftype f) v (freadable f) (fwritable f) (fpipe f) (fip f) (foff f) (fmajor f).
Definition set_ftype (v : fdtype) (f : file) : file := File v (fref f) (freadable f) (fwritable f) (fpipe f) (fip f) (foff f) (fmajor f).

Section sys.
Context `{LY : Layout} {L : Type} `{!InodeOps L}.

Record sys := Sys { mm : mst; kk : kst; ft : list file; pipes : gmap Z Pipe.pipe; lo : L }.

Definition set_mm (m : mst) (s : sys) : sys := Sys m (kk s) (ft s) (pipes s) (lo s).
Definition set_kk (k : kst) (s : sys) : sys := Sys (mm s) k (ft s) (pipes s) (lo s).
Definition set_ft (t : list file) (s : sys) : sys := Sys (mm s) (kk s) t (pipes s) (lo s).
Definition set_pipes (p : gmap Z Pipe.pipe) (s : sys) : sys := Sys (mm s) (kk s) (ft s) p (lo s).
Definition set_lo (l : L) (s : sys) : sys := Sys (mm s) (kk s) (ft s) (pipes s) l.

Definition on_mm {A} (m : M mst A) : M sys A := zoom mm set_mm m.
Definition on_kk {A} (m : M kst A) : M sys A := zoom kk set_kk m.
Definition on_lo {A} (m : M L A) : M sys A := zoom lo set_lo m.

Definition fileat (f : nat) : M sys file := gets (λ s, ft s !!! f).
Definition updf (f : nat) (g : file → file) : M sys unit := modify (λ s, set_ft (alter g f (ft s)) s).
Definition procat (p : nat) : M sys proc := gets (λ s, getp (kk s) p).
Definition setp (p : nat) (g : proc → proc) : M sys unit := on_kk (modify (updp p g)).

(** ** kernel/file.c *)

Definition filealloc : M sys (option nat) :=
  t ← gets ft;
  match list_find (λ f, fref f = 0) t with
  | Some (f, _) => updf f (set_fref 1);; mret (Some f)
  | None => mret None
  end.

Definition filedup (f : nat) : M sys nat :=
  x ← fileat f;
  if fref x <? 1 then panic "filedup" else
  updf f (λ x, set_fref (s32 (fref x + 1)) x);;
  mret f.

(** [pipeclose(pi, writable)]. *)
Definition pipeclose (pi writable : Z) : M sys unit :=
  (if negb (writable =? 0) then
     modify (λ s, set_pipes (alter (Pipe.set_writeopen 0) pi (pipes s)) s);;
     on_kk (modify (wakeup (ChPipeRead pi)))
   else
     modify (λ s, set_pipes (alter (Pipe.set_readopen 0) pi (pipes s)) s);;
     on_kk (modify (wakeup (ChPipeWrite pi))));;
  p ← gets (λ s, pipes s !!! pi);
  if (Pipe.readopen p =? 0) && (Pipe.writeopen p =? 0) then
    on_mm (kfree pi);; modify (λ s, set_pipes (delete pi (pipes s)) s)
  else mret tt.

Definition fileclose (f : nat) : M sys unit :=
  x ← fileat f;
  if fref x <? 1 then panic "fileclose" else
  updf f (λ x, set_fref (s32 (fref x - 1)) x);;
  ff ← fileat f;
  if 0 <? fref ff then mret tt else
  updf f (set_fref 0);;
  updf f (set_ftype FD_NONE);;
  match ftype ff with
  | FD_PIPE => pipeclose (fpipe ff) (fwritable ff)
  | FD_INODE | FD_DEVICE => on_lo begin_op;; on_lo (iput (fip ff));; on_lo end_op
  | FD_NONE => mret tt
  end.

(** [pipealloc(f0, f1)]: the two files, or none on failure.  [pi] is 0 at every
    jump to [bad].  [kalloc] fills the page with 5. *)
Definition pipealloc : M sys (option (nat * nat)) :=
  let bad (f0 f1 : option nat) :=
    (match f0 with Some f => fileclose f | None => mret tt end);;
    (match f1 with Some f => fileclose f | None => mret tt end);;
    mret None in
  f0 ← filealloc;
  match f0 with
  | None => bad f0 None
  | Some r =>
      f1 ← filealloc;
      match f1 with
      | None => bad f0 f1
      | Some w =>
          pi ← on_mm kalloc;
          if pi =? 0 then bad f0 f1 else
          modify (λ s, set_pipes (<[pi := Pipe.pipe_init (replicate (Z.to_nat PIPESIZE) 5)]> (pipes s)) s);;
          updf r (λ f, File FD_PIPE (fref f) 1 0 pi (fip f) (foff f) (fmajor f));;
          updf w (λ f, File FD_PIPE (fref f) 0 1 pi (fip f) (foff f) (fmajor f));;
          mret (Some (r, w))
      end
  end.

(** ** File descriptors (kernel/sysfile.c) *)

(** Code that dereferences [myproc()]. *)
Definition with_me {A} (g : nat → M sys A) : M sys A :=
  c ← gets (λ s, myproc (kk s));
  match c with Some p => g p | None => panic "kerneltrap" end.

(** [argfd] on the value of the argument. *)
Definition argfd (fd : Z) : M sys (option nat) :=
  if (fd <? 0) || (Z.of_nat NOFILE <=? fd) then mret None else
  with_me (λ p, pr ← procat p; mret (ofile pr !!! Z.to_nat fd)).

Definition fdalloc (f : nat) : M sys Z :=
  with_me (λ p,
    pr ← procat p;
    match list_find (λ o, o = None) (ofile pr) with
    | Some (fd, _) => setp p (λ pr, set_ofile (<[fd := Some f]> (ofile pr)) pr);; mret (Z.of_nat fd)
    | None => mret (-1)
    end).

Definition sys_dup (a0 : Z) : M sys Z :=
  o ← argfd a0;
  match o with
  | None => mret (-1)
  | Some f => fd ← fdalloc f; if fd <? 0 then mret (-1) else filedup f;; mret fd
  end.

Definition clear_fd (fd : Z) : M sys unit :=
  with_me (λ p, setp p (λ pr, set_ofile (<[Z.to_nat fd := None]> (ofile pr)) pr)).

Definition sys_close (a0 : Z) : M sys Z :=
  o ← argfd a0;
  match o with
  | None => mret (-1)
  | Some f => clear_fd a0;; fileclose f;; mret 0
  end.

(** [sys_pipe] on the value of its argument.  The locals [fd0] and [fd1] are on the
    kernel stack of the process; [copyout] reads them there. *)
Definition sys_pipe (fd0_at fd1_at : nat → Z) (fdarray : Z) : M sys Z :=
  with_me (λ p,
    o ← pipealloc;
    match o with
    | None => mret (-1)
    | Some (rf, wf) =>
        fd0 ← fdalloc rf;
        fd1 ← (if fd0 <? 0 then mret (-1) else fdalloc wf);
        if (fd0 <? 0) || (fd1 <? 0) then
          (if 0 <=? fd0 then clear_fd fd0 else mret tt);;
          fileclose rf;; fileclose wf;; mret (-1)
        else
        on_mm (on_ram (store32 (fd0_at p) fd0));;
        on_mm (on_ram (store32 (fd1_at p) fd1));;
        pr ← procat p;
        r ← on_mm (copyout (pagetable pr) fdarray (fd0_at p) 4);
        r ← (if r <? 0 then mret r else on_mm (copyout (pagetable pr) (u64 (fdarray + 4)) (fd1_at p) 4));
        if r <? 0 then
          clear_fd fd0;; clear_fd fd1;;
          fileclose rf;; fileclose wf;; mret (-1)
        else mret 0
    end).

(** ** What a process holds *)

Inductive life := Free | Dead | Live.
Definition life_of (st : procstate) : life := match st with UNUSED => Free | ZOMBIE => Dead | _ => Live end.

Record hold := Hold { h_life : life; h_sz : Z; h_pt : Z; h_tf : Z; h_of : list (option nat); h_cwd : option nat }.
Definition hold_of (p : proc) : hold := Hold (life_of (state p)) (sz p) (pagetable p) (trapframe p) (ofile p) (cwd p).
Definition holds (k : kst) : list hold := hold_of <$> procs k.

Lemma lookup_holds k i : (i < length (procs k))%nat → holds k !! i = Some (hold_of (getp k i)).
Proof. intros Hi. unfold holds, getp. rewrite list_lookup_fmap. apply lookup_lt_is_Some in Hi as [x Hx]. by rewrite (lookup_total_Some _ _ _ Hx), Hx. Qed.

Lemma holds_alter k p f : (p < length (procs k))%nat → holds (updp p f k) = <[p := hold_of (f (getp k p))]> (holds k).
Proof.
  intros [x Hp]%lookup_lt_is_Some. unfold holds, updp, getp. cbn [procs set_procs]. rewrite (lookup_total_Some _ _ _ Hp), (list_alter_as_insert f _ _ x Hp). apply list_fmap_insert.
Qed.

(** Projections of the process table that the run queue and [wakeup] keep. *)
Lemma view_updp {A} (g : proc → A) k p f : g (f (getp k p)) = g (getp k p) → g <$> procs (updp p f k) = g <$> procs k.
Proof.
  intros H. apply list_eq. intros i. unfold updp, getp in *. cbn [procs set_procs]. rewrite !list_lookup_fmap, list_lookup_alter. case_decide as Hd; [subst|done].
  destruct (procs k !! i) as [x|] eqn:Hx; [|done]. cbn. rewrite (lookup_total_Some _ _ _ Hx) in H. by rewrite H.
Qed.

Lemma view_enqueue {A} (g : proc → A) p k : (∀ x v, g (set_wait_ticks v x) = g x) → (∀ x v, g (set_rq_next v x) = g x) → g <$> procs (prio_enqueue p k) = g <$> procs k.
Proof.
  intros H1 H2. unfold prio_enqueue, rq_push_tail. set (k1 := updp p (set_wait_ticks 0) k). assert (g <$> procs k1 = g <$> procs k) as <- by (by apply view_updp).
  set (k2 := updp p (set_rq_next None) k1). assert (g <$> procs k2 = g <$> procs k1) as <- by (by apply view_updp).
  destruct (tail _) as [t|]; cbn -[updp]; repeat (case_match || case_decide); try done; by apply (view_updp g).
Qed.

Lemma view_wakeup {A} (g : proc → A) ch k : (∀ x v, g (set_wait_ticks v x) = g x) → (∀ x v, g (set_rq_next v x) = g x) →
  (∀ x, state x = SLEEPING → g (set_state RUNNABLE x) = g x) → g <$> procs (wakeup ch k) = g <$> procs k.
Proof.
  intros H1 H2 H3. unfold wakeup. generalize (seq 0 NPROC). intros l. revert k. induction l as [|p l IH]; [done|]. intros k. cbn [foldl]. rewrite IH. unfold wakeup_one.
  case_decide; [done|]. case_decide as Hs; [|done]. rewrite view_enqueue, view_updp by done. apply view_updp, H3, Hs.
Qed.

Lemma glob_enqueue p k : glob (prio_enqueue p k) = glob k.
Proof. unfold prio_enqueue, rq_push_tail. cbn -[updp]. repeat (case_match || case_decide); done. Qed.

Lemma glob_wakeup ch k : glob (wakeup ch k) = glob k.
Proof.
  unfold wakeup. generalize (seq 0 NPROC). intros l. revert k. induction l as [|p l IH]; [done|]. intros k. cbn [foldl]. rewrite IH. unfold wakeup_one.
  case_decide; [done|]. case_decide; [|done]. by rewrite glob_enqueue.
Qed.

Lemma glob_reparent p k : glob (reparent p k) = glob k.
Proof.
  unfold reparent. generalize (seq 0 NPROC). intros l. revert k. induction l as [|pp l IH]; [done|]. intros k. cbn [foldl]. rewrite IH. unfold reparent_one. case_decide; [|done]. by rewrite glob_wakeup.
Qed.

Lemma fork_tail_glob np p k : glob (fork_tail np p k) = glob k.
Proof. unfold fork_tail, prio_enqueue, rq_push_tail. cbn -[updp]. repeat (case_match || case_decide); done. Qed.

Lemma holds_updp k p f : hold_of (f (getp k p)) = hold_of (getp k p) → holds (updp p f k) = holds k.
Proof. apply view_updp. Qed.

Lemma holds_fields k k' : length (procs k) = NPROC → length (procs k') = NPROC →
  (∀ i, (i < NPROC)%nat → hold_of (field k' i) = hold_of (field k i)) → holds k' = holds k.
Proof.
  intros Hl Hl' H. apply list_eq. intros i. destruct (decide (i < NPROC)%nat) as [Hi|Hi].
  - rewrite !lookup_holds by lia. f_equal. apply (H i Hi).
  - rewrite !lookup_ge_None_2; [done|unfold holds; rewrite length_fmap; lia..].
Qed.

Lemma prio_enqueue_holds p k : holds (prio_enqueue p k) = holds k.
Proof. by apply view_enqueue. Qed.

Lemma wakeup_holds ch k : holds (wakeup ch k) = holds k.
Proof. apply view_wakeup; [done|done|]. intros x Hx. unfold hold_of. cbn. by rewrite Hx. Qed.

Lemma reparent_holds p k : holds (reparent p k) = holds k.
Proof.
  unfold reparent. generalize (seq 0 NPROC). intros l. revert k. induction l as [|pp l IH]; [done|]. intros k. cbn [foldl]. rewrite IH. unfold reparent_one.
  case_decide; [|done]. rewrite wakeup_holds. by apply holds_updp.
Qed.

(** What a process holds and whether it was killed. *)
Definition kview (x : proc) : hold * Z := (hold_of x, killed_flag x).

Lemma wakeup_kview ch k : kview <$> procs (wakeup ch k) = kview <$> procs k.
Proof. apply view_wakeup; [done|done|]. intros x Hx. unfold kview, hold_of. cbn. by rewrite Hx. Qed.

Lemma reparent_kview p k : kview <$> procs (reparent p k) = kview <$> procs k.
Proof.
  unfold reparent. generalize (seq 0 NPROC). intros l. revert k. induction l as [|pp l IH]; [done|]. intros k. cbn [foldl]. rewrite IH. unfold reparent_one.
  case_decide; [|done]. rewrite wakeup_kview. by apply view_updp.
Qed.

Lemma view_at {A} (g : proc → A) k k' i : g <$> procs k' = g <$> procs k → (i < length (procs k))%nat → g (getp k' i) = g (getp k i).
Proof.
  intros E [x Hx]%lookup_lt_is_Some. pose proof (f_equal (λ v, v !! i) E) as Ei. cbn in Ei. rewrite !list_lookup_fmap, Hx in Ei.
  destruct (procs k' !! i) as [x'|] eqn:Hx'; [|done]. cbn in Ei. unfold getp. rewrite (lookup_total_Some _ _ _ Hx), (lookup_total_Some _ _ _ Hx'). by injection Ei.
Qed.

(** The children of [p] go to [init]. *)
Lemma reparent_parents p k i : initproc (glob k) ≠ Some p → length (procs k) = NPROC →
  parent <$> (procs (reparent p k)) !! i = (λ x, if decide (parent x = Some p) then initproc (glob k) else parent x) <$> (procs k) !! i.
Proof.
  intros Hin Hlen. assert (∀ l k, initproc (glob k) ≠ Some p → NoDup l → glob (foldl (reparent_one p) k l) = glob k ∧
    ∀ i, parent <$> procs (foldl (reparent_one p) k l) !! i = (λ x, if decide (i ∈ l ∧ parent x = Some p) then initproc (glob k) else parent x) <$> procs k !! i) as Hall.
  { clear. induction l as [|q l IH]; intros k Hin Hnd; cbn [foldl]; [split; [done|]; intros i; destruct (procs k !! i); cbn; [|done]; by rewrite decide_False by (by intros [?%elem_of_nil _])|].
    apply NoDup_cons in Hnd as [Hq Hnd].
    assert (∃ k', reparent_one p k q = k' ∧ glob k' = glob k ∧ ∀ i, parent <$> procs k' !! i = (λ x, if decide (i = q ∧ parent x = Some p) then initproc (glob k) else parent x) <$> procs k !! i) as (k' & -> & Eg & Ek').
    { eexists. split; [done|]. unfold reparent_one. case_decide as Hd.
      - rewrite glob_wakeup. split; [done|]. intros i. rewrite <-list_lookup_fmap, view_wakeup by done. rewrite list_lookup_fmap. unfold updp. cbn [procs set_procs]. rewrite list_lookup_alter. unfold getp in Hd.
        case_decide as Hi; [subst|destruct (procs k !! i); cbn; [|done]; by rewrite decide_False by naive_solver]. destruct (procs k !! i) as [x|] eqn:Hx; [|done]. rewrite (lookup_total_Some _ _ _ Hx) in Hd. cbn. by rewrite decide_True.
      - split; [done|]. intros i. destruct (procs k !! i) as [x|] eqn:Hx; [|done]. cbn. rewrite decide_False; [done|]. intros [-> Hp]. apply Hd. unfold getp. by rewrite (lookup_total_Some _ _ _ Hx). }
    destruct (IH k') as [E1 E2]; [by rewrite Eg|done|]. split; [congruence|]. intros i. rewrite E2, Eg. specialize (Ek' i). destruct (procs k !! i) as [x|], (procs k' !! i) as [x'|]; try done. cbn in *. injection Ek' as Ek'.
    f_equal. rewrite Ek'. destruct (decide (i = q)) as [->|Hne].
    - rewrite decide_False by tauto. apply decide_ext. set_solver.
    - rewrite (decide_False (P := i = q ∧ _)) by tauto. apply decide_ext. set_solver. }
  destruct seq_NPROC as [Hnd _]. unfold reparent. rewrite (proj2 (Hall (seq 0 NPROC) k Hin Hnd) i). destruct (procs k !! i) as [x|] eqn:Hx; [|done]. apply (f_equal Some), decide_ext. rewrite elem_of_seq.
  apply lookup_lt_Some in Hx. split; [tauto|]. intros ?. split; [lia|done].
Qed.

#[local] Opaque wakeup reparent prio_enqueue.

(** ** The references of the descriptors *)

Definition inode_of (f : file) : option nat := match ftype f with FD_INODE | FD_DEVICE => Some (fip f) | _ => None end.
Definition end_of (f : file) : option (Z * bool) := match ftype f with FD_PIPE => Some (fpipe f, negb (fwritable f =? 0)) | _ => None end.

Definition inodes_held (t : list file) : list nat := omap inode_of t.
Definition ends_held (t : list file) : list (Z * bool) := omap end_of t.

Definition is_open (p : pipe) (w : bool) : Prop := (if w then writeopen p else readopen p) ≠ 0.

(** The descriptors [fds], one entry for each, refer to the table: counts are
    exact and free entries are of no type. *)
Record REFS (t : list file) (fds : list nat) : Prop := {
  rf_len : length t = NFILE;
  rf_fds : ∀ i, i ∈ fds → (i < NFILE)%nat;
  rf_ref : ∀ i f, t !! i = Some f → fref f = Z.of_nat (count_occ Nat.eq_dec fds i);
  rf_free : ∀ i f, t !! i = Some f → i ∉ fds → ftype f = FD_NONE
}.

(** Each end of each pipe is open as long as a file refers to it. *)
Record ENDS (t : list file) (pp : gmap Z pipe) : Prop := {
  en_nodup : NoDup (ends_held t);
  en_open : ∀ pi w, (pi, w) ∈ ends_held t ↔ ∃ p, pp !! pi = Some p ∧ is_open p w;
  en_live : ∀ pi p, pp !! pi = Some p → ∃ w, is_open p w
}.

Lemma REFS_perm t fds fds' : fds ≡ₚ fds' → REFS t fds → REFS t fds'.
Proof.
  intros HP [H1 H2 H3 H4]. split; try done.
  - intros i. rewrite <-HP. apply H2.
  - intros i f Hi. rewrite (H3 i f Hi). f_equal. by apply Permutation_count_occ.
  - intros i f Hi. rewrite <-HP. by apply H4.
Qed.

Lemma count_pos (fds : list nat) i : i ∈ fds ↔ (0 < count_occ Nat.eq_dec fds i)%nat.
Proof. rewrite list_elem_of_In. apply (count_occ_In Nat.eq_dec). Qed.

Lemma omap_insert_perm {A B} (g : A → option B) l i x y :
  l !! i = Some x → option_list (g x) ++ omap g (<[i := y]> l) ≡ₚ option_list (g y) ++ omap g l.
Proof.
  intros Hi. rewrite insert_take_drop by (by eapply lookup_lt_Some). rewrite <-(take_drop_middle l i x Hi) at 3. rewrite !omap_app. cbn.
  destruct (g x), (g y); cbn; solve_Permutation.
Qed.

Lemma ends_insert t i x y : t !! i = Some x → end_of y = end_of x → ends_held (<[i := y]> t) ≡ₚ ends_held t.
Proof. intros Hi E. pose proof (omap_insert_perm end_of t i x y Hi) as HP. rewrite E in HP. by apply Permutation_app_inv_l in HP. Qed.
Lemma inodes_insert t i x y : t !! i = Some x → inode_of y = inode_of x → inodes_held (<[i := y]> t) ≡ₚ inodes_held t.
Proof. intros Hi E. pose proof (omap_insert_perm inode_of t i x y Hi) as HP. rewrite E in HP. by apply Permutation_app_inv_l in HP. Qed.

Lemma ENDS_same t pp i x y : ENDS t pp → t !! i = Some x → end_of y = end_of x → ENDS (<[i := y]> t) pp.
Proof. intros [H1 H2 H3] Hi E. pose proof (ends_insert t i x y Hi E) as HP. split; [by rewrite HP| |done]. intros pi w. by rewrite HP, H2. Qed.

Lemma REFS_upd t fds fds' i x y : REFS t fds → t !! i = Some x → fref y = Z.of_nat (count_occ Nat.eq_dec fds' i) →
  (∀ j, j ≠ i → count_occ Nat.eq_dec fds' j = count_occ Nat.eq_dec fds j) → (i ∉ fds' → ftype y = FD_NONE) → REFS (<[i := y]> t) fds'.
Proof.
  intros [H1 H2 H3 H4] Hi Hy Hoth Hfree. assert (∀ j, j ≠ i → j ∈ fds' ↔ j ∈ fds) as Hin by (intros j Hj; by rewrite !count_pos, Hoth).
  split; [by rewrite length_insert| | |].
  - intros j Hj. destruct (decide (j = i)) as [->|Hne]; [rewrite <-H1; by eapply lookup_lt_Some|]. apply H2. by apply Hin.
  - intros j f [(-> & <- & _)|[Hne Hj]]%list_lookup_insert_Some; [done|]. rewrite Hoth by done. by apply H3.
  - intros j f [(-> & <- & _)|[Hne Hj]]%list_lookup_insert_Some; [done|]. rewrite Hin by done. by apply H4.
Qed.

(** One more reference to [i]. *)
Lemma REFS_cons t fds i x y : REFS t fds → t !! i = Some x → fref y = fref x + 1 → REFS (<[i := y]> t) (i :: fds).
Proof.
  intros HR Hi Hy. eapply REFS_upd; [done|done| | |].
  - rewrite Hy, (rf_ref _ _ HR i x Hi), count_occ_cons_eq by done. lia.
  - intros j Hj. by apply count_occ_cons_neq.
  - intros Hn. exfalso. apply Hn. by left.
Qed.

(** One less. *)
Lemma REFS_uncons t fds i x y : REFS t (i :: fds) → t !! i = Some x → fref y = fref x - 1 → (fref y = 0 → ftype y = FD_NONE) → REFS (<[i := y]> t) fds.
Proof.
  intros HR Hi Hy Hz. pose proof (rf_ref _ _ HR i x Hi) as Hx. rewrite count_occ_cons_eq in Hx by done. eapply REFS_upd; [done|done|lia| |].
  - intros j Hj. by rewrite count_occ_cons_neq.
  - intros Hn. apply Hz. assert (count_occ Nat.eq_dec fds i = 0%nat); [|lia]. rewrite count_pos in Hn. lia.
Qed.

Lemma REFS_free t fds i x : REFS t fds → t !! i = Some x → fref x = 0 ↔ i ∉ fds.
Proof. intros HR Hi. rewrite (rf_ref _ _ HR i x Hi), count_pos. lia. Qed.

Lemma REFS_bound t fds i x : REFS t fds → t !! i = Some x → fref x ≤ Z.of_nat (length fds).
Proof. intros HR Hi. rewrite (rf_ref _ _ HR i x Hi). pose proof (count_occ_bound Nat.eq_dec i fds). lia. Qed.
(** *** Closing one end of a pipe *)

Definition shut (w : bool) (p : pipe) : pipe := if w then set_writeopen 0 p else set_readopen 0 p.
Definition both_shut (p : pipe) : bool := (readopen p =? 0) && (writeopen p =? 0).
Definition after_shut (pp : gmap Z pipe) (pi : Z) (p : pipe) : gmap Z pipe := if both_shut p then delete pi pp else <[pi := p]> pp.

Lemma is_open_shut w p w' : is_open (shut w p) w' ↔ is_open p w' ∧ w' ≠ w.
Proof. unfold is_open, shut. destruct w, w'; cbn; naive_solver. Qed.

Lemma both_shut_open p : both_shut p = true ↔ ∀ w, ¬ is_open p w.
Proof.
  unfold both_shut, is_open. rewrite andb_true_iff, !Z.eqb_eq. split; [by intros [? ?] []; tauto|].
  intros H. pose proof (H true). pose proof (H false). cbn in *. lia.
Qed.

Lemma after_shut_open pp pi p p0 pi' w' : pp !! pi = Some p0 →
  (∃ p', after_shut pp pi p !! pi' = Some p' ∧ is_open p' w') ↔ if decide (pi' = pi) then is_open p w' else ∃ p', pp !! pi' = Some p' ∧ is_open p' w'.
Proof.
  intros Hp. unfold after_shut. case_decide as Hd; [subst|].
  - destruct (both_shut p) eqn:E.
    + rewrite lookup_delete_eq. rewrite both_shut_open in E. split; [naive_solver|intros H; by apply E in H].
    + rewrite lookup_insert_eq. naive_solver.
  - by destruct (both_shut p); rewrite ?lookup_delete_ne, ?lookup_insert_ne by done.
Qed.

Lemma ENDS_close t pp i x y pi w : ENDS t pp → t !! i = Some x → end_of x = Some (pi, w) → end_of y = None →
  ∃ p, pp !! pi = Some p ∧ ENDS (<[i := y]> t) (after_shut pp pi (shut w p)).
Proof.
  intros [H1 H2 H3] Hi Ex Ey. pose proof (omap_insert_perm end_of t i x y Hi) as HP. rewrite Ex, Ey in HP. cbn in HP.
  fold (ends_held t) in HP. fold (ends_held (<[i:=y]> t)) in HP.
  destruct (proj1 (H2 pi w)) as (p & Hp & Ho); [rewrite <-HP; by left|]. exists p. split; [done|].
  rewrite <-HP in H1. apply NoDup_cons in H1 as [Hn Hnd]. split; [done| |].
  - intros pi' w'. rewrite (after_shut_open _ _ _ _ _ _ Hp). specialize (H2 pi' w'). rewrite <-HP, elem_of_cons in H2. case_decide as Hd.
    + subst. rewrite is_open_shut. split.
      * intros Hin. split; [|by intros ->]. destruct (proj1 H2) as (p' & Hp' & ?); [by right|]. by simplify_eq.
      * intros [H Hw]. destruct (proj2 H2 (ex_intro _ p (conj Hp H))) as [[= ->]|?]; done.
    + rewrite <-H2. split; [by right|]. intros [[= ]|?]; done.
  - intros pi' p'. unfold after_shut. destruct (both_shut (shut w p)) eqn:E.
    + intros [_ Hl]%lookup_delete_Some. by eapply H3.
    + intros [[<- <-]|[_ Hl]]%lookup_insert_Some; [|by eapply H3]. apply not_true_iff_false in E. rewrite both_shut_open in E.
      destruct (decide (is_open (shut w p) true)); [eauto|]. destruct (decide (is_open (shut w p) false)); [eauto|]. exfalso. apply E. by intros [].
Qed.

(** Opening both ends of a new pipe. *)
Lemma ENDS_open t pp i j x x' y y' pi p : ENDS t pp → t !! i = Some x → t !! j = Some x' → i ≠ j → end_of x = None → end_of x' = None →
  end_of y = Some (pi, false) → end_of y' = Some (pi, true) → pp !! pi = None → (∀ w, is_open p w) → ENDS (<[j := y']> (<[i := y]> t)) (<[pi := p]> pp).
Proof.
  intros [H1 H2 H3] Hi Hj Hne Ex Ex' Ey Ey' Hpi Ho.
  pose proof (omap_insert_perm end_of t i x y Hi) as HP. rewrite Ex, Ey in HP. cbn in HP.
  assert (<[i := y]> t !! j = Some x') as Hj' by (by rewrite list_lookup_insert_ne).
  pose proof (omap_insert_perm end_of (<[i := y]> t) j x' y' Hj') as HP'. rewrite Ex', Ey', HP in HP'. cbn in HP'.
  assert (∀ w, (pi, w) ∉ ends_held t) as Hnot. { intros w (q & Hq & _)%H2. congruence. }
  split.
  - unfold ends_held at 1. rewrite HP'. apply NoDup_cons. split; [|apply NoDup_cons; split; [apply Hnot|done]]. intros [?|Hin]%elem_of_cons; [done|by apply Hnot in Hin].
  - intros pi' w'. unfold ends_held at 1. rewrite HP', !elem_of_cons. fold (ends_held t). rewrite H2. destruct (decide (pi' = pi)) as [->|Hd].
    + rewrite lookup_insert_eq. split; [intros _; eauto|]. intros _. destruct w'; tauto.
    + rewrite lookup_insert_ne by done. split; [intros [?|[?|?]]; [congruence|congruence|done]|tauto].
  - intros pi' p' [[<- <-]|[_ Hl]]%lookup_insert_Some; [|by eapply H3]. exists true. apply Ho.
Qed.
(** ** The invariant of the files *)

Context `{!InodeLaws L}.

(** The pages of the pipes and of the kernel itself. *)
Definition system_pages (pp : gmap Z pipe) : list Z := elements (dom pp) ++ kernel_pages.

Lemma system_pages_none (pp : gmap Z pipe) pi : (pi ∉ system_pages pp) → pp !! pi = None.
Proof. intros Hn. apply not_elem_of_dom. intros Hd. apply Hn, elem_of_app. left. by apply elem_of_elements. Qed.

Lemma system_pages_insert (pp : gmap Z pipe) pi p : pp !! pi = None → system_pages (<[pi := p]> pp) ≡ₚ pi :: system_pages pp.
Proof. intros Hp. unfold system_pages. rewrite dom_insert_L, elements_union_singleton by (by apply not_elem_of_dom). done. Qed.

Lemma system_pages_update (pp : gmap Z pipe) pi p p' : pp !! pi = Some p → system_pages (<[pi := p']> pp) = system_pages pp.
Proof. intros Hp. unfold system_pages. by rewrite dom_insert_lookup_L by eauto. Qed.

Lemma system_pages_delete (pp : gmap Z pipe) pi p : pp !! pi = Some p → pi :: system_pages (delete pi pp) ≡ₚ system_pages pp.
Proof.
  intros Hp. rewrite <-(insert_delete_id pp pi p Hp) at 2. rewrite system_pages_insert by apply lookup_delete_eq. done.
Qed.

(** The scheduler is in order, every page has one owner, and the descriptors
    [fds] and the working directories [cw] account for every reference. *)
Record KS (s : sys) (op : bool) (qs : list (list nat)) (l : list Z) (us : list uspace) (fds cw : list nat) : Prop := {
  ks_sched : SInv (kk s) qs;
  ks_own : OWN (mm s) l us (system_pages (pipes s));
  ks_refs : REFS (ft s) fds;
  ks_ends : ENDS (ft s) (pipes s);
  ks_lo : IL (lo s) op (inodes_held (ft s) ++ cw)
}.

(** A process is as it was, or it was woken up. *)
Definition roused (x x' : proc) : Prop := x' = x ∨ (life_of (state x) = Live ∧ x' = wake x).

#[export] Instance roused_trans : Transitive roused.
Proof. intros x y z [->|[? ->]] [->|[? ->]]; unfold roused; auto. Qed.

Lemma roused_kview x x' : roused x x' → kview x' = kview x.
Proof. intros [->|[E ->]]; [done|]. unfold kview, hold_of. cbn. by rewrite E. Qed.

(** What calls on files leave alone: processes are at most woken up, their
    memory is as it was, and no page is lost. *)
Record quiet (us : list uspace) (s : sys) (qs : list (list nat)) (l : list Z) (s' : sys) (qs' : list (list nat)) (l' : list Z) : Prop := {
  qt_keeps : keeps (kk s) qs (kk s') qs';
  qt_holds : holds (kk s') = holds (kk s);
  qt_glob : glob (kk s') = glob (kk s);
  qt_field : ∀ i, (i < NPROC)%nat → roused (field (kk s) i) (field (kk s') i);
  qt_kept : ∀ u, u ∈ us → kept (mm s) u (mm s');
  qt_pages : pages_of (mm s') l' us (system_pages (pipes s')) ≡ₚ pages_of (mm s) l us (system_pages (pipes s))
}.

Lemma quiet_trans us s1 q1 l1 s2 q2 l2 s3 q3 l3 : quiet us s1 q1 l1 s2 q2 l2 → quiet us s2 q2 l2 s3 q3 l3 → quiet us s1 q1 l1 s3 q3 l3.
Proof.
  intros [A1 A2 A3 A4 A5 A6] [B1 B2 B3 B4 B5 B6]. split; [by eapply keeps_trans|congruence|congruence| | |by rewrite B6].
  - intros i Hi. etrans; [by apply A4|by apply B4].
  - intros u Hu. eapply kept_trans; [by apply A5|by apply B5].
Qed.

(** A step that changes no more than the files and the inode layer. *)
Lemma quiet_files us s qs l t lo' : SInv (kk s) qs → quiet us s qs l (Sys (mm s) (kk s) t (pipes s) lo') qs l.
Proof. intros HS. split; try done; [by apply keeps_refl|by left]. Qed.

Lemma KS_perm s op qs l us fds cw fds' : fds ≡ₚ fds' → KS s op qs l us fds cw → KS s op qs l us fds' cw.
Proof. intros HP [H1 H2 H3 H4 H5]. split; try done. by eapply REFS_perm. Qed.

(** *** Allocating and sharing files *)

Lemma alter_at {A} `{!Inhabited A} (g : A → A) (t : list A) i x : t !! i = Some x → alter g i t = <[i := g x]> t.
Proof. apply list_alter_as_insert. Qed.

Lemma filealloc_ok s op qs l us fds cw : KS s op qs l us fds cw →
  wp filealloc (λ r s', match r with
    | Some f => ∃ x, ft s !! f = Some x ∧ ftype x = FD_NONE ∧ (f ∉ fds) ∧ s' = set_ft (<[f := set_fref 1 x]> (ft s)) s ∧ KS s' op qs l us (f :: fds) cw
    | None => s' = s ∧ ∀ i, (i < NFILE)%nat → i ∈ fds
    end) s.
Proof.
  intros [H1 H2 H3 H4 H5]. unfold filealloc. wp_step. wp_step. destruct (list_find _ (ft s)) as [[f x]|] eqn:E.
  - apply list_find_Some in E as (Hf & Hz & _). assert (f ∉ fds) as Hn by (by apply (REFS_free (ft s) fds f x H3 Hf)).
    assert (ftype x = FD_NONE) as Ht by (by apply (rf_free _ _ H3 f x)).
    unfold updf. wp_steps. rewrite (alter_at _ _ _ x Hf). exists x. do 4 (split; [done|]). split; try done.
    + apply (REFS_cons (ft s) fds f x); [done|done|cbn; lia].
    + by apply (ENDS_same (ft s) _ f x).
    + eapply IL_perm; [|exact H5]. cbn. by rewrite (inodes_insert (ft s) f x).
  - apply list_find_None in E. wp_steps. split; [done|]. intros i Hi. rewrite <-(rf_len _ _ H3) in Hi. apply lookup_lt_is_Some in Hi as [x Hx].
    destruct (decide (i ∈ fds)) as [|Hn]; [done|]. apply (REFS_free (ft s) fds i x H3 Hx) in Hn. rewrite Forall_forall in E. exfalso. apply (E x); [by eapply list_elem_of_lookup_2|done].
Qed.

Lemma filedup_ok s op qs l us fds cw f : KS s op qs l us fds cw → f ∈ fds → Z.of_nat (length fds) < 10000 →
  wp (filedup f) (λ r s', r = f ∧ ∃ t, s' = set_ft t s ∧ KS s' op qs l us (f :: fds) cw ∧ inodes_held t ≡ₚ inodes_held (ft s)) s.
Proof.
  intros [H1 H2 H3 H4 H5] Hf Hlen. assert (∃ x, ft s !! f = Some x) as [x Hx].
  { apply lookup_lt_is_Some. rewrite (rf_len _ _ H3). by apply (rf_fds _ _ H3). }
  pose proof (REFS_bound _ _ _ _ H3 Hx) as Hb. pose proof (REFS_free _ _ _ _ H3 Hx) as Hz. pose proof (rf_ref _ _ H3 _ _ Hx) as Hr.
  unfold filedup, fileat, updf. wp_steps. rewrite (lookup_total_Some _ _ _ Hx).
  destruct (Z.ltb_spec (fref x) 1) as [Hlt|_]; [exfalso; apply Hz in Hf; [done|lia]|]. wp_steps. split; [done|]. rewrite (alter_at _ _ _ x Hx), s32_id by lia.
  assert (inodes_held (<[f:=set_fref (fref x + 1) x]> (ft s)) ≡ₚ inodes_held (ft s)) as HP by (by apply (inodes_insert (ft s) f x)).
  eexists. split; [done|]. split; [split; try done|done].
  - by apply (REFS_cons (ft s) fds f x).
  - by apply (ENDS_same (ft s) _ f x).
  - eapply IL_perm; [|exact H5]. cbn. by rewrite HP.
Qed.
(** *** Closing files *)

Lemma wakeup_quiet us s qs l ch pp : SInv (kk s) qs → system_pages pp = system_pages (pipes s) →
  ∃ qs', quiet us s qs l (Sys (mm s) (wakeup ch (kk s)) (ft s) pp (lo s)) qs' l.
Proof.
  intros HS Hpp. destruct (wakeup_keeps ch (kk s) qs HS) as (qs' & Hk). exists qs'. destruct (wakeup_ok ch (kk s) qs HS) as (_ & _ & Hf & _ & Hg).
  split; cbn [kk mm pipes]; [done|apply wakeup_holds|done| |by intros; apply kept_refl|by rewrite Hpp]. intros i Hi. rewrite Hf by done. case_decide as Hw; [right; split; [|done]|by left]. destruct Hw as (_ & Hst & _). rewrite state_field in Hst. by rewrite Hst.
Qed.

Lemma pipe_alter (pp : gmap Z pipe) pi p f : pp !! pi = Some p → alter f pi pp = <[pi := f p]> pp.
Proof. intros Hp. rewrite <-(insert_id pp pi p Hp) at 1. apply alter_insert_eq. Qed.

Lemma pipeclose_ok s qs l us pi p wr : SInv (kk s) qs → OWN (mm s) l us (system_pages (pipes s)) → pipes s !! pi = Some p →
  wp (pipeclose pi wr) (λ _ s', ∃ qs' l', ft s' = ft s ∧ lo s' = lo s ∧ pipes s' = after_shut (pipes s) pi (shut (negb (wr =? 0)) p) ∧
    OWN (mm s') l' us (system_pages (pipes s')) ∧ quiet us s qs l s' qs' l') s.
Proof.
  intros HS HO Hp. unfold pipeclose. set (w := negb (wr =? 0)). apply wp_bind.
  assert (∀ (Q : unit → sys → Prop), (∀ ch, Q tt (Sys (mm s) (wakeup ch (kk s)) (ft s) (<[pi := shut w p]> (pipes s)) (lo s))) →
    wp (if w then modify (λ s, set_pipes (alter (set_writeopen 0) pi (pipes s)) s);; on_kk (modify (wakeup (ChPipeRead pi)))
        else modify (λ s, set_pipes (alter (set_readopen 0) pi (pipes s)) s);; on_kk (modify (wakeup (ChPipeWrite pi)))) Q s) as Hfirst.
  { intros Q HQ. destruct w; wp_steps; unfold on_kk; apply wp_zoom; wp_steps; unfold set_pipes, set_kk; cbn [mm kk ft pipes lo]; rewrite (pipe_alter _ _ p) by done; apply HQ. }
  apply Hfirst. intros ch. destruct (wakeup_quiet us s qs l ch (<[pi := shut w p]> (pipes s)) HS) as (qs' & Hq); [by eapply system_pages_update|].
  wp_step. wp_step. cbn [pipes]. rewrite lookup_total_insert_eq. change ((readopen (shut w p) =? 0) && (writeopen (shut w p) =? 0)) with (both_shut (shut w p)).
  unfold after_shut. destruct (both_shut (shut w p)) eqn:E.
  - apply wp_bind. unfold on_mm. apply wp_zoom. cbn [mm]. eapply wp_mono; [|apply (kfree_own (mm s) l us _ _ pi HO (system_pages_delete _ _ _ Hp))].
    intros [] m' (HO' & Hk & Hpg). wp_steps. exists qs', (pi :: l). unfold set_mm, set_pipes. cbn [mm kk ft pipes lo]. rewrite delete_insert_eq. do 3 (split; [done|]). split; [done|].
    destruct Hq as [A1 A2 A3 A4 A5 A6]. split; [exact A1|exact A2|exact A3|exact A4|exact Hk|exact Hpg].
  - wp_steps. exists qs', l. do 3 (split; [done|]). split; [|done]. cbn [mm pipes]. by rewrite (system_pages_update _ _ p) by done.
Qed.
(** The entry is dropped and its object with it. *)
Lemma fileclose_last s qs l us fds cw f x y : KS s false qs l us (f :: fds) cw → ft s !! f = Some x → fref x = 1 → fref y = 0 → ftype y = FD_NONE →
  wp (match ftype x with
      | FD_PIPE => pipeclose (fpipe x) (fwritable x)
      | FD_INODE | FD_DEVICE => on_lo begin_op;; on_lo (iput (fip x));; on_lo end_op
      | FD_NONE => mret tt
      end)
     (λ _ s', ∃ qs' l', KS s' false qs' l' us fds cw ∧ quiet us s qs l s' qs' l') (set_ft (<[f := y]> (ft s)) s).
Proof.
  intros [H1 H2 H3 H4 H5] Hx Hr Hy0 Hy. assert (REFS (<[f := y]> (ft s)) fds) as HR by (apply (REFS_uncons (ft s) fds f x); [done|done|lia|done]).
  assert (inode_of y = None ∧ end_of y = None) as [Ei Ee] by (unfold inode_of, end_of; by rewrite Hy).
  pose proof (omap_insert_perm inode_of (ft s) f x y Hx) as HP. rewrite Ei in HP. cbn [option_list app] in HP. fold (inodes_held (ft s)) in HP. fold (inodes_held (<[f := y]> (ft s))) in HP.
  assert (∀ o, inode_of x = o → end_of x = None → ∀ lo', IL lo' false (inodes_held (<[f := y]> (ft s)) ++ cw) →
    KS (Sys (mm s) (kk s) (<[f := y]> (ft s)) (pipes s) lo') false qs l us fds cw ∧ quiet us s qs l (Sys (mm s) (kk s) (<[f := y]> (ft s)) (pipes s) lo') qs l) as Hno.
  { intros o _ Ex lo' HL. split; [|by apply quiet_files]. split; try done. apply (ENDS_same (ft s) _ f x); [done|done|congruence]. }
  assert (∀ ip, inode_of x = Some ip → end_of x = None → wp (on_lo begin_op;; on_lo (iput ip);; on_lo end_op)
     (λ _ s', ∃ qs' l', KS s' false qs' l' us fds cw ∧ quiet us s qs l s' qs' l') (set_ft (<[f := y]> (ft s)) s)) as Hino.
  { intros ip Eip Ex. rewrite Eip in HP. cbn in HP. unfold on_lo. apply wp_bind, wp_zoom. eapply wp_mono; [|by apply begin_op_ok]. intros [] l1 HL1.
    apply wp_bind, wp_zoom. eapply wp_mono; [|apply (iput_ok _ (inodes_held (<[f := y]> (ft s)) ++ cw)); eapply IL_perm; [|exact HL1]; by rewrite <-HP]. intros [] l2 HL2.
    apply wp_zoom. eapply wp_mono; [|by apply end_op_ok]. intros [] l3 HL3. exists qs, l. by apply (Hno _ Eip Ex). }
  unfold inode_of, end_of in *. destruct (ftype x) eqn:Et; [|clear Hino|by apply Hino|by apply Hino].
  - wp_steps. exists qs, l. cbn in HP. apply (Hno _ eq_refl eq_refl). eapply IL_perm; [|exact H5]. by rewrite HP.
  - cbn in HP. destruct (ENDS_close (ft s) (pipes s) f x y (fpipe x) (negb (fwritable x =? 0)) H4 Hx) as (p & Hp & HE); [unfold end_of; by rewrite Et|unfold end_of; by rewrite Hy|].
    eapply wp_mono; [|apply (pipeclose_ok (set_ft (<[f := y]> (ft s)) s) qs l us (fpipe x) p (fwritable x) H1 H2 Hp)].
    intros [] s' (qs' & l' & Eft & Elo & Epp & HO & Hq). exists qs', l'. cbn [ft lo set_ft pipes] in *. split; [split; [apply Hq|done|by rewrite Eft|by rewrite Eft, Epp|]|by destruct Hq as [? ? ? ? ? ?]; split].
    rewrite Elo, Eft. eapply IL_perm; [|exact H5]. by rewrite HP.
Qed.

Lemma fileclose_ok s qs l us fds cw f : KS s false qs l us (f :: fds) cw → Z.of_nat (length fds) < 10000 →
  wp (fileclose f) (λ _ s', ∃ qs' l', KS s' false qs' l' us fds cw ∧ quiet us s qs l s' qs' l') s.
Proof.
  intros HK Hlen. pose proof HK as [H1 H2 H3 H4 H5]. assert (∃ x, ft s !! f = Some x) as [x Hx].
  { apply lookup_lt_is_Some. rewrite (rf_len _ _ H3). apply (rf_fds _ _ H3). by left. }
  pose proof (REFS_bound _ _ _ _ H3 Hx) as Hb. cbn [length] in Hb. assert (1 ≤ fref x) as Hpos.
  { rewrite (rf_ref _ _ H3 _ _ Hx), count_occ_cons_eq by done. lia. }
  unfold fileclose, fileat, updf. wp_steps. rewrite (lookup_total_Some _ _ _ Hx). destruct (Z.ltb_spec (fref x) 1); [lia|].
  apply wp_bind, wp_modify. rewrite (alter_at _ _ _ x Hx), s32_id by lia. apply wp_bind, wp_gets. cbn [ft set_ft].
  assert (f < length (ft s))%nat as Hf by (by eapply lookup_lt_Some).
  rewrite list_lookup_total_insert_eq by done. cbn [fref set_fref]. destruct (Z.ltb_spec 0 (fref x - 1)) as [Hlt|Hge].
  - wp_steps. exists qs, l. split; [|by apply quiet_files]. split; try done.
    + apply (REFS_uncons (ft s) fds f x); [done|done|done|cbn; lia].
    + by apply (ENDS_same (ft s) _ f x).
    + eapply IL_perm; [|exact H5]. cbn. by rewrite (inodes_insert (ft s) f x).
  - apply wp_bind, wp_modify, wp_bind, wp_modify. cbn [ft set_ft mm kk pipes lo].
    rewrite (alter_at (set_fref 0) _ f (set_fref (fref x - 1) x)) by (by rewrite list_lookup_insert_eq).
    rewrite list_insert_insert_eq. rewrite (alter_at (set_ftype FD_NONE) _ f (set_fref 0 (set_fref (fref x - 1) x))) by (by rewrite list_lookup_insert_eq). rewrite list_insert_insert_eq.
    change (ftype (set_fref (fref x - 1) x)) with (ftype x). apply (fileclose_last s qs l us fds cw f x _ HK Hx); [lia|done|done].
Qed.
(** *** Pipes *)

Lemma REFS_retype t fds i x y : REFS t fds → t !! i = Some x → fref y = fref x → i ∈ fds → REFS (<[i := y]> t) fds.
Proof. intros HR Hi Hy Hin. eapply REFS_upd; [done|done| |done|done]. rewrite Hy. by apply (rf_ref _ _ HR). Qed.

(** The two files of a new pipe. *)
Definition read_end (pi : Z) (f : file) : file := File FD_PIPE (fref f) 1 0 pi (fip f) (foff f) (fmajor f).
Definition write_end (pi : Z) (f : file) : file := File FD_PIPE (fref f) 0 1 pi (fip f) (foff f) (fmajor f).

Lemma KS_pipe s qs l us fds cw r w x x' pi m' l' : KS s false qs l us (w :: r :: fds) cw → (w ∉ r :: fds) → ft s !! r = Some x → ft s !! w = Some x' →
  ftype x = FD_NONE → ftype x' = FD_NONE → (pi ∉ system_pages (pipes s)) → OWN m' l' us (pi :: system_pages (pipes s)) →
  KS (Sys m' (kk s) (<[w := write_end pi x']> (<[r := read_end pi x]> (ft s))) (<[pi := pipe_init (replicate (Z.to_nat PIPESIZE) 5)]> (pipes s)) (lo s))
     false qs l' us (w :: r :: fds) cw.
Proof.
  intros [H1 H2 H3 H4 H5] Hw Hx Hx' Ht Ht' Hpi HO. assert (r ≠ w) as Hne by (intros ->; apply Hw; by left).
  assert (pipes s !! pi = None) as Hnone by (by apply system_pages_none).
  assert (<[r := read_end pi x]> (ft s) !! w = Some x') as Hx2 by (by rewrite list_lookup_insert_ne).
  split; [done| | | |].
  - eapply OWN_perm; [|exact HO]. cbn [pipes]. by rewrite system_pages_insert.
  - apply (REFS_retype _ _ w x'); [|done|done|by left]. apply (REFS_retype _ _ r x); [done|done|done|right; by left].
  - apply (ENDS_open (ft s) (pipes s) r w x x'); try done; [unfold end_of; by rewrite Ht|unfold end_of; by rewrite Ht'|by intros []].
  - eapply IL_perm; [|exact H5]. cbn [ft]. rewrite (inodes_insert _ w x') by (done || (unfold inode_of; by rewrite Ht')). by rewrite (inodes_insert _ r x) by (done || (unfold inode_of; by rewrite Ht)).
Qed.

Lemma pipealloc_ok s qs l us fds cw : KS s false qs l us fds cw → Z.of_nat (length fds) < 9000 →
  wp pipealloc (λ o s', ∃ qs' l', quiet us s qs l s' qs' l' ∧ match o with
    | Some (r, w) => (r ≠ w) ∧ KS s' false qs' l' us (w :: r :: fds) cw ∧ ∃ pi p, end_of (ft s' !!! r) = Some (pi, false) ∧ end_of (ft s' !!! w) = Some (pi, true) ∧ pipes s' !! pi = Some p ∧ contents p = []
    | None => KS s' false qs' l' us fds cw
    end) s.
Proof.
  intros HK Hlen. unfold pipealloc. apply wp_bind. eapply wp_mono; [|by apply filealloc_ok]. intros [r|] s1.
  2: { intros [-> _]. wp_steps. exists qs, l. split; [|done]. destruct s. apply quiet_files, HK. }
  intros (x & Hx & Ht & Hr & E1 & HK1). assert (quiet us s qs l s1 qs l) as Q1 by (rewrite E1; apply quiet_files, HK).
  apply wp_bind. eapply wp_mono; [|by apply filealloc_ok]. intros [w|] s2.
  2: { intros [-> _]. apply wp_bind. eapply wp_mono; [|apply (fileclose_ok s1 qs l us fds cw r HK1); lia]. intros [] s3 (qs3 & l3 & HK3 & Q3). wp_steps. exists qs3, l3. split; [by eapply quiet_trans|done]. }
  intros (x' & Hx' & Ht' & Hw & E2 & HK2). assert (quiet us s qs l s2 qs l) as Q2 by (eapply quiet_trans; [exact Q1|]; rewrite E2; apply quiet_files, HK1).
  apply wp_bind. unfold on_mm. apply wp_zoom. eapply wp_mono; [|apply (kalloc_own _ _ _ _ (ks_own _ _ _ _ _ _ _ HK2))]. intros pi m'. destruct l as [|p l'].
  - intros [-> ->]. cbn [Z.eqb]. destruct s2 as [m2 k2 t2 pp2 lo2]. cbn [set_mm mm kk ft pipes lo].
    assert (r :: w :: fds ≡ₚ w :: r :: fds) as HP by constructor. apply (KS_perm _ _ _ _ _ _ _ (r :: w :: fds)) in HK2; [|done].
    apply wp_bind. eapply wp_mono; [|apply (fileclose_ok _ _ _ _ _ _ r HK2); cbn; lia]. intros [] s3 (qs3 & l3 & HK3 & Q3).
    apply wp_bind. eapply wp_mono; [|apply (fileclose_ok _ _ _ _ _ _ w HK3); lia]. intros [] s4 (qs4 & l4 & HK4 & Q4). wp_steps. exists qs4, l4. split; [|done].
    eapply quiet_trans; [exact Q2|]. by eapply quiet_trans.
  - intros (-> & Hp0 & Hpok & Hnin & HO & Hk & Hpg). rewrite (proj2 (Z.eqb_neq p 0)) by done. wp_steps. unfold updf. wp_steps. rewrite E2, E1 in *. cbn [set_mm set_ft set_pipes mm kk ft pipes lo] in *.
    assert (r ≠ w) as Hne by (intros ->; apply Hw; by left). assert (r < length (ft s))%nat as Hrl by (by eapply lookup_lt_Some).
    assert (<[r := set_fref 1 x]> (ft s) !! r = Some (set_fref 1 x)) as Hx1 by (by apply list_lookup_insert_eq).
    rewrite list_lookup_insert_ne in Hx' by done. assert (w < length (ft s))%nat as Hwl by (by eapply lookup_lt_Some).
    set (t2 := <[w := set_fref 1 x']> (<[r := set_fref 1 x]> (ft s))) in *.
    assert (t2 !! r = Some (set_fref 1 x)) as Hr2 by (unfold t2; by rewrite list_lookup_insert_ne).
    assert (t2 !! w = Some (set_fref 1 x')) as Hw2 by (unfold t2; by rewrite list_lookup_insert_eq by (by rewrite length_insert)).
    rewrite (alter_at _ t2 r _ Hr2). rewrite (alter_at _ _ w (set_fref 1 x')) by (by rewrite list_lookup_insert_ne).
    exists qs, l'. split; [|split; [done|split]].
    + destruct Q2 as [A1 A2 A3 A4 A5 A6]. split; [exact A1|exact A2|exact A3|exact A4|exact Hk|]. unfold set_ft, set_pipes, set_mm. cbn [mm pipes]. etrans; [|exact Hpg]. unfold pages_of. by rewrite system_pages_insert by (by apply system_pages_none).
    + by apply (KS_pipe _ qs (p :: l') us fds cw r w (set_fref 1 x) (set_fref 1 x') p m' l' HK2).
    + exists p. eexists. cbn [ft pipes]. rewrite list_lookup_total_insert_ne, list_lookup_total_insert_eq by (done || by rewrite ?length_insert; unfold t2; rewrite !length_insert).
      rewrite list_lookup_total_insert_eq by (rewrite length_insert; unfold t2; by rewrite !length_insert). do 3 (split; [done || apply lookup_insert_eq|]). by vm_compute.
Qed.
End sys.
