(* ===== verification/Fsrefs.v ===== *)
(** * The inode layer of open files and processes (kernel/fs.c, kernel/log.c)

    [Fs] and [Log] discharge the interface [InodeOps] of [Files]: the operations
    file.c and proc.c call keep the reference counts of the inode table exact and
    the log between transactions.  This is for inodes that have not been unlinked;
    the last [iput] of an unlinked one also frees its blocks. *)

From S2P Require Import Prelude Machine Sync Files Bytes Bio Log Recovery Fs Fsrules Fsdir Fsspec.

Section fsrefs.
Context {U : Type} `{!UserMem U} (st sz : Z).
Notation fsys := (fsys (U := U)).

#[export] Instance fs_inode_ops : Files.InodeOps fsys := {
  begin_op := lift begin_op;
  end_op := lift end_op;
  idup ip := idup ip;; mret tt;
  iput ip := iput ip;
  namei path := namei path
}.

(** The references [R] are those the table counts; no transaction is in the log
    but the one of the caller, which has not written. *)
Record fs_refs (s : fsys) (op : bool) (R : list nat) : Prop := {
  fr_log : ∃ cur dur, INV st sz (flog s) (Contract cur dur [] (if op then 1 else 0));
  fr_small : Z.of_nat (length R) ≤ 1000;
  fr_len : length (itable s) = NINODE;
  fr_in : ∀ k, k ∈ R → (k < NINODE)%nat;
  fr_ref : ∀ k i, itable s !! k = Some i → i_ref i = Z.of_nat (count_occ Nat.eq_dec R k);
  fr_linked : ∀ k i, itable s !! k = Some i → k ∈ R → i_valid i = 0 ∨ d_nlink (i_disk i) ≠ 0;
  fr_table : table_ok (itable s)
}.

Lemma count_le (R : list nat) k : (count_occ Nat.eq_dec R k ≤ length R)%nat.
Proof. induction R as [|x R IH]; cbn; [done|]. destruct (Nat.eq_dec x k); lia. Qed.

Lemma count_in (R : list nat) k : k ∈ R ↔ (0 < count_occ Nat.eq_dec R k)%nat.
Proof. rewrite list_elem_of_In. apply (count_occ_In Nat.eq_dec). Qed.

(** The count of one entry changes. *)
Lemma fs_refs_count s op R R' k i n : fs_refs s op R → itable s !! k = Some i → n = Z.of_nat (count_occ Nat.eq_dec R' k) → Z.of_nat (length R') ≤ 1000 →
  (∀ j, j ≠ k → count_occ Nat.eq_dec R' j = count_occ Nat.eq_dec R j) → (k ∈ R' → k ∈ R) →
  fs_refs (set_itable (<[k := set_i_ref n i]> (itable s)) s) op R'.
Proof.
  intros [H1 H2 H3 H4 H5 H6 H7] Hk -> Hs Hoth Hin. assert (∀ j, j ∈ R' → j ∈ R) as Hsub by (intros j Hj; destruct (decide (j = k)) as [->|Hne]; [auto|]; rewrite count_in in *; by rewrite <-Hoth).
  assert (∀ j, j ≠ k → j ∈ R' ↔ j ∈ R) as Hiff by (intros j Hj; by rewrite !count_in, Hoth).
  split; cbn [flog itable set_itable]; [done|done|by rewrite length_insert|by intros j Hj; apply H4, Hsub| | |].
  - intros j x [(Ek & <- & _)|[Hne Hj]]%list_lookup_insert_Some; [by subst j|]. rewrite Hoth by done. by apply H5.
  - intros j x [(Ek & <- & _)|[Hne Hj]]%list_lookup_insert_Some Hr; [subst j; apply (H6 _ _ Hk), Hin, Hr|]. apply (H6 _ _ Hj). by apply Hsub.
  - assert (∀ j x, <[k := set_i_ref (Z.of_nat (count_occ Nat.eq_dec R' k)) i]> (itable s) !! j = Some x → 0 < i_ref x → ∃ y, itable s !! j = Some y ∧ 0 < i_ref y ∧ i_dev y = i_dev x ∧ i_inum y = i_inum x) as Hold.
    { intros j x [(Ek & <- & _)|[Hne Hj]]%list_lookup_insert_Some Hp; [subst j|by exists x]. exists i. split; [done|]. cbn in Hp. split; [|done]. rewrite (H5 _ _ Hk).
      assert (k ∈ R) as Hr by (apply Hin; rewrite count_in; lia). apply count_in in Hr. lia. }
    intros a b x y Ha Hb Hpa Hpb Ed Ei. destruct (Hold a x Ha Hpa) as (x' & Hx' & ? & Exd & Exi), (Hold b y Hb Hpb) as (y' & Hy' & ? & Eyd & Eyi).
    apply (H7 a b x' y'); congruence || done.
Qed.

Lemma alter_insert {A} (f : A → A) (l : list A) k x : l !! k = Some x → alter f k l = <[k := f x]> l.
Proof. intros H. by apply list_alter_as_insert. Qed.

Lemma idup_refs s op R ip : fs_refs s op R → ip ∈ R → Z.of_nat (length R) < 1000 → wp (Files.idup (L := fsys) ip) (λ _ s', fs_refs s' op (ip :: R)) s.
Proof.
  intros HR Hin Hlen. destruct (lookup_lt_is_Some_2 (itable s) ip) as [i Hi]; [rewrite (fr_len _ _ _ HR); by apply (fr_in _ _ _ HR)|].
  pose proof (fr_ref _ _ _ HR _ _ Hi) as Er. pose proof (count_le R ip) as Hc. cbn [Files.idup fs_inode_ops]. unfold idup, iupd. apply wp_bind, wp_bind, wp_modify, wp_ret, wp_ret.
  rewrite (alter_insert _ _ _ _ Hi), s32_id by lia. eapply fs_refs_count; [done|done|rewrite count_occ_cons_eq by done; lia|cbn [length]; lia|intros j Hj; by apply count_occ_cons_neq|done].
Qed.

Lemma iput_refs s R ip : fs_refs s true (ip :: R) → wp (Files.iput (L := fsys) ip) (λ _ s', fs_refs s' true R) s.
Proof.
  intros HR. assert (ip ∈ ip :: R) as Hin by (by left). destruct (lookup_lt_is_Some_2 (itable s) ip) as [i Hi]; [rewrite (fr_len _ _ _ HR); by apply (fr_in _ _ _ HR)|].
  pose proof (fr_ref _ _ _ HR _ _ Hi) as Er. pose proof (fr_small _ _ _ HR) as Hsm. cbn [length] in Hsm. pose proof (count_le R ip) as Hc. rewrite count_occ_cons_eq in Er by done.
  cbn [Files.iput fs_inode_ops]. unfold iput. apply wp_bind, wp_gets, wp_bind, wp_gets. rewrite (lookup_total_Some _ _ _ Hi).
  assert ((i_ref i =? 1) && negb (i_valid i =? 0) && (d_nlink (i_disk i) =? 0) = false) as ->.
  { destruct (fr_linked _ _ _ HR _ _ Hi Hin) as [->|Hn]; [by rewrite andb_false_r|]. rewrite (proj2 (Z.eqb_neq (d_nlink (i_disk i)) 0)) by done. apply andb_false_r. }
  apply wp_bind, wp_ret, wp_modify. rewrite (alter_insert _ _ _ _ Hi), s32_id by lia.
  eapply fs_refs_count; [done|done|lia|lia|intros j Hj; symmetry; by apply count_occ_cons_neq|by right].
Qed.

Lemma begin_op_refs s R : fs_refs s false R → wp (Files.begin_op (L := fsys)) (λ _ s', fs_refs s' true R) s.
Proof.
  intros [(cur & dur & H1) H2 H3 H4 H5 H6 H7]. apply wp_lift. eapply wp_mono; [|eapply (begin_op_ok st sz _ _ (Contract cur dur [] 1) H1); reflexivity]. intros [] l (HI & _). split; try done. by exists cur, dur.
Qed.

Lemma end_op_refs s R : fs_refs s true R → wp (Files.end_op (L := fsys)) (λ _ s', fs_refs s' false R) s.
Proof.
  intros [(cur & dur & H1) H2 H3 H4 H5 H6 H7]. apply wp_lift. eapply wp_mono; [|eapply (end_op_ok st sz _ _ (Contract cur cur [] 0) H1); reflexivity]. intros [] l (HI & _). split; try done. by exists cur, cur.
Qed.

Lemma namei_root_refs s op : fs_refs s op [] → wp (Files.namei (L := fsys) [47; 0]) (λ o s', ∃ ip, o = Some ip ∧ fs_refs s' op [ip]) s.
Proof.
  intros [H1 H2 H3 H4 H5 H6 H7]. cbn [Files.namei fs_inode_ops]. unfold namei, namex. apply wp_bind, wp_bind. cbn [byte_at Z.eqb slash].
  apply iget_ok; [done| | |].
  - destruct (lookup_lt_is_Some_2 (itable s) 0) as [i Hi]; [rewrite H3; unfold NINODE; lia|]. exists 0%nat, i. split; [done|]. right. by rewrite (H5 _ _ Hi).
  - intros j i Hj. rewrite (H5 _ _ Hj). cbn. lia.
  - intros k t' [G1 (i' & Hi' & (Hpos & _) & i & Hi & Hor) G3 G4]. pose proof (H5 _ _ Hi) as E0. cbn in E0.
    assert (i_ref i' = 1 ∧ i_valid i' = 0) as [Er Ev] by (destruct Hor as [[[? _] _]|(_ & ? & ?)]; [lia|done]). assert (k < NINODE)%nat as Hk by (rewrite <-H3; by eapply lookup_lt_Some).
    apply wp_iter_S. replace (namex_body false (k, [47; 0], replicate (Z.to_nat DIRSIZ) 0)) with (mret (inr (Some k, replicate (Z.to_nat DIRSIZ) 0)) : M fsys ((nat * list Z * list Z) + (option nat * list Z))) by done. apply wp_ret, wp_ret. exists k. split; [done|]. split; cbn [flog itable set_itable]; [done|cbn; lia|by rewrite G1|by intros j ->%list_elem_of_singleton| | |done].
    + intros j x Hx. cbn. destruct (Nat.eq_dec k j) as [<-|Hne]; [rewrite Hi' in Hx; injection Hx as <-; done|]. rewrite G3 in Hx by done. by apply (H5 _ _ Hx).
    + intros j x Hx ->%list_elem_of_singleton. left. congruence.
Qed.

(** The implementation of the interface. *)
Definition fs_inode_laws : Files.InodeLaws fsys.
Proof.
  refine (Files.Build_InodeLaws fsys _ fs_refs _ begin_op_refs end_op_refs _ iput_refs namei_root_refs).
  - intros s op R R' HP [H1 H2 H3 H4 H5 H6 H7]. split; try done; [by rewrite <-HP|by intros k; rewrite <-HP; apply H4| |by intros k i Hi; rewrite <-HP; apply H6].
    intros k i Hi. rewrite (H5 k i Hi). f_equal. by apply Permutation_count_occ.
  - intros. by apply idup_refs.
Defined.
End fsrefs.

(** The file system after the boot on an empty disk. *)
Lemma booted_refs : ∃ lo : fsys (U := flat), fs_refs 2 30 lo false [].
Proof.
  assert (0 ≤ 2 ∧ 0 < 30 ≤ LOGSIZE ∧ 2 + 30 < 2 ^ 31) as Hgeo by (unfold LOGSIZE, MAXOPBLOCKS; lia).
  assert (hdr_ok 2 30 (dread ∅ 2)) as Hok by (apply hdr_ok_zero; lia).
  destruct (proj1 (wp_ok _ _ _) (boot_ok 2 30 1 Hgeo ∅ Hok)) as ([] & l & _ & HI & _).
  exists (Fsys l demo_sb (replicate NINODE (Inode 0 0 0 (Sleeplock 0 0) 0 inhabitant)) 0 [] (Flat (λ _, 0) (λ _, true))).
  assert (∀ k i, replicate NINODE (Inode 0 0 0 (Sleeplock 0 0) 0 inhabitant) !! k = Some i → i_ref i = 0) as Hz by (intros k i [-> _]%lookup_replicate; done).
  split; cbn [flog itable]; [by eexists _, _|done|apply length_replicate|by intros k ?%elem_of_nil|by intros k i ->%Hz|by intros k i _ ?%elem_of_nil|].
  intros a b x y Hx Hy Hp. rewrite (Hz _ _ Hx) in Hp. lia.
Qed.
