(* ===== verification/Proclife.v ===== *)
(** * Processes from creation to reaping (kernel/proc.c)

    [allocproc], [freeproc], [growproc], [fork], [exit] and [wait], and the boot
    operations [procinit], [userinit] and [scheduler], on the state of [Files]:
    they compose the scheduler, the page allocator, address spaces, the table of
    open files and the inode layer.  [procinit] is its part on the process table;
    the semaphore and lock tables it also clears are in [Sync]. *)

From S2P Require Import Prelude Machine Ring Pipe Proc Runq Sched Mem Kalloc Vm Vmspec Uvm Ucopy Procmem Files.

(** ** Operations *)

(** [safestrcpy(s, t, n)] on arrays: at most [n - 1] bytes of [t], then a 0. *)
Fixpoint copy_name (s t : list Z) (n : nat) : list Z :=
  match n, s with
  | S (S _ as n'), _ :: s' =>
      let c := t !!! 0%nat in
      if c =? 0 then c :: <[0%nat := 0]> s' else c :: copy_name s' (drop 1 t) n'
  | S O, _ :: s' => 0 :: s'
  | _, _ => s
  end.

(** [sizeof(struct trapframe)] and the offsets of [a0], [epc] and [sp]. *)
Definition TF_SIZE : Z := 288.
Definition TF_A0 : Z := 112.

Definition TF_EPC : Z := 24.
Definition TF_SP : Z := 48.

Section proclife.
Context `{LY : Layout} {L : Type} `{!InodeOps L}.

#[local] Notation sys := (@Files.sys L).

(** The address of [forkret] and the addresses of the fields [xstate]. *)
Context (forkret : Z) (xstate_at : nat → Z).

Definition freeproc (p : nat) : M sys unit :=
  pr ← procat p;
  (if trapframe pr =? 0 then mret tt else on_mm (kfree (trapframe pr)));;
  setp p (set_trapframe 0);;
  pr ← procat p;
  (if pagetable pr =? 0 then mret tt else on_mm (proc_freepagetable (pagetable pr) (sz pr)));;
  on_kk (modify (freeproc_fields p)).

Definition allocproc : M sys (option nat) :=
  k ← gets kk;
  match list_find (λ p, state p = UNUSED) (procs k) with
  | None => mret None
  | Some (p, _) =>
      on_kk (allocproc_found p);;
      tf ← on_mm kalloc;
      setp p (set_trapframe tf);;
      if tf =? 0 then freeproc p;; mret None else
      pt ← on_mm (proc_pagetable tf);
      setp p (set_pagetable pt);;
      if pt =? 0 then freeproc p;; mret None else
      setp p (λ pr, set_ctx (Context forkret (u64 (kstack pr + PGSIZE)) (replicate 12 0)) pr);;
      mret (Some p)
  end.

Definition growproc (n : Z) : M sys Z :=
  with_me (λ p,
    pr ← procat p;
    if 0 <? n then
      sz' ← on_mm (uvmalloc (pagetable pr) (sz pr) (u64 (sz pr + n)) PTE_W);
      if sz' =? 0 then mret (-1) else setp p (set_sz sz');; mret 0
    else if n <? 0 then
      sz' ← on_mm (uvmdealloc (pagetable pr) (sz pr) (u64 (sz pr + n)));
      setp p (set_sz sz');; mret 0
    else setp p (set_sz (sz pr));; mret 0).

(** [sys_sbrk]. *)
Definition sys_sbrk (n : Z) : M sys Z :=
  with_me (λ p,
    pr ← procat p;
    r ← growproc n;
    if r <? 0 then mret (-1) else mret (sz pr)).

(** One descriptor of [fork]. *)
Definition fork_fd (np p fd : nat) : M sys unit :=
  pr ← procat p;
  match ofile pr !!! fd with
  | Some f => g ← filedup f; setp np (λ x, set_ofile (<[fd := Some g]> (ofile x)) x)
  | None => mret tt
  end.

(** A null [p->cwd] is the fault [kerneltrap] panics on. *)
Definition with_cwd (p : nat) (g : nat → M L unit) : M sys nat :=
  pr ← procat p;
  match cwd pr with Some ip => on_lo (g ip);; mret ip | None => panic "kerneltrap" end.

Definition fork : M sys Z :=
  with_me (λ p,
    o ← allocproc;
    match o with
    | None => mret (-1)
    | Some np =>
        pr ← procat p;
        npr ← procat np;
        r ← on_mm (uvmcopy (pagetable pr) (pagetable npr) (sz pr));
        if r <? 0 then freeproc np;; mret (-1) else
        setp np (set_sz (sz pr));;
        on_mm (on_ram (memmove (trapframe npr) (trapframe pr) TF_SIZE));;
        on_mm (on_ram (store64 (trapframe npr + TF_A0) 0));;
        forM (seq 0 NOFILE) (fork_fd np p);;
        ip ← with_cwd p idup;
        setp np (set_cwd (Some ip));;
        setp np (λ x, set_name (copy_name (name x) (name pr) 16) x);;
        npr ← procat np;
        on_kk (modify (fork_tail np p));;
        mret (pid npr)
    end).

(** One descriptor of [exit]. *)
Definition exit_fd (p fd : nat) : M sys unit :=
  pr ← procat p;
  match ofile pr !!! fd with
  | Some f => fileclose f;; setp p (λ x, set_ofile (<[fd := None]> (ofile x)) x)
  | None => mret tt
  end.

(** [exit(status)] up to the call of [schedule]. *)
Definition exit (status : Z) : M sys unit :=
  with_me (λ p,
    init ← gets (λ s, initproc (glob (kk s)));
    if decide (init = Some p) then panic "init exiting" else
    forM (seq 0 NOFILE) (exit_fd p);;
    on_lo begin_op;;
    with_cwd p iput;;
    on_lo end_op;;
    setp p (set_cwd None);;
    on_kk (exit_enter status)).

(** The status of the zombie [pp] is copied to the parent [p].  The process table
    is kept apart from memory: its word at [&pp->xstate] is written here. *)
Definition copy_xstate (p pp : nat) (addr : Z) : M sys Z :=
  pr ← procat p;
  x ← procat pp;
  on_mm (on_ram (store32 (xstate_at pp) (u32 (xstate x))));;
  on_mm (copyout (pagetable pr) addr (xstate_at pp) 4).

(** The scan of [wait]: a result, or whether there are children. *)
Fixpoint wait_scan (p : nat) (addr : Z) (l : list nat) (havekids : bool) : M sys (Z + bool) :=
  match l with
  | [] => mret (inr havekids)
  | pp :: l' =>
      x ← procat pp;
      if decide (parent x = Some p) then
        if decide (state x = ZOMBIE) then
          r ← (if addr =? 0 then mret 0 else copy_xstate p pp addr);
          if r <? 0 then mret (inl (-1)) else
          freeproc pp;;
          mret (inl (pid x))
        else wait_scan p addr l' true
      else wait_scan p addr l' havekids
  end.

(** [wait(addr)]: [None] when it goes to sleep, to start over when it wakes. *)
Definition wait (addr : Z) : M sys (option Z) :=
  with_me (λ p,
    r ← wait_scan p addr (seq 0 NPROC) false;
    match r with
    | inl v => mret (Some v)
    | inr havekids =>
        k ← gets (λ s, killed p (kk s));
        if negb havekids || negb (k =? 0) then mret (Some (-1))
        else on_kk (sleep_enter (ChProc p));; mret None
    end).


(** ** The first processes *)

(** [procinit], the process table and the run queue. *)
Definition procinit (s : kst) : kst :=
  prio_init (set_procs (imap (λ i p, set_kstack (KSTACK (Z.of_nat i)) (set_state UNUSED p)) (procs s)) s).

(** [userinit], with the array [initcode] in the data of the kernel.  A null
    pointer from [allocproc] is the fault [kerneltrap] panics on. *)
Definition userinit (initcode initcode_size : Z) : M sys unit :=
  o ← allocproc;
  on_kk (modify (λ k, set_glob (Globals o (nextpid (glob k)) (ticks (glob k))) k));;
  match o with
  | None => panic "kerneltrap"
  | Some p =>
      pr ← procat p;
      on_mm (uvmfirst (pagetable pr) initcode initcode_size);;
      setp p (set_sz PGSIZE);;
      on_mm (on_ram (store64 (trapframe pr + TF_EPC) 0));;
      on_mm (on_ram (store64 (trapframe pr + TF_SP) PGSIZE));;
      setp p (λ x, set_name (copy_name (name x) [105; 110; 105; 116; 99; 111; 100; 101; 0] 16) x);;
      ip ← on_lo (namei [47; 0]);
      setp p (set_cwd ip);;
      setp p (set_state RUNNABLE);;
      on_kk (modify (prio_enqueue p))
  end.

(** [alloc_idleproc], with the address of [idle_main]. *)
Definition alloc_idleproc (idle_main : Z) : M sys nat :=
  k ← gets kk;
  match list_find (λ p, state p = UNUSED) (procs k) with
  | None => panic "alloc_idleproc: no free proc"
  | Some (p, _) =>
      setp p (λ x, set_rq_next None (set_wait_ticks 0 (set_base_prio PRIO_MAX (set_prio PRIO_MAX (set_state RUNNABLE
        (set_name (copy_name (name x) [105; 100; 108; 101; 0] 16) (set_pid 0 x)))))));;
      tf ← on_mm kalloc;
      setp p (set_trapframe tf);;
      if tf =? 0 then panic "idle trapframe" else
      pt ← on_mm (proc_pagetable tf);
      setp p (set_pagetable pt);;
      if pt =? 0 then panic "idle pagetable" else
      setp p (λ x, set_ctx (Context idle_main (u64 (kstack x + PGSIZE)) (replicate 12 0)) x);;
      mret p
  end.

(** [scheduler] up to its [swtch] to the idle process. *)
Definition scheduler (idle_main : Z) : M sys unit :=
  on_kk (modify (λ k, set_cpu (set_preempt_pending false (set_c_proc None (mycpu k))) k));;
  idle ← alloc_idleproc idle_main;
  on_kk (modify (λ k, set_cpu (set_idleproc (Some idle) (mycpu k)) k));;
  on_kk (modify (λ k, set_cpu (set_c_proc (Some idle) (mycpu k)) k)).

End proclife.
