(* ===== verification/Procspec.v ===== *)
(** * Ownership of pages and references by processes

    The invariant [SYS] of the state the process and descriptor calls work on,
    and what each call of [Proclife] and [Files] does to it. *)

From S2P Require Import Prelude Machine Ring Pipe Proc Runq Sched Mem Kalloc Vm Vmspec Uvm Ucopy Procmem Files Proclife.

#[local] Opaque wakeup reparent prio_enqueue.

Section procspec.
Context `{LY : Layout} {L : Type} `{!InodeOps L, !InodeLaws L}.
#[local] Notation sys := (@Files.sys L).

(** ** The invariant *)

Definition no_files : list (option nat) := replicate NOFILE None.

(** A slot of the table holds nothing or an address space. *)
Definition slot_ok (h : hold) (o : option uspace) : Prop :=
  match o with
  | None => h = Hold Free 0 0 0 no_files None
  | Some u => (h_life h ≠ Free) ∧ h_pt h = us_root u ∧ h_tf h = us_tf u ∧ us_n u = npg (h_sz h) ∧ 0 ≤ h_sz h ≤ TRAPFRAME ∧
      length (h_of h) = NOFILE ∧ (h_life h = Dead → h_of h = no_files ∧ h_cwd h = None)
  end.

(** All descriptors and all working directories. *)
Definition fds_of (hs : list hold) : list nat := concat ((λ h, omap id (h_of h)) <$> hs).
Definition cwds_of (hs : list hold) : list nat := omap h_cwd hs.

(** [nw] is the slot of a process under construction. *)
Record SYS (nw : option nat) (s : sys) (qs : list (list nat)) (l : list Z) (sp : list (option uspace)) : Prop := {
  sy_ks : KS s false qs l (omap id sp) (fds_of (holds (kk s))) (cwds_of (holds (kk s)));
  sy_slots : Forall2 slot_ok (holds (kk s)) sp;
  sy_cwd : ∀ i h, holds (kk s) !! i = Some h → h_life h = Live → idleproc (mycpu (kk s)) ≠ Some i → nw ≠ Some i → is_Some (h_cwd h)
}.

(** [p] runs on the CPU. *)
Definition runs (s : sys) (p : nat) : Prop := myproc (kk s) = Some p ∧ state (getp (kk s) p) = RUNNING.

(** The pages of the machine, by owner. *)
Definition all_pages (s : sys) (l : list Z) (sp : list (option uspace)) : list Z := pages_of (mm s) l (omap id sp) (system_pages (pipes s)).

(** ** Lists of holdings *)

Lemma omap_id_split (sp : list (option uspace)) i o : sp !! i = Some o →
  ∃ us1 us2, omap id sp = us1 ++ option_list o ++ us2 ∧ (∀ o', omap id (<[i := o']> sp) = us1 ++ option_list o' ++ us2) ∧
    ∀ j v, j ≠ i → sp !! j = Some (Some v) → v ∈ us1 ++ us2.
Proof.
  intros Hi. exists (omap id (take i sp)), (omap id (drop (S i) sp)).
  assert (∀ o' a b, omap id (a ++ o' :: b) = omap id a ++ option_list o' ++ omap (id : option uspace → _) b) as E by (intros [] a b; by rewrite omap_app).
  split; [by rewrite <-E, take_drop_middle|]. split; [intros o'; rewrite insert_take_drop by (by eapply lookup_lt_Some); apply E|].
  intros j v Hj Hv. rewrite <-omap_app. apply list_elem_of_omap. exists (Some v). split; [|done]. apply elem_of_app. destruct (decide (j < i)%nat).
  - left. apply (list_elem_of_lookup_2 _ j). by rewrite lookup_take_lt.
  - right. apply (list_elem_of_lookup_2 _ (j - S i)%nat). rewrite lookup_drop. rewrite <-Hv. f_equal. lia.
Qed.

Lemma fds_of_insert hs i h h' : hs !! i = Some h → omap id (h_of h) ++ fds_of (<[i := h']> hs) ≡ₚ omap id (h_of h') ++ fds_of hs.
Proof.
  intros Hi. unfold fds_of. rewrite list_fmap_insert. destruct (concat_insert_split ((λ h, omap id (h_of h)) <$> hs) i (omap id (h_of h))) as (rest & HP & HP').
  - by rewrite list_lookup_fmap, Hi.
  - rewrite HP, HP'. solve_Permutation.
Qed.

Lemma fds_of_same hs i h h' : hs !! i = Some h → h_of h' = h_of h → fds_of (<[i := h']> hs) ≡ₚ fds_of hs.
Proof. intros Hi E. pose proof (fds_of_insert hs i h h' Hi) as HP. rewrite E in HP. by apply Permutation_app_inv_l in HP. Qed.

Lemma cwds_of_insert hs i h h' : hs !! i = Some h → option_list (h_cwd h) ++ cwds_of (<[i := h']> hs) ≡ₚ option_list (h_cwd h') ++ cwds_of hs.
Proof. apply omap_insert_perm. Qed.

Lemma cwds_of_same hs i h h' : hs !! i = Some h → h_cwd h' = h_cwd h → cwds_of (<[i := h']> hs) ≡ₚ cwds_of hs.
Proof. intros Hi E. pose proof (cwds_of_insert hs i h h' Hi) as HP. rewrite E in HP. by apply Permutation_app_inv_l in HP. Qed.

Lemma length_omap {A B} (g : A → option B) l : (length (omap g l) ≤ length l)%nat.
Proof. induction l as [|x l IH]; [done|]. cbn. destruct (g x); cbn; lia. Qed.

Lemma fds_of_bound hs : Forall (λ h, length (h_of h) = NOFILE) hs → (length (fds_of hs) ≤ NOFILE * length hs)%nat.
Proof.
  induction 1 as [|h hs Hh _ IH]; [done|]. unfold fds_of in *. cbn [fmap list_fmap concat]. rewrite length_app. cbn [length].
  pose proof (length_omap id (h_of h)). lia.
Qed.

Lemma slot_files h o : slot_ok h o → length (h_of h) = NOFILE.
Proof. destruct o; cbn; [tauto|]. by intros ->. Qed.

(** ** Projections *)

Lemma SYS_length nw s qs l sp : SYS nw s qs l sp → length (holds (kk s)) = NPROC ∧ length (procs (kk s)) = NPROC ∧ length sp = NPROC.
Proof.
  intros [[HS _ _ _ _] Hsl _]. pose proof (Repr_procs _ _ (si_repr _ _ HS)) as E. apply Forall2_length in Hsl. unfold holds in *. rewrite length_fmap in *. lia.
Qed.

Lemma SYS_slot nw s qs l sp p : SYS nw s qs l sp → (p < NPROC)%nat →
  holds (kk s) !! p = Some (hold_of (getp (kk s) p)) ∧ ∃ o, sp !! p = Some o ∧ slot_ok (hold_of (getp (kk s) p)) o.
Proof.
  intros HS Hp. destruct (SYS_length _ _ _ _ _ HS) as (E1 & E2 & E3). assert (holds (kk s) !! p = Some (hold_of (getp (kk s) p))) as Hh by (apply lookup_holds; lia).
  split; [done|]. by destruct (Forall2_lookup_l _ _ _ _ _ (sy_slots _ _ _ _ _ HS) Hh) as (o & ? & ?); eauto.
Qed.

Lemma SYS_fds nw s qs l sp : SYS nw s qs l sp → Z.of_nat (length (fds_of (holds (kk s)))) ≤ 1024.
Proof.
  intros HS. destruct (SYS_length _ _ _ _ _ HS) as (E1 & _). pose proof (fds_of_bound (holds (kk s))) as Hb. rewrite E1 in Hb.
  enough (length (fds_of (holds (kk s))) ≤ NOFILE * NPROC)%nat by (unfold NOFILE, NPROC in *; lia). apply Hb.
  apply Forall_forall. intros h Hh. apply list_elem_of_lookup_1 in Hh as [i Hi]. destruct (Forall2_lookup_l _ _ _ _ _ (sy_slots _ _ _ _ _ HS) Hi) as (o & _ & Ho). by eapply slot_files.
Qed.

Lemma runs_lt s qs p : SInv (kk s) qs → runs s p → (p < NPROC)%nat ∧ idleproc (mycpu (kk s)) ≠ Some p.
Proof.
  intros HI [Hm Hr]. destruct (si_cur _ _ HI) as (c & Hc & Hlt). split; [congruence|]. destruct (si_idle _ _ HI) as (i & Hi & _ & Hst). intros E. congruence.
Qed.

(** ** Steps on one slot *)

Lemma KS_perm_cw s op qs l us fds cw cw' : cw ≡ₚ cw' → KS s op qs l us fds cw → KS s op qs l us fds cw'.
Proof. intros HP [H1 H2 H3 H4 H5]. split; try done. eapply IL_perm; [|exact H5]. by rewrite HP. Qed.

Lemma SYS_upd nw nw' s qs l sp s' qs' l' p h' o' fds' cw' :
  SYS nw s qs l sp → (p < NPROC)%nat → holds (kk s') = <[p := h']> (holds (kk s)) → idleproc (mycpu (kk s')) = idleproc (mycpu (kk s)) →
  KS s' false qs' l' (omap id (<[p := o']> sp)) fds' cw' → fds' ≡ₚ fds_of (<[p := h']> (holds (kk s))) → cw' ≡ₚ cwds_of (<[p := h']> (holds (kk s))) →
  slot_ok h' o' → (∀ i, i ≠ p → nw' ≠ Some i → nw ≠ Some i) →
  (h_life h' = Live → idleproc (mycpu (kk s)) ≠ Some p → nw' ≠ Some p → is_Some (h_cwd h')) → SYS nw' s' qs' l' (<[p := o']> sp).
Proof.
  intros HS Hp Eh Ei HK HPf HPc Hok Hnw Hcwd. split.
  - rewrite Eh. eapply KS_perm_cw; [exact HPc|]. by eapply KS_perm.
  - rewrite Eh. apply Forall2_insert; [apply HS|done].
  - rewrite Eh, Ei. intros i h [(-> & <- & _)|[Hne Hi]]%list_lookup_insert_Some; [done|]. intros Hl Hid Hn. apply (sy_cwd _ _ _ _ _ HS i h Hi Hl Hid). by apply Hnw.
Qed.

(** What a step on the slot [p] leaves alone. *)
Record frame (p : nat) (s : sys) (l : list Z) (sp : list (option uspace)) (s' : sys) (l' : list Z) (sp' : list (option uspace)) : Prop := {
  fr_proc : ∀ i, (i < NPROC)%nat → i ≠ p → getp (kk s') i = getp (kk s) i;
  fr_cpu : mycpu (kk s') = mycpu (kk s);
  fr_mem : ∀ i v, i ≠ p → sp !! i = Some (Some v) → kept (mm s) v (mm s');
  fr_pages : all_pages s' l' sp' ≡ₚ all_pages s l sp;
  fr_init : initproc (glob (kk s')) = initproc (glob (kk s))
}.

Lemma frame_trans p s1 l1 sp1 s2 l2 sp2 s3 l3 sp3 : (∀ i, i ≠ p → sp2 !! i = sp1 !! i) →
  frame p s1 l1 sp1 s2 l2 sp2 → frame p s2 l2 sp2 s3 l3 sp3 → frame p s1 l1 sp1 s3 l3 sp3.
Proof.
  intros Hsp [A1 A2 A3 A4 A5] [B1 B2 B3 B4 B5]. split; [|congruence| |by rewrite B4|congruence].
  - intros i Hi Hne. by rewrite B1, A1.
  - intros i v Hne Hv. eapply kept_trans; [by eapply A3|]. eapply B3; [done|]. by rewrite Hsp.
Qed.

Lemma SP_nonzero s l u : SP s l u → us_root u ≠ 0.
Proof. intros [HA _]. pose proof (tpages_ok _ _ _ (vm_pt _ _ _ _ (as_vm _ _ _ _ _ HA))) as Hall. rewrite Forall_forall in Hall.
  assert (us_root u ∈ tpages (us_t u)) as Hin by (apply elem_of_tpages; exists []; apply (as_vm _ _ _ _ _ HA)).
  pose proof (page_ok_range _ (Hall _ Hin)). lia.
Qed.

(** [freeproc] of a process that has an address space and no files. *)
Lemma freeproc_ok nw s qs l sp p u : SYS nw s qs l sp → (p < NPROC)%nat → sp !! p = Some (Some u) → state (getp (kk s) p) = ZOMBIE ∨ state (getp (kk s) p) = USED →
  ofile (getp (kk s) p) = no_files → cwd (getp (kk s) p) = None → nw = None ∨ nw = Some p →
  wp (freeproc p) (λ _ s', ∃ l', SYS None s' qs l' (<[p := None]> sp) ∧ frame p s l sp s' l' (<[p := None]> sp) ∧ ft s' = ft s ∧ pipes s' = pipes s ∧ lo s' = lo s) s.
Proof.
  intros HS Hp Hu Hst Hof Hcw Hnw. destruct (SYS_slot _ _ _ _ _ p HS Hp) as (Hh & o & Ho & Hok). rewrite Hu in Ho. injection Ho as <-. destruct Hok as (_ & Ept & Etf & En & Hsz & _). cbn in Ept, Etf, En, Hsz.
  pose proof (sy_ks _ _ _ _ _ HS) as [H1 H2 H3 H4 H5]. destruct (SYS_length _ _ _ _ _ HS) as (_ & Elen & _).
  destruct (omap_id_split sp p (Some u) Hu) as (us1 & us2 & Esp & Esp' & Hoth). rewrite Esp in H2. cbn [option_list] in H2.
  destruct (OWN_mine _ _ _ _ _ _ H2) as (_ & Hpk & _ & Hspu). unfold powns in Hpk. cbn [app] in Hpk. apply Forall_cons in Hpk as [Htf _]. pose proof (page_ok_range _ Htf) as Htfr.
  unfold freeproc, procat, setp, on_kk, on_mm. wp_steps. rewrite Etf. destruct (Z.eqb_spec (us_tf u) 0); [lia|].
  apply wp_zoom. eapply wp_mono; [|apply (free_space_own _ _ us1 u us2 _ (sz (getp (kk s) p)) H2 En Hsz)]. intros [] m1 Hnext.
  apply wp_bind, wp_zoom. wp_steps. cbn [set_kk set_mm kk mm ft pipes lo]. rewrite getp_updp_eq by lia. cbn [pagetable set_trapframe sz]. rewrite Ept.
  pose proof (SP_nonzero _ _ _ Hspu). destruct (Z.eqb_spec (us_root u) 0); [done|]. apply wp_zoom. cbn [mm set_kk set_mm]. eapply wp_mono; [|exact Hnext]. intros [] m2 (l' & HO & Hk & Hpg).
  apply wp_zoom. wp_steps. unfold set_kk, set_mm. cbn [mm kk ft pipes lo].
  set (k1 := updp p (set_trapframe 0) (kk s)). assert (SInv k1 qs) as HI1 by (by apply SInv_updp).
  assert (state (getp k1 p) = state (getp (kk s) p)) as Est by (unfold k1; by rewrite getp_updp_eq by lia).
  destruct (freeproc_fields_ok k1 qs p HI1 Hp) as (HI2 & Hcpu & _ & Hoi); [by rewrite Est|].
  assert (holds (freeproc_fields p k1) = <[p := Hold Free 0 0 0 no_files None]> (holds (kk s))) as Eh.
  { unfold freeproc_fields. rewrite holds_alter by (unfold k1; rewrite length_updp; lia). unfold k1. rewrite getp_updp_eq, holds_alter, list_insert_insert_eq by lia. rewrite <-Hof, <-Hcw. done. }
  exists l'. split; [|split; [|done]].
  - eapply (SYS_upd nw None s qs l sp _ qs l' p _ None (fds_of (holds (kk s))) (cwds_of (holds (kk s))) HS Hp); [exact Eh|exact (f_equal idleproc Hcpu)|..|done| |done].
    + rewrite Esp'. cbn [option_list app]. split; [exact HI2|exact HO|exact H3|exact H4|exact H5].
    + symmetry. apply (fds_of_same _ _ _ _ Hh). by rewrite <-Hof.
    + symmetry. apply (cwds_of_same _ _ _ _ Hh). by rewrite <-Hcw.
    + intros i Hi _. destruct Hnw as [->| ->]; congruence.
  - split; cbn [kk mm pipes].
    + intros i Hi Hne. rewrite Hoi by done. unfold k1. by rewrite getp_updp_ne.
    + by rewrite Hcpu.
    + intros i v Hne Hv. apply Hk. by eapply Hoth.
    + unfold all_pages. cbn [mm pipes]. by rewrite Esp', Esp.
    + done.
Qed.

(** *** Creating a process *)

Lemma alloc_kst k qs p F g : SInv k qs → (p < NPROC)%nat → state (getp k p) = UNUSED → state (F (getp k p)) ≠ RUNNABLE → state (F (getp k p)) ≠ RUNNING → prio (F (getp k p)) = PRIO_DEFAULT →
  let k' := updp p F (set_glob g k) in
  SInv k' qs ∧ mycpu k' = mycpu k ∧ (∀ i, (i < NPROC)%nat → i ≠ p → getp k' i = getp k i) ∧ holds k' = <[p := hold_of (F (getp k p))]> (holds k) ∧ getp k' p = F (getp k p).
Proof.
  intros HI Hp Hst H1 H2 Hpr k'. destruct (glob_keeps k qs g HI) as (HI1 & _). pose proof (Repr_procs _ _ (si_repr _ _ HI)) as Hlen.
  assert (getp k' p = F (getp k p)) as E by (unfold k'; by rewrite getp_updp_eq by (cbn; lia)).
  split; [|split; [done|split; [|split; [|done]]]].
  - apply SInv_set_state; [done|done|change (state (getp k p) ≠ RUNNABLE); by rewrite Hst|done| |done]. unfold prio_ok. change (getp (set_glob g k) p) with (getp k p). rewrite Hpr. by compute.
  - intros i Hi Hne. unfold k'. by rewrite getp_updp_ne.
  - unfold k'. by rewrite holds_alter by (cbn; lia).
Qed.

Lemma freeproc_partial s p (Q : unit → sys → Prop) : (p < length (procs (kk s)))%nat → pagetable (getp (kk s) p) = 0 →
  wp (if trapframe (getp (kk s) p) =? 0 then mret tt else kfree (trapframe (getp (kk s) p)))
     (λ _ m', Q tt (Sys m' (freeproc_fields p (updp p (set_trapframe 0) (kk s))) (ft s) (pipes s) (lo s))) (mm s) → wp (freeproc p) Q s.
Proof.
  intros Hp Hpt Hw. unfold freeproc, procat, setp, on_kk, on_mm. wp_step. wp_step. apply wp_bind.
  assert (∀ m', Q tt (Sys m' (freeproc_fields p (updp p (set_trapframe 0) (kk s))) (ft s) (pipes s) (lo s)) →
    wp (zoom kk set_kk (modify (updp p (set_trapframe 0)));; (pr ← gets (λ s0 : sys, getp (kk s0) p);
       (if pagetable pr =? 0 then mret tt else zoom mm set_mm (proc_freepagetable (pagetable pr) (sz pr)));; zoom kk set_kk (modify (freeproc_fields p)))) Q (set_mm m' s)) as Hrest.
  { intros m' HQ. apply wp_bind, wp_zoom, wp_modify, wp_bind, wp_gets. cbn [kk set_kk set_mm]. rewrite getp_updp_eq by done. cbn [pagetable set_trapframe]. rewrite Hpt.
    apply wp_bind, wp_ret, wp_zoom, wp_modify. exact HQ. }
  destruct (trapframe (getp (kk s) p) =? 0).
  - apply wp_ret. replace s with (set_mm (mm s) s) by (by destruct s). apply Hrest. by apply wp_ret in Hw.
  - apply wp_zoom. eapply wp_mono; [|exact Hw]. intros [] m' HQ. by apply Hrest.
Qed.

Definition fresh_proc (k : kst) (p : nat) : proc :=
  set_rq_next None (set_wait_ticks 0 (set_prio PRIO_DEFAULT (set_base_prio PRIO_DEFAULT (set_state USED (set_pid (nextpid (glob k)) (getp k p)))))).

Lemma Free_slot nw s qs l sp p : SYS nw s qs l sp → (p < NPROC)%nat → state (getp (kk s) p) = UNUSED →
  sp !! p = Some None ∧ hold_of (getp (kk s) p) = Hold Free 0 0 0 no_files None.
Proof.
  intros HS Hp Hst. destruct (SYS_slot _ _ _ _ _ p HS Hp) as (_ & o & Ho & Hok). destruct o as [u|]; [|done].
  destruct Hok as [Hl _]. cbn in Hl. by rewrite Hst in Hl.
Qed.

(** The slot is free again. *)
Lemma alloc_undo s qs l sp p F g m' l' : SYS None s qs l sp → (p < NPROC)%nat → state (getp (kk s) p) = UNUSED → hold_of (F (getp (kk s) p)) = hold_of (getp (kk s) p) →
  prio (F (getp (kk s) p)) = PRIO_DEFAULT → OWN m' l' (omap id sp) (system_pages (pipes s)) → (∀ v, v ∈ omap id sp → kept (mm s) v m') →
  pages_of m' l' (omap id sp) (system_pages (pipes s)) ≡ₚ all_pages s l sp → initproc g = initproc (glob (kk s)) →
  let s' := Sys m' (updp p F (set_glob g (kk s))) (ft s) (pipes s) (lo s) in SYS None s' qs l' sp ∧ frame p s l sp s' l' sp.
Proof.
  intros HS Hp Hst HF Hpr HO Hk Hpg Hin s'. pose proof HS as [[H1 H2 H3 H4 H5] Hsl Hcw]. assert (life_of (state (F (getp (kk s) p))) = Free) as Hfree by (change (h_life (hold_of (F (getp (kk s) p))) = Free); rewrite HF; cbn; by rewrite Hst).
  assert (state (F (getp (kk s) p)) = UNUSED) as HU by (by destruct (state (F _))).
  destruct (alloc_kst (kk s) qs p F g H1 Hp Hst) as (HI & Hc & Hi & Eh & _); [by rewrite HU|by rewrite HU|done|].
  assert (holds (kk s') = holds (kk s)) as Eh'. { cbn [kk s']. rewrite Eh, HF. apply list_insert_id. by destruct (SYS_slot _ _ _ _ _ p HS Hp). }
  split.
  - split; rewrite Eh'; [|exact Hsl|exact Hcw]. split; [exact HI|exact HO|exact H3|exact H4|exact H5].
  - split; [exact Hi|exact Hc| |exact Hpg|exact Hin]. intros i v Hne Hv. apply Hk. apply list_elem_of_omap. exists (Some v). split; [by eapply list_elem_of_lookup_2|done].
Qed.

Context (forkret : Z).

(** The process [allocproc] returns. *)
Definition new_proc (k : kst) (p : nat) (r tf : Z) : proc :=
  set_ctx (Context forkret (u64 (kstack (getp k p) + PGSIZE)) (replicate 12 0)) (set_pagetable r (set_trapframe tf (fresh_proc k p))).

Definition alloc_post (s : sys) (qs : list (list nat)) (l : list Z) (sp : list (option uspace)) (o : option nat) (s' : sys) : Prop :=
  ft s' = ft s ∧ pipes s' = pipes s ∧ lo s' = lo s ∧ ∃ l', match o with
  | None => SYS None s' qs l' sp ∧ ((s' = s ∧ l' = l ∧ ∀ i, (i < NPROC)%nat → state (getp (kk s) i) ≠ UNUSED) ∨ ((length l ≤ 6)%nat ∧ ∃ np, state (getp (kk s) np) = UNUSED ∧ frame np s l sp s' l' sp))
  | Some np => ∃ r t tf, let sp' := <[np := Some (US r t tf 0)]> sp in (np < NPROC)%nat ∧ state (getp (kk s) np) = UNUSED ∧ sp !! np = Some None ∧
      SYS (Some np) s' qs l' sp' ∧ frame np s l sp s' l' sp' ∧ getp (kk s') np = new_proc (kk s) np r tf ∧ (length l ≤ length l' + 6)%nat
  end.

Section alloc.
Context (s : sys) (qs : list (list nat)) (l : list Z) (sp : list (option uspace)) (HS : SYS None s qs l sp).
Context (p : nat) (Hp : (p < NPROC)%nat) (HU : state (getp (kk s) p) = UNUSED).
Context (us1 us2 : list uspace) (Esp : omap id sp = us1 ++ us2) (Esp' : ∀ o', omap id (<[p := o']> sp) = us1 ++ option_list o' ++ us2).
Context (Hoth : ∀ j v, j ≠ p → sp !! j = Some (Some v) → v ∈ us1 ++ us2).

Definition next_glob : globals := set_nextpid (s32 (nextpid (glob (kk s)) + 1)) (glob (kk s)).

Lemma free_fields : hold_of (getp (kk s) p) = Hold Free 0 0 0 no_files None.
Proof. by apply (Free_slot None s qs l sp p HS Hp HU). Qed.

(** A failure: [freeproc] on a slot without a page table. *)
Lemma alloc_fail F m1 l1 tf : (let x := getp (kk s) p in trapframe (F x) = tf ∧ pagetable (F x) = 0 ∧ hold_of (scrub (set_trapframe 0 (F x))) = Hold Free 0 0 0 (ofile x) (cwd x) ∧ prio (F x) = PRIO_DEFAULT) →
  (if decide (tf = 0) then OWN m1 l1 (omap id sp) (system_pages (pipes s)) ∧ pages_of m1 l1 (omap id sp) (system_pages (pipes s)) ≡ₚ all_pages s l sp
   else OWN m1 l1 (omap id sp) (tf :: system_pages (pipes s)) ∧ pages_of m1 l1 (omap id sp) (tf :: system_pages (pipes s)) ≡ₚ all_pages s l sp) →
  (∀ v, v ∈ omap id sp → kept (mm s) v m1) → (length l ≤ 6)%nat →
  wp (freeproc p;; mret None) (alloc_post s qs l sp) (Sys m1 (updp p F (set_glob next_glob (kk s))) (ft s) (pipes s) (lo s)).
Proof.
  intros HF HO Hk Hl6. destruct (SYS_length _ _ _ _ _ HS) as (_ & Elen & _). set (k1 := updp p F (set_glob next_glob (kk s))).
  assert (getp k1 p = F (getp (kk s) p)) as Eg by (unfold k1; by rewrite getp_updp_eq by (cbn; lia)). destruct HF as (Etf & Ept & Eh & Epr).
  apply wp_bind, freeproc_partial; cbn [kk mm ft pipes lo]; [unfold k1; rewrite length_updp; cbn; lia|by rewrite Eg|]. rewrite Eg, Etf.
  assert (∀ m' l', OWN m' l' (omap id sp) (system_pages (pipes s)) → (∀ v, v ∈ omap id sp → kept (mm s) v m') → pages_of m' l' (omap id sp) (system_pages (pipes s)) ≡ₚ all_pages s l sp →
    alloc_post s qs l sp None (Sys m' (freeproc_fields p (updp p (set_trapframe 0) k1)) (ft s) (pipes s) (lo s))) as Hdone.
  { intros m' l' HO' Hk' Hpg'. unfold freeproc_fields, k1. rewrite !updp_updp. pose proof free_fields as Hff.
    destruct (alloc_undo s qs l sp p (λ x, scrub (set_trapframe 0 (F x))) next_glob m' l' HS Hp HU) as [HS' Hfr]; [|done|done|done|done|done|].
    - rewrite Eh, Hff. f_equal; [change (h_of (hold_of (getp (kk s) p)) = no_files)|change (h_cwd (hold_of (getp (kk s) p)) = None)]; by rewrite Hff.
    - do 3 (split; [done|]). exists l'. split; [exact HS'|right; split; [exact Hl6|by exists p]]. }
  case_decide as Hd.
  - rewrite Hd. apply wp_ret, wp_ret. destruct HO. by apply (Hdone m1 l1).
  - destruct (Z.eqb_spec tf 0); [done|]. destruct HO as [HO Hpg]. eapply wp_mono; [|apply (kfree_own _ _ _ _ (system_pages (pipes s)) tf HO); done]. intros [] m2 (HO2 & Hk2 & Hpg2). apply wp_ret.
    apply (Hdone m2 (tf :: l1)); [done| |by rewrite Hpg2]. intros v Hv. eapply kept_trans; [by apply Hk|by apply Hk2].
Qed.

End alloc.

Lemma allocproc_body s qs l sp p us1 us2 : SYS None s qs l sp → (p < NPROC)%nat → state (getp (kk s) p) = UNUSED →
  omap id sp = us1 ++ us2 → (∀ o', omap id (<[p := o']> sp) = us1 ++ option_list o' ++ us2) → (∀ j v, j ≠ p → sp !! j = Some (Some v) → v ∈ us1 ++ us2) →
  wp (
    tf ← on_mm kalloc;
    setp p (set_trapframe tf);;
    if tf =? 0 then freeproc p;; mret None else
    pt ← on_mm (proc_pagetable tf);
    setp p (set_pagetable pt);;
    if pt =? 0 then freeproc p;; mret None else
    setp p (λ pr, set_ctx (Context forkret (u64 (kstack pr + PGSIZE)) (replicate 12 0)) pr);;
    mret (Some p)) (alloc_post s qs l sp)
  (Sys (mm s) (updp p (λ x, set_rq_next None (set_wait_ticks 0 (set_prio PRIO_DEFAULT (set_base_prio PRIO_DEFAULT (set_state USED (set_pid (nextpid (glob (kk s))) x))))))
     (set_glob (next_glob s) (kk s))) (ft s) (pipes s) (lo s)).
Proof.
  intros HS Hp HU Esp Esp' Hoth. pose proof (sy_ks _ _ _ _ _ HS) as [H1 H2 H3 H4 H5]. pose proof (free_fields s qs l sp HS p Hp HU) as Hff.
  apply wp_bind. unfold on_mm at 1. apply wp_zoom. cbn [mm]. eapply wp_mono; [|apply (kalloc_own _ _ _ _ H2)]. intros tf m1 Hkal.
  apply wp_bind. unfold setp, on_kk. apply wp_zoom, wp_modify. unfold set_mm, set_kk. cbn [mm kk ft pipes lo]. rewrite updp_updp.
  destruct l as [|tf' l1].
  { destruct Hkal as [-> ->]. cbn [Z.eqb]. eapply (alloc_fail s qs [] sp HS p Hp HU _ _ [] 0); [split; [done|split; [exact (f_equal h_pt Hff)|done]]|done|by intros; apply kept_refl|cbn [length]; lia]. }
  destruct Hkal as (-> & Hp0 & Hpok & Hnin & HO1 & Hk1 & Hpg1). rewrite (proj2 (Z.eqb_neq tf' 0)) by done. rewrite Esp in HO1, Hpg1.
  apply wp_bind. unfold on_mm. apply wp_zoom. cbn [mm]. eapply wp_mono; [|apply (proc_pagetable_own _ _ _ _ _ _ HO1)]. intros pt m2 (l2 & Hk2 & Hpt).
  assert (∀ v, v ∈ omap id sp → kept (mm s) v m2) as Hk12. { intros v Hv. rewrite Esp in Hk1, Hv. eapply kept_trans; [by apply Hk1|by apply Hk2]. }
  apply wp_bind, wp_zoom, wp_modify. unfold set_mm, set_kk. cbn [mm kk ft pipes lo]. rewrite updp_updp. destruct Hpt as [(Hpt0 & t & HO2 & Hpg2 & Hlen2)|(-> & HO2 & Hpg2 & Hlen2)].
  2: { cbn [Z.eqb]. eapply (alloc_fail s qs _ sp HS p Hp HU _ _ l2 tf'); [done| |done|cbn [length]; lia]. rewrite decide_False, Esp by done. split; [done|]. rewrite Hpg2, Hpg1. unfold all_pages. by rewrite Esp. }
  rewrite (proj2 (Z.eqb_neq pt 0)) by done. apply wp_bind, wp_zoom, wp_modify, wp_ret. unfold set_kk. cbn [mm kk ft pipes lo]. rewrite updp_updp.
  do 3 (split; [done|]). exists l2, pt, t, tf'. destruct (Free_slot _ _ _ _ _ p HS Hp HU) as [Hnone _]. destruct (SYS_slot _ _ _ _ _ p HS Hp) as (Hh & _).
  match goal with |- context [updp p ?F _] => set (G := F) end. destruct (alloc_kst (kk s) qs p G (next_glob s) H1 Hp HU) as (HI & Hc & Hi & Eh & Eg); [done|done|done|].
  assert (hold_of (G (getp (kk s) p)) = Hold Live 0 pt tf' no_files None) as EG.
  { change (hold_of (G (getp (kk s) p))) with (Hold Live (h_sz (hold_of (getp (kk s) p))) pt tf' (h_of (hold_of (getp (kk s) p))) (h_cwd (hold_of (getp (kk s) p)))). by rewrite Hff. }
  rewrite EG in Eh. do 3 (split; [done|]). split; [|split; [|split; [exact Eg|cbn [length]; lia]]].
  - eapply (SYS_upd None (Some p) s qs _ sp _ qs l2 p _ (Some (US pt t tf' 0)) (fds_of (holds (kk s))) (cwds_of (holds (kk s))) HS Hp); [exact Eh|exact (f_equal idleproc Hc)|..].
    + rewrite Esp'. split; [exact HI|exact HO2|exact H3|exact H4|exact H5].
    + symmetry. apply (fds_of_same _ _ _ _ Hh). by rewrite Hff.
    + symmetry. apply (cwds_of_same _ _ _ _ Hh). by rewrite Hff.
    + cbn. split; [done|]. split; [done|]. split; [done|]. split; [by compute|]. split; [by compute|]. done.
    + done.
    + done.
  - split; [exact Hi|exact Hc| | |].
    + intros i v Hne Hv. apply Hk12. rewrite Esp. by eapply Hoth.
    + unfold all_pages. cbn [mm pipes]. rewrite Esp', Esp. etrans; [exact Hpg2|exact Hpg1].
    + done.
Qed.
Lemma allocproc_ok s qs l sp : SYS None s qs l sp → wp (allocproc forkret) (alloc_post s qs l sp) s.
Proof.
  intros HS. unfold allocproc. apply wp_bind, wp_gets. destruct (list_find _ (procs (kk s))) as [[p x]|] eqn:Ef.
  2: { apply wp_ret. do 3 (split; [done|]). exists l. split; [done|]. left. do 2 (split; [done|]). intros i Hi Hu. apply list_find_None in Ef. rewrite Forall_forall in Ef. destruct (SYS_length _ _ _ _ _ HS) as (_ & El & _).
    destruct (lookup_lt_is_Some_2 (procs (kk s)) i) as [x Hx]; [lia|]. apply (Ef x); [by eapply list_elem_of_lookup_2|]. unfold getp in Hu. by rewrite (lookup_total_Some _ _ _ Hx) in Hu. }
  apply list_find_Some in Ef as (Hx & Hst & _). destruct (SYS_length _ _ _ _ _ HS) as (_ & Elen & _). pose proof (lookup_lt_Some _ _ _ Hx) as Hp. rewrite Elen in Hp.
  assert (state (getp (kk s) p) = UNUSED) as HU by (unfold getp; by rewrite (lookup_total_Some _ _ _ Hx)).
  destruct (Free_slot _ _ _ _ _ p HS Hp HU) as [Hnone _]. destruct (omap_id_split sp p None Hnone) as (us1 & us2 & Esp & Esp' & Hoth).
  apply wp_bind. unfold on_kk. apply wp_zoom. unfold allocproc_found, allocpid. apply wp_bind, wp_bind, wp_gets, wp_bind, wp_modify, wp_ret, wp_modify.
  by apply (allocproc_body s qs l sp p us1 us2 HS Hp HU).
Qed.

(** *** Changing the memory of a process *)

(** An update of fields the scheduler does not use, and not of the files. *)
Definition mem_only (f : proc → proc) : Prop :=
  ∀ x, (rq_next (f x) = rq_next x ∧ prio (f x) = prio x ∧ state (f x) = state x) ∧ ofile (f x) = ofile x ∧ cwd (f x) = cwd x.

Lemma SYS_mem nw s qs l sp p u us1 us2 m' l' u' f : SYS nw s qs l sp → (p < NPROC)%nat → sp !! p = Some (Some u) →
  (∀ o', omap id (<[p := o']> sp) = us1 ++ option_list o' ++ us2) → (∀ j v, j ≠ p → sp !! j = Some (Some v) → v ∈ us1 ++ us2) → omap id sp = us1 ++ [u] ++ us2 →
  changed (mm s) l us1 u us2 (system_pages (pipes s)) m' l' u' → mem_only f → slot_ok (hold_of (f (getp (kk s) p))) (Some u') →
  let s' := Sys m' (updp p f (kk s)) (ft s) (pipes s) (lo s) in SYS nw s' qs l' (<[p := Some u']> sp) ∧ frame p s l sp s' l' (<[p := Some u']> sp).
Proof.
  intros HS Hp Hu Esp' Hoth Esp [HO Hk Hpg] Hf Hok s'. pose proof (sy_ks _ _ _ _ _ HS) as [H1 H2 H3 H4 H5]. destruct (SYS_length _ _ _ _ _ HS) as (_ & Elen & _).
  destruct (SYS_slot _ _ _ _ _ p HS Hp) as (Hh & _). destruct (Hf (getp (kk s) p)) as ((_ & _ & Est) & Eof & Ecw). split.
  - eapply (SYS_upd nw nw s qs l sp s' qs l' p (hold_of (f (getp (kk s) p))) (Some u') (fds_of (holds (kk s))) (cwds_of (holds (kk s))) HS Hp); [|done| | | |done|by intros|].
    + cbn [kk s']. by rewrite holds_alter by lia.
    + rewrite Esp'. split; [apply SInv_updp; [done|done|intros x; apply Hf]|exact HO|exact H3|exact H4|exact H5].
    + symmetry. by apply (fds_of_same _ _ _ _ Hh).
    + symmetry. by apply (cwds_of_same _ _ _ _ Hh).
    + cbn [h_life hold_of h_cwd]. rewrite Est, Ecw. intros Hl Hid Hn. by apply (sy_cwd _ _ _ _ _ HS p _ Hh).
  - split; cbn [kk s' mm].
    + intros i Hi Hne. by rewrite getp_updp_ne.
    + done.
    + intros i v Hne Hv. apply Hk. by eapply Hoth.
    + unfold all_pages. cbn [mm s' pipes]. by rewrite Esp', Esp.
    + done.
Qed.

Lemma pages_bound (l : list Z) : NoDup l → Forall page_ok l → Z.of_nat (length l) ≤ 32768.
Proof.
  intros Hnd Hok. pose proof (NoDup_length_bound ((λ p, Z.to_nat ((p - KERNBASE) / PGSIZE)) <$> l) (Z.to_nat 32768)) as Hb. rewrite length_fmap in Hb. rewrite Forall_forall in Hok.
  assert (∀ p, p ∈ l → 0 ≤ (p - KERNBASE) / PGSIZE < 32768 ∧ p = KERNBASE + (p - KERNBASE) / PGSIZE * PGSIZE) as Hr.
  { intros p Hp. pose proof (page_ok_range p (Hok p Hp)). destruct (Hok p Hp) as [Hm [Hk _]]. pose proof kend_range. unfold PHYSTOP, KERNBASE, PGSIZE in *. zdm. }
  enough (length l ≤ Z.to_nat 32768)%nat by lia. apply Hb.
  - apply (NoDup_fmap_2_strong _ l); [|done]. intros x y Hx Hy E. destruct (Hr x Hx) as [? Ex]. destruct (Hr y Hy) as [? Ey]. assert ((x - KERNBASE) / PGSIZE = (y - KERNBASE) / PGSIZE) as E' by lia. rewrite Ex, Ey. by rewrite E'.
  - apply Forall_fmap, Forall_forall. intros p Hp. cbn. pose proof (Hr p Hp). lia.
Qed.

(** User memory is bounded by physical memory. *)
Lemma space_bound s l us1 u us2 ex z : OWN s l (us1 ++ [u] ++ us2) ex → us_n u = npg z → 0 ≤ z ≤ TRAPFRAME → z ≤ 2 ^ 27.
Proof.
  intros HO Hn Hz. destruct (OWN_mine _ _ _ _ _ _ HO) as (Hnd & Hok & _ & [HA _]). unfold powns in Hnd, Hok. cbn [app] in Hnd, Hok. apply NoDup_cons in Hnd as [_ Hnd]. apply Forall_cons in Hok as [_ Hok].
  apply NoDup_app in Hnd as ((_ & _ & Hnd)%NoDup_app & _). apply Forall_app in Hok as [[_ Hok]%Forall_app _]. pose proof (pages_bound _ Hnd Hok) as Hb.
  unfold upages, leaf_pages in Hb. rewrite length_fmap, length_seqZ in Hb. rewrite Hn in Hb. assert (TRAPFRAME < MAXVA ∧ MAXVA = 2 ^ 38) as [HT HM] by done.
  destruct (npg_eq z) as [E _]; [lia|]. rewrite E in Hb. unfold PGSIZE in Hb. revert Hb. zdm.
Qed.

(** The size [growproc(n)] asks for: a size below zero wraps around and shrinks
    nothing. *)
Definition grown (sz n : Z) : Z := if decide (sz + n < 0) then sz else sz + n.

Definition grow_post (p : nat) (n : Z) (s : sys) (qs : list (list nat)) (l : list Z) (sp : list (option uspace)) (r : Z) (s' : sys) : Prop :=
  ∃ l' u u', let z := sz (getp (kk s) p) in let z' := if decide (r = 0) then grown z n else z in
    sp !! p = Some (Some u) ∧ (r = 0 ∨ (r = -1 ∧ 0 < n)) ∧ getp (kk s') p = set_sz z' (getp (kk s) p) ∧
    SYS None s' qs l' (<[p := Some u']> sp) ∧ frame p s l sp s' l' (<[p := Some u']> sp) ∧
    same_user (mm s) (us_t u) (mm s') (us_t u') (npg (Z.min z z')) ∧ us_tf u' = us_tf u ∧ tf_same (mm s) (us_tf u) (mm s').

Lemma Live_slot nw s qs l sp p : SYS nw s qs l sp → (p < NPROC)%nat → state (getp (kk s) p) ≠ UNUSED →
  ∃ u, sp !! p = Some (Some u) ∧ slot_ok (hold_of (getp (kk s) p)) (Some u).
Proof.
  intros HS Hp Hst. destruct (SYS_slot _ _ _ _ _ p HS Hp) as (_ & o & Ho & Hok). destruct o as [u|]; [eauto|]. cbn in Hok.
  exfalso. apply Hst. apply (f_equal h_life) in Hok. cbn in Hok. by destruct (state (getp (kk s) p)).
Qed.

Lemma set_sz_mem z : mem_only (set_sz z).
Proof. intros x. done. Qed.

Lemma growproc_ok s qs l sp p n : SYS None s qs l sp → runs s p → - 2 ^ 31 ≤ n < 2 ^ 31 → wp (growproc n) (grow_post p n s qs l sp) s.
Proof.
  intros HS [Hm Hr] Hn. pose proof (sy_ks _ _ _ _ _ HS) as [H1 H2 _ _ _]. destruct (runs_lt s qs p H1 (conj Hm Hr)) as [Hp _]. destruct (SYS_length _ _ _ _ _ HS) as (_ & Elen & _).
  destruct (Live_slot _ _ _ _ _ p HS Hp) as (u & Hu & Hok); [by rewrite Hr|]. destruct Hok as (_ & Ept & Etf & En & Hsz & Hof & _). cbn in Ept, Etf, En, Hsz.
  destruct (omap_id_split sp p (Some u) Hu) as (us1 & us2 & Esp & Esp' & Hoth). rewrite Esp in H2. cbn [option_list] in H2, Esp.
  pose proof (space_bound _ _ _ _ _ _ _ H2 En Hsz) as Hbound. set (z := sz (getp (kk s) p)) in *. assert (TRAPFRAME = 274877898752) as ET by done.
  destruct u as [root t tf n0]. cbn [us_root us_t us_tf us_n] in *. subst n0.
  assert (∀ m' l' t' z', 0 ≤ z' ≤ TRAPFRAME → changed (mm s) l us1 (US root t tf (npg z)) us2 (system_pages (pipes s)) m' l' (US root t' tf (npg z')) →
    same_user (mm s) t m' t' (npg (Z.min z z')) → tf_same (mm s) tf m' → ∀ r, (r = 0 ∨ (r = -1 ∧ 0 < n)) → z' = (if decide (r = 0) then grown z n else z) →
    grow_post p n s qs l sp r (Sys m' (updp p (set_sz z') (kk s)) (ft s) (pipes s) (lo s))) as Hdone.
  { intros m' l' t' z' Hz' Hch Hsu Htf r Hr0 Ez. exists l', (US root t tf (npg z)), (US root t' tf (npg z')). cbn [us_tf us_t mm kk].
    destruct (SYS_mem None s qs l sp p _ us1 us2 m' l' _ (set_sz z') HS Hp Hu Esp' Hoth Esp Hch (set_sz_mem z')) as [HS' Hfr]; [cbn; by rewrite Hr|].
    do 2 (split; [done|]). split; [fold z; rewrite <-Ez; by apply getp_updp_eq; lia|]. split; [exact HS'|]. split; [exact Hfr|]. split; [|done]. fold z. by rewrite <-Ez. }
  unfold growproc, with_me, procat, setp, on_kk. apply wp_bind, wp_gets. rewrite Hm. apply wp_bind, wp_gets. fold z. rewrite Ept.
  destruct (Z.ltb_spec 0 n) as [Hpos|Hneg]; [|destruct (Z.ltb_spec n 0) as [Hlt|Hge]].
  - assert (u64 (z + n) = z + n) as -> by (unfold u64; apply Z.mod_small; lia).
    apply wp_bind. unfold on_mm. apply wp_zoom. eapply wp_mono; [|apply (uvmalloc_own _ _ us1 root t tf us2 _ z (z + n) PTE_W H2); [lia|lia|lia|lia|by compute]].
    intros r m' (t' & l' & Hr0 & Hch & Hsu & Htf). destruct (Z.eqb_spec r 0) as [->|Hr1].
    + apply wp_ret. rewrite decide_True in Hch by done. replace (set_mm m' s) with (Sys m' (updp p (set_sz z) (kk s)) (ft s) (pipes s) (lo s)).
      * apply (Hdone m' l' t' z); [done|done|by rewrite Z.min_id|done|by right|by rewrite decide_False].
      * unfold set_mm. f_equal. unfold updp, set_procs. destruct (procs (kk s) !! p) as [x|] eqn:Hx; [|by apply lookup_ge_None in Hx; lia].
        rewrite (list_alter_id_at _ _ _ x Hx); [by destruct (kk s)|]. unfold z, getp. rewrite (lookup_total_Some _ _ _ Hx). by destruct x.
    + destruct Hr0 as [->| ->]; [done|]. rewrite decide_False in Hch by done. apply wp_bind, wp_zoom, wp_modify, wp_ret. cbn [set_mm set_kk kk mm ft pipes lo].
      apply (Hdone m' l' t' (z + n)); [lia|done|by rewrite Z.min_l by lia|done|by left|]. unfold grown. rewrite decide_True by done. by rewrite decide_False by lia.
  - assert (0 ≤ u64 (z + n)) as H64 by (apply Z.mod_pos_bound; done).
    apply wp_bind. unfold on_mm. apply wp_zoom. eapply wp_mono; [|apply (uvmdealloc_own _ _ us1 root t tf us2 _ z (u64 (z + n)) H2); lia].
    intros r m' (l' & -> & Hch & Hsu & Htf). apply wp_bind, wp_zoom, wp_modify, wp_ret. cbn [set_mm set_kk kk mm ft pipes lo].
    assert (Z.min z (u64 (z + n)) = grown z n) as E. { unfold grown, u64. case_decide; [rewrite <-(Z.mod_unique (z + n) (2 ^ 64) (-1) (2 ^ 64 + (z + n))); lia|rewrite Z.mod_small; lia]. }
    apply (Hdone m' l' t (Z.min z (u64 (z + n)))); [lia|done|by rewrite Z.min_assoc, Z.min_id|done|by left|by rewrite decide_True].
  - assert (n = 0) as -> by lia. apply wp_bind, wp_zoom, wp_modify, wp_ret. cbn [set_kk kk mm ft pipes lo].
    apply (Hdone (mm s) l t z); [lia|split; [done|by intros; apply kept_refl|done]|done|done|by left|]. unfold grown. rewrite decide_True by done. rewrite decide_False by lia. lia.
Qed.

(** *** Fork *)

Lemma updp_id k p : updp p id k = k.
Proof.
  unfold updp, set_procs. assert (alter id p (procs k) = procs k) as ->; [|by destruct k]. apply list_eq. intros i. rewrite list_lookup_alter. case_decide; [subst|done]. by destruct (procs k !! i).
Qed.

Section building.
Context (s0 : sys) (qs : list (list nat)) (l0 : list Z) (sp0 : list (option uspace)) (np : nat) (us1 us2 : list uspace).
Context (Hnp : (np < NPROC)%nat) (Hfree : sp0 !! np = Some None).
Context (Esp : ∀ o', omap id (<[np := o']> sp0) = us1 ++ option_list o' ++ us2) (Hoth : ∀ j v, j ≠ np → sp0 !! j = Some (Some v) → v ∈ us1 ++ us2).

(** The child in slot [np] has the space [v] and the entry [x] so far. *)
Record building (v : uspace) (x : proc) (s : sys) (l : list Z) : Prop := {
  bd_sys : SYS (Some np) s qs l (<[np := Some v]> sp0);
  bd_frame : frame np s0 l0 sp0 s l (<[np := Some v]> sp0);
  bd_proc : getp (kk s) np = x
}.

Lemma bd_slot v : <[np := Some v]> sp0 !! np = Some (Some v).
Proof. apply list_lookup_insert_eq. by eapply lookup_lt_Some. Qed.

Lemma bd_lookup v j : j ≠ np → <[np := Some v]> sp0 !! j = sp0 !! j.
Proof. intros Hj. by apply list_lookup_insert_ne. Qed.

Lemma bd_own v x s l : building v x s l → OWN (mm s) l (us1 ++ [v] ++ us2) (system_pages (pipes s)).
Proof. intros [[[_ HO _ _ _] _ _] _ _]. by rewrite Esp in HO. Qed.

Lemma bd_len v x s l : building v x s l → length (procs (kk s)) = NPROC.
Proof. intros [HS _ _]. by destruct (SYS_length _ _ _ _ _ HS) as (_ & ? & _). Qed.

Lemma bd_mem v x s l m' l' v' f : building v x s l → changed (mm s) l us1 v us2 (system_pages (pipes s)) m' l' v' → mem_only f → slot_ok (hold_of (f x)) (Some v') →
  building v' (f x) (Sys m' (updp np f (kk s)) (ft s) (pipes s) (lo s)) l'.
Proof.
  intros HB Hch Hf Hok. pose proof (bd_len _ _ _ _ HB) as Elen. destruct HB as [HS Hfr Ex].
  assert (∀ o', <[np := o']> (<[np := Some v]> sp0) = <[np := o']> sp0) as Ei by (intros; apply list_insert_insert_eq).
  destruct (SYS_mem (Some np) s qs l (<[np := Some v]> sp0) np v us1 us2 m' l' v' f HS Hnp (bd_slot v)) as [HS' Hfr']; [by intros o'; rewrite Ei| |by rewrite Esp|done|done|by rewrite Ex|].
  - intros j w Hj. rewrite bd_lookup by done. by apply Hoth.
  - rewrite Ei in HS', Hfr'. split; [exact HS'| |cbn; rewrite getp_updp_eq by lia; by rewrite Ex]. eapply frame_trans; [|exact Hfr|exact Hfr']. intros i Hi. by apply bd_lookup.
Qed.

Lemma bd_write v x s l m' : building v x s l → only_pages [us_tf v] (ram (mm s)) m' → bytes_ok m' →
  building v x (Sys (Mst m' (freelist (mm s))) (kk s) (ft s) (pipes s) (lo s)) l ∧ same_user (mm s) (us_t v) (Mst m' (freelist (mm s))) (us_t v) (us_n v).
Proof.
  intros HB Ho Hb. destruct (OWN_write_tf _ _ _ _ _ _ _ (bd_own _ _ _ _ HB) Ho Hb) as [Hch Hsu]. split; [|done].
  pose proof (bd_mem v x s l _ l v id HB Hch) as H. rewrite updp_id in H. apply H; [by intros y|].
  destruct HB as [HS _ Ex]. destruct (SYS_slot _ _ _ _ _ np HS Hnp) as (_ & o & Ho' & Hok). rewrite bd_slot in Ho'. injection Ho' as <-. by rewrite Ex in Hok.
Qed.

(** The files of the child change. *)
Lemma bd_files v x s l t lo' f fds cw : building v x s l →
  KS (Sys (mm s) (kk s) t (pipes s) lo') false qs l (us1 ++ [v] ++ us2) fds cw →
  fds ≡ₚ fds_of (<[np := hold_of (f x)]> (holds (kk s))) → cw ≡ₚ cwds_of (<[np := hold_of (f x)]> (holds (kk s))) →
  (∀ y, rq_next (f y) = rq_next y ∧ prio (f y) = prio y ∧ state (f y) = state y) → slot_ok (hold_of (f x)) (Some v) →
  building v (f x) (Sys (mm s) (updp np f (kk s)) t (pipes s) lo') l.
Proof.
  intros HB [H1 H2 H3 H4 H5] HPf HPc Hf Hok. pose proof (bd_len _ _ _ _ HB) as Elen. destruct HB as [HS Hfr Ex]. cbn [mm kk ft pipes lo] in *.
  assert (<[np := Some v]> (<[np := Some v]> sp0) = <[np := Some v]> sp0) as Ei by apply list_insert_insert_eq. split.
  - rewrite <-Ei. eapply (SYS_upd (Some np) (Some np) s qs l _ _ qs l np _ (Some v) fds cw HS Hnp); [cbn [kk]; rewrite holds_alter by lia; by rewrite Ex|done| |exact HPf|exact HPc|done|by intros|by intros].
    rewrite Ei, Esp. split; [by apply SInv_updp|exact H2|exact H3|exact H4|exact H5].
  - destruct Hfr as [A1 A2 A3 A4 A5]. split; [|exact A2|exact A3|exact A4|exact A5]. intros i Hi Hne. cbn [kk]. rewrite getp_updp_ne by done. by apply A1.
  - cbn. rewrite getp_updp_eq by lia. by rewrite Ex.
Qed.

Lemma bd_slot_ok v x s l : building v x s l → slot_ok (hold_of x) (Some v).
Proof. intros [HS _ Ex]. destruct (SYS_slot _ _ _ _ _ np HS Hnp) as (_ & o & Ho' & Hok). rewrite bd_slot in Ho'. injection Ho' as <-. by rewrite Ex in Hok. Qed.

Lemma slot_ok_files (x : proc) (v : uspace) (o : list (option nat)) c : slot_ok (hold_of x) (Some v) → state x = USED → length o = NOFILE →
  slot_ok (hold_of (set_cwd c (set_ofile o x))) (Some v).
Proof. intros (H1 & H2 & H3 & H4 & H5 & _ & _) Hst Ho. cbn in *. by rewrite Hst in *. Qed.

Lemma bd_holds v x s l : building v x s l → holds (kk s) !! np = Some (hold_of x).
Proof. intros HB. pose proof (bd_len _ _ _ _ HB). rewrite <-(bd_proc _ _ _ _ HB). apply lookup_holds. lia. Qed.

Lemma bd_parent v x s l p : building v x s l → (p < NPROC)%nat → p ≠ np → getp (kk s) p = getp (kk s0) p ∧ holds (kk s) !! p = Some (hold_of (getp (kk s0) p)).
Proof.
  intros HB Hp Hne. pose proof (bd_len _ _ _ _ HB). assert (getp (kk s) p = getp (kk s0) p) as E by (by apply (bd_frame _ _ _ _ HB)). split; [done|]. rewrite <-E. apply lookup_holds. lia.
Qed.

Lemma fds_of_elem hs i h f : hs !! i = Some h → f ∈ omap id (h_of h) → f ∈ fds_of hs.
Proof. intros Hi Hf. eapply elem_of_concat_lookup; [|exact Hf]. by rewrite list_lookup_fmap, Hi. Qed.

Lemma omap_none n : omap id (replicate n (None : option nat)) = [].
Proof. by induction n. Qed.

Lemma seq_middle n past x todo : seq 0 n = past ++ x :: todo → x = length past ∧ (length past < n)%nat.
Proof.
  intros E. assert (seq 0 n !! length past = Some x) as H by (rewrite E; by apply list_lookup_middle). apply lookup_seq in H as [-> ?]. done.
Qed.

Lemma fork_fds_ok v x s l p po : building v x s l → (p < NPROC)%nat → p ≠ np → ofile (getp (kk s0) p) = po → length po = NOFILE → state x = USED → ofile x = no_files →
  wp (forM (seq 0 NOFILE) (fork_fd np p)) (λ _ s', building v (set_ofile po x) s' l ∧ mm s' = mm s ∧ lo s' = lo s ∧ inodes_held (ft s') ≡ₚ inodes_held (ft s)) s.
Proof.
  intros HB Hp Hne Epo Hlen Hst Hof. set (part := λ k : nat, take k po ++ replicate (NOFILE - k) (None : option nat)).
  eapply wp_for with (I := λ past s', building v (set_ofile (part (length past)) x) s' l ∧ mm s' = mm s ∧ lo s' = lo s ∧ inodes_held (ft s') ≡ₚ inodes_held (ft s)).
  2: { split; [|done]. assert (set_ofile (part (length (@nil nat))) x = x) as -> by (change (part (length (@nil nat))) with no_files; rewrite <-Hof; by destruct x). done. }
  2: { intros s' (HB' & Em & El & Ein). rewrite length_seq in HB'. assert (part NOFILE = po) as Epk by (unfold part; rewrite Nat.sub_diag, app_nil_r, take_ge by lia; done). rewrite Epk in HB'. done. }
  - intros past fd todo s' E (HB' & Em & El & Ein). destruct (seq_middle _ _ _ _ E) as [-> Hk]. rewrite length_app, Nat.add_1_r. set (k := length past) in *.
    assert (k < length po)%nat as Hkl by lia. apply lookup_lt_is_Some in Hkl as [o Hko]. assert (NOFILE - k = S (NOFILE - S k))%nat as Ek by lia.
    assert (∀ a, <[k := a]> (part k) = take k po ++ a :: replicate (NOFILE - S k) None) as Eins.
    { intros a. unfold part. rewrite insert_app_r_alt by (rewrite length_take; lia). f_equal. rewrite length_take, Nat.min_l, Nat.sub_diag by lia. by rewrite Ek. }
    assert (part (S k) = take k po ++ o :: replicate (NOFILE - S k) None) as EpS by (unfold part; rewrite (take_S_r _ _ o Hko), <-(assoc_L (++)); done).
    destruct (bd_parent _ _ _ _ p HB' Hp Hne) as [Egp Hhp]. pose proof (bd_slot_ok _ _ _ _ HB') as Hok. pose proof (bd_holds _ _ _ _ HB') as Hhn.
    unfold fork_fd, procat. apply wp_bind, wp_gets. rewrite Egp, Epo, (lookup_total_Some _ _ _ Hko). destruct o as [f|].
    2: { apply wp_ret. rewrite EpS. by rewrite <-Eins, list_insert_id by (unfold part; rewrite lookup_app_r, length_take, Nat.min_l, Nat.sub_diag by (rewrite ?length_take; lia); by rewrite Ek). }
    pose proof (sy_ks _ _ _ _ _ (bd_sys _ _ _ _ HB')) as HKS. rewrite Esp in HKS. pose proof (SYS_fds _ _ _ _ _ (bd_sys _ _ _ _ HB')) as Hbd.
    apply wp_bind. eapply wp_mono; [|apply (filedup_ok s' false qs l _ _ _ f HKS); [|lia]].
    2: { eapply fds_of_elem; [exact Hhp|]. apply list_elem_of_omap. exists (Some f). split; [|done]. cbn. rewrite Epo. by eapply list_elem_of_lookup_2. }
    intros g s'' (-> & t & -> & HK & HPi). unfold setp, on_kk. apply wp_zoom, wp_modify. rewrite EpS, <-(Eins (Some f)).
    split; [|cbn [set_kk set_ft mm lo ft]; split; [done|split; [done|by rewrite HPi]]].
    apply (bd_files v (set_ofile (part k) x) s' l t (lo s') (λ y, set_ofile (<[k := Some f]> (ofile y)) y) (f :: fds_of (holds (kk s'))) (cwds_of (holds (kk s'))) HB' HK); [| |done|].
    + pose proof (fds_of_insert _ np _ (hold_of (set_ofile (<[k := Some f]> (part k)) x)) Hhn) as HP. cbn [hold_of h_of ofile set_ofile] in HP. rewrite Eins in HP. unfold part in HP. rewrite !omap_app in HP.
      assert (omap id (Some f :: replicate (NOFILE - S k) None) = [f]) as E1 by (change (omap id (Some f :: replicate (NOFILE - S k) None)) with (f :: omap id (replicate (NOFILE - S k) (None : option nat))); by rewrite omap_none).
      rewrite omap_none, E1, app_nil_r in HP. apply (Permutation_app_inv_l (omap id (take k po))). change (ofile (set_ofile (part k) x)) with (part k). rewrite Eins. rewrite <-(assoc_L (++)) in HP. symmetry. exact HP.
    + symmetry. by apply (cwds_of_same _ _ _ _ Hhn).
    + destruct Hok as (A1 & A2 & A3 & A4 & A5 & A6 & _). cbn in *. rewrite Hst in *. rewrite length_insert. done.
Qed.

Lemma bd_quiet v x s l f : building v x s l → mem_only f → hold_of (f x) = hold_of x → building v (f x) (Sys (mm s) (updp np f (kk s)) (ft s) (pipes s) (lo s)) l.
Proof.
  intros HB Hf Eh. pose proof (bd_own _ _ _ _ HB) as HO. pose proof (bd_slot_ok _ _ _ _ HB) as Hok.
  apply (bd_mem v x s l (mm s) l v f HB); [|done|by rewrite Eh]. split; [done|by intros; apply kept_refl|done].
Qed.

(** The child gets the working directory of the parent. *)
Lemma fork_cwd_ok v x s l p ip : building v x s l → (p < NPROC)%nat → p ≠ np → cwd (getp (kk s0) p) = Some ip → state x = USED → cwd x = None →
  wp (ip ← with_cwd p idup; setp np (set_cwd (Some ip))) (λ _ s', building v (set_cwd (Some ip) x) s' l ∧ mm s' = mm s) s.
Proof.
  intros HB Hp Hne Hcw Hst Hnone. destruct (bd_parent _ _ _ _ p HB Hp Hne) as [Egp Hhp]. pose proof (bd_holds _ _ _ _ HB) as Hhn. pose proof (bd_slot_ok _ _ _ _ HB) as Hok.
  pose proof (sy_ks _ _ _ _ _ (bd_sys _ _ _ _ HB)) as HKS. rewrite Esp in HKS. pose proof HKS as [H1 H2 H3 H4 H5]. destruct (SYS_length _ _ _ _ _ (bd_sys _ _ _ _ HB)) as (Elh & _).
  unfold with_cwd, procat. apply wp_bind, wp_bind, wp_gets. rewrite Egp, Hcw. apply wp_bind. unfold on_lo. apply wp_zoom. eapply wp_mono; [|apply (idup_ok _ _ _ ip H5)].
  - intros [] lo' HL. apply wp_ret. unfold setp, on_kk. apply wp_zoom, wp_modify. split; [|done].
    apply (bd_files v x s l (ft s) lo' (set_cwd (Some ip)) (fds_of (holds (kk s))) (ip :: cwds_of (holds (kk s))) HB); [|..|done|].
    + split; [exact H1|exact H2|exact H3|exact H4|]. eapply IL_perm; [|exact HL]. cbn. apply Permutation_middle.
    + symmetry. by apply (fds_of_same _ _ _ _ Hhn).
    + pose proof (cwds_of_insert _ np _ (hold_of (set_cwd (Some ip) x)) Hhn) as HP. cbn [hold_of h_cwd cwd set_cwd] in HP. rewrite Hnone in HP. cbn in HP. symmetry. exact HP.
    + replace x with (set_ofile (ofile x) x) by (by destruct x). apply slot_ok_files; [done|done|]. by eapply slot_files in Hok.
  - apply elem_of_app. right. apply list_elem_of_omap. exists (hold_of (getp (kk s0) p)). split; [by eapply list_elem_of_lookup_2|done].
  - rewrite length_app. pose proof (length_omap inode_of (ft s)) as Hl1. pose proof (length_omap h_cwd (holds (kk s))) as Hl2. rewrite (rf_len _ _ H3) in Hl1. rewrite Elh in Hl2. unfold inodes_held, cwds_of, NFILE, NPROC in *. lia.
Qed.

Lemma fork_tail_holds k p : (np < length (procs k))%nat → state (getp k np) = USED → holds (fork_tail np p k) = holds k.
Proof.
  intros Hl Hst. unfold fork_tail. rewrite prio_enqueue_holds. rewrite !holds_updp; [done|done| |done|done]. rewrite getp_updp_eq by done. unfold hold_of. cbn. by rewrite Hst.
Qed.

(** The child is made runnable. *)
Lemma fork_done v x s l p : building v x s l → (p < NPROC)%nat → p ≠ np → state x = USED → is_Some (cwd x) →
  ∃ qs', SYS None (set_kk (fork_tail np p (kk s)) s) qs' l (<[np := Some v]> sp0) ∧ myproc (fork_tail np p (kk s)) = myproc (kk s0) ∧
    (∀ i, (i < NPROC)%nat → field (fork_tail np p (kk s)) i = if decide (i = np) then set_rq_next None (set_wait_ticks 0 (set_prio (prio (getp (kk s0) p)) (set_state RUNNABLE (set_parent (Some p) x)))) else field (kk s0) i).
Proof.
  intros HB Hp Hne Hst Hcw. pose proof (bd_len _ _ _ _ HB) as Elen. pose proof (bd_holds _ _ _ _ HB) as Hhn. destruct (bd_parent _ _ _ _ p HB Hp Hne) as [Egp _]. destruct HB as [HS Hfr Ex].
  pose proof HS as [[H1 H2 H3 H4 H5] Hsl Hc]. destruct (fork_tail_ok (kk s) qs np p H1 Hnp Hp) as (qs' & HI & Hcpu & _ & Hf); [done|by rewrite Ex|].
  assert (holds (fork_tail np p (kk s)) = holds (kk s)) as Eh by (apply fork_tail_holds; [lia|by rewrite Ex]). destruct (same_cpu_proj _ _ Hcpu) as (Emy & Eid & _).
  exists qs'. split; [|split; [unfold myproc; rewrite Emy; by rewrite (fr_cpu _ _ _ _ _ _ _ Hfr)|]].
  - split; cbn [kk set_kk]; rewrite Eh; [split; [exact HI|exact H2|exact H3|exact H4|exact H5]|exact Hsl|]. rewrite Eid. intros i h Hi Hl Hid _. destruct (decide (i = np)) as [->|Hin].
    + rewrite Hhn in Hi. by injection Hi as <-.
    + apply (Hc i h Hi Hl Hid). congruence.
  - intros i Hi. rewrite Hf by done. case_decide as Hd; [subst i|].
    + unfold field. rewrite Egp, Ex. done.
    + unfold field. f_equal. by apply Hfr.
Qed.
End building.

(** What the child is. *)
Record forked (p np : nat) (u v : uspace) (s s' : sys) : Prop := {
  fk_size : us_n v = us_n u;
  fk_copied : ∀ j, 0 ≤ j < us_n u → copied (mm s) (us_t u) (mm s') (us_t v) j;
  fk_regs : ∀ i, 0 ≤ i < TF_SIZE → ¬ (TF_A0 ≤ i < TF_A0 + 8) → rd (ram (mm s')) (us_tf v + i) = rd (ram (mm s)) (us_tf u + i);
  fk_a0 : load64 (ram (mm s')) (us_tf v + TF_A0) = 0;
  fk_fields : let c := getp (kk s') np in let x := getp (kk s) p in
    state c = RUNNABLE ∧ parent c = Some p ∧ sz c = sz x ∧ ofile c = ofile x ∧ cwd c = cwd x ∧ prio c = prio x ∧ ctx c = Context forkret (u64 (kstack (getp (kk s) np) + PGSIZE)) (replicate 12 0)
}.

Definition fork_post (p : nat) (s : sys) (qs : list (list nat)) (l : list Z) (sp : list (option uspace)) (r : Z) (s' : sys) : Prop :=
  ∃ qs' l' sp', SYS None s' qs' l' sp' ∧ all_pages s' l' sp' ≡ₚ all_pages s l sp ∧ (runs s' p ∧ initproc (glob (kk s')) = initproc (glob (kk s))) ∧
    (∀ i v, sp !! i = Some (Some v) → sp' !! i = Some (Some v) ∧ kept (mm s) v (mm s') ∧ field (kk s') i = field (kk s) i) ∧
    ((r = -1 ∧ sp' = sp ∧ ((∀ i, (i < NPROC)%nat → state (getp (kk s) i) ≠ UNUSED) ∨ ∃ u, sp !! p = Some (Some u) ∧ Z.of_nat (length l) ≤ 6 + 3 * us_n u)) ∨
     ∃ np u v, sp !! np = Some None ∧ sp !! p = Some (Some u) ∧ sp' = <[np := Some v]> sp ∧ pid (getp (kk s') np) = r ∧ r = nextpid (glob (kk s)) ∧ forked p np u v s s').

Lemma copied_later s t s1 t1 s2 n j : 0 ≤ j < n → copied s t s1 t1 j → same_user s1 t1 s2 t1 n → copied s t s2 t1 j.
Proof. intros Hj [H1 H2] [A1 A2 _]. split; [by rewrite A1|]. intros i Hi. rewrite A1 by done. rewrite A2 by done. by apply H2. Qed.

Lemma only_pages_in tf m m' : (∀ a, ¬ (tf ≤ a < tf + PGSIZE) → rd m' a = rd m a) → only_pages [tf] m m'.
Proof. intros H a Ha. apply H. apply (Ha tf). by apply list_elem_of_singleton. Qed.

Section fork_rest.
Context (s0 : sys) (qs : list (list nat)) (l0 : list Z) (sp0 : list (option uspace)) (np : nat) (us1 us2 : list uspace).
Context (Hnp : (np < NPROC)%nat) (Hfree : sp0 !! np = Some None).
Context (Esp : ∀ o', omap id (<[np := o']> sp0) = us1 ++ option_list o' ++ us2) (Hoth : ∀ j v, j ≠ np → sp0 !! j = Some (Some v) → v ∈ us1 ++ us2).
Context (HS0 : SYS None s0 qs l0 sp0) (p : nat) (Hruns : runs s0 p) (Hp : (p < NPROC)%nat) (Hne : p ≠ np) (u : uspace) (Hu : sp0 !! p = Some (Some u)).

Notation bd := (building s0 qs l0 sp0 np).

(** The registers. *)
Lemma fork_regs v x s l : bd v x s l → us_tf v ≠ us_tf u → page_ok (us_tf u) → page_ok (us_tf v) →
  wp (on_mm (on_ram (memmove (us_tf v) (us_tf u) TF_SIZE));; on_mm (on_ram (store64 (us_tf v + TF_A0) 0))) (λ _ s', bd v x s' l ∧ same_user (mm s) (us_t v) (mm s') (us_t v) (us_n v) ∧
    ft s' = ft s ∧ lo s' = lo s ∧ load64 (ram (mm s')) (us_tf v + TF_A0) = 0 ∧
    ∀ i, 0 ≤ i < TF_SIZE → ¬ (TF_A0 ≤ i < TF_A0 + 8) → rd (ram (mm s')) (us_tf v + i) = rd (ram (mm s0)) (us_tf u + i)) s.
Proof.
  intros HB Htne Htu Htv. pose proof (kp_tf _ _ _ (fr_mem _ _ _ _ _ _ _ (bd_frame _ _ _ _ _ _ _ _ _ HB) p u Hne Hu)) as Hkt.
  assert (bytes_ok (ram (mm s))) as Hb by apply (bd_own _ _ _ _ _ _ _ Esp _ _ _ _ HB).
  set (m1 := memmove (us_tf v) (us_tf u) TF_SIZE (ram (mm s))). set (m2 := store64 (us_tf v + TF_A0) 0 m1). assert (TF_SIZE = 288 ∧ TF_A0 = 112 ∧ PGSIZE = 4096) as (E1 & E2 & E3) by done.
  assert (∀ a, rd m1 a = if decide (us_tf v ≤ a < us_tf v + TF_SIZE) then rd (ram (mm s)) (us_tf u + (a - us_tf v)) else rd (ram (mm s)) a) as Hm1.
  { intros a. apply rd_memmove; [done|lia]. }
  destruct (bd_write s0 qs l0 sp0 np us1 us2 Hnp Hfree Esp Hoth v x s l m1 HB) as [HB1 Hsu1]; [apply only_pages_in; intros a Ha; rewrite Hm1, decide_False by lia; done|by apply bytes_ok_memmove|].
  destruct (bd_write s0 qs l0 sp0 np us1 us2 Hnp Hfree Esp Hoth v x _ l m2 HB1) as [HB2 Hsu2]; [apply only_pages_in; intros a Ha; unfold m2; rewrite rd_store64_ne by lia; done|by apply bytes_ok_store64, bytes_ok_memmove|].
  unfold on_mm. apply wp_bind, wp_zoom, wp_on_ram, wp_zoom, wp_on_ram. cbn [set_mm mm ram freelist kk ft pipes lo] in *. split; [exact HB2|]. split; [by eapply same_user_trans|]. do 2 (split; [done|]).
  split; [by apply load64_store64|]. intros i Hi Hia. unfold m2. rewrite rd_store64_ne by lia. rewrite Hm1, decide_True by lia. rewrite <-Hkt by lia. f_equal. lia.
Qed.

Lemma fork_rest v x s l (Hx : state x = USED) : bd v x s l → slot_ok (hold_of (getp (kk s0) p)) (Some u) → us_n v = us_n u → sz x = sz (getp (kk s0) p) →
  ofile x = no_files → cwd x = None → pid x = nextpid (glob (kk s0)) → ctx x = Context forkret (u64 (kstack (getp (kk s0) np) + PGSIZE)) (replicate 12 0) →
  (∀ j, 0 ≤ j < us_n u → copied (mm s0) (us_t u) (mm s) (us_t v) j) →
  wp (on_mm (on_ram (memmove (us_tf v) (us_tf u) TF_SIZE));; (on_mm (on_ram (store64 (us_tf v + TF_A0) 0));; (forM (seq 0 NOFILE) (fork_fd np p);;
      (ip ← with_cwd p idup; setp np (set_cwd (Some ip));; (setp np (λ y, set_name (copy_name (name y) (name (getp (kk s0) p)) 16) y);;
      (npr ← procat np; on_kk (modify (fork_tail np p));; mret (pid npr))))))) (fork_post p s0 qs l0 sp0) s.
Proof.
  intros HB Hok En Esz Hof Hcw Epid Ectx Hcop. destruct Hok as (_ & Ept & Etf & Enu & Hsz & Hlen & _). destruct Hruns as [Hmy Hrun].
  assert (is_Some (cwd (getp (kk s0) p))) as [ip Hip].
  { destruct (SYS_slot _ _ _ _ _ p HS0 Hp) as (Hh & _). apply (sy_cwd _ _ _ _ _ HS0 p _ Hh); [cbn; by rewrite Hrun| |done]. by apply (runs_lt s0 qs p (ks_sched _ _ _ _ _ _ _ (sy_ks _ _ _ _ _ HS0)) Hruns). }
  pose proof (bd_own _ _ _ _ _ _ _ Esp _ _ _ _ HB) as HO. destruct (OWN_mine _ _ _ _ _ _ HO) as (_ & Hpk & Hdis & _).
  assert (u ∈ us1 ++ us2) as Huin by (by eapply Hoth). assert (us_tf u ∈ all_owned (mm s) (us1 ++ us2)) as Htin by (apply elem_of_all_owned; exists u; split; [done|by left]).
  assert (us_tf v ≠ us_tf u) as Htne by (intros E; apply (Hdis (us_tf v)); [by left|by rewrite E]).
  assert (page_ok (us_tf v)) as Hpv by (by apply Forall_inv in Hpk).
  assert (page_ok (us_tf u)) as Hpu. { pose proof (ow_ok _ _ _ _ HO) as Hall. rewrite pages_of_mid in Hall. apply Forall_app in Hall as [[Hall _]%Forall_app _]. rewrite Forall_forall in Hall. by apply Hall. }
  apply wp_bind. eapply wp_mono; [|exact (wp_bind_inv _ _ _ _ (fork_regs v x s l HB Htne Hpu Hpv))]. intros [] s1 Hw1. apply wp_bind. eapply wp_mono; [|exact Hw1]. intros [] s2 (HB2 & Hsu & _ & _ & Ha0 & Hregs).
  apply wp_bind. eapply wp_mono; [|by apply (fork_fds_ok s0 qs l0 sp0 np us1 us2 Hnp Hfree Esp v x s2 l p (ofile (getp (kk s0) p)))]. intros [] s3 (HB3 & Em3 & _).
  apply wp_bind. eapply wp_mono; [|exact (wp_bind_inv _ _ _ _ (fork_cwd_ok s0 qs l0 sp0 np us1 us2 Hnp Hfree Esp v _ s3 l p ip HB3 Hp Hne Hip Hx Hcw))]. intros ip' s4 Hw4. apply wp_bind. eapply wp_mono; [|exact Hw4]. intros [] s5 (HB5 & Em5).
  apply wp_bind. unfold setp at 1, on_kk at 1. apply wp_zoom, wp_modify.
  apply (bd_quiet s0 qs l0 sp0 np us1 us2 Hnp Hfree Esp Hoth _ _ _ _ (λ y, set_name (copy_name (name y) (name (getp (kk s0) p)) 16) y)) in HB5; [|by intros y|done].
  cbn beta in HB5. set (x6 := set_name _ _) in HB5. set (s6 := Sys (mm s5) _ _ _ _) in HB5. change (set_kk _ s5) with s6. apply wp_bind. unfold procat. apply wp_gets. rewrite (bd_proc _ _ _ _ _ _ _ _ _ HB5).
  apply wp_bind. unfold on_kk. apply wp_zoom, wp_modify, wp_ret. destruct (fork_done s0 qs l0 sp0 np Hnp v x6 s6 l p HB5 Hp Hne) as (qs' & HS' & Emy & Hf); [done|done|].
  exists qs', l, (<[np := Some v]> sp0). pose proof (bd_frame _ _ _ _ _ _ _ _ _ HB5) as [_ _ Hfm Hfp Hfi]. assert (mm s6 = mm s2) as E62 by (cbn; congruence).
  split; [exact HS'|]. split; [exact Hfp|]. split.
  { split; [split; cbn [kk set_kk]; [by rewrite Emy|]; rewrite state_field, Hf, decide_False by done; exact Hrun|]. cbn [kk set_kk]. rewrite fork_tail_glob. exact Hfi. }
  split.
  - intros i w Hw. assert (i ≠ np) as Hin by (intros ->; congruence). split; [by rewrite list_lookup_insert_ne|]. split; [by eapply Hfm|]. cbn [kk set_kk]. rewrite Hf, decide_False; [done|done|].
    destruct (SYS_length _ _ _ _ _ HS0) as (_ & _ & <-). by eapply lookup_lt_Some.
  - right. exists np, u, v. do 3 (split; [done|]). cbn [kk set_kk]. specialize (Hf np Hnp). rewrite decide_True in Hf by done. generalize dependent (fork_tail np p (kk s6)). intros k7 HS7 _ Hf.
    set (c := getp k7 np). change (field k7 np) with (set_rq_next None c) in Hf.
    assert (∀ (A : Type) (g : proc → A), (∀ y, g (set_rq_next None y) = g y) → g c = g (set_wait_ticks 0 (set_prio (prio (getp (kk s0) p)) (set_state RUNNABLE (set_parent (Some p) x6))))) as Hg.
    { intros A g Hgn. rewrite <-(Hgn c), Hf. apply Hgn. }
    split; [by rewrite (Hg _ pid) by done|]. split; [exact Epid|].
    split; cbn [mm kk set_kk]; rewrite ?E62; [done| |done|done|].
    + intros j Hj. eapply copied_later; [|by apply Hcop|exact Hsu]. by rewrite En.
    + cbn zeta. fold c. rewrite (Hg _ state), (Hg _ parent), (Hg _ sz), (Hg _ ofile), (Hg _ cwd), (Hg _ prio), (Hg _ ctx) by done. cbn. rewrite Hip. done.
Qed.
End fork_rest.
End procspec.
