(* ===== verification/Procfork.v ===== *)
(** * Fork and exit

    What [fork] and [exit] do to the invariant [SYS] of [Procspec], and what
    [sleep] and [schedule], which leave the holdings of processes alone, do. *)

From S2P Require Import Prelude Machine Ring Pipe Proc Runq Sched Mem Kalloc Vm Vmspec Uvm Ucopy Procmem Files Proclife Procspec.

#[local] Opaque wakeup reparent prio_enqueue.

Section procfork.
Context `{LY : Layout} {L : Type} `{!InodeOps L, !InodeLaws L}.
#[local] Notation sys := (@Files.sys L).
Context (forkret : Z).

(** ** Fork *)

Lemma frame_live np (s : sys) l sp (s' : sys) l' sp' i v : frame np s l sp s' l' sp' → length sp = NPROC → sp !! np = Some None → sp !! i = Some (Some v) →
  i ≠ np ∧ kept (mm s) v (mm s') ∧ field (kk s') i = field (kk s) i.
Proof.
  intros [A1 A2 A3 A4 _] Hlen Hnp Hi. assert (i ≠ np) as Hne by (intros ->; congruence). split; [done|]. split; [by eapply A3|]. unfold field. rewrite A1; [done| |done]. rewrite <-Hlen. by eapply lookup_lt_Some.
Qed.

Lemma frame_runs np (s : sys) l sp (s' : sys) l' sp' p : frame np s l sp s' l' sp' → (p < NPROC)%nat → p ≠ np → runs s p → runs s' p.
Proof. intros [A1 A2 _ _ _] Hp Hne [H1 H2]. split; [unfold myproc; by rewrite A2|]. by rewrite A1. Qed.

Lemma slot_ok_size (x : proc) r t tf n t' z : slot_ok (hold_of x) (Some (US r t tf n)) → 0 ≤ z ≤ TRAPFRAME → slot_ok (hold_of (set_sz z x)) (Some (US r t' tf (npg z))).
Proof. intros (A1 & A2 & A3 & _ & _ & A6 & A7) Hz. done. Qed.

Lemma slot_ok_tables (x : proc) r t tf n t' : slot_ok (hold_of x) (Some (US r t tf n)) → slot_ok (hold_of x) (Some (US r t' tf n)).
Proof. done. Qed.

Lemma npg_nonneg z : 0 ≤ z ≤ TRAPFRAME → 0 ≤ npg z.
Proof. intros Hz. assert (TRAPFRAME < MAXVA) as HT by done. destruct (npg_eq z) as [-> _]; [lia|]. apply Z.div_pos; [unfold PGSIZE; lia|done]. Qed.

Lemma fork_ok s qs l sp p : SYS None s qs l sp → runs s p → wp (fork forkret) (fork_post forkret p s qs l sp) s.
Proof.
  intros HS Hruns. pose proof (ks_sched _ _ _ _ _ _ _ (sy_ks _ _ _ _ _ HS)) as HI. destruct (runs_lt s qs p HI Hruns) as [Hp _]. destruct (SYS_length _ _ _ _ _ HS) as (_ & _ & Elsp).
  destruct (Live_slot _ _ _ _ _ p HS Hp) as (u & Hu & Hok); [by rewrite (proj2 Hruns)|].
  unfold fork, with_me. apply wp_bind, wp_gets. rewrite (proj1 Hruns). apply wp_bind. eapply wp_mono; [|by apply allocproc_ok]. intros o s1 (Eft & Epp & Elo & l1 & Hpost).
  destruct o as [np|].
  2: { destruct Hpost as [HS1 Hcase]. apply wp_ret. exists qs, l1, sp. split; [done|]. destruct Hcase as [(-> & -> & Hfull)|(Hl6 & np & HU & Hfr)].
    - split; [done|]. split; [done|]. split; [intros; split; [done|split; [apply kept_refl|done]]|left; split; [done|]; split; [done|by left]].
    - assert (p ≠ np) as Hne by (intros ->; destruct Hruns as [_ ?]; congruence). assert (∀ i v, sp !! i = Some (Some v) → i ≠ np) as Hl.
      { intros i v Hv ->. pose proof (lookup_lt_Some _ _ _ Hv) as Hlt. rewrite Elsp in Hlt. destruct (Free_slot _ _ _ _ _ np HS Hlt HU). congruence. }
      split; [apply Hfr|]. split; [split; [by eapply frame_runs|apply Hfr]|]. split; [|left; split; [done|]; split; [done|]; right; exists u; split; [done|]; destruct Hok as (_ & _ & _ & -> & Hsz & _); pose proof (npg_nonneg _ Hsz); lia]. intros i v Hv. split; [done|]. split; [eapply Hfr; [by eapply Hl|done]|]. unfold field. f_equal. apply Hfr; [rewrite <-Elsp; by eapply lookup_lt_Some|by eapply Hl]. }
  destruct Hpost as (r & t & tf & Hnp & HU & Hfree & HS1 & Hfr & Ex & Hl6). assert (p ≠ np) as Hne by (intros ->; destruct Hruns as [_ ?]; congruence).
  destruct (Free_slot _ _ _ _ _ np HS Hnp HU) as [_ Hff].
  destruct (omap_id_split sp np None Hfree) as (us1 & us2 & _ & Esp' & Hoth). assert (building s qs l sp np (US r t tf 0) (new_proc forkret (kk s) np r tf) s1 l1) as HB by (by split).
  pose proof (bd_slot_ok s qs l sp np Hnp Hfree _ _ _ _ HB) as Hok1. pose proof (bd_own _ _ _ _ _ _ _ Esp' _ _ _ _ HB) as HO. pose proof (bd_len _ _ _ _ _ _ _ _ _ HB) as Elen1.
  destruct (bd_parent _ _ _ _ _ Hnp _ _ _ _ p HB Hp Hne) as [Egp _]. assert (kept (mm s) u (mm s1)) as Hku by (by eapply Hfr).
  pose proof Hok as (_ & Ept & Etf & En & Hsz & _). cbn in Ept, Etf, En, Hsz.
  unfold procat at 1. apply wp_bind, wp_gets. unfold procat at 1. apply wp_bind, wp_gets. rewrite Egp, Ex, Ept. change (pagetable (new_proc forkret (kk s) np r tf)) with r.
  apply wp_bind. unfold on_mm at 1. apply wp_zoom. eapply wp_mono; [|by apply (uvmcopy_own _ _ us1 r t tf us2 _ u (sz (getp (kk s) p)) HO (Hoth _ _ Hne Hu))].
  intros q m2 (t' & l2 & Hq & Hch & _ & Hcop & Hshort). set (v' := US r t' tf (if decide (q = 0) then npg (sz (getp (kk s) p)) else 0)) in *.
  assert (hold_of (new_proc forkret (kk s) np r tf) = Hold Live 0 r tf no_files None) as Eh.
  { change (Hold Live (h_sz (hold_of (getp (kk s) np))) r tf (h_of (hold_of (getp (kk s) np))) (h_cwd (hold_of (getp (kk s) np))) = Hold Live 0 r tf no_files None). by rewrite Hff. }
  destruct Hq as [->| ->]; cbn [Z.ltb Z.compare].
  - (* the copy succeeded *)
    unfold setp at 1, on_kk at 1. apply wp_bind, wp_zoom, wp_modify. cbn [set_mm set_kk mm kk ft pipes lo].
    assert (building s qs l sp np v' (set_sz (sz (getp (kk s) p)) (new_proc forkret (kk s) np r tf)) (Sys m2 (updp np (set_sz (sz (getp (kk s) p))) (kk s1)) (ft s1) (pipes s1) (lo s1)) l2) as HB2.
    { eapply (bd_mem s qs l sp np us1 us2 Hnp Hfree Esp' Hoth); [exact HB|exact Hch|apply set_sz_mem|]. exact (slot_ok_size _ _ _ _ _ t' _ Hok1 Hsz). }
    rewrite Etf. change (trapframe (new_proc forkret (kk s) np r tf)) with (us_tf v').
    apply (fork_rest forkret s qs l sp np us1 us2 Hnp Hfree Esp' Hoth HS p Hruns Hp Hne u Hu v' (set_sz (sz (getp (kk s) p)) (new_proc forkret (kk s) np r tf)) _ l2 eq_refl HB2 Hok); [by rewrite En|done|exact (f_equal h_of Eh)|exact (f_equal h_cwd Eh)|done|done|].
    intros j Hj. rewrite En in Hj. specialize (Hcop eq_refl j Hj). destruct Hcop as [C1 C2]. destruct (kp_user _ _ _ Hku) as [K1 K2 _]. rewrite En in K1, K2.
    cbn [mm]. change (us_t v') with t'. split; [by rewrite C1, K1|]. intros i Hi. rewrite C2 by done. rewrite K1 by done. by apply K2.
  - (* the copy failed *)
    assert (building s qs l sp np v' (new_proc forkret (kk s) np r tf) (set_mm m2 s1) l2) as HB2.
    { pose proof (bd_mem s qs l sp np us1 us2 Hnp Hfree Esp' Hoth _ _ s1 l1 m2 l2 v' id HB Hch) as H. rewrite updp_id in H. apply H; [by intros y|]. exact (slot_ok_tables _ _ _ _ _ t' Hok1). }
    destruct HB2 as [HS2 Hfr2 Ex2]. apply wp_bind. eapply wp_mono; [|apply (freeproc_ok (Some np) _ qs l2 _ np v' HS2 Hnp (bd_slot _ _ Hfree v')); rewrite ?Ex2; [by right|exact (f_equal h_of Eh)|exact (f_equal h_cwd Eh)|by right]].
    intros [] s3 (l3 & HS3 & Hfr3 & _). rewrite list_insert_insert_eq, (list_insert_id sp np None Hfree) in HS3, Hfr3.
    assert (frame np s l sp s3 l3 sp) as Hfr13 by (eapply frame_trans; [|exact Hfr2|exact Hfr3]; intros i Hi; by apply bd_lookup).
    apply wp_ret. exists qs, l3, sp. split; [done|]. split; [apply Hfr13|]. split; [split; [by eapply frame_runs|apply Hfr13]|]. split; [|left; split; [done|]; split; [done|]; right; exists u; split; [done|]; rewrite En; specialize (Hshort eq_refl); lia].
    intros i w Hw. destruct (frame_live _ _ _ _ _ _ _ _ _ Hfr13 Elsp Hfree Hw) as (_ & ? & ?). done.
Qed.

(** ** Calls that only wake other processes up *)

(** The process [p] on the CPU changed its own entry to [x]; the others were at
    most woken, memory is as it was and no page is lost. *)
Record mild (p : nat) (s : sys) (l : list Z) (sp : list (option uspace)) (x : proc) (s' : sys) (l' : list Z) : Prop := {
  md_my : myproc (kk s') = myproc (kk s);
  md_idle : idleproc (mycpu (kk s')) = idleproc (mycpu (kk s));
  md_glob : glob (kk s') = glob (kk s);
  md_self : field (kk s') p = x;
  md_others : ∀ i, (i < NPROC)%nat → i ≠ p → roused (field (kk s) i) (field (kk s') i);
  md_kept : ∀ i v, sp !! i = Some (Some v) → kept (mm s) v (mm s');
  md_pages : all_pages s' l' sp ≡ₚ all_pages s l sp
}.

Lemma mild_refl p s l sp : mild p s l sp (field (kk s) p) s l.
Proof. split; try done. by left. Qed.

Lemma mild_trans p s1 l1 sp x2 s2 l2 x3 s3 l3 : mild p s1 l1 sp x2 s2 l2 → mild p s2 l2 sp x3 s3 l3 → mild p s1 l1 sp x3 s3 l3.
Proof.
  intros [A1 A2 A3 A4 A5 A6 A7] [B1 B2 B3 B4 B5 B6 B7]. split; [congruence..|done| | |by rewrite B7].
  - intros i Hi Hne. etrans; [by apply A5|by apply B5].
  - intros i v Hv. eapply kept_trans; [by eapply A6|by eapply B6].
Qed.

Lemma live_elem (sp : list (option uspace)) i v : sp !! i = Some (Some v) → v ∈ omap id sp.
Proof. intros Hv. apply list_elem_of_omap. exists (Some v). split; [by eapply list_elem_of_lookup_2|done]. Qed.

(** A call on files leaves the entry of the running process alone. *)
Lemma quiet_mild p s qs l sp s' qs' l' : quiet (omap id sp) s qs l s' qs' l' → runs s p → (p < NPROC)%nat → mild p s l sp (field (kk s) p) s' l'.
Proof.
  intros [(_ & Hev & _ & Hmy & Hid) _ Hg Hf Hk Hpg] [Hm Hr] Hp. split; [done|done|done| | | |exact Hpg].
  - destruct (Hf p Hp) as [E|[_ E]]; [done|]. exfalso. destruct (Hev p Hp) as [E'|(Hne & _)]; [|done]. rewrite !state_field, E in E'. rewrite state_field in Hr. rewrite Hr in E'. done.
  - intros i Hi _. by apply Hf.
  - intros i v Hv. apply Hk. by eapply live_elem.
Qed.

Lemma mild_runs p s l sp x s' l' : mild p s l sp x s' l' → runs s p → state x = RUNNING → runs s' p.
Proof. intros [A1 _ _ A4 _ _ _] [H1 H2] Hx. split; [congruence|]. rewrite state_field, A4. done. Qed.

(** A change of the entry of [p] alone. *)
Lemma mild_updp p s l sp f lo' t : (p < length (procs (kk s)))%nat → (∀ x, set_rq_next None (f x) = f (set_rq_next None x)) →
  mild p s l sp (f (field (kk s) p)) (Sys (mm s) (updp p f (kk s)) t (pipes s) lo') l.
Proof.
  intros Hp Hf. split; try done; cbn [kk mm].
  - rewrite field_updp by done. by rewrite decide_True.
  - intros i _ Hne. left. rewrite field_updp by done. by rewrite decide_False.
Qed.

(** The entry [p] gives up references. *)
Lemma SYS_files nw nw' s qs l sp p f s1 qs1 l1 fds cw u : SYS nw s qs l sp → (p < NPROC)%nat → sp !! p = Some (Some u) →
  holds (kk s1) = holds (kk s) → hold_of (getp (kk s1) p) = hold_of (getp (kk s) p) → idleproc (mycpu (kk s1)) = idleproc (mycpu (kk s)) →
  KS s1 false qs1 l1 (omap id sp) fds cw → let x := getp (kk s1) p in
  fds ≡ₚ fds_of (<[p := hold_of (f x)]> (holds (kk s))) → cw ≡ₚ cwds_of (<[p := hold_of (f x)]> (holds (kk s))) →
  (∀ y, rq_next (f y) = rq_next y ∧ prio (f y) = prio y ∧ state (f y) = state y) → slot_ok (hold_of (f x)) (Some u) →
  (∀ i, i ≠ p → nw' ≠ Some i → nw ≠ Some i) → (nw' = Some p ∨ (h_life (hold_of (f x)) = Live → idleproc (mycpu (kk s)) ≠ Some p → is_Some (h_cwd (hold_of (f x))))) →
  SYS nw' (Sys (mm s1) (updp p f (kk s1)) (ft s1) (pipes s1) (lo s1)) qs1 l1 sp.
Proof.
  intros HS Hp Hu Eh Ep Eid [H1 H2 H3 H4 H5] x HPf HPc Hf Hok Hnw Hcw. destruct (SYS_length _ _ _ _ _ HS) as (El & _).
  assert (length (procs (kk s1)) = NPROC) as El1 by (rewrite <-Eh in El; unfold holds in El; by rewrite length_fmap in El).
  rewrite <-(list_insert_id sp p (Some u) Hu). eapply (SYS_upd nw nw' s qs l sp _ qs1 l1 p (hold_of (f x)) (Some u) fds cw HS Hp); [|exact Eid| |exact HPf|exact HPc|exact Hok|exact Hnw|].
  - cbn [kk]. rewrite holds_alter by lia. by rewrite Eh.
  - rewrite (list_insert_id sp p (Some u) Hu). split; [by apply SInv_updp|exact H2|exact H3|exact H4|exact H5].
  - intros Hl Hid Hn. destruct Hcw as [->|Hcw]; [done|]. by apply Hcw.
Qed.

(** *** Closing a descriptor *)

Definition clr (fd : nat) (x : proc) : proc := set_ofile (<[fd := None]> (ofile x)) x.
Definition put_fd (fd f : nat) (x : proc) : proc := set_ofile (<[fd := Some f]> (ofile x)) x.

Lemma fds_drop hs p x fd f : hs !! p = Some (hold_of x) → ofile x !! fd = Some (Some f) → fds_of hs ≡ₚ f :: fds_of (<[p := hold_of (clr fd x)]> hs).
Proof.
  intros Hh Hf. pose proof (fds_of_insert hs p _ (hold_of (clr fd x)) Hh) as HP. pose proof (omap_insert_perm id (ofile x) fd (Some f) None Hf) as HO. cbn in HO.
  cbn [hold_of h_of clr ofile set_ofile] in *. rewrite <-HO in HP. cbn in HP. apply (Permutation_app_inv_l (omap id (<[fd := None]> (ofile x)))). rewrite <-HP. apply Permutation_middle.
Qed.

Lemma fds_add hs p x fd f : hs !! p = Some (hold_of x) → ofile x !! fd = Some None → fds_of (<[p := hold_of (put_fd fd f x)]> hs) ≡ₚ f :: fds_of hs.
Proof.
  intros Hh Hf. pose proof (fds_of_insert hs p _ (hold_of (put_fd fd f x)) Hh) as HP. pose proof (omap_insert_perm id (ofile x) fd None (Some f) Hf) as HO. cbn in HO.
  cbn [hold_of h_of put_fd ofile set_ofile] in *. rewrite HO in HP. cbn in HP. apply (Permutation_app_inv_l (omap id (ofile x))). rewrite HP. apply Permutation_middle.
Qed.

Lemma slot_ok_ofile (x : proc) u o : slot_ok (hold_of x) (Some u) → state x = RUNNING → length o = length (ofile x) → slot_ok (hold_of (set_ofile o x)) (Some u).
Proof. intros (A1 & A2 & A3 & A4 & A5 & A6 & A7) Hr Ho. cbn in *. rewrite Hr in *. rewrite Ho. done. Qed.

Lemma field_hold k k' i : field k' i = field k i → hold_of (getp k' i) = hold_of (getp k i).
Proof. intros E. change (hold_of (field k' i) = hold_of (field k i)). by rewrite E. Qed.

Lemma close_fd_ok nw s qs l sp p fd f : SYS nw s qs l sp → runs s p → ofile (getp (kk s) p) !! fd = Some (Some f) → (nw = None ∨ nw = Some p) →
  wp (fileclose f;; setp p (clr fd)) (λ _ s', ∃ qs' l', SYS nw s' qs' l' sp ∧ mild p s l sp (clr fd (field (kk s) p)) s' l') s.
Proof.
  intros HS Hruns Hf Hnw. pose proof (sy_ks _ _ _ _ _ HS) as HK. destruct (runs_lt s qs p (ks_sched _ _ _ _ _ _ _ HK) Hruns) as [Hp _]. destruct Hruns as [Hm Hr].
  destruct (Live_slot _ _ _ _ _ p HS Hp) as (u & Hu & Hok); [by rewrite Hr|]. destruct (SYS_slot _ _ _ _ _ p HS Hp) as (Hh & _). pose proof (SYS_fds _ _ _ _ _ HS) as Hb.
  pose proof (fds_drop _ _ _ _ _ Hh Hf) as HP. rewrite HP in Hb. cbn [length] in Hb. eapply KS_perm in HK; [|exact HP].
  apply wp_bind. eapply wp_mono; [|apply (fileclose_ok _ _ _ _ _ _ _ HK); lia]. intros [] s1 (qs1 & l1 & HK1 & Hq).
  pose proof (quiet_mild _ _ _ _ _ _ _ _ Hq (conj Hm Hr) Hp) as Hmi. unfold setp, on_kk. apply wp_zoom, wp_modify. exists qs1, l1. unfold set_kk.
  assert (hold_of (getp (kk s1) p) = hold_of (getp (kk s) p)) as Ehp by (apply field_hold, Hmi).
  assert (state (getp (kk s1) p) = RUNNING) as Hr1 by (by rewrite state_field, (md_self _ _ _ _ _ _ _ Hmi)).
  assert (ofile (getp (kk s1) p) = ofile (getp (kk s) p)) as Eof by exact (f_equal h_of Ehp). pose proof (Repr_procs _ _ (si_repr _ _ (ks_sched _ _ _ _ _ _ _ HK1))) as El1.
  assert (hold_of (clr fd (getp (kk s1) p)) = hold_of (clr fd (getp (kk s) p))) as Eclr.
  { change (Hold (h_life (hold_of (getp (kk s1) p))) (h_sz (hold_of (getp (kk s1) p))) (h_pt (hold_of (getp (kk s1) p))) (h_tf (hold_of (getp (kk s1) p))) (<[fd := None]> (h_of (hold_of (getp (kk s1) p)))) (h_cwd (hold_of (getp (kk s1) p))) = hold_of (clr fd (getp (kk s) p))). by rewrite Ehp. }
  split.
  - eapply (SYS_files nw nw s qs l sp p (clr fd) s1 qs1 l1 _ _ u HS Hp Hu (qt_holds _ _ _ _ _ _ _ Hq) Ehp (md_idle _ _ _ _ _ _ _ Hmi) HK1); [by rewrite Eclr|rewrite Eclr; symmetry; by apply (cwds_of_same _ _ _ _ Hh)|done| |by intros|].
    + rewrite Eclr. apply slot_ok_ofile; [done|done|apply length_insert].
    + destruct Hnw as [->| ->]; [right|by left]. intros Hl Hid. rewrite Eclr. apply (sy_cwd _ _ _ _ _ HS p _ Hh); [cbn; by rewrite Hr|exact Hid|done].
  - eapply mild_trans; [exact Hmi|]. rewrite <-(md_self _ _ _ _ _ _ _ Hmi). apply mild_updp; [lia|done].
Qed.

(** ** Exit *)

Lemma exit_files_ok s qs l sp p : SYS None s qs l sp → runs s p →
  wp (forM (seq 0 NOFILE) (exit_fd p)) (λ _ s', ∃ qs' l', SYS None s' qs' l' sp ∧ mild p s l sp (set_ofile no_files (field (kk s) p)) s' l') s.
Proof.
  intros HS Hruns. pose proof (sy_ks _ _ _ _ _ HS) as HK. destruct (runs_lt s qs p (ks_sched _ _ _ _ _ _ _ HK) Hruns) as [Hp _].
  destruct (SYS_slot _ _ _ _ _ p HS Hp) as (_ & o & _ & Hok). apply slot_files in Hok. cbn in Hok. set (po := ofile (getp (kk s) p)) in *.
  set (part := λ k : nat, replicate k (None : option nat) ++ drop k po).
  eapply wp_for with (I := λ past s', ∃ qs' l', SYS None s' qs' l' sp ∧ mild p s l sp (set_ofile (part (length past)) (field (kk s) p)) s' l').
  - intros past fd todo s' E (qs' & l' & HS' & Hmi). destruct (seq_middle _ _ _ _ E) as [-> Hk]. rewrite length_app, Nat.add_1_r. set (k := length past) in *.
    assert (k < length po)%nat as Hkl by lia. apply lookup_lt_is_Some in Hkl as [a Ha].
    assert (part k = replicate k None ++ a :: drop (S k) po) as Epk by (unfold part; by rewrite (drop_S _ a)).
    assert (∀ b, <[k := b]> (part k) = replicate k None ++ b :: drop (S k) po) as Eins by (intros b; rewrite Epk, insert_app_r_alt by (rewrite length_replicate; lia); by rewrite length_replicate, Nat.sub_diag).
    assert (part (S k) = <[k := None]> (part k)) as EpS by (rewrite Eins; unfold part; rewrite replicate_S_end, <-(assoc_L (++)); done).
    assert (ofile (getp (kk s') p) = part k) as Eof by (change (ofile (field (kk s') p) = part k); by rewrite (md_self _ _ _ _ _ _ _ Hmi)).
    assert (part k !! k = Some a) as Hka by (rewrite Epk, lookup_app_r, length_replicate, Nat.sub_diag by (rewrite length_replicate; lia); done).
    unfold exit_fd, procat. apply wp_bind, wp_gets. rewrite Eof, (lookup_total_Some _ _ _ Hka). destruct a as [f|].
    + eapply wp_mono; [|apply (close_fd_ok None s' qs' l' sp p k f HS'); [eapply mild_runs; [exact Hmi|done|apply Hruns]|by rewrite Eof|by left]].
      intros [] s2 (qs2 & l2 & HS2 & Hm2). exists qs2, l2. split; [done|]. rewrite (md_self _ _ _ _ _ _ _ Hmi) in Hm2. rewrite EpS. by eapply mild_trans.
    + apply wp_ret. exists qs', l'. split; [done|]. rewrite EpS, (list_insert_id _ _ _ Hka). done.
  - exists qs, l. split; [done|]. change (part (length (@nil nat))) with po. assert (set_ofile po (field (kk s) p) = field (kk s) p) as -> by (unfold field, po; by destruct (getp (kk s) p)). apply mild_refl.
  - intros s' (qs' & l' & HS' & Hmi). exists qs', l'. split; [done|]. rewrite length_seq in Hmi. unfold part in Hmi. rewrite drop_ge, app_nil_r in Hmi by lia. done.
Qed.

(** The working directory is given up. *)
Lemma exit_cwd_ok s qs l sp p : SYS None s qs l sp → runs s p →
  wp (on_lo begin_op;; with_cwd p iput;; on_lo end_op;; setp p (set_cwd None)) (λ _ s', SYS (Some p) s' qs l sp ∧ mild p s l sp (set_cwd None (field (kk s) p)) s' l) s.
Proof.
  intros HS Hruns. pose proof (sy_ks _ _ _ _ _ HS) as [H1 H2 H3 H4 H5]. destruct (runs_lt s qs p H1 Hruns) as [Hp Hid]. destruct Hruns as [Hm Hr].
  destruct (Live_slot _ _ _ _ _ p HS Hp) as (u & Hu & Hok); [by rewrite Hr|]. destruct (SYS_slot _ _ _ _ _ p HS Hp) as (Hh & _). destruct (SYS_length _ _ _ _ _ HS) as (_ & El & _).
  destruct (sy_cwd _ _ _ _ _ HS p _ Hh) as [ip Hip]; [cbn; by rewrite Hr|done|done|]. cbn in Hip.
  pose proof (cwds_of_insert _ p _ (hold_of (set_cwd None (getp (kk s) p))) Hh) as HP. cbn [hold_of h_cwd cwd set_cwd] in HP. rewrite Hip in HP. cbn in HP.
  unfold on_lo at 1. apply wp_bind, wp_zoom. eapply wp_mono; [|by apply begin_op_ok]. intros [] l1 HL1.
  unfold with_cwd, procat. apply wp_bind, wp_bind, wp_gets. cbn [kk set_lo]. rewrite Hip. unfold on_lo. apply wp_bind, wp_zoom.
  eapply wp_mono; [|apply (iput_ok l1 (inodes_held (ft s) ++ cwds_of (<[p := hold_of (set_cwd None (getp (kk s) p))]> (holds (kk s)))))].
  2: { eapply IL_perm; [|exact HL1]. cbn [hold_of set_cwd]. rewrite <-HP. symmetry. apply Permutation_middle. }
  intros [] l2 HL2. apply wp_ret, wp_bind, wp_zoom. eapply wp_mono; [|by apply end_op_ok]. intros [] l3 HL3. unfold setp, on_kk. apply wp_zoom, wp_modify. unfold set_lo, set_kk. cbn [mm kk ft pipes lo].
  split; [|apply mild_updp; [lia|done]].
  apply (SYS_files None (Some p) s qs l sp p (set_cwd None) (Sys (mm s) (kk s) (ft s) (pipes s) l3) qs l (fds_of (holds (kk s))) (cwds_of (<[p := hold_of (set_cwd None (getp (kk s) p))]> (holds (kk s)))) u HS Hp Hu); [done|done|done| |symmetry; by apply (fds_of_same _ _ _ _ Hh)|done|done| |done|by left].
  - split; [exact H1|exact H2|exact H3|exact H4|exact HL3].
  - destruct Hok as (A1 & A2 & A3 & A4 & A5 & A6 & A7). cbn in *. rewrite Hr in *. done.
Qed.

Lemma exit_enter_run k p status : myproc k = Some p →
  exit_enter status k = Ok tt (updp p (set_state ZOMBIE) (updp p (set_xstate status) (wakeup (chan_of (parent (getp (reparent p k) p))) (reparent p k)))).
Proof. intros Hm. unfold exit_enter, with_cur, mbind, M_bind, gets. by rewrite Hm. Qed.

(** What [exit] leaves: a zombie with no files; its children are [init]'s. *)
Definition exit_post (p : nat) (status : Z) (s : sys) (l : list Z) (sp : list (option uspace)) (s' : sys) : Prop :=
  ∃ qs' l', SYS None s' qs' l' sp ∧ all_pages s' l' sp ≡ₚ all_pages s l sp ∧ myproc (kk s') = Some p ∧ idleproc (mycpu (kk s')) = idleproc (mycpu (kk s)) ∧
    (let x := getp (kk s') p in state x = ZOMBIE ∧ xstate x = status ∧ ofile x = no_files ∧ cwd x = None) ∧
    (∀ i, (i < NPROC)%nat → state (getp (kk s') i) ≠ RUNNING) ∧ (∀ i v, sp !! i = Some (Some v) → kept (mm s) v (mm s')) ∧
    (∀ i, (i < NPROC)%nat → parent (getp (kk s') i) = if decide (parent (getp (kk s) i) = Some p) then initproc (glob (kk s)) else parent (getp (kk s) i)) ∧
    initproc (glob (kk s')) = initproc (glob (kk s)) ∧ ∀ i, (i < NPROC)%nat → i ≠ p → kview (getp (kk s') i) = kview (getp (kk s) i).

Lemma zombie_parent status x : parent (set_state ZOMBIE (set_xstate status x)) = parent x.
Proof. done. Qed.

Lemma exit_parents k p status i : initproc (glob k) ≠ Some p → length (procs k) = NPROC → (i < NPROC)%nat →
  let kw := wakeup (chan_of (parent (getp (reparent p k) p))) (reparent p k) in
  parent (getp (updp p (λ x, set_state ZOMBIE (set_xstate status x)) kw) i) = if decide (parent (getp k i) = Some p) then initproc (glob k) else parent (getp k i).
Proof.
  intros Hin El Hi kw. assert (length (procs (reparent p k)) = NPROC) as Elr by (pose proof (f_equal length (reparent_holds p k)) as E; unfold holds in E; rewrite !length_fmap in E; lia).
  transitivity (parent (getp (reparent p k) i)).
  { apply (view_at parent); [|lia]. transitivity (parent <$> procs kw); [exact (view_updp parent kw p _ (zombie_parent status _))|exact (view_wakeup parent _ _ (λ _ _, eq_refl) (λ _ _, eq_refl) (λ _ _, eq_refl))]. }
  pose proof (reparent_parents p k i Hin El) as Hrp. destruct (procs k !! i) as [x|] eqn:Hx; [|apply lookup_ge_None in Hx; lia].
  destruct (procs (reparent p k) !! i) as [x'|] eqn:Hx'; [|done]. cbn in Hrp. apply (inj Some) in Hrp. unfold getp. by rewrite (lookup_total_Some _ _ _ Hx'), (lookup_total_Some _ _ _ Hx), Hrp.
Qed.

(** [exit] from [acquire(&wait_lock)] on, for a process without files. *)
Lemma exit_enter_sys s qs l sp p status : SYS (Some p) s qs l sp → runs s p → initproc (glob (kk s)) ≠ Some p → ofile (getp (kk s) p) = no_files → cwd (getp (kk s) p) = None →
  wp (on_kk (exit_enter status)) (λ _ s', exit_post p status s l sp s') s.
Proof.
  intros HS Hr Hinit Eof Ecw. pose proof (sy_ks _ _ _ _ _ HS) as [H1 H2 H3 H4 H5]. pose proof (Repr_procs _ _ (si_repr _ _ H1)) as El. destruct (runs_lt s qs p H1 Hr) as [Hp _].
  unfold on_kk. apply wp_zoom. unfold wp. pose proof (exit_enter_run (kk s) p status (proj1 Hr)) as Erun.
  destruct (wp_run _ _ _ _ _ (exit_enter_ok status (kk s) qs p H1 (proj1 Hr) (proj2 Hr)) Erun) as (k1 & qs' & Hk & HI & Hcpu & Hst1 & Hf). rewrite Erun.
  set (kw := wakeup (chan_of (parent (getp (reparent p (kk s)) p))) (reparent p (kk s))) in *. destruct Hk as (HI1 & Hev & _ & Hmy1 & Hid1).
  assert (holds kw = holds (kk s)) as Ehw by (unfold kw; by rewrite wakeup_holds, reparent_holds).
  assert (length (procs kw) = NPROC) as Elw by (apply (f_equal length) in Ehw; unfold holds in Ehw; rewrite !length_fmap in Ehw; lia).
  assert (hold_of (getp kw p) = hold_of (getp (kk s) p)) as Ehp. { pose proof (f_equal (λ v, v !! p) Ehw) as E. cbn in E. rewrite !lookup_holds in E by lia. apply (inj Some) in E. exact E. }
  assert (kview <$> procs kw = kview <$> procs (kk s)) as Evw by (unfold kw; by rewrite wakeup_kview, reparent_kview).
  assert (glob kw = glob (kk s)) as Egw by (unfold kw; by rewrite glob_wakeup, glob_reparent).
  rewrite updp_updp in *. set (F := λ x, set_state ZOMBIE (set_xstate status x)) in *.
  assert (∀ i, (i < NPROC)%nat → parent (getp (updp p F kw) i) = if decide (parent (getp (kk s) i) = Some p) then initproc (glob (kk s)) else parent (getp (kk s) i)) as Hpar
    by (intros i Hi; exact (exit_parents (kk s) p status i Hinit El Hi)).
  clearbody kw.
  destruct (Live_slot _ _ _ _ _ p HS Hp) as (u & Hu & Hok); [by rewrite (proj2 Hr)|]. destruct (SYS_slot _ _ _ _ _ p HS Hp) as (Hh & _).
  assert (hold_of (F (getp kw p)) = Hold Dead (h_sz (hold_of (getp (kk s) p))) (h_pt (hold_of (getp (kk s) p))) (h_tf (hold_of (getp (kk s) p))) no_files None) as EF.
  { change (hold_of (F (getp kw p))) with (Hold Dead (h_sz (hold_of (getp kw p))) (h_pt (hold_of (getp kw p))) (h_tf (hold_of (getp kw p))) (h_of (hold_of (getp kw p))) (h_cwd (hold_of (getp kw p)))). rewrite Ehp.
    f_equal; [exact Eof|exact Ecw]. }
  assert (myproc (updp p F kw) = Some p) as Hmy' by (unfold myproc; rewrite Hcpu; exact (eq_trans Hmy1 (proj1 Hr))).
  exists qs', l. unfold set_kk. cbn [mm kk ft pipes lo]. split; [|split; [done|split; [done|split; [by rewrite Hcpu, Hid1|]]]].
  { rewrite <-(list_insert_id sp p (Some u) Hu). eapply (SYS_upd (Some p) None s qs l sp _ qs' l p _ (Some u) (fds_of (holds (kk s))) (cwds_of (holds (kk s))) HS Hp).
    - cbn [kk]. rewrite holds_alter by lia. by rewrite Ehw, EF.
    - cbn [kk]. by rewrite Hcpu.
    - rewrite (list_insert_id sp p (Some u) Hu). split; [exact HI|exact H2|exact H3|exact H4|exact H5].
    - symmetry. apply (fds_of_same _ _ _ _ Hh). cbn [h_of]. by rewrite <-Eof.
    - symmetry. apply (cwds_of_same _ _ _ _ Hh). cbn [h_cwd]. by rewrite <-Ecw.
    - destruct Hok as (_ & A2 & A3 & A4 & A5 & _). done.
    - intros i Hne _. congruence.
    - done. }
  split; [|split; [|split; [by intros; apply kept_refl|split; [|split]]]].
  - cbn zeta. rewrite getp_updp_eq by lia. split; [done|]. split; [done|]. change (h_of (hold_of (F (getp kw p))) = no_files ∧ h_cwd (hold_of (F (getp kw p))) = None). by rewrite EF.
  - intros i Hi Hrun. pose proof (si_running _ _ HI i Hi Hrun) as Hmi. rewrite Hmy' in Hmi. injection Hmi as <-. rewrite getp_updp_eq in Hrun by lia. done.
  - exact Hpar.
  - exact (f_equal initproc Egw).
  - intros i Hi Hne. rewrite getp_updp_ne by done. apply (view_at kview); [done|lia].
Qed.

Lemma exit_ok s qs l sp p status : SYS None s qs l sp → runs s p → initproc (glob (kk s)) ≠ Some p → wp (exit status) (λ _ s', exit_post p status s l sp s') s.
Proof.
  intros HS Hruns Hinit. destruct (runs_lt s qs p (ks_sched _ _ _ _ _ _ _ (sy_ks _ _ _ _ _ HS)) Hruns) as [Hp Hid].
  unfold exit, with_me. apply wp_bind, wp_gets. rewrite (proj1 Hruns). apply wp_bind, wp_gets. rewrite decide_False by done.
  apply wp_bind. eapply wp_mono; [|by apply (exit_files_ok s qs l sp p)]. intros [] s1 (qs1 & l1 & HS1 & Hm1).
  assert (runs s1 p) as Hr1 by (eapply mild_runs; [exact Hm1|done|apply Hruns]).
  assert (wp (on_lo begin_op;; with_cwd p iput;; on_lo end_op;; setp p (set_cwd None)) (λ _ s2, wp (on_kk (exit_enter status)) (λ _ s', exit_post p status s l sp s') s2) s1) as Hw.
  2: { apply wp_bind_inv in Hw. apply wp_bind. eapply wp_mono; [|exact Hw]. intros [] sa Hw2. apply wp_bind_inv in Hw2. apply wp_bind. eapply wp_mono; [|exact Hw2]. intros ip sb Hw3.
    apply wp_bind_inv in Hw3. apply wp_bind. eapply wp_mono; [|exact Hw3]. intros [] sc Hw4. apply wp_bind. eapply wp_mono; [|exact Hw4]. done. }
  eapply wp_mono; [|by apply (exit_cwd_ok s1 qs1 l1 sp p)]. intros [] s2 (HS2 & Hm2). pose proof (mild_trans _ _ _ _ _ _ _ _ _ _ Hm1 Hm2) as Hm.
  assert (field (kk s2) p = set_cwd None (set_ofile no_files (field (kk s) p))) as Ef2 by (rewrite (md_self _ _ _ _ _ _ _ Hm); by rewrite (md_self _ _ _ _ _ _ _ Hm1)).
  assert (runs s2 p) as Hr2 by (eapply mild_runs; [exact Hm|done|]; rewrite (md_self _ _ _ _ _ _ _ Hm1); apply Hruns).
  eapply wp_mono; [|apply (exit_enter_sys s2 qs1 l1 sp p status HS2 Hr2)].
  - intros [] s' (qs' & l' & A1 & A2 & A3 & A4 & A5 & A6 & A7 & A8 & A9 & A10). exists qs', l'. split; [done|]. split; [rewrite A2; apply Hm|]. split; [done|]. split; [rewrite A4; apply Hm|].
    do 2 (split; [done|]). split; [intros i v Hv; eapply kept_trans; [by eapply Hm|by eapply A7]|].
    assert (∀ i, (i < NPROC)%nat → parent (getp (kk s2) i) = parent (getp (kk s) i) ∧ (i ≠ p → kview (getp (kk s2) i) = kview (getp (kk s) i))) as Hoth.
    { intros i Hi. change (parent (field (kk s2) i) = parent (field (kk s) i) ∧ (i ≠ p → kview (field (kk s2) i) = kview (field (kk s) i))).
      destruct (decide (i = p)) as [->|Hne]; [by rewrite Ef2|]. pose proof (md_others _ _ _ _ _ _ _ Hm i Hi Hne) as Hro. split; [by destruct Hro as [-> |[_ ->]]|intros _; by apply roused_kview]. }
    split; [intros i Hi; rewrite A8, (proj1 (Hoth i Hi)), (md_glob _ _ _ _ _ _ _ Hm) by done; done|]. split; [by rewrite A9, (md_glob _ _ _ _ _ _ _ Hm)|].
    intros i Hi Hne. rewrite A10 by done. by apply Hoth.
  - by rewrite (md_glob _ _ _ _ _ _ _ Hm).
  - change (ofile (field (kk s2) p) = no_files). by rewrite Ef2.
  - change (cwd (field (kk s2) p) = None). by rewrite Ef2.
Qed.

(** ** Giving up the CPU *)

(** A step of the scheduler that keeps what every process holds. *)
Lemma SYS_sched nw s qs l sp k' qs' : SYS nw s qs l sp → SInv k' qs' → idleproc (mycpu k') = idleproc (mycpu (kk s)) →
  (∀ i, (i < NPROC)%nat → hold_of (field k' i) = hold_of (field (kk s) i)) → SYS nw (set_kk k' s) qs' l sp.
Proof.
  intros HS HI Hid Hf. destruct (SYS_length _ _ _ _ _ HS) as (_ & El & _). pose proof (Repr_procs _ _ (si_repr _ _ HI)) as El'.
  pose proof (holds_fields (kk s) k' El El' Hf) as Eh. destruct HS as [[H1 H2 H3 H4 H5] Hsl Hcw].
  split; cbn [kk set_kk]; rewrite Eh; [split; [exact HI|exact H2|exact H3|exact H4|exact H5]|exact Hsl|]. rewrite Hid. exact Hcw.
Qed.

(** The process [n] has the CPU: it runs, or it is the idle process. *)
Definition has_cpu (s : sys) (n : nat) : Prop := runs s n ∨ (myproc (kk s) = Some n ∧ idleproc (mycpu (kk s)) = Some n).

Lemma run_live s qs n qs' : SInv s qs → chosen s qs n qs' → state (getp s n) = RUNNABLE.
Proof.
  intros HI Hch. destruct (si_idle _ _ HI) as (i & Hi & _ & Hst). destruct (decide (idleproc (mycpu s) = Some n)) as [E|Hne]; [congruence|].
  apply (si_queue _ _ HI); [by eapply chosen_lt|done|]. destruct Hch as [(k & l & Hk & _)|(_ & E & _)]; [|done]. eapply elem_of_concat_lookup; [done|]. by left.
Qed.

Lemma schedule_sys nw s qs l sp : SYS nw s qs l sp → (∀ i, (i < NPROC)%nat → state (getp (kk s) i) ≠ RUNNING) →
  wp (on_kk schedule) (λ _ s', ∃ n qs', SYS nw s' qs' l sp ∧ has_cpu s' n ∧ (n ∉ concat qs') ∧ (n < NPROC)%nat ∧ state (getp (kk s) n) = RUNNABLE ∧ ft s' = ft s ∧ pipes s' = pipes s ∧ mm s' = mm s ∧ lo s' = lo s ∧ glob (kk s') = glob (kk s) ∧
    idleproc (mycpu (kk s')) = idleproc (mycpu (kk s)) ∧ ∀ i, (i < NPROC)%nat → field (kk s') i = if decide (i = n) then run_proc (kk s) n (field (kk s) i) else field (kk s) i) s.
Proof.
  intros HS Hnr. pose proof (ks_sched _ _ _ _ _ _ _ (sy_ks _ _ _ _ _ HS)) as HI. unfold on_kk. apply wp_zoom. eapply wp_mono; [|by apply schedule_ok].
  intros [next ie] k' (_ & n & qs' & -> & Hch & HI' & Hmy & Hid & Hf & Hg). pose proof (chosen_lt _ _ _ _ HI Hch) as Hn. pose proof (run_live _ _ _ _ HI Hch) as Hst.
  exists n, qs'. split; [|split; [|split; [exact (chosen_notin _ _ _ _ HI Hch)|do 6 (split; [done|])]]].
  - apply SYS_sched with (1 := HS); [done|done|]. intros i Hi. rewrite Hf by done. case_decide as Hd; [subst i|done]. unfold run_proc. case_decide; [done|]. unfold hold_of. cbn. by rewrite Hst.
  - unfold has_cpu, runs. cbn [kk set_kk]. destruct (decide (idleproc (mycpu (kk s)) = Some n)) as [E|E]; [right; split; [done|congruence]|left].
    split; [done|]. rewrite state_field, Hf, decide_True by done. unfold run_proc. by rewrite decide_False.
  - done.
Qed.

Lemma sleep_sys nw s qs l sp p ch : SYS nw s qs l sp → runs s p →
  wp (on_kk (sleep_enter ch)) (λ _ s', SYS nw s' qs l sp ∧ mm s' = mm s ∧ ft s' = ft s ∧ pipes s' = pipes s ∧ lo s' = lo s ∧ glob (kk s') = glob (kk s) ∧ mycpu (kk s') = mycpu (kk s) ∧
    (∀ i, (i < NPROC)%nat → state (getp (kk s') i) ≠ RUNNING) ∧
    ∀ i, (i < NPROC)%nat → field (kk s') i = if decide (i = p) then set_state SLEEPING (set_chan ch (field (kk s) i)) else field (kk s) i) s.
Proof.
  intros HS [Hm Hr]. pose proof (ks_sched _ _ _ _ _ _ _ (sy_ks _ _ _ _ _ HS)) as HI. unfold on_kk. apply wp_zoom. eapply wp_mono; [|by apply (sleep_enter_ok ch (kk s) qs p)].
  intros [] k' (HI' & Hc & Hg & Hf). split; [|do 4 (split; [done|])].
  - apply SYS_sched with (1 := HS); [done|by rewrite Hc|]. intros i Hi. rewrite Hf by done. case_decide as Hd; [subst i|done]. unfold hold_of. cbn. by rewrite Hr.
  - split; [done|]. split; [done|]. split; [|done]. intros i Hi Hrun. cbn [kk set_kk] in Hrun. pose proof (si_running _ _ HI' i Hi Hrun) as Hmi. unfold myproc in Hmi, Hm. rewrite Hc, Hm in Hmi. injection Hmi as <-.
    rewrite state_field, Hf, decide_True in Hrun by (done || by destruct (si_cur _ _ HI) as (c & Hc' & ?); unfold myproc in Hc'; congruence). done.
Qed.
End procfork.
