(* ===== verification/Procwait.v ===== *)
(** * Wait

    What [wait] does to the invariant [SYS] of [Procspec]: it reaps a zombie
    child and hands the exit status to the parent, fails, or goes to sleep. *)

From S2P Require Import Prelude Machine Ring Pipe Proc Runq Sched Mem Kalloc Vm Vmspec Uvm Ucopy Procmem Files Proclife Procspec Procfork.

#[local] Opaque wakeup reparent prio_enqueue.

Section procwait.
Context `{LY : Layout} {L : Type} `{!InodeOps L, !InodeLaws L}.
#[local] Notation sys := (@Files.sys L).
(** The process table is below the end of the kernel. *)
Context (xstate_at : nat → Z) (Hxst : ∀ i, KERNBASE ≤ xstate_at i ∧ xstate_at i + 4 ≤ kend).

(** Memory alone changes. *)
Lemma SYS_mm nw s qs l sp m' l' : SYS nw s qs l sp → OWN m' l' (omap id sp) (system_pages (pipes s)) → SYS nw (set_mm m' s) qs l' sp.
Proof. intros [[H1 H2 H3 H4 H5] Hsl Hcw] HO. split; [split; done|done|done]. Qed.

Lemma copy_xstate_ok s qs l sp p pp addr u : SYS None s qs l sp → (p < NPROC)%nat → sp !! p = Some (Some u) → 0 ≤ addr < 2 ^ 64 →
  wp (copy_xstate xstate_at p pp addr) (λ r s', SYS None s' qs l sp ∧ kk s' = kk s ∧ all_pages s' l sp ≡ₚ all_pages s l sp ∧
    (∀ i v, i ≠ p → sp !! i = Some (Some v) → kept (mm s) v (mm s')) ∧
    (r = -1 ∧ (∃ i, 0 ≤ i < 4 ∧ unwritable (mm s) u (addr + i)) ∨ r = 0 ∧ word_at (mm s') u addr (u32 (xstate (getp (kk s) pp))))) s.
Proof.
  intros HS Hp Hu Ha. destruct (SYS_slot _ _ _ _ _ p HS Hp) as (_ & o & Ho & Hok). rewrite Hu in Ho. injection Ho as <-. destruct Hok as (_ & Ept & _). cbn in Ept.
  pose proof (ks_own _ _ _ _ _ _ _ (sy_ks _ _ _ _ _ HS)) as HO. destruct (omap_id_split sp p (Some u) Hu) as (us1 & us2 & Esp & _ & Hoth). cbn [option_list] in Esp. rewrite Esp in HO.
  destruct (Hxst pp) as [Hx1 Hx2]. unfold copy_xstate, procat, on_mm, on_ram. apply wp_bind, wp_gets, wp_bind, wp_gets, wp_bind, wp_zoom, wp_modify. rewrite Ept.
  set (x := u32 (xstate (getp (kk s) pp))). set (r1 := store32 (xstate_at pp) x (ram (mm s))).
  assert (∀ b, rd r1 b = if decide (xstate_at pp ≤ b < xstate_at pp + 4) then u8 (x / 256 ^ (b - xstate_at pp)) else rd (ram (mm s)) b) as Hrd by apply rd_store32.
  destruct (OWN_buffer (mm s) l _ _ r1 (xstate_at pp) 4 HO) as (HO1 & Hk1 & Hpg1); [intros a Hna; by rewrite Hrd, decide_False|apply bytes_ok_store32, (ow_bytes _ _ _ _ HO)|by left|].
  apply wp_zoom. cbn [mm set_mm]. eapply wp_mono; [|apply (copyout_own _ _ _ _ _ _ addr (xstate_at pp) 4 HO1 Ha); [lia|by left]]. intros r m2 (Hch & _ & _ & Hr).
  unfold set_mm. cbn [mm kk ft pipes lo]. split; [|split; [done|split; [|split]]].
  - apply (SYS_mm _ _ _ _ _ _ _ HS). rewrite Esp. apply Hch.
  - unfold all_pages. cbn [mm pipes]. rewrite Esp, <-Hpg1. apply Hch.
  - intros i v Hne Hv. pose proof (Hoth i v Hne Hv) as Hin. eapply kept_trans; [apply Hk1|by apply Hch]. rewrite !elem_of_app in *. tauto.
  - destruct Hr as [[-> Hbs]|(-> & j & Hj & Hw)]; [right|left; split; [done|]; exists j; split; [done|]; eapply unwritable_kept; [apply Hk1|exact Hw]; rewrite !elem_of_app; right; left; by left].
    split; [done|]. intros i Hi. destruct (Hbs i Hi) as [Hb1 Hb2]. split; [done|]. rewrite Hb2. cbn [ram]. rewrite Hrd, decide_True by lia. do 3 f_equal. lia.
Qed.

(** The zombie child [pp] of [p] is reaped: its slot is empty, its pages are free
    and its status is at [addr], unless that is null. *)
Record reaped (p pp : nat) (addr : Z) (s : sys) (qs : list (list nat)) (l : list Z) (sp : list (option uspace)) (s' : sys) (l' : list Z) : Prop := {
  rp_child : (pp < NPROC)%nat ∧ parent (getp (kk s) pp) = Some p ∧ state (getp (kk s) pp) = ZOMBIE;
  rp_sys : SYS None s' qs l' (<[pp := None]> sp);
  rp_status : ∀ u, addr ≠ 0 → sp !! p = Some (Some u) → word_at (mm s') u addr (u32 (xstate (getp (kk s) pp)));
  rp_procs : ∀ i, (i < NPROC)%nat → i ≠ pp → getp (kk s') i = getp (kk s) i;
  rp_cpu : mycpu (kk s') = mycpu (kk s);
  rp_init : initproc (glob (kk s')) = initproc (glob (kk s));
  rp_mem : ∀ i v, i ≠ p → i ≠ pp → sp !! i = Some (Some v) → kept (mm s) v (mm s');
  rp_pages : all_pages s' l' (<[pp := None]> sp) ≡ₚ all_pages s l sp
}.

(** The call fails: no process is reaped and none changes, but for bytes of the
    caller that [copyout] reached before it failed. *)
Record unreaped (p : nat) (s : sys) (qs : list (list nat)) (l : list Z) (sp : list (option uspace)) (s' : sys) : Prop := {
  ur_sys : SYS None s' qs l sp;
  ur_procs : kk s' = kk s;
  ur_mem : ∀ i v, i ≠ p → sp !! i = Some (Some v) → kept (mm s) v (mm s');
  ur_pages : all_pages s' l sp ≡ₚ all_pages s l sp
}.

Definition child (s : sys) (p i : nat) : Prop := parent (getp (kk s) i) = Some p.

(** The first zombie child of [p] in the process table. *)
Definition first_zombie (s : sys) (p pp : nat) : Prop :=
  (pp < NPROC)%nat ∧ child s p pp ∧ state (getp (kk s) pp) = ZOMBIE ∧ ∀ i, (i < pp)%nat → child s p i → state (getp (kk s) i) ≠ ZOMBIE.

(** Four bytes at [addr] that the caller cannot write. *)
Definition bad_word (s : sys) (sp : list (option uspace)) (p : nat) (addr : Z) : Prop :=
  addr ≠ 0 ∧ ∃ u i, sp !! p = Some (Some u) ∧ 0 ≤ i < 4 ∧ unwritable (mm s) u (addr + i).

(** [pp] is the first zombie child among [ls]. *)
Definition first_in (s : sys) (p : nat) (ls : list nat) (pp : nat) : Prop :=
  ∃ l1 l2, ls = l1 ++ pp :: l2 ∧ child s p pp ∧ state (getp (kk s) pp) = ZOMBIE ∧ ∀ i, i ∈ l1 → child s p i → state (getp (kk s) i) ≠ ZOMBIE.

Lemma first_in_skip s p ls i pp : (child s p i → state (getp (kk s) i) ≠ ZOMBIE) → first_in s p ls pp → first_in s p (i :: ls) pp.
Proof.
  intros Hi (l1 & l2 & -> & Hc & Hz & Hno). exists (i :: l1), l2. do 3 (split; [done|]). intros j [->|Hj]%elem_of_cons; [done|by apply Hno].
Qed.

Lemma first_in_table s p pp : first_in s p (seq 0 NPROC) pp → first_zombie s p pp.
Proof.
  intros (l1 & l2 & E & Hc & Hz & Hno). assert (seq 0 NPROC !! length l1 = Some pp) as Hpp by (rewrite E; by apply list_lookup_middle).
  apply lookup_seq in Hpp as [-> Hlt]. split; [exact Hlt|]. split; [done|]. split; [done|]. intros i Hi. apply Hno.
  assert (seq 0 NPROC !! i = Some i) as Hs by (apply lookup_seq; split; [done|]; cbn [Nat.add] in *; lia). rewrite E, lookup_app_l in Hs by (cbn [Nat.add] in Hi; lia). by eapply list_elem_of_lookup_2.
Qed.

Definition scan_post (p : nat) (addr : Z) (ls : list nat) (hk : bool) (s : sys) (qs : list (list nat)) (l : list Z) (sp : list (option uspace)) (r : Z + bool) (s' : sys) : Prop :=
  match r with
  | inr k => s' = s ∧ (∀ i, i ∈ ls → child s p i → state (getp (kk s) i) ≠ ZOMBIE) ∧ (k = true ↔ hk = true ∨ ∃ i, i ∈ ls ∧ child s p i)
  | inl v => ∃ pp, first_in s p ls pp ∧ ((v = -1 ∧ unreaped p s qs l sp s' ∧ bad_word s sp p addr) ∨
      ∃ l', v = pid (getp (kk s) pp) ∧ reaped p pp addr s qs l sp s' l')
  end.

(** A zombie child: its status is copied, then its slot is freed. *)
Lemma reap_ok s qs l sp p pp addr : SYS None s qs l sp → runs s p → (pp < NPROC)%nat → child s p pp → state (getp (kk s) pp) = ZOMBIE → 0 ≤ addr < 2 ^ 64 →
  wp (r ← (if addr =? 0 then mret 0 else copy_xstate xstate_at p pp addr);
      if r <? 0 then mret (inl (-1)) else freeproc pp;; mret (inl (pid (getp (kk s) pp) : Z) : Z + bool))
    (λ r s', (r = inl (-1) ∧ unreaped p s qs l sp s' ∧ bad_word s sp p addr) ∨ ∃ l', r = inl (pid (getp (kk s) pp)) ∧ reaped p pp addr s qs l sp s' l') s.
Proof.
  intros HS Hruns Hpp Hch Hz Ha. destruct (runs_lt s qs p (ks_sched _ _ _ _ _ _ _ (sy_ks _ _ _ _ _ HS)) Hruns) as [Hp _].
  destruct (Live_slot _ _ _ _ _ p HS Hp) as (u & Hu & _); [by rewrite (proj2 Hruns)|]. destruct (Live_slot _ _ _ _ _ pp HS Hpp) as (v & Hv & Hokv); [by rewrite Hz|].
  assert (p ≠ pp) as Hne by (intros ->; destruct Hruns; congruence). destruct Hokv as (_ & _ & _ & _ & _ & _ & Hdead). cbn in Hdead. rewrite Hz in Hdead. destruct (Hdead eq_refl) as [Hof Hcw].
  apply wp_bind. eapply wp_mono with (P := λ r s1, unreaped p s qs l sp s1 ∧ (r = -1 ∧ bad_word s sp p addr ∨ r = 0 ∧ (addr ≠ 0 → word_at (mm s1) u addr (u32 (xstate (getp (kk s) pp)))))).
  2: { destruct (Z.eqb_spec addr 0) as [->|Hn]; [apply wp_ret; split; [split; try done; by intros; apply kept_refl|by right]|].
    eapply wp_mono; [|by apply (copy_xstate_ok s qs l sp p pp addr u)]. intros r s1 (H1 & H2 & H3 & H4 & H5). split; [by split|]. destruct H5 as [(-> & i & Hi & Hw)|[-> H5]]; [left|by right]. split; [done|]. split; [done|]. by exists u, i. }
  intros r s1 (Hun & [[-> Hbad]|[-> Hst]]); cbn [Z.ltb Z.compare]; [apply wp_ret; by left|]. destruct Hun as [HS1 Ek Hk1 Hpg1].
  apply wp_bind. eapply wp_mono; [|apply (freeproc_ok None s1 qs l sp pp v HS1 Hpp Hv); rewrite ?Ek; [by left|done|done|by left]]. intros [] s2 (l2 & HS2 & Hfr & _). apply wp_ret. right. exists l2. split; [done|]. destruct Hfr as [F1 F2 F3 F4 F5].
  split; [done|done| |intros i Hi Hi'; by rewrite F1, Ek|by rewrite F2, Ek|by rewrite F5, Ek| |by rewrite F4].
  - intros u' Hn Hu'. rewrite Hu in Hu'. injection Hu' as <-. pose proof (kp_user _ _ _ (F3 p u Hne Hu)) as Hsame. intros i Hi. destruct (Hst Hn i Hi) as [Hr Hb]. split; [done|]. by rewrite (ubyte_same _ _ _ _ _ Hsame Hr).
  - intros i w Hip Hipp Hw. eapply kept_trans; [by eapply Hk1|by eapply F3].
Qed.

Lemma wait_scan_ok s qs l sp p addr : SYS None s qs l sp → runs s p → 0 ≤ addr < 2 ^ 64 →
  ∀ ls hk, Forall (λ i, i < NPROC)%nat ls → wp (wait_scan xstate_at p addr ls hk) (scan_post p addr ls hk s qs l sp) s.
Proof.
  intros HS Hruns Ha ls. induction ls as [|pp ls IH]; intros hk Hall.
  { apply wp_ret. split; [done|]. split; [by intros i Hi%not_elem_of_nil|]. split; [by left|]. intros [?|(i & Hi & _)]; [done|]. by apply not_elem_of_nil in Hi. }
  apply Forall_cons in Hall as [Hpp Hall]. cbn [wait_scan]. unfold procat. apply wp_bind, wp_gets. case_decide as Hch; [case_decide as Hz|].
  - eapply wp_mono; [|by apply (reap_ok s qs l sp p pp addr)]. intros r s' Hr.
    assert (first_in s p (pp :: ls) pp) as Hf by (exists [], ls; do 3 (split; [done|]); by intros i Hi%not_elem_of_nil).
    destruct Hr as [(-> & Hun & Hb)|(l' & -> & Hre)]; exists pp; (split; [exact Hf|]); [by left|right; by exists l'].
  - eapply wp_mono; [|by apply IH]. intros [v|k] s'; cbn.
    + intros (i & Hi & Hr). exists i. split; [|exact Hr]. by apply first_in_skip.
    + intros (-> & Hno & Hk). split; [done|]. split; [intros i [->|Hi]%elem_of_cons; [done|by apply Hno]|]. rewrite Hk. split; [right; exists pp; split; [by left|done]|by left].
  - eapply wp_mono; [|by apply IH]. intros [v|k] s'; cbn.
    + intros (i & Hi & Hr). exists i. split; [|exact Hr]. by apply first_in_skip.
    + intros (-> & Hno & Hk). split; [done|]. split; [intros i [->|Hi]%elem_of_cons; [done|by apply Hno]|]. rewrite Hk. apply or_iff_compat_l.
      split; intros (i & Hi & Hc); exists i; (split; [|done]); [by right|]. apply elem_of_cons in Hi as [->|?]; done.
Qed.

(** [wait] reaps the first zombie child of the process table; or fails, because
    there is no child, or no zombie and the caller was killed, or a zombie whose
    status cannot be stored at [addr]; or sleeps, when no child
    is a zombie and the caller is not killed. *)
Definition wait_post (p : nat) (addr : Z) (s : sys) (qs : list (list nat)) (l : list Z) (sp : list (option uspace)) (r : option Z) (s' : sys) : Prop :=
  match r with
  | Some v =>
      (v = -1 ∧ unreaped p s qs l sp s' ∧
       ((∀ i, (i < NPROC)%nat → ¬ child s p i) ∨
        (killed p (kk s) ≠ 0 ∧ ∀ i, (i < NPROC)%nat → child s p i → state (getp (kk s) i) ≠ ZOMBIE) ∨
        ((∃ pp, first_zombie s p pp) ∧ bad_word s sp p addr))) ∨
      ∃ pp l', first_zombie s p pp ∧ v = pid (getp (kk s) pp) ∧ reaped p pp addr s qs l sp s' l'
  | None => killed p (kk s) = 0 ∧ SYS None s' qs l sp ∧ mm s' = mm s ∧ pipes s' = pipes s ∧ mycpu (kk s') = mycpu (kk s) ∧ glob (kk s') = glob (kk s) ∧ (∃ i, (i < NPROC)%nat ∧ child s p i) ∧ (∀ i, (i < NPROC)%nat → child s p i → state (getp (kk s) i) ≠ ZOMBIE) ∧
      (∀ i, (i < NPROC)%nat → state (getp (kk s') i) ≠ RUNNING) ∧ 
      ∀ i, (i < NPROC)%nat → field (kk s') i = if decide (i = p) then set_state SLEEPING (set_chan (ChProc p) (field (kk s) i)) else field (kk s) i
  end.

Lemma wait_ok s qs l sp p addr : SYS None s qs l sp → runs s p → 0 ≤ addr < 2 ^ 64 → wp (wait xstate_at addr) (wait_post p addr s qs l sp) s.
Proof.
  intros HS Hruns Ha. unfold wait, with_me. apply wp_bind, wp_gets. rewrite (proj1 Hruns). apply wp_bind.
  eapply wp_mono; [|apply (wait_scan_ok s qs l sp p addr HS Hruns Ha); apply Forall_forall; intros i Hi; by apply elem_of_seq in Hi as [_ ?]].
  assert (∀ i, (i < NPROC)%nat → i ∈ seq 0 NPROC) as Hin by (intros i Hi; apply elem_of_seq; lia). assert (∀ i, i ∈ seq 0 NPROC → (i < NPROC)%nat) as Hin' by (intros i [_ Hi]%elem_of_seq; exact Hi).
  intros [v|k] s'; cbn [scan_post].
  - intros (pp & Hpp%first_in_table & [(-> & Hun & Hb)|(l' & -> & Hre)]); apply wp_ret; [left|right; by exists pp, l'].
    split; [done|]. split; [done|]. right. right. split; [by exists pp|done].
  - intros (-> & Hno & Hk). apply wp_bind, wp_gets. destruct (negb k || negb (killed p (kk s) =? 0)) eqn:E.
    + apply wp_ret. left. split; [done|]. split; [split; try done; by intros; apply kept_refl|]. apply orb_true_iff in E as [E|E].
      * left. intros i Hi Hc. apply negb_true_iff in E. rewrite E in Hk. discriminate (proj2 Hk (or_intror (ex_intro _ i (conj (Hin i Hi) Hc)))).
      * right. left. split; [intros E'; by rewrite E' in E|]. intros i Hi. by apply Hno, Hin.
    + apply orb_false_iff in E as [->%negb_false_iff E%negb_false_iff%Z.eqb_eq]. destruct (proj1 Hk eq_refl) as [?|(i & Hi & Hc)]; [done|].
      apply wp_bind. eapply wp_mono; [|by apply (sleep_sys None s qs l sp p (ChProc p))]. intros [] s1 (A1 & A2 & A3 & A4 & A5 & A6 & A7 & A8 & A9). apply wp_ret.
      do 6 (split; [done|]). split; [exists i; split; [by apply Hin'|done]|]. split; [intros j Hj; by apply Hno, Hin|]. split; [exact A8|exact A9].
Qed.
End procwait.
