(* ===== verification/Procfile.v ===== *)
(** * The calls on descriptors

    What [dup], [close] and [pipe] do to the invariant [SYS] of [Procspec]: the
    descriptors of the caller change, counts stay exact and the last reference
    gives up what the file held. *)

From S2P Require Import Prelude Machine Ring Pipe Proc Runq Sched Mem Kalloc Vm Vmspec Uvm Ucopy Procmem Files Proclife Procspec Procfork.

#[local] Opaque wakeup reparent prio_enqueue.

Section procfile.
Context `{LY : Layout} {L : Type} `{!InodeOps L, !InodeLaws L}.
#[local] Notation sys := (@Files.sys L).

(** The running process in the table. *)
Lemma SYS_running nw s qs l sp p : SYS nw s qs l sp → runs s p →
  (p < NPROC)%nat ∧ length (procs (kk s)) = NPROC ∧ length (ofile (getp (kk s) p)) = NOFILE ∧ holds (kk s) !! p = Some (hold_of (getp (kk s) p)) ∧
  ∃ u, sp !! p = Some (Some u) ∧ slot_ok (hold_of (getp (kk s) p)) (Some u).
Proof.
  intros HS Hruns. destruct (runs_lt s qs p (ks_sched _ _ _ _ _ _ _ (sy_ks _ _ _ _ _ HS)) Hruns) as [Hp _]. destruct (SYS_length _ _ _ _ _ HS) as (_ & El & _).
  destruct (SYS_slot _ _ _ _ _ p HS Hp) as (Hh & o & Ho & Hok). destruct (Live_slot _ _ _ _ _ p HS Hp) as (u & Hu & Hoku); [by rewrite (proj2 Hruns)|].
  do 2 (split; [done|]). split; [exact (slot_files _ _ Hok)|]. split; [done|]. by exists u.
Qed.

(** The descriptors of the running process are [o] from now on. *)
Lemma SYS_ofile s qs l sp p o s1 qs1 l1 fds : SYS None s qs l sp → runs s p → length o = NOFILE →
  holds (kk s1) = <[p := hold_of (set_ofile o (getp (kk s) p))]> (holds (kk s)) → idleproc (mycpu (kk s1)) = idleproc (mycpu (kk s)) →
  KS s1 false qs1 l1 (omap id sp) fds (cwds_of (holds (kk s))) → fds ≡ₚ fds_of (<[p := hold_of (set_ofile o (getp (kk s) p))]> (holds (kk s))) → SYS None s1 qs1 l1 sp.
Proof.
  intros HS Hruns Ho Eh Eid HK HP. destruct (SYS_running _ _ _ _ _ _ HS Hruns) as (Hp & _ & Elo & Hh & u & Hu & Hok).
  rewrite <-(list_insert_id sp p (Some u) Hu). eapply (SYS_upd None None s qs l sp s1 qs1 l1 p _ (Some u) fds _ HS Hp Eh Eid); [by rewrite (list_insert_id sp p (Some u) Hu)|exact HP| | |done|].
  - symmetry. by apply (cwds_of_same _ _ _ _ Hh).
  - apply slot_ok_ofile; [done|apply Hruns|congruence].
  - intros Hl Hid _. exact (sy_cwd _ _ _ _ _ HS p _ Hh Hl Hid ltac:(done)).
Qed.

(** [argfd]: the file of an open descriptor. *)
Definition open_fd (s : sys) (p : nat) (fd : Z) (f : nat) : Prop := 0 ≤ fd < Z.of_nat NOFILE ∧ ofile (getp (kk s) p) !! Z.to_nat fd = Some (Some f).

Lemma argfd_ok s p fd : myproc (kk s) = Some p → length (ofile (getp (kk s) p)) = NOFILE →
  wp (argfd fd) (λ o s', s' = s ∧ match o with Some f => open_fd s p fd f | None => ∀ f, ¬ open_fd s p fd f end) s.
Proof.
  intros Hm Hlen. unfold argfd. destruct ((fd <? 0) || (Z.of_nat NOFILE <=? fd)) eqn:E.
  - apply wp_ret. split; [done|]. intros f [Hr _]. apply orb_true_iff in E. lia.
  - apply orb_false_iff in E as [E1 E2]. unfold with_me. apply wp_bind, wp_gets. rewrite Hm. unfold procat. apply wp_bind, wp_gets, wp_ret. split; [done|].
    assert (is_Some (ofile (getp (kk s) p) !! Z.to_nat fd)) as [o Ho] by (apply lookup_lt_is_Some; lia). rewrite (lookup_total_Some _ _ _ Ho).
    destruct o as [f|]; [split; [lia|done]|]. intros f [_ Hf]. congruence.
Qed.

(** [sys_dup]: a new descriptor, the lowest free one, of the same file. *)
Definition dup_post (p : nat) (a0 : Z) (s : sys) (qs : list (list nat)) (l : list Z) (sp : list (option uspace)) (r : Z) (s' : sys) : Prop :=
  (r = -1 ∧ s' = s ∧ ((∀ f, ¬ open_fd s p a0 f) ∨ None ∉ ofile (getp (kk s) p))) ∨
  ∃ f fd, r = Z.of_nat fd ∧ open_fd s p a0 f ∧ ofile (getp (kk s) p) !! fd = Some None ∧ (∀ j, (j < fd)%nat → ofile (getp (kk s) p) !! j ≠ Some None) ∧
    SYS None s' qs l sp ∧ mild p s l sp (put_fd fd f (field (kk s) p)) s' l ∧ fref (ft s' !!! f) = fref (ft s !!! f) + 1.

Lemma sys_dup_ok s qs l sp p a0 : SYS None s qs l sp → runs s p → wp (sys_dup a0) (dup_post p a0 s qs l sp) s.
Proof.
  intros HS Hruns. destruct (SYS_running _ _ _ _ _ _ HS Hruns) as (Hp & El & Elo & Hh & u & Hu & Hok). pose proof (SYS_fds _ _ _ _ _ HS) as Hb.
  unfold sys_dup. apply wp_bind. eapply wp_mono; [|apply (argfd_ok s p a0 (proj1 Hruns) Elo)]. intros [f|] s' [-> Hopen]; [|apply wp_ret; left; split; [done|split; [done|by left]]].
  unfold fdalloc, with_me, procat. apply wp_bind, wp_bind, wp_gets. rewrite (proj1 Hruns). apply wp_bind, wp_gets. destruct (list_find _ _) as [[fd o]|] eqn:E.
  2: { apply wp_ret. cbn. apply wp_ret. left. split; [done|]. split; [done|]. right. apply list_find_None in E. rewrite Forall_forall in E. intros Hin. by apply (E None Hin). }
  apply list_find_Some in E as (Hfd & -> & Hlow). unfold setp, on_kk. apply wp_bind, wp_zoom, wp_modify, wp_ret. rewrite (proj2 (Z.ltb_ge (Z.of_nat fd) 0)) by lia.
  pose proof (sy_ks _ _ _ _ _ HS) as [H1 H2 H3 H4 H5]. change (λ pr : proc, set_ofile (<[fd := Some f]> (ofile pr)) pr) with (put_fd fd f). set (s1 := set_kk (updp p (put_fd fd f) (kk s)) s).
  assert (KS s1 false qs l (omap id sp) (fds_of (holds (kk s))) (cwds_of (holds (kk s)))) as HK1 by (split; [by apply SInv_updp|exact H2|exact H3|exact H4|exact H5]).
  apply wp_bind. assert (f ∈ fds_of (holds (kk s))) as Hin by (eapply fds_of_elem; [exact Hh|]; apply list_elem_of_omap; exists (Some f); split; [eapply list_elem_of_lookup_2, (proj2 Hopen)|done]).
  pose proof (filedup_ok s1 false qs l _ _ _ f HK1 Hin ltac:(lia)) as Hdup. eapply wp_mono; [|exact Hdup]. intros g s2 (-> & t & -> & HK2 & _). apply wp_ret. right. exists f, fd. do 2 (split; [done|]). split; [done|].
  split; [intros j Hj Hn; by apply (Hlow j None Hn Hj)|]. split; [|split].
  - eapply (SYS_ofile s qs l sp p (<[fd := Some f]> (ofile (getp (kk s) p))) _ qs l _ HS Hruns); [by rewrite length_insert| |done|exact HK2|].
    + cbn [kk s1 set_kk set_ft]. by rewrite holds_alter by lia.
    + symmetry. exact (fds_add _ _ _ _ f Hh Hfd).
  - apply (mild_updp p s l sp (put_fd fd f) (lo s) t); [lia|done].
  - assert (∃ x, ft s !! f = Some x) as [x Hx] by (apply lookup_lt_is_Some; rewrite (rf_len _ _ H3); by apply (rf_fds _ _ H3)). pose proof (ks_refs _ _ _ _ _ _ _ HK2) as H32. cbn [ft set_ft] in H32.
    assert (∃ y, t !! f = Some y) as [y Hy] by (apply lookup_lt_is_Some; rewrite (rf_len _ _ H32); by apply (rf_fds _ _ H3)).
    cbn [ft set_ft]. rewrite (lookup_total_Some _ _ _ Hx), (lookup_total_Some _ _ _ Hy), (rf_ref _ _ H32 f y Hy), (rf_ref _ _ H3 f x Hx), count_occ_cons_eq by done. lia.
Qed.

(** [sys_close]: the descriptor is free. *)
Definition close_post (p : nat) (a0 : Z) (s : sys) (qs : list (list nat)) (l : list Z) (sp : list (option uspace)) (r : Z) (s' : sys) : Prop :=
  (r = -1 ∧ s' = s ∧ ∀ f, ¬ open_fd s p a0 f) ∨
  ∃ f qs' l', r = 0 ∧ open_fd s p a0 f ∧ SYS None s' qs' l' sp ∧ mild p s l sp (clr (Z.to_nat a0) (field (kk s) p)) s' l'.

Lemma sys_close_ok s qs l sp p a0 : SYS None s qs l sp → runs s p → wp (sys_close a0) (close_post p a0 s qs l sp) s.
Proof.
  intros HS Hruns. destruct (SYS_running _ _ _ _ _ _ HS Hruns) as (Hp & El & Elo & Hh & u & Hu & Hok). pose proof (SYS_fds _ _ _ _ _ HS) as Hb.
  unfold sys_close. apply wp_bind. eapply wp_mono; [|apply (argfd_ok s p a0 (proj1 Hruns) Elo)]. intros [f|] s' [-> Hopen]; [|apply wp_ret; by left].
  unfold clear_fd, with_me, setp, on_kk. apply wp_bind, wp_bind, wp_gets. rewrite (proj1 Hruns). apply wp_zoom, wp_modify.
  pose proof (sy_ks _ _ _ _ _ HS) as [H1 H2 H3 H4 H5]. set (fd := Z.to_nat a0) in *. change (λ pr : proc, set_ofile (<[fd := None]> (ofile pr)) pr) with (clr fd). set (s1 := set_kk (updp p (clr fd) (kk s)) s).
  pose proof (fds_drop _ _ _ _ _ Hh (proj2 Hopen)) as HP. fold fd in HP. rewrite HP in Hb. cbn [length] in Hb.
  assert (KS s1 false qs l (omap id sp) (fds_of (holds (kk s))) (cwds_of (holds (kk s)))) as HK1 by (split; [by apply SInv_updp|exact H2|exact H3|exact H4|exact H5]).
  eapply KS_perm in HK1; [|exact HP]. apply wp_bind. eapply wp_mono; [|apply (fileclose_ok s1 qs l _ _ _ f HK1); lia]. intros [] s2 (qs2 & l2 & HK2 & Hq). apply wp_ret. right. exists f, qs2, l2. do 2 (split; [done|]).
  assert (mild p s l sp (clr fd (field (kk s) p)) s1 l) as Hm1 by (apply (mild_updp p s l sp (clr fd) (lo s) (ft s)); [lia|done]).
  assert (runs s1 p) as Hr1 by (eapply mild_runs; [exact Hm1|done|apply Hruns]). pose proof (quiet_mild _ _ _ _ _ _ _ _ Hq Hr1 Hp) as Hm2. rewrite (md_self _ _ _ _ _ _ _ Hm1) in Hm2.
  split; [|by eapply mild_trans]. eapply (SYS_ofile s qs l sp p (<[fd := None]> (ofile (getp (kk s) p))) _ qs2 l2 _ HS Hruns); [by rewrite length_insert| | |exact HK2|done].
  - rewrite (qt_holds _ _ _ _ _ _ _ Hq). cbn [kk s1 set_kk]. by rewrite holds_alter by lia.
  - rewrite (md_idle _ _ _ _ _ _ _ Hm2). done.
Qed.

(** ** Pipe *)

(** As [mild], but memory of [p] itself may have changed. *)
Record touched (p : nat) (s : sys) (l : list Z) (sp : list (option uspace)) (x : proc) (s' : sys) (l' : list Z) : Prop := {
  tc_my : myproc (kk s') = myproc (kk s);
  tc_idle : idleproc (mycpu (kk s')) = idleproc (mycpu (kk s));
  tc_glob : glob (kk s') = glob (kk s);
  tc_self : field (kk s') p = x;
  tc_others : ∀ i, (i < NPROC)%nat → i ≠ p → roused (field (kk s) i) (field (kk s') i);
  tc_kept : ∀ i v, i ≠ p → sp !! i = Some (Some v) → kept (mm s) v (mm s');
  tc_pages : all_pages s' l' sp ≡ₚ all_pages s l sp
}.

Lemma mild_touched p s l sp x s' l' : mild p s l sp x s' l' → touched p s l sp x s' l'.
Proof. intros [A1 A2 A3 A4 A5 A6 A7]. split; [done..| |done]. intros i v _. apply A6. Qed.

Lemma touched_trans p s1 l1 sp x2 s2 l2 x3 s3 l3 : touched p s1 l1 sp x2 s2 l2 → touched p s2 l2 sp x3 s3 l3 → touched p s1 l1 sp x3 s3 l3.
Proof.
  intros [A1 A2 A3 A4 A5 A6 A7] [B1 B2 B3 B4 B5 B6 B7]. split; [congruence..|done| | |by rewrite B7].
  - intros i Hi Hne. etrans; [by apply A5|by apply B5].
  - intros i v Hne Hv. eapply kept_trans; [by eapply A6|by eapply B6].
Qed.

Lemma set_ofile_twice o o' x : set_ofile o (set_ofile o' x) = set_ofile o x.
Proof. done. Qed.

Section pipe.
Context (s0 : sys) (qs0 : list (list nat)) (l0 : list Z) (sp : list (option uspace)) (p : nat) (u : uspace).
Context (HS0 : SYS None s0 qs0 l0 sp) (Hruns : runs s0 p) (Hu : sp !! p = Some (Some u)).

(** In the middle of a call of [p]: its descriptors are [o], the references are [fds]. *)
Record midcall (o : list (option nat)) (fds : list nat) (s : sys) (qs : list (list nat)) (l : list Z) : Prop := {
  mc_ks : KS s false qs l (omap id sp) fds (cwds_of (holds (kk s0)));
  mc_len : length o = NOFILE;
  mc_holds : holds (kk s) = <[p := hold_of (set_ofile o (getp (kk s0) p))]> (holds (kk s0));
  mc_touched : touched p s0 l0 sp (set_ofile o (field (kk s0) p)) s l
}.

Lemma midcall_start s qs l : quiet (omap id sp) s0 qs0 l0 s qs l → ∀ fds, KS s false qs l (omap id sp) fds (cwds_of (holds (kk s0))) → midcall (ofile (getp (kk s0) p)) fds s qs l.
Proof.
  intros Hq fds HK. destruct (SYS_running _ _ _ _ _ _ HS0 Hruns) as (Hp & _ & Elo & Hh & _). assert (∀ x, set_ofile (ofile x) x = x) as Eid by (by intros []).
  split; [done|done| |].
  - rewrite (qt_holds _ _ _ _ _ _ _ Hq), Eid. symmetry. by apply list_insert_id.
  - change (ofile (getp (kk s0) p)) with (ofile (field (kk s0) p)). rewrite Eid. by eapply mild_touched, quiet_mild.
Qed.

Lemma midcall_proc o fds s qs l : midcall o fds s qs l → myproc (kk s) = Some p ∧ ofile (getp (kk s) p) = o ∧ pagetable (getp (kk s) p) = us_root u ∧ (p < length (procs (kk s)))%nat ∧ runs s p.
Proof.
  intros [HK Ho Hh Ht]. destruct (SYS_running _ _ _ _ _ _ HS0 Hruns) as (Hp & _ & _ & _ & u' & Hu' & Hok). rewrite Hu in Hu'. injection Hu' as <-. destruct Hok as (_ & Ept & _).
  pose proof (tc_self _ _ _ _ _ _ _ Ht) as Es. pose proof (Repr_procs _ _ (si_repr _ _ (ks_sched _ _ _ _ _ _ _ HK))) as El.
  assert (myproc (kk s) = Some p) as Hm by (rewrite (tc_my _ _ _ _ _ _ _ Ht); apply Hruns). split; [done|].
  split; [change (ofile (field (kk s) p) = o); by rewrite Es|]. split; [change (pagetable (field (kk s) p) = us_root u); rewrite Es; exact Ept|]. split; [lia|]. split; [done|]. rewrite state_field, Es. apply Hruns.
Qed.

Lemma midcall_end o fds s qs l : midcall o fds s qs l → fds ≡ₚ fds_of (<[p := hold_of (set_ofile o (getp (kk s0) p))]> (holds (kk s0))) → SYS None s qs l sp.
Proof. intros [HK Ho Hh Ht] HP. eapply (SYS_ofile s0 qs0 l0 sp p o s qs l fds HS0 Hruns Ho Hh); [apply Ht|done|done]. Qed.

(** The descriptors of [p] change. *)
Lemma midcall_upd o fds s qs l fd c : midcall o fds s qs l →
  midcall (<[fd := c]> o) fds (set_kk (updp p (λ x, set_ofile (<[fd := c]> (ofile x)) x) (kk s)) s) qs l.
Proof.
  intros HM. pose proof (midcall_proc _ _ _ _ _ HM) as (_ & Eo & _ & Hlt & _). destruct (SYS_running _ _ _ _ _ _ HS0 Hruns) as (Hp & _). destruct HM as [[H1 H2 H3 H4 H5] Ho Hh Ht]. split; [split; [apply (SInv_updp (kk s) qs p); done|exact H2|exact H3|exact H4|exact H5]|by rewrite length_insert| |].
  - cbn [kk set_kk]. rewrite holds_alter by done. rewrite Hh, list_insert_insert_eq. f_equal. pose proof (f_equal (λ v, v !! p) Hh) as E. cbn in E. rewrite lookup_holds in E by done.
    rewrite list_lookup_insert_eq in E by (pose proof (f_equal length Hh) as E'; rewrite length_insert in E'; rewrite <-E'; unfold holds; by rewrite length_fmap). apply (inj Some) in E.
    change (hold_of (set_ofile (<[fd:=c]> (ofile (getp (kk s) p))) (getp (kk s) p))) with (let h := hold_of (getp (kk s) p) in Hold (h_life h) (h_sz h) (h_pt h) (h_tf h) (<[fd:=c]> (h_of h)) (h_cwd h)). by rewrite E.
  - eapply touched_trans; [exact Ht|]. apply mild_touched. rewrite <-(set_ofile_twice (<[fd := c]> o) o), <-(tc_self _ _ _ _ _ _ _ Ht). rewrite <-Eo.
    apply (mild_updp p s l sp (λ x, set_ofile (<[fd := c]> (ofile x)) x) (lo s) (ft s)); [done|done].
Qed.

Lemma midcall_mem o fds s qs l us1 us2 m' : omap id sp = us1 ++ [u] ++ us2 → (∀ j v, j ≠ p → sp !! j = Some (Some v) → v ∈ us1 ++ us2) → midcall o fds s qs l →
  changed (mm s) l us1 u us2 (system_pages (pipes s)) m' l u → midcall o fds (set_mm m' s) qs l.
Proof.
  intros Esp Hoth [[H1 H2 H3 H4 H5] Ho Hh Ht] [C1 C2 C3]. split; [split; [exact H1|rewrite Esp; exact C1|exact H3|exact H4|exact H5]|done|done|]. eapply touched_trans; [exact Ht|].
  rewrite <-(tc_self _ _ _ _ _ _ _ Ht). split; [done|done|done|done|by left| |].
  - intros i v Hne Hv. apply C2. by eapply Hoth.
  - unfold all_pages. cbn [mm pipes set_mm]. by rewrite Esp.
Qed.

Lemma midcall_close o f fds s qs l : midcall o (f :: fds) s qs l → Z.of_nat (length fds) < 10000 →
  wp (fileclose f) (λ _ s', ∃ qs' l', midcall o fds s' qs' l' ∧ ∀ v, sp !! p = Some (Some v) → kept (mm s) v (mm s')) s.
Proof.
  intros HM Hb. pose proof (midcall_proc _ _ _ _ _ HM) as (_ & _ & _ & _ & Hr). destruct (SYS_running _ _ _ _ _ _ HS0 Hruns) as (Hp & _). destruct HM as [HK Ho Hh Ht].
  eapply wp_mono; [|by apply (fileclose_ok _ _ _ _ _ _ _ HK)]. intros [] s' (qs' & l' & HK' & Hq). exists qs', l'. pose proof (quiet_mild _ _ _ _ _ _ _ _ Hq Hr Hp) as Hm.
  split; [|by intros v Hv; apply (md_kept _ _ _ _ _ _ _ Hm p)]. split; [done|done|by rewrite (qt_holds _ _ _ _ _ _ _ Hq)|]. rewrite (tc_self _ _ _ _ _ _ _ Ht) in Hm. eapply touched_trans; [exact Ht|by apply mild_touched].
Qed.

(** [fdalloc] takes the lowest free descriptor. *)
Lemma midcall_fdalloc o fds s qs l f : midcall o fds s qs l →
  wp (fdalloc f) (λ r s', (r = -1 ∧ s' = s ∧ None ∉ o) ∨ ∃ fd, r = Z.of_nat fd ∧ o !! fd = Some None ∧ (∀ j, (j < fd)%nat → o !! j ≠ Some None) ∧
    midcall (<[fd := Some f]> o) fds s' qs l ∧ mm s' = mm s ∧ ft s' = ft s ∧ pipes s' = pipes s) s.
Proof.
  intros HM. pose proof (midcall_proc _ _ _ _ _ HM) as (Hm & Eo & _). unfold fdalloc, with_me, procat. apply wp_bind, wp_gets. rewrite Hm. apply wp_bind, wp_gets. rewrite Eo. destruct (list_find _ _) as [[fd c]|] eqn:E.
  - apply list_find_Some in E as (Hfd & -> & Hlow). unfold setp, on_kk. apply wp_bind, wp_zoom, wp_modify, wp_ret. right. exists fd. do 2 (split; [done|]). split; [intros j Hj Hn; by apply (Hlow j None Hn Hj)|]. split; [by apply midcall_upd|done].
  - apply wp_ret. left. split; [done|]. split; [done|]. apply list_find_None in E. rewrite Forall_forall in E. intros Hin. by apply (E None Hin).
Qed.

Lemma midcall_clear o fds s qs l fd : midcall o fds s qs l → wp (clear_fd fd) (λ _ s', midcall (<[Z.to_nat fd := None]> o) fds s' qs l ∧ mm s' = mm s) s.
Proof.
  intros HM. pose proof (midcall_proc _ _ _ _ _ HM) as (Hm & _). unfold clear_fd, with_me, setp, on_kk. apply wp_bind, wp_gets. rewrite Hm. apply wp_zoom, wp_modify. split; [by apply midcall_upd|done].
Qed.

(** A local of the call is written to the kernel stack. *)
Lemma midcall_local o fds s qs l a v : midcall o fds s qs l → kernel_buf (system_pages (pipes s)) a 4 →
  wp (on_mm (on_ram (store32 a v))) (λ _ s', midcall o fds s' qs l ∧ pipes s' = pipes s ∧ ft s' = ft s ∧ ram (mm s') = store32 a v (ram (mm s))) s.
Proof.
  intros HM Hbuf. pose proof (ks_own _ _ _ _ _ _ _ (mc_ks _ _ _ _ _ HM)) as HO. unfold on_mm, on_ram. apply wp_zoom, wp_modify. split; [|done].
  destruct (OWN_buffer (mm s) l _ _ (store32 a v (ram (mm s))) a 4 HO) as (HO1 & Hk1 & Hpg1); [intros b Hnb; by rewrite rd_store32, decide_False|apply bytes_ok_store32, (ow_bytes _ _ _ _ HO)|done|].
  destruct (omap_id_split sp p (Some u) Hu) as (us1 & us2 & Esp & _ & Hoth). change (option_list (Some u)) with [u] in Esp. rewrite Esp in HO1, Hk1, Hpg1. apply (midcall_mem o fds s qs l us1 us2); [done|done|done|].
  split; [done| |by rewrite Hpg1]. intros w Hw. apply Hk1. rewrite !elem_of_app in *. tauto.
Qed.

(** A word is copied from the kernel stack to the process. *)
Lemma midcall_copyout o fds s qs l va a : midcall o fds s qs l → kernel_buf (system_pages (pipes s)) a 4 → 0 ≤ va < 2 ^ 64 →
  wp (on_mm (copyout (us_root u) va a 4)) (λ r s', midcall o fds s' qs l ∧ pipes s' = pipes s ∧ ft s' = ft s ∧
    (∀ b i, kernel_buf (system_pages (pipes s)) b 4 → 0 ≤ i < 4 → rd (ram (mm s')) (b + i) = rd (ram (mm s)) (b + i)) ∧
    (∀ va', 0 ≤ va' < us_n u * PGSIZE → ¬ (va ≤ va' < va + 4) → ubyte (mm s') (us_t u) va' = ubyte (mm s) (us_t u) va') ∧
    (r = -1 ∨ r = 0 ∧ ∀ i, 0 ≤ i < 4 → 0 ≤ va + i < us_n u * PGSIZE ∧ ubyte (mm s') (us_t u) (va + i) = rd (ram (mm s)) (a + i))) s.
Proof.
  intros HM Hbuf Hva. pose proof (ks_own _ _ _ _ _ _ _ (mc_ks _ _ _ _ _ HM)) as HO. destruct (omap_id_split sp p (Some u) Hu) as (us1 & us2 & Esp & _ & Hoth). change (option_list (Some u)) with [u] in Esp. rewrite Esp in HO.
  unfold on_mm. apply wp_zoom. eapply wp_mono; [|by apply (copyout_own _ _ _ _ _ _ va a 4 HO Hva)]. intros r m' (Hch & Hker & Hout & Hr). split; [by apply (midcall_mem o fds s qs l us1 us2)|]. do 2 (split; [done|]).
  split; [intros b i Hb Hi; by apply (Hker b 4 i)|]. split; [exact Hout|]. destruct Hr as [[-> Hr]|[-> _]]; [by right|by left].
Qed.

Lemma midcall_perm o fds fds' s qs l : fds ≡ₚ fds' → midcall o fds s qs l → midcall o fds' s qs l.
Proof. intros HP [HK Ho Hh Ht]. split; [by eapply KS_perm|done..]. Qed.

Notation o0 := (ofile (getp (kk s0) p)).
Notation fds0 := (fds_of (holds (kk s0))).

(** The call fails: both files are closed again. *)
Lemma midcall_abort r w s qs l : midcall o0 (w :: r :: fds0) s qs l →
  wp (fileclose r;; fileclose w;; mret (-1)) (λ v s', v = -1 ∧ ∃ qs' l', SYS None s' qs' l' sp ∧ touched p s0 l0 sp (field (kk s0) p) s' l') s.
Proof.
  intros HM. pose proof (SYS_fds _ _ _ _ _ HS0) as Hb. destruct (SYS_running _ _ _ _ _ _ HS0 Hruns) as (_ & _ & _ & Hh & _). assert (∀ x, set_ofile (ofile x) x = x) as Eid by (by intros []).
  apply wp_bind. eapply wp_mono; [|apply (midcall_close o0 r (w :: fds0) s qs l); [eapply midcall_perm; [apply Permutation_swap|done]|cbn [length]; lia]]. intros [] s1 (qs1 & l1 & HM1 & _).
  apply wp_bind. eapply wp_mono; [|apply (midcall_close o0 w fds0 s1 qs1 l1 HM1); lia]. intros [] s2 (qs2 & l2 & HM2 & _). apply wp_ret. split; [done|]. exists qs2, l2.
  split; [eapply midcall_end; [exact HM2|]; by rewrite Eid, list_insert_id|]. pose proof (mc_touched _ _ _ _ _ HM2) as Ht. change o0 with (ofile (field (kk s0) p)) in Ht. by rewrite Eid in Ht.
Qed.

Lemma fds_two r w fd0 fd1 : o0 !! fd0 = Some None → <[fd0 := Some r]> o0 !! fd1 = Some None →
  w :: r :: fds0 ≡ₚ fds_of (<[p := hold_of (set_ofile (<[fd1 := Some w]> (<[fd0 := Some r]> o0)) (getp (kk s0) p))]> (holds (kk s0))).
Proof.
  intros H0 H1. destruct (SYS_running _ _ _ _ _ _ HS0 Hruns) as (Hp & _ & _ & Hh & _). set (x := getp (kk s0) p) in *. pose proof (fds_add _ _ x fd0 r Hh H0) as HP1.
  assert (<[p := hold_of (put_fd fd0 r x)]> (holds (kk s0)) !! p = Some (hold_of (put_fd fd0 r x))) as Hh1 by (apply list_lookup_insert_eq; by eapply lookup_lt_Some).
  pose proof (fds_add _ _ (put_fd fd0 r x) fd1 w Hh1 H1) as HP2. rewrite list_insert_insert_eq, HP1 in HP2. by rewrite <-HP2.
Qed.

(** What [pipe] leaves.  On failure nothing is open that was not. *)
Definition pipe_post (fdarray v : Z) (s' : sys) : Prop := ∃ qs' l', SYS None s' qs' l' sp ∧
  ((v = -1 ∧ touched p s0 l0 sp (field (kk s0) p) s' l') ∨
   ∃ r w fd0 fd1 pi x, v = 0 ∧ (r ≠ w) ∧ o0 !! fd0 = Some None ∧ <[fd0 := Some r]> o0 !! fd1 = Some None ∧
     touched p s0 l0 sp (set_ofile (<[fd1 := Some w]> (<[fd0 := Some r]> o0)) (field (kk s0) p)) s' l' ∧
     end_of (ft s' !!! r) = Some (pi, false) ∧ end_of (ft s' !!! w) = Some (pi, true) ∧ pipes s' !! pi = Some x ∧ contents x = [] ∧
     word_at (mm s') u fdarray (Z.of_nat fd0) ∧ word_at (mm s') u (fdarray + 4) (Z.of_nat fd1)).

Context (fd0_at fd1_at : nat → Z) (stack : nat → Z) (Hstack : ∀ i, (i < NPROC)%nat → stack i ∈ kernel_pages).
Context (Hfds : ∀ i, stack i ≤ fd0_at i ∧ fd0_at i + 4 ≤ stack i + PGSIZE ∧ stack i ≤ fd1_at i ∧ fd1_at i + 4 ≤ stack i + PGSIZE ∧ (fd0_at i + 4 ≤ fd1_at i ∨ fd1_at i + 4 ≤ fd0_at i)).

Lemma locals pp : kernel_buf (system_pages pp) (fd0_at p) 4 ∧ kernel_buf (system_pages pp) (fd1_at p) 4.
Proof.
  destruct (SYS_running _ _ _ _ _ _ HS0 Hruns) as (Hp & _). destruct (Hfds p) as (A1 & A2 & A3 & A4 & _).
  split; right; exists (stack p); (split; [apply elem_of_app; right; by apply Hstack|lia]).
Qed.

(** The two descriptors are copied out. *)
Lemma pipe_copyouts r w fd0 fd1 s qs l fdarray : let o2 := <[fd1 := Some w]> (<[fd0 := Some r]> o0) in
  midcall o2 (w :: r :: fds0) s qs l → 0 ≤ fdarray < 2 ^ 64 →
  wp (on_mm (on_ram (store32 (fd0_at p) (Z.of_nat fd0)));;
      on_mm (on_ram (store32 (fd1_at p) (Z.of_nat fd1)));;
      pr ← procat p;
      v ← on_mm (copyout (pagetable pr) fdarray (fd0_at p) 4);
      (if v <? 0 then mret v else on_mm (copyout (pagetable pr) (u64 (fdarray + 4)) (fd1_at p) 4)))
    (λ v s', midcall o2 (w :: r :: fds0) s' qs l ∧ pipes s' = pipes s ∧ ft s' = ft s ∧ (v = -1 ∨ v = 0 ∧ word_at (mm s') u fdarray (Z.of_nat fd0) ∧ word_at (mm s') u (fdarray + 4) (Z.of_nat fd1))) s.
Proof.
  intros o2 HM Hva. destruct (Hfds p) as (_ & _ & _ & _ & Hsep).
  apply wp_bind. eapply wp_mono; [|apply (midcall_local _ _ _ _ _ (fd0_at p) (Z.of_nat fd0) HM), locals]. intros [] s1 (HM1 & P1 & F1 & R1).
  apply wp_bind. eapply wp_mono; [|apply (midcall_local _ _ _ _ _ (fd1_at p) (Z.of_nat fd1) HM1), locals]. intros [] s2 (HM2 & P2 & F2 & R2).
  unfold procat. apply wp_bind, wp_gets. pose proof (midcall_proc _ _ _ _ _ HM2) as (_ & _ & -> & _).
  apply wp_bind. eapply wp_mono; [|apply (midcall_copyout _ _ _ _ _ fdarray (fd0_at p) HM2); [apply locals|done]]. intros v s3 (HM3 & P3 & F3 & K3 & _ & Hv).
  destruct Hv as [->|[-> W3]]; [apply wp_ret; split; [done|]; split; [congruence|]; split; [congruence|by left]|]. cbn [Z.ltb Z.compare].
  assert (∀ i, 0 ≤ i < 4 → rd (ram (mm s2)) (fd0_at p + i) = u8 (Z.of_nat fd0 / 256 ^ i)) as L0 by (intros i Hi; rewrite R2, rd_store32, decide_False, R1, rd_store32, decide_True by lia; do 3 f_equal; lia).
  assert (∀ i, 0 ≤ i < 4 → rd (ram (mm s3)) (fd1_at p + i) = u8 (Z.of_nat fd1 / 256 ^ i)) as L1 by (intros i Hi; rewrite K3 by (done || apply locals); rewrite R2, rd_store32, decide_True by lia; do 3 f_equal; lia).
  assert (u64 (fdarray + 4) = fdarray + 4) as E64.
  { destruct (SYS_running _ _ _ _ _ _ HS0 Hruns) as (_ & _ & _ & _ & u' & Hu' & Hok). rewrite Hu in Hu'. injection Hu' as <-. destruct Hok as (_ & _ & _ & En & Hsz & _). destruct (W3 0 ltac:(lia)) as [Hr _].
    assert (TRAPFRAME = 2 ^ 38 - 8192 ∧ MAXVA = 2 ^ 38) as [ET EM] by done. destruct (npg_eq (h_sz (hold_of (getp (kk s0) p)))) as [Enp _]; [lia|]. rewrite En, Enp in Hr. unfold u64. apply Z.mod_small. unfold PGSIZE in *. zdm. }
  assert (0 ≤ fdarray + 4 < 2 ^ 64) as Hva4 by (rewrite <-E64; apply Z.mod_pos_bound; done).
  rewrite E64. eapply wp_mono; [|apply (midcall_copyout _ _ _ _ _ (fdarray + 4) (fd1_at p) HM3); [apply locals|done]]. intros v s4 (HM4 & P4 & F4 & _ & U4 & Hv).
  split; [done|]. split; [congruence|]. split; [congruence|]. destruct Hv as [->|[-> W4]]; [by left|right]. split; [done|]. split.
  - intros i Hi. destruct (W3 i Hi) as [Hr Hb]. split; [done|]. rewrite U4 by (done || lia). by rewrite Hb, L0.
  - intros i Hi. destruct (W4 i Hi) as [Hr Hb]. split; [done|]. by rewrite Hb, L1.
Qed.

Lemma sys_pipe_ok fdarray : 0 ≤ fdarray < 2 ^ 64 → wp (sys_pipe fd0_at fd1_at fdarray) (pipe_post fdarray) s0.
Proof.
  intros Hva. destruct (SYS_running _ _ _ _ _ _ HS0 Hruns) as (Hp & _ & Elo & Hh & _). pose proof (SYS_fds _ _ _ _ _ HS0) as Hb. assert (∀ x, set_ofile (ofile x) x = x) as Eid by (by intros []).
  unfold sys_pipe, with_me. apply wp_bind, wp_gets. rewrite (proj1 Hruns). apply wp_bind. eapply wp_mono; [|apply (pipealloc_ok _ _ _ _ _ _ (sy_ks _ _ _ _ _ HS0)); lia].
  assert (∀ r w s qs l, midcall o0 (w :: r :: fds0) s qs l → wp (fileclose r;; fileclose w;; mret (-1)) (pipe_post fdarray) s) as Habort.
  { intros r w s qs l HM. eapply wp_mono; [|by eapply midcall_abort]. intros v s' (-> & qs' & l' & HS & Ht). exists qs', l'. split; [done|by left]. }
  intros [[r w]|] s1 (qs1 & l1 & Hq & H1).
  2: { apply wp_ret. exists qs1, l1. pose proof (midcall_start _ _ _ Hq _ H1) as HM. split; [eapply midcall_end; [exact HM|]; by rewrite Eid, list_insert_id|].
    left. split; [done|]. pose proof (mc_touched _ _ _ _ _ HM) as Ht. change o0 with (ofile (field (kk s0) p)) in Ht. by rewrite Eid in Ht. }
  destruct H1 as (Hrw & HK1 & pi & x & Er & Ew & Hpi & Hx). pose proof (midcall_start _ _ _ Hq _ HK1) as HM1.
  apply wp_bind. eapply wp_mono; [|apply (midcall_fdalloc _ _ _ _ _ r HM1)]. intros v0 s2 [(-> & -> & _)|(fd0 & -> & H0 & _ & HM2 & M2 & F2 & P2)].
  { apply wp_bind, wp_ret, wp_bind, wp_ret. by eapply Habort. }
  rewrite (proj2 (Z.ltb_ge (Z.of_nat fd0) 0)) by lia. apply wp_bind. eapply wp_mono; [|apply (midcall_fdalloc _ _ _ _ _ w HM2)]. intros v1 s3 [(-> & -> & _)|(fd1 & -> & H1 & _ & HM3 & M3 & F3 & P3)].
  { cbn [orb Z.ltb Z.compare]. rewrite (proj2 (Z.leb_le 0 (Z.of_nat fd0))) by lia. apply wp_bind. eapply wp_mono; [|apply (midcall_clear _ _ _ _ _ (Z.of_nat fd0) HM2)]. intros [] s4 [HM4 _].
    rewrite Nat2Z.id, list_insert_insert_eq, (list_insert_id _ _ _ H0) in HM4. by eapply Habort. }
  rewrite (proj2 (Z.ltb_ge (Z.of_nat fd1) 0)) by lia. cbn [orb].
  pose proof (pipe_copyouts r w fd0 fd1 s3 qs1 l1 fdarray HM3 Hva) as Hw. apply wp_bind_inv in Hw. apply wp_bind. eapply wp_mono; [|exact Hw]. intros [] sa Ha.
  apply wp_bind_inv in Ha. apply wp_bind. eapply wp_mono; [|exact Ha]. intros [] sb Hb'. apply wp_bind_inv in Hb'. apply wp_bind. eapply wp_mono; [|exact Hb']. intros pr sc Hc.
  apply wp_bind_inv in Hc. apply wp_bind. eapply wp_mono; [|exact Hc]. intros v sd Hd. apply wp_bind. eapply wp_mono; [|exact Hd].
  intros v' s4 (HM4 & P4 & F4 & [->|(-> & W0 & W1)]); cbn [Z.ltb Z.compare].
  - apply wp_bind. eapply wp_mono; [|apply (midcall_clear _ _ _ _ _ (Z.of_nat fd0) HM4)]. intros [] s5 [HM5 _]. apply wp_bind. eapply wp_mono; [|apply (midcall_clear _ _ _ _ _ (Z.of_nat fd1) HM5)]. intros [] s6 [HM6 _].
    rewrite !Nat2Z.id in HM6. assert (fd0 ≠ fd1) as Hne by (intros ->; rewrite list_lookup_insert_eq in H1 by (by eapply lookup_lt_Some); done).
    rewrite list_lookup_insert_ne in H1 by done. assert (<[fd1 := None]> (<[fd0 := None]> (<[fd1 := Some w]> (<[fd0 := Some r]> o0))) = o0) as E.
    { by rewrite (list_insert_insert_ne _ fd1 fd0), list_insert_insert_eq, (list_insert_insert_ne _ fd1 fd0), list_insert_insert_eq, (list_insert_id _ _ _ H1), (list_insert_id _ _ _ H0) by done. }
    rewrite E in HM6. by eapply Habort.
  - apply wp_ret. exists qs1, l1. split; [eapply midcall_end; [exact HM4|by apply fds_two]|]. right. exists r, w, fd0, fd1, pi, x. do 4 (split; [done|]). split; [apply HM4|].
    assert (ft s4 = ft s1) as -> by congruence. assert (pipes s4 = pipes s1) as -> by congruence. done.
Qed.
End pipe.
End procfile.
