(* ===== verification/Syscall.v ===== *)
(** * Traps from user space and system calls (kernel/trap.c, kernel/syscall.c, kernel/sysproc.c)

    The way of a trap through the kernel on the state of [Files]: [usertrap]
    saves the program counter, [syscall] takes the number and the arguments from
    the trapframe, calls the handler and stores the result there.  [usertrap] is in
    two parts, before and after [intr_on]. *)

From S2P Require Import Prelude Machine Ring Pipe Proc Runq Sched Mem Kalloc Vm Vmspec Uvm Ucopy Procmem Files Proclife.

Definition TF_KERNEL_SATP : Z := 0.
Definition TF_KERNEL_SP : Z := 8.
Definition TF_KERNEL_TRAP : Z := 16.
Definition TF_KERNEL_HARTID : Z := 32.
Definition TF_A7 : Z := 168.

(** kernel/syscall.h. *)
Definition SYS_fork : Z := 1.
Definition SYS_exit : Z := 2.
Definition SYS_wait : Z := 3.
Definition SYS_pipe : Z := 4.
Definition SYS_kill : Z := 6.
Definition SYS_dup : Z := 10.
Definition SYS_getpid : Z := 11.
Definition SYS_sbrk : Z := 12.
Definition SYS_uptime : Z := 14.
Definition SYS_close : Z := 21.
Definition SYS_pgpte : Z := 33.
Definition SYS_rw_wunlock : Z := 42.

(** Numbers without an entry in [syscalls]. *)
Definition no_entry (num : Z) : bool := (22 <=? num) && (num <=? 32).

(** Numbers of handlers that are modelled elsewhere, or not at all. *)
Definition elsewhere (num : Z) : bool :=
  negb (existsb (Z.eqb num) [SYS_fork; SYS_exit; SYS_wait; SYS_pipe; SYS_kill; SYS_dup; SYS_getpid; SYS_sbrk; SYS_uptime; SYS_close; SYS_pgpte]).

(** What brings a process into the kernel: a system call, a device whose handler
    wakes up some channels, the timer, or a fault. *)
Inductive cause := TSyscall | TDevice (chs : list channel) | TTimer | TFault.

(** Where the process continues: in user space, or, when it has the CPU again, in
    [usertrap] after [yield], in the loop of [wait], or never. *)
Inductive next := NUser | NYield | NWait (addr : Z) | NGone.

Section syscall.
Context `{LY : Layout} {L : Type} `{!InodeOps L}.
#[local] Notation sys := (@Files.sys L).
Context (forkret : Z) (xstate_at fd0_at fd1_at : nat → Z).
(** The handlers that are not in this file. *)
Context (other : Z → M sys (Z + next)).

(** ** Arguments *)

Definition argraw (n : Z) : M sys Z :=
  with_me (λ p,
    pr ← procat p;
    if (0 <=? n) && (n <=? 5) then gets (λ s, load64 (ram (mm s)) (trapframe pr + TF_A0 + 8 * n)) else panic "argraw").

Definition argint (n : Z) : M sys Z := v ← argraw n; mret (s32 v).
Definition argaddr (n : Z) : M sys Z := argraw n.

(** ** Handlers

    A handler returns a value, or the CPU is with another process. *)

Definition sys_exit : M sys (Z + next) :=
  n ← argint 0;
  exit n;;
  on_kk schedule;;
  mret (inr NGone).

(** [wait] up to a return or to the [swtch] of its [sleep]. *)
Definition wait_from (addr : Z) : M sys (Z + next) :=
  r ← wait xstate_at addr;
  match r with
  | Some v => mret (inl v)
  | None => on_kk schedule;; mret (inr (NWait addr))
  end.

Definition sys_wait : M sys (Z + next) := p ← argaddr 0; wait_from p.

Definition sys_kill : M sys Z :=
  id ← argint 0;
  k ← gets kk;
  let '(r, k') := kill id k in
  on_kk (modify (λ _, k'));;
  mret r.

Definition sys_getpid : M sys Z := with_me (λ p, pr ← procat p; mret (pid pr)).

Definition sys_uptime : M sys Z := gets (λ s, ticks (glob (kk s))).

(** [sys_pgpte], whose result is an [int]. *)
Definition sys_pgpte : M sys Z :=
  with_me (λ p,
    va ← argaddr 0;
    pr ← procat p;
    pte ← on_mm (pgpte (pagetable pr) va);
    if pte =? 0 then mret 0
    else v ← gets (λ s, load64 (ram (mm s)) pte); mret (s32 v)).

Definition returns (m : M sys Z) : M sys (Z + next) := v ← m; mret (inl v).

(** The table [syscalls]. *)
Definition handler (num : Z) : M sys (Z + next) :=
  if num =? SYS_fork then returns (fork forkret)
  else if num =? SYS_exit then sys_exit
  else if num =? SYS_wait then sys_wait
  else if num =? SYS_pipe then returns (a ← argaddr 0; sys_pipe fd0_at fd1_at a)
  else if num =? SYS_kill then returns sys_kill
  else if num =? SYS_dup then returns (a ← argint 0; sys_dup a)
  else if num =? SYS_getpid then returns sys_getpid
  else if num =? SYS_sbrk then returns (a ← argint 0; sys_sbrk a)
  else if num =? SYS_uptime then returns sys_uptime
  else if num =? SYS_close then returns (a ← argint 0; sys_close a)
  else if num =? SYS_pgpte then returns sys_pgpte
  else other num.

(** [p->trapframe] at an offset. *)
Definition set_tf (p : nat) (off v : Z) : M sys unit :=
  pr ← procat p;
  on_mm (on_ram (store64 (trapframe pr + off) v)).
Definition get_tf (p : nat) (off : Z) : M sys Z :=
  pr ← procat p;
  gets (λ s, load64 (ram (mm s)) (trapframe pr + off)).

(** [p->trapframe->a0 = ...] in [syscall]. *)
Definition put_result (p : nat) (r : Z + next) : M sys next :=
  match r with
  | inl v => set_tf p TF_A0 (u64 v);; mret NUser
  | inr n => mret n
  end.

Definition syscall : M sys next :=
  with_me (λ p,
    a7 ← get_tf p TF_A7;
    let num := s32 a7 in
    if (0 <? num) && (num <=? SYS_rw_wunlock) && negb (no_entry num) then r ← handler num; put_result p r
    else put_result p (inl (-1))).

(** [exit(-1)] of a killed process. *)
Definition exit_killed : M sys next := exit (-1);; on_kk schedule;; mret NGone.

(** [usertrap] from the second test of [killed] to [usertrapret]. *)
Definition usertrap_end (timer : bool) (p : nat) (n : next) : M sys next :=
  match n with
  | NUser =>
      k ← gets (λ s, killed p (kk s));
      if negb (k =? 0) then exit_killed
      else if timer then
        b ← on_kk usertrap_timer;
        if b : bool then on_kk yield_enter;; on_kk schedule;; mret NYield else mret NUser
      else mret NUser
  | _ => mret n
  end.

(** [intr_on] and [intr_off] on the CPU of the process. *)
Definition set_intr (b : bool) : M sys unit := on_kk (modify (λ k, set_cpu (set_sie b (mycpu k)) k)).

(** A system call up to [intr_on]; [None] if the process goes on in [syscall]. *)
Definition syscall_enter (p : nat) : M sys (option next) :=
  k ← gets (λ s, killed p (kk s));
  if negb (k =? 0) then n ← exit_killed; mret (Some n) else
  epc ← get_tf p TF_EPC;
  set_tf p TF_EPC (u64 (epc + 4));;
  mret None.

(** From [intr_on] on the process can be interrupted. *)
Definition syscall_on : M sys next := set_intr true;; syscall.

(** The branch of [usertrap] for the cause, as long as interrupts are off. *)
Definition trap_cause (c : cause) (p : nat) : M sys (option next) :=
  match c with
  | TSyscall => syscall_enter p
  | TDevice chs => on_kk (modify (λ k, foldr wakeup k chs));; n ← usertrap_end false p NUser; mret (Some n)
  | TTimer => on_kk (modify clockintr);; n ← usertrap_end true p NUser; mret (Some n)
  | TFault => on_kk (modify (setkilled p));; n ← usertrap_end false p NUser; mret (Some n)
  end.

Definition usertrap_enter (c : cause) (sepc : Z) (p : nat) : M sys (option next) :=
  set_tf p TF_EPC sepc;;
  trap_cause c p.

(** [usertrap] up to [usertrapret]. *)
Definition usertrap (c : cause) (sepc : Z) : M sys next :=
  with_me (λ p,
    r ← usertrap_enter c sepc p;
    match r with
    | Some n => mret n
    | None => n ← syscall_on; usertrap_end false p n
    end).

(** A process that slept in [wait] has the CPU again: [schedule] and [sleep] end,
    [wait] scans the table again, and [syscall] stores the result. *)
Definition resume_wait (addr : Z) : M sys next :=
  with_me (λ p,
    on_kk (modify (schedule_return true));;
    on_kk sleep_exit;;
    r ← wait_from addr;
    put_result p r).

(** The timer interrupt of [kerneltrap]. *)
Definition kerneltrap_timer : M sys unit :=
  b ← on_kk timer_tick;
  if b : bool then on_kk yield_enter;; on_kk schedule;; mret tt else mret tt.

(** [usertrapret]: the values [uservec] will need; the result is what the [sret]
    uses, the program counter and the page table. *)
Definition usertrapret (kernel_satp usertrap_addr hartid : Z) : M sys (Z * Z) :=
  with_me (λ p,
    set_intr false;;
    pr ← procat p;
    set_tf p TF_KERNEL_SATP kernel_satp;;
    set_tf p TF_KERNEL_SP (u64 (kstack pr + PGSIZE));;
    set_tf p TF_KERNEL_TRAP usertrap_addr;;
    set_tf p TF_KERNEL_HARTID hartid;;
    epc ← get_tf p TF_EPC;
    mret (epc, MAKE_SATP (pagetable pr))).
End syscall.
