(* ===== verification/Trapspec.v ===== *)
(** * What a trap does to the system (kernel/trap.c, kernel/syscall.c)

    A trap of a process that runs, system calls included, panics in the cases of
    [trap_panics]; else it ends, keeps the invariant [SYS] of [Procspec], and leaves
    the memory, the registers and the files of the other processes alone. *)

From S2P Require Import Prelude Machine Ring Pipe Proc Runq Sched Mem Kalloc Vm Vmspec Uvm Ucopy Procmem Files Proclife Procspec Procfork Procwait Procfile Syscall.

#[local] Opaque wakeup reparent prio_enqueue.

Section trapspec.
Context `{LY : Layout} {L : Type} `{!InodeOps L, !InodeLaws L}.
#[local] Notation sys := (@Files.sys L).
Context (forkret : Z) (xstate_at fd0_at fd1_at : nat → Z) (other : Z → M sys (Z + next)).
Context (Hxst : ∀ i, KERNBASE ≤ xstate_at i ∧ xstate_at i + 4 ≤ kend).
Context (stack : nat → Z) (Hstack : ∀ i, (i < NPROC)%nat → stack i ∈ kernel_pages).
Context (Hfds : ∀ i, stack i ≤ fd0_at i ∧ fd0_at i + 4 ≤ stack i + PGSIZE ∧ stack i ≤ fd1_at i ∧ fd1_at i + 4 ≤ stack i + PGSIZE ∧ (fd0_at i + 4 ≤ fd1_at i ∨ fd1_at i + 4 ≤ fd0_at i)).

(** ** What a step of [p] leaves alone *)

(** The process [init] is there and not killed. *)
Definition init_ok (s : sys) : Prop := ∃ i, initproc (glob (kk s)) = Some i ∧ (i < NPROC)%nat ∧ life_of (state (getp (kk s) i)) = Live ∧ killed i (kk s) = 0.

Record tr (p : nat) (s : sys) (l : list Z) (sp : list (option uspace)) (s' : sys) (l' : list Z) (sp' : list (option uspace)) : Prop := {
  tr_pages : all_pages s' l' sp' ≡ₚ all_pages s l sp;
  tr_initproc : initproc (glob (kk s')) = initproc (glob (kk s));
  tr_init : init_ok s → init_ok s';
  tr_others : ∀ i v, i ≠ p → sp !! i = Some (Some v) → life_of (state (getp (kk s) i)) = Live →
    sp' !! i = Some (Some v) ∧ kept (mm s) v (mm s') ∧ hold_of (getp (kk s') i) = hold_of (getp (kk s) i)
}.

Lemma tr_refl p s l sp : tr p s l sp s l sp.
Proof. by split. Qed.

Lemma hold_life x y : hold_of x = hold_of y → life_of (state x) = life_of (state y).
Proof. apply (f_equal h_life). Qed.

Lemma tr_trans p s1 l1 sp1 s2 l2 sp2 s3 l3 sp3 : tr p s1 l1 sp1 s2 l2 sp2 → tr p s2 l2 sp2 s3 l3 sp3 → tr p s1 l1 sp1 s3 l3 sp3.
Proof.
  intros [A1 A3 A4 A5] [B1 B3 B4 B5]. split; [by rewrite B1|congruence|auto|].
  intros i v Hne Hv Hl. destruct (A5 i v Hne Hv Hl) as (Hv2 & K2 & E2). destruct (B5 i v Hne Hv2) as (Hv3 & K3 & E3); [by rewrite (hold_life _ _ E2)|].
  split; [done|]. split; [by eapply kept_trans|congruence].
Qed.

Lemma init_keep (s s' : sys) : initproc (glob (kk s')) = initproc (glob (kk s)) →
  (∀ i, initproc (glob (kk s)) = Some i → (i < NPROC)%nat → life_of (state (getp (kk s) i)) = Live → life_of (state (getp (kk s') i)) = Live ∧ killed i (kk s') = killed i (kk s)) → init_ok s → init_ok s'.
Proof. intros E H (i & Hi & Hlt & Hl & Hk). destruct (H i Hi Hlt Hl) as [Hl' Hk']. exists i. rewrite E. split; [done|]. split; [done|]. split; [done|]. congruence. Qed.

Lemma kview_keep x y : kview x = kview y → life_of (state y) = Live → life_of (state x) = Live ∧ killed_flag x = killed_flag y.
Proof. intros E Hl. split; [|exact (f_equal snd E)]. rewrite <-Hl. exact (f_equal (λ v, h_life v.1) E). Qed.

(** ** Where a trap leaves the system *)

(** The process with the CPU is not queued. *)
Definition settled (s : sys) (qs : list (list nat)) : Prop := ∃ n, has_cpu s n ∧ n ∉ concat qs.

(** [p] still runs, or another process has the CPU. *)
Definition stays (p : nat) (s : sys) (l : list Z) (sp : list (option uspace)) (s' : sys) : Prop :=
  ∃ qs' l' sp', SYS None s' qs' l' sp' ∧ tr p s l sp s' l' sp' ∧ runs s' p.
Definition leaves (p : nat) (s : sys) (l : list Z) (sp : list (option uspace)) (s' : sys) : Prop :=
  ∃ qs' l' sp', SYS None s' qs' l' sp' ∧ tr p s l sp s' l' sp' ∧ settled s' qs'.

Definition comes_to (p : nat) (s : sys) (l : list Z) (sp : list (option uspace)) (n : next) (s' : sys) : Prop :=
  match n with NUser => stays p s l sp s' | NWait addr => 0 ≤ addr < 2 ^ 64 ∧ leaves p s l sp s' | _ => leaves p s l sp s' end.

Lemma runs_settled s qs l sp p : SYS None s qs l sp → runs s p → settled s qs.
Proof.
  intros HS Hr. exists p. split; [by left|]. pose proof (ks_sched _ _ _ _ _ _ _ (sy_ks _ _ _ _ _ HS)) as HI. destruct (runs_lt _ _ _ HI Hr) as [Hp _].
  apply (cur_not_queued _ _ _ HI Hp). rewrite (proj2 Hr). done.
Qed.

(** ** The trapframe *)

Lemma set_tf_ok s qs l sp p off v : SYS None s qs l sp → runs s p → 0 ≤ off → off + 8 ≤ PGSIZE → 0 ≤ v < 2 ^ 64 →
  wp (set_tf p off v) (λ _ s', SYS None s' qs l sp ∧ tr p s l sp s' l sp ∧ runs s' p ∧ kk s' = kk s ∧ ft s' = ft s ∧ pipes s' = pipes s ∧
    (∀ u, sp !! p = Some (Some u) → same_user (mm s) (us_t u) (mm s') (us_t u) (us_n u)) ∧
    ram (mm s') = store64 (trapframe (getp (kk s) p) + off) v (ram (mm s))) s.
Proof.
  intros HS Hr H0 H8 Hv. destruct (SYS_running _ _ _ _ _ _ HS Hr) as (Hp & El & _ & Hh & u & Hu & Hok). destruct Hok as (_ & _ & Etf & _). cbn in Etf.
  pose proof (ks_own _ _ _ _ _ _ _ (sy_ks _ _ _ _ _ HS)) as HO. destruct (omap_id_split sp p (Some u) Hu) as (us1 & us2 & Esp & _ & Hoth). cbn [option_list] in Esp. rewrite Esp in HO.
  unfold set_tf, procat, on_mm, on_ram. apply wp_bind, wp_gets, wp_zoom, wp_modify. rewrite Etf. set (m1 := store64 (us_tf u + off) v (ram (mm s))).
  destruct (OWN_write_tf _ _ _ _ _ _ m1 HO) as [Hch Hsu]; [apply only_pages_in; intros a Ha; apply rd_store64_ne; lia|apply bytes_ok_store64, (ow_bytes _ _ _ _ HO)|].
  split; [apply (SYS_mm _ _ _ _ _ _ _ HS); rewrite Esp; apply Hch|]. split; [|split; [done|do 3 (split; [done|]); split; [intros u' Hu'; assert (u' = u) as -> by congruence; exact Hsu|done]]].
  split; try done.
  - unfold all_pages. rewrite Esp. cbn [mm pipes set_mm]. apply Hch.
  - intros i w Hne Hw _. split; [done|]. split; [|done]. apply Hch. by apply (Hoth i).
Qed.

(** ** Steps of the scheduler *)

(** A step on the process table that keeps what the processes hold. *)
Record same_view (k k' : kst) : Prop := {
  sv_view : kview <$> procs k' = kview <$> procs k;
  sv_init : initproc (glob k') = initproc (glob k)
}.

#[local] Instance same_view_trans : Transitive same_view.
Proof. intros k1 k2 k3 [A1 A2] [B1 B2]. split; congruence. Qed.

Lemma same_view_holds k k' : same_view k k' → holds k' = holds k.
Proof. intros [E _]. assert (∀ k, holds k = fst <$> (kview <$> procs k)) as Eh by (intros ?; by rewrite <-list_fmap_compose). by rewrite !Eh, E. Qed.

Lemma same_view_fields k k' : length (procs k) = NPROC → length (procs k') = NPROC → initproc (glob k') = initproc (glob k) →
  (∀ i, (i < NPROC)%nat → kview (field k' i) = kview (field k i)) → same_view k k'.
Proof.
  intros Hl Hl' Hg Hf. split; [|done]. apply list_eq. intros i. rewrite !list_lookup_fmap. destruct (decide (i < NPROC)%nat) as [Hi|Hi].
  - destruct (lookup_lt_is_Some_2 (procs k) i) as [x Hx]; [lia|]. destruct (lookup_lt_is_Some_2 (procs k') i) as [x' Hx']; [lia|].
    specialize (Hf i Hi). unfold field, getp in Hf. rewrite (lookup_total_Some _ _ _ Hx), (lookup_total_Some _ _ _ Hx') in Hf. rewrite Hx, Hx'. cbn. by f_equal.
  - rewrite !lookup_ge_None_2 by lia. done.
Qed.

Lemma holds_tr p s l sp k' : length (procs (kk s)) = NPROC → length sp = NPROC → holds k' = holds (kk s) →
  initproc (glob k') = initproc (glob (kk s)) → (init_ok s → init_ok (set_kk k' s)) → tr p s l sp (set_kk k' s) l sp.
Proof.
  intros El Esp Hh Hg Hin. split; [done..|]. intros i v _ Hw _. split; [done|]. split; [apply kept_refl|]. apply lookup_lt_Some in Hw. apply (view_at hold_of); [exact Hh|lia].
Qed.

Lemma holds_SYS s qs l sp k' qs' : SYS None s qs l sp → SInv k' qs' → holds k' = holds (kk s) → idleproc (mycpu k') = idleproc (mycpu (kk s)) → SYS None (set_kk k' s) qs' l sp.
Proof.
  intros HS HI Hh Hid. destruct (SYS_length _ _ _ _ _ HS) as (_ & El & _). apply SYS_sched with (1 := HS); [done|done|]. intros i Hi. apply (view_at hold_of); [exact Hh|lia].
Qed.

(** The process on the CPU keeps it. *)
Lemma holds_stays p s qs l sp k' qs' : SYS None s qs l sp → runs s p → keeps (kk s) qs k' qs' → holds k' = holds (kk s) →
  initproc (glob k') = initproc (glob (kk s)) → (init_ok s → init_ok (set_kk k' s)) → stays p s l sp (set_kk k' s).
Proof.
  intros HS Hr (HI' & He & _ & Hm & Hid) Hh Hg Hin. destruct (SYS_length _ _ _ _ _ HS) as (_ & El & Esp). destruct (SYS_running _ _ _ _ _ _ HS Hr) as (Hp & _).
  exists qs', l, sp. split; [by eapply holds_SYS|]. split; [by apply holds_tr|]. split; [by rewrite <-(proj1 Hr)|]. cbn [kk set_kk]. destruct (He p Hp) as [->|(Hne & _)]; [apply Hr|]. by destruct Hr.
Qed.

Lemma same_view_init (s : sys) k' : length (procs (kk s)) = NPROC → same_view (kk s) k' → init_ok s → init_ok (set_kk k' s).
Proof. intros El [Hv Hg]. apply init_keep; [done|]. intros i _ Hi. apply kview_keep. apply (view_at kview); [done|lia]. Qed.

Lemma same_view_tr p s l sp k' : length (procs (kk s)) = NPROC → length sp = NPROC → same_view (kk s) k' → tr p s l sp (set_kk k' s) l sp.
Proof. intros El Esp Hv. apply holds_tr; [done|done|by apply same_view_holds|apply Hv|by apply same_view_init]. Qed.

Lemma same_view_SYS s qs l sp k' qs' : SYS None s qs l sp → SInv k' qs' → same_view (kk s) k' → idleproc (mycpu k') = idleproc (mycpu (kk s)) → SYS None (set_kk k' s) qs' l sp.
Proof. intros HS HI Hv. eapply holds_SYS; [exact HS|done|by apply same_view_holds]. Qed.

Lemma keeps_stays p s qs l sp k' qs' : SYS None s qs l sp → runs s p → keeps (kk s) qs k' qs' → same_view (kk s) k' → stays p s l sp (set_kk k' s).
Proof.
  intros HS Hr Hk Hv. destruct (SYS_length _ _ _ _ _ HS) as (_ & El & _). eapply holds_stays; [exact HS|done|exact Hk|by apply same_view_holds|apply Hv|by apply same_view_init].
Qed.

Lemma schedule_leaves p s qs l sp : SYS None s qs l sp → (∀ i, (i < NPROC)%nat → state (getp (kk s) i) ≠ RUNNING) →
  wp (on_kk schedule) (λ _ s', leaves p s l sp s') s.
Proof.
  intros HS Hnr. pose proof (ks_sched _ _ _ _ _ _ _ (sy_ks _ _ _ _ _ HS)) as HI. destruct (SYS_length _ _ _ _ _ HS) as (_ & El & Esp).
  eapply wp_mono; [|by apply (schedule_sys None s qs l sp)]. intros r s' (n & qs' & HS' & Hcpu & Hn & Hlt & Hst & _ & Epp & Emm & _ & Eg & Eid & Hf).
  exists qs', l, sp. split; [done|]. split; [|by exists n]. destruct (SYS_length _ _ _ _ _ HS') as (_ & El' & _).
  assert (∀ i, (i < NPROC)%nat → kview (getp (kk s') i) = kview (getp (kk s) i)) as Hk.
  { intros i Hi. change (kview (field (kk s') i) = kview (field (kk s) i)). rewrite Hf by done. case_decide as Hd; [subst i|done].
    unfold run_proc. case_decide as Hidle; [done|]. unfold kview, hold_of. cbn. by rewrite Hst. }
  split; [|by rewrite Eg| |].
  - unfold all_pages. by rewrite Emm, Epp.
  - apply init_keep; [by rewrite Eg|]. intros i _ Hi. apply kview_keep. by apply Hk.
  - intros i v _ Hv _. split; [done|]. rewrite Emm. split; [apply kept_refl|]. apply lookup_lt_Some in Hv. exact (f_equal fst (Hk i ltac:(lia))).
Qed.

Lemma wakeup_view ch k : same_view k (wakeup ch k).
Proof. split; [apply wakeup_kview|by rewrite glob_wakeup]. Qed.

Lemma wakeups_ok chs k qs : SInv k qs → same_view k (foldr wakeup k chs) ∧ ∃ qs', keeps k qs (foldr wakeup k chs) qs'.
Proof.
  intros HI. induction chs as [|ch chs (Hv & qs1 & Hk)]; [split; [done|exists qs; by apply keeps_refl]|]. cbn [foldr]. split; [etrans; [exact Hv|apply wakeup_view]|].
  destruct (wakeup_keeps ch _ qs1 (proj1 Hk)) as (qs2 & Hk2). exists qs2. by eapply keeps_trans.
Qed.

Lemma clockintr_view k : same_view k (clockintr k).
Proof. unfold clockintr. etrans; [|apply wakeup_view]. done. Qed.

Lemma kview_aged x : kview (aged x) = kview x.
Proof. unfold aged. by destruct (promoted x). Qed.

Lemma on_tick_ok k qs : SInv k qs → wp prio_on_tick (λ _ k', keeps k qs k' (tick_queues k qs) ∧ same_view k k') k.
Proof.
  intros HI. pose proof (Repr_procs _ _ (si_repr _ _ HI)) as El. eapply wp_mono; [|apply wp_and; [by apply on_tick_keeps|apply (prio_on_tick_repr k qs); apply HI]].
  intros [] k' [Hk (HR & Hf & _ & Hg)]. split; [done|]. apply same_view_fields; [done|by apply (Repr_procs _ _ HR)|by rewrite Hg|]. intros i Hi. rewrite Hf by done. case_decide; [apply kview_aged|done].
Qed.

Lemma timer_tick_view k qs c : SInv k qs → myproc k = Some c → wp timer_tick (λ _ k', (∃ qs', keeps k qs k' qs') ∧ same_view k k') k.
Proof.
  intros HI Hm. destruct (clockintr_keeps k qs HI) as (qs1 & Hk1). unfold timer_tick. wp_step. wp_step. apply wp_bind. eapply wp_mono; [|apply (on_tick_ok _ qs1), Hk1].
  intros [] k2 [Hk2 Hv2]. pose proof (keeps_trans _ _ _ _ _ _ Hk1 Hk2) as Hk. assert (same_view k k2) as Hv by (etrans; [apply clockintr_view|exact Hv2]).
  wp_steps. pose proof Hk as (_ & _ & _ & Hm2 & _). rewrite Hm2, Hm. wp_steps. split; [by eexists|done].
Qed.

Lemma usertrap_timer_view k qs c : SInv k qs → myproc k = Some c → wp usertrap_timer (λ _ k', (∃ qs', keeps k qs k' qs') ∧ same_view k k') k.
Proof.
  intros HI Hm. unfold usertrap_timer. apply wp_bind. eapply wp_mono; [|by apply (on_tick_ok k qs)]. intros [] k2 [Hk Hv].
  apply wp_bind, wp_gets. pose proof Hk as (HI2 & _ & _ & Hm2 & _). rewrite Hm2, Hm. apply wp_bind, wp_gets. case_decide; [|apply wp_ret; by eauto].
  apply wp_bind, wp_gets. destruct (preempt_pending (mycpu k2)); [|apply wp_gets; by eauto]. apply wp_bind, wp_modify, wp_ret. split; [|by destruct Hv; split].
  eexists. eapply keeps_trans; [exact Hk|by apply preempt_pending_keeps].
Qed.

(** [yield], then another process runs: for a process that runs and for the idle
    process. *)
Lemma yield_leaves p s qs l sp n : SYS None s qs l sp → has_cpu s n → n ∉ concat qs → wp (on_kk yield_enter;; on_kk schedule) (λ _ s', leaves p s l sp s') s.
Proof.
  intros HS Hcpu Hn. pose proof (ks_sched _ _ _ _ _ _ _ (sy_ks _ _ _ _ _ HS)) as HI. destruct (SYS_length _ _ _ _ _ HS) as (_ & El & Esp).
  assert (myproc (kk s) = Some n) as Hm by (by destruct Hcpu as [[? _]|[? _]]). assert (n < NPROC)%nat as Hlt by (destruct (si_cur _ _ HI) as (c & Hc & ?); congruence).
  assert (life_of (state (getp (kk s) n)) = Live) as Hlive. { destruct Hcpu as [[_ ->]|[_ E]]; [done|]. destruct (si_idle _ _ HI) as (i & Hi & _ & Hst). assert (i = n) as -> by congruence. by rewrite Hst. }
  apply wp_bind. unfold on_kk at 1. apply wp_zoom. eapply wp_mono; [|by apply (yield_enter_ok (kk s) qs n)]. intros [] k1 (qs1 & HI1 & _ & Hc & Hg & Hf).
  destruct (same_cpu_proj _ _ Hc) as (Hm1 & Hid1 & _). assert (same_view (kk s) k1) as Hv.
  { apply same_view_fields; [done|by apply (Repr_procs _ _ (si_repr _ _ HI1))|by rewrite Hg|]. intros i Hi. rewrite Hf by done. case_decide; [subst i|done]. apply roused_kview. by right. }
  assert (SYS None (set_kk k1 s) qs1 l sp) as HS1 by (by eapply same_view_SYS).
  eapply wp_mono; [|apply (schedule_leaves p _ qs1 l sp HS1)].
  - intros r s' (qs' & l' & sp' & HS' & Ht & Hset). exists qs', l', sp'. split; [done|]. split; [|done]. eapply tr_trans; [|exact Ht]. by apply same_view_tr.
  - intros i Hi Hrun. cbn [kk set_kk] in Hrun. pose proof (si_running _ _ HI1 i Hi Hrun) as Hmi. unfold myproc in Hmi, Hm. rewrite Hm1, Hm in Hmi. injection Hmi as <-. rewrite state_field, Hf, decide_True in Hrun by done. done.
Qed.

(** ** Killing *)

Lemma kill_from_view id ps k : let k' := (kill_from id ps k).2 in holds k' = holds k ∧ glob k' = glob k ∧
  ∀ i, (i < length (procs k))%nat → pid (getp k i) ≠ id → killed_flag (getp k' i) = killed_flag (getp k i).
Proof.
  induction ps as [|q ps IH]; [done|]. cbn [kill_from]. destruct (Z.eqb_spec (pid (getp k q)) id) as [E|_]; [|exact IH]. cbn [snd].
  set (k1 := updp q (set_killed 1) k). assert (holds k1 = holds k) as Eh by (by apply holds_updp).
  assert (∀ i, pid (getp k i) ≠ id → getp k1 i = getp k i) as Ho by (intros i Hi; apply getp_updp_ne; congruence).
  case_decide as Hst; [|split; [done|split; [done|intros i _ Hi; by rewrite Ho]]]. split; [|split].
  - rewrite prio_enqueue_holds, holds_updp by done. rewrite holds_updp; [done|]. unfold hold_of. cbn. by rewrite Hst.
  - by rewrite glob_enqueue.
  - intros i Hi Hp. rewrite <-(Ho i Hp). apply (view_at killed_flag); [|unfold k1; by rewrite length_updp]. rewrite view_enqueue by done. rewrite view_updp by done. by apply view_updp.
Qed.

Lemma kill_stays p s qs l sp id : SYS None s qs l sp → runs s p → (∀ i, initproc (glob (kk s)) = Some i → pid (getp (kk s) i) ≠ id) → stays p s l sp (set_kk (kill id (kk s)).2 s).
Proof.
  intros HS Hr Hin. destruct (SYS_length _ _ _ _ _ HS) as (_ & El & _). pose proof (ks_sched _ _ _ _ _ _ _ (sy_ks _ _ _ _ _ HS)) as HI.
  destruct (kill_keeps id (kk s) qs HI) as (qs' & Hk); [intros c Hc; destruct Hr as [Hm Hst]; assert (c = p) as -> by congruence; by rewrite Hst|].
  destruct (kill_from_view id (seq 0 NPROC) (kk s)) as (Hh & Hg & Hkf). fold (kill id (kk s)) in Hh, Hg, Hkf.
  eapply holds_stays; [exact HS|done|exact Hk|done|by rewrite Hg|]. apply init_keep; [cbn [kk set_kk]; by rewrite Hg|]. intros i Hi Hlt Hl. cbn [kk set_kk].
  split; [|apply Hkf; [lia|by apply Hin]]. rewrite <-Hl. apply hold_life, (view_at hold_of); [exact Hh|lia].
Qed.

Lemma setkilled_stays p s qs l sp : SYS None s qs l sp → runs s p → initproc (glob (kk s)) ≠ Some p → stays p s l sp (set_kk (setkilled p (kk s)) s).
Proof.
  intros HS Hr Hin. destruct (SYS_running _ _ _ _ _ _ HS Hr) as (Hp & El & _). pose proof (ks_sched _ _ _ _ _ _ _ (sy_ks _ _ _ _ _ HS)) as HI.
  eapply (holds_stays p s qs l sp _ qs); [done|done|by apply updp_keeps|by apply holds_updp|done|]. apply init_keep; [done|]. intros i Hi Hlt Hl. cbn [kk set_kk]. unfold killed, setkilled.
  by rewrite getp_updp_ne by congruence.
Qed.

(** ** System calls *)

(** The number and the first argument of the system call of [p]. *)
Definition call_num (s : sys) (p : nat) : Z := s32 (load64 (ram (mm s)) (trapframe (getp (kk s) p) + TF_A7)).
Definition call_arg (s : sys) (p : nat) : Z := load64 (ram (mm s)) (trapframe (getp (kk s) p) + TF_A0).

Definition in_table (num : Z) : bool := (0 <? num) && (num <=? SYS_rw_wunlock) && negb (no_entry num).

(** The call is one of this development, it does not make [init] exit, and a call
    of [pgpte] is about an address below [MAXVA]. *)
Record harmless (s : sys) (p : nat) (num : Z) : Prop := {
  hm_known : in_table num = true → elsewhere num = false;
  hm_exit : num = SYS_exit → initproc (glob (kk s)) ≠ Some p;
  hm_kill : num = SYS_kill → ∀ i, initproc (glob (kk s)) = Some i → pid (getp (kk s) i) ≠ s32 (call_arg s p);
  hm_pgpte : num = SYS_pgpte → call_arg s p < MAXVA
}.

Lemma argraw_ok (s : sys) p (Q : Z → sys → Prop) : runs s p → Q (call_arg s p) s → wp (argraw 0) Q s.
Proof. intros [Hm _] HQ. unfold argraw, with_me, procat. apply wp_bind, wp_gets. rewrite Hm. apply wp_bind, wp_gets. cbn [Z.leb Z.compare andb]. apply wp_gets. change (8 * 0) with 0. rewrite Z.add_0_r. exact HQ. Qed.

Lemma call_arg_range s qs l sp p : SYS None s qs l sp → 0 ≤ call_arg s p < 2 ^ 64.
Proof. intros HS. apply load64_range, (ow_bytes _ _ _ _ (ks_own _ _ _ _ _ _ _ (sy_ks _ _ _ _ _ HS))). Qed.

(** The live processes of a system have an address space. *)
Lemma live_space nw s qs l sp i : SYS nw s qs l sp → (i < NPROC)%nat → life_of (state (getp (kk s) i)) = Live → ∃ v, sp !! i = Some (Some v).
Proof. intros HS Hi Hl. destruct (Live_slot _ _ _ _ _ i HS Hi) as (v & Hv & _); [intros E; by rewrite E in Hl|by exists v]. Qed.

Lemma stays_refl p s qs l sp : SYS None s qs l sp → runs s p → stays p s l sp s.
Proof. intros HS Hr. exists qs, l, sp. split; [done|]. split; [apply tr_refl|done]. Qed.

Lemma touched_stays p s qs l sp x s' qs' l' : SYS None s qs l sp → runs s p → touched p s l sp x s' l' → SYS None s' qs' l' sp → state x = RUNNING → killed_flag x = killed p (kk s) → stays p s l sp s'.
Proof.
  intros HS Hr [T1 T2 T3 T4 T5 T6 T7] HS' Hx Hk. destruct (SYS_length _ _ _ _ _ HS) as (_ & El & Esp). exists qs', l', sp. split; [done|].
  assert (∀ i, (i < NPROC)%nat → i ≠ p → kview (getp (kk s') i) = kview (getp (kk s) i)) as Hv by (intros i Hi Hne; exact (roused_kview _ _ (T5 i Hi Hne))).
  assert (state (getp (kk s') p) = RUNNING) as Hst by (by rewrite state_field, T4).
  split; [|split; [by rewrite T1, (proj1 Hr)|done]]. split; [done|by rewrite T3| |].
  - apply init_keep; [by rewrite T3|]. intros i _ Hi Hl. destruct (decide (i = p)) as [->|Hne]; [|by apply kview_keep; [apply Hv|]].
    rewrite Hst. split; [done|]. rewrite <-Hk. change (killed_flag (field (kk s') p) = killed_flag x). by rewrite T4.
  - intros i v Hne Hw _. split; [done|]. split; [by eapply T6|]. apply lookup_lt_Some in Hw. exact (f_equal fst (Hv i ltac:(lia) Hne)).
Qed.

Lemma fork_stays p s qs l sp : SYS None s qs l sp → runs s p → wp (fork forkret) (λ _ s', stays p s l sp s') s.
Proof.
  intros HS Hr. eapply wp_mono; [|by apply fork_ok]. intros r s' (qs' & l' & sp' & HS' & Hpg & (Hr' & Hin) & Hlive & _). exists qs', l', sp'. split; [done|]. split; [|done].
  assert (∀ i v, sp !! i = Some (Some v) → kview (getp (kk s') i) = kview (getp (kk s) i)) as Hv.
  { intros i v Hw. destruct (Hlive i v Hw) as (_ & _ & E). change (kview (field (kk s') i) = kview (field (kk s) i)). by rewrite E. }
  split; [done|done| |].
  - apply init_keep; [done|]. intros i _ Hi Hl. destruct (live_space _ _ _ _ _ i HS Hi Hl) as (v & Hw). apply kview_keep; [by eapply Hv|done].
  - intros i v _ Hw _. destruct (Hlive i v Hw) as (? & ? & _). split; [done|]. split; [done|]. exact (f_equal fst (Hv i v Hw)).
Qed.

(** A step on the slot of [p] alone. *)
Lemma frame_stays p s qs l sp s' qs' l' u u' : SYS None s qs l sp → runs s p → sp !! p = Some (Some u) → frame p s l sp s' l' (<[p := Some u']> sp) → SYS None s' qs' l' (<[p := Some u']> sp) →
  state (getp (kk s') p) = RUNNING → killed p (kk s') = killed p (kk s) → stays p s l sp s'.
Proof.
  intros HS Hr Hu [F1 F2 F3 F4 F5] HS' Hst Hk. destruct (SYS_length _ _ _ _ _ HS) as (_ & El & Esp). exists qs', l', (<[p := Some u']> sp). split; [done|].
  split; [|split; [unfold myproc; rewrite F2; apply Hr|done]]. split; [done|done| |].
  - apply init_keep; [done|]. intros i _ Hi Hl. destruct (decide (i = p)) as [->|Hne]; [by rewrite Hst|]. unfold killed. by rewrite F1.
  - intros i v Hne Hw _. rewrite list_lookup_insert_ne by done. split; [done|]. split; [by eapply F3|]. rewrite F1; [done| |done]. rewrite <-Esp. by eapply lookup_lt_Some.
Qed.

Lemma sbrk_stays p s qs l sp n : SYS None s qs l sp → runs s p → - 2 ^ 31 ≤ n < 2 ^ 31 → wp (sys_sbrk n) (λ _ s', stays p s l sp s') s.
Proof.
  intros HS Hr Hn. unfold sys_sbrk, with_me, procat. apply wp_bind, wp_gets. rewrite (proj1 Hr). apply wp_bind, wp_gets, wp_bind. eapply wp_mono; [|by apply (growproc_ok s qs l sp p n)].
  intros r s' (l' & u & u' & Hu & _ & Eg & HS' & Hfr & _). assert (stays p s l sp s'); [|destruct (r <? 0); by apply wp_ret].
  eapply frame_stays; [exact HS|done|exact Hu|exact Hfr|exact HS'| |]; unfold killed; rewrite Eg; [apply Hr|done].
Qed.

Lemma unreaped_stays p s qs l sp s' : runs s p → unreaped p s qs l sp s' → stays p s l sp s'.
Proof.
  intros Hr [U1 U2 U3 U4]. exists qs, l, sp. split; [done|]. unfold runs. rewrite U2. split; [|done]. split; [done|by rewrite U2| |].
  - unfold init_ok. by rewrite U2.
  - intros i v Hne Hv _. rewrite U2. split; [done|]. split; [by eapply U3|done].
Qed.

Lemma reaped_stays p pp addr s qs l sp s' l' : SYS None s qs l sp → runs s p → reaped p pp addr s qs l sp s' l' → stays p s l sp s'.
Proof.
  intros HS Hr [(R1 & _ & R2) R3 _ R4 R5 R6 R7 R8]. destruct (SYS_running _ _ _ _ _ _ HS Hr) as (Hp & _). destruct (SYS_length _ _ _ _ _ HS) as (_ & _ & Esp).
  assert (∀ i, (i < NPROC)%nat → life_of (state (getp (kk s) i)) = Live → i ≠ pp) as Hne by (intros i Hi Hl ->; by rewrite R2 in Hl).
  exists qs, l', (<[pp := None]> sp). split; [done|]. split.
  - split; [done|done| |].
    + apply init_keep; [done|]. intros i _ Hi Hl. unfold killed. by rewrite R4 by (done || by apply Hne).
    + intros i v Hnp Hv Hl. assert (i < NPROC)%nat as Hi by (rewrite <-Esp; by eapply lookup_lt_Some). specialize (Hne i Hi Hl). rewrite list_lookup_insert_ne by done. split; [done|]. split; [by eapply R7|by rewrite R4].
  - split; [unfold myproc; rewrite R5; apply Hr|]. rewrite R4; [apply Hr|done|]. apply Hne; [done|by rewrite (proj2 Hr)].
Qed.

Definition result_ok (p : nat) (s : sys) (l : list Z) (sp : list (option uspace)) (r : Z + next) (s' : sys) : Prop :=
  match r with inl _ => stays p s l sp s' | inr n => n ≠ NUser ∧ comes_to p s l sp n s' end.

Lemma leaves_trans p s l sp s1 l1 sp1 s' : tr p s l sp s1 l1 sp1 → leaves p s1 l1 sp1 s' → leaves p s l sp s'.
Proof. intros H1 (qs' & l' & sp' & HS & H2 & Hset). exists qs', l', sp'. split; [done|]. split; [by eapply tr_trans|done]. Qed.

Lemma stays_trans p s l sp s1 l1 sp1 s' : tr p s l sp s1 l1 sp1 → stays p s1 l1 sp1 s' → stays p s l sp s'.
Proof. intros H1 (qs' & l' & sp' & HS & H2 & Hr). exists qs', l', sp'. split; [done|]. split; [by eapply tr_trans|done]. Qed.

Lemma wait_from_ok p s qs l sp addr : SYS None s qs l sp → runs s p → 0 ≤ addr < 2 ^ 64 → wp (wait_from xstate_at addr) (result_ok p s l sp) s.
Proof.
  intros HS Hr Ha. destruct (SYS_length _ _ _ _ _ HS) as (_ & El & Esp). unfold wait_from. apply wp_bind. eapply wp_mono; [|by apply (wait_ok xstate_at Hxst s qs l sp p addr)]. intros [v|] s1.
  - intros [(_ & Hun & _)|(pp & l' & _ & _ & Hre)]; apply wp_ret; [by eapply unreaped_stays|by eapply reaped_stays].
  - intros (_ & HS1 & Em & Ep & Ec & Eg & _ & _ & Hnr & Hf). apply wp_bind. eapply wp_mono; [|apply (schedule_leaves p s1 qs l sp HS1 Hnr)]. intros r2 s2 Hl. apply wp_ret. split; [done|]. split; [done|].
    eapply leaves_trans; [|exact Hl]. assert (∀ i, (i < NPROC)%nat → kview (getp (kk s1) i) = kview (getp (kk s) i)) as Hv.
    { intros i Hi. change (kview (field (kk s1) i) = kview (field (kk s) i)). rewrite Hf by done. case_decide as Hd; [subst i|done]. unfold kview, hold_of. cbn. by rewrite (proj2 Hr). }
    split; [unfold all_pages; by rewrite Em, Ep|by rewrite Eg| |].
    + apply init_keep; [by rewrite Eg|]. intros i _ Hi. apply kview_keep. by apply Hv.
    + intros i v _ Hw _. rewrite Em. split; [done|]. split; [apply kept_refl|]. apply lookup_lt_Some in Hw. exact (f_equal fst (Hv i ltac:(lia))).
Qed.

Lemma exit_leaves p s qs l sp status : SYS None s qs l sp → runs s p → initproc (glob (kk s)) ≠ Some p → wp (exit status;; on_kk schedule) (λ _ s', leaves p s l sp s') s.
Proof.
  intros HS Hr Hin. destruct (SYS_length _ _ _ _ _ HS) as (_ & _ & Esp). apply wp_bind. eapply wp_mono; [|by apply (exit_ok s qs l sp p status)]. intros [] s1 (qs1 & l1 & HS1 & Hpg & _ & _ & _ & Hnr & Hk & _ & Eg & Hv).
  eapply wp_mono; [|apply (schedule_leaves p s1 qs1 l1 sp HS1 Hnr)]. intros r2 s2 Hl. eapply leaves_trans; [|exact Hl]. split; [done|done| |].
  - apply init_keep; [done|]. intros i Hi Hlt. apply kview_keep. apply Hv; [done|congruence].
  - intros i v Hne Hw _. split; [done|]. split; [by eapply Hk|]. apply lookup_lt_Some in Hw. exact (f_equal fst (Hv i ltac:(lia) Hne)).
Qed.

Lemma dup_stays p s qs l sp a0 : SYS None s qs l sp → runs s p → wp (sys_dup a0) (λ _ s', stays p s l sp s') s.
Proof.
  intros HS Hr. eapply wp_mono; [|by apply (sys_dup_ok s qs l sp p)]. intros r s' [(_ & -> & _)|(f & fd & _ & _ & _ & _ & HS' & Hm & _)]; [by eapply stays_refl|].
  eapply touched_stays; [exact HS|done|by apply mild_touched|exact HS'|apply Hr|done].
Qed.

Lemma close_stays p s qs l sp a0 : SYS None s qs l sp → runs s p → wp (sys_close a0) (λ _ s', stays p s l sp s') s.
Proof.
  intros HS Hr. eapply wp_mono; [|by apply (sys_close_ok s qs l sp p)]. intros r s' [(_ & -> & _)|(f & qs' & l' & _ & _ & HS' & Hm)]; [by eapply stays_refl|].
  eapply touched_stays; [exact HS|done|by apply mild_touched|exact HS'|apply Hr|done].
Qed.

Lemma pipe_stays p s qs l sp fdarray : SYS None s qs l sp → runs s p → 0 ≤ fdarray < 2 ^ 64 → wp (sys_pipe fd0_at fd1_at fdarray) (λ _ s', stays p s l sp s') s.
Proof.
  intros HS Hr Ha. destruct (SYS_running _ _ _ _ _ _ HS Hr) as (_ & _ & _ & _ & u & Hu & _).
  eapply wp_mono; [|by apply (sys_pipe_ok s qs l sp p u HS Hr Hu fd0_at fd1_at stack Hstack Hfds)]. intros r s' (qs' & l' & HS' & [[_ Ht]|(rr & w & fd0 & fd1 & pi & x & _ & _ & _ & _ & Ht & _)]);
    (eapply touched_stays; [exact HS|done|exact Ht|exact HS'|apply Hr|done]).
Qed.

Lemma pgpte_same p s qs l sp : SYS None s qs l sp → runs s p → call_arg s p < MAXVA → wp sys_pgpte (λ _ s', s' = s) s.
Proof.
  intros HS Hr Ha. destruct (SYS_running _ _ _ _ _ _ HS Hr) as (_ & _ & _ & _ & u & Hu & Hok). destruct Hok as (_ & Ept & _). cbn in Ept.
  pose proof (ow_sp _ _ _ _ (ks_own _ _ _ _ _ _ _ (sy_ks _ _ _ _ _ HS)) u (live_elem _ _ _ Hu)) as [HA _]. pose proof (call_arg_range s qs l sp p HS) as [H0 _].
  unfold sys_pgpte, with_me, procat, on_mm. apply wp_bind, wp_gets. rewrite (proj1 Hr). apply wp_bind. apply (argraw_ok s p); [done|]. apply wp_bind, wp_gets, wp_bind, wp_zoom. rewrite Ept.
  unfold pgpte. apply wp_ok. eexists _, _. split; [by apply (walk_lookup (mm s) _ _ _ (vm_pt _ _ _ _ (as_vm _ _ _ _ _ HA)))|]. assert (set_mm (mm s) s = s) as -> by (by destruct s).
  destruct (_ =? 0); [by apply wp_ret|]. apply wp_bind, wp_gets. by apply wp_ret.
Qed.

Lemma returns_ok p s l sp (m : M sys Z) : wp m (λ _ s', stays p s l sp s') s → wp (returns m) (result_ok p s l sp) s.
Proof. intros H. unfold returns. apply wp_bind. eapply wp_mono; [|exact H]. intros v s' Hs. by apply wp_ret. Qed.

Lemma exit_call_leaves p s qs l sp : SYS None s qs l sp → runs s p → initproc (glob (kk s)) ≠ Some p → wp sys_exit (result_ok p s l sp) s.
Proof.
  intros HS Hr Hin. unfold sys_exit, argint. apply wp_bind, wp_bind, (argraw_ok s p); [done|]. apply wp_ret. pose proof (exit_leaves p s qs l sp (s32 (call_arg s p)) HS Hr Hin) as Hw.
  apply wp_bind_inv in Hw. apply wp_bind. eapply wp_mono; [|exact Hw]. intros [] s1 Hw1. apply wp_bind. eapply wp_mono; [|exact Hw1]. intros r s2 Hl. apply wp_ret. by split.
Qed.

Lemma kill_call_stays p s qs l sp : SYS None s qs l sp → runs s p → (∀ i, initproc (glob (kk s)) = Some i → pid (getp (kk s) i) ≠ s32 (call_arg s p)) → wp sys_kill (λ _ s', stays p s l sp s') s.
Proof.
  intros HS Hr Hin. unfold sys_kill, argint, on_kk. apply wp_bind, wp_bind, (argraw_ok s p); [done|]. apply wp_ret. apply wp_bind, wp_gets. pose proof (kill_stays p s qs l sp _ HS Hr Hin) as Hk.
  destruct (kill _ (kk s)) as [r k'] eqn:E. cbn [snd] in Hk. apply wp_bind, wp_zoom, wp_modify. by apply wp_ret.
Qed.

Lemma handler_ok p s qs l sp num : SYS None s qs l sp → runs s p → harmless s p num → in_table num = true → wp (handler forkret xstate_at fd0_at fd1_at other num) (result_ok p s l sp) s.
Proof.
  intros HS Hr [Hm1 Hm2 Hm3 Hm4] Hin. specialize (Hm1 Hin). pose proof (call_arg_range s qs l sp p HS) as Ha. unfold handler. pose proof (stays_refl p s qs l sp HS Hr) as Hrefl.
  destruct (Z.eqb_spec num SYS_fork); [apply returns_ok; by apply (fork_stays p s qs)|].
  destruct (Z.eqb_spec num SYS_exit); [eapply exit_call_leaves; [exact HS|done|by apply Hm2]|].
  destruct (Z.eqb_spec num SYS_wait). { unfold sys_wait, argaddr. apply wp_bind, (argraw_ok s p); [done|]. by apply (wait_from_ok p s qs). }
  destruct (Z.eqb_spec num SYS_pipe). { apply returns_ok. unfold argaddr. apply wp_bind, (argraw_ok s p); [done|]. by apply (pipe_stays p s qs). }
  destruct (Z.eqb_spec num SYS_kill); [apply returns_ok; apply (kill_call_stays p s qs); [done|done|by apply Hm3]|].
  destruct (Z.eqb_spec num SYS_dup). { apply returns_ok. unfold argint. apply wp_bind, wp_bind, (argraw_ok s p); [done|]. apply wp_ret. by apply (dup_stays p s qs). }
  destruct (Z.eqb_spec num SYS_getpid). { apply returns_ok. unfold sys_getpid, with_me, procat. apply wp_bind, wp_gets. rewrite (proj1 Hr). apply wp_bind, wp_gets. by apply wp_ret. }
  destruct (Z.eqb_spec num SYS_sbrk). { apply returns_ok. unfold argint. apply wp_bind, wp_bind, (argraw_ok s p); [done|]. apply wp_ret. apply (sbrk_stays p s qs); [done|done|apply s32_range]. }
  destruct (Z.eqb_spec num SYS_uptime). { apply returns_ok. by apply wp_gets. }
  destruct (Z.eqb_spec num SYS_close). { apply returns_ok. unfold argint. apply wp_bind, wp_bind, (argraw_ok s p); [done|]. apply wp_ret. by apply (close_stays p s qs). }
  destruct (Z.eqb_spec num SYS_pgpte). { apply returns_ok. eapply wp_mono; [|apply (pgpte_same p s qs l sp); [done|done|by apply Hm4]]. by intros v s' ->. }
  exfalso. unfold elsewhere in Hm1. apply negb_false_iff, existsb_exists in Hm1 as (x & Hx & ->%Z.eqb_eq). apply list_elem_of_In in Hx. rewrite !elem_of_cons, elem_of_nil in Hx. naive_solver.
Qed.

(** ** Traps *)

Lemma comes_trans p s l sp s1 l1 sp1 n s' : tr p s l sp s1 l1 sp1 → comes_to p s1 l1 sp1 n s' → comes_to p s l sp n s'.
Proof. intros Ht. destruct n; cbn; [by apply stays_trans|by apply leaves_trans|intros [? ?]; split; [done|by eapply leaves_trans]|by apply leaves_trans]. Qed.

Lemma u64_range v : 0 ≤ u64 v < 2 ^ 64.
Proof. unfold u64. apply Z.mod_pos_bound. lia. Qed.

Lemma put_result_ok p s0 l sp r s : result_ok p s0 l sp r s → wp (put_result p r) (comes_to p s0 l sp) s.
Proof.
  destruct r as [v|n]; cbn [result_ok put_result].
  - intros (qs1 & l1 & sp1 & HS & Ht & Hr). apply wp_bind. eapply wp_mono; [|by apply (set_tf_ok s qs1 l1 sp1 p TF_A0 (u64 v) HS Hr); [..|apply u64_range]]. intros [] s' (HS' & Ht' & Hr' & _).
    apply wp_ret. exists qs1, l1, sp1. split; [done|]. split; [by eapply tr_trans|done].
  - intros [_ Hl]. by apply wp_ret.
Qed.

Lemma syscall_ok p s qs l sp : SYS None s qs l sp → runs s p → harmless s p (call_num s p) → wp (syscall forkret xstate_at fd0_at fd1_at other) (comes_to p s l sp) s.
Proof.
  intros HS Hr Hm. unfold syscall, with_me, get_tf, procat. apply wp_bind, wp_gets. rewrite (proj1 Hr). apply wp_bind, wp_bind, wp_gets, wp_gets. fold (call_num s p).
  destruct (_ && _ && _) eqn:E.
  - apply wp_bind. eapply wp_mono; [|by apply (handler_ok p s qs l sp)]. intros r s' Hres. by apply put_result_ok.
  - apply put_result_ok. by eapply stays_refl.
Qed.

(** If [p] is [init], it is not killed. *)
Definition exits_ok (p : nat) (s : sys) : Prop := initproc (glob (kk s)) = Some p → init_ok s.

Lemma exits_tr p s l sp s' l' sp' : exits_ok p s → tr p s l sp s' l' sp' → exits_ok p s'.
Proof. intros He Ht Hi. apply (tr_init _ _ _ _ _ _ _ Ht), He. by rewrite <-(tr_initproc _ _ _ _ _ _ _ Ht). Qed.

Lemma init_exits p s : init_ok s → exits_ok p s.
Proof. by intros ? _. Qed.

(** A killed process exits; it is not [init]. *)
Lemma exit_killed_ok p s qs l sp : SYS None s qs l sp → runs s p → exits_ok p s → killed p (kk s) ≠ 0 → wp exit_killed (comes_to p s l sp) s.
Proof.
  intros HS Hr He Hkill. assert (initproc (glob (kk s)) ≠ Some p) as Hin by (intros Hi; destruct (He Hi) as (i & Hi' & _ & _ & Hk); congruence). unfold exit_killed.
  pose proof (exit_leaves p s qs l sp (-1) HS Hr Hin) as Hw. apply wp_bind_inv in Hw. apply wp_bind. eapply wp_mono; [|exact Hw]. intros [] s1 Hw1. apply wp_bind. eapply wp_mono; [|exact Hw1].
  intros r s2 Hl. by apply wp_ret.
Qed.

Lemma usertrap_end_ok timer p s qs l sp : SYS None s qs l sp → runs s p → exits_ok p s → wp (usertrap_end timer p NUser) (comes_to p s l sp) s.
Proof.
  intros HS Hr Hin. cbn [usertrap_end]. apply wp_bind, wp_gets. destruct (Z.eqb_spec (killed p (kk s)) 0) as [_|Hk]; cbn [negb]; [|by apply (exit_killed_ok p s qs)].
  destruct timer; [|apply wp_ret; by eapply stays_refl]. pose proof (ks_sched _ _ _ _ _ _ _ (sy_ks _ _ _ _ _ HS)) as HI.
  apply wp_bind. unfold on_kk at 1. apply wp_zoom. eapply wp_mono; [|by apply (usertrap_timer_view (kk s) qs p HI (proj1 Hr))]. intros b k1 [(qs1 & Hk1) Hv].
  destruct (keeps_stays p s qs l sp k1 qs1 HS Hr Hk1 Hv) as (qs2 & l2 & sp2 & HS2 & Ht & Hr2). destruct b; [|apply wp_ret; exists qs2, l2, sp2; done].
  destruct (runs_settled _ _ _ _ _ HS2 Hr2) as (n & Hcpu & Hn). pose proof (yield_leaves p _ qs2 l2 sp2 n HS2 Hcpu Hn) as Hw. apply wp_bind_inv in Hw. apply wp_bind. eapply wp_mono; [|exact Hw].
  intros [] s3 Hw3. apply wp_bind. eapply wp_mono; [|exact Hw3]. intros r s4 Hl. apply wp_ret. by eapply leaves_trans.
Qed.

(** [usertrap_end] after a part that comes to [n]. *)
Lemma then_end timer p s0 l sp n s : comes_to p s0 l sp n s → exits_ok p s0 → wp (usertrap_end timer p n) (comes_to p s0 l sp) s.
Proof.
  intros Hc Hin. destruct n; [|by apply wp_ret..]. destruct Hc as (qs1 & l1 & sp1 & HS & Ht & Hr). eapply wp_mono; [|apply (usertrap_end_ok timer p s qs1 l1 sp1 HS Hr); by eapply exits_tr].
  intros n' s' H. by eapply comes_trans.
Qed.

Lemma load64_tf m tf off v off' : off' + 8 ≤ off ∨ off + 8 ≤ off' → load64 (store64 (tf + off) v m) (tf + off') = load64 m (tf + off').
Proof. intros H. apply load64_store64_ne. lia. Qed.

Lemma harmless_epc s s' p num v : kk s' = kk s → ram (mm s') = store64 (trapframe (getp (kk s) p) + TF_EPC) v (ram (mm s)) →
  call_num s' p = call_num s p ∧ (harmless s p num → harmless s' p num).
Proof.
  intros Ek Em. assert (call_arg s' p = call_arg s p) as Ea by (unfold call_arg; rewrite Ek, Em; apply load64_tf; right; done).
  split; [unfold call_num; rewrite Ek, Em; f_equal; apply load64_tf; right; done|]. intros [H1 H2 H3 H4]. split; [done|by rewrite Ek|by rewrite Ek, Ea|by rewrite Ea].
Qed.

(** The interrupt flag is of no concern to the state of the processes. *)
Lemma set_intr_ok b p s qs l sp (Q : unit → sys → Prop) : SYS None s qs l sp → runs s p →
  (∀ s', SYS None s' qs l sp → tr p s l sp s' l sp → runs s' p → call_num s' p = call_num s p → (∀ num, harmless s p num → harmless s' p num) → mm s' = mm s → (∀ i, getp (kk s') i = getp (kk s) i) → Q tt s') →
  wp (set_intr b) Q s.
Proof.
  intros HS Hr HQ. unfold set_intr, on_kk. apply wp_zoom, wp_modify. pose proof (ks_sched _ _ _ _ _ _ _ (sy_ks _ _ _ _ _ HS)) as HI. destruct (SYS_length _ _ _ _ _ HS) as (_ & El & Esp).
  set (k' := set_cpu _ _). assert (same_view (kk s) k') as Hv by done.
  apply HQ; [apply (same_view_SYS s qs l sp k' qs); [done|by apply set_sie_SInv|done|done]|by apply same_view_tr|done|done| |done|done]. intros num [H1 H2 H3 H4]. by split.
Qed.

(** Where the first part of a trap comes to. *)
Definition enters (p : nat) (s : sys) (l : list Z) (sp : list (option uspace)) (r : option next) (s' : sys) : Prop :=
  match r with Some n => comes_to p s l sp n s' | None => stays p s l sp s' end.

Lemma syscall_enter_ok p s qs l sp : SYS None s qs l sp → runs s p → exits_ok p s →
  wp (syscall_enter p) (λ r s', enters p s l sp r s' ∧ (r = None → killed p (kk s) = 0 ∧ call_num s' p = call_num s p ∧ ∀ num, harmless s p num → harmless s' p num)) s.
Proof.
  intros HS Hr He. unfold syscall_enter. apply wp_bind, wp_gets. destruct (Z.eqb_spec (killed p (kk s)) 0) as [H0|Hk]; cbn [negb].
  - unfold get_tf, procat. apply wp_bind, wp_bind, wp_gets, wp_gets, wp_bind. eapply wp_mono; [|by apply (set_tf_ok s qs l sp p TF_EPC _ HS Hr); [..|apply u64_range]].
    intros [] s1 (HS1 & Ht & Hr1 & Ek & _ & _ & _ & Em). apply wp_ret. split; [by exists qs, l, sp|]. intros _. split; [done|].
    split; [apply (harmless_epc s s1 p 0 _ Ek Em)|]. intros num. apply (harmless_epc s s1 p num _ Ek Em).
  - apply wp_bind. eapply wp_mono; [|by apply (exit_killed_ok p s qs)]. intros n s1 H1. apply wp_ret. done.
Qed.

Lemma usertrap_enter_ok c sepc p s qs l sp : SYS None s qs l sp → runs s p → exits_ok p s → (c = TFault → initproc (glob (kk s)) ≠ Some p) → 0 ≤ sepc < 2 ^ 64 →
  wp (usertrap_enter c sepc p) (λ r s', enters p s l sp r s' ∧
    (r = None → c = TSyscall ∧ killed p (kk s) = 0 ∧ call_num s' p = call_num s p ∧ ∀ num, harmless s p num → harmless s' p num)) s.
Proof.
  intros HS Hr He Hc Hs. unfold usertrap_enter. apply wp_bind. eapply wp_mono; [|by apply (set_tf_ok s qs l sp p TF_EPC sepc HS Hr)].
  intros [] s1 (HS1 & Ht & Hr1 & Ek & _ & _ & _ & Em). assert (exits_ok p s1) as He1 by (by eapply exits_tr). pose proof (ks_sched _ _ _ _ _ _ _ (sy_ks _ _ _ _ _ HS1)) as HI.
  assert (∀ timer k', stays p s1 l sp (set_kk k' s1) → wp (n ← usertrap_end timer p NUser; mret (Some n)) (λ r s', enters p s l sp r s' ∧
    (r = None → c = TSyscall ∧ killed p (kk s) = 0 ∧ call_num s' p = call_num s p ∧ ∀ num, harmless s p num → harmless s' p num)) (set_kk k' s1)) as Hend.
  { intros timer k' Hst. apply wp_bind. eapply wp_mono; [|by apply (then_end timer p s1 l sp NUser)]. intros n s2 H2. apply wp_ret. split; [by eapply comes_trans|done]. }
  destruct c as [|chs| |].
  - eapply wp_mono; [|by apply (syscall_enter_ok p s1 qs l sp HS1 Hr1 He1)]. intros r s2 [H2 Hn]. split.
    + destruct r as [n|]; [by eapply comes_trans|by eapply stays_trans].
    + intros E. destruct (Hn E) as (Hk & En & Hh). split; [done|]. split; [by rewrite <-Ek|]. destruct (harmless_epc s s1 p 0 _ Ek Em) as [En1 _]. split; [congruence|].
      intros num Hm. by apply Hh, (harmless_epc s s1 p num _ Ek Em).
  - apply wp_bind, wp_zoom, wp_modify. destruct (wakeups_ok chs (kk s1) qs HI) as (Hv & qs2 & Hk). apply Hend. exact (keeps_stays p s1 qs l sp _ qs2 HS1 Hr1 Hk Hv).
  - apply wp_bind, wp_zoom, wp_modify. destruct (clockintr_keeps (kk s1) qs HI) as (qs2 & Hk). apply Hend. exact (keeps_stays p s1 qs l sp _ qs2 HS1 Hr1 Hk (clockintr_view _)).
  - apply wp_bind, wp_zoom, wp_modify. apply Hend. apply (setkilled_stays p s1 qs l sp HS1 Hr1). rewrite Ek. by apply Hc.
Qed.

Lemma syscall_on_ok p s qs l sp : SYS None s qs l sp → runs s p → harmless s p (call_num s p) → wp (syscall_on forkret xstate_at fd0_at fd1_at other) (comes_to p s l sp) s.
Proof.
  intros HS Hr Hm. unfold syscall_on. apply wp_bind, (set_intr_ok true p s qs l sp); [done|done|]. intros s1 HS1 Ht Hr1 En Hh _ _.
  eapply wp_mono; [|apply (syscall_ok p s1 qs l sp HS1 Hr1); rewrite En; by apply Hh]. intros n s' H. by eapply comes_trans.
Qed.

Lemma usertrap_ok c sepc p s qs l sp : SYS None s qs l sp → runs s p → exits_ok p s → (c = TFault → initproc (glob (kk s)) ≠ Some p) →
  (c = TSyscall → killed p (kk s) = 0 → harmless s p (call_num s p)) → 0 ≤ sepc < 2 ^ 64 →
  wp (usertrap forkret xstate_at fd0_at fd1_at other c sepc) (comes_to p s l sp) s.
Proof.
  intros HS Hr He Hf Hc Hs. unfold usertrap, with_me. apply wp_bind, wp_gets. rewrite (proj1 Hr). apply wp_bind. eapply wp_mono; [|by apply (usertrap_enter_ok c sepc p s qs l sp)].
  intros [n|] s1 [H1 Hn]; [by apply wp_ret|]. destruct (Hn eq_refl) as (-> & Hk & En & Hh). destruct H1 as (qs1 & l1 & sp1 & HS1 & Ht & Hr1).
  apply wp_bind. eapply wp_mono; [|apply (syscall_on_ok p s1 qs1 l1 sp1 HS1 Hr1); rewrite En; by apply Hh, Hc]. intros n s2 H2.
  eapply wp_mono; [|apply (then_end false p s1 l1 sp1 n s2 H2); by eapply exits_tr]. intros n' s' H. by eapply comes_trans.
Qed.

(** ** Traps that panic *)

(** [init] may not exit. *)
Definition dies (s : sys) (p : nat) : option string := if decide (initproc (glob (kk s)) = Some p) then Some "init exiting" else None.

(** The message with which a trap of [p] panics. *)
Definition trap_panics (s : sys) (p : nat) (c : cause) : option string :=
  match c with
  | TSyscall =>
      if negb (killed p (kk s) =? 0) || (call_num s p =? SYS_exit) then dies s p
      else if (call_num s p =? SYS_pgpte) && (MAXVA <=? call_arg s p) then Some "walk" else None
  | TFault => dies s p
  | _ => if negb (killed p (kk s) =? 0) then dies s p else None
  end.

Lemma exit_init p status s : myproc (kk s) = Some p → initproc (glob (kk s)) = Some p → exit status s = Panic "init exiting".
Proof. intros Hm Hi. unfold exit, with_me. apply wp_panic, wp_gets. rewrite Hm. apply wp_panic, wp_gets. by rewrite Hi, decide_True. Qed.

Lemma end_init timer p s : myproc (kk s) = Some p → initproc (glob (kk s)) = Some p → killed p (kk s) ≠ 0 → usertrap_end timer p NUser s = Panic "init exiting".
Proof.
  intros Hm Hi Hk. cbn [usertrap_end]. apply wp_panic, wp_gets. rewrite (proj2 (Z.eqb_neq _ _) Hk). cbn [negb]. apply bind_panic. by apply (exit_init p).
Qed.

(** A call that a living process makes up to [intr_on]. *)
Lemma enter_call sepc p s (Q : option next → sys → Prop) : runs s p → killed p (kk s) = 0 →
  (∀ s', kk s' = kk s → call_num s' p = call_num s p → call_arg s' p = call_arg s p → Q None s') → wp (usertrap_enter TSyscall sepc p) Q s.
Proof.
  intros Hr Hk HQ. unfold usertrap_enter, syscall_enter, set_tf, get_tf, procat, on_mm, on_ram. apply wp_bind, wp_bind, wp_gets, wp_zoom, wp_modify.
  apply wp_bind, wp_gets. cbn [kk set_mm]. rewrite Hk. cbn [negb Z.eqb]. apply wp_bind, wp_bind, wp_gets, wp_gets. apply wp_bind, wp_bind, wp_gets, wp_zoom, wp_modify, wp_ret.
  apply HQ; [done| |]; unfold call_num, call_arg; cbn [kk set_mm mm ram]; rewrite !load64_tf by (right; done); done.
Qed.

Lemma call_panics sepc p s msg : runs s p → killed p (kk s) = 0 → in_table (call_num s p) = true →
  (∀ s', runs s' p → glob (kk s') = glob (kk s) → call_arg s' p = call_arg s p → handler forkret xstate_at fd0_at fd1_at other (call_num s p) s' = Panic msg) →
  usertrap forkret xstate_at fd0_at fd1_at other TSyscall sepc s = Panic msg.
Proof.
  intros Hr Hk Ht Hh. unfold usertrap, with_me. apply wp_panic, wp_gets. rewrite (proj1 Hr). apply wp_panic, enter_call; [done|done|]. intros s1 Ek En Ea.
  apply bind_panic. unfold syscall_on, set_intr, on_kk. apply wp_panic, wp_zoom, wp_modify. unfold syscall, with_me, get_tf, procat. apply wp_panic, wp_gets.
  change (myproc (kk (set_kk _ s1))) with (myproc (kk s1)). assert (runs s1 p) as Hr1 by (unfold runs; by rewrite Ek). rewrite (proj1 Hr1). apply wp_panic, wp_bind, wp_gets, wp_gets. set (s2 := set_kk _ s1). change (s32 _) with (call_num s1 p).
  rewrite En. unfold in_table in Ht. rewrite Ht. apply bind_panic, Hh; [exact Hr1|exact (f_equal glob Ek)|exact Ea].
Qed.

(** [pgpte] of an address [walk] does not take. *)
Lemma pgpte_call sepc p s : runs s p → killed p (kk s) = 0 → call_num s p = SYS_pgpte → MAXVA ≤ call_arg s p →
  usertrap forkret xstate_at fd0_at fd1_at other TSyscall sepc s = Panic "walk".
Proof.
  intros Hr Hk Hn Ha. apply (call_panics sepc p s); [done|done|by rewrite Hn|]. intros s' Hr' _ Ea. rewrite Hn. unfold handler, returns. cbn [Z.eqb Pos.eqb].
  apply bind_panic. unfold sys_pgpte, with_me, procat. apply wp_panic, wp_gets. rewrite (proj1 Hr'). apply wp_panic, (argraw_ok s' p); [done|]. rewrite Ea.
  apply wp_panic, wp_gets, bind_panic. unfold on_mm, zoom, pgpte, walk. by rewrite (proj2 (Z.leb_le _ _) Ha).
Qed.

Lemma same_view_killed k k' p : length (procs k) = NPROC → (p < NPROC)%nat → same_view k k' → killed p k' = killed p k.
Proof. intros El Hp [Hv _]. unfold killed. exact (f_equal snd (view_at kview k k' p Hv ltac:(lia))). Qed.

Lemma usertrap_panics c sepc p s qs l sp msg : SYS None s qs l sp → runs s p → 0 ≤ sepc < 2 ^ 64 → trap_panics s p c = Some msg →
  usertrap forkret xstate_at fd0_at fd1_at other c sepc s = Panic msg.
Proof.
  intros HS Hr Hs Hp. destruct (SYS_running _ _ _ _ _ _ HS Hr) as (Hlt & El & _). assert (∀ m, dies s p = Some m → m = "init exiting" ∧ initproc (glob (kk s)) = Some p) as Hd.
  { intros m. unfold dies. case_decide; [|done]. by intros [= <-]. }
  assert (∀ msg', (∀ s1, kk s1 = kk s → SYS None s1 qs l sp → trap_cause c p s1 = Panic msg') →
    usertrap forkret xstate_at fd0_at fd1_at other c sepc s = Panic msg') as Hent.
  { intros msg' H. unfold usertrap, with_me. apply wp_panic, wp_gets. rewrite (proj1 Hr). apply bind_panic. unfold usertrap_enter. apply wp_panic.
    eapply wp_mono; [|by apply (set_tf_ok s qs l sp p TF_EPC sepc HS Hr)]. intros [] s1 (HS1 & _ & _ & Ek & _). by apply H. }
  pose proof (ks_sched _ _ _ _ _ _ _ (sy_ks _ _ _ _ _ HS)) as HI.
  destruct c as [|chs| |]; cbn [trap_panics] in Hp.
  - destruct (Z.eqb_spec (killed p (kk s)) 0) as [Hk|Hk]; cbn [negb orb] in Hp.
    + destruct (Z.eqb_spec (call_num s p) SYS_exit) as [E|_].
      * destruct (Hd _ Hp) as [-> Hi]. apply (call_panics sepc p s); [done|done|by rewrite E|]. intros s' Hr' Eg _. rewrite E. unfold handler. cbn [Z.eqb SYS_exit SYS_fork Pos.eqb].
        unfold sys_exit, argint. apply wp_panic, wp_bind, (argraw_ok s' p); [done|]. apply wp_ret, bind_panic, (exit_init p); [apply Hr'|congruence].
      * destruct (Z.eqb_spec (call_num s p) SYS_pgpte) as [E|_]; [|done]. destruct (Z.leb_spec MAXVA (call_arg s p)) as [Ha|]; [|done]. injection Hp as <-. by apply (pgpte_call sepc p s).
    + destruct (Hd _ Hp) as [-> Hi]. apply Hent. intros s1 Ek _. unfold syscall_enter. apply wp_panic, wp_gets. rewrite Ek, (proj2 (Z.eqb_neq _ _) Hk). cbn [negb].
      apply bind_panic, bind_panic, (exit_init p); rewrite Ek; [apply Hr|done].
  - destruct (Z.eqb_spec (killed p (kk s)) 0) as [|Hk]; [done|]. cbn [negb] in Hp. destruct (Hd _ Hp) as [-> Hi]. apply Hent. intros s1 Ek HS1.
    apply wp_panic, wp_zoom, wp_modify, bind_panic. destruct (wakeups_ok chs (kk s1) qs) as (Hv & qs2 & _ & _ & _ & Hm & _); [by rewrite Ek|]. rewrite Ek in *.
    apply end_init; cbn [kk set_kk]; rewrite ?Ek; [by rewrite Hm; apply Hr|by rewrite (sv_init _ _ Hv)|by rewrite (same_view_killed _ _ _ El Hlt Hv)].
  - destruct (Z.eqb_spec (killed p (kk s)) 0) as [|Hk]; [done|]. cbn [negb] in Hp. destruct (Hd _ Hp) as [-> Hi]. apply Hent. intros s1 Ek HS1.
    apply wp_panic, wp_zoom, wp_modify, bind_panic. destruct (clockintr_keeps (kk s1) qs) as (qs2 & _ & _ & _ & Hm & _); [by rewrite Ek|]. pose proof (clockintr_view (kk s1)) as Hv. rewrite Ek in *.
    apply end_init; cbn [kk set_kk]; rewrite ?Ek; [by rewrite Hm; apply Hr|by rewrite (sv_init _ _ Hv)|by rewrite (same_view_killed _ _ _ El Hlt Hv)].
  - destruct (Hd _ Hp) as [-> Hi]. apply Hent. intros s1 Ek _. apply wp_panic, wp_zoom, wp_modify, bind_panic. apply end_init; cbn [kk set_kk]; rewrite ?Ek; [apply Hr|done|].
    unfold killed, setkilled. rewrite getp_updp_eq by lia. done.
Qed.

(** A trap that does not panic. *)
Lemma spared c p s qs l sp : SYS None s qs l sp → runs s p → trap_panics s p c = None →
  exits_ok p s ∧ (c = TFault → initproc (glob (kk s)) ≠ Some p) ∧
  (c = TSyscall → killed p (kk s) = 0 → (call_num s p = SYS_exit → initproc (glob (kk s)) ≠ Some p) ∧ (call_num s p = SYS_pgpte → call_arg s p < MAXVA)).
Proof.
  intros HS Hr Hp. destruct (SYS_running _ _ _ _ _ _ HS Hr) as (Hlt & _). assert (dies s p = None → initproc (glob (kk s)) ≠ Some p) as Hd by (unfold dies; by case_decide).
  split_and!.
  - intros Hi. exists p. split; [done|]. split; [done|]. split; [by rewrite (proj2 Hr)|]. destruct (Z.eqb_spec (killed p (kk s)) 0) as [|Hk]; [done|]. exfalso.
    apply Z.eqb_neq in Hk. destruct c; cbn [trap_panics] in Hp; rewrite ?Hk in Hp; by apply Hd.
  - intros ->. by apply Hd.
  - intros -> Hk. cbn [trap_panics] in Hp. rewrite Hk in Hp. cbn [Z.eqb negb orb] in Hp. split; intros E; rewrite E in Hp; [by apply Hd|]. cbn in Hp. destruct (Z.leb_spec MAXVA (call_arg s p)); done.
Qed.

(** ** The other ways into the kernel *)

Lemma resume_wait_ok p s qs l sp addr : SYS None s qs l sp → runs s p → 0 ≤ addr < 2 ^ 64 → wp (resume_wait xstate_at addr) (comes_to p s l sp) s.
Proof.
  intros HS Hr Ha. unfold resume_wait, with_me. apply wp_bind, wp_gets. rewrite (proj1 Hr). apply wp_bind, (set_intr_ok true p s qs l sp); [done|done|]. intros s0 HS0 Ht0 Hr0 _ _ _ _.
  pose proof (ks_sched _ _ _ _ _ _ _ (sy_ks _ _ _ _ _ HS0)) as HI.
  destruct (SYS_running _ _ _ _ _ _ HS0 Hr0) as (Hp & El & _). apply wp_bind. unfold on_kk. apply wp_zoom. unfold sleep_exit, with_cur. apply wp_bind, wp_gets. rewrite (proj1 Hr0). apply wp_modify.
  destruct (keeps_stays p s0 qs l sp (updp p (set_chan ChNull) (kk s0)) qs HS0 Hr0) as (qs1 & l1 & sp1 & HS1 & Ht & Hr1); [by apply updp_keeps|split; [by apply view_updp|done]|].
  apply wp_bind. eapply wp_mono; [|by apply (wait_from_ok p _ qs1 l1 sp1 addr HS1 Hr1)]. intros r s2 Hres. eapply wp_mono; [|apply (put_result_ok p _ _ _ _ _ Hres)].
  intros n s3 Hc. eapply comes_trans; [|exact Hc]. by eapply tr_trans.
Qed.

Lemma usertrapret_words p s qs l sp kernel_satp usertrap_addr hartid : SYS None s qs l sp → runs s p → 0 ≤ kernel_satp < 2 ^ 64 → 0 ≤ usertrap_addr < 2 ^ 64 → 0 ≤ hartid < 2 ^ 64 →
  wp (pr ← procat p;
    set_tf p TF_KERNEL_SATP kernel_satp;;
    set_tf p TF_KERNEL_SP (u64 (kstack pr + PGSIZE));;
    set_tf p TF_KERNEL_TRAP usertrap_addr;;
    set_tf p TF_KERNEL_HARTID hartid;;
    epc ← get_tf p TF_EPC;
    mret (epc, MAKE_SATP (pagetable pr)))
   (λ r s', stays p s l sp s' ∧ r = (load64 (ram (mm s)) (trapframe (getp (kk s) p) + TF_EPC), MAKE_SATP (pagetable (getp (kk s) p)))) s.
Proof.
  intros HS Hr Hsatp Hut Hh. unfold procat. apply wp_bind, wp_gets. set (tf := trapframe (getp (kk s) p)).
  assert (∀ s1 off v (rest : M sys (Z * Z)) Q, stays p s l sp s1 → kk s1 = kk s → 0 ≤ off → off + 8 ≤ PGSIZE → off + 8 ≤ TF_EPC ∨ TF_EPC + 8 ≤ off → 0 ≤ v < 2 ^ 64 →
    (∀ s2, stays p s l sp s2 → kk s2 = kk s → load64 (ram (mm s2)) (tf + TF_EPC) = load64 (ram (mm s1)) (tf + TF_EPC) → wp rest Q s2) → wp (set_tf p off v;; rest) Q s1) as Hset.
  { intros s1 off v rest Q (qs1 & l1 & sp1 & HS1 & Ht1 & Hr1) Ek H0 H8 Hoff Hv Hnext. apply wp_bind. eapply wp_mono; [|by apply (set_tf_ok s1 qs1 l1 sp1 p off v HS1 Hr1)].
    intros [] s2 (HS2 & Ht2 & Hr2 & Ek2 & _ & _ & _ & Em). apply Hnext; [|congruence|rewrite Em, Ek; apply load64_tf; lia]. exists qs1, l1, sp1. split; [done|]. split; [by eapply tr_trans|done]. }
  apply Hset; [by eapply stays_refl|done|done|done|by left|done|]. intros s1 St1 Ek1 E1. apply Hset; [done|done|done|done|by left|apply u64_range|]. intros s2 St2 Ek2 E2.
  apply Hset; [done|done|done|done|by left|done|]. intros s3 St3 Ek3 E3. apply Hset; [done|done|done|done|by right|done|]. intros s4 St4 Ek4 E4.
  unfold get_tf, procat. apply wp_bind, wp_bind, wp_gets, wp_gets, wp_ret. split; [done|]. rewrite Ek4. fold tf. congruence.
Qed.

Lemma usertrapret_ok p s qs l sp kernel_satp usertrap_addr hartid : SYS None s qs l sp → runs s p → 0 ≤ kernel_satp < 2 ^ 64 → 0 ≤ usertrap_addr < 2 ^ 64 → 0 ≤ hartid < 2 ^ 64 →
  wp (usertrapret kernel_satp usertrap_addr hartid) (λ r s', stays p s l sp s' ∧ r = (load64 (ram (mm s)) (trapframe (getp (kk s) p) + TF_EPC), MAKE_SATP (pagetable (getp (kk s) p)))) s.
Proof.
  intros HS Hr Hsatp Hut Hh. unfold usertrapret, with_me. apply wp_bind, wp_gets. rewrite (proj1 Hr). apply wp_bind, (set_intr_ok false p s qs l sp); [done|done|].
  intros s0 HS0 Ht0 Hr0 _ _ Em0 Eg0. eapply wp_mono; [|exact (usertrapret_words p s0 qs l sp kernel_satp usertrap_addr hartid HS0 Hr0 Hsatp Hut Hh)].
  intros r s' [Hst ->]. split; [by eapply stays_trans|]. by rewrite Em0, Eg0.
Qed.

Lemma kerneltrap_timer_ok p s qs l sp : SYS None s qs l sp → has_cpu s p → p ∉ concat qs → wp kerneltrap_timer (λ _ s', leaves p s l sp s') s.
Proof.
  intros HS Hcpu Hn. destruct (SYS_length _ _ _ _ _ HS) as (_ & El & Esp). pose proof (ks_sched _ _ _ _ _ _ _ (sy_ks _ _ _ _ _ HS)) as HI.
  assert (myproc (kk s) = Some p) as Hm by (by destruct Hcpu as [[? _]|[? _]]). assert (p < NPROC)%nat as Hlt by (destruct (si_cur _ _ HI) as (c & Hc & ?); congruence).
  unfold kerneltrap_timer. apply wp_bind. unfold on_kk at 1. apply wp_zoom. eapply wp_mono; [|by apply (timer_tick_view (kk s) qs p HI Hm)]. intros b k1 [(qs1 & Hk1) Hv].
  pose proof Hk1 as (HI1 & He & Hq & Hm1 & Hid). assert (SYS None (set_kk k1 s) qs1 l sp) as HS1 by (by eapply same_view_SYS). assert (tr p s l sp (set_kk k1 s) l sp) as Ht by (by apply same_view_tr).
  assert (has_cpu (set_kk k1 s) p) as Hcpu1.
  { destruct Hcpu as [[_ Hst]|[_ Hidle]]; [left; split; [by rewrite <-Hm|]|right; cbn [kk set_kk]; by rewrite Hm1, Hid]. cbn [kk set_kk]. destruct (He p Hlt) as [->|(? & _)]; done. }
  assert (p ∉ concat qs1) as Hn1 by (by apply Hq). destruct b; [|apply wp_ret; exists qs1, l, sp; split; [done|]; split; [done|by exists p]].
  pose proof (yield_leaves p _ qs1 l sp p HS1 Hcpu1 Hn1) as Hw. apply wp_bind_inv in Hw. apply wp_bind. eapply wp_mono; [|exact Hw].
  intros [] s3 Hw3. apply wp_bind. eapply wp_mono; [|exact Hw3]. intros r s4 Hl. apply wp_ret. by eapply leaves_trans.
Qed.

Lemma device_ok p s qs l sp chs : SYS None s qs l sp → has_cpu s p → p ∉ concat qs → leaves p s l sp (set_kk (foldr wakeup (kk s) chs) s).
Proof.
  intros HS Hcpu Hn. destruct (SYS_length _ _ _ _ _ HS) as (_ & El & Esp). pose proof (ks_sched _ _ _ _ _ _ _ (sy_ks _ _ _ _ _ HS)) as HI. destruct (wakeups_ok chs (kk s) qs HI) as (Hv & qs1 & HI1 & He & Hq & Hm1 & Hid).
  assert (myproc (kk s) = Some p) as Hm by (by destruct Hcpu as [[? _]|[? _]]). assert (p < NPROC)%nat as Hlt by (destruct (si_cur _ _ HI) as (c & Hc & ?); congruence).
  exists qs1, l, sp. split; [by eapply same_view_SYS|]. split; [by apply same_view_tr|]. exists p. split; [|by apply Hq].
  destruct Hcpu as [[_ Hst]|[_ Hidle]]; [left; split; [cbn [kk set_kk]; by rewrite Hm1|]|right; cbn [kk set_kk]; by rewrite Hm1, Hid]. cbn [kk set_kk]. destruct (He p Hlt) as [->|(? & _)]; done.
Qed.

Lemma idle_ok p s qs l sp : SYS None s qs l sp → myproc (kk s) = idleproc (mycpu (kk s)) → wp (on_kk schedule) (λ _ s', leaves p s l sp s') s.
Proof.
  intros HS Hidle. pose proof (ks_sched _ _ _ _ _ _ _ (sy_ks _ _ _ _ _ HS)) as HI. apply (schedule_leaves p s qs); [done|]. intros i Hi Hrun.
  pose proof (si_running _ _ HI i Hi Hrun) as Hm. destruct (si_idle _ _ HI) as (j & Hj & _ & Hst). congruence.
Qed.
End trapspec.
