(* ===== verification/Procboot.v ===== *)
(** * The first processes

    [userinit] and [scheduler] establish the invariant [SYS] of [Procspec]: the
    first process is runnable with one page of memory and the root directory,
    the idle process has the CPU. *)

From S2P Require Import Prelude Machine Ring Pipe Proc Runq Sched Schedmach Mem Kalloc Vm Vmspec Uvm Ucopy Procmem Files Proclife Procspec Procfork Procwait Procfile.

#[local] Opaque wakeup reparent.

Section procboot.
Context `{LY : Layout} {L : Type} `{!InodeOps L, !InodeLaws L}.
#[local] Notation sys := (@Files.sys L).
Context (forkret idle_main initcode initcode_size : Z).

(** The table [procinit] leaves, then the table after [userinit] and after
    [scheduler], with the pages and the inode they obtained. *)
Definition k0 : kst := procinit (Kst (replicate NPROC proc0) [] 0 (Cpu None 0 false None false false) (Globals None 1 0)).

Definition first_proc (tf pt : Z) (ip : nat) (x : proc) : proc :=
  set_state RUNNABLE (set_cwd (Some ip) (set_name (copy_name (name x) [105; 110; 105; 116; 99; 111; 100; 101; 0] 16) (set_sz PGSIZE
    (set_ctx (Context forkret (u64 (kstack x + PGSIZE)) (replicate 12 0)) (set_pagetable pt (set_trapframe tf
    (set_rq_next None (set_wait_ticks 0 (set_prio PRIO_DEFAULT (set_base_prio PRIO_DEFAULT (set_pid 1 x))))))))))).

Definition idle_proc (tf pt : Z) (x : proc) : proc :=
  set_ctx (Context idle_main (u64 (kstack x + PGSIZE)) (replicate 12 0)) (set_pagetable pt (set_trapframe tf
    (set_rq_next None (set_wait_ticks 0 (set_base_prio PRIO_MAX (set_prio PRIO_MAX (set_state RUNNABLE
    (set_name (copy_name (name x) [105; 100; 108; 101; 0] 16) (set_pid 0 x))))))))).

Definition k_user (tf pt : Z) (ip : nat) : kst := prio_enqueue 0 (updp 0 (first_proc tf pt ip) (set_glob (Globals (Some 0%nat) 2 0) k0)).
Definition k_boot (tf pt : Z) (ip : nat) (tf1 pt1 : Z) : kst :=
  set_cpu (Cpu (Some 1%nat) 0 false (Some 1%nat) false false) (updp 1 (idle_proc tf1 pt1) (k_user tf pt ip)).

Lemma k0_repr g : Repr (set_glob g k0) (replicate NPRIO []).
Proof. assert (Repr k0 (replicate NPRIO [])) as [[] ?] by (apply prio_init_repr; reflexivity). done. Qed.

Lemma k_boot_repr tf pt ip tf1 pt1 : Repr (k_boot tf pt ip tf1 pt1) boot_qs.
Proof.
  assert (Repr (updp 0 (first_proc tf pt ip) (set_glob (Globals (Some 0%nat) 2 0) k0)) (replicate NPRIO [])) as H1.
  { apply Repr_updp_notin; [apply k0_repr|by apply Nat.ltb_lt|by_compute]. }
  destruct (prio_enqueue_repr 0 _ _ [] H1) as [H2 _]; [reflexivity|by apply Nat.ltb_lt|by_compute|split; [discriminate|reflexivity]|reflexivity|].
  apply Repr_set_cpu, Repr_updp_notin; [exact H2|by apply Nat.ltb_lt|by_compute].
Qed.

Lemma k_boot_SInv tf pt ip tf1 pt1 : SInv (k_boot tf pt ip tf1 pt1) boot_qs.
Proof.
  split.
  - apply k_boot_repr.
  - intros k l p Hk Hp. unfold boot_qs in Hk. apply list_lookup_insert_Some in Hk as [(<- & <- & _)|[_ Hk]]; [by apply list_elem_of_singleton in Hp as ->|].
    apply lookup_replicate in Hk as [-> _]. by apply elem_of_nil in Hp.
  - apply forall_NPROC. by_compute.
  - exists 1%nat. split; [done|by apply Nat.ltb_lt].
  - exists 1%nat. split; [done|]. split; [by apply Nat.ltb_lt|done].
  - apply (forall_NPROC (λ p, _ → (_ ↔ _))). by_compute.
  - apply (forall_NPROC (λ p, _ → _)). by_compute.
Qed.

Definition free_hold : hold := Hold Free 0 0 0 no_files None.

Lemma k_boot_holds tf pt ip tf1 pt1 :
  holds (k_boot tf pt ip tf1 pt1) = Hold Live PGSIZE pt tf no_files (Some ip) :: Hold Live 0 pt1 tf1 no_files None :: replicate 62 free_hold.
Proof. vm_compute. reflexivity. Qed.

(** The invariant holds on the tables with their pages. *)
Lemma boot_SYS m l tf pt t ip tf1 pt1 t1 lo' :
  OWN m l ([US pt t tf 1] ++ [US pt1 t1 tf1 0]) (system_pages ∅) → IL lo' false [ip] →
  SYS None (Sys m (k_boot tf pt ip tf1 pt1) (replicate NFILE file0) ∅ lo') boot_qs l (Some (US pt t tf 1) :: Some (US pt1 t1 tf1 0) :: replicate 62 None).
Proof.
  intros HO HL. assert (∀ i f, replicate NFILE file0 !! i = Some f → f = file0) as Hft by (intros i f Hf; by apply lookup_replicate in Hf as [-> _]).
  assert (inodes_held (replicate NFILE file0) = [] ∧ ends_held (replicate NFILE file0) = []) as [Ei Ee] by (split; vm_compute; reflexivity).
  split; cbn [kk]; rewrite k_boot_holds.
  - assert (fds_of (Hold Live PGSIZE pt tf no_files (Some ip) :: Hold Live 0 pt1 tf1 no_files None :: replicate 62 free_hold) = []) as -> by (vm_compute; reflexivity).
    assert (cwds_of (Hold Live PGSIZE pt tf no_files (Some ip) :: Hold Live 0 pt1 tf1 no_files None :: replicate 62 free_hold) = [ip]) as -> by (vm_compute; reflexivity).
    split; cbn [kk mm ft pipes lo].
    + apply k_boot_SInv.
    + assert (omap id (Some (US pt t tf 1) :: Some (US pt1 t1 tf1 0) :: replicate 62 None) = [US pt t tf 1] ++ [US pt1 t1 tf1 0]) as -> by reflexivity. exact HO.
    + split; [reflexivity|by intros i ?%elem_of_nil|by intros i f ->%Hft|by intros i f ->%Hft].
    + split; [rewrite Ee; constructor|intros pi w; rewrite Ee; split; [by intros ?%elem_of_nil|intros (p & Hp & _); by rewrite lookup_empty in Hp]|intros pi p Hp; by rewrite lookup_empty in Hp].
    + rewrite Ei. exact HL.
  - constructor; [|constructor].
    + cbn. split; [done|]. split; [done|]. split; [done|]. split; [by compute|]. split; [by compute|]. done.
    + cbn. split; [done|]. split; [done|]. split; [done|]. split; [by compute|]. split; [by compute|]. done.
    + apply Forall2_same_length_lookup. rewrite !length_replicate. split; [done|]. intros i h o [-> _]%lookup_replicate [-> _]%lookup_replicate. done.
  - intros [|[|i]] h Hh Hl Hid _.
    + injection Hh as <-. by eexists.
    + done.
    + change (replicate 62 free_hold !! i = Some h) in Hh. apply lookup_replicate in Hh as [-> _]. done.
Qed.

(** ** The code *)

Context (Hcode : 0 ≤ initcode_size < PGSIZE ∧ initcode + initcode_size ≤ kend).

Definition files0 : list file := replicate NFILE file0.

Lemma first_slot : list_find (λ p, state p = UNUSED) (procs k0) = Some (0%nat, getp k0 0).
Proof. vm_compute. reflexivity. Qed.

(** Writes to the trapframe. *)
Lemma boot_tf m l u ex off v : OWN m l ([] ++ [u] ++ []) ex → 0 ≤ off → off + 8 ≤ PGSIZE →
  let m' := Mst (store64 (us_tf u + off) v (ram m)) (freelist m) in OWN m' l ([] ++ [u] ++ []) ex ∧ pages_of m' l [u] ex ≡ₚ pages_of m l [u] ex.
Proof.
  intros HO H0 H1 m'. destruct (OWN_write_tf m l [] u [] ex (store64 (us_tf u + off) v (ram m)) HO) as [[C1 _ C3] _]; [by apply only_pages_store64|apply bytes_ok_store64, HO|].
  split; [exact C1|exact C3].
Qed.

Lemma userinit_ok m l lo0 : OWN m l [] (system_pages ∅) → (16 ≤ length l)%nat → IL lo0 false [] →
  wp (userinit forkret initcode initcode_size) (λ _ s', ∃ m' l' tf pt t ip lo', s' = Sys m' (k_user tf pt ip) files0 ∅ lo' ∧ OWN m' l' [US pt t tf 1] (system_pages ∅) ∧
    pages_of m' l' [US pt t tf 1] (system_pages ∅) ≡ₚ pages_of m l [] (system_pages ∅) ∧ (7 ≤ length l')%nat ∧ IL lo' false [ip]) (Sys m k0 files0 ∅ lo0).
Proof.
  intros HO Hlen HL. unfold userinit, allocproc. apply wp_bind, wp_bind, wp_gets. cbn [kk]. rewrite first_slot.
  apply wp_bind. unfold on_kk at 1. apply wp_zoom. unfold allocproc_found, allocpid. apply wp_bind, wp_bind, wp_gets, wp_bind, wp_modify, wp_ret, wp_modify. unfold set_kk. cbn [mm kk ft pipes lo].
  apply wp_bind. unfold on_mm at 1. apply wp_zoom. eapply wp_mono; [|apply (kalloc_own _ _ _ _ HO)]. intros tf m1 Hk. destruct l as [|tf' l1]; [cbn [length] in Hlen; lia|]. cbn [length] in Hlen.
  destruct Hk as (-> & Htf0 & Htfok & _ & HO1 & _ & Hpg1). unfold set_mm. cbn [mm kk ft pipes lo].
  unfold setp, on_kk. apply wp_bind, wp_zoom, wp_modify. rewrite (proj2 (Z.eqb_neq tf' 0)) by done. unfold set_kk. cbn [mm kk ft pipes lo].
  apply wp_bind. unfold on_mm at 1. apply wp_zoom. cbn [mm]. eapply wp_mono; [|apply (proc_pagetable_own m1 l1 [] [] _ tf' HO1)]. intros pt m2 (l2 & _ & [(Hpt0 & t & HO2 & Hpg2 & Hl2)|(_ & _ & _ & ?)]); [|lia].
  unfold set_mm. cbn [mm kk ft pipes lo]. apply wp_bind, wp_zoom, wp_modify. rewrite (proj2 (Z.eqb_neq pt 0)) by done. unfold set_kk. cbn [mm kk ft pipes lo].
  apply wp_bind, wp_zoom, wp_modify, wp_ret. unfold set_kk. cbn [mm kk ft pipes lo]. apply wp_bind, wp_zoom, wp_modify. unfold set_kk. cbn [mm kk ft pipes lo].
  unfold procat. apply wp_bind, wp_gets. cbn [kk]. rewrite !updp_updp.
  match goal with |- context [updp 0 ?F _] => set (G := F) end.
  match goal with |- wp _ _ (Sys _ ?K _ _ _) => change K with (updp 0 G (set_glob (Globals (Some 0%nat) 2 0) k0)) end.
  assert (pagetable (getp (updp 0 G (set_glob (Globals (Some 0%nat) 2 0) k0)) 0) = pt ∧ trapframe (getp (updp 0 G (set_glob (Globals (Some 0%nat) 2 0) k0)) 0) = tf') as [Ept Etf] by (split; reflexivity).
  rewrite Ept, Etf. apply wp_bind. unfold on_mm at 1. apply wp_zoom. eapply wp_mono; [|apply (uvmfirst_own m2 l2 [] pt t tf' [] _ initcode initcode_size HO2); [apply Hcode|apply Hcode|lia]].
  intros [] m3 (t3 & l3 & [HO3 _ Hpg3] & _ & Hl3 & _). unfold set_mm. cbn [mm kk ft pipes lo]. apply wp_bind, wp_zoom, wp_modify. unfold set_kk. cbn [mm kk ft pipes lo]. rewrite updp_updp.
  destruct (boot_tf _ _ _ _ TF_EPC 0 HO3) as [HO4 Hpg4]; [by compute|by compute|]. destruct (boot_tf _ _ _ _ TF_SP PGSIZE HO4) as [HO5 Hpg5]; [by compute|by compute|].
  unfold on_mm, on_ram. apply wp_bind, wp_zoom, wp_modify, wp_bind, wp_zoom, wp_modify. unfold set_mm. cbn [mm kk ft pipes lo ram freelist].
  apply wp_bind, wp_zoom, wp_modify. unfold set_kk. cbn [mm kk ft pipes lo]. rewrite updp_updp.
  apply wp_bind. unfold on_lo. apply wp_zoom. eapply wp_mono; [|apply namei_root_ok, HL]. intros o lo1 (ip & -> & HL1). unfold set_lo. cbn [mm kk ft pipes lo].
  apply wp_bind, wp_zoom, wp_modify. unfold set_kk. cbn [mm kk ft pipes lo]. rewrite updp_updp. apply wp_bind, wp_zoom, wp_modify. unfold set_kk. cbn [mm kk ft pipes lo]. rewrite updp_updp.
  apply wp_zoom, wp_modify. unfold set_kk. cbn [mm kk ft pipes lo]. eexists _, l3, tf', pt, t3, ip, lo1. split; [reflexivity|]. split; [exact HO5|]. split; [|split; [lia|exact HL1]].
  rewrite Hpg5, Hpg4. etrans; [exact Hpg3|]. etrans; [exact Hpg2|]. exact Hpg1.
Qed.

Lemma second_slot tf pt ip g : list_find (λ p, state p = UNUSED) (procs (set_cpu g (k_user tf pt ip))) = Some (1%nat, getp (k_user tf pt ip) 1).
Proof. vm_compute. reflexivity. Qed.

(** The idle process gets the CPU. *)
Lemma take_cpu tf pt ip F :
  let k1 := set_cpu (set_preempt_pending false (set_c_proc None (mycpu (k_user tf pt ip)))) (k_user tf pt ip) in let k2 := updp 1 F k1 in
  let k3 := set_cpu (set_idleproc (Some 1%nat) (mycpu k2)) k2 in
  set_cpu (set_c_proc (Some 1%nat) (mycpu k3)) k3 = set_cpu (Cpu (Some 1%nat) 0 false (Some 1%nat) false false) (updp 1 F (k_user tf pt ip)).
Proof.
  assert (noff (mycpu (k_user tf pt ip)) = 0 ∧ intena (mycpu (k_user tf pt ip)) = false ∧ sie (mycpu (k_user tf pt ip)) = false) as (E1 & E2 & E3) by (vm_compute; done).
  generalize dependent (k_user tf pt ip). intros [ps qq h [c n i d b e] g] E1 E2 E3. cbn in E1, E2, E3. by subst.
Qed.

Lemma scheduler_ok m l tf pt t ip (lo0 : L) : OWN m l [US pt t tf 1] (system_pages ∅) → (7 ≤ length l)%nat →
  wp (scheduler idle_main) (λ _ s', ∃ m' l' tf1 pt1 t1, s' = Sys m' (k_boot tf pt ip tf1 pt1) files0 ∅ lo0 ∧ OWN m' l' ([US pt t tf 1] ++ [US pt1 t1 tf1 0]) (system_pages ∅) ∧
    pages_of m' l' ([US pt t tf 1] ++ [US pt1 t1 tf1 0]) (system_pages ∅) ≡ₚ pages_of m l [US pt t tf 1] (system_pages ∅)) (Sys m (k_user tf pt ip) files0 ∅ lo0).
Proof.
  intros HO Hlen. unfold scheduler, on_kk, alloc_idleproc. apply wp_bind, wp_zoom, wp_modify. unfold set_kk. cbn [mm kk ft pipes lo]. apply wp_bind, wp_bind, wp_gets. cbn [kk]. rewrite second_slot.
  unfold setp, on_kk. apply wp_bind, wp_zoom, wp_modify. unfold set_kk. cbn [mm kk ft pipes lo].
  apply wp_bind. unfold on_mm at 1. apply wp_zoom. eapply wp_mono; [|apply (kalloc_own _ _ _ _ HO)]. intros tf1 m1 Hk. destruct l as [|tf1' l1]; [cbn [length] in Hlen; lia|]. cbn [length] in Hlen.
  destruct Hk as (-> & Htf0 & Htfok & _ & HO1 & _ & Hpg1). unfold set_mm. cbn [mm kk ft pipes lo]. apply wp_bind, wp_zoom, wp_modify. rewrite (proj2 (Z.eqb_neq tf1' 0)) by done. unfold set_kk. cbn [mm kk ft pipes lo]. rewrite updp_updp.
  apply wp_bind. unfold on_mm at 1. apply wp_zoom. cbn [mm]. eapply wp_mono; [|apply (proc_pagetable_own m1 l1 [US pt t tf 1] [] _ tf1' HO1)]. intros pt1 m2 (l2 & _ & [(Hpt0 & t1 & HO2 & Hpg2 & _)|(_ & _ & _ & ?)]); [|lia].
  unfold set_mm. cbn [mm kk ft pipes lo]. apply wp_bind, wp_zoom, wp_modify. rewrite (proj2 (Z.eqb_neq pt1 0)) by done. unfold set_kk. cbn [mm kk ft pipes lo]. rewrite updp_updp.
  apply wp_bind, wp_zoom, wp_modify, wp_ret. unfold set_kk. cbn [mm kk ft pipes lo]. rewrite updp_updp. apply wp_bind, wp_zoom, wp_modify. unfold set_kk. cbn [mm kk ft pipes lo]. apply wp_zoom, wp_modify. unfold set_kk. cbn [mm kk ft pipes lo].
  exists m2, l2, tf1', pt1, t1. split; [|split; [exact HO2|etrans; [exact Hpg2|exact Hpg1]]].
  apply (f_equal (λ k, Sys m2 k files0 ∅ lo0)). exact (take_cpu tf pt ip (idle_proc tf1' pt1)).
Qed.
End procboot.
