(* ===== verification/Procmach.v ===== *)
(** * The system as a machine

    The processes run one at a time: user code writes to the memory its page table
    lets it write to, and every trap, interrupt and return to user space is the
    kernel code of [Syscall].  A system call takes three steps, with interrupts and
    preemption before, between and after them: [usertrap] up to [intr_on], the
    system call itself up to its end or to the [swtch] in which it sleeps or exits,
    and the rest of [usertrap].  In every state the machine reaches, no page is lost,
    references are counted exactly and no step panics; and a step of one process
    leaves the memory, the registers and the files of the others alone. *)

From S2P Require Import Prelude Machine Ring Pipe Proc Runq Sched Schedmach Mem Kalloc Vm Vmspec Uvm Ucopy Procmem Files Proclife Procspec Procfork Procwait Procfile Syscall Trapspec Procboot.

#[local] Opaque wakeup reparent prio_enqueue.

(** Where a process continues when it has the CPU: in user space, in the kernel at
    [intr_on], after [syscall] or before [usertrapret], or in the loop of [wait]. *)
Inductive kont := KUser | KCall | KEnd | KRet | KWait (addr : Z).

Section procmach.
Context `{LY : Layout} {L : Type} `{!InodeOps L, !InodeLaws L}.
#[local] Notation sys := (@Files.sys L).
Context (forkret kernel_satp usertrap_addr hartid : Z) (xstate_at fd0_at fd1_at : nat → Z) (other : Z → M sys (Z + next)).

(** ** User code *)

(** The byte a process sees at [va], found as [copyin] finds it. *)
Definition user_byte (s : sys) (i : nat) (va : Z) : option Z :=
  match walkaddr (pagetable (getp (kk s) i)) va (mm s) with
  | Ok pa _ => if pa =? 0 then None else Some (rd (ram (mm s)) (pa + va mod PGSIZE))
  | _ => None
  end.

(** The entry of the page table for [va], and the physical addresses it lets user
    code write to. *)
Definition user_pte (s : sys) (i : nat) (va : Z) : Z :=
  match walk (pagetable (getp (kk s) i)) va false (mm s) with
  | Ok a _ => if a =? 0 then 0 else load64 (ram (mm s)) a
  | _ => 0
  end.
Definition may_write (s : sys) (i : nat) (a : Z) : Prop :=
  ∃ va, 0 ≤ va < MAXVA ∧ let e := user_pte s i va in
    has e PTE_V = true ∧ has e PTE_U = true ∧ has e PTE_W = true ∧ PTE2PA e ≤ a < PTE2PA e + PGSIZE.

(** User code of [p] ran: it wrote to its memory, and its registers are in the
    trapframe, from offset 40 on, where [uservec] saves them. *)
Definition user_ran (s : sys) (p : nat) (m : mem) : Prop :=
  bytes_ok m ∧ ∀ a, rd m a ≠ rd (ram (mm s)) a → may_write s p a ∨ trapframe (getp (kk s) p) + 40 ≤ a < trapframe (getp (kk s) p) + TF_SIZE.

(** ** The machine *)

Record smach := SMach { sy : sys; konts : list kont }.
Definition kont_of (m : smach) (p : nat) : kont := default KRet (konts m !! p).

(** After the first part of a trap, after the system call, after the last part. *)
Definition entered (r : option next) : kont := match r with Some (NWait addr) => KWait addr | Some _ => KRet | None => KCall end.
Definition called (n : next) : kont := match n with NUser => KEnd | NWait addr => KWait addr | _ => KRet end.
Definition after (n : next) : kont := match n with NWait addr => KWait addr | _ => KRet end.
Definition goes (p : nat) (k : kont) (s : sys) (m : smach) : smach := SMach s (<[p := k]> (konts m)).

Definition idles (s : sys) : Prop := myproc (kk s) = idleproc (mycpu (kk s)).

Inductive sstep : smach → smach → Prop :=
  | ss_user m p w : runs (sy m) p → kont_of m p = KUser → user_ran (sy m) p w →
      sstep m (SMach (set_mm (Mst w (freelist (mm (sy m)))) (sy m)) (konts m))
  | ss_trap m p c sepc r s' : runs (sy m) p → kont_of m p = KUser → (c = TFault → initproc (glob (kk (sy m))) ≠ Some p) → 0 ≤ sepc < 2 ^ 64 →
      usertrap_enter c sepc p (sy m) = Ok r s' → sstep m (goes p (entered r) s' m)
  | ss_call m p n s' : runs (sy m) p → kont_of m p = KCall → harmless (sy m) p (call_num (sy m) p) →
      syscall_on forkret xstate_at fd0_at fd1_at other (sy m) = Ok n s' → sstep m (goes p (called n) s' m)
  | ss_wait m p addr n s' : runs (sy m) p → kont_of m p = KWait addr →
      resume_wait xstate_at addr (sy m) = Ok n s' → sstep m (goes p (called n) s' m)
  | ss_end m p n s' : runs (sy m) p → kont_of m p = KEnd →
      usertrap_end false p NUser (sy m) = Ok n s' → sstep m (goes p (after n) s' m)
  | ss_ret m p r s' : runs (sy m) p → kont_of m p = KRet →
      usertrapret kernel_satp usertrap_addr hartid (sy m) = Ok r s' → sstep m (SMach s' (<[p := KUser]> (konts m)))
  | ss_timer m p s' : myproc (kk (sy m)) = Some p → idles (sy m) ∨ kont_of m p ≠ KUser →
      kerneltrap_timer (sy m) = Ok tt s' → sstep m (SMach s' (konts m))
  | ss_device m p chs : myproc (kk (sy m)) = Some p → idles (sy m) ∨ kont_of m p ≠ KUser →
      sstep m (SMach (set_kk (foldr wakeup (kk (sy m)) chs) (sy m)) (konts m))
  | ss_idle m r s' : idles (sy m) → on_kk schedule (sy m) = Ok r s' → sstep m (SMach s' (konts m)).

(** ** User steps *)

Section params.
Context (Hxst : ∀ i, KERNBASE ≤ xstate_at i ∧ xstate_at i + 4 ≤ kend).
Context (stack : nat → Z) (Hstack : ∀ i, (i < NPROC)%nat → stack i ∈ kernel_pages).
Context (Hfds : ∀ i, stack i ≤ fd0_at i ∧ fd0_at i + 4 ≤ stack i + PGSIZE ∧ stack i ≤ fd1_at i ∧ fd1_at i + 4 ≤ stack i + PGSIZE ∧ (fd0_at i + 4 ≤ fd1_at i ∨ fd1_at i + 4 ≤ fd0_at i)).

(** The space of a process, as the kernel's functions find it. *)
Lemma space_of s qs l sp i v : SYS None s qs l sp → sp !! i = Some (Some v) →
  pagetable (getp (kk s) i) = us_root v ∧ trapframe (getp (kk s) i) = us_tf v ∧ SP (mm s) l v ∧ page_ok (us_tf v) ∧ PT (ram (mm s)) (us_root v) (us_t v).
Proof.
  intros HS Hv. destruct (SYS_length _ _ _ _ _ HS) as (_ & _ & Esp). assert (i < NPROC)%nat as Hi by (rewrite <-Esp; by eapply lookup_lt_Some).
  destruct (SYS_slot _ _ _ _ _ i HS Hi) as (_ & o & Ho & Hok). rewrite Hv in Ho. injection Ho as <-. destruct Hok as (_ & Ept & Etf & _). pose proof (live_elem _ _ _ Hv) as Hin.
  destruct (ks_own _ _ _ _ _ _ _ (sy_ks _ _ _ _ _ HS)) as [_ _ Hsp _ Hok]. split; [done|]. split; [done|]. split; [by apply Hsp|]. split; [|apply (vm_pt _ _ _ _ (as_vm _ _ _ _ _ (sp_as _ _ _ (Hsp v Hin))))].
  rewrite Forall_forall in Hok. apply Hok. unfold pages_of. apply elem_of_app. left. apply elem_of_all_owned. exists v. split; [done|by left].
Qed.

Lemma user_pte_eq s qs l sp i v va : SYS None s qs l sp → sp !! i = Some (Some v) → 0 ≤ va < MAXVA → user_pte s i va = pte_of (ram (mm s)) (us_t v) va.
Proof.
  intros HS Hv Hva. destruct (space_of _ _ _ _ _ _ HS Hv) as (Ept & _ & _ & _ & HP). unfold user_pte, pte_of. rewrite Ept, (walk_lookup _ _ _ _ HP Hva).
  destruct (leaf_at (us_t v) va) as [a|] eqn:Ha; [|done]. change (default 0 (Some a)) with a. pose proof (leaf_at_pos _ _ _ _ _ HP (proj1 Hva) Ha). by destruct (Z.eqb_spec a 0); [lia|].
Qed.

Lemma may_write_page s qs l sp i v a : SYS None s qs l sp → sp !! i = Some (Some v) → may_write s i a → ∃ q, q ∈ upages (mm s) (us_t v) (us_n v) ∧ q ≤ a < q + PGSIZE.
Proof.
  intros HS Hv (va & Hva & HV & HU & _ & Ha). destruct (space_of _ _ _ _ _ _ HS Hv) as (_ & _ & [HA Hsm] & Htf & _). rewrite (user_pte_eq _ _ _ _ _ _ _ HS Hv Hva) in *.
  destruct (user_vpn _ _ _ _ _ HA (sysmap_not_user _ _ _ Hsm Htf) va Hva HV HU) as [Hk E]. exists (PTE2PA (pte_of (ram (mm s)) (us_t v) va)). split; [|done]. apply elem_of_upages. exists (vpn va). by rewrite E.
Qed.

Lemma user_stays p s qs l sp m : SYS None s qs l sp → runs s p → user_ran s p m → stays p s l sp (set_mm (Mst m (freelist (mm s))) s).
Proof.
  intros HS Hr [Hb Hm]. destruct (SYS_running _ _ _ _ _ _ HS Hr) as (Hp & _ & _ & _ & u & Hu & _). destruct (space_of _ _ _ _ _ _ HS Hu) as (_ & Etf & _).
  pose proof (ks_own _ _ _ _ _ _ _ (sy_ks _ _ _ _ _ HS)) as HO. destruct (omap_id_split sp p (Some u) Hu) as (us1 & us2 & Esp & _ & Hoth). cbn [option_list] in Esp. rewrite Esp in HO.
  destruct (OWN_write_user _ _ _ _ _ _ m HO) as [C1 C2 C3]; [|done|].
  - intros a Ha. destruct (decide (rd m a = rd (ram (mm s)) a)) as [|Hne]; [done|]. exfalso. destruct (Hm a Hne) as [Hw|Hw].
    + destruct (may_write_page _ _ _ _ _ _ _ HS Hu Hw) as (q & Hq & Hin). apply (Ha q); [by right|done].
    + rewrite Etf in Hw. apply (Ha (us_tf u)); [by left|]. unfold TF_SIZE, PGSIZE in *. lia.
  - exists qs, l, sp. split; [apply (SYS_mm _ _ _ _ _ _ _ HS); by rewrite Esp|]. split; [|done]. split; [|done|done|].
    + unfold all_pages. rewrite Esp. exact C3.
    + intros i v Hne Hv _. split; [done|]. split; [|done]. apply C2. by apply (Hoth i).
Qed.

(** What a process sees of its memory does not change while the memory is kept. *)
Lemma user_byte_kept s qs l sp s' qs' l' sp' i v va : SYS None s qs l sp → SYS None s' qs' l' sp' → sp !! i = Some (Some v) → sp' !! i = Some (Some v) → kept (mm s) v (mm s') →
  0 ≤ va → user_byte s' i va = user_byte s i va.
Proof.
  intros HS HS' Hv Hv' [_ [K1 K2 K3] _] Hva. destruct (space_of _ _ _ _ _ _ HS Hv) as (Ept & _ & [HA Hsm] & Htf & HP). destruct (space_of _ _ _ _ _ _ HS' Hv') as (Ept' & _ & [HA' Hsm'] & _ & HP').
  pose proof (sysmap_not_user _ _ _ Hsm Htf) as Hu. pose proof (sysmap_not_user _ _ _ Hsm' Htf) as Hu'. unfold user_byte. rewrite Ept, Ept', (walkaddr_lookup _ _ _ _ HP Hva), (walkaddr_lookup _ _ _ _ HP' Hva).
  assert (∀ s0 l0, AS s0 (us_root v) (us_t v) l0 (us_n v) → (∀ va, TRAPFRAME ≤ va < MAXVA → has (pte_of (ram s0) (us_t v) va) PTE_U = false) → ¬ (0 ≤ vpn va < us_n v) → upage s0 (us_t v) va = None) as Hout.
  { intros s0 l0 HA0 Hu0 Hn. destruct (upage s0 (us_t v) va) as [q|] eqn:E; [|done]. by destruct (upage_user _ _ _ _ _ HA0 Hu0 va q Hva E) as (? & _). }
  destruct (decide (0 ≤ vpn va < us_n v)) as [Hk|Hk]; [|by rewrite (Hout _ _ HA Hu Hk), (Hout _ _ HA' Hu' Hk)].
  assert (∀ m, pte_of m (us_t v) va = pte_of m (us_t v) (vpn va * PGSIZE)) as Ep by (intros m; apply pte_of_page; [done|unfold PGSIZE; lia|unfold vpn; by rewrite Z.div_mul by (by compute)]).
  assert (upage (mm s') (us_t v) va = upage (mm s) (us_t v) va) as Eu by (unfold upage; rewrite !Ep; by rewrite (K1 _ Hk : pte_of _ _ _ = pte_of _ _ _)).
  rewrite Eu. destruct (upage (mm s) (us_t v) va) as [q|] eqn:E; [|done]. destruct (upage_user _ _ _ _ _ HA Hu va q Hva E) as (_ & -> & _). change (default 0 (Some ?x)) with x.
  destruct (_ =? 0); [done|]. f_equal. apply K2; [done|]. by apply Z.mod_pos_bound.
Qed.

(** ** The invariant of the machine *)

Definition sv_konts_ok (m : smach) : Prop := length (konts m) = NPROC ∧ ∀ p addr, konts m !! p = Some (KWait addr) → 0 ≤ addr < 2 ^ 64.

Record sinv (pages : list Z) (m : smach) : Prop := {
  sv_konts : sv_konts_ok m;
  sv_sys : ∃ qs l sp, SYS None (sy m) qs l sp ∧ all_pages (sy m) l sp ≡ₚ pages ∧ settled (sy m) qs;
  sv_initproc : init_ok (sy m)
}.

(** What a step of the process [p] on the CPU may change. *)
Definition isolated (p : nat) (s s' : sys) : Prop :=
  ∀ i, (i < NPROC)%nat → i ≠ p → life_of (state (getp (kk s) i)) = Live →
    hold_of (getp (kk s') i) = hold_of (getp (kk s) i) ∧ (∀ va, 0 ≤ va → user_byte s' i va = user_byte s i va) ∧
    ∀ off, 0 ≤ off < TF_SIZE → rd (ram (mm s')) (trapframe (getp (kk s') i) + off) = rd (ram (mm s)) (trapframe (getp (kk s) i) + off).

Lemma tr_isolated p s qs l sp s' qs' l' sp' : SYS None s qs l sp → SYS None s' qs' l' sp' → tr p s l sp s' l' sp' → isolated p s s'.
Proof.
  intros HS HS' Ht i Hi Hne Hl. destruct (live_space _ _ _ _ _ i HS Hi Hl) as (v & Hv). destruct (tr_others _ _ _ _ _ _ _ Ht i v Hne Hv Hl) as (Hv' & Hk & Hh).
  split; [done|]. split; [intros va Hva; by eapply user_byte_kept|]. intros off Hoff. destruct (space_of _ _ _ _ _ _ HS Hv) as (_ & -> & _). destruct (space_of _ _ _ _ _ _ HS' Hv') as (_ & -> & _).
  apply (kp_tf _ _ _ Hk). unfold TF_SIZE, PGSIZE in *. lia.
Qed.

(** A step that ends in a good state. *)
Lemma leaves_sinv pages m p l sp s' qs ks : SYS None (sy m) qs l sp → all_pages (sy m) l sp ≡ₚ pages → init_ok (sy m) → leaves p (sy m) l sp s' →
  length ks = NPROC ∧ (∀ q addr, ks !! q = Some (KWait addr) → 0 ≤ addr < 2 ^ 64) → sinv pages (SMach s' ks) ∧ isolated p (sy m) s'.
Proof.
  intros HS Hpg Hin (qs' & l' & sp' & HS' & Ht & Hset) Hks. split; [|by eapply tr_isolated]. split; [done| |by apply Ht].
  exists qs', l', sp'. split; [done|]. split; [|done]. cbn [sy]. by rewrite (tr_pages _ _ _ _ _ _ _ Ht).
Qed.

Lemma stays_leaves p s l sp s' : stays p s l sp s' → leaves p s l sp s'.
Proof. intros (qs' & l' & sp' & HS & Ht & Hr). exists qs', l', sp'. split; [done|]. split; [done|]. by eapply runs_settled. Qed.

Lemma konts_insert m p k : length (konts m) = NPROC ∧ (∀ q addr, konts m !! q = Some (KWait addr) → 0 ≤ addr < 2 ^ 64) → (∀ addr, k = KWait addr → 0 ≤ addr < 2 ^ 64) →
  length (<[p := k]> (konts m)) = NPROC ∧ ∀ q addr, <[p := k]> (konts m) !! q = Some (KWait addr) → 0 ≤ addr < 2 ^ 64.
Proof. intros [H1 H2] Hk. rewrite length_insert. split; [done|]. intros q addr [(_ & E & _)|[_ E]]%list_lookup_insert_Some; [by apply Hk|by eapply H2]. Qed.

Lemma comes_leaves p s l sp n s' : comes_to p s l sp n s' → leaves p s l sp s' ∧ ∀ addr, n = NWait addr → 0 ≤ addr < 2 ^ 64.
Proof. destruct n as [| |addr|]; cbn; [split; [by apply stays_leaves|done]|done| |done]. intros [Ha Hl]. split; [done|]. by intros a [= <-]. Qed.

Lemma enters_leaves p s l sp r s' : enters p s l sp r s' → leaves p s l sp s' ∧ ∀ addr, r = Some (NWait addr) → 0 ≤ addr < 2 ^ 64.
Proof.
  destruct r as [n|]; cbn; [|split; [by apply stays_leaves|done]]. intros [Hl Hn]%comes_leaves. split; [done|]. intros addr [= ->]. by apply Hn.
Qed.

(** The operation of each step returns: from every good state. *)
Record no_panic (m : smach) : Prop := {
  np_trap : ∀ p c sepc, runs (sy m) p → (c = TFault → initproc (glob (kk (sy m))) ≠ Some p) → 0 ≤ sepc < 2 ^ 64 → ∃ r s', usertrap_enter c sepc p (sy m) = Ok r s';
  np_call : ∀ p, runs (sy m) p → harmless (sy m) p (call_num (sy m) p) → ∃ n s', syscall_on forkret xstate_at fd0_at fd1_at other (sy m) = Ok n s';
  np_wait : ∀ p addr, runs (sy m) p → kont_of m p = KWait addr → ∃ n s', resume_wait xstate_at addr (sy m) = Ok n s';
  np_end : ∀ p, runs (sy m) p → ∃ n s', usertrap_end false p NUser (sy m) = Ok n s';
  np_ret : ∀ p, runs (sy m) p → ∃ r s', usertrapret kernel_satp usertrap_addr hartid (sy m) = Ok r s';
  np_timer : ∃ s', kerneltrap_timer (sy m) = Ok tt s';
  np_idle : idles (sy m) → ∃ r s', on_kk schedule (sy m) = Ok r s'
}.

Context (Hsatp : 0 ≤ kernel_satp < 2 ^ 64) (Hut : 0 ≤ usertrap_addr < 2 ^ 64) (Hhart : 0 ≤ hartid < 2 ^ 64).

Lemma wp_total {S A} (c : M S A) (Q : A → S → Prop) s : wp c Q s → ∃ a s', c s = Ok a s'.
Proof. intros (a & s' & E & _)%wp_ok. by exists a, s'. Qed.

Lemma kont_range m p addr : sv_konts_ok m → kont_of m p = KWait addr → 0 ≤ addr < 2 ^ 64.
Proof. intros [_ Hk] E. unfold kont_of in E. destruct (konts m !! p) as [k|] eqn:Ek; [|done]. cbn in E. subst k. by eapply Hk. Qed.

Lemma settled_cpu (s : sys) qs p : settled s qs → myproc (kk s) = Some p → has_cpu s p ∧ p ∉ concat qs.
Proof. intros (n & Hcpu & Hn) Hm. assert (n = p) as -> by (destruct Hcpu as [[? _]|[? _]]; congruence). done. Qed.

Lemma sinv_no_panic pages m : sinv pages m → no_panic m.
Proof.
  intros [Hks (qs & l & sp & HS & _ & Hset) Hin]. split.
  - intros p c sepc Hr Hc Hs. eapply wp_total. apply (usertrap_enter_ok c sepc p (sy m) qs l sp); [done|done|by apply init_exits|done|done].
  - intros p Hr Hm. eapply wp_total. by apply (syscall_on_ok forkret xstate_at fd0_at fd1_at other Hxst stack Hstack Hfds p (sy m) qs l sp).
  - intros p addr Hr Hk. eapply wp_total. apply (resume_wait_ok xstate_at Hxst p (sy m) qs l sp addr HS Hr). by eapply kont_range.
  - intros p Hr. eapply wp_total. apply (usertrap_end_ok false p (sy m) qs l sp); [done|done|by apply init_exits].
  - intros p Hr. eapply wp_total. by apply (usertrapret_ok p (sy m) qs l sp).
  - destruct (si_cur _ _ (ks_sched _ _ _ _ _ _ _ (sy_ks _ _ _ _ _ HS))) as (p & Hp & _). destruct (settled_cpu _ _ _ Hset Hp) as [Hcpu Hn].
    destruct (wp_total _ _ _ (kerneltrap_timer_ok p (sy m) qs l sp HS Hcpu Hn)) as ([] & s' & E). by exists s'.
  - intros Hidle. eapply wp_total. by apply (idle_ok 0%nat (sy m) qs l sp).
Qed.

Lemma sstep_ok pages m m' : sinv pages m → sstep m m' → sinv pages m' ∧ ∃ p, myproc (kk (sy m)) = Some p ∧ isolated p (sy m) (sy m').
Proof.
  intros HV Hst. pose proof HV as [Hks (qs & l & sp & HS & Hpg & Hset) Hin].
  assert (∀ p s' ks, myproc (kk (sy m)) = Some p → leaves p (sy m) l sp s' → length ks = NPROC ∧ (∀ q addr, ks !! q = Some (KWait addr) → 0 ≤ addr < 2 ^ 64) →
    sinv pages (SMach s' ks) ∧ ∃ p, myproc (kk (sy m)) = Some p ∧ isolated p (sy m) s') as Hleave.
  { intros p s' ks Hm Hl Hk. destruct (leaves_sinv pages m p l sp s' qs ks HS Hpg Hin Hl Hk). split; [done|by exists p]. }
  assert (∀ p k s', runs (sy m) p → leaves p (sy m) l sp s' → (∀ addr, k = KWait addr → 0 ≤ addr < 2 ^ 64) →
    sinv pages (goes p k s' m) ∧ ∃ p, myproc (kk (sy m)) = Some p ∧ isolated p (sy m) s') as Hgo.
  { intros p k s' Hr Hl Hk. apply (Hleave p); [apply Hr|done|by apply konts_insert]. }
  assert (∀ p n s', runs (sy m) p → comes_to p (sy m) l sp n s' → sinv pages (goes p (called n) s' m) ∧ ∃ p, myproc (kk (sy m)) = Some p ∧ isolated p (sy m) s') as Hcall.
  { intros p n s' Hr [Hl Hn]%comes_leaves. apply Hgo; [done|done|]. intros addr. destruct n; [done|done| |done]. intros [= ->]. by apply Hn. }
  destruct Hst as [m p w Hr _ Hw|m p c sepc r s' Hr _ Hc Hs E|m p n s' Hr _ Hm E|m p addr n s' Hr Hk E|m p n s' Hr _ E|m p r s' Hr _ E|m p s' Hm _ E|m p chs Hm _|m r s' Hidle E].
  - apply (Hleave p); [apply Hr| |done]. by eapply stays_leaves, user_stays.
  - destruct (wp_run _ _ _ _ _ (usertrap_enter_ok c sepc p (sy m) qs l sp HS Hr (init_exits p _ Hin) Hc Hs) E) as [[Hl Hn]%enters_leaves _].
    apply Hgo; [done|done|]. intros addr. destruct r as [[| |a|]|]; try done. intros [= ->]. by apply Hn.
  - apply Hcall; [done|]. exact (wp_run _ _ _ _ _ (syscall_on_ok forkret xstate_at fd0_at fd1_at other Hxst stack Hstack Hfds p (sy m) qs l sp HS Hr Hm) E).
  - apply Hcall; [done|]. exact (wp_run _ _ _ _ _ (resume_wait_ok xstate_at Hxst p (sy m) qs l sp addr HS Hr (kont_range _ _ _ Hks Hk)) E).
  - destruct (comes_leaves _ _ _ _ _ _ (wp_run _ _ _ _ _ (usertrap_end_ok false p (sy m) qs l sp HS Hr (init_exits p _ Hin)) E)) as [Hl Hn].
    apply Hgo; [done|done|]. intros addr. destruct n; [done|done| |done]. intros [= ->]. by apply Hn.
  - destruct (wp_run _ _ _ _ _ (usertrapret_ok p (sy m) qs l sp kernel_satp usertrap_addr hartid HS Hr Hsatp Hut Hhart) E) as (Hstay & _).
    apply (Hleave p); [apply Hr|by apply stays_leaves|by apply konts_insert].
  - destruct (settled_cpu _ _ _ Hset Hm) as [Hcpu Hn]. apply (Hleave p); [done| |done]. exact (wp_run _ _ _ _ _ (kerneltrap_timer_ok p (sy m) qs l sp HS Hcpu Hn) E).
  - destruct (settled_cpu _ _ _ Hset Hm) as [Hcpu Hn]. apply (Hleave p); [done| |done]. by apply (device_ok p (sy m) qs).
  - destruct (si_cur _ _ (ks_sched _ _ _ _ _ _ _ (sy_ks _ _ _ _ _ HS))) as (p & Hp & _). apply (Hleave p); [done| |done]. exact (wp_run _ _ _ _ _ (idle_ok p (sy m) qs l sp HS Hidle) E).
Qed.

Lemma ssteps_inv pages m m' : sinv pages m → rtc sstep m m' → sinv pages m'.
Proof. intros HV. induction 1 as [|m1 m2 m3 H12 _ IH]; [done|]. apply IH. by eapply sstep_ok. Qed.

(** ** From the boot on *)

Section booted.
Context (idle_main initcode initcode_size : Z) (Hcode : 0 ≤ initcode_size < PGSIZE ∧ initcode + initcode_size ≤ kend).
Context (m : mst) (l : list Z) (lo0 : L) (HO : OWN m l [] (system_pages ∅)) (Hlen : (16 ≤ length l)%nat) (HL : IL lo0 false []).

Lemma boot_inv : wp (userinit forkret initcode initcode_size;; scheduler idle_main) (λ _ s, sinv (pages_of m l [] (system_pages ∅)) (SMach s (replicate NPROC KRet))) (Sys m k0 files0 ∅ lo0).
Proof.
  apply wp_bind. eapply wp_mono; [|by apply userinit_ok]. intros [] s1 (m1 & l1 & tf & pt & t & ip & lo1 & -> & HO1 & Hpg1 & Hl1 & HL1).
  eapply wp_mono; [|by apply scheduler_ok]. intros [] s2 (m2 & l2 & tf1 & pt1 & t1 & -> & HO2 & Hpg2).
  split.
  - cbn [konts]. split; [apply length_replicate|]. intros p addr [E _]%lookup_replicate. done.
  - exists boot_qs, l2, (Some (US pt t tf 1) :: Some (US pt1 t1 tf1 0) :: replicate 62 None). split; [by apply boot_SYS|]. split; [|exists 1%nat; split; [right; by split|by_compute]].
    unfold all_pages. cbn [sy mm pipes]. etrans; [|exact Hpg1]. exact Hpg2.
  - exists 0%nat. split; [reflexivity|]. split; [by apply Nat.ltb_lt|]. split; reflexivity.
Qed.
End booted.
End params.
End procmach.
