(* ===== verification/Sysspec.v ===== *)
(** * Processes, system calls and traps: the properties

    What [Trapspec] and [Procmach] prove, from the boot on, with a small machine
    on which the hypotheses hold: 64 pages of memory and the file system of [Fs] on
    an empty disk. *)

From S2P Require Import Prelude Machine Ring Pipe Proc Runq Sched Schedmach Mem Kalloc Vm Vmspec Uvm Ucopy Procmem Files Fsrefs Proclife Procspec Procfork Procwait Procfile Syscall Trapspec Procboot Procmach.

#[local] Opaque wakeup reparent prio_enqueue.

Section theorems.
Context `{LY : Layout} {L : Type} `{!InodeOps L, !InodeLaws L}.
#[local] Notation sys := (@Files.sys L).
Context (forkret kernel_satp usertrap_addr hartid : Z) (xstate_at fd0_at fd1_at stack : nat → Z) (other : Z → M sys (Z + next)).

(** Where the kernel's own objects are: [p->xstate] below [end], the descriptors of
    [sys_pipe] on the kernel stack of the process. *)
Record placed : Prop := {
  pl_xstate : ∀ i, KERNBASE ≤ xstate_at i ∧ xstate_at i + 4 ≤ kend;
  pl_stack : ∀ i, (i < NPROC)%nat → stack i ∈ kernel_pages;
  pl_fds : ∀ i, stack i ≤ fd0_at i ∧ fd0_at i + 4 ≤ stack i + PGSIZE ∧ stack i ≤ fd1_at i ∧ fd1_at i + 4 ≤ stack i + PGSIZE ∧ (fd0_at i + 4 ≤ fd1_at i ∨ fd1_at i + 4 ≤ fd0_at i);
  pl_words : 0 ≤ kernel_satp < 2 ^ 64 ∧ 0 ≤ usertrap_addr < 2 ^ 64 ∧ 0 ≤ hartid < 2 ^ 64
}.

#[local] Notation sstep := (sstep forkret kernel_satp usertrap_addr hartid xstate_at fd0_at fd1_at other).
#[local] Notation no_panic := (no_panic forkret kernel_satp usertrap_addr hartid xstate_at fd0_at fd1_at other).
#[local] Notation usertrap := (usertrap forkret xstate_at fd0_at fd1_at other).

(** C2. From the boot on the kernel is safe.  [userinit] and [scheduler] succeed on any
    memory with sixteen free pages; in every state the machine then reaches, the
    process table, the page tables, the open files, the pipes and the run queue are
    in order ([SYS]), every page of the machine is still there and has one owner,
    and no step panics.  The machine is the one of [Procmach]: one CPU; user code,
    traps, and timer and device interrupts with preemption in the idle loop, at
    [intr_on], after a system call and before the return to user space.  A system
    call is one step from [intr_on] to its end or to the [swtch] with which it sleeps
    or exits, so that interrupts inside of it, the windows of [sleep] and [exit]
    among them, are left out.  The calls are those of [harmless]: fork, exit, wait,
    pipe, kill, dup, getpid, sbrk, uptime, close and pgpte, and numbers outside of the
    table; [init] neither exits, faults nor is killed, and [pgpte] is asked for
    addresses below [MAXVA]. *)
Theorem system_safe idle_main initcode initcode_size m l lo0 :
  placed → 0 ≤ initcode_size < PGSIZE ∧ initcode + initcode_size ≤ kend →
  OWN m l [] (system_pages ∅) → (16 ≤ length l)%nat → IL lo0 false [] →
  ∃ s0, (userinit forkret initcode initcode_size;; scheduler idle_main) (Sys m k0 files0 ∅ lo0) = Ok tt s0 ∧
    ∀ mc, rtc sstep (SMach s0 (replicate NPROC KRet)) mc → sinv (pages_of m l [] (system_pages ∅)) mc ∧ no_panic mc.
Proof.
  intros [H1 H2 H3 (H4 & H5 & H6)] Hcode HO Hlen HL. destruct (proj1 (wp_ok _ _ _) (boot_inv forkret idle_main initcode initcode_size Hcode m l lo0 HO Hlen HL)) as ([] & s0 & E & HV).
  exists s0. split; [exact E|]. intros mc Hr. assert (sinv (pages_of m l [] (system_pages ∅)) mc) as HV' by exact (ssteps_inv _ _ _ _ _ _ _ _ H1 stack H2 H3 H4 H5 H6 _ _ _ HV Hr). split; [done|]. exact (sinv_no_panic _ _ _ _ _ _ _ _ H1 stack H2 H3 H4 H5 H6 _ _ HV').
Qed.

(** C3. Processes are isolated.  A step of the machine of [system_safe] (user code, one
    of the covered system calls, a trap, an interrupt, a return to user space) leaves
    every live process but the one on the CPU with the same bytes in its memory, the
    same registers in its trapframe, the same size and page table, and the same open
    files and working directory. *)
Theorem step_isolates pages mc mc' : placed → sinv pages mc → sstep mc mc' → ∃ p, myproc (kk (sy mc)) = Some p ∧ isolated p (sy mc) (sy mc').
Proof. intros [H1 H2 H3 (H4 & H5 & H6)] HV Hst. exact (proj2 (sstep_ok _ _ _ _ _ _ _ _ H1 stack H2 H3 H4 H5 H6 _ _ _ HV Hst)). Qed.

(** C16. What becomes of a trap of a running process, for every process and whether or
    not it is killed.  It panics exactly in the cases of [trap_panics]: with init
    exiting when [init] is killed, faults or calls [exit], with walk when [pgpte] is
    asked for an address from [MAXVA] on.  Otherwise it returns and leaves well-formed state: each slot
    of the process table is empty or holds an address space whose tables, size and
    trapframe match the entry, queues hold the runnable processes, and the pages are
    those that were there before.  The trap is taken as a whole, without interrupts in
    between; the system call is one of those modelled, or a number outside of the
    table, and a [kill] is not for [init]. *)
Theorem usertrap_outcome c sepc p s qs l sp : placed → SYS None s qs l sp → runs s p → 0 ≤ sepc < 2 ^ 64 →
  (c = TSyscall → killed p (kk s) = 0 → (in_table (call_num s p) = true → elsewhere (call_num s p) = false) ∧
    (call_num s p = SYS_kill → ∀ i, initproc (glob (kk s)) = Some i → pid (getp (kk s) i) ≠ s32 (call_arg s p))) →
  match trap_panics s p c with
  | Some msg => usertrap c sepc s = Panic msg
  | None => ∃ n s' qs' l' sp', usertrap c sepc s = Ok n s' ∧ SYS None s' qs' l' sp' ∧ all_pages s' l' sp' ≡ₚ all_pages s l sp ∧ settled s' qs'
  end.
Proof.
  intros [H1 H2 H3 _] HS Hr Hs Hc. destruct (trap_panics s p c) as [msg|] eqn:Ep; [by apply (usertrap_panics forkret xstate_at fd0_at fd1_at other c sepc p s qs l sp)|].
  destruct (spared c p s qs l sp HS Hr Ep) as (He & Hf & Hx). assert (c = TSyscall → killed p (kk s) = 0 → harmless s p (call_num s p)) as Hm.
  { intros Ec Hk. destruct (Hc Ec Hk) as [Hkn Hki]. destruct (Hx Ec Hk) as [Hex Hpg]. by split. }
  destruct (proj1 (wp_ok _ _ _) (usertrap_ok forkret xstate_at fd0_at fd1_at other H1 stack H2 H3 c sepc p s qs l sp HS Hr He Hf Hm Hs)) as (n & s' & E & [(qs' & l' & sp' & HS' & Ht & Hset) _]%comes_leaves).
  exists n, s', qs', l', sp'. split; [done|]. split; [done|]. split; [apply Ht|done].
Qed.

(** C7. [fork] either returns -1 and changes no process, because the table is full or
    memory is short, or it creates a runnable child, with a new pid, whose memory,
    registers (but for a0, which is 0), open files and directory are the parent's. *)
Theorem fork_spec p s qs l sp : SYS None s qs l sp → runs s p → wp (fork forkret) (fork_post forkret p s qs l sp) s.
Proof. apply fork_ok. Qed.

(** C13. [exit] by a process other than [init]: it becomes a zombie with its status and
    without files, its children go to [init], no page is lost, and the memory of
    every process is as it was. *)
Theorem exit_spec p status s qs l sp : SYS None s qs l sp → runs s p → initproc (glob (kk s)) ≠ Some p → wp (exit status) (λ _ s', exit_post p status s l sp s') s.
Proof. intros HS Hr Hin. by apply (exit_ok s qs l sp p). Qed.

(** C14. [wait] reaps the first zombie child of the table: it returns its pid, its status
    is then at [addr] and its pages are free.  It returns -1 only in three cases:
    there is no child; the caller was killed and no child is a zombie; there is a
    zombie child and the word at [addr] cannot be written, and then the child stays a
    zombie.  It goes to sleep, on itself, only when there are children, none is a
    zombie and the caller is not killed. *)
Theorem wait_spec p addr s qs l sp : placed → SYS None s qs l sp → runs s p → 0 ≤ addr < 2 ^ 64 → wp (wait xstate_at addr) (wait_post p addr s qs l sp) s.
Proof. intros [H1 _ _ _] HS Hr Ha. by apply wait_ok. Qed.

(** C15. [pipe] makes two descriptors for the ends of a new, empty pipe and stores them
    in user memory.  When anything fails the entry of the process is as it was and no
    page or file leaks; bytes of the array may already have been written. *)
Theorem sys_pipe_spec p u fdarray s qs l sp : placed → SYS None s qs l sp → runs s p → sp !! p = Some (Some u) → 0 ≤ fdarray < 2 ^ 64 →
  wp (sys_pipe fd0_at fd1_at fdarray) (pipe_post s l sp p u fdarray) s.
Proof. intros [_ H2 H3 _] HS Hr Hu Ha. by apply (sys_pipe_ok s qs l sp p u HS Hr Hu fd0_at fd1_at stack). Qed.

(** C39. [growproc] changes the size as asked and keeps the memory below both sizes, or
    fails and keeps the size and the memory.  A negative [n] larger than the size is not refused:
    the call succeeds and the size stays ([grown]). *)
Theorem growproc_spec p n s qs l sp : SYS None s qs l sp → runs s p → - 2 ^ 31 ≤ n < 2 ^ 31 → wp (growproc n) (grow_post p n s qs l sp) s.
Proof. apply growproc_ok. Qed.

(** C40. A user program can stop the kernel: [pgpte] hands its argument to [walk], which
    panics on addresses from [MAXVA] on, so the system call panics. *)
Theorem pgpte_panics p sepc s : runs s p → killed p (kk s) = 0 → call_num s p = SYS_pgpte → MAXVA ≤ call_arg s p → usertrap TSyscall sepc s = Panic "walk".
Proof.
  apply pgpte_call.
Qed.
End theorems.

(** ** A machine *)

Program Definition demo_layout : Layout := {| kend := PHYSTOP - 64 * PGSIZE - 100; etext := KERNBASE; trampoline := KERNBASE; kernel_pages := [PHYSTOP - 2 * PGSIZE; PHYSTOP - PGSIZE] |}.
Next Obligation. by compute. Qed.
Next Obligation. by compute. Qed.

#[local] Existing Instance demo_layout | 0.

Lemma demo_memory : ∃ m l, OWN m l [] (system_pages ∅) ∧ (50 ≤ length l)%nat.
Proof.
  destruct (proj1 (wp_ok kinit _ (Mst ∅ 0)) (kinit_list (Mst ∅ 0))) as ([] & s0 & _ & HF & Hb).
  set (l0 := pages_down _ _) in HF. assert (l0 = PHYSTOP - PGSIZE :: PHYSTOP - 2 * PGSIZE :: pages_down 62 (PHYSTOP - 64 * PGSIZE)) as El by (vm_compute; reflexivity).
  clearbody l0. subst l0. assert (OWN s0 (PHYSTOP - PGSIZE :: PHYSTOP - 2 * PGSIZE :: pages_down 62 (PHYSTOP - 64 * PGSIZE)) [] []) as HO0.
  { split; [done|apply Hb; by intros a|by intros u ?%elem_of_nil|apply HF|apply HF]. }
  destruct (proj1 (wp_ok _ _ _) (kalloc_own _ _ _ _ HO0)) as (r1 & s1 & _ & _ & _ & _ & _ & HO1 & _). destruct (proj1 (wp_ok _ _ _) (kalloc_own _ _ _ _ HO1)) as (r2 & s2 & _ & _ & _ & _ & _ & HO2 & _).
  exists s2, (pages_down 62 (PHYSTOP - 64 * PGSIZE)). split; [exact HO2|by apply Nat.leb_le].
Qed.

#[local] Existing Instance Fsspec.flat_usermem.
Definition demo_lo : Type := Fs.fsys (U := Fsspec.flat).
#[local] Instance demo_ops : InodeOps demo_lo := fs_inode_ops.
#[local] Instance demo_laws : InodeLaws demo_lo := fs_inode_laws 2 30.
#[local] Notation dsys := (@Files.sys demo_lo).

(** The kernel stacks are on the last page. *)
Definition demo_xstate (i : nat) : Z := KERNBASE + 400 * Z.of_nat (i `mod` NPROC).
Definition demo_stack (i : nat) : Z := PHYSTOP - PGSIZE.
Definition demo_fd0 (i : nat) : Z := demo_stack i + 8.
Definition demo_fd1 (i : nat) : Z := demo_stack i + 16.
Definition demo_other (num : Z) : M dsys (Z + next) := panic "syscall".

Lemma demo_placed : placed 0 KERNBASE 0 demo_xstate demo_fd0 demo_fd1 demo_stack.
Proof.
  split.
  - intros i. assert (i `mod` NPROC < NPROC)%nat as Hi by (apply Nat.mod_upper_bound; by compute). unfold demo_xstate. change (kend (Layout := demo_layout)) with (KERNBASE + 133955484). unfold NPROC in *. lia.
  - intros i _. right. by left.
  - intros i. unfold demo_fd0, demo_fd1, demo_stack, PGSIZE. lia.
  - unfold KERNBASE. lia.
Qed.

Lemma boot_first k n qs' : chosen k boot_qs n qs' → n = 0%nat.
Proof.
  intros [(j & l & Hj & _)|(Hall & _)].
  - unfold boot_qs in Hj. apply list_lookup_insert_Some in Hj as [(_ & E & _)|[_ Hj]]; [by injection E|]. apply lookup_replicate in Hj as [E _]. done.
  - rewrite Forall_forall in Hall. assert ([0%nat] = []) as E; [|done]. apply Hall. apply (list_elem_of_lookup_2 _ 20). reflexivity.
Qed.

Lemma demo_code : 0 ≤ 52 < PGSIZE ∧ KERNBASE + 52 ≤ kend (Layout := demo_layout).
Proof. change (kend (Layout := demo_layout)) with (KERNBASE + 133955484). unfold PGSIZE, KERNBASE. lia. Qed.

(** The first process on the CPU. *)
Lemma demo_running : ∃ (s : dsys) qs l sp u, SYS None s qs l sp ∧ runs s 0 ∧ sp !! 0%nat = Some (Some u) ∧ init_ok s ∧ initproc (glob (kk s)) = Some 0%nat.
Proof.
  destruct demo_memory as (m & l & HO & Hlen). destruct booted_refs as (lo0 & HL).
  destruct (proj1 (wp_ok _ _ _) (userinit_ok (L := demo_lo) 1 KERNBASE 52 demo_code m l lo0 HO ltac:(lia) HL)) as ([] & s1 & _ & m1 & l1 & tf & pt & t & ip & lo1 & -> & HO1 & _ & Hl1 & HL1).
  destruct (proj1 (wp_ok _ _ _) (scheduler_ok (L := demo_lo) 1 2 m1 l1 tf pt t ip lo1 HO1 Hl1)) as ([] & s2 & _ & m2 & l2 & tf1 & pt1 & t1 & -> & HO2 & _).
  pose proof (boot_SYS (L := demo_lo) 1 2 m2 l2 tf pt t ip tf1 pt1 t1 lo1 HO2 HL1) as HS. set (sp := Some (US pt t tf 1) :: _) in HS. set (s := Sys m2 _ _ _ _) in HS.
  assert (∀ i, (i < NPROC)%nat → state (getp (kk s) i) ≠ RUNNING) as Hnr. { intros i Hi Hrun. pose proof (si_running _ _ (k_boot_SInv 1 2 tf pt ip tf1 pt1) i Hi Hrun) as [= <-]. done. }
  destruct (proj1 (wp_ok _ _ _) (schedule_ok (kk s) boot_qs (k_boot_SInv 1 2 tf pt ip tf1 pt1) Hnr)) as ([nx ie] & k' & E & _ & n & qs' & -> & Hch & _ & Hmy & _). pose proof (boot_first _ _ _ Hch) as ->.
  assert (on_kk schedule s = Ok (Some 0%nat, ie) (set_kk k' s)) as Es by (unfold on_kk, zoom; by rewrite E).
  destruct (wp_run _ _ _ _ _ (schedule_leaves 1 s boot_qs l2 sp HS Hnr) Es) as (qs2 & l3 & sp3 & HS3 & Ht & (n & Hcpu & _)).
  destruct (wp_run _ _ _ _ _ (schedule_sys None s boot_qs l2 sp HS Hnr) Es) as (n' & qs3 & HS4 & Hcpu4 & _ & _ & _ & _ & _ & _ & _ & Eg & Eid & _).
  assert (n' = 0%nat) as -> by (destruct Hcpu4 as [[Hm _]|[Hm _]]; cbn [kk set_kk] in Hm; congruence).
  exists (set_kk k' s), qs3, l2, sp, (US pt t tf 1). split; [done|]. split; [destruct Hcpu4 as [?|[_ Hid]]; [done|]; rewrite Eid in Hid; done|]. split; [done|]. split; [|by rewrite Eg].
  apply (tr_init _ _ _ _ _ _ _ Ht). exists 0%nat. split; [reflexivity|]. split; [by apply Nat.ltb_lt|]. split; reflexivity.
Qed.

Lemma system_safe_witness : ∃ (s0 : dsys) pages, let mc := SMach s0 (replicate NPROC KRet) in sinv pages mc ∧ no_panic 1 0 KERNBASE 0 demo_xstate demo_fd0 demo_fd1 demo_other mc.
Proof.
  destruct demo_memory as (m & l & HO & Hlen). destruct booted_refs as (lo0 & HL).
  destruct (system_safe 1 0 KERNBASE 0 demo_xstate demo_fd0 demo_fd1 demo_stack demo_other 2 KERNBASE 52 m l lo0 demo_placed demo_code HO ltac:(lia) HL) as (s0 & _ & H).
  destruct (H _ (rtc_refl _ _)) as [HV HN]. exists s0, (pages_of m l [] (system_pages ∅)). split; [exact HV|exact HN].
Defined.

(** A timer interrupt of the first process. *)
Lemma step_isolates_witness : ∃ (mc mc' : smach (L := demo_lo)), sstep 1 0 KERNBASE 0 demo_xstate demo_fd0 demo_fd1 demo_other mc mc' ∧ isolated 0 (sy mc) (sy mc').
Proof.
  destruct demo_running as (s & qs & l & sp & u & HS & Hr & _ & Hin & _). set (mc := SMach s (replicate NPROC KUser)).
  assert (sinv (all_pages s l sp) mc) as HV.
  { split; [split; [apply length_replicate|by intros p addr [E _]%lookup_replicate]|exists qs, l, sp; split; [exact HS|split; [done|by eapply runs_settled]]|exact Hin]. }
  destruct (proj1 (wp_ok _ _ _) (usertrap_enter_ok TTimer 4096 0 s qs l sp HS Hr (init_exits 0 s Hin) ltac:(discriminate) ltac:(lia))) as (r & s' & E & _).
  assert (sstep 1 0 KERNBASE 0 demo_xstate demo_fd0 demo_fd1 demo_other mc (goes 0 (entered r) s' mc)) as Hst by (by eapply (ss_trap _ _ _ _ _ _ _ _ mc 0 TTimer 4096)).
  destruct (step_isolates 1 0 KERNBASE 0 demo_xstate demo_fd0 demo_fd1 demo_stack demo_other _ _ _ demo_placed HV Hst) as (p & Hp & Hiso).
  exists mc, (goes 0 (entered r) s' mc). split; [exact Hst|]. rewrite (proj1 Hr : myproc (kk (sy mc)) = Some 0%nat) in Hp. injection Hp as <-. exact Hiso.
Defined.

(** [init] is interrupted by the timer, and faults. *)
Lemma usertrap_outcome_witness : ∃ (s : dsys) n s' qs' l' sp', usertrap 1 demo_xstate demo_fd0 demo_fd1 demo_other TTimer 4096 s = Ok n s' ∧ SYS None s' qs' l' sp' ∧
  usertrap 1 demo_xstate demo_fd0 demo_fd1 demo_other TFault 4096 s = Panic "init exiting".
Proof.
  destruct demo_running as (s & qs & l & sp & u & HS & Hr & _ & Hin & Hi).
  pose proof (usertrap_outcome 1 0 KERNBASE 0 demo_xstate demo_fd0 demo_fd1 demo_stack demo_other TTimer 4096 0 s qs l sp demo_placed HS Hr ltac:(lia) ltac:(discriminate)) as H1.
  pose proof (usertrap_outcome 1 0 KERNBASE 0 demo_xstate demo_fd0 demo_fd1 demo_stack demo_other TFault 4096 0 s qs l sp demo_placed HS Hr ltac:(lia) ltac:(discriminate)) as H2.
  assert (killed 0 (kk s) = 0) as Hk by (destruct Hin as (i & E & _ & _ & Hk); rewrite Hi in E; injection E as <-; exact Hk).
  unfold trap_panics, dies in H1, H2. rewrite Hk in H1. cbn [negb Z.eqb] in H1. rewrite decide_True in H2 by exact Hi.
  destruct H1 as (n & s' & qs' & l' & sp' & E & HS' & _). exists s, n, s', qs', l', sp'. split; [exact E|]. split; [exact HS'|exact H2].
Defined.

Lemma fork_spec_witness : ∃ (s : dsys) qs l sp, SYS None s qs l sp ∧ runs s 0 ∧ wp (fork 1) (fork_post 1 0 s qs l sp) s.
Proof.
  destruct demo_running as (s & qs & l & sp & u & HS & Hr & _). exists s, qs, l, sp. split; [exact HS|]. split; [exact Hr|]. exact (fork_spec 1 0 s qs l sp HS Hr).
Defined.

Lemma exit_spec_witness : ∃ (s : dsys) l sp, runs s 0 ∧ wp (exit 7) (λ _ s', exit_post 0 7 s l sp s') s.
Proof.
  destruct demo_running as (s & qs & l & sp & u & HS & Hr & _). set (k := set_glob (Globals (Some 1%nat) 2 0) (kk s)).
  assert (SYS None (set_kk k s) qs l sp) as HS'. { apply SYS_sched with (1 := HS); [|done|done]. apply (glob_keeps (kk s)), HS. }
  exists (set_kk k s), l, sp. split; [exact Hr|]. exact (exit_spec 0 7 (set_kk k s) qs l sp HS' Hr ltac:(discriminate)).
Defined.

Lemma wait_spec_witness : ∃ (s : dsys) qs l sp, SYS None s qs l sp ∧ runs s 0 ∧ wp (wait demo_xstate 16) (wait_post 0 16 s qs l sp) s.
Proof.
  destruct demo_running as (s & qs & l & sp & u & HS & Hr & _). exists s, qs, l, sp. split; [exact HS|]. split; [exact Hr|].
  exact (wait_spec 0 KERNBASE 0 demo_xstate demo_fd0 demo_fd1 demo_stack 0 16 s qs l sp demo_placed HS Hr ltac:(lia)).
Defined.

Lemma sys_pipe_spec_witness : ∃ (s : dsys) qs l sp u, SYS None s qs l sp ∧ runs s 0 ∧ wp (sys_pipe demo_fd0 demo_fd1 16) (pipe_post s l sp 0 u 16) s.
Proof.
  destruct demo_running as (s & qs & l & sp & u & HS & Hr & Hu & _). exists s, qs, l, sp, u. split; [exact HS|]. split; [exact Hr|].
  exact (sys_pipe_spec 0 KERNBASE 0 demo_xstate demo_fd0 demo_fd1 demo_stack 0 u 16 s qs l sp demo_placed HS Hr Hu ltac:(lia)).
Defined.

Lemma growproc_spec_witness : ∃ (s : dsys) qs l sp, SYS None s qs l sp ∧ runs s 0 ∧ wp (growproc 4096) (grow_post 0 4096 s qs l sp) s.
Proof.
  destruct demo_running as (s & qs & l & sp & u & HS & Hr & _). exists s, qs, l, sp. split; [exact HS|]. split; [exact Hr|]. exact (growproc_spec 0 4096 s qs l sp HS Hr ltac:(lia)).
Defined.

(** A process that asks for the entry of [MAXVA]. *)
Lemma pgpte_panics_witness : ∃ s : dsys, usertrap 1 demo_xstate demo_fd0 demo_fd1 demo_other TSyscall 0 s = Panic "walk".
Proof.
  destruct booted_refs as (lo0 & _). set (m := store64 TF_A7 SYS_pgpte (store64 TF_A0 MAXVA ∅)).
  exists (Sys (Mst m 0) (Kst [set_state RUNNING proc0] [] 0 (Cpu (Some 0%nat) 0 false None false false) (Globals None 1 0)) files0 ∅ lo0).
  apply (pgpte_panics 1 demo_xstate demo_fd0 demo_fd1 demo_other 0 0); [done|reflexivity|vm_compute; reflexivity|vm_compute; discriminate].
Defined.
